(* ===== verification/_CoqProject ===== *)
-Q . S2P
Prelude.v
Types.v
Status.v
Codec.v
Wire.v
Tlv.v
Heapless.v
Storage.v
NorFlash.v
NorFlashLog.v
NorFlashMap.v
NorFlashContract.v
FrameCounter.v
AuxHeader.v
Ccm.v
SecFrame.v
Mmo.v
Keys.v
NwkSecurity.v
NwkFrame.v
Routing.v
NwkTables.v
NwkCommand.v
NwkNeighbor.v
NwkBeacon.v
NwkDiscovery.v
NwkInterface.v
MacFrame.v
NwkState.v
NwkTx.v
NwkPending.v
NwkBcast.v
NwkRoute.v
NwkPower.v
NwkScan.v
NwkLeave.v
NwkJoin.v
NwkParent.v
NwkReceive.v
NwkDelivery.v
NwkMembership.v
ApsTables.v
ApsFrame.v
ApsCommand.v
ApsSecurity.v
ApsTypes.v
ApsLayer.v
ApsServices.v
ApsReceive.v
ApsFootprint.v
ApsTransfer.v
ApsExchange.v
ApsPolicy.v
ApsTimers.v
ApsQueues.v
