(* ===== verification/Prelude.v ===== *)
(** * Verification of the Panweave Zigbee stack

    Panweave is a [no_std] Zigbee stack in Rust, split into crates that mirror
    the protocol layers. This library models the core that every frame passes
    through: octet cursors and TLVs, persistent storage, frame counters, CCM*
    frame protection, key material, the frames of the MAC, the network layer
    (NWK) and the application support sub-layer (APS) without its inter-PAN
    frames. Pure code is translated to functions, [&mut self] methods to
    functions that return the new state (also when they fail, since Rust does
    not roll back), [Result] to [result], [Option] to [option].

    ** Files and sources

    - [Prelude]: [result], the state-and-error monad [SE] (what a method
      [fn m(&mut self, ..) -> Result<A, E>] is), machine widths ([uint w],
      saturating arithmetic), little-endian octets, list helpers, automation
      and the hint databases.
    - [Types]: panweave-types/src/address.rs, channel.rs, time.rs, capability.rs
      (address classes, PAN ids, channels and masks, saturating instants and
      durations, capability bits).
    - [Codec]: panweave-codec/src/{error,reader,writer,lib}.rs ([Module
      Reader], [Module Writer], the traits [Decode]/[Encode] as classes).
      [writes] and [decodes] are the interface codecs are proved against: what
      an encoder appends, and that a decoder consumes exactly that.
    - [Tlv]: panweave-codec/src/tlv.rs ([Tlv], [TlvIter], [TlvSet]).
    - [Heapless]: the bounded vectors of the third-party [heapless] crate, as
      a class whose laws are its documented behaviour (a push fails exactly
      when the vector is full, and so on), and the lemmas on first-match
      lookups and updates the tables share.
    - [Storage]: panweave-storage/src/lib.rs: [Kind], [Key], the trait
      [Storage] as a class, its contract [StorageLaws] (every implementation
      refines a finite map from keys to records), and [MemoryStorage].
    - [NorFlash]: panweave-storage/src/nor_flash.rs, every operation of the
      log-structured store over a driver class; [NorFlashLog]: what the
      operations read and write of the log; [NorFlashMap]: the map a log stands
      for; [NorFlashContract]: the [StorageLaws] instance, reopening, power
      loss, and the theorems.
    - [FrameCounter]: panweave-security/src/frame_counter.rs
      ([OutgoingCounter], [IncomingCounters]); [Module Persisted] is the
      protocol between the counter, the NWK layer (layer/mod.rs
      [maybe_reserve_counter], layer/join.rs [switch_network_key]), the runtime
      (pump.rs, persist.rs) and any [Storage], as a transition system whose
      steps include storage failures, restarts and key switches.
    - [AuxHeader], [Ccm], [SecFrame]: panweave-security/src/aux_header.rs,
      ccm.rs with the trait of cipher.rs, frame.rs.
    - [Mmo]: mmo.rs and key_hierarchy.rs. [Keys]: material.rs and
      panweave-types/src/key.rs.
    - [NwkSecurity], [NwkFrame], [Routing], [NwkTables]: panweave-nwk/src/
      security.rs, frame.rs, routing.rs, address_map.rs and broadcast.rs.
    - [NwkCommand]: panweave-nwk/src/command.rs, every network command codec.
    - [NwkNeighbor]: neighbor.rs and joining_list.rs, with [Module Maint] for
      the blocks of [poll_timers] (layer/maint.rs) that age routes and children
      from the neighbour table.
    - [NwkBeacon]: tlv.rs and beacon.rs; the class [GlobalTlv], with an instance
      for every typed TLV, states what it promises: what it writes parses back.
      [NwkDiscovery]: discovery.rs.
    - [NwkInterface]: interface.rs. [MacFrame]: panweave-mac/src/frame.rs and
      constants.rs.
    - [NwkState], [NwkTx], [NwkBcast], [NwkRoute]: the network layer's traffic.
      [NwkState] is nib.rs and the data of layer/mod.rs; [NwkTx.Tx] the rest of
      layer/mod.rs, frame construction, next hop choice and the queue of
      unicasts of layer/tx.rs and the route requests of layer/route.rs;
      [NwkBcast.Bcast] layer/bcast.rs and the data request; [NwkRoute.Route] the
      rest of layer/route.rs with the address bookkeeping of layer/rx.rs and
      layer/join.rs it uses, and the unicast relays of layer/tx.rs.
      [NwkPending] holds the theorems on the loops over the queue.
    - [NwkPower.Power]: layer/power.rs. [NwkScan.Scan]: beacons, scans,
      formation, permit joining and PAN id changes of layer/join.rs.
      [NwkLeave.Leaving]: the leaves of layer/join.rs; [NwkLeave.EndDevice]: the
      end device timeout of layer/maint.rs. [NwkJoin.Joining]: the joining
      device's half of layer/join.rs; [NwkParent.Parent]: the parent's half.
    - [NwkReceive.Confirm]: the MAC confirms of layer/tx.rs;
      [NwkReceive.Receive]: layer/rx.rs, from the received octets to the handler
      of every command; [NwkReceive.Timers]: [poll_timers], [next_deadline] and
      the warm start. The layer's entry points are [on_mac_data] and the other
      [on_mac_*] functions, the requests, and [poll_timers]; its outputs are the
      actions and events of its queues. [NwkDelivery] and [NwkMembership] hold
      the theorems about the layer as a whole.
    - [Status]: panweave-types/src/status.rs. [Wire]: what one field of a wire
      format promises in both directions, and tactics that walk a codec field
      by field; it models no source of its own.
    - [ApsTables], [ApsFrame], [ApsSecurity]: panweave-aps/src/tables.rs,
      frame.rs, security.rs; [ApsSecurity] also holds the frame counter
      challenge (panweave-security/src/challenge.rs) and the reservation loop
      of layer/tx.rs. [ApsCommand]: command.rs, every command codec.
    - [ApsTypes], [ApsLayer], [ApsServices], [ApsReceive]: the APS layer.
      [ApsTypes] is aib.rs and the data types of layer/{mod,tx,rx}.rs;
      [ApsLayer.Aps] the state and layer/mod.rs, layer/tx.rs (requests, blocks,
      frame construction, the transmission procedure, acknowledgements,
      timers); [ApsServices.Services] the requests, the acceptance policy and
      the command handlers of layer/cmd.rs; [ApsReceive.Receive] layer/rx.rs
      and [handle_command]. The layer talks to the NWK layer through actions
      and to the application through events and indications, which are values
      of its queues here as in the code.
    - [ApsFootprint] (what operations leave alone: a class of observers and the
      operations that keep them), [ApsTransfer] and [ApsExchange] (the
      fragmentation protocol between a sender and a receiver), [ApsPolicy]
      (what a received frame may change), [ApsTimers] (loops and deadlines) and
      [ApsQueues] (counter reservations beyond the action queue): the theorems
      about the APS layer.

    ** What the theorems show

    - Freshness. No NWK frame counter is issued twice within an epoch, across
      restarts, storage failures and key switches, on any storage that meets
      the contract ([frame_counters_never_reused]); the one interleaving in
      which it fails is exhibited ([stale_reservation_reuse]). Counters accepted
      from a sender strictly increase. Nonces are injective in address, counter
      and control octet.
    - Authenticity. CCM* decryption accepts exactly the encryptions of a
      message; the in-place CBC-MAC computes its reference definition, and the
      streaming hash the one of Annex B.4 ([mmo_stream_reference]); what
      [unprotect_in_place] accepts is the frame
      that [protect_in_place] makes of the payload handed out, with the received
      header and auxiliary header ([unprotect_protects]); and no operation leaves a
      stale cipher in the cache ([cipher_cache_coherent]).
    - Codecs. Round trips in both directions (decode after encode, and encode
      after decode, which makes the decoders canonical), refusal of
      inconsistent headers ([nwk_header_decode_canonical]); TLV validation
      decides the Annex I rules ([tlv_validate_decides]).
    - Tables. Each bounded table is a map whose insertions keep every other
      entry, except the one victim the eviction rule names: routes under
      discovery, running discoveries and unexpired broadcasts are never given
      up; the address map stays one-to-one. No insertion evicts the parent or a
      child from the neighbour table ([neighbor_insert_protects]); the link
      quality is the median of the last three samples ([lqa_filter_median]);
      the parents to try are listed best first ([ranked_best_first]).
    - Network commands and beacons. The commands that can be received are
      exactly the well-formed ones, and each is read back from its encoding
      ([nwk_command_codec_exact]); a joining device reads the TLVs a router
      advertises ([beacon_advertises]).
    - The network layer. The pass over the queue of unicasts ends and leaves
      nothing due ([service_pending_settles]); the release of waiting frames
      ends when the counter has values in reserve ([release_waiting_ends]) and
      runs for ever when it has none ([release_waiting_hangs]). No broadcast is
      processed twice within its delivery time ([broadcast_processed_once]), and
      a router relays the received frame, one hop less, within the jitter
      ([broadcast_relay_exact]). No route leads over a link that works one way,
      and nothing is learnt from requests or replies that come over it
      ([one_way_link_unused]). Source routed commands are lost at the first
      relay ([source_routed_command_lost]).
    - The network layer, end to end. What [data_request] of one device puts on
      the air, [on_mac_data] of another with the same key hands up unchanged
      ([unicast_delivered]). The payload that is handed up as secured is the one
      that was protected, under a held key and with a fresh counter ([delivered_data_authentic]), and a frame
      whose protection does not check moves nothing but the cipher cache and
      the statistics ([forged_frame_inert]).
    - Membership. A join tries no more parents than it may and ends
      ([join_search_ends]); a formation takes the best channel and a free PAN id
      ([formation_chooses]); a device that left for good has forgotten the
      network and hears nothing more of it ([local_leave_forgets]); no unsecured
      request makes an authenticated child ([unsecured_attach_authenticates_nobody]).
      Three places where the code misses its purpose are exhibited: an unsecured
      request rewrites the entry of a parent or sibling
      ([unsecured_attach_rewrites_neighbor]), an announced PAN id change outlives
      the leave ([pan_id_survives_leave]), and a keepalive stays due that nobody
      sends ([keepalive_left_due]).
    - MAC frames and interfaces. The MAC frames that can be received are exactly
      the well-formed ones ([mac_frame_codec_exact]), compression of PAN ids loses
      nothing ([mac_addressing_round_trip]), and every sequence of operations
      keeps the interfaces consistent and one of them enabled, but for the removal
      of a Trusted Link that is the only one ([interfaces_stay_enabled]).
    - Ageing of the network tables. Four places where the code misses its
      purpose are exhibited: nine silent routers stop the layer
      ([silent_routers_panic]), the ninth child that times out is dropped
      silently ([child_aging_reports_eight]), child timers may run almost twice
      as long as set ([child_clock_lags]), and a refused joining list is partly
      stored under the old identifier ([joining_list_announces]).
    - Storage. The RAM backend and the flash log refine the map contract on
      every branch, erasures and compaction included; the flash store finds its map again
      after a restart, a power loss during a store spares every other record,
      and two stores on one flash do not disturb each other. A torn store hides
      the record it was to replace ([torn_store_hides_record]), and granules of
      32 octets do not work ([wide_granule_unusable]).
    - APS. The binding and group tables refine a finite set and a finite
      relation; duplicates are rejected, and only duplicates; headers survive
      the wire. With link keys: nothing unauthenticated moves the receiver, no
      frame is accepted twice, the cipher cache is never stale, the challenge
      leaves both partners with the same counter, and the loop that requests
      reservations ends. Every command survives the wire, and the octets the command decoder accepts
      are characterised exactly ([aps_command_decode_exact]).
    - The APS layer. Fragmentation delivers the sender's ASDU or nothing,
      whatever the network does to the blocks ([fragments_reassemble]), and
      over a working link delivers it once and confirms it
      ([fragmented_transfer_completes]). A frame without APS security changes
      no key, no Trust Center and no authorization
      ([unsecured_frames_change_no_trust]). After the timers nothing is left that
      could be done before the next deadline, and what was ready is in the
      action queue unless that is full ([poll_timers_settles]). Three places where the code misses its purpose
      are exhibited: the Trust Center swap-out ([swap_out_ignores_ciphertext]),
      counter reservations beyond the action queue
      ([reservation_queue_overflow]), and the persistence of a completed
      reassembly ([late_retransmission_unacknowledged]).

    ** Parameters, bounds and fuel

    Third-party code is a class with the documented behaviour the sources rely
    on: [Heapless], [BlockCipher] (any function of key and block that returns
    16 octets), [ConstantTimeEq], [Rng], [NorFlash], [UnstableSort]
    (the unstable sort of the Rust core library: some sorted permutation). Each class has an executable
    instance, which the witnesses use. [NorFlashLaws] adds what is relied on of
    a flash driver: aligned requests inside the capacity are carried out or
    refused without effect, and a reliable driver refuses none. Octets are [Z] with [uint 8]; [usize] is
    [nat] (all lengths are far below 2^32); counters are [Z] bounded by
    [uint 32] with the code's checks and saturation written out. Fuel
    appears where the code loops over a shrinking slice: TLV iteration,
    [cbc_mac] and [ctr_xor], the hasher, the chunked flash writer. It is the
    length of the slice, and every round consumes at least one octet, so it is
    never exhausted; the specifications ([items_enough], [absorb_spec],
    [push_loop_spec] and the like) are proved for any fuel of at least that
    length. Loops over a half of the flash get its size: a record takes at
    least 16 octets. The loops over the pending APS transmissions
    ([service_loop], [expire_loop]) get the number of entries: every round
    advances or removes one ([service_loop_fuel], [expire_loop_post]); a frame
    inside a relay message is processed one level deep, as in the code. The
    loops over the queue of unicasts ([walk]) put frames back into the list they
    walk; they answer [None] while they still run, and the theorems of
    [NwkPending] give the fuel that is enough, or show that none is. The search for
    a parent gets one round for each of the at most 255 attempts
    ([join_search_ends]). The
    rejection sampling of the random generator is bounded by the class
    [FairRng].

    ** Not modelled, and the plan

    Logging, formatting, zeroize-on-drop and the AES implementation have no
    counterpart here. Of a received buffer only the octets an indication borrows
    are followed once the frame is opened. Left out are the inter-PAN frames of
    the APS crate, the MAC service state machine (panweave-mac/src/service.rs) with
    its information elements and radio, and the crates above the APS layer: the
    device objects, the cluster library, base device behaviour, Green Power, the
    runtime that passes events between the layers (but for its counter
    persistence), and the host-side applications. *)

From stdpp Require Export base list list_numbers option numbers strings.
From stdpp Require Export gmap.
From Stdlib Require Export ZArith Lia.

#[global] Open Scope Z_scope.
#[global] Set Default Goal Selector "!".

(** ** Results and the state-and-error monad *)

(** [Result<A, E>] of the Rust core library. *)
Inductive result (A E : Type) : Type :=
  | Ok (a : A)
  | Err (e : E).
Arguments Ok {A E} a.
Arguments Err {A E} e.

#[export] Instance Ok_inj {A E} : Inj (=) (=) (@Ok A E).
Proof. by intros ?? [=]. Qed.

Definition is_ok {A E} (r : result A E) : bool :=
  match r with Ok _ => true | Err _ => false end.

Definition map_err {A E F} (f : E → F) (r : result A E) : result A F :=
  match r with Ok a => Ok a | Err e => Err (f e) end.

Definition ok_or {A E} (o : option A) (e : E) : result A E :=
  match o with Some a => Ok a | None => Err e end.

(** A method [fn m(&mut self, ..) -> Result<A, E>]: the state survives a
    failure, because [&mut self] is not rolled back when [?] returns. *)
Definition SE (S E A : Type) : Type := S → result A E * S.

#[export] Instance se_ret {S E} : MRet (SE S E) := λ A a s, (Ok a, s).

#[export] Instance se_bind {S E} : MBind (SE S E) := λ A B f m s,
  match m s with
  | (Ok a, s') => f a s'
  | (Err e, s') => (Err e, s')
  end.

(** [Err(e)?] and the lifting of a plain result. *)
Definition fail {S E A} (e : E) : SE S E A := λ s, (Err e, s).
Definition lift {S E A} (r : result A E) : SE S E A := λ s, (r, s).

(** Reading and updating the state. *)
Definition gets {S E A} (f : S → A) : SE S E A := λ s, (Ok (f s), s).
Definition modify {S E} (f : S → S) : SE S E unit := λ s, (Ok tt, f s).

Lemma se_bind_ok {S E A B} (m : SE S E A) (f : A → SE S E B) s a s' :
  m s = (Ok a, s') → (m ≫= f) s = f a s'.
Proof. intros H. unfold mbind, se_bind. by rewrite H. Qed.

Lemma se_bind_err {S E A B} (m : SE S E A) (f : A → SE S E B) s e s' :
  m s = (Err e, s') → (m ≫= f) s = (Err e, s').
Proof. intros H. unfold mbind, se_bind. by rewrite H. Qed.

Lemma se_bind_inv {S E A B} (m : SE S E A) (f : A → SE S E B) s b s' :
  (m ≫= f) s = (Ok b, s') → ∃ a s1, m s = (Ok a, s1) ∧ f a s1 = (Ok b, s').
Proof. unfold mbind, se_bind. destruct (m s) as [[a|e] s1] eqn:E1; naive_solver. Qed.

Lemma se_bind_assoc {S E A B C} (m : SE S E A) (f : A → SE S E B) (g : B → SE S E C) s :
  ((m ≫= f) ≫= g) s = (m ≫= (λ a, f a ≫= g)) s.
Proof. unfold mbind, se_bind. by destruct (m s) as [[]]. Qed.

(** ** Machine integers *)

Definition u8_max : Z := 2 ^ 8 - 1.
Definition u16_max : Z := 2 ^ 16 - 1.
Definition u32_max : Z := 2 ^ 32 - 1.
Definition u64_max : Z := 2 ^ 64 - 1.

(** Membership of a [w]-bit unsigned type. *)
Definition uint (w : Z) (z : Z) : Prop := 0 ≤ z < 2 ^ w.
#[export] Instance uint_dec w z : Decision (uint w z).
Proof. unfold uint. apply _. Defined.

(** [wrapping_*], [saturating_add] and [saturating_sub] of an unsigned type
    of [w] bits. *)
Definition wrap (w z : Z) : Z := z mod 2 ^ w.
Definition sat_add (w a b : Z) : Z := Z.min (a + b) (2 ^ w - 1).
Definition sat_sub (a b : Z) : Z := Z.max (a - b) 0.
Definition sat_mul (w a b : Z) : Z := Z.min (a * b) (2 ^ w - 1).

(** The two's complement reading of a [w]-bit word. *)
Definition to_signed (w z : Z) : Z := if z <? 2 ^ (w - 1) then z else z - 2 ^ w.
Definition sint (w z : Z) : Prop := - 2 ^ (w - 1) ≤ z < 2 ^ (w - 1).

Lemma pow2_pos w : 0 ≤ w → 0 < 2 ^ w.
Proof. intros. by apply Z.pow_pos_nonneg. Qed.

Lemma uint_0 w : 0 ≤ w → uint w 0.
Proof. intros ?%pow2_pos. unfold uint. lia. Qed.

Lemma uint_sat_add w a b : 0 ≤ w → 0 ≤ a → 0 ≤ b → uint w (sat_add w a b).
Proof. intros ?%pow2_pos ??. unfold uint, sat_add. lia. Qed.

Lemma uint_wrap w z : 0 ≤ w → uint w (wrap w z).
Proof. intros. apply Z.mod_pos_bound. by apply pow2_pos. Qed.

Lemma wrap_small w z : uint w z → wrap w z = z.
Proof. intros. by apply Z.mod_small. Qed.

Lemma to_signed_wrap w z : 0 < w → sint w z → to_signed w (wrap w z) = z.
Proof.
  intros Hw Hz. unfold to_signed, wrap, sint in *.
  assert (2 ^ w = 2 * 2 ^ (w - 1)) as E by (rewrite <- Z.pow_succ_r by lia; f_equal; lia).
  destruct (decide (0 ≤ z)) as [Hp|Hn].
  - rewrite Z.mod_small by lia. destruct (Z.ltb_spec z (2 ^ (w - 1))); lia.
  - assert (z mod 2 ^ w = z + 2 ^ w) as ->.
    { symmetry. apply (Z.mod_unique_pos _ _ (-1)); lia. }
    destruct (Z.ltb_spec (z + 2 ^ w) (2 ^ (w - 1))); lia.
Qed.

(** A [w]-bit word has no bit at or above [w], and conversely. *)
Lemma uint_testbit w x i : uint w x → w ≤ i → Z.testbit x i = false.
Proof.
  intros Hx Hi. unfold uint in Hx. destruct (decide (0 ≤ w)) as [Hw|Hw].
  - rewrite <- (Z.mod_small x (2 ^ w)) by done. apply Z.mod_pow2_bits_high. lia.
  - rewrite Z.pow_neg_r in Hx by lia. lia.
Qed.

Lemma uint_of_bits w x : 0 ≤ w → (∀ i, w ≤ i → Z.testbit x i = false) → uint w x.
Proof.
  intros Hw Hx. assert (x = x mod 2 ^ w) as ->.
  - apply Z.bits_inj'. intros i Hi. destruct (decide (i < w)).
    + by rewrite Z.mod_pow2_bits_low.
    + rewrite Z.mod_pow2_bits_high by lia. apply Hx. lia.
  - by apply uint_wrap.
Qed.

Lemma uint_lxor w a b : 0 ≤ w → uint w a → uint w b → uint w (Z.lxor a b).
Proof.
  intros Hw Ha Hb. apply uint_of_bits; [done|]. intros i Hi.
  by rewrite Z.lxor_spec, (uint_testbit w a), (uint_testbit w b).
Qed.

Lemma uint_lor w a b : 0 ≤ w → uint w a → uint w b → uint w (Z.lor a b).
Proof.
  intros Hw Ha Hb. apply uint_of_bits; [done|]. intros i Hi.
  by rewrite Z.lor_spec, (uint_testbit w a), (uint_testbit w b).
Qed.

Lemma uint_land w a b : 0 ≤ w → uint w a → uint w (Z.land a b).
Proof.
  intros Hw Ha. apply uint_of_bits; [done|]. intros i Hi. by rewrite Z.land_spec, (uint_testbit w a).
Qed.

(** Or-ing a field above the [k] bits of [v] adds it. *)
Lemma lor_shiftl_add v b k : 0 ≤ k → uint k v → Z.lor v (Z.shiftl b k) = v + b * 2 ^ k.
Proof.
  intros Hk Hv. rewrite <- Z.add_nocarry_lor; [by rewrite Z.shiftl_mul_pow2|].
  apply Z.bits_inj'. intros n Hn. rewrite Z.land_spec, Z.bits_0, Z.shiftl_spec by done.
  rewrite <- (Z.mod_small v (2 ^ k)) by done.
  destruct (decide (n < k)).
  - by rewrite (Z.testbit_neg_r b), andb_false_r by lia.
  - by rewrite Z.mod_pow2_bits_high by lia.
Qed.

(** ** Octets *)

(** An octet, [u8]; a byte slice is a list of them. *)
Abbreviation byte_ok := (uint 8).
Definition bytes_ok : list Z → Prop := Forall (uint 8).

(** [to_le_bytes]: the [n] low octets of [v], least significant first. *)
Fixpoint to_le (n : nat) (v : Z) : list Z :=
  match n with
  | O => []
  | S n => v mod 256 :: to_le n (v / 256)
  end.

(** [from_le_bytes]. *)
Fixpoint from_le (bs : list Z) : Z :=
  match bs with
  | [] => 0
  | b :: bs => b + 256 * from_le bs
  end.

(** [to_be_bytes] and [from_be_bytes]. *)
Definition to_be (n : nat) (v : Z) : list Z := reverse (to_le n v).
Definition from_be (bs : list Z) : Z := from_le (reverse bs).

Lemma length_to_le n v : length (to_le n v) = n.
Proof. revert v. induction n; intros; simpl; auto. Qed.

Lemma length_to_be n v : length (to_be n v) = n.
Proof. unfold to_be. by rewrite length_reverse, length_to_le. Qed.

Lemma to_le_bytes_ok n v : bytes_ok (to_le n v).
Proof.
  revert v. induction n; intros v; simpl; constructor; [|apply IHn].
  unfold uint. pose proof (Z.mod_pos_bound v 256). lia.
Qed.

Lemma from_to_le n v : uint (8 * Z.of_nat n) v → from_le (to_le n v) = v.
Proof.
  unfold uint. revert v. induction n as [|n IH]; intros v Hv; simpl.
  - change (2 ^ (8 * Z.of_nat 0)) with 1 in Hv. lia.
  - rewrite IH; [pose proof (Z.div_mod v 256); lia|].
    replace (8 * Z.of_nat (S n)) with (8 + 8 * Z.of_nat n) in Hv by lia.
    rewrite Z.pow_add_r in Hv by lia. change (2 ^ 8) with 256 in Hv.
    split; [apply Z.div_pos; lia|apply Z.div_lt_upper_bound; lia].
Qed.

Lemma from_le_bound bs : bytes_ok bs → uint (8 * Z.of_nat (length bs)) (from_le bs).
Proof.
  unfold uint. induction 1 as [|b bs Hb Hbs IH]; simpl; [done|].
  replace (8 * Z.of_nat (S (length bs))) with (8 + 8 * Z.of_nat (length bs)) by lia.
  rewrite Z.pow_add_r by lia. unfold uint in Hb. change (2 ^ 8) with 256 in *. lia.
Qed.

Lemma to_from_le bs : bytes_ok bs → to_le (length bs) (from_le bs) = bs.
Proof.
  induction 1 as [|b bs Hb Hbs IH]; simpl; [done|].
  unfold uint in Hb. change (2 ^ 8) with 256 in Hb.
  replace ((b + 256 * from_le bs) mod 256) with b.
  2: { symmetry. rewrite (Z.mul_comm 256), Z.mod_add, Z.mod_small; lia. }
  replace ((b + 256 * from_le bs) / 256) with (from_le bs).
  2: { rewrite (Z.mul_comm 256), Z.div_add by lia. rewrite (Z.div_small b); lia. }
  by rewrite IH.
Qed.

Lemma take_to_le n m v : (n ≤ m)%nat → take n (to_le m v) = to_le n v.
Proof.
  revert m v. induction n as [|n IH]; intros m v Hm; [done|].
  destruct m as [|m]; [lia|]. simpl. by rewrite IH by lia.
Qed.

Lemma from_to_le_mod n v : from_le (to_le n v) = v mod 2 ^ (8 * Z.of_nat n).
Proof.
  revert v. induction n as [|n IH]; intros v; simpl.
  - by rewrite Z.mod_1_r.
  - rewrite IH. replace (8 * Z.of_nat (S n)) with (8 + 8 * Z.of_nat n) by lia.
    rewrite Z.pow_add_r by lia. change (2 ^ 8) with 256.
    by rewrite Z.rem_mul_r by (pose proof (pow2_pos (8 * Z.of_nat n)); lia).
Qed.

(** A statement about every octet, by evaluation. *)
Lemma byte_forall (P : Z → bool) :
  forallb P (seqZ 0 256) = true → ∀ v, uint 8 v → P v = true.
Proof.
  intros H v Hv. rewrite forallb_forall in H. apply H.
  apply list_elem_of_In, elem_of_seqZ. unfold uint in Hv. lia.
Qed.

(** [Option::is_some]. *)
Definition is_some {A} (o : option A) : bool := match o with Some _ => true | None => false end.

(** [b as u8] of a boolean. *)
Definition Z_of_bool (b : bool) : Z := if b then 1 else 0.

#[global] Arguments to_le : simpl never.

(** ** Slices *)

(** [s.get(a..b)] and [s.get(a..)] of a slice. *)
Definition get_range {A} (s : list A) (a b : nat) : option (list A) :=
  if ((a <=? b) && (b <=? length s))%nat then Some (take (b - a) (drop a s)) else None.
Definition get_from {A} (s : list A) (a : nat) : option (list A) :=
  if (a <=? length s)%nat then Some (drop a s) else None.

Lemma get_range_Some {A} (s : list A) a b :
  (a ≤ b ≤ length s)%nat → get_range s a b = Some (take (b - a) (drop a s)).
Proof.
  intros [??]. unfold get_range.
  by rewrite (proj2 (Nat.leb_le a b)), (proj2 (Nat.leb_le b (length s))) by done.
Qed.

Lemma get_range_None {A} (s : list A) a b :
  (length s < b)%nat → get_range s a b = None.
Proof.
  intros H. unfold get_range. rewrite (proj2 (Nat.leb_gt b (length s)) H).
  by rewrite andb_false_r.
Qed.

Lemma get_range_inv {A} (s : list A) a b t :
  get_range s a b = Some t →
  (a ≤ b ≤ length s)%nat ∧ t = take (b - a) (drop a s) ∧ length t = (b - a)%nat.
Proof.
  unfold get_range. destruct (Nat.leb_spec a b), (Nat.leb_spec b (length s));
    simpl; intros [= <-]. split_and!; [lia..|done|].
  rewrite length_take, length_drop. lia.
Qed.

Lemma get_range_app {A} (pre mid suf : list A) :
  get_range (pre ++ mid ++ suf) (length pre) (length pre + length mid) = Some mid.
Proof.
  rewrite get_range_Some by (rewrite !length_app; lia).
  rewrite drop_app_length. replace (_ + _ - _)%nat with (length mid) by lia.
  by rewrite take_app_length.
Qed.

(** [copy_from_slice] into [dst[n .. n + src.len()]]. *)
Definition splice {A} (n : nat) (src dst : list A) : list A :=
  take n dst ++ src ++ drop (n + length src) dst.

Section splice.
Context {A : Type}.
Implicit Types src dst pre suf : list A.

Lemma length_splice n src dst :
  (n + length src ≤ length dst)%nat → length (splice n src dst) = length dst.
Proof. intros. unfold splice. rewrite !length_app, length_take, length_drop. lia. Qed.

Lemma splice_app_exact pre old src suf :
  length old = length src →
  splice (length pre) src (pre ++ old ++ suf) = pre ++ src ++ suf.
Proof.
  intros H. unfold splice. rewrite take_app_length. f_equal. f_equal.
  rewrite <- H, drop_app_ge by lia.
  replace (length pre + length old - length pre)%nat with (length old) by lia.
  apply drop_app_length.
Qed.

Lemma take_splice_prefix n src dst :
  (n ≤ length dst)%nat → take n (splice n src dst) = take n dst.
Proof.
  intros. unfold splice.
  rewrite take_app_le by (rewrite length_take; lia). rewrite take_take.
  f_equal. lia.
Qed.

Lemma take_splice_through n src dst :
  (n ≤ length dst)%nat →
  take (n + length src) (splice n src dst) = take n dst ++ src.
Proof.
  intros. unfold splice. rewrite app_assoc.
  rewrite take_app_le by (rewrite length_app, length_take; lia).
  rewrite take_ge; [done|]. rewrite length_app, length_take. lia.
Qed.

Lemma drop_splice n src dst :
  (n + length src ≤ length dst)%nat →
  drop (n + length src) (splice n src dst) = drop (n + length src) dst.
Proof.
  intros. unfold splice. rewrite app_assoc, drop_app_ge.
  - rewrite length_app, length_take, drop_drop. f_equal. lia.
  - rewrite length_app, length_take. lia.
Qed.

Lemma splice_nil n dst : splice n [] dst = dst.
Proof. unfold splice. simpl. rewrite Nat.add_0_r. apply take_drop. Qed.

Lemma splice_splice n src1 src2 dst :
  (n + length src1 ≤ length dst)%nat →
  splice (n + length src1) src2 (splice n src1 dst) = splice n (src1 ++ src2) dst.
Proof.
  intros H. unfold splice at 1. rewrite take_splice_through by lia.
  unfold splice at 2. rewrite <- !app_assoc, length_app. do 3 f_equal.
  rewrite Nat.add_assoc, <- !drop_drop. f_equal.
  rewrite !drop_drop. apply drop_splice. lia.
Qed.
End splice.

Lemma bytes_ok_app a b : bytes_ok (a ++ b) ↔ bytes_ok a ∧ bytes_ok b.
Proof. apply Forall_app. Qed.

Lemma bytes_ok_take n a : bytes_ok a → bytes_ok (take n a).
Proof. apply Forall_take. Qed.

Lemma bytes_ok_drop n a : bytes_ok a → bytes_ok (drop n a).
Proof. apply Forall_drop. Qed.

(** ** Sequences of operations *)

(** The answers and the final state of a sequence of operations. *)
Fixpoint run {S O R} (step : S → O → R * S) (s : S) (ops : list O) : list R * S :=
  match ops with
  | [] => ([], s)
  | o :: ops => let '(r, s) := step s o in let '(rs, s) := run step s ops in (r :: rs, s)
  end.

Lemma run_app {S O R} (step : S → O → R * S) s h1 h2 :
  (run step s (h1 ++ h2)).2 = (run step (run step s h1).2 h2).2.
Proof.
  revert s. induction h1 as [|a h1 IH]; intros s; simpl; [done|].
  destruct (step s a) as [r s1]. specialize (IH s1).
  destruct (run step s1 (h1 ++ h2)), (run step s1 h1). done.
Qed.

(** A forward simulation lifts to sequences. *)
Lemma run_simulates {S M O R} (inv : S → Prop) (abs : S → M) (ok : O → Prop)
    (step : S → O → R * S) (spec : M → O → R * M) :
  (∀ s o, inv s → ok o → inv (step s o).2 ∧ spec (abs s) o = ((step s o).1, abs (step s o).2)) →
  ∀ ops s, inv s → Forall ok ops →
    inv (run step s ops).2 ∧ run spec (abs s) ops = ((run step s ops).1, abs (run step s ops).2).
Proof.
  intros Hstep ops. induction ops as [|o ops IH]; intros s Hs Hops; simpl; [done|].
  apply Forall_cons in Hops as [Ho Hops]. destruct (Hstep s o Hs Ho) as [Hs1 ->].
  destruct (step s o) as [r s1]. simpl in *. destruct (IH s1 Hs1 Hops) as [Hs2 ->].
  by destruct (run step s1 ops).
Qed.

Create HintDb panweave.
#[export] Hint Resolve to_le_bytes_ok bytes_ok_take bytes_ok_drop uint_0 : panweave.
Create Rewrite HintDb len.
#[export] Hint Rewrite length_to_le length_to_be @length_app @length_take @length_drop
  @length_fmap @length_replicate @length_reverse : len.

(** Length goals: rewrite with the length lemmas and finish by arithmetic. *)
Ltac len := autorewrite with len; try lia; simpl; try lia.
