(* ===== verification/Types.v ===== *)
(** * Addresses, channels, time and capabilities (crate [panweave-types]:
    address.rs, channel.rs, time.rs, capability.rs)

    The newtypes over machine integers are their values ([Z]); the module of a
    type holds its constants and methods. *)

From S2P Require Import Prelude.

(** ** Bit flags *)

(** [(v & bit) != 0], and setting or clearing a bit: the flag accessors of the
    bit-field types. *)
Definition flag (bit v : Z) : bool := negb (Z.land v bit =? 0).

(** [!bit] of a [w]-bit word. *)
Definition lnot_w (w bit : Z) : Z := Z.lxor bit (Z.ones w).

Definition with_bit (w : Z) (v bit : Z) (b : bool) : Z :=
  if b then Z.lor v bit else Z.land v (lnot_w w bit).

Section flags.
Lemma flag_testbit v k : 0 ≤ k → flag (2 ^ k) v = Z.testbit v k.
Proof.
  intros Hk. unfold flag. destruct (Z.testbit v k) eqn:E.
  - apply negb_true_iff, Z.eqb_neq. intros H.
    assert (Z.testbit (Z.land v (2 ^ k)) k = true) as Ht by (by rewrite Z.land_spec, E, Z.pow2_bits_true).
    by rewrite H, Z.bits_0 in Ht.
  - apply negb_false_iff, Z.eqb_eq. apply Z.bits_inj'. intros i Hi. rewrite Z.land_spec, Z.bits_0.
    destruct (decide (i = k)) as [->|Hne]; [by rewrite E|].
    by rewrite Z.pow2_bits_false, andb_false_r.
Qed.

Lemma testbit_with_bit w v k b i :
  0 ≤ k < w → 0 ≤ i < w →
  Z.testbit (with_bit w v (2 ^ k) b) i = if decide (i = k) then b else Z.testbit v i.
Proof.
  intros Hk Hi. unfold with_bit, lnot_w. destruct (decide (i = k)) as [->|Hne]; destruct b.
  - by rewrite Z.lor_spec, Z.pow2_bits_true, orb_true_r by lia.
  - by rewrite Z.land_spec, Z.lxor_spec, Z.pow2_bits_true, Z.ones_spec_low, andb_false_r by lia.
  - by rewrite Z.lor_spec, Z.pow2_bits_false, orb_false_r by lia.
  - by rewrite Z.land_spec, Z.lxor_spec, Z.pow2_bits_false, Z.ones_spec_low, andb_true_r by lia.
Qed.

Lemma uint_with_bit w v k b : 0 ≤ k < w → uint w v → uint w (with_bit w v (2 ^ k) b).
Proof.
  intros Hk Hv. unfold with_bit. destruct b.
  - apply uint_lor; [lia|done|]. unfold uint. split; [apply Z.pow_nonneg; lia|].
    apply Z.pow_lt_mono_r; lia.
  - apply uint_land; [lia|done].
Qed.
End flags.

(** ** Short addresses *)

Module ShortAddress.

Inductive Kind : Type :=
  | Unicast
  | Reserved
  | BroadcastLowPowerRouters
  | BroadcastRouters
  | BroadcastRxOnWhenIdle
  | NoShortAddress
  | BroadcastAll.

#[global] Instance Kind_eq_dec : EqDecision Kind.
Proof. solve_decision. Defined.

Definition COORDINATOR : Z := 0x0000.
Definition BROADCAST_ALL : Z := 0xFFFF.
Definition BROADCAST_RX_ON : Z := 0xFFFD.
Definition BROADCAST_ROUTERS : Z := 0xFFFC.
Definition BROADCAST_LOW_POWER_ROUTERS : Z := 0xFFFB.
Definition NO_SHORT_ADDRESS : Z := 0xFFFE.
Definition MAX_UNICAST : Z := 0xFFF7.

Definition kind (a : Z) : Kind :=
  if a <=? 0xFFF7 then Unicast
  else if a <=? 0xFFFA then Reserved
  else if a =? 0xFFFB then BroadcastLowPowerRouters
  else if a =? 0xFFFC then BroadcastRouters
  else if a =? 0xFFFD then BroadcastRxOnWhenIdle
  else if a =? 0xFFFE then NoShortAddress
  else BroadcastAll.

Definition is_broadcast (a : Z) : bool :=
  match kind a with
  | BroadcastAll | BroadcastRxOnWhenIdle | BroadcastRouters | BroadcastLowPowerRouters => true
  | _ => false
  end.

Definition is_unicast (a : Z) : bool :=
  match kind a with Unicast => true | _ => false end.

Definition is_assignable (a : Z) : bool := negb (a =? 0x0000) && is_unicast a.

End ShortAddress.

(** ** PAN identifiers and extended addresses *)

Module PanId.
Definition BROADCAST : Z := 0xFFFF.
Definition is_valid_for_formation (p : Z) : bool := negb (p =? 0xFFFF).
End PanId.

Module ExtendedAddress.
Definition ZERO : Z := 0.
Definition BROADCAST : Z := u64_max.
Definition is_valid_device_address (a : Z) : bool := negb (a =? 0) && negb (a =? u64_max).
End ExtendedAddress.

(** ** Channels *)

Module Channel.
Definition MIN_2_4GHZ : Z := 11.
Definition MAX_2_4GHZ : Z := 26.
Definition DEFAULT_2_4GHZ : Z := 11.
Definition new (n : Z) : option Z := if n <=? 31 then Some n else None.
Definition is_2_4ghz (c : Z) : bool := (MIN_2_4GHZ <=? c) && (c <=? MAX_2_4GHZ).
Definition new_2_4ghz (n : Z) : option Z := if is_2_4ghz n then Some n else None.
End Channel.

Module ChannelMask.
Definition ALL_2_4GHZ : Z := 0x07FFF800.
Definition EMPTY : Z := 0.
Definition CHANNEL_BITS : Z := 0x07FFFFFF.

Definition channels_only (m : Z) : Z := Z.land m CHANNEL_BITS.
Definition page (m : Z) : Z := Z.shiftr m 27.
Definition with_page (m page : Z) : Z := Z.lor (Z.land m CHANNEL_BITS) (Z.shiftl (Z.land page 0x1F) 27).
Definition contains (m c : Z) : bool := flag (Z.shiftl 1 c) m.
(** [with] of the source. *)
Definition with_channel (m c : Z) : Z := Z.lor m (Z.shiftl 1 c).
Definition without (m c : Z) : Z := Z.land m (lnot_w 32 (Z.shiftl 1 c)).
Definition is_empty (m : Z) : bool := Z.land m CHANNEL_BITS =? 0.
Definition iter (m : Z) : list Z :=
  List.filter (λ n, flag (Z.shiftl 1 n) (Z.land m CHANNEL_BITS)) (seqZ 0 27).
(** [count_ones] of the 27 channel bits. *)
Definition len (m : Z) : nat := length (iter m).
Definition first (m : Z) : option Z := head (iter m).
End ChannelMask.

(** ** Time *)

Module Duration.
Definition MAX : Z := u64_max.
Definition from_millis (ms : Z) : Z := ms.
Definition from_secs (s : Z) : Z := sat_mul 64 s 1000.
Definition from_mins (m : Z) : Z := sat_mul 64 m 60000.
Definition from_symbols_2_4ghz (symbols : Z) : Z := sat_add 64 (sat_mul 64 symbols 16) 999 / 1000.
Definition as_millis (d : Z) : Z := d.
Definition as_secs (d : Z) : Z := d / 1000.
Definition saturating_add (d rhs : Z) : Z := sat_add 64 d rhs.
Definition saturating_mul (d factor : Z) : Z := sat_mul 64 d factor.
Definition div (d divisor : Z) : Z := if divisor =? 0 then MAX else d / divisor.
Definition is_zero (d : Z) : bool := d =? 0.
End Duration.

Module Instant.
Definition ZERO : Z := 0.
Definition FAR_FUTURE : Z := u64_max.
Definition saturating_duration_since (t earlier : Z) : Z := sat_sub t earlier.
Definition saturating_duration_until (t later : Z) : Z := sat_sub later t.
Definition saturating_add (t d : Z) : Z := sat_add 64 t d.
Definition has_reached (t deadline : Z) : bool := deadline <=? t.
End Instant.

(** ** MAC capability information *)

Module MacCapability.
Definition ALTERNATE_PAN_COORDINATOR : Z := 2 ^ 0.
Definition DEVICE_TYPE_FFD : Z := 2 ^ 1.
Definition POWER_SOURCE_MAINS : Z := 2 ^ 2.
Definition RX_ON_WHEN_IDLE : Z := 2 ^ 3.
Definition RESERVED_MASK : Z := 0x30.
Definition SECURITY_CAPABLE : Z := 2 ^ 6.
Definition ALLOCATE_ADDRESS : Z := 2 ^ 7.

Definition reserved_bits_clear (c : Z) : bool := Z.land c RESERVED_MASK =? 0.
Definition alternate_pan_coordinator : Z → bool := flag ALTERNATE_PAN_COORDINATOR.
Definition is_full_function_device : Z → bool := flag DEVICE_TYPE_FFD.
Definition is_mains_powered : Z → bool := flag POWER_SOURCE_MAINS.
Definition rx_on_when_idle : Z → bool := flag RX_ON_WHEN_IDLE.
Definition security_capable : Z → bool := flag SECURITY_CAPABLE.
Definition allocate_address : Z → bool := flag ALLOCATE_ADDRESS.
Definition with_full_function_device (c : Z) (v : bool) : Z := with_bit 8 c DEVICE_TYPE_FFD v.
Definition with_mains_powered (c : Z) (v : bool) : Z := with_bit 8 c POWER_SOURCE_MAINS v.
Definition with_rx_on_when_idle (c : Z) (v : bool) : Z := with_bit 8 c RX_ON_WHEN_IDLE v.
Definition with_allocate_address (c : Z) (v : bool) : Z := with_bit 8 c ALLOCATE_ADDRESS v.
Definition with_security_capable (c : Z) (v : bool) : Z := with_bit 8 c SECURITY_CAPABLE v.
Definition ROUTER : Z :=
  Z.lor (Z.lor (Z.lor DEVICE_TYPE_FFD POWER_SOURCE_MAINS) RX_ON_WHEN_IDLE) ALLOCATE_ADDRESS.
Definition END_DEVICE_RX_ON : Z := Z.lor RX_ON_WHEN_IDLE ALLOCATE_ADDRESS.
Definition SLEEPY_END_DEVICE : Z := ALLOCATE_ADDRESS.
End MacCapability.
