(* ===== verification/Status.v ===== *)
(** * Status codes (panweave-types/src/status.rs)

    The three instances of the [status_enum!] macro: the status values of the
    network, application-support and MAC layers, with [Unknown] for the octets
    the implemented revision does not define. *)

From S2P Require Import Prelude.

Module NwkStatus.
Inductive t : Type :=
  | Success
  | InvalidParameter
  | InvalidRequest
  | NotPermitted
  | StartupFailure
  | AlreadyPresent
  | SyncFailure
  | NeighborTableFull
  | UnknownDevice
  | UnsupportedAttribute
  | NoNetworks
  | MaxFrameCounter
  | NoKey
  | BadCcmOutput
  | RouteDiscoveryFailed
  | RouteError
  | BtTableFull
  | FrameNotBuffered
  | InvalidInterface
  | MissingTlv
  | InvalidTlv
  | Unknown (v : Z).

#[global] Instance t_eq_dec : EqDecision t.
Proof. solve_decision. Defined.

Definition raw (s : t) : Z :=
  match s with
  | Success => 0x00
  | InvalidParameter => 0xC1
  | InvalidRequest => 0xC2
  | NotPermitted => 0xC3
  | StartupFailure => 0xC4
  | AlreadyPresent => 0xC5
  | SyncFailure => 0xC6
  | NeighborTableFull => 0xC7
  | UnknownDevice => 0xC8
  | UnsupportedAttribute => 0xC9
  | NoNetworks => 0xCA
  | MaxFrameCounter => 0xCC
  | NoKey => 0xCD
  | BadCcmOutput => 0xCE
  | RouteDiscoveryFailed => 0xD0
  | RouteError => 0xD1
  | BtTableFull => 0xD2
  | FrameNotBuffered => 0xD3
  | InvalidInterface => 0xD5
  | MissingTlv => 0xD6
  | InvalidTlv => 0xD7
  | Unknown v => v
  end.

Definition from_raw (v : Z) : t :=
  if v =? 0x00 then Success
  else if v =? 0xC1 then InvalidParameter
  else if v =? 0xC2 then InvalidRequest
  else if v =? 0xC3 then NotPermitted
  else if v =? 0xC4 then StartupFailure
  else if v =? 0xC5 then AlreadyPresent
  else if v =? 0xC6 then SyncFailure
  else if v =? 0xC7 then NeighborTableFull
  else if v =? 0xC8 then UnknownDevice
  else if v =? 0xC9 then UnsupportedAttribute
  else if v =? 0xCA then NoNetworks
  else if v =? 0xCC then MaxFrameCounter
  else if v =? 0xCD then NoKey
  else if v =? 0xCE then BadCcmOutput
  else if v =? 0xD0 then RouteDiscoveryFailed
  else if v =? 0xD1 then RouteError
  else if v =? 0xD2 then BtTableFull
  else if v =? 0xD3 then FrameNotBuffered
  else if v =? 0xD5 then InvalidInterface
  else if v =? 0xD6 then MissingTlv
  else if v =? 0xD7 then InvalidTlv
  else Unknown v.

Definition is_success (s : t) : bool := match s with Success => true | _ => false end.
End NwkStatus.

Module ApsStatus.
Inductive t : Type :=
  | Success
  | AsduTooLong
  | DefragDeferred
  | DefragUnsupported
  | IllegalRequest
  | InvalidBinding
  | InvalidGroup
  | InvalidParameter
  | NoAck
  | NoBoundDevice
  | NoShortAddress
  | NotSupported
  | SecuredLinkKey
  | SecuredNwkKey
  | SecurityFail
  | TableFull
  | Unsecured
  | UnsupportedAttribute
  | PeerCannotFragment
  | UnknownFragmentSupport
  | Unknown (v : Z).

#[global] Instance t_eq_dec : EqDecision t.
Proof. solve_decision. Defined.

Definition raw (s : t) : Z :=
  match s with
  | Success => 0x00
  | AsduTooLong => 0xA0
  | DefragDeferred => 0xA1
  | DefragUnsupported => 0xA2
  | IllegalRequest => 0xA3
  | InvalidBinding => 0xA4
  | InvalidGroup => 0xA5
  | InvalidParameter => 0xA6
  | NoAck => 0xA7
  | NoBoundDevice => 0xA8
  | NoShortAddress => 0xA9
  | NotSupported => 0xAA
  | SecuredLinkKey => 0xAB
  | SecuredNwkKey => 0xAC
  | SecurityFail => 0xAD
  | TableFull => 0xAE
  | Unsecured => 0xAF
  | UnsupportedAttribute => 0xB0
  | PeerCannotFragment => 0xB1
  | UnknownFragmentSupport => 0xB2
  | Unknown v => v
  end.

Definition from_raw (v : Z) : t :=
  if v =? 0x00 then Success
  else if v =? 0xA0 then AsduTooLong
  else if v =? 0xA1 then DefragDeferred
  else if v =? 0xA2 then DefragUnsupported
  else if v =? 0xA3 then IllegalRequest
  else if v =? 0xA4 then InvalidBinding
  else if v =? 0xA5 then InvalidGroup
  else if v =? 0xA6 then InvalidParameter
  else if v =? 0xA7 then NoAck
  else if v =? 0xA8 then NoBoundDevice
  else if v =? 0xA9 then NoShortAddress
  else if v =? 0xAA then NotSupported
  else if v =? 0xAB then SecuredLinkKey
  else if v =? 0xAC then SecuredNwkKey
  else if v =? 0xAD then SecurityFail
  else if v =? 0xAE then TableFull
  else if v =? 0xAF then Unsecured
  else if v =? 0xB0 then UnsupportedAttribute
  else if v =? 0xB1 then PeerCannotFragment
  else if v =? 0xB2 then UnknownFragmentSupport
  else Unknown v.

Definition is_success (s : t) : bool := match s with Success => true | _ => false end.
End ApsStatus.

Module MacStatus.
Inductive t : Type :=
  | Success
  | PanAtCapacity
  | PanAccessDenied
  | CounterError
  | ImproperKeyType
  | ImproperSecurityLevel
  | UnsupportedLegacy
  | UnsupportedSecurity
  | BeaconLoss
  | ChannelAccessFailure
  | Denied
  | DisableTrxFailure
  | SecurityError
  | FrameTooLong
  | InvalidGts
  | InvalidHandle
  | InvalidParameter
  | NoAck
  | NoBeacon
  | NoData
  | NoShortAddress
  | OutOfCap
  | PanIdConflict
  | Realignment
  | TransactionExpired
  | TransactionOverflow
  | TxActive
  | UnavailableKey
  | UnsupportedAttribute
  | InvalidAddress
  | OnTimeTooLong
  | PastTime
  | TrackingOff
  | InvalidIndex
  | LimitReached
  | ReadOnly
  | ScanInProgress
  | SuperframeOverlap
  | Unknown (v : Z).

#[global] Instance t_eq_dec : EqDecision t.
Proof. solve_decision. Defined.

Definition raw (s : t) : Z :=
  match s with
  | Success => 0x00
  | PanAtCapacity => 0x01
  | PanAccessDenied => 0x02
  | CounterError => 0xDB
  | ImproperKeyType => 0xDC
  | ImproperSecurityLevel => 0xDD
  | UnsupportedLegacy => 0xDE
  | UnsupportedSecurity => 0xDF
  | BeaconLoss => 0xE0
  | ChannelAccessFailure => 0xE1
  | Denied => 0xE2
  | DisableTrxFailure => 0xE3
  | SecurityError => 0xE4
  | FrameTooLong => 0xE5
  | InvalidGts => 0xE6
  | InvalidHandle => 0xE7
  | InvalidParameter => 0xE8
  | NoAck => 0xE9
  | NoBeacon => 0xEA
  | NoData => 0xEB
  | NoShortAddress => 0xEC
  | OutOfCap => 0xED
  | PanIdConflict => 0xEE
  | Realignment => 0xEF
  | TransactionExpired => 0xF0
  | TransactionOverflow => 0xF1
  | TxActive => 0xF2
  | UnavailableKey => 0xF3
  | UnsupportedAttribute => 0xF4
  | InvalidAddress => 0xF5
  | OnTimeTooLong => 0xF6
  | PastTime => 0xF7
  | TrackingOff => 0xF8
  | InvalidIndex => 0xF9
  | LimitReached => 0xFA
  | ReadOnly => 0xFB
  | ScanInProgress => 0xFC
  | SuperframeOverlap => 0xFD
  | Unknown v => v
  end.

Definition from_raw (v : Z) : t :=
  if v =? 0x00 then Success
  else if v =? 0x01 then PanAtCapacity
  else if v =? 0x02 then PanAccessDenied
  else if v =? 0xDB then CounterError
  else if v =? 0xDC then ImproperKeyType
  else if v =? 0xDD then ImproperSecurityLevel
  else if v =? 0xDE then UnsupportedLegacy
  else if v =? 0xDF then UnsupportedSecurity
  else if v =? 0xE0 then BeaconLoss
  else if v =? 0xE1 then ChannelAccessFailure
  else if v =? 0xE2 then Denied
  else if v =? 0xE3 then DisableTrxFailure
  else if v =? 0xE4 then SecurityError
  else if v =? 0xE5 then FrameTooLong
  else if v =? 0xE6 then InvalidGts
  else if v =? 0xE7 then InvalidHandle
  else if v =? 0xE8 then InvalidParameter
  else if v =? 0xE9 then NoAck
  else if v =? 0xEA then NoBeacon
  else if v =? 0xEB then NoData
  else if v =? 0xEC then NoShortAddress
  else if v =? 0xED then OutOfCap
  else if v =? 0xEE then PanIdConflict
  else if v =? 0xEF then Realignment
  else if v =? 0xF0 then TransactionExpired
  else if v =? 0xF1 then TransactionOverflow
  else if v =? 0xF2 then TxActive
  else if v =? 0xF3 then UnavailableKey
  else if v =? 0xF4 then UnsupportedAttribute
  else if v =? 0xF5 then InvalidAddress
  else if v =? 0xF6 then OnTimeTooLong
  else if v =? 0xF7 then PastTime
  else if v =? 0xF8 then TrackingOff
  else if v =? 0xF9 then InvalidIndex
  else if v =? 0xFA then LimitReached
  else if v =? 0xFB then ReadOnly
  else if v =? 0xFC then ScanInProgress
  else if v =? 0xFD then SuperframeOverlap
  else Unknown v.

Definition is_success (s : t) : bool := match s with Success => true | _ => false end.
End MacStatus.

(** ** The octets and the values correspond *)

Section status.
Lemma raw_if {A} (f : A → Z) (v c : Z) (a b : A) :
  f a = c → f b = v → f (if v =? c then a else b) = v.
Proof. intros Ha Hb. by destruct (Z.eqb_spec v c); subst. Qed.

Lemma nwk_status_raw_from_raw v : NwkStatus.raw (NwkStatus.from_raw v) = v.
Proof. unfold NwkStatus.from_raw. repeat (apply raw_if; [reflexivity|]). reflexivity. Qed.

Lemma nwk_status_from_raw_raw s :
  (∀ v, s ≠ NwkStatus.Unknown v) → NwkStatus.from_raw (NwkStatus.raw s) = s.
Proof. intros Hs. destruct s; try reflexivity. by destruct (Hs v). Qed.

Lemma aps_status_raw_from_raw v : ApsStatus.raw (ApsStatus.from_raw v) = v.
Proof. unfold ApsStatus.from_raw. repeat (apply raw_if; [reflexivity|]). reflexivity. Qed.

Lemma aps_status_from_raw_raw s :
  (∀ v, s ≠ ApsStatus.Unknown v) → ApsStatus.from_raw (ApsStatus.raw s) = s.
Proof. intros Hs. destruct s; try reflexivity. by destruct (Hs v). Qed.

Lemma mac_status_raw_from_raw v : MacStatus.raw (MacStatus.from_raw v) = v.
Proof. unfold MacStatus.from_raw. repeat (apply raw_if; [reflexivity|]). reflexivity. Qed.

Lemma mac_status_from_raw_raw s :
  (∀ v, s ≠ MacStatus.Unknown v) → MacStatus.from_raw (MacStatus.raw s) = s.
Proof. intros Hs. destruct s; try reflexivity. by destruct (Hs v). Qed.

End status.
