(* ===== verification/Codec.v ===== *)
(** * The bounded binary codec (crate [panweave-codec])

    [Reader] and [Writer] are the cursors of [reader.rs] and [writer.rs];
    [Decode] and [Encode] are the traits of [lib.rs].  The class [Codec]
    states what a wire type promises to its users (the octets it writes are
    the octets it reads back); the integer and newtype implementations of
    [lib.rs] discharge it here, the frame headers in their own files.

    Offsets and lengths ([usize]) are natural numbers: a slice is never
    longer than [isize::MAX], so a [checked_add] that overflows and a range
    that ends past the slice give the same error. *)

From S2P Require Import Prelude.

(** ** Errors (error.rs) *)

Inductive TlvError : Type :=
  | TlvTruncated
  | DuplicateTag (tag : Z)
  | Malformed (tag : Z)
  | NestedEncapsulation (tag : Z)
  | Missing (tag : Z).

Inductive CodecError : Type :=
  | Truncated (needed available : nat)
  | TrailingBytes (count : nat)
  | InvalidField (field : string) (value : Z)
  | ReservedBitsSet (field : string)
  | LengthMismatch (field : string)
  | BufferTooSmall (needed available : nat)
  | Unrepresentable (field : string)
  | Tlv (e : TlvError)
  | Unsupported (what : string).

#[export] Instance TlvError_eq_dec : EqDecision TlvError.
Proof. solve_decision. Defined.
#[export] Instance CodecError_eq_dec : EqDecision CodecError.
Proof. solve_decision. Defined.

(** [u32::try_from(n).unwrap_or(u32::MAX)] *)
Definition u32_or_max (n : nat) : Z := Z.min (Z.of_nat n) u32_max.

(** ** The reader (reader.rs) *)

Module Reader.

Record t : Type := mk { buf : list Z; pos : nat }.

Definition new (b : list Z) : t := mk b 0.

(** A reader at [pos] of a buffer [buf]; the position never passes the end. *)
Definition wf (r : t) : Prop := (pos r ≤ length (buf r))%nat.

Definition remaining (r : t) : nat := length (buf r) - pos r.
Definition is_empty (r : t) : bool := (remaining r =? 0)%nat.
Definition position (r : t) : nat := pos r.
Definition peek_rest (r : t) : list Z := default [] (get_from (buf r) (pos r)).
Definition consumed (r : t) : list Z := default [] (get_range (buf r) 0 (pos r)).

Definition take_rest : SE t CodecError (list Z) := λ r,
  (Ok (peek_rest r), mk (buf r) (length (buf r))).

Definition bytes (n : nat) : SE t CodecError (list Z) := λ r,
  let e := (pos r + n)%nat in
  match get_range (buf r) (pos r) e with
  | Some s => (Ok s, mk (buf r) e)
  | None => (Err (Truncated n (remaining r)), r)
  end.

Definition array (n : nat) : SE t CodecError (list Z) := bytes n.

Definition skip (n : nat) : SE t CodecError unit := _ ← bytes n; mret tt.

Definition peek_u8 (r : t) : result Z CodecError :=
  ok_or (buf r !! pos r) (Truncated 1 0).

Definition u8 : SE t CodecError Z := b ← array 1; mret (hd 0 b).
Definition i8 : SE t CodecError Z := b ← u8; mret (to_signed 8 b).
Definition u16_le : SE t CodecError Z := b ← array 2; mret (from_le b).
Definition i16_le : SE t CodecError Z := b ← array 2; mret (to_signed 16 (from_le b)).
Definition u24_le : SE t CodecError Z :=
  b ← array 3; mret (from_le (b ++ [0])).
Definition u32_le : SE t CodecError Z := b ← array 4; mret (from_le b).
Definition i32_le : SE t CodecError Z := b ← array 4; mret (to_signed 32 (from_le b)).
Definition u64_le : SE t CodecError Z := b ← array 8; mret (from_le b).
Definition i64_le : SE t CodecError Z := b ← array 8; mret (to_signed 64 (from_le b)).

(** The accumulation loop of [uint_le]: [v |= b << (8 * i)]. *)
Fixpoint uint_loop (i : Z) (v : Z) (s : list Z) : Z :=
  match s with
  | [] => v
  | b :: s => uint_loop (i + 1) (Z.lor v (Z.shiftl b (8 * i))) s
  end.

Definition uint_le (width : nat) : SE t CodecError Z :=
  if ((width =? 0) || (8 <? width))%nat
  then fail (InvalidField "integer width" (u32_or_max width))
  else s ← bytes width; mret (uint_loop 0 0 s).

Definition sub (n : nat) : SE t CodecError t := s ← bytes n; mret (new s).

End Reader.

(** ** The writer (writer.rs) *)

Module Writer.

Record t : Type := mk { buf : list Z; pos : nat }.

Definition new (b : list Z) : t := mk b 0.

Definition wf (w : t) : Prop := (pos w ≤ length (buf w))%nat.

Definition position (w : t) : nat := pos w.
Definition remaining (w : t) : nat := length (buf w) - pos w.
Definition capacity (w : t) : nat := length (buf w).
Definition written (w : t) : list Z := default [] (get_range (buf w) 0 (pos w)).
Definition finish (w : t) : list Z := default [] (get_range (buf w) 0 (pos w)).

(** [reserve] hands out the region [buf[start..end]] for filling; the region
    is its start and end, and filling it is [copy_from_slice]. *)
Definition reserve (n : nat) : SE t CodecError (nat * nat) := λ w,
  let available := remaining w in
  let e := (pos w + n)%nat in
  match get_range (buf w) (pos w) e with
  | Some _ => (Ok (pos w, e), mk (buf w) e)
  | None => (Err (BufferTooSmall n available), w)
  end.

Definition copy_from_slice (region : nat * nat) (src : list Z) : SE t CodecError unit := λ w,
  (Ok tt, mk (splice region.1 src (buf w)) (pos w)).

(** [patch] gives a view of octets already written. *)
Definition patch (start len : nat) : SE t CodecError (nat * nat) := λ w,
  let e := (start + len)%nat in
  if (pos w <? e)%nat then (Err (BufferTooSmall e (pos w)), w)
  else match get_range (buf w) start e with
       | Some _ => (Ok (start, e), w)
       | None => (Err (BufferTooSmall len 0), w)
       end.

Definition bytes (src : list Z) : SE t CodecError unit :=
  region ← reserve (length src); copy_from_slice region src.

Definition u8 (v : Z) : SE t CodecError unit := bytes [v].
Definition i8 (v : Z) : SE t CodecError unit := bytes (to_le 1 (wrap 8 v)).
Definition u16_le (v : Z) : SE t CodecError unit := bytes (to_le 2 v).
Definition i16_le (v : Z) : SE t CodecError unit := bytes (to_le 2 (wrap 16 v)).
Definition u24_le (v : Z) : SE t CodecError unit := bytes (take 3 (to_le 4 v)).
Definition u32_le (v : Z) : SE t CodecError unit := bytes (to_le 4 v).
Definition i32_le (v : Z) : SE t CodecError unit := bytes (to_le 4 (wrap 32 v)).
Definition u64_le (v : Z) : SE t CodecError unit := bytes (to_le 8 v).
Definition i64_le (v : Z) : SE t CodecError unit := bytes (to_le 8 (wrap 64 v)).

Definition uint_le (v : Z) (width : nat) : SE t CodecError unit :=
  if ((width =? 0) || (8 <? width))%nat
  then fail (InvalidField "integer width" (u32_or_max width))
  else bytes (default [] (get_range (to_le 8 v) 0 width)).

End Writer.

(** ** The traits (lib.rs) *)

Class Decode (A : Type) := decode : SE Reader.t CodecError A.

Class Encode (A : Type) := {
  encoded_len : A → nat;
  encode : A → SE Writer.t CodecError unit
}.

Definition decode_exact {A} `{!Decode A} (input : list Z) : result A CodecError :=
  match decode (Reader.new input) with
  | (Ok v, r) => if Reader.is_empty r then Ok v else Err (TrailingBytes (Reader.remaining r))
  | (Err e, _) => Err e
  end.

(** The result and the contents of [out] afterwards. *)
Definition encode_to_slice {A} `{!Encode A} (a : A) (out : list Z) : result nat CodecError * list Z :=
  match encode a (Writer.new out) with
  | (Ok _, w) => (Ok (Writer.position w), Writer.buf w)
  | (Err e, w) => (Err e, Writer.buf w)
  end.

(** ** Cursor laws *)

(** [decodes m bs a]: placed at the start of the octets [bs], anywhere in a
    buffer, [m] yields [a] and stops right after them. *)
Definition decodes {A} (m : SE Reader.t CodecError A) (bs : list Z) (a : A) : Prop :=
  ∀ pre suf, m (Reader.mk (pre ++ bs ++ suf) (length pre)) =
    (Ok a, Reader.mk (pre ++ bs ++ suf) (length pre + length bs)).

(** The writer after [bs] has been written. *)
Definition advance (w : Writer.t) (bs : list Z) : Writer.t :=
  Writer.mk (splice (Writer.pos w) bs (Writer.buf w)) (Writer.pos w + length bs).

(** [writes m bs]: [m] writes exactly [bs] when they fit, and otherwise fails
    with [BufferTooSmall]. *)
Definition writes (m : SE Writer.t CodecError unit) (bs : list Z) : Prop :=
  ∀ w, Writer.wf w →
    ((length bs ≤ Writer.remaining w)%nat → m w = (Ok tt, advance w bs)) ∧
    ((Writer.remaining w < length bs)%nat → ∃ n a w', m w = (Err (BufferTooSmall n a), w')).

Section decodes.
Lemma decodes_bytes bs : decodes (Reader.bytes (length bs)) bs bs.
Proof. intros pre suf. unfold Reader.bytes. simpl. by rewrite get_range_app. Qed.

Lemma decodes_ret {A} (a : A) : decodes (mret a) [] a.
Proof. intros pre suf. simpl. by rewrite Nat.add_0_r. Qed.

Lemma decodes_bind {A B} (m : SE Reader.t CodecError A) (f : A → SE Reader.t CodecError B)
    bs1 bs2 a b :
  decodes m bs1 a → decodes (f a) bs2 b → decodes (m ≫= f) (bs1 ++ bs2) b.
Proof.
  intros Hm Hf pre suf. specialize (Hm pre (bs2 ++ suf)). specialize (Hf (pre ++ bs1) suf).
  rewrite <- app_assoc. erewrite se_bind_ok; [|apply Hm].
  rewrite <- app_assoc, length_app in Hf. rewrite Hf.
  do 2 f_equal. rewrite length_app. lia.
Qed.

(** A final [mret] consumes nothing. *)
Lemma decodes_map {A B} (m : SE Reader.t CodecError A) (f : A → B) bs a :
  decodes m bs a → decodes (x ← m; mret (f x)) bs (f a).
Proof.
  intros H. rewrite <- (app_nil_r bs). eapply decodes_bind; [done|apply decodes_ret].
Qed.

Lemma decodes_array n bs : length bs = n → decodes (Reader.array n) bs bs.
Proof. intros <-. apply decodes_bytes. Qed.

Lemma decodes_u8 v : decodes Reader.u8 [v] v.
Proof. exact (decodes_map _ (hd 0) [v] [v] (decodes_array 1 [v] eq_refl)). Qed.

Lemma decodes_uint n v (m : SE Reader.t CodecError Z) :
  m = (b ← Reader.array n; mret (from_le b)) →
  uint (8 * Z.of_nat n) v → decodes m (to_le n v) v.
Proof.
  intros -> Hv. pose proof (decodes_map _ from_le _ _
    (decodes_array n (to_le n v) (length_to_le n v))) as H.
  by rewrite from_to_le in H.
Qed.

Lemma decodes_sint n v (m : SE Reader.t CodecError Z) :
  (0 < n)%nat →
  m = (b ← Reader.array n; mret (to_signed (8 * Z.of_nat n) (from_le b))) →
  sint (8 * Z.of_nat n) v → decodes m (to_le n (wrap (8 * Z.of_nat n) v)) v.
Proof.
  intros Hn -> Hv. pose proof (decodes_map _ (to_signed (8 * Z.of_nat n) ∘ from_le) _ _
    (decodes_array n (to_le n (wrap (8 * Z.of_nat n) v)) (length_to_le n _))) as H.
  simpl in H. rewrite from_to_le in H by (apply uint_wrap; lia).
  by rewrite to_signed_wrap in H by (done || lia).
Qed.

Lemma decodes_u16 v : uint 16 v → decodes Reader.u16_le (to_le 2 v) v.
Proof. by apply (decodes_uint 2). Qed.
Lemma decodes_u32 v : uint 32 v → decodes Reader.u32_le (to_le 4 v) v.
Proof. by apply (decodes_uint 4). Qed.
Lemma decodes_u64 v : uint 64 v → decodes Reader.u64_le (to_le 8 v) v.
Proof. by apply (decodes_uint 8). Qed.

(** A field present under a condition. *)
Lemma decodes_opt {A} (b : bool) (o : option A) (m : SE Reader.t CodecError A) (wr : A → list Z) :
  b = is_some o → (∀ a, o = Some a → decodes m (wr a) a) →
  decodes (if b then x ← m; mret (Some x) else mret None) (from_option wr [] o) o.
Proof.
  intros -> Hm. destruct o as [a|]; simpl; [|apply decodes_ret].
  apply (decodes_map _ Some). by apply Hm.
Qed.

(** Decoding a whole slice. *)
Lemma decodes_exact {A} `{!Decode A} bs (a : A) :
  decodes decode bs a → decode_exact bs = Ok a.
Proof.
  intros H. specialize (H [] []). rewrite app_nil_r in H. simpl in H.
  unfold decode_exact, Reader.new. rewrite H.
  unfold Reader.is_empty, Reader.remaining. simpl. by rewrite Nat.sub_diag.
Qed.
End decodes.

(** [parsed r bs r']: the reader went from [r] to [r'] over the octets [bs]. *)
Definition parsed (r : Reader.t) (bs : list Z) (r' : Reader.t) : Prop :=
  Reader.buf r' = Reader.buf r ∧ Reader.pos r' = (Reader.pos r + length bs)%nat ∧
  drop (Reader.pos r) (Reader.buf r) = bs ++ drop (Reader.pos r') (Reader.buf r').

Section parsed.
Implicit Types r : Reader.t.

Lemma parsed_nil r : parsed r [] r.
Proof. split_and!; simpl; [done|lia|done]. Qed.

Lemma parsed_trans r bs1 r1 bs2 r2 :
  parsed r bs1 r1 → parsed r1 bs2 r2 → parsed r (bs1 ++ bs2) r2.
Proof.
  intros (Hb & Hp & Hd) (Hb' & Hp' & Hd'). split_and!.
  - congruence.
  - rewrite Hp', Hp, length_app. lia.
  - by rewrite Hd, Hd', app_assoc.
Qed.

Lemma parsed_bytes_ok r bs r' :
  parsed r bs r' → bytes_ok (Reader.buf r) → bytes_ok bs ∧ bytes_ok (Reader.buf r').
Proof.
  intros (Hb & _ & Hd) Hok. split; [|by rewrite Hb].
  apply (bytes_ok_drop (Reader.pos r)) in Hok. rewrite Hd in Hok.
  by apply bytes_ok_app in Hok as [??].
Qed.

Lemma parsed_pos r bs r' :
  parsed r bs r' → (Reader.pos r ≤ length (Reader.buf r))%nat → (Reader.pos r' ≤ length (Reader.buf r'))%nat.
Proof.
  intros (Hb & Hp & Hd%(f_equal length)) Hr. rewrite length_app, !length_drop, Hb in Hd. rewrite Hb. lia.
Qed.

(** Reading from the start of a buffer, and all of it. *)
Lemma parsed_new b bs r :
  parsed (Reader.new b) bs r → ∃ rest, b = bs ++ rest ∧ Reader.position r = length bs.
Proof. intros (_ & Hp & Hd). exists (drop (Reader.pos r) (Reader.buf r)). by split. Qed.

Lemma parsed_all b bs r : parsed (Reader.new b) bs r → Reader.is_empty r = true → b = bs.
Proof.
  intros Hp He. pose proof (parsed_pos _ _ _ Hp ltac:(cbn; lia)) as Hl. destruct Hp as (_ & _ & Hd).
  unfold Reader.is_empty, Reader.remaining in He. apply Nat.eqb_eq in He.
  cbn [Reader.pos Reader.buf Reader.new] in Hd. by rewrite drop_0, drop_ge, app_nil_r in Hd by lia.
Qed.

Lemma bytes_parsed n r s r' :
  Reader.bytes n r = (Ok s, r') → length s = n ∧ parsed r s r'.
Proof.
  unfold Reader.bytes. case_match eqn:E; intros [= <- <-].
  apply get_range_inv in E as (Hr & Hs & Hl). split; [lia|].
  split_and!; simpl; [done|lia|]. rewrite Hs at 1. rewrite <- drop_drop.
  by rewrite Nat.add_comm, Nat.add_sub, take_drop.
Qed.

Lemma u8_parsed r v r' :
  bytes_ok (Reader.buf r) → Reader.u8 r = (Ok v, r') → parsed r [v] r' ∧ uint 8 v.
Proof.
  intros Hok (s & r1 & Hs & [= <- <-])%se_bind_inv.
  apply bytes_parsed in Hs as [Hl Hp]. destruct s as [|v [|]]; simpl in Hl; [lia| |lia].
  split; [done|]. apply parsed_bytes_ok in Hp as [Hp _]; [|done]. by inversion Hp.
Qed.

Lemma uint_parsed n (m : SE Reader.t CodecError Z) r v r' :
  m = (b ← Reader.array n; mret (from_le b)) → bytes_ok (Reader.buf r) →
  m r = (Ok v, r') → parsed r (to_le n v) r' ∧ uint (8 * Z.of_nat n) v.
Proof.
  intros -> Hok (s & r1 & Hs & [= <- <-])%se_bind_inv.
  apply bytes_parsed in Hs as [Hl Hp]. pose proof (parsed_bytes_ok _ _ _ Hp Hok) as [Hs _].
  subst n. split; [by rewrite to_from_le|by apply from_le_bound].
Qed.

Lemma u16_parsed r v r' :
  bytes_ok (Reader.buf r) → Reader.u16_le r = (Ok v, r') → parsed r (to_le 2 v) r' ∧ uint 16 v.
Proof. by apply (uint_parsed 2). Qed.
Lemma u32_parsed r v r' :
  bytes_ok (Reader.buf r) → Reader.u32_le r = (Ok v, r') → parsed r (to_le 4 v) r' ∧ uint 32 v.
Proof. by apply (uint_parsed 4). Qed.
Lemma u64_parsed r v r' :
  bytes_ok (Reader.buf r) → Reader.u64_le r = (Ok v, r') → parsed r (to_le 8 v) r' ∧ uint 64 v.
Proof. by apply (uint_parsed 8). Qed.

Lemma opt_parsed {A} (b : bool) (m : SE Reader.t CodecError A) (wr : A → list Z)
    (P : A → Prop) r o r' :
  (∀ a r1, m r = (Ok a, r1) → parsed r (wr a) r1 ∧ P a) →
  (if b then x ← m; mret (Some x) else mret None) r = (Ok o, r') →
  parsed r (from_option wr [] o) r' ∧ b = is_some o ∧ from_option P True o.
Proof.
  intros Hm. destruct b.
  - intros (a & r1 & Ha & [= <- <-])%se_bind_inv. apply Hm in Ha as [??]. done.
  - intros [= <- <-]. split; [apply parsed_nil|done].
Qed.
End parsed.

Section writes.
Lemma advance_wf w bs :
  Writer.wf w → (length bs ≤ Writer.remaining w)%nat → Writer.wf (advance w bs).
Proof.
  unfold Writer.wf, Writer.remaining, advance. simpl. intros.
  rewrite length_splice; lia.
Qed.

Lemma advance_remaining w bs :
  Writer.wf w → (length bs ≤ Writer.remaining w)%nat →
  Writer.remaining (advance w bs) = (Writer.remaining w - length bs)%nat.
Proof.
  unfold Writer.wf, Writer.remaining, advance. simpl. intros.
  rewrite length_splice; lia.
Qed.

Lemma writes_bytes bs : writes (Writer.bytes bs) bs.
Proof.
  intros [b p] Hw. unfold Writer.wf, Writer.remaining in *. simpl in *. split; intros Hr.
  - unfold Writer.bytes. erewrite se_bind_ok.
    2: { unfold Writer.reserve. simpl. by rewrite get_range_Some by lia. }
    done.
  - eexists _, _, _. unfold Writer.bytes. erewrite se_bind_err; [done|].
    unfold Writer.reserve. simpl. by rewrite get_range_None by lia.
Qed.

Lemma writes_ret : writes (mret tt) [].
Proof.
  intros [b p] Hw. split; [|simpl; lia].
  intros _. unfold advance. simpl. by rewrite splice_nil, Nat.add_0_r.
Qed.

Lemma writes_bind (m : SE Writer.t CodecError unit) (f : unit → SE Writer.t CodecError unit)
    bs1 bs2 :
  writes m bs1 → writes (f tt) bs2 → writes (m ≫= f) (bs1 ++ bs2).
Proof.
  intros Hm Hf w Hw. destruct (Hm w Hw) as [Hok Herr].
  destruct (decide (length bs1 ≤ Writer.remaining w)%nat) as [Hfit|Hno].
  - specialize (Hok Hfit). rewrite (se_bind_ok _ _ _ _ _ Hok).
    destruct (Hf _ (advance_wf _ _ Hw Hfit)) as [Hok2 Herr2].
    rewrite advance_remaining in Hok2, Herr2 by done.
    rewrite length_app. split; intros Hr; [|apply Herr2; lia].
    rewrite Hok2 by lia. unfold advance. simpl.
    rewrite splice_splice by (unfold Writer.wf, Writer.remaining in *; lia).
    by rewrite length_app, Nat.add_assoc.
  - rewrite length_app. split; [lia|]. intros _.
    destruct Herr as (n & a & w' & He); [lia|].
    exists n, a, w'. by apply se_bind_err.
Qed.

Lemma writes_bind_last (m : SE Writer.t CodecError unit)
    (f : unit → SE Writer.t CodecError unit) bs :
  writes m bs → writes (f tt) [] → writes (m ≫= f) bs.
Proof. intros. rewrite <- (app_nil_r bs). by apply writes_bind. Qed.

Lemma writes_opt {A} (o : option A) (f : A → SE Writer.t CodecError unit) (wr : A → list Z) :
  (∀ a, o = Some a → writes (f a) (wr a)) →
  writes (match o with Some a => f a | None => mret tt end) (from_option wr [] o).
Proof. intros Hf. destruct o; simpl; [by apply Hf|apply writes_ret]. Qed.

Lemma writes_u8 v : writes (Writer.u8 v) [v].
Proof. apply writes_bytes. Qed.
Lemma writes_u16 v : writes (Writer.u16_le v) (to_le 2 v).
Proof. apply writes_bytes. Qed.
Lemma writes_u32 v : writes (Writer.u32_le v) (to_le 4 v).
Proof. apply writes_bytes. Qed.
Lemma writes_u64 v : writes (Writer.u64_le v) (to_le 8 v).
Proof. apply writes_bytes. Qed.

(** Serialising into a slice: the prefix holds the octets, the rest of the
    slice is untouched. *)
Lemma writes_to_slice {A} `{!Encode A} (a : A) bs out :
  writes (encode a) bs → (length bs ≤ length out)%nat →
  encode_to_slice a out = (Ok (length bs), bs ++ drop (length bs) out).
Proof.
  intros H Hlen. destruct (H (Writer.new out)) as [Hok _].
  { unfold Writer.wf, Writer.new. simpl. lia. }
  unfold encode_to_slice. rewrite Hok; [|unfold Writer.remaining; simpl; lia].
  unfold advance, Writer.position. done.
Qed.

Lemma writes_to_slice_short {A} `{!Encode A} (a : A) bs out :
  writes (encode a) bs → (length out < length bs)%nat →
  ∃ n av out', encode_to_slice a out = (Err (BufferTooSmall n av), out').
Proof.
  intros H Hlen. destruct (H (Writer.new out)) as [_ Herr].
  { unfold Writer.wf, Writer.new. simpl. lia. }
  destruct Herr as (n & av & w' & He); [unfold Writer.remaining; simpl; lia|].
  unfold encode_to_slice. rewrite He. eauto.
Qed.
End writes.

(** ** The contract of a wire type *)

(** What a type with [Decode] and [Encode] promises: a wire image for every
    well-formed value, written by [encode] and accepted by [decode]. *)
Class Codec (A : Type) `{!Decode A, !Encode A} := {
  wire_ok : A → Prop;
  wire : A → list Z;
  codec_writes a : wire_ok a → writes (encode a) (wire a);
  codec_decodes a : wire_ok a → decodes decode (wire a) a;
  codec_len a : wire_ok a → encoded_len a = length (wire a)
}.

Section codec.
Context {A : Type} `{HC : Codec A}.

Lemma codec_round_trip (a : A) out :
  wire_ok a → (encoded_len a ≤ length out)%nat →
  ∃ out', encode_to_slice a out = (Ok (encoded_len a), out') ∧
    decode_exact (take (encoded_len a) out') = Ok a ∧
    drop (encoded_len a) out' = drop (encoded_len a) out.
Proof.
  intros Hok Hlen. pose proof (codec_len a Hok) as Hl. rewrite Hl in *.
  eexists. split; [by apply writes_to_slice, Hlen; apply codec_writes|]. split.
  - rewrite take_app_length. by apply decodes_exact, codec_decodes.
  - apply drop_app_length.
Qed.

Lemma codec_too_small (a : A) out :
  wire_ok a → (length out < encoded_len a)%nat →
  ∃ n av out', encode_to_slice a out = (Err (BufferTooSmall n av), out').
Proof.
  intros Hok Hlen. rewrite (codec_len a Hok) in Hlen.
  eapply writes_to_slice_short; [by apply codec_writes|done].
Qed.
End codec.

(** ** Integers: [impl_int_codec!] *)

Inductive int_ty : Type := U8 | U16 | U32 | U64 | I8 | I16 | I32 | I64.

(** [core::mem::size_of] *)
Definition size_of (ty : int_ty) : nat :=
  match ty with
  | U8 | I8 => 1 | U16 | I16 => 2 | U32 | I32 => 4 | U64 | I64 => 8
  end.

Definition signed (ty : int_ty) : bool :=
  match ty with I8 | I16 | I32 | I64 => true | _ => false end.

(** The values of the type. *)
Definition in_range (ty : int_ty) (v : Z) : Prop :=
  if signed ty then sint (8 * Z.of_nat (size_of ty)) v else uint (8 * Z.of_nat (size_of ty)) v.

Record int (ty : int_ty) : Type := Int { int_val : Z }.
Arguments Int {ty} _.
Arguments int_val {ty} _.

#[export] Instance int_Decode ty : Decode (int ty) :=
  v ← match ty with
      | U8 => Reader.u8 | U16 => Reader.u16_le | U32 => Reader.u32_le | U64 => Reader.u64_le
      | I8 => Reader.i8 | I16 => Reader.i16_le | I32 => Reader.i32_le | I64 => Reader.i64_le
      end; mret (Int v).

#[export] Instance int_Encode ty : Encode (int ty) := {
  encoded_len _ := size_of ty;
  encode v := match ty with
      | U8 => Writer.u8 | U16 => Writer.u16_le | U32 => Writer.u32_le | U64 => Writer.u64_le
      | I8 => Writer.i8 | I16 => Writer.i16_le | I32 => Writer.i32_le | I64 => Writer.i64_le
      end (int_val v)
}.

(** ** Newtypes: [wrap!] *)

Inductive newtype : Type :=
  | PanId | ShortAddress | ExtendedAddress | GroupAddress | ProfileId | ClusterId
  | AttributeId | CommandId | ManufacturerCode | DeviceId | FrameCounter
  | KeySequenceNumber | TransactionSequence | Endpoint.

Definition inner (n : newtype) : int_ty :=
  match n with
  | ExtendedAddress => U64
  | FrameCounter => U32
  | CommandId | KeySequenceNumber | TransactionSequence | Endpoint => U8
  | _ => U16
  end.

Record wrapped (n : newtype) : Type := Wrap { unwrap : int (inner n) }.
Arguments Wrap {n} _.
Arguments unwrap {n} _.

#[export] Instance wrapped_Decode n : Decode (wrapped n) :=
  v ← @decode (int (inner n)) _; mret (Wrap v).

#[export] Instance wrapped_Encode n : Encode (wrapped n) := {
  encoded_len _ := size_of (inner n);
  encode v := encode (unwrap v)
}.

(** ** Octet arrays and keys *)

(** [[u8; N]]; [Key128] is the array of 16 octets. *)
Record array (n : nat) : Type := Arr { octets : list Z }.
Arguments Arr {n} _.
Arguments octets {n} _.

#[export] Instance array_Decode n : Decode (array n) :=
  b ← Reader.array n; mret (Arr b).

#[export] Instance array_Encode n : Encode (array n) := {
  encoded_len _ := n;
  encode a := Writer.bytes (octets a)
}.

(** The wire image of an integer: its low octets, two's complement when signed. *)
Definition int_wire (ty : int_ty) (v : Z) : list Z :=
  to_le (size_of ty) (wrap (8 * Z.of_nat (size_of ty)) v).

Section instances.
Lemma int_wire_uint ty v :
  signed ty = false → in_range ty v → int_wire ty v = to_le (size_of ty) v.
Proof. unfold in_range, int_wire. intros -> Hv. by rewrite wrap_small. Qed.

Lemma int_wire_u8 v : in_range U8 v → int_wire U8 v = [v].
Proof.
  intros H. rewrite int_wire_uint by done. unfold size_of, to_le.
  unfold in_range, uint in H. simpl in H. by rewrite Z.mod_small.
Qed.

Lemma int_writes ty (a : int ty) :
  in_range ty (int_val a) → writes (encode a) (int_wire ty (int_val a)).
Proof.
  intros H. destruct ty; simpl; try apply writes_bytes;
    try (rewrite int_wire_uint by done; apply writes_bytes).
  rewrite int_wire_u8 by done. apply writes_bytes.
Qed.

Lemma int_decodes ty (a : int ty) :
  in_range ty (int_val a) → decodes decode (int_wire ty (int_val a)) a.
Proof.
  destruct a as [v]. simpl. intros H. apply (decodes_map _ Int). destruct ty.
  - rewrite int_wire_u8 by done. apply decodes_u8.
  - rewrite int_wire_uint by done. by apply decodes_u16.
  - rewrite int_wire_uint by done. by apply decodes_u32.
  - rewrite int_wire_uint by done. by apply decodes_u64.
  - intros pre suf. etransitivity; [|exact (decodes_sint 1 v _ ltac:(lia) eq_refl H pre suf)].
    unfold Reader.i8, Reader.u8. rewrite se_bind_assoc.
    unfold mbind, se_bind, mret, se_ret. simpl.
    destruct (Reader.array 1 _) as [[s|] r] eqn:E; [|done].
    unfold Reader.array, Reader.bytes in E. case_match eqn:G; simplify_eq.
    apply get_range_inv in G as (_ & _ & Hl). simpl in Hl.
    destruct s as [|x [|]]; simpl in *; [lia| |lia]. by rewrite Z.add_0_r.
  - exact (decodes_sint 2 v _ ltac:(lia) eq_refl H).
  - exact (decodes_sint 4 v _ ltac:(lia) eq_refl H).
  - exact (decodes_sint 8 v _ ltac:(lia) eq_refl H).
Qed.

#[export] Instance int_Codec ty : Codec (int ty) := {
  wire_ok a := in_range ty (int_val a);
  wire a := int_wire ty (int_val a);
  codec_writes := int_writes ty;
  codec_decodes := int_decodes ty;
  codec_len _ _ := eq_sym (length_to_le _ _)
}.

#[export, refine] Instance wrapped_Codec n : Codec (wrapped n) := {
  wire_ok a := in_range (inner n) (int_val (unwrap a));
  wire a := int_wire (inner n) (int_val (unwrap a))
}.
Proof.
  - intros a H. exact (int_writes _ (unwrap a) H).
  - intros [a] H. apply (decodes_map _ Wrap). exact (int_decodes _ a H).
  - intros a _. symmetry. apply length_to_le.
Defined.

#[export, refine] Instance array_Codec n : Codec (array n) := {
  wire_ok a := length (octets a) = n;
  wire a := octets a
}.
Proof.
  - intros a _. apply writes_bytes.
  - intros [a] H. simpl in *. apply (decodes_map _ Arr). by apply decodes_array.
  - intros a H. done.
Defined.
End instances.

(** ** Properties of the codec primitives *)

Section cursors.
(** The [uint_le] accumulation is the little-endian value. *)
Lemma uint_loop_spec s i v :
  0 ≤ i → uint (8 * i) v → bytes_ok s →
  Reader.uint_loop i v s = v + 2 ^ (8 * i) * from_le s.
Proof.
  intros Hi Hv Hs. revert i v Hi Hv. induction Hs as [|b s Hb Hs IH]; intros i v Hi Hv; simpl.
  - lia.
  - rewrite lor_shiftl_add by (done || lia). rewrite IH; [| lia |].
    + replace (8 * (i + 1)) with (8 + 8 * i) by lia.
      rewrite Z.pow_add_r by lia. change (2 ^ 8) with 256. lia.
    + unfold uint in *. replace (8 * (i + 1)) with (8 + 8 * i) by lia.
      rewrite Z.pow_add_r by lia. change (2 ^ 8) with 256 in *. nia.
Qed.

Lemma decodes_uint_le w v :
  (1 ≤ w ≤ 8)%nat →
  decodes (Reader.uint_le w) (to_le w v) (v mod 2 ^ (8 * Z.of_nat w)).
Proof.
  intros Hw. unfold Reader.uint_le.
  rewrite (proj2 (Nat.eqb_neq w 0)), (proj2 (Nat.ltb_ge 8 w)) by lia. simpl.
  pose proof (decodes_map _ (Reader.uint_loop 0 0) _ _ (decodes_bytes (to_le w v))) as H.
  rewrite length_to_le in H.
  rewrite uint_loop_spec, from_to_le_mod in H by (auto with panweave || done || lia).
  change (8 * 0) with 0 in H. by rewrite Z.add_0_l, Z.mul_1_l in H.
Qed.

Lemma writes_uint_le w v :
  (1 ≤ w ≤ 8)%nat → writes (Writer.uint_le v w) (to_le w v).
Proof.
  intros Hw. unfold Writer.uint_le.
  rewrite (proj2 (Nat.eqb_neq w 0)), (proj2 (Nat.ltb_ge 8 w)) by lia. cbn [orb].
  rewrite get_range_Some by (rewrite length_to_le; lia). cbn [default].
  unfold from_option, id. rewrite drop_0, Nat.sub_0_r, take_to_le by lia.
  apply writes_bytes.
Qed.
End cursors.

(** Every read of the bounded reader, on both branches: [bytes n] inside
    the input yields exactly the next [n] octets and advances past them; a
    request past the end fails with the requested and available counts and
    moves nothing.  The input is never modified and the cursor never leaves it. *)
Theorem reader_bytes_bounded (r : Reader.t) (n : nat) :
  Reader.wf r →
  ((n ≤ Reader.remaining r)%nat →
     Reader.bytes n r = (Ok (take n (Reader.peek_rest r)),
                         Reader.mk (Reader.buf r) (Reader.pos r + n)) ∧
     Reader.wf (Reader.mk (Reader.buf r) (Reader.pos r + n))) ∧
  ((Reader.remaining r < n)%nat →
     Reader.bytes n r = (Err (Truncated n (Reader.remaining r)), r)).
Proof.
  destruct r as [b p]. unfold Reader.wf, Reader.remaining, Reader.bytes, Reader.peek_rest. simpl.
  intros Hp. split; intros Hn.
  - rewrite get_range_Some by lia. unfold get_from.
    rewrite (proj2 (Nat.leb_le p (length b))) by done. simpl. split; [|lia].
    do 3 f_equal. lia.
  - by rewrite get_range_None by lia.
Qed.

Lemma reader_bytes_bounded_witness :
  Reader.bytes 2 (Reader.mk [1; 2; 3] 1) = (Ok [2; 3], Reader.mk [1; 2; 3] 3).
Proof.
  apply (proj1 (reader_bytes_bounded (Reader.mk [1; 2; 3] 1) 2 ltac:(vm_compute; lia))).
  vm_compute. lia.
Defined.

(** Every write of the bounded writer, on both branches: octets that fit
    are appended to what was written before, and neither the earlier output nor
    the rest of the buffer changes; octets that do not fit change nothing.  The
    buffer never grows. *)
Theorem writer_bytes_bounded (w : Writer.t) (src : list Z) :
  Writer.wf w →
  ((length src ≤ Writer.remaining w)%nat →
     ∃ w', Writer.bytes src w = (Ok tt, w') ∧ Writer.wf w' ∧
       Writer.written w' = Writer.written w ++ src ∧
       Writer.capacity w' = Writer.capacity w ∧
       drop (Writer.pos w') (Writer.buf w') = drop (Writer.pos w') (Writer.buf w)) ∧
  ((Writer.remaining w < length src)%nat →
     Writer.bytes src w = (Err (BufferTooSmall (length src) (Writer.remaining w)), w)).
Proof.
  intros Hw. split; intros Hr.
  - exists (advance w src). split; [by apply writes_bytes|].
    split; [by apply advance_wf|]. destruct w as [b p].
    unfold Writer.wf, Writer.remaining, Writer.written, Writer.capacity, advance in *.
    simpl in *. rewrite !get_range_Some by (rewrite ?length_splice; lia). simpl.
    rewrite !drop_0, !Nat.sub_0_r, take_splice_through, length_splice, drop_splice by lia. done.
  - destruct w as [b p]. unfold Writer.bytes, Writer.wf, Writer.remaining in *. simpl in *.
    apply se_bind_err. unfold Writer.reserve. simpl. by rewrite get_range_None by lia.
Qed.

Lemma writer_bytes_bounded_witness :
  Writer.bytes [7; 8; 9] (Writer.mk [1; 0; 0] 1) =
    (Err (BufferTooSmall 3 2), Writer.mk [1; 0; 0] 1).
Proof.
  apply (proj2 (writer_bytes_bounded (Writer.mk [1; 0; 0] 1) [7; 8; 9] ltac:(vm_compute; lia))).
  vm_compute. lia.
Defined.

(** Integers of every width and sign, and the newtypes over them, survive
    the wire: encoding a value into a large enough buffer writes exactly
    [size_of] octets, leaves the rest of the buffer alone, and decoding those
    octets alone returns the value. *)
Theorem newtype_round_trip (n : newtype) (ty : int_ty) (v x : Z) (out : list Z) :
  in_range (inner n) v → in_range ty x → (8 ≤ length out)%nat →
  (∃ out', encode_to_slice (Wrap (n:=n) (Int v)) out = (Ok (size_of (inner n)), out') ∧
     decode_exact (take (size_of (inner n)) out') = Ok (Wrap (n:=n) (Int v)) ∧
     drop (size_of (inner n)) out' = drop (size_of (inner n)) out) ∧
  (∃ out', encode_to_slice (Int (ty:=ty) x) out = (Ok (size_of ty), out') ∧
     decode_exact (take (size_of ty) out') = Ok (Int (ty:=ty) x) ∧
     drop (size_of ty) out' = drop (size_of ty) out).
Proof.
  intros Hv Hx Hout. split.
  - assert (size_of (inner n) ≤ length out)%nat as Hn by (destruct n; simpl; lia).
    exact (codec_round_trip (A:=wrapped n) (Wrap (Int v)) out Hv Hn).
  - assert (size_of ty ≤ length out)%nat as Hn by (destruct ty; simpl; lia).
    exact (codec_round_trip (A:=int ty) (Int x) out Hx Hn).
Qed.

Lemma newtype_round_trip_witness :
  ∃ out', encode_to_slice (Int (ty:=I16) (-2)) (replicate 9 0) = (Ok 2%nat, out') ∧
     decode_exact (take 2 out') = Ok (Int (ty:=I16) (-2)) ∧
     drop 2 out' = drop 2 (replicate 9 0).
Proof.
  apply (newtype_round_trip ShortAddress I16 65533 (-2) (replicate 9 0)).
  - vm_compute. split; congruence.
  - vm_compute. split; congruence.
  - simpl. lia.
Defined.

(** The variable-width integers: for widths 1 to 8 [uint_le] writes the low
    [width] octets of its argument and reading them back gives the value modulo
    [2^(8 * width)]; any other width is refused by both sides without touching
    the cursor. *)
Theorem uint_le_round_trip (v : Z) (w : nat) :
  ((1 ≤ w ≤ 8)%nat →
     writes (Writer.uint_le v w) (to_le w v) ∧
     decodes (Reader.uint_le w) (to_le w v) (v mod 2 ^ (8 * Z.of_nat w))) ∧
  (¬ (1 ≤ w ≤ 8)%nat →
     (∀ wr, Writer.uint_le v w wr =
        (Err (InvalidField "integer width" (u32_or_max w)), wr)) ∧
     (∀ r, Reader.uint_le w r =
        (Err (InvalidField "integer width" (u32_or_max w)), r))).
Proof.
  split; intros Hw.
  - split; [by apply writes_uint_le|by apply decodes_uint_le].
  - assert (((w =? 0) || (8 <? w))%nat = true) as Hb.
    { destruct (Nat.eqb_spec w 0), (Nat.ltb_spec 8 w); simpl; lia. }
    unfold Writer.uint_le, Reader.uint_le. by rewrite Hb.
Qed.

Lemma uint_le_round_trip_witness :
  decodes (Reader.uint_le 3) (to_le 3 0x01020304) 0x020304.
Proof.
  apply (proj1 (uint_le_round_trip 0x01020304 3)). lia.
Defined.
