(* ===== verification/Wire.v ===== *)
(** * Fields of wire formats

    Every header and command of the stack is decoded field by field.  The class
    [Field] says what one reader operation promises in both directions: it
    accepts the image of every value of the field, and what it accepts is the
    image of such a value.  The tactics walk through a decoder or an encoder
    field by field. *)

From S2P Require Import Prelude Codec.

Class Field {A} (m : SE Reader.t CodecError A) (wr : A → list Z) (P : A → Prop) : Prop := {
  field_decodes a : P a → decodes m (wr a) a;
  field_parsed r a r' :
    bytes_ok (Reader.buf r) → m r = (Ok a, r') → parsed r (wr a) r' ∧ P a
}.

#[export] Instance u8_Field : Field Reader.u8 (λ v, [v]) (uint 8).
Proof. split; [intros v _; apply decodes_u8|intros r v r'; apply u8_parsed]. Qed.
#[export] Instance u16_Field : Field Reader.u16_le (to_le 2) (uint 16).
Proof. split; [apply decodes_u16|apply u16_parsed]. Qed.
#[export] Instance u32_Field : Field Reader.u32_le (to_le 4) (uint 32).
Proof. split; [apply decodes_u32|apply u32_parsed]. Qed.
#[export] Instance u64_Field : Field Reader.u64_le (to_le 8) (uint 64).
Proof. split; [apply decodes_u64|apply u64_parsed]. Qed.

#[export] Instance bytes_Field n :
  Field (Reader.bytes n) (λ s, s) (λ s, length s = n ∧ bytes_ok s).
Proof.
  split.
  - intros s [<- _]. apply decodes_bytes.
  - intros r s r' Hok [Hl Hp]%bytes_parsed. pose proof (parsed_bytes_ok _ _ _ Hp Hok) as [? _]. done.
Qed.

#[export] Instance array_Field n :
  Field (Reader.array n) (λ s, s) (λ s, length s = n ∧ bytes_ok s).
Proof. apply bytes_Field. Qed.

(** A field present under a condition. *)
#[export] Instance opt_Field {A} (b : bool) (m : SE Reader.t CodecError A) wr P `{!Field m wr P} :
  Field (if b then x ← m; mret (Some x) else mret None) (from_option wr [])
    (λ o, b = is_some o ∧ from_option P True o).
Proof.
  split.
  - intros o [Hb Ho]. apply decodes_opt; [done|]. intros a ->. by apply field_decodes.
  - intros r o r' Hok Ho. apply (opt_parsed _ _ wr P) in Ho; [done|]. intros a r1. by apply field_parsed.
Qed.

(** A field converted on the way. *)
Lemma map_Field {A B} (m : SE Reader.t CodecError A) (f : A → B) (g : B → A) wr P :
  Field m wr P → Cancel (=) g f →
  Field (x ← m; mret (f x)) (λ b, wr (g b)) (λ b, P (g b) ∧ f (g b) = b).
Proof.
  intros HF Hc. split.
  - intros b [HP Hb]. rewrite <- Hb at 2. apply decodes_map. by apply field_decodes.
  - intros r b r' Hok (a & r1 & Ha & [= <- <-])%se_bind_inv. rewrite (cancel g f).
    by apply field_parsed in Ha as [??].
Qed.

(** ** Formats that end with the buffer

    A payload that takes the rest of the buffer is read back only when nothing
    follows it. *)
Definition decodes_all {A} (m : SE Reader.t CodecError A) (bs : list Z) (a : A) : Prop :=
  ∀ pre, m (Reader.mk (pre ++ bs) (length pre)) = (Ok a, Reader.mk (pre ++ bs) (length (pre ++ bs))).

Section decodes_all.
Lemma decodes_to_end {A} (m : SE Reader.t CodecError A) bs a : decodes m bs a → decodes_all m bs a.
Proof. intros Hm pre. specialize (Hm pre []). rewrite app_nil_r in Hm. by rewrite Hm, length_app. Qed.

Lemma decodes_all_bind {A B} (m : SE Reader.t CodecError A) (f : A → SE Reader.t CodecError B) bs1 bs2 a b :
  decodes m bs1 a → decodes_all (f a) bs2 b → decodes_all (m ≫= f) (bs1 ++ bs2) b.
Proof.
  intros Hm Hf pre. specialize (Hm pre bs2). specialize (Hf (pre ++ bs1)).
  rewrite <- app_assoc, length_app in Hf. erewrite se_bind_ok; [|apply Hm]. exact Hf.
Qed.

Lemma decodes_all_u8 {B} (f : Z → SE Reader.t CodecError B) v bs b :
  decodes_all (f v) bs b → decodes_all (Reader.u8 ≫= f) (v :: bs) b.
Proof. apply (decodes_all_bind _ _ [v] bs v b), decodes_u8. Qed.

Lemma decodes_all_map {A B} (m : SE Reader.t CodecError A) (f : A → B) bs a :
  decodes_all m bs a → decodes_all (x ← m; mret (f x)) bs (f a).
Proof. intros Hm pre. erewrite se_bind_ok; [|apply Hm]. done. Qed.

Lemma decodes_all_rest {B} (f : list Z → SE Reader.t CodecError B) bs b :
  decodes_all (f bs) [] b → decodes_all (Reader.take_rest ≫= f) bs b.
Proof.
  intros Hf pre. unfold Reader.take_rest. erewrite se_bind_ok; [|done].
  unfold Reader.peek_rest, get_from. cbn [Reader.buf Reader.pos].
  rewrite (proj2 (Nat.leb_le _ _)) by (rewrite length_app; lia). simpl. rewrite drop_app_length.
  specialize (Hf (pre ++ bs)). by rewrite app_nil_r in Hf.
Qed.

Lemma decodes_all_ret {A} (a : A) : decodes_all (mret a) [] a.
Proof. apply decodes_to_end, decodes_ret. Qed.

Lemma decodes_all_exact {A} `{!Decode A} bs (a : A) : decodes_all decode bs a → decode_exact bs = Ok a.
Proof.
  intros Hm. specialize (Hm []). rewrite app_nil_l in Hm. unfold decode_exact, Reader.new.
  change (length (A:=Z) []) with 0%nat in Hm. rewrite Hm. unfold Reader.is_empty, Reader.remaining. simpl.
  by rewrite Nat.sub_diag.
Qed.
End decodes_all.

(** What a type promises whose last field takes the rest of the buffer. *)
Class FullCodec (A : Type) `{!Decode A, !Encode A} := {
  full_ok : A → Prop;
  full_wire : A → list Z;
  full_writes a : full_ok a → writes (encode a) (full_wire a);
  full_decodes a : full_ok a → decodes_all decode (full_wire a) a;
  full_len a : full_ok a → encoded_len a = length (full_wire a)
}.

Lemma full_round_trip {A} `{HC : FullCodec A} (a : A) out :
  full_ok a → (encoded_len a ≤ length out)%nat →
  ∃ out', encode_to_slice a out = (Ok (encoded_len a), out') ∧
    decode_exact (take (encoded_len a) out') = Ok a ∧
    drop (encoded_len a) out' = drop (encoded_len a) out.
Proof.
  intros Hok Hlen. pose proof (full_len a Hok) as Hl. rewrite Hl in *.
  eexists. split; [by apply writes_to_slice, Hlen; apply full_writes|]. split.
  - rewrite take_app_length. by apply decodes_all_exact, full_decodes.
  - apply drop_app_length.
Qed.

(** The rest of a buffer. *)
Lemma peek_rest_bytes_ok r : bytes_ok (Reader.buf r) → bytes_ok (Reader.peek_rest r).
Proof.
  intros Hok. unfold Reader.peek_rest, get_from. case_match; simpl; [by apply bytes_ok_drop|constructor].
Qed.

Lemma take_rest_parsed r p r' :
  (Reader.pos r ≤ length (Reader.buf r))%nat → Reader.take_rest r = (Ok p, r') → parsed r p r'.
Proof.
  intros Hr [= <- <-]. unfold Reader.peek_rest, get_from. rewrite (proj2 (Nat.leb_le _ _) Hr). simpl.
  split_and!; simpl; [done|rewrite length_drop; lia|]. by rewrite drop_all, app_nil_r.
Qed.

Lemma decode_take_rest {A B} (m : SE Reader.t CodecError A) (f : A → list Z → B) bs a p :
  decodes m bs a →
  (h ← m; p ← Reader.take_rest; mret (f h p)) (Reader.new (bs ++ p)) =
    (Ok (f a p), Reader.mk (bs ++ p) (length (bs ++ p))).
Proof.
  intros Hm. specialize (Hm [] p). rewrite app_nil_l in Hm. erewrite se_bind_ok; [|exact Hm].
  unfold mbind, se_bind, Reader.take_rest, Reader.peek_rest, get_from, mret, se_ret. cbn.
  rewrite (proj2 (Nat.leb_le _ _)) by (rewrite length_app; lia). simpl. by rewrite drop_app_length.
Qed.

Lemma decodes_u8_cons {B} (f : Z → SE Reader.t CodecError B) v bs b :
  decodes (f v) bs b → decodes (Reader.u8 ≫= f) (v :: bs) b.
Proof. apply (decodes_bind _ _ [v] bs v b), decodes_u8. Qed.

(** ** Walking through a format *)

(** A single field. *)
Ltac read_one := first [apply decodes_u8 | apply field_decodes; assumption].

(** Goals [decodes (x ← field; ..) (image ++ ..) v] and [writes (field;; ..) (image ++ ..)]. *)
Ltac read_field :=
  first [apply decodes_u8_cons | eapply decodes_bind; [eapply field_decodes; try eassumption|]]; cbv beta.

Ltac read_field_end :=
  first [apply decodes_all_u8 | apply decodes_all_rest
        | eapply decodes_all_bind; [eapply field_decodes; try eassumption|]]; cbv beta.

(** The last field of such a format. *)
Lemma field_last {A B} (m : SE Reader.t CodecError A) wr P (k : A → SE Reader.t CodecError B) bs a b :
  Field m wr P → bs = wr a → P a → k a = mret b → decodes_all (m ≫= k) bs b.
Proof.
  intros HF -> Ha Hk. rewrite <- (app_nil_r (wr a)). eapply decodes_all_bind; [by apply field_decodes|].
  rewrite Hk. apply decodes_all_ret.
Qed.
Ltac read_last := eapply field_last; [apply _|reflexivity|eassumption|reflexivity].

Create HintDb codec.
#[export] Hint Resolve writes_u8 writes_u16 writes_u32 writes_u64 writes_bytes writes_ret writes_opt : codec.
Ltac write_field := apply writes_bind; [solve [eauto with codec]|].
Ltac write_fields := repeat write_field; try solve [eauto with codec].

(** A hypothesis [(x ← field; ..) r = (Ok v, r')]: the octets the field took and
    what its value satisfies. *)
Ltac parse_field Hd x :=
  let r1 := fresh "r" in let Hf := fresh "Hf" in let P := fresh "P" in let W := fresh "W" in
  let O := fresh "O" in
  apply se_bind_inv in Hd as (x & r1 & Hf & Hd);
  apply field_parsed in Hf as [P W]; [|assumption];
  pose proof (proj2 (parsed_bytes_ok _ _ _ P ltac:(assumption))) as O.

(** The images of consecutive fields are one image. *)
Ltac parse_done := solve [repeat first [eassumption | eapply parsed_trans | apply parsed_nil]].
