(* ===== verification/Tlv.v ===== *)
(** * Type-Length-Value framing (panweave-codec/src/tlv.rs)

    The iterator, the Annex I validation and the two writers.  [TlvList] is
    the abstract view: a message is the concatenation of its TLVs, and
    [tlv_spec] says which lists of TLVs the processing rules accept. *)

From S2P Require Import Prelude Codec.

Definition MANUFACTURER_SPECIFIC_TAG : Z := 64.
Definition FIRST_GLOBAL_TAG : Z := 64.

Definition is_global_tag (tag : Z) : bool := FIRST_GLOBAL_TAG <=? tag.

(** Global encapsulation tags. *)
Definition is_global_encapsulation (tag : Z) : bool := (tag =? 72) || (tag =? 73).

Record Tlv : Type := MkTlv { tag : Z; value : list Z }.

#[export] Instance Tlv_eq_dec : EqDecision Tlv.
Proof. solve_decision. Defined.

Definition tlv_encoded_len (t : Tlv) : nat := 2 + length (value t).

(** ** The iterator *)

Module TlvIter.

Record t : Type := mk { rest : list Z; failed : bool }.

Definition new (bytes : list Z) : t := mk bytes false.

Definition next (it : t) : option (result Tlv TlvError) * t :=
  if failed it || (length (rest it) =? 0)%nat then (None, it)
  else
    match rest it !! 0%nat, rest it !! 1%nat with
    | Some tag, Some len_minus_one =>
        let len := (Z.to_nat len_minus_one + 1)%nat in
        let e := (2 + len)%nat in
        match get_range (rest it) 2 e with
        | Some v => (Some (Ok (MkTlv tag v)), mk (default [] (get_from (rest it) e)) false)
        | None => (Some (Err TlvTruncated), mk (rest it) true)
        end
    | _, _ => (Some (Err TlvTruncated), mk (rest it) true)
    end.

(** The items a [for] loop over the iterator sees. *)
Fixpoint items_fuel (fuel : nat) (it : t) : list (result Tlv TlvError) :=
  match fuel with
  | O => []
  | S fuel =>
      match next it with
      | (None, _) => []
      | (Some x, it') => x :: items_fuel fuel it'
      end
  end.

(** Every item but a final error consumes at least three octets, so the length
    of the input plus one is more than the number of calls ([items_enough]). *)
Definition items (bytes : list Z) : list (result Tlv TlvError) :=
  items_fuel (S (length bytes)) (new bytes).

End TlvIter.

(** ** Validated sets *)

Module TlvSet.

Record t : Type := mk { bytes : list Z }.

Definition EMPTY : t := mk [].

(** The duplicate-tag bitmap [seen: [u64; 4]]. *)
Definition mark_seen (seen : list Z) (tg : Z) : result (list Z) TlvError :=
  let idx := Z.to_nat (tg / 64) in
  let bit := Z.shiftl 1 (tg mod 64) in
  match seen !! idx with
  | None => Err (Malformed tg)
  | Some slot =>
      if negb (Z.land slot bit =? 0) then Err (DuplicateTag tg)
      else Ok (<[idx := Z.lor slot bit]> seen)
  end.

(** The inner loop over an encapsulation's value. *)
Fixpoint check_inner (enc : Z → bool) (outer : Z) (inner : list (result Tlv TlvError))
    : result unit TlvError :=
  match inner with
  | [] => Ok tt
  | Err _ :: _ => Err (Malformed outer)
  | Ok i :: rest =>
      if is_global_encapsulation (tag i) || enc (tag i)
      then Err (NestedEncapsulation outer)
      else check_inner enc outer rest
  end.

(** One iteration of the outer loop, from the bitmap to the next bitmap. *)
Definition validate_item (enc : Z → bool) (seen : list Z) (tlv : Tlv) : result (list Z) TlvError :=
  match (if tag tlv =? MANUFACTURER_SPECIFIC_TAG then Ok seen else mark_seen seen (tag tlv)) with
  | Err e => Err e
  | Ok seen' =>
      if is_global_encapsulation (tag tlv) || enc (tag tlv) then
        match check_inner enc (tag tlv) (TlvIter.items (value tlv)) with
        | Ok _ => Ok seen'
        | Err e => Err e
        end
      else Ok seen'
  end.

Fixpoint validate_loop (enc : Z → bool) (seen : list Z) (its : list (result Tlv TlvError))
    : result unit TlvError :=
  match its with
  | [] => Ok tt
  | Err e :: _ => Err e
  | Ok tlv :: rest =>
      match validate_item enc seen tlv with
      | Ok seen' => validate_loop enc seen' rest
      | Err e => Err e
      end
  end.

Definition validate (b : list Z) (is_encapsulation : Z → bool) : result t TlvError :=
  match validate_loop is_encapsulation (replicate 4 0) (TlvIter.items b) with
  | Ok _ => Ok (mk b)
  | Err e => Err e
  end.

Definition from_trusted (b : list Z) : t := mk b.
Definition as_bytes (s : t) : list Z := bytes s.
Definition is_empty (s : t) : bool := (length (bytes s) =? 0)%nat.

(** [filter_map(Result::ok)] *)
Definition iter (s : t) : list Tlv :=
  omap (λ r, match r with Ok x => Some x | Err _ => None end) (TlvIter.items (bytes s)).

Definition find (s : t) (tg : Z) : option Tlv :=
  List.find (λ x, tag x =? tg) (iter s).
Definition tlv_value (s : t) (tg : Z) : option (list Z) := value <$> find s tg.
Definition require (s : t) (tg : Z) : result Tlv TlvError := ok_or (find s tg) (Missing tg).
Definition manufacturer_specific (s : t) : list Tlv :=
  List.filter (λ x, tag x =? MANUFACTURER_SPECIFIC_TAG) (iter s).

End TlvSet.

(** ** Writers *)

Definition write_tlv (tg : Z) (v : list Z) : SE Writer.t CodecError unit :=
  if (length v =? 0)%nat || (256 <? length v)%nat then fail (Unrepresentable "tlv value")
  else
    let len_minus_one := Z.of_nat (length v - 1) in
    Writer.u8 tg;;
    Writer.u8 len_minus_one;;
    Writer.bytes v.

(** [write_tlv_with]: the length octet is patched in after [body] has run.
    [body] is the caller's closure. *)
Definition write_tlv_with (tg : Z) (body : SE Writer.t CodecError unit)
    : SE Writer.t CodecError unit :=
  start ← gets Writer.position;
  Writer.u8 tg;;
  Writer.u8 0;;
  body;;
  p ← gets Writer.position;
  let len := (p - (start + 2))%nat in
  if ((len =? 0) || (256 <? len))%nat then fail (Unrepresentable "tlv value")
  else
    region ← Writer.patch (start + 1) 1;
    Writer.copy_from_slice region [Z.of_nat (len - 1)].

(** ** The abstract view *)

Definition tlv_wire (t : Tlv) : list Z := tag t :: Z.of_nat (length (value t) - 1) :: value t.

Definition tlv_ok (t : Tlv) : Prop :=
  byte_ok (tag t) ∧ (1 ≤ length (value t) ≤ 256)%nat ∧ bytes_ok (value t).

(** Encapsulation: Joiner (72) or Beacon Appendix (73), or one the message
    declares. *)
Definition encapsulates (enc : Z → bool) (t : Tlv) : bool :=
  (tag t =? 72) || (tag t =? 73) || enc (tag t).

(** The message octets of a list of TLVs. *)
Definition tlvs_wire (ts : list Tlv) : list Z := concat (tlv_wire <$> ts).

(** Annex I.2.7: no tag but 64 (Manufacturer Specific) repeats, and the value of an encapsulation is
    itself a list of TLVs without encapsulations. *)
Definition tlv_spec (enc : Z → bool) (ts : list Tlv) : Prop :=
  Forall tlv_ok ts ∧
  NoDup (List.filter (λ x, negb (x =? 64)) (tag <$> ts)) ∧
  Forall (λ t, encapsulates enc t = true →
    ∃ us, value t = tlvs_wire us ∧ Forall tlv_ok us ∧
      Forall (λ u, encapsulates enc u = false) us) ts.

(** ** The iterator parses exactly the concatenations of TLVs *)

Section iterator.

Lemma next_wire t rest :
  tlv_ok t → TlvIter.next (TlvIter.mk (tlv_wire t ++ rest) false) =
    (Some (Ok t), TlvIter.mk rest false).
Proof.
  destruct t as [tg v]. intros (_ & Hl & _). unfold TlvIter.next, tlv_wire. simpl in *.
  replace (Z.to_nat (Z.of_nat (length v - 1)) + 1)%nat with (length v) by lia.
  pose proof (get_range_app [tg; Z.of_nat (length v - 1)] v rest) as H. simpl in H.
  rewrite H. unfold get_from. rewrite (proj2 (Nat.leb_le _ _)) by (simpl; len).
  simpl. by rewrite drop_app_length.
Qed.

(** What one call can yield. *)
Inductive next_result (bs : list Z) : option (result Tlv TlvError) * TlvIter.t → Prop :=
  | next_end : bs = [] → next_result bs (None, TlvIter.mk bs false)
  | next_item t rest : tlv_ok t → bs = tlv_wire t ++ rest → bytes_ok rest →
      next_result bs (Some (Ok t), TlvIter.mk rest false)
  | next_bad : bs ≠ [] → (∀ ts, Forall tlv_ok ts → bs ≠ tlvs_wire ts) →
      next_result bs (Some (Err TlvTruncated), TlvIter.mk bs true).

Lemma tlvs_wire_cons t ts : tlvs_wire (t :: ts) = tlv_wire t ++ tlvs_wire ts.
Proof. done. Qed.

Lemma not_wire_of_next bs it' :
  TlvIter.next (TlvIter.mk bs false) = (Some (Err TlvTruncated), it') →
  ∀ ts, Forall tlv_ok ts → bs ≠ tlvs_wire ts.
Proof.
  intros H ts Hts ->. destruct Hts as [|t ts Ht _]; [done|].
  by rewrite tlvs_wire_cons, next_wire in H.
Qed.

Lemma next_spec bs : bytes_ok bs → next_result bs (TlvIter.next (TlvIter.mk bs false)).
Proof.
  intros Hbs. destruct (TlvIter.next (TlvIter.mk bs false)) as [o it'] eqn:E.
  pose proof (not_wire_of_next bs it') as Hnw. rewrite E in Hnw.
  destruct bs as [|tg [|lm bs]].
  - vm_compute in E. simplify_eq. by constructor.
  - vm_compute in E. simplify_eq. constructor; [done|auto].
  - unfold TlvIter.next in E. simpl in E.
    inversion Hbs as [|?? Ht H1]; subst. inversion H1 as [|?? Hl H2]; subst.
    unfold uint in Ht, Hl. simpl in Ht, Hl.
    case_match eqn:G; simplify_eq; [|constructor; [done|auto]].
    apply get_range_inv in G as (Hb & -> & Hlen). simpl in Hb, Hlen |- *.
    unfold get_from. rewrite (proj2 (Nat.leb_le _ _)) by (simpl; lia). simpl.
    replace (Z.to_nat lm + 1 - 0)%nat with (Z.to_nat lm + 1)%nat in * by lia.
    rewrite drop_0 in *.
    constructor; [| |by apply bytes_ok_drop].
    + unfold tlv_ok. simpl. rewrite Hlen. split_and!; [done|lia..|by apply bytes_ok_take].
    + unfold tlv_wire. simpl. rewrite Hlen, take_drop. do 2 f_equal. lia.
Qed.

Lemma length_tlv_wire t : tlv_ok t → (3 ≤ length (tlv_wire t))%nat.
Proof. intros (_ & ? & _). simpl. lia. Qed.

Lemma items_fuel_S fuel it :
  TlvIter.items_fuel (S fuel) it =
    match TlvIter.next it with
    | (None, _) => []
    | (Some x, it') => x :: TlvIter.items_fuel fuel it'
    end.
Proof. done. Qed.

(** With more fuel than octets the loop reads the whole message: either it is a
    concatenation of TLVs, or the last item is the truncation error. *)
Lemma items_shape fuel bs :
  bytes_ok bs → (length bs < fuel)%nat →
  ∃ ts, Forall tlv_ok ts ∧
    ((bs = tlvs_wire ts ∧ TlvIter.items_fuel fuel (TlvIter.new bs) = Ok <$> ts) ∨
     ((∀ us, Forall tlv_ok us → bs ≠ tlvs_wire us) ∧
      TlvIter.items_fuel fuel (TlvIter.new bs) = (Ok <$> ts) ++ [Err TlvTruncated])).
Proof.
  revert bs. induction fuel as [|fuel IH]; intros bs Hbs Hf; [lia|]. simpl.
  unfold TlvIter.new. destruct (next_spec bs Hbs) as [->|t rest Ht -> Hr|Hne Hnw].
  - exists []. split; [constructor|]. by left.
  - pose proof (length_tlv_wire t Ht). rewrite length_app in Hf.
    destruct (IH rest Hr ltac:(lia)) as (ts & Hts & Hor).
    exists (t :: ts). split; [by constructor|]. unfold TlvIter.new in Hor.
    destruct Hor as [(-> & ->)|(Hnw & ->)]; [by left|right]. split; [|done].
    intros us [|u us' Hu Hus].
    + intros E. apply (f_equal length) in E. simpl in E. lia.
    + rewrite tlvs_wire_cons. intros E. apply (Hnw us' Hus).
      pose proof (next_wire u (tlvs_wire us') Hu) as H1.
      rewrite <- E, next_wire in H1 by done. by simplify_eq.
  - exists []. split; [constructor|]. right. split; [done|].
    destruct fuel; [|done]. destruct bs; [done|simpl in Hf; lia].
Qed.

Lemma items_wire ts : Forall tlv_ok ts → TlvIter.items (tlvs_wire ts) = Ok <$> ts.
Proof.
  intros Hts. unfold TlvIter.items.
  assert (∀ fuel, (length (tlvs_wire ts) < fuel)%nat →
    TlvIter.items_fuel fuel (TlvIter.new (tlvs_wire ts)) = Ok <$> ts) as H; [|apply H; lia].
  induction Hts as [|t ts Ht Hts IH]; intros [|fuel] Hf; try lia; [done|].
  rewrite tlvs_wire_cons in *. rewrite items_fuel_S. unfold TlvIter.new.
  rewrite next_wire by done. simpl. f_equal. apply IH. rewrite length_app in Hf.
  pose proof (length_tlv_wire t Ht). lia.
Qed.

(** Inside a bytes-only message, the items are all [Ok] exactly when the message
    is a concatenation of TLVs. *)
Lemma items_enough bs :
  bytes_ok bs →
  (∃ ts, Forall tlv_ok ts ∧ bs = tlvs_wire ts ∧ TlvIter.items bs = Ok <$> ts) ∨
  (∃ ts, (∀ us, Forall tlv_ok us → bs ≠ tlvs_wire us) ∧
     TlvIter.items bs = (Ok <$> ts) ++ [Err TlvTruncated]).
Proof.
  intros Hbs. destruct (items_shape (S (length bs)) bs Hbs ltac:(lia)) as (ts & Hts & Hor).
  destruct Hor as [[??]|[??]]; [left; eauto|right; eauto].
Qed.

Lemma tlvs_wire_inj ts us :
  Forall tlv_ok ts → Forall tlv_ok us → tlvs_wire ts = tlvs_wire us → ts = us.
Proof.
  intros Ht Hu E. apply (inj (fmap (Ok (E:=TlvError)))).
  by rewrite <- !items_wire, E by done.
Qed.

End iterator.

(** ** Validation decides the specification *)

Section validation.
Context (enc : Z → bool).

(** The bit of [tg] in the bitmap. *)
Definition seen_bit (seen : list Z) (tg : Z) : bool :=
  Z.testbit (default 0 (seen !! Z.to_nat (tg / 64))) (tg mod 64).

Lemma land_bit_eqb slot k : 0 ≤ k → negb (Z.land slot (Z.shiftl 1 k) =? 0) = Z.testbit slot k.
Proof.
  intros Hk. rewrite Z.shiftl_1_l.
  assert (Z.land slot (2 ^ k) = if Z.testbit slot k then 2 ^ k else 0) as ->.
  { apply Z.bits_inj'. intros n Hn. rewrite Z.land_spec, Z.pow2_bits_eqb by done.
    destruct (Z.eqb_spec k n) as [->|Hne].
    - rewrite andb_true_r. destruct (Z.testbit slot n) eqn:E; [by rewrite Z.pow2_bits_true|].
      by rewrite Z.bits_0.
    - rewrite andb_false_r. destruct (Z.testbit slot k); [|by rewrite Z.bits_0].
      by rewrite Z.pow2_bits_false. }
  pose proof (pow2_pos k Hk). destruct (Z.testbit slot k); [|done].
  destruct (Z.eqb_spec (2 ^ k) 0); [lia|done].
Qed.

Lemma mark_seen_spec seen tg :
  length seen = 4%nat → byte_ok tg →
  if seen_bit seen tg then TlvSet.mark_seen seen tg = Err (DuplicateTag tg)
  else ∃ seen', TlvSet.mark_seen seen tg = Ok seen' ∧ length seen' = 4%nat ∧
    ∀ x, byte_ok x → seen_bit seen' x = (x =? tg) || seen_bit seen x.
Proof.
  intros Hlen Htg. unfold uint in Htg. change (2 ^ 8) with 256 in Htg.
  assert (Z.to_nat (tg / 64) < length seen)%nat as Hi.
  { rewrite Hlen. pose proof (Z.div_lt_upper_bound tg 64 4). lia. }
  destruct (lookup_lt_is_Some_2 seen _ Hi) as [slot Hslot].
  unfold seen_bit at 1, TlvSet.mark_seen. rewrite Hslot. simpl.
  pose proof (Z.mod_pos_bound tg 64 ltac:(lia)) as Hm.
  rewrite land_bit_eqb by lia.
  destruct (Z.testbit slot (tg mod 64)) eqn:E; [done|].
  eexists. split; [done|]. split; [by rewrite length_insert|].
  intros x Hx. unfold uint in Hx. change (2 ^ 8) with 256 in Hx.
  pose proof (Z.mod_pos_bound x 64 ltac:(lia)). pose proof (Z.div_mod x 64). pose proof (Z.div_mod tg 64).
  pose proof (Z.div_pos x 64). pose proof (Z.div_pos tg 64).
  unfold seen_bit. destruct (decide (x / 64 = tg / 64)) as [Hd|Hd].
  - rewrite Hd, list_lookup_insert_eq, Hslot by done. simpl.
    rewrite Z.lor_spec, Z.shiftl_1_l, Z.pow2_bits_eqb by lia.
    destruct (Z.eqb_spec x tg) as [->|Hne]; [by rewrite Z.eqb_refl, orb_true_r|].
    destruct (Z.eqb_spec (tg mod 64) (x mod 64)); [lia|]. by rewrite orb_false_r.
  - rewrite list_lookup_insert_ne by lia.
    destruct (Z.eqb_spec x tg) as [->|]; [done|done].
Qed.

Lemma encapsulates_code t : encapsulates enc t = is_global_encapsulation (tag t) || enc (tag t).
Proof. done. Qed.

Lemma check_inner_Ok outer us :
  TlvSet.check_inner enc outer (Ok <$> us) = Ok tt ↔
  Forall (λ u, encapsulates enc u = false) us.
Proof.
  induction us as [|u us IH]; simpl; [by split; [constructor|]|].
  rewrite Forall_cons, encapsulates_code.
  destruct (is_global_encapsulation (tag u) || enc (tag u)); [by split; [|intros [? _]]|].
  rewrite IH. tauto.
Qed.

Lemma check_inner_bad outer ts : TlvSet.check_inner enc outer ((Ok <$> ts) ++ [Err TlvTruncated]) ≠ Ok tt.
Proof. induction ts as [|t ts IH]; simpl; [done|]. by case_match. Qed.

(** The content rule of an encapsulation. *)
Definition inner_ok (t : Tlv) : Prop :=
  encapsulates enc t = true →
    ∃ us, value t = tlvs_wire us ∧ Forall tlv_ok us ∧
      Forall (λ u, encapsulates enc u = false) us.

Lemma check_inner_items t :
  tlv_ok t →
  (∃ us, value t = tlvs_wire us ∧ Forall tlv_ok us ∧ Forall (λ u, encapsulates enc u = false) us) ↔
  TlvSet.check_inner enc (tag t) (TlvIter.items (value t)) = Ok tt.
Proof.
  intros (_ & _ & Hb). destruct (items_enough _ Hb) as [(ts & Hts & E & ->)|(ts & Hn & ->)].
  - rewrite check_inner_Ok. split; [|by eauto].
    intros (us & Hv & Hus & Hf). rewrite Hv in E. by apply tlvs_wire_inj in E as <-.
  - split; [|intros H; by apply check_inner_bad in H].
    intros (us & Hv & Hus & _). by apply Hn in Hv.
Qed.

(** One iteration accepts a TLV whose tag is new (or 64) and whose inner
    structure is allowed, and then remembers the tag. *)
Lemma validate_item_spec seen t :
  length seen = 4%nat → tlv_ok t →
  (tag t = MANUFACTURER_SPECIFIC_TAG ∨ seen_bit seen (tag t) = false) ∧ inner_ok t →
  ∃ seen', TlvSet.validate_item enc seen t = Ok seen' ∧ length seen' = 4%nat ∧
    ∀ x, byte_ok x → seen_bit seen' x =
      (negb (tag t =? MANUFACTURER_SPECIFIC_TAG) && (x =? tag t)) || seen_bit seen x.
Proof.
  intros Hlen Ht [Hfresh Hin]. pose proof (proj1 Ht) as Hb.
  assert (∃ seen', (if tag t =? MANUFACTURER_SPECIFIC_TAG then Ok seen
      else TlvSet.mark_seen seen (tag t)) = Ok seen' ∧ length seen' = 4%nat ∧
      ∀ x, byte_ok x → seen_bit seen' x =
        (negb (tag t =? MANUFACTURER_SPECIFIC_TAG) && (x =? tag t)) || seen_bit seen x)
    as (seen' & E & Hl & Hs).
  { destruct (Z.eqb_spec (tag t) MANUFACTURER_SPECIFIC_TAG); [by exists seen|].
    pose proof (mark_seen_spec seen (tag t) Hlen Hb) as Hm.
    destruct Hfresh as [|Hf]; [done|]. by rewrite Hf in Hm. }
  exists seen'. split; [|done]. unfold TlvSet.validate_item. rewrite E.
  unfold inner_ok in Hin. rewrite encapsulates_code in Hin.
  destruct (is_global_encapsulation (tag t) || enc (tag t)); [|done].
  by rewrite (proj1 (check_inner_items t Ht) (Hin eq_refl)).
Qed.

Lemma validate_item_rejects seen t seen' :
  length seen = 4%nat → tlv_ok t → TlvSet.validate_item enc seen t = Ok seen' →
  (tag t = MANUFACTURER_SPECIFIC_TAG ∨ seen_bit seen (tag t) = false) ∧ inner_ok t.
Proof.
  intros Hlen Ht E. unfold TlvSet.validate_item in E. split.
  - destruct (Z.eqb_spec (tag t) MANUFACTURER_SPECIFIC_TAG); [by left|right].
    pose proof (mark_seen_spec seen (tag t) Hlen (proj1 Ht)) as Hm.
    destruct (seen_bit seen (tag t)); [|done]. by rewrite Hm in E.
  - intros Henc. rewrite encapsulates_code in Henc. rewrite Henc in E.
    apply (check_inner_items t Ht).
    destruct (if _ : bool then _ else _) as [s1|]; [|done].
    by destruct (TlvSet.check_inner _ _ _) as [[]|].
Qed.

(** The tags subject to the no-duplicate rule. *)
Definition unique_tags (ts : list Tlv) : list Z :=
  List.filter (λ x, negb (x =? MANUFACTURER_SPECIFIC_TAG)) (tag <$> ts).

Lemma unique_tags_cons t ts :
  unique_tags (t :: ts) =
    if tag t =? MANUFACTURER_SPECIFIC_TAG then unique_tags ts else tag t :: unique_tags ts.
Proof. unfold unique_tags. simpl. by destruct (tag t =? _). Qed.

Lemma unique_tags_byte ts x : Forall tlv_ok ts → In x (unique_tags ts) → byte_ok x.
Proof.
  intros Hts [Hx _]%filter_In. apply list_elem_of_In, list_elem_of_fmap in Hx as (t & -> & Hin).
  rewrite Forall_forall in Hts. apply (Hts t Hin).
Qed.

Lemma validate_loop_Ok seen ts :
  length seen = 4%nat → Forall tlv_ok ts →
  TlvSet.validate_loop enc seen (Ok <$> ts) = Ok tt ↔
  NoDup (unique_tags ts) ∧ (∀ x, In x (unique_tags ts) → seen_bit seen x = false) ∧
  Forall inner_ok ts.
Proof.
  intros Hlen Hts. revert seen Hlen. induction Hts as [|t ts Ht Hts IH]; intros seen Hlen; simpl.
  { split; [|done]. intros _. split_and!; [constructor|done|constructor]. }
  rewrite unique_tags_cons, Forall_cons. split.
  - destruct (TlvSet.validate_item enc seen t) as [s1|e] eqn:E; [|by intros ?].
    pose proof (validate_item_rejects _ _ _ Hlen Ht E) as Hacc.
    destruct (validate_item_spec seen t Hlen Ht Hacc) as (s' & E' & Hl' & Hs).
    rewrite E in E'. injection E' as ->. intros Hv. apply (IH s' Hl') in Hv as (Hnd & Hnew & Hin). destruct Hacc as [Hfresh Hi].
    destruct (Z.eqb_spec (tag t) MANUFACTURER_SPECIFIC_TAG) as [Hm|Hm]; simpl in Hs.
    + split_and!; [done| |done|done]. intros x Hx. rewrite <- Hs by (eapply unique_tags_byte; done).
      by apply Hnew.
    + split_and!; [| |done|done].
      * constructor; [|done]. intros Hx%list_elem_of_In. pose proof (Hnew _ Hx) as Hb.
        rewrite Hs, Z.eqb_refl in Hb by apply Ht. done.
      * intros x [<-|Hx]; [by destruct Hfresh|].
        pose proof (Hnew x Hx) as Hb. rewrite Hs in Hb by (eapply unique_tags_byte; done).
        by apply orb_false_iff in Hb as [_ ?].
  - intros (Hnd & Hnew & Hi & Hin).
    destruct (validate_item_spec seen t Hlen Ht) as (s' & E' & Hl' & Hs).
    { split; [|done]. destruct (Z.eqb_spec (tag t) MANUFACTURER_SPECIFIC_TAG); [by left|right].
      apply Hnew. by left. }
    rewrite E'. apply IH; [done|].
    destruct (Z.eqb_spec (tag t) MANUFACTURER_SPECIFIC_TAG) as [Hm|Hm]; simpl in Hs.
    + split_and!; [done| |done]. intros x Hx. rewrite Hs by (eapply unique_tags_byte; done). by apply Hnew.
    + inversion Hnd as [|?? Hnot Hnd']; subst. split_and!; [done| |done].
      intros x Hx. rewrite Hs by (eapply unique_tags_byte; done).
      rewrite (Hnew x) by (by right). rewrite orb_false_r. apply Z.eqb_neq. intros ->.
      by apply Hnot, list_elem_of_In.
Qed.

Lemma validate_loop_bad seen ts :
  TlvSet.validate_loop enc seen ((Ok <$> ts) ++ [Err TlvTruncated]) ≠ Ok tt.
Proof. revert seen. induction ts as [|t ts IH]; intros seen; simpl; [done|]. by case_match. Qed.

End validation.

(** ** Writing *)

Section writing.

Lemma writes_write_tlv t :
  tlv_ok t → writes (write_tlv (tag t) (value t)) (tlv_wire t).
Proof.
  intros (_ & Hl & _). unfold write_tlv.
  rewrite (proj2 (Nat.eqb_neq _ _)), (proj2 (Nat.ltb_ge _ _)) by lia. simpl.
  change (tlv_wire t) with ([tag t] ++ [Z.of_nat (length (value t) - 1)] ++ value t).
  apply writes_bind; [apply writes_u8|]. apply writes_bind; [apply writes_u8|apply writes_bytes].
Qed.

(** Patching the length octet of a TLV already written. *)
Lemma patch_length w tg v x :
  Writer.wf w → (2 + length v ≤ Writer.remaining w)%nat →
  (region ← Writer.patch (Writer.pos w + 1) 1; Writer.copy_from_slice region [x])
    (advance w ([tg] ++ [0] ++ v)) = (Ok tt, advance w ([tg] ++ [x] ++ v)).
Proof.
  destruct w as [b p]. unfold Writer.wf, Writer.remaining, advance. simpl. intros Hw Hr.
  assert (∃ pre old suf, b = pre ++ old ++ suf ∧ length pre = p ∧ length old = (2 + length v)%nat)
    as (pre & old & suf & -> & <- & Hold).
  { exists (take p b), (take (2 + length v) (drop p b)), (drop (2 + length v) (drop p b)).
    rewrite take_drop, take_drop. split; [done|]. rewrite !length_take, length_drop. lia. }
  rewrite !splice_app_exact by (simpl; lia).
  erewrite se_bind_ok.
  2: { unfold Writer.patch. simpl. rewrite (proj2 (Nat.ltb_ge _ _)) by lia.
       by rewrite get_range_Some by (simpl; rewrite length_app; simpl; len). }
  unfold Writer.copy_from_slice. simpl. do 2 f_equal.
  pose proof (splice_app_exact (pre ++ [tg]) [0] [x] (v ++ suf) eq_refl) as H.
  rewrite length_app, <- !app_assoc in H. simpl in H. exact H.
Qed.

Lemma write_tlv_with_equiv w tg v body :
  writes body v → (1 ≤ length v ≤ 256)%nat →
  Writer.wf w → (2 + length v ≤ Writer.remaining w)%nat →
  write_tlv_with tg body w = write_tlv tg v w.
Proof.
  intros Hb Hv Hw Hr.
  assert (writes (Writer.u8 tg;; Writer.u8 0;; body) ([tg] ++ [0] ++ v)) as Hpre.
  { apply writes_bind; [apply writes_u8|]. by apply writes_bind; [apply writes_u8|]. }
  destruct (Hpre w Hw) as [Hok _]. specialize (Hok Hr).
  assert (write_tlv tg v w = (Ok tt, advance w ([tg] ++ [Z.of_nat (length v - 1)] ++ v))) as ->.
  { unfold write_tlv. rewrite (proj2 (Nat.eqb_neq _ _)), (proj2 (Nat.ltb_ge _ _)) by lia. simpl.
    refine (proj1 (writes_bind _ _ [_] _ (writes_u8 _) (writes_bind _ _ [_] _ (writes_u8 _) (writes_bytes v)) w Hw) Hr). }
  unfold write_tlv_with. erewrite se_bind_ok by done. cbv beta.
  rewrite <- (patch_length w tg v (Z.of_nat (length v - 1)) Hw Hr).
  transitivity (((Writer.u8 tg;; Writer.u8 0;; body) ≫= λ _,
    p ← gets Writer.position;
    let len := (p - (Writer.pos w + 2))%nat in
    if ((len =? 0) || (256 <? len))%nat then fail (Unrepresentable "tlv value")
    else
      region ← Writer.patch (Writer.pos w + 1) 1;
      Writer.copy_from_slice region [Z.of_nat (len - 1)]) w).
  { unfold mbind, se_bind. destruct (Writer.u8 tg w) as [[]w1]; [|done].
    destruct (Writer.u8 0 w1) as [[]w2]; [|done]. by destruct (body w2) as [[]]. }
  rewrite (se_bind_ok _ _ _ _ _ Hok). erewrite se_bind_ok by done. cbv beta zeta.
  assert (Writer.position (advance w ([tg] ++ [0%Z] ++ v)) = Writer.pos w + 2 + length v)%nat as ->.
  { unfold Writer.position, advance. simpl. lia. }
  replace (Writer.pos w + 2 + length v - (Writer.pos w + 2))%nat with (length v) by lia.
  by rewrite (proj2 (Nat.eqb_neq _ _)), (proj2 (Nat.ltb_ge _ _)) by lia.
Qed.

(** Writing a list of TLVs one after the other. *)
Fixpoint write_tlvs (ts : list Tlv) : SE Writer.t CodecError unit :=
  match ts with
  | [] => mret tt
  | t :: ts => write_tlv (tag t) (value t);; write_tlvs ts
  end.

Lemma writes_write_tlvs ts : Forall tlv_ok ts → writes (write_tlvs ts) (tlvs_wire ts).
Proof.
  induction 1 as [|t ts Ht Hts IH]; [apply writes_ret|].
  rewrite tlvs_wire_cons. apply writes_bind; [by apply writes_write_tlv|done].
Qed.

End writing.

Lemma iter_wire ts : Forall tlv_ok ts → TlvSet.iter (TlvSet.mk (tlvs_wire ts)) = ts.
Proof.
  intros H. unfold TlvSet.iter. simpl. rewrite items_wire by done. clear H.
  induction ts as [|t ts IH]; simpl; [done|]. f_equal. exact IH.
Qed.

Lemma tlvs_wire_bytes ts : Forall tlv_ok ts → bytes_ok (tlvs_wire ts).
Proof.
  induction 1 as [|t ts (Ht & Hl & Hv) _ IH]; [constructor|]. apply bytes_ok_app. split; [|done].
  constructor; [done|]. constructor; [unfold uint; lia|done].
Qed.

Lemma validate_accepts (b : list Z) (enc : Z → bool) :
  bytes_ok b →
  TlvSet.validate b enc = Ok (TlvSet.mk b) ↔
  ∃ ts, b = tlvs_wire ts ∧ tlv_spec enc ts ∧ TlvSet.iter (TlvSet.mk b) = ts.
Proof.
  intros Hb. unfold TlvSet.validate, tlv_spec.
  destruct (items_enough b Hb) as [(ts & Hts & E & ->)|(ts & Hn & ->)].
  - pose proof (validate_loop_Ok enc (replicate 4 0) ts eq_refl Hts) as Hl. split.
    + intros H. destruct (TlvSet.validate_loop _ _ _) as [[]|]; [|done].
      destruct (proj1 Hl eq_refl) as (? & _ & ?). exists ts. split_and!; [done..|].
      rewrite E. by apply iter_wire.
    + intros (us & E' & (Hus & Hnd & Hi) & _). rewrite E in E'. apply tlvs_wire_inj in E' as <-; [|done..].
      rewrite (proj2 Hl); [done|]. split_and!; [done| |done].
      intros x Hx%(unique_tags_byte _ _ Hts). unfold seen_bit, uint in *.
      rewrite lookup_replicate_2; [apply Z.bits_0|]. change (2 ^ 8) with 256 in Hx.
      pose proof (Z.div_lt_upper_bound x 64 4). pose proof (Z.div_pos x 64). lia.
  - split.
    + destruct (TlvSet.validate_loop _ _ _) as [[]|] eqn:E; [|done].
      by apply validate_loop_bad in E.
    + intros (us & E & (Hus & _) & _). by apply Hn in E.
Qed.

(** C38. [TlvSet::validate] decides the Annex I rules: a message is accepted
    exactly when it is a concatenation of well-formed TLVs in which no tag but
    Manufacturer Specific repeats and every encapsulation holds well-formed TLVs
    without a nested encapsulation; the accepted set iterates those TLVs. *)
Theorem tlv_validate_decides (b : list Z) (enc : Z → bool) :
  bytes_ok b →
  TlvSet.validate b enc = Ok (TlvSet.mk b) ↔
  ∃ ts, b = tlvs_wire ts ∧ tlv_spec enc ts ∧ TlvSet.iter (TlvSet.mk b) = ts.
Proof. apply validate_accepts. Qed.

Lemma tlv_validate_decides_witness :
  ∃ ts, [72; 2; 1; 0; 0xFF; 64; 0; 1; 64; 0; 2] = tlvs_wire ts ∧
    tlv_spec (λ _, false) ts ∧
    TlvSet.iter (TlvSet.mk [72; 2; 1; 0; 0xFF; 64; 0; 1; 64; 0; 2]) = ts.
Proof.
  apply tlv_validate_decides; [|reflexivity].
  repeat constructor; try done.
Defined.

(** Written TLVs are read back: serialising a list of TLVs with [write_tlv]
    produces a message whose iteration is that list, and a TLV whose value is
    produced by a closure and length-patched by [write_tlv_with] leaves the
    writer exactly as [write_tlv] of that value would. *)
Theorem tlv_write_round_trip (ts : list Tlv) (out : list Z) (tg : Z) (v : list Z)
    (body : SE Writer.t CodecError unit) (w : Writer.t) :
  Forall tlv_ok ts → (length (tlvs_wire ts) ≤ length out)%nat →
  writes body v → (1 ≤ length v ≤ 256)%nat →
  Writer.wf w → (2 + length v ≤ Writer.remaining w)%nat →
  (∃ w', write_tlvs ts (Writer.new out) = (Ok tt, w') ∧
     TlvSet.iter (TlvSet.from_trusted (Writer.finish w')) = ts) ∧
  write_tlv_with tg body w = write_tlv tg v w.
Proof.
  intros Hts Hout Hb Hv Hw Hr. split; [|by apply write_tlv_with_equiv].
  destruct (writes_write_tlvs ts Hts (Writer.new out)) as [Hok _].
  { unfold Writer.wf. simpl. lia. }
  eexists. split; [apply Hok; unfold Writer.remaining; simpl; lia|].
  unfold Writer.finish, advance. simpl.
  rewrite get_range_Some by (rewrite length_splice; simpl; lia). simpl.
  rewrite drop_0, Nat.sub_0_r.
  pose proof (take_splice_through 0 (tlvs_wire ts) out ltac:(lia)) as H. simpl in H.
  rewrite H. by apply iter_wire.
Qed.

Lemma tlv_write_round_trip_witness :
  write_tlv_with 8 (Writer.u16_le 0xBEEF) (Writer.new (replicate 6 0)) =
  write_tlv 8 [0xEF; 0xBE] (Writer.new (replicate 6 0)).
Proof.
  apply (tlv_write_round_trip [MkTlv 7 [1; 2; 3]] (replicate 16 0) 8 [0xEF; 0xBE]
    (Writer.u16_le 0xBEEF) (Writer.new (replicate 6 0))).
  - repeat constructor; simpl; unfold uint; lia.
  - simpl. lia.
  - apply (writes_u16 0xBEEF).
  - simpl. lia.
  - unfold Writer.wf. simpl. lia.
  - vm_compute. lia.
Defined.

(** Lookups in an accepted message are unambiguous: for any tag but
    Manufacturer Specific, [find] returns the one TLV of the message with that
    tag and [require] fails with [Missing] exactly when there is none. *)
Theorem tlv_find_unique (b : list Z) (enc : Z → bool) (s : TlvSet.t) (tg : Z) (t : Tlv) :
  bytes_ok b → TlvSet.validate b enc = Ok s → tg ≠ MANUFACTURER_SPECIFIC_TAG →
  (TlvSet.find s tg = Some t ↔ t ∈ TlvSet.iter s ∧ tag t = tg) ∧
  (TlvSet.require s tg = Err (Missing tg) ↔ ∀ u, u ∈ TlvSet.iter s → tag u ≠ tg).
Proof.
  intros Hb Hv Htg. assert (s = TlvSet.mk b) as ->.
  { unfold TlvSet.validate in Hv. destruct (TlvSet.validate_loop _ _ _); by simplify_eq. }
  apply validate_accepts in Hv as (ts & _ & (_ & Hnd & _) & Hit); [|done].
  unfold TlvSet.require, TlvSet.find. rewrite Hit. clear Hit Hb b.
  induction ts as [|u ts IH]; simpl.
  - split; [split; [done|by intros [?%not_elem_of_nil _]]|].
    split; [by intros _ u ?%not_elem_of_nil|done].
  - change (NoDup (unique_tags (u :: ts))) in Hnd. rewrite unique_tags_cons in Hnd.
    destruct (Z.eqb_spec (tag u) tg) as [<-|Hne].
    + split; [|split; [done|]; intros H; by destruct (H u (list_elem_of_here _ _))].
      split; [intros [= <-]; by split; [left|]|]. intros [[->|Hin]%elem_of_cons Ht]; [done|].
      destruct (Z.eqb_spec (tag u) MANUFACTURER_SPECIFIC_TAG); [done|].
      inversion Hnd as [|?? Hnot _]; subst. destruct Hnot. apply list_elem_of_In.
      apply filter_In. rewrite <- Ht. split; [|by destruct (Z.eqb_spec (tag t) MANUFACTURER_SPECIFIC_TAG); [congruence|]].
      apply list_elem_of_In, list_elem_of_fmap. eauto.
    + destruct IH as [IH1 IH2]; [by destruct (tag u =? _); [|inversion Hnd]|].
      rewrite IH1, IH2. split.
      * split; [intros []; split; [by right|done]|].
        intros [[->|Hin]%elem_of_cons Ht]; done.
      * split; [|intros H v Hv; apply H; by right].
        intros H v [->|Hv]%elem_of_cons; [done|by apply H].
Qed.

Lemma tlv_find_unique_witness :
  TlvSet.find (TlvSet.mk [1; 0; 0xAA; 65; 1; 1; 2]) 65 = Some (MkTlv 65 [1; 2]) ↔
  MkTlv 65 [1; 2] ∈ TlvSet.iter (TlvSet.mk [1; 0; 0xAA; 65; 1; 1; 2]) ∧ tag (MkTlv 65 [1; 2]) = 65.
Proof.
  apply (tlv_find_unique [1; 0; 0xAA; 65; 1; 1; 2] (λ _, false)).
  - repeat constructor; done.
  - reflexivity.
  - done.
Defined.
