(* ===== verification/Heapless.v ===== *)
(** * Fixed-capacity vectors

    The tables, buffers and queues of the stack are [heapless] vectors and
    deques ([capacity.rs] names them [VecOf] and [DequeOf]).  The crate is not
    part of the repository, so its operations are parameters: the contents of a
    vector are the slice it dereferences to, and the class states the documented
    behaviour of the operations the stack uses.  [list_heapless] shows the class is inhabited. *)

From S2P Require Import Prelude.

Class Heapless := {
  (** [is_full] of a vector of the given capacity. *)
  vec_is_full : ∀ {A}, nat → list A → bool;
  (** [push]: the element is handed back when the vector is full. *)
  vec_push : ∀ {A}, nat → list A → A → result (list A) A;
  (** [swap_remove]: the removed element and the remaining contents. *)
  vec_swap_remove : ∀ {A}, list A → nat → option (A * list A);
  (** [remove]: the elements behind move down; [None] is the panic. *)
  vec_remove : ∀ {A}, list A → nat → option (A * list A);
  (** [retain] *)
  vec_retain : ∀ {A}, list A → (A → bool) → list A;
  (** [clear] *)
  vec_clear : ∀ {A}, list A → list A;
  (** [from_slice], [extend_from_slice] and [resize] fail, and change nothing,
      when the contents would not fit. *)
  vec_from_slice : ∀ {A}, nat → list A → option (list A);
  vec_extend_from_slice : ∀ {A}, nat → list A → list A → option (list A);
  vec_resize : ∀ {A}, nat → list A → nat → A → option (list A);
  (** [truncate] *)
  vec_truncate : ∀ {A}, list A → nat → list A;
  (** [FromIterator] ([collect]): [None] is the panic when the iterator yields more
      elements than fit. *)
  vec_collect : ∀ {A}, nat → list A → option (list A);
  (** [push_back] and [pop_front] of a deque, whose contents are front first. *)
  deque_push_back : ∀ {A}, nat → list A → A → result (list A) A;
  deque_pop_front : ∀ {A}, list A → option (A * list A);

  vec_is_full_spec A n (l : list A) : vec_is_full n l = (length l =? n)%nat;
  vec_push_room A n (l : list A) x : (length l < n)%nat → vec_push n l x = Ok (l ++ [x]);
  vec_push_full A n (l : list A) x : (n ≤ length l)%nat → vec_push n l x = Err x;
  vec_swap_remove_spec A (l : list A) i x y :
    l !! i = Some x → last l = Some y →
    vec_swap_remove l i = Some (x, <[i:=y]> (take (length l - 1) l));
  vec_swap_remove_out A (l : list A) i : l !! i = None → vec_swap_remove l i = None;
  vec_remove_spec A (l : list A) i x :
    l !! i = Some x → vec_remove l i = Some (x, delete i l);
  vec_remove_out A (l : list A) i : l !! i = None → vec_remove l i = None;
  vec_retain_spec A (l : list A) f : vec_retain l f = List.filter f l;
  vec_clear_spec A (l : list A) : vec_clear l = [];
  vec_from_slice_spec A n (s : list A) :
    vec_from_slice n s = if (length s <=? n)%nat then Some s else None;
  vec_extend_spec A n (l s : list A) :
    vec_extend_from_slice n l s = if (length l + length s <=? n)%nat then Some (l ++ s) else None;
  vec_resize_spec A n (l : list A) k x :
    vec_resize n l k x = if (k <=? n)%nat then Some (resize k x l) else None;
  vec_truncate_spec A (l : list A) k : vec_truncate l k = take k l;
  vec_collect_spec A n (l : list A) :
    vec_collect n l = if (length l <=? n)%nat then Some l else None;
  deque_push_back_spec A n (l : list A) x :
    deque_push_back n l x = if (length l <? n)%nat then Ok (l ++ [x]) else Err x;
  deque_pop_front_spec A (l : list A) :
    deque_pop_front l = match l with [] => None | x :: l => Some (x, l) end
}.

(** Lists realise the class. *)
#[export, refine] Instance list_heapless : Heapless := {
  vec_is_full A n l := (length l =? n)%nat;
  vec_push A n l x := if (length l <? n)%nat then Ok (l ++ [x]) else Err x;
  vec_swap_remove A l i :=
    match l !! i, last l with
    | Some x, Some y => Some (x, <[i:=y]> (take (length l - 1) l))
    | _, _ => None
    end;
  vec_remove A l i := (λ x, (x, delete i l)) <$> l !! i;
  vec_retain A l f := List.filter f l;
  vec_clear A l := [];
  vec_from_slice A n s := if (length s <=? n)%nat then Some s else None;
  vec_extend_from_slice A n l s := if (length l + length s <=? n)%nat then Some (l ++ s) else None;
  vec_resize A n l k x := if (k <=? n)%nat then Some (resize k x l) else None;
  vec_truncate A l k := take k l;
  vec_collect A n l := if (length l <=? n)%nat then Some l else None;
  deque_push_back A n l x := if (length l <? n)%nat then Ok (l ++ [x]) else Err x;
  deque_pop_front A l := match l with [] => None | x :: l => Some (x, l) end
}.
Proof.
  - done.
  - intros A n l x H. by rewrite (proj2 (Nat.ltb_lt _ _) H).
  - intros A n l x H. by rewrite (proj2 (Nat.ltb_ge _ _) H).
  - by intros A l i x y -> ->.
  - by intros A l i ->.
  - by intros A l i x ->.
  - by intros A l i ->.
  - done.
  - done.
  - done.
  - done.
  - done.
  - done.
  - done.
  - done.
  - done.
Defined.

(** The first index that satisfies a predicate, and [iter_mut().find(..)]
    updating the element found. *)
Fixpoint position {A} (f : A → bool) (l : list A) : option nat :=
  match l with
  | [] => None
  | x :: l => if f x then Some 0%nat else S <$> position f l
  end.

Fixpoint update_first {A} (f : A → bool) (g : A → A) (l : list A) : list A :=
  match l with
  | [] => []
  | x :: l => if f x then g x :: l else x :: update_first f g l
  end.

(** [min_by_key] over the indexed entries that pass a filter: a later entry
    replaces the current minimum only when its key is strictly smaller. *)
Fixpoint min_by {A} (keep : A → bool) (lt : A → A → bool) (i : nat) (best : option (nat * A)) (l : list A)
    : option (nat * A) :=
  match l with
  | [] => best
  | x :: l =>
      let best' :=
        if keep x then
          match best with
          | None => Some (i, x)
          | Some (j, y) => if lt x y then Some (i, x) else Some (j, y)
          end
        else best in
      min_by keep lt (S i) best' l
  end.

(** Generic facts on these lists. *)
Lemma Forall_update_first {A} (P : A → Prop) f g (l : list A) :
  (∀ x, P x → P (g x)) → Forall P l → Forall P (update_first f g l).
Proof. intros Hg. induction 1; simpl; [constructor|]. destruct (f x); constructor; auto. Qed.

Lemma list_elem_of_insert_inv {A} (l : list A) i x y : y ∈ <[i:=x]> l → y = x ∨ y ∈ l.
Proof.
  intros [j Hj]%list_elem_of_lookup. rewrite list_lookup_insert in Hj. case_decide; [left; congruence|].
  right. by eapply list_elem_of_lookup_2.
Qed.

Section vectors.
Context {H : Heapless} {A : Type}.
Implicit Types (l : list A) (f : A → bool).

Lemma vec_push_cases n l x :
  (length l < n)%nat ∧ vec_push n l x = Ok (l ++ [x]) ∨
  (n ≤ length l)%nat ∧ vec_push n l x = Err x.
Proof.
  destruct (Nat.lt_ge_cases (length l) n); [left|right].
  - by rewrite vec_push_room.
  - by rewrite vec_push_full.
Qed.

Lemma position_Some f l i :
  position f l = Some i →
  ∃ x, l !! i = Some x ∧ f x = true ∧ ∀ j y, (j < i)%nat → l !! j = Some y → f y = false.
Proof.
  revert i. induction l as [|x l IH]; intros i; simpl; [done|].
  destruct (f x) eqn:E.
  - intros [= <-]. exists x. split_and!; [done|done|lia].
  - destruct (position f l) as [j|]; simpl; [|done]. intros [= <-].
    destruct (IH j eq_refl) as (y & Hy & Hf & Hj). exists y. split_and!; [done|done|].
    intros [|k] z Hk; simpl; [by intros [= <-]|]. apply Hj. lia.
Qed.

Lemma position_None f l : position f l = None ↔ ∀ x, x ∈ l → f x = false.
Proof.
  induction l as [|x l IH]; simpl.
  - split; [by intros _ x ?%not_elem_of_nil|done].
  - destruct (f x) eqn:E.
    + split; [done|]. intros Hx. by rewrite (Hx x (list_elem_of_here _ _)) in E.
    + split.
      * destruct (position f l); [done|]. intros _ y [->|Hy]%elem_of_cons; [done|]. by apply IH.
      * intros Hx. rewrite (proj2 IH); [done|]. intros y Hy. apply Hx. by right.
Qed.

Lemma find_None f l : List.find f l = None ↔ ∀ x, x ∈ l → f x = false.
Proof.
  split.
  - intros Hf x Hx%list_elem_of_In. by apply (List.find_none _ _ Hf).
  - intros Hf. destruct (List.find f l) as [x|] eqn:E; [|done].
    apply find_some in E as [Hin Hx]. apply list_elem_of_In in Hin.
    by rewrite Hf in Hx.
Qed.

(** Removing by swapping keeps the other elements. *)
Lemma swap_remove_Permutation l i x :
  l !! i = Some x →
  ∃ l', vec_swap_remove l i = Some (x, l') ∧ l ≡ₚ x :: l'.
Proof.
  intros Hi. assert (l ≠ []) as Hne by (intros ->; done).
  destruct (exists_last Hne) as (m & y & ->).
  erewrite vec_swap_remove_spec; [|done|by rewrite last_snoc].
  eexists. split; [done|]. rewrite length_app. simpl.
  replace (length m + 1 - 1)%nat with (length m) by lia. rewrite take_app_length.
  destruct (decide (i < length m)%nat) as [Hlt|Hge].
  - rewrite lookup_app_l in Hi by done.
    rewrite <- (take_drop_middle m i x Hi) at 1.
    rewrite (insert_take_drop m i y) by done.
    rewrite <- app_assoc. simpl. rewrite <- Permutation_middle. constructor.
    apply Permutation_app_head. symmetry. apply Permutation_cons_append.
  - rewrite list_insert_ge by lia. rewrite lookup_app_r in Hi by lia.
    destruct (i - length m)%nat; simpl in Hi; [|done]. simplify_eq.
    by rewrite Permutation_app_comm.
Qed.

Lemma length_update_first f g l : length (update_first f g l) = length l.
Proof. induction l as [|x l IH]; simpl; [done|]. destruct (f x); simpl; auto. Qed.

Lemma find_update_first f g l :
  (∀ x, f x = true → f (g x) = true) →
  List.find f (update_first f g l) = g <$> List.find f l.
Proof.
  intros Hg. induction l as [|x l IH]; simpl; [done|].
  destruct (f x) eqn:E; simpl; [by rewrite Hg|]. by rewrite E.
Qed.

Lemma find_update_first_ne f f' g l :
  (∀ x, f x = true → f' x = false ∧ f' (g x) = false) →
  List.find f' (update_first f g l) = List.find f' l.
Proof.
  intros Hg. induction l as [|x l IH]; simpl; [done|].
  destruct (f x) eqn:E; simpl.
  - by destruct (Hg x E) as [-> ->].
  - by destruct (f' x).
Qed.

Lemma find_snoc f l x :
  List.find f (l ++ [x]) =
    match List.find f l with Some y => Some y | None => if f x then Some x else None end.
Proof. induction l as [|y l IH]; simpl; [done|]. by destruct (f y). Qed.

End vectors.

(** ** The victim of an eviction *)

Section min_by.
Context {A : Type} (keep : A → bool) (lt : A → A → bool).
Hypothesis lt_irrefl : ∀ x, lt x x = false.
Hypothesis lt_trans : ∀ x y z, lt x y = true → lt y z = true → lt x z = true.

(** [best] is the first minimum of the entries seen so far. *)
Definition is_min (seen : list A) (best : option (nat * A)) : Prop :=
  match best with
  | None => ∀ x, x ∈ seen → keep x = false
  | Some (j, y) => seen !! j = Some y ∧ keep y = true ∧ ∀ x, x ∈ seen → keep x = true → lt x y = false
  end.

Lemma min_by_spec l seen best :
  is_min seen best → is_min (seen ++ l) (min_by keep lt (length seen) best l).
Proof.
  revert seen best. induction l as [|x l IH]; intros seen best Hb; simpl; [by rewrite app_nil_r|].
  replace (seen ++ x :: l) with ((seen ++ [x]) ++ l) by (by rewrite <- app_assoc).
  replace (S (length seen)) with (length (seen ++ [x])) by (rewrite length_app; simpl; lia).
  apply IH. assert ((seen ++ [x]) !! length seen = Some x) as Hx by (by rewrite list_lookup_middle).
  destruct (keep x) eqn:Ek.
  - destruct best as [[j y]|]; simpl in *.
    + destruct Hb as (Hj & Hky & Hmin). destruct (lt x y) eqn:El; simpl.
      * split_and!; [done..|]. intros z [Hz| ->%list_elem_of_singleton]%elem_of_app Hkz; [|done].
        destruct (lt z x) eqn:Ez; [|done]. pose proof (lt_trans z x y Ez El) as Hzy.
        by rewrite (Hmin z Hz Hkz) in Hzy.
      * split_and!; [by apply lookup_app_l_Some|done|].
        intros z [Hz| ->%list_elem_of_singleton]%elem_of_app Hkz; [by apply Hmin|done].
    + split_and!; [done..|]. intros z [Hz| ->%list_elem_of_singleton]%elem_of_app Hkz; [|done].
      by rewrite Hb in Hkz.
  - destruct best as [[j y]|]; simpl in *.
    + destruct Hb as (Hj & Hky & Hmin). split_and!; [by apply lookup_app_l_Some|done|].
      intros z [Hz| ->%list_elem_of_singleton]%elem_of_app Hkz; [by apply Hmin|by rewrite Ek in Hkz].
    + intros z [Hz| ->%list_elem_of_singleton]%elem_of_app; [by apply Hb|done].
Qed.
End min_by.

(** ** Tables with a key

    Most tables hold at most one entry per key (an address, a sequence number, a
    pair of them) and are searched with a test on the key.  [KeyTest] says that
    the test of a table decides equality with the key of an entry. *)

Class KeyTest {A P : Type} (key : A → P) (has : P → A → bool) : Prop :=
  key_test p e : has p e = true ↔ key e = p.

Section keyed.
Context {H : Heapless} {A P : Type} `{!EqDecision P} (key : A → P) {has : P → A → bool} `{!KeyTest key has}.
Implicit Types (l : list A) (p q : P).

Lemma key_test_ne p e : has p e = false ↔ key e ≠ p.
Proof. rewrite <- (key_test (key:=key)). by destruct (has p e). Qed.

Lemma find_key_Some p l e : List.find (has p) l = Some e → e ∈ l ∧ key e = p.
Proof. intros [Hin%list_elem_of_In He%key_test]%find_some. done. Qed.

Lemma find_key_None p l : List.find (has p) l = None ↔ p ∉ key <$> l.
Proof.
  rewrite find_None. split.
  - intros Hn (e & -> & He)%list_elem_of_fmap. by apply Hn, key_test_ne in He.
  - intros Hn e He. apply key_test_ne. intros <-. apply Hn. by apply list_elem_of_fmap_2.
Qed.

Lemma find_key_elem p l e :
  NoDup (key <$> l) → e ∈ l → key e = p → List.find (has p) l = Some e.
Proof.
  induction l as [|x l IH]; simpl; [by intros _ ?%not_elem_of_nil|].
  intros [Hx Hl]%NoDup_cons He <-. destruct (has (key e) x) eqn:E.
  - apply key_test in E. apply elem_of_cons in He as [->|He]; [done|].
    destruct Hx. rewrite E. by apply list_elem_of_fmap_2.
  - apply elem_of_cons in He as [->|He]; [by apply key_test_ne in E|]. by apply IH.
Qed.

Lemma find_key_Permutation p l l' :
  NoDup (key <$> l) → l ≡ₚ l' → List.find (has p) l = List.find (has p) l'.
Proof.
  intros Hnd Hp. assert (NoDup (key <$> l')) as Hnd' by (by rewrite <- Hp).
  destruct (List.find (has p) l) as [e|] eqn:E.
  - apply find_key_Some in E as [He Hk]. symmetry. apply find_key_elem; [done| |done]. by rewrite <- Hp.
  - symmetry. apply find_key_None in E. apply find_key_None. by rewrite <- Hp.
Qed.

Lemma keys_update_first p g l :
  (∀ e, key e = p → key (g e) = p) → key <$> update_first (has p) g l = key <$> l.
Proof.
  intros Hg. induction l as [|e l IH]; simpl; [done|].
  destruct (has p e) eqn:E; simpl; [|by f_equal]. apply key_test in E. by rewrite (Hg e E), E.
Qed.

Lemma find_key_update p g l :
  (∀ e, key e = p → key (g e) = p) →
  List.find (has p) (update_first (has p) g l) = g <$> List.find (has p) l.
Proof. intros Hg. apply find_update_first. intros e He%key_test. apply (key_test (key:=key)). auto. Qed.

Lemma find_key_update_ne p q g l :
  p ≠ q → (∀ e, key e = p → key (g e) = p) →
  List.find (has q) (update_first (has p) g l) = List.find (has q) l.
Proof.
  intros Hne Hg. apply find_update_first_ne. intros e He%key_test. specialize (Hg e He).
  split; apply key_test_ne; congruence.
Qed.

Lemma find_key_snoc p l e :
  p ∉ key <$> l → key e = p → List.find (has p) (l ++ [e]) = Some e.
Proof.
  intros Hn He. rewrite find_snoc, (proj2 (find_key_None p l) Hn).
  by rewrite (proj2 (key_test p e) He).
Qed.

Lemma find_key_snoc_ne p l e :
  key e ≠ p → List.find (has p) (l ++ [e]) = List.find (has p) l.
Proof.
  intros He. rewrite find_snoc. destruct (List.find (has p) l); [done|].
  by rewrite (proj2 (key_test_ne p e) He).
Qed.

Lemma NoDup_keys_snoc l e : NoDup (key <$> l) → key e ∉ key <$> l → NoDup (key <$> (l ++ [e])).
Proof.
  intros Hnd Hn. rewrite fmap_app. apply NoDup_app. split_and!; [done| |apply NoDup_singleton].
  intros x Hx ->%list_elem_of_singleton. done.
Qed.

Lemma NoDup_keys_filter f l : NoDup (key <$> l) → NoDup (key <$> List.filter f l).
Proof.
  induction l as [|e l IH]; simpl; [done|]. intros [Hn Hl]%NoDup_cons.
  destruct (f e); simpl; [|by apply IH]. apply NoDup_cons. split; [|by apply IH].
  intros (x & Ex & [Hx _]%list_elem_of_In%filter_In)%list_elem_of_fmap. apply Hn. rewrite Ex.
  by apply list_elem_of_fmap_2, list_elem_of_In.
Qed.

Lemma find_key_filter_drop p l : List.find (has p) (List.filter (λ e, negb (has p e)) l) = None.
Proof. apply find_None. intros e [_ He]%list_elem_of_In%filter_In. by destruct (has p e). Qed.

Lemma find_key_filter_keep p q l :
  p ≠ q → List.find (has q) (List.filter (λ e, negb (has p e)) l) = List.find (has q) l.
Proof.
  intros Hne. induction l as [|e l IH]; simpl; [done|].
  destruct (has p e) eqn:E; simpl.
  - rewrite IH. apply key_test in E. by rewrite (proj2 (key_test_ne q e)) by congruence.
  - by rewrite IH.
Qed.

(** Overwriting the entry of a key. *)
Lemma position_key_insert l i e p :
  NoDup (key <$> l) → position (has p) l = Some i → key e = p →
  (i < length l)%nat ∧ NoDup (key <$> <[i:=e]> l) ∧
  ∀ q, List.find (has q) (<[i:=e]> l) = if decide (q = p) then Some e else List.find (has q) l.
Proof.
  intros Hnd (x & Hi & Hx%key_test & _)%position_Some He.
  assert (key <$> <[i:=e]> l = key <$> l) as Hk.
  { rewrite list_fmap_insert. apply list_insert_id. by rewrite list_lookup_fmap, Hi, He, <- Hx. }
  assert (NoDup (key <$> <[i:=e]> l)) as Hnd' by (by rewrite Hk).
  split; [by eapply lookup_lt_Some|]. split; [done|]. intros q. case_decide as Hq.
  - subst q. apply find_key_elem; [done| |done]. apply list_elem_of_lookup_2 with i.
    apply list_lookup_insert_eq. by eapply lookup_lt_Some.
  - assert (∀ y, key y ≠ p → (y ∈ <[i:=e]> l ↔ y ∈ l)) as Hin.
    { intros y Hy. rewrite !list_elem_of_lookup. split; intros [j Hj]; exists j.
      - destruct (decide (j = i)) as [->|Hne]; [|by rewrite list_lookup_insert_ne in Hj].
        rewrite list_lookup_insert_eq in Hj by (by eapply lookup_lt_Some). congruence.
      - destruct (decide (j = i)) as [->|Hne]; [congruence|by rewrite list_lookup_insert_ne]. }
    destruct (List.find (has q) l) as [y|] eqn:E.
    + apply find_key_Some in E as [Hy Ey]. apply find_key_elem; [done| |done]. apply Hin; congruence.
    + apply find_key_None. apply find_key_None in E. by rewrite Hk.
Qed.

(** Swap-removing an entry removes exactly its key. *)
Lemma swap_remove_keyed l i x l' :
  NoDup (key <$> l) → l !! i = Some x → vec_swap_remove l i = Some (x, l') →
  NoDup (key <$> l') ∧ S (length l') = length l ∧ (key x ∉ key <$> l') ∧
  ∀ p, p ≠ key x → List.find (has p) l' = List.find (has p) l.
Proof.
  intros Hnd Hi Hr. destruct (swap_remove_Permutation l i x Hi) as (l2 & Hr2 & Hp).
  rewrite Hr in Hr2. injection Hr2 as <-.
  assert (NoDup (key <$> (x :: l'))) as Hnd' by (by rewrite <- Hp).
  simpl in Hnd'. apply NoDup_cons in Hnd' as [Hx Hl'].
  split_and!; [done|by rewrite Hp|done|].
  intros p Hne. rewrite (find_key_Permutation p l (x :: l') Hnd Hp). simpl.
  by rewrite (proj2 (key_test_ne p x) (not_eq_sym Hne)).
Qed.

(** Adding an entry with a new key to a vector with room. *)
Lemma push_new_key K l e :
  NoDup (key <$> l) → (length l < K)%nat → key e ∉ key <$> l →
  vec_push K l e = Ok (l ++ [e]) ∧ NoDup (key <$> (l ++ [e])) ∧
  List.find (has (key e)) (l ++ [e]) = Some e ∧
  ∀ q, q ≠ key e → List.find (has q) (l ++ [e]) = List.find (has q) l.
Proof.
  intros Hnd Hl He. split_and!; [by apply vec_push_room|by apply NoDup_keys_snoc|by apply find_key_snoc|].
  intros q Hq. by apply find_key_snoc_ne.
Qed.

(** Replacing a victim of a full vector by an entry with a new key. *)
Lemma replace_victim K l e v x :
  NoDup (key <$> l) → length l = K → key e ∉ key <$> l → l !! v = Some x →
  ∃ l', vec_swap_remove l v = Some (x, l') ∧ vec_push K l' e = Ok (l' ++ [e]) ∧
    NoDup (key <$> (l' ++ [e])) ∧ length (l' ++ [e]) = K ∧
    List.find (has (key e)) (l' ++ [e]) = Some e ∧ List.find (has (key x)) (l' ++ [e]) = None ∧
    ∀ q, q ≠ key e → q ≠ key x → List.find (has q) (l' ++ [e]) = List.find (has q) l.
Proof.
  intros Hnd Hl He Hv. destruct (swap_remove_Permutation l v x Hv) as (l' & Hr & Hp).
  destruct (swap_remove_keyed l v x l' Hnd Hv Hr) as (Hnd' & Hlen & Hx & Hf).
  assert (key e ∉ key <$> l') as He'.
  { intros Hin. apply He. rewrite Hp. simpl. by right. }
  assert (key e ≠ key x) as Hne.
  { intros E. apply He. rewrite E. apply list_elem_of_fmap_2. by eapply list_elem_of_lookup_2. }
  destruct (push_new_key K l' e Hnd' ltac:(lia) He') as (Hpush & Hnd2 & Hfe & Hfo).
  exists l'. split_and!; [done..|rewrite length_app; simpl; lia|done| |].
  - rewrite Hfo by done. by apply find_key_None.
  - intros q Hqe Hqx. by rewrite Hfo, Hf.
Qed.
End keyed.
