(* ===== verification/Storage.v ===== *)
(** * Persistent storage (panweave-storage/src/lib.rs)

    Record kinds and keys, the [Storage] trait, and the RAM backend.  The
    class [StorageLaws] is the contract of docs/storage-model.md: a backend
    has an abstract view, a map from keys to records, which [store] updates
    atomically and [load] reads.  [MemoryStorage] discharges it; the clients
    (the frame-counter persistence) are proved against it. *)

From S2P Require Import Prelude Heapless.

Inductive Kind : Type :=
  | NwkFrameCounter | NetworkKeys | Nib | Children | LinkKey | ApsFrameCounter | Aib
  | Bindings | Groups | Application | GreenPower | DirectPastKeys | StartupSets
  | DirectConfig | DirectAdminKey.

Definition code (k : Kind) : Z :=
  match k with
  | NwkFrameCounter => 1 | NetworkKeys => 2 | Nib => 3 | Children => 4 | LinkKey => 5
  | ApsFrameCounter => 6 | Aib => 7 | Bindings => 8 | Groups => 9 | Application => 10
  | GreenPower => 11 | DirectPastKeys => 12 | StartupSets => 13 | DirectConfig => 14
  | DirectAdminKey => 15
  end.

Definition from_code (c : Z) : option Kind :=
  match c with
  | 1 => Some NwkFrameCounter | 2 => Some NetworkKeys | 3 => Some Nib | 4 => Some Children
  | 5 => Some LinkKey | 6 => Some ApsFrameCounter | 7 => Some Aib | 8 => Some Bindings
  | 9 => Some Groups | 10 => Some Application | 11 => Some GreenPower
  | 12 => Some DirectPastKeys | 13 => Some StartupSets | 14 => Some DirectConfig
  | 15 => Some DirectAdminKey | _ => None
  end.

Record Key : Type := MkKey { kind : Kind; id : Z }.

Definition single (k : Kind) : Key := MkKey k 0.
Definition with_id (k : Kind) (i : Z) : Key := MkKey k i.

Inductive StorageError : Type := Full | BufferTooSmall | Io.

#[export] Instance Kind_eq_dec : EqDecision Kind.
Proof. solve_decision. Defined.
#[export] Instance Key_eq_dec : EqDecision Key.
Proof. solve_decision. Defined.
#[export] Instance StorageError_eq_dec : EqDecision StorageError.
Proof. solve_decision. Defined.

Lemma from_code_code k : from_code (code k) = Some k.
Proof. by destruct k. Qed.

Lemma code_inj k k' : code k = code k' → k = k'.
Proof. intros H. apply (f_equal from_code) in H. rewrite !from_code_code in H. by injection H. Qed.

Lemma from_code_Some c k : from_code c = Some k → c = code k.
Proof.
  unfold from_code. intros H.
  repeat (case_match; simplify_eq; try reflexivity).
Qed.

#[export, refine] Instance Key_countable : Countable Key := {
  encode k := encode (code (kind k), id k);
  decode p := '(c, i) ← decode p; k ← from_code c; Some (MkKey k i)
}.
Proof. intros [k i]. rewrite decode_encode. simpl. by rewrite from_code_code. Defined.

(** ** The trait *)

(** [load] into a buffer of [n] octets: [None] when absent, otherwise the
    octets copied to its start. *)
Class Storage (S : Type) := {
  store : Key → list Z → SE S StorageError unit;
  load : Key → nat → SE S StorageError (option (list Z));
  erase : Key → SE S StorageError unit;
  erase_kind : Kind → SE S StorageError unit
}.

(** Keys of other kinds. *)
Definition not_kind (k : Kind) (p : Key * list Z) : Prop := kind p.1 ≠ k.
#[export] Instance not_kind_dec k p : Decision (not_kind k p).
Proof. unfold not_kind. apply _. Defined.

(** The contract.  A failed operation leaves the view as it was; a successful
    one has the effect on the view before it returns. *)
Class StorageLaws (S : Type) `{!Storage S} := {
  st_inv : S → Prop;
  view : S → gmap Key (list Z);
  store_law s k d r s' :
    st_inv s → uint 64 (id k) → bytes_ok d → store k d s = (r, s') →
    st_inv s' ∧ view s' = match r with Ok _ => <[k := d]> (view s) | Err _ => view s end;
  load_law s k n r s' :
    st_inv s → load k n s = (r, s') →
    st_inv s' ∧ view s' = view s ∧
    (r = Err Io ∨
     match view s !! k with
     | None => r = Ok None
     | Some d => if (length d <=? n)%nat then r = Ok (Some d) else r = Err BufferTooSmall
     end);
  erase_law s k r s' :
    st_inv s → erase k s = (r, s') →
    st_inv s' ∧ view s' = match r with Ok _ => delete k (view s) | Err _ => view s end;
  erase_kind_law s k r s' :
    st_inv s → erase_kind k s = (r, s') →
    st_inv s' ∧ view s' = match r with Ok _ => filter (not_kind k) (view s) | Err _ => view s end
}.

(** ** The RAM backend *)

Module MemoryStorage.

(** [N] records of up to [S] octets each. *)
Record t (N S : nat) : Type := mk { records : list (Key * list Z); writes : Z }.
Arguments mk {N S} _ _.
Arguments records {N S} _.
Arguments writes {N S} _.

Definition new N S : t N S := mk [] 0.
Definition len {N S} (s : t N S) : nat := length (records s).
Definition is_empty {N S} (s : t N S) : bool := (len s =? 0)%nat.

Section memory.
Context {H : Heapless} {N S : nat}.

Definition is_key (key : Key) (r : Key * list Z) : bool := bool_decide (r.1 = key).

(** [Vec::from_slice]: fails when the slice exceeds the capacity. *)
Definition store (key : Key) (data : list Z) : SE (t N S) StorageError unit := λ s,
  if (S <? length data)%nat then (Err Full, s)
  else
    let writes' := sat_add 32 (writes s) 1 in
    match List.find (is_key key) (records s) with
    | Some _ => (Ok tt, mk (update_first (is_key key) (λ r, (r.1, data)) (records s)) writes')
    | None =>
        match vec_push N (records s) (key, data) with
        | Ok recs => (Ok tt, mk recs writes')
        | Err _ => (Err Full, mk (records s) writes')
        end
    end.

Definition load (key : Key) (n : nat) : SE (t N S) StorageError (option (list Z)) := λ s,
  match List.find (is_key key) (records s) with
  | None => (Ok None, s)
  | Some (_, v) => if (length v <=? n)%nat then (Ok (Some v), s) else (Err BufferTooSmall, s)
  end.

Definition erase (key : Key) : SE (t N S) StorageError unit := λ s,
  (Ok tt, mk (vec_retain (records s) (λ r, negb (is_key key r))) (writes s)).

Definition erase_kind (k : Kind) : SE (t N S) StorageError unit := λ s,
  (Ok tt, mk (vec_retain (records s) (λ r, negb (bool_decide (kind r.1 = k)))) (writes s)).

#[global] Instance memory_Storage : Storage (t N S) := {
  store := store; load := load; erase := erase; erase_kind := erase_kind
}.

End memory.
End MemoryStorage.

(** ** The RAM backend meets the contract *)

Section memory_laws.
Context {H : Heapless} {N S : nat}.
Implicit Types (s : MemoryStorage.t N S) (l : list (Key * list Z)).

(** One record per key, within the two capacities. *)
Definition mem_inv s : Prop :=
  NoDup (MemoryStorage.records s).*1 ∧ (length (MemoryStorage.records s) ≤ N)%nat ∧
  Forall (λ r, length r.2 ≤ S)%nat (MemoryStorage.records s).

Definition mem_view s : gmap Key (list Z) := list_to_map (MemoryStorage.records s).

Lemma find_list_to_map l k :
  snd <$> List.find (MemoryStorage.is_key k) l = (list_to_map l : gmap Key (list Z)) !! k.
Proof.
  induction l as [|[k' v] l IH]; simpl; [done|].
  unfold MemoryStorage.is_key at 1. simpl. case_bool_decide as E; simpl.
  - subst. by rewrite lookup_insert_eq.
  - rewrite IH. by rewrite lookup_insert_ne.
Qed.

Lemma update_list_to_map l k d :
  is_Some (List.find (MemoryStorage.is_key k) l) →
  (update_first (MemoryStorage.is_key k) (λ r, (r.1, d)) l).*1 = l.*1 ∧
  (list_to_map (update_first (MemoryStorage.is_key k) (λ r, (r.1, d)) l) : gmap Key (list Z)) =
    <[k := d]> (list_to_map l).
Proof.
  induction l as [|[k' v] l IH]; simpl; [by intros [? [=]]|].
  destruct (MemoryStorage.is_key k (k', v)) eqn:E; apply bool_decide_eq_true in E
    || apply bool_decide_eq_false in E; simpl in *.
  - subst. intros _. split; [done|]. by rewrite insert_insert_eq.
  - intros Hs. destruct (IH Hs) as [IH1 ->]. split; [by f_equal|]. by rewrite insert_insert_ne.
Qed.

Lemma filter_list_to_map l (P : Key → bool) :
  NoDup l.*1 →
  (list_to_map (List.filter (λ r, P r.1) l) : gmap Key (list Z)) =
    filter (λ p, P p.1 = true) (list_to_map l).
Proof.
  induction l as [|[k v] l IH]; simpl; [by rewrite map_filter_empty|].
  intros [Hk Hnd]%NoDup_cons.
  destruct (P k) eqn:E; simpl; rewrite IH by done.
  - by rewrite map_filter_insert_True.
  - rewrite map_filter_insert_False by (simpl; congruence).
    rewrite delete_id; [done|]. by apply not_elem_of_list_to_map_1.
Qed.

Lemma filter_NoDup_fst l (P : Key * list Z → bool) : NoDup l.*1 → NoDup (List.filter P l).*1.
Proof.
  induction l as [|r l IH]; simpl; [done|]. intros [Hk Hnd]%NoDup_cons.
  destruct (P r); simpl; [|by apply IH]. apply NoDup_cons. split; [|by apply IH].
  intros (x & Hx & Hin)%list_elem_of_fmap. apply Hk. rewrite Hx. apply list_elem_of_fmap_2.
  apply list_elem_of_In, filter_In in Hin as [Hin _]. by apply list_elem_of_In.
Qed.

Lemma mem_store_law s k d r s' :
  mem_inv s → MemoryStorage.store k d s = (r, s') →
  mem_inv s' ∧ mem_view s' = match r with Ok _ => <[k := d]> (mem_view s) | Err _ => mem_view s end.
Proof.
  intros (Hnd & Hlen & Hsz). unfold MemoryStorage.store. destruct (Nat.ltb_spec S (length d)) as [Hd|Hd].
  { by intros [= <- <-]. }
  destruct (List.find _ _) as [x|] eqn:E.
  - intros [= <- <-]. destruct (update_list_to_map (MemoryStorage.records s) k d) as [Hk Hv]; [by eauto|].
    unfold mem_view, mem_inv. simpl. rewrite Hv, Hk, length_update_first. split; [|done].
    split_and!; [done..|]. clear -Hsz Hd. induction Hsz as [|x l Hx Hl IH]; simpl; [done|].
    case_match; constructor; simpl; (done || lia).
  - destruct (vec_push_cases N (MemoryStorage.records s) (k, d)) as [[Hl ->]|[Hl ->]];
      intros [= <- <-]; [|done].
    assert (k ∉ (MemoryStorage.records s).*1) as Hk.
    { intros (x & -> & Hin)%list_elem_of_fmap. pose proof (proj1 (find_None _ _) E x Hin) as Hx.
      unfold MemoryStorage.is_key in Hx. by rewrite bool_decide_true in Hx. }
    unfold mem_view, mem_inv. simpl. split.
    + rewrite fmap_app, length_app. simpl. split_and!; [|lia|].
      * apply NoDup_app. split_and!; [done| |apply NoDup_singleton].
        intros y Hy Hy2%list_elem_of_singleton. subst. done.
      * apply Forall_app. split; [done|]. by repeat constructor.
    + rewrite list_to_map_snoc by done. done.
Qed.

Lemma mem_load_law s k n r s' :
  mem_inv s → MemoryStorage.load k n s = (r, s') →
  mem_inv s' ∧ mem_view s' = mem_view s ∧
  (r = Err Io ∨
   match mem_view s !! k with
   | None => r = Ok None
   | Some d => if (length d <=? n)%nat then r = Ok (Some d) else r = Err BufferTooSmall
   end).
Proof.
  intros Hi. unfold MemoryStorage.load, mem_view. rewrite <- find_list_to_map.
  destruct (List.find _ _) as [[k' v]|]; simpl.
  - destruct (length v <=? n)%nat; intros [= <- <-]; auto.
  - intros [= <- <-]. auto.
Qed.

(** The two erasures keep the records that satisfy a test on the key. *)
Lemma mem_retain_law s (P : Key → bool) (w : Z) :
  mem_inv s →
  let s' := MemoryStorage.mk (vec_retain (MemoryStorage.records s) (λ r, P r.1)) w
            : MemoryStorage.t N S in
  mem_inv s' ∧ mem_view s' = filter (λ p, P p.1 = true) (mem_view s).
Proof.
  intros (Hnd & Hlen & Hsz). unfold mem_inv, mem_view. simpl. rewrite vec_retain_spec.
  split; [|by apply filter_list_to_map]. split_and!.
  - by apply filter_NoDup_fst.
  - pose proof (List.filter_length_le (λ r, P r.1) (MemoryStorage.records s)). lia.
  - apply Forall_forall. intros x [Hx _]%list_elem_of_In%filter_In.
    rewrite Forall_forall in Hsz. apply Hsz. by apply list_elem_of_In.
Qed.

#[export, refine] Instance memory_laws : StorageLaws (MemoryStorage.t N S) := {
  st_inv := mem_inv;
  view := mem_view;
  load_law := mem_load_law
}.
Proof.
  - intros s k d r s' Hi _ _. by apply mem_store_law.
  - intros s k r s' Hi [= <- <-].
    destruct (mem_retain_law s (λ x, negb (bool_decide (x = k))) (MemoryStorage.writes s) Hi) as [Hi' Hv].
    split; [exact Hi'|]. etransitivity; [exact Hv|]. apply map_eq. intros j.
    rewrite map_lookup_filter. destruct (decide (j = k)) as [->|Hne].
    + rewrite lookup_delete_eq. destruct (mem_view s !! k); simpl; [|done].
      by rewrite option_guard_False by (rewrite bool_decide_true; done).
    + rewrite lookup_delete_ne by done. destruct (mem_view s !! j); simpl; [|done].
      by rewrite option_guard_True by (rewrite bool_decide_false; done).
  - intros s k r s' Hi [= <- <-].
    destruct (mem_retain_law s (λ x, negb (bool_decide (kind x = k))) (MemoryStorage.writes s) Hi) as [Hi' Hv].
    split; [exact Hi'|]. etransitivity; [exact Hv|]. apply map_filter_ext.
    intros j v _. unfold not_kind. simpl. by case_bool_decide.
Defined.

End memory_laws.

(** The RAM backend refines a finite map: on every branch [store], [load],
    [erase] and [erase_kind] act on the abstract view as insertion, lookup,
    deletion and filtering by kind; capacities are never exceeded; [store]
    refuses a record exactly when it is over-long or new to a full table, and
    then nothing of the view changes. *)
Theorem memory_storage_refines_map {H : Heapless} {N S : nat}
    (s : MemoryStorage.t N S) (k : Key) (d : list Z) (n : nat) (kd : Kind) :
  mem_inv s →
  (∃ r s', store k d s = (r, s') ∧ mem_inv s' ∧
     (r = Ok tt ∧ mem_view s' = <[k := d]> (mem_view s) ∨
      r = Err Full ∧ mem_view s' = mem_view s ∧
        ((S < length d)%nat ∨ mem_view s !! k = None ∧ MemoryStorage.len s = N))) ∧
  fst (load k n s) =
    match mem_view s !! k with
    | None => Ok None
    | Some v => if (length v <=? n)%nat then Ok (Some v) else Err BufferTooSmall
    end ∧
  (∃ s', erase k s = (Ok tt, s') ∧ mem_inv s' ∧ mem_view s' = delete k (mem_view s)) ∧
  (∃ s', erase_kind kd s = (Ok tt, s') ∧ mem_inv s' ∧
     mem_view s' = filter (not_kind kd) (mem_view s)).
Proof.
  intros Hi. split_and!.
  - destruct (store k d s) as [r s'] eqn:E. exists r, s'. split; [done|].
    destruct (mem_store_law s k d r s' Hi E) as [Hi' Hv]. split; [done|].
    destruct r as [[]|e]; [by left|right]. simpl in E. unfold MemoryStorage.store in E.
    destruct (Nat.ltb_spec S (length d)); [by simplify_eq; auto|].
    pose proof (find_list_to_map (MemoryStorage.records s) k) as Hf. fold (mem_view s) in Hf.
    rewrite <- Hf. destruct (List.find _ _); [done|].
    destruct (vec_push_cases N (MemoryStorage.records s) (k, d)) as [[Hl He]|[Hl He]];
      rewrite He in E; [done|]. simplify_eq. split_and!; [done..|right].
    destruct Hi as (_ & ? & _). split; [done|unfold MemoryStorage.len; lia].
  - destruct (load k n s) as [r s'] eqn:E. simpl.
    destruct (mem_load_law s k n r s' Hi E) as (_ & _ & [->|Hr]).
    + simpl in E. unfold MemoryStorage.load in E. by repeat case_match; simplify_eq.
    + by repeat case_match.
  - destruct (erase k s) as [r s'] eqn:E. destruct (@erase_law _ _ memory_laws s k r s' Hi E) as [Hi' Hv].
    simpl in E. injection E as <- <-. eauto.
  - destruct (erase_kind kd s) as [r s'] eqn:E. destruct (@erase_kind_law _ _ memory_laws s kd r s' Hi E) as [Hi' Hv].
    simpl in E. injection E as <- <-. eauto.
Qed.

Lemma memory_storage_refines_map_witness :
  fst (load (single Nib) 8 (MemoryStorage.mk [(single Nib, [9; 9])] 1 : MemoryStorage.t 4 8)) =
    Ok (Some [9; 9]).
Proof.
  apply (memory_storage_refines_map (H:=list_heapless)
    (MemoryStorage.mk [(single Nib, [9; 9])] 1 : MemoryStorage.t 4 8) (single Nib) [1] 8 LinkKey).
  split_and!; simpl; [apply NoDup_singleton|lia|repeat constructor; simpl; lia].
Defined.
