(* ===== verification/NorFlash.v ===== *)
(** * The NOR flash backend (panweave-storage/src/nor_flash.rs)

    A log-structured [Storage]: records are appended to the active one of two
    halves; a full half is compacted into the other one, whose header is
    written last.  The flash driver ([embedded-storage]'s [NorFlash]) is a
    class; this file holds the class, its documented behaviour, a driver in RAM
    and every operation of the store.  [NorFlashLog] proves what the operations
    do to the log and that the store meets the contract of [Storage].

    Offsets and lengths ([u32] and [usize] in the source) are [nat]: every
    offset the store computes is at most [base + len], which the flash's
    capacity bounds. *)

From S2P Require Import Prelude Heapless Storage.

(** ** The driver *)

Class NorFlash (F : Type) := {
  READ_SIZE : nat;
  WRITE_SIZE : nat;
  ERASE_SIZE : nat;
  (** [read(offset, bytes)], the second argument being [bytes.len()] *)
  flash_read : nat → nat → SE F unit (list Z);
  flash_write : nat → list Z → SE F unit unit;
  (** [erase(from, to)] *)
  flash_erase : nat → nat → SE F unit unit
}.
Arguments READ_SIZE F {_}.
Arguments WRITE_SIZE F {_}.
Arguments ERASE_SIZE F {_}.

(** [n] octets from offset [a]. *)
Definition region {A} (a n : nat) (l : list A) : list A := take n (drop a l).

(** An erased stretch. *)
Definition blank (n : nat) : list Z := replicate n 0xFF.

(** The documented behaviour.  A request that respects the granules and the
    capacity is carried out or refused; a refused one leaves the cells as they
    were (a power loss falls between two requests), and a [reliable] driver
    refuses none.  A write is only specified on erased cells. *)
Class NorFlashLaws (F : Type) `{!NorFlash F} := {
  cells : F → list Z;
  reliable : F → Prop;
  read_law f o n :
    (READ_SIZE F | o)%nat → (READ_SIZE F | n)%nat → (o + n ≤ length (cells f))%nat →
    let '(r, f') := flash_read o n f in
    cells f' = cells f ∧ (reliable f' ↔ reliable f) ∧
    match r with Ok b => b = region o n (cells f) | Err _ => ¬ reliable f end;
  write_law f o b :
    (WRITE_SIZE F | o)%nat → (WRITE_SIZE F | length b)%nat → (o + length b ≤ length (cells f))%nat →
    region o (length b) (cells f) = blank (length b) →
    let '(r, f') := flash_write o b f in
    (reliable f' ↔ reliable f) ∧
    match r with
    | Ok _ => cells f' = splice o b (cells f)
    | Err _ => cells f' = cells f ∧ ¬ reliable f
    end;
  erase_law f from to :
    (ERASE_SIZE F | from)%nat → (ERASE_SIZE F | to)%nat → (from ≤ to ≤ length (cells f))%nat →
    let '(r, f') := flash_erase from to f in
    (reliable f' ↔ reliable f) ∧
    match r with
    | Ok _ => cells f' = splice from (blank (to - from)) (cells f)
    | Err _ => cells f' = cells f ∧ ¬ reliable f
    end
}.

(** ** Constants and granules *)

Definition MAX_RECORD : nat := 512.
Definition MAGIC : list Z := [0x50; 0x57; 0x53; 0x31].
Definition HEADER : nat := 16.
Definition TAG_RECORD : Z := 0xA5.
Definition FLAG_SET : Z := 0.
Definition FLAG_ERASED : Z := 1.
Definition FLAG_KIND_ERASED : Z := 2.
Definition HEADER_LEN : nat := 16.
Definition CHUNK : nat := 64.

Definition align (F : Type) `{!NorFlash F} : nat :=
  let a := if (WRITE_SIZE F <? READ_SIZE F)%nat then READ_SIZE F else WRITE_SIZE F in
  if (a <? 4)%nat then 4 else a.

Definition sector (F : Type) `{!NorFlash F} : nat := ERASE_SIZE F.

Definition div_ceil (n a : nat) : nat := (n / a + if (n mod a =? 0) then 0 else 1)%nat.
Definition round_up (n a : nat) : nat := (div_ceil n a * a)%nat.

Definition chunk (F : Type) `{!NorFlash F} : nat := (CHUNK - CHUNK mod align F)%nat.

(** CRC-16/CCITT-FALSE; the shifts of a [u16] drop the carry. *)
Definition ccitt_bit (crc : Z) : Z :=
  if negb (Z.land crc 0x8000 =? 0) then Z.lxor (wrap 16 (Z.shiftl crc 1)) 0x1021
  else wrap 16 (Z.shiftl crc 1).
Definition ccitt_octet (crc b : Z) : Z := Nat.iter 8 ccitt_bit (Z.lxor crc (Z.shiftl b 8)).
Definition crc16_update (crc : Z) (bytes : list Z) : Z := foldl ccitt_octet crc bytes.
Definition crc16 (bytes : list Z) : Z := crc16_update 0xFFFF bytes.

(** ** The chunked writer *)

Module ChunkWriter.

Record t : Type := mk { buf : list Z; fill : nat; at_ : nat }.

Definition new (at_ : nat) : t := mk (blank CHUNK) 0 at_.

Section writer.
Context {F : Type} `{!NorFlash F}.

Definition flush (w : t) : SE F StorageError t :=
  if (fill w =? 0)%nat then mret w
  else
    let n := round_up (fill w) (align F) in
    (λ f, let '(r, f) := flash_write (at_ w) (take n (buf w)) f in
          (map_err (λ _, Io) r, f)) ≫= λ _,
    mret (mk (blank CHUNK) 0 (at_ w + n)).

(** Each round moves at least one octet: the fuel is the length of the input. *)
Fixpoint push_loop (fuel : nat) (w : t) (bytes : list Z) : SE F StorageError t :=
  match fuel, bytes with
  | O, _ | _, [] => mret w
  | S fuel, _ =>
      let cap := chunk F in
      let n := Nat.min (cap - fill w) (length bytes) in
      let w := mk (splice (fill w) (take n bytes) (buf w)) (fill w + n) (at_ w) in
      w ← (if (fill w =? cap)%nat then flush w else mret w);
      push_loop fuel w (drop n bytes)
  end.

Definition push (w : t) (bytes : list Z) : SE F StorageError t :=
  push_loop (length bytes) w bytes.

End writer.
End ChunkWriter.

(** ** Record headers *)

Module LogRecord.

Record t : Type := mk { kind : Z; flags : Z; id : Z; len : nat; crc : Z }.

Definition matches (r : t) (key : Key) : bool :=
  (kind r =? code (Storage.kind key)) && (id r =? Storage.id key).

Definition size (F : Type) `{!NorFlash F} (r : t) : nat := round_up (HEADER_LEN + len r) (align F).

(** The part of [read_record] that decodes the 16 octets. *)
Definition parse (b : list Z) : option t :=
  if negb (default 0 (b !! 0%nat) =? TAG_RECORD) then None
  else
    let len := from_le (region 4 2 b) in
    if Z.of_nat MAX_RECORD <? len then None
    else Some (mk (default 0 (b !! 1%nat)) (default 0 (b !! 2%nat)) (from_le (region 8 8 b))
                  (Z.to_nat len) (from_le (region 6 2 b))).

End LogRecord.

Definition record_header (kind flags id : Z) (len : nat) (crc : Z) : list Z :=
  [TAG_RECORD; kind; flags; 0] ++ to_le 2 (Z.of_nat len) ++ to_le 2 crc ++ to_le 8 id.

(** ** The store *)

Module StoreStats.
Record t : Type := mk {
  formatted_at_open : bool; corrupt_records : Z; writes : Z; compactions : Z; io_errors : Z
}.
Definition new : t := mk false 0 0 0 0.
Definition set_formatted (s : t) : t :=
  mk true (corrupt_records s) (writes s) (compactions s) (io_errors s).
Definition corrupt (s : t) : t :=
  mk (formatted_at_open s) (sat_add 32 (corrupt_records s) 1) (writes s) (compactions s) (io_errors s).
Definition wrote (s : t) : t :=
  mk (formatted_at_open s) (corrupt_records s) (sat_add 32 (writes s) 1) (compactions s) (io_errors s).
Definition compacted (s : t) : t :=
  mk (formatted_at_open s) (corrupt_records s) (writes s) (sat_add 32 (compactions s) 1) (io_errors s).
Definition failed (s : t) : t :=
  mk (formatted_at_open s) (corrupt_records s) (writes s) (compactions s) (sat_add 32 (io_errors s) 1).
End StoreStats.

Module NorFlashStore.

Record t (F : Type) : Type := mk {
  flash : F; stats : StoreStats.t; base : nat; half : nat; active : nat; seq : Z; tail : nat
}.
Arguments mk {F} _ _ _ _ _ _ _.
Arguments flash {F} _.
Arguments stats {F} _.
Arguments base {F} _.
Arguments half {F} _.
Arguments active {F} _.
Arguments seq {F} _.
Arguments tail {F} _.

Section store.
Context {F : Type} `{!NorFlash F}.
Abbreviation st := (t F).
Abbreviation M := (SE st StorageError).

Definition with_flash (s : st) (f : F) : st :=
  mk f (stats s) (base s) (half s) (active s) (seq s) (tail s).
Definition with_stats (g : StoreStats.t → StoreStats.t) (s : st) : st :=
  mk (flash s) (g (stats s)) (base s) (half s) (active s) (seq s) (tail s).
Definition with_log (active : nat) (seq : Z) (tail : nat) (s : st) : st :=
  mk (flash s) (stats s) (base s) (half s) active seq tail.

(** [self.flash.op(..).map_err(|_| StorageError::Io)?] *)
Definition on_flash {A} (m : SE F unit A) : M A := λ s,
  let '(r, f) := m (flash s) in (map_err (λ _, Io) r, with_flash s f).

(** [w.push(&mut self.flash, ..)?] *)
Definition writing {A} (m : SE F StorageError A) : M A := λ s,
  let '(r, f) := m (flash s) in (r, with_flash s f).

Definition free (s : st) : nat := (half s - tail s)%nat.
Definition capacity (s : st) : nat := half s.
Definition half_base (s : st) (h : nat) : nat := (base s + h * half s)%nat.

Definition erase_half (h : nat) : M unit :=
  from ← gets (λ s, half_base s h);
  n ← gets half;
  on_flash (flash_erase from (from + n)).

Definition header (h : nat) : M (option Z) :=
  at_ ← gets (λ s, half_base s h);
  buf ← on_flash (flash_read at_ HEADER);
  mret (if bool_decide (take 4 buf = MAGIC) then Some (from_le (region 4 4 buf)) else None).

Definition half_header (seq : Z) : list Z := MAGIC ++ to_le 4 seq ++ blank 8.

Definition write_header (h : nat) (seq : Z) : M unit :=
  at_ ← gets (λ s, half_base s h);
  on_flash (flash_write at_ (half_header seq)).

Definition read_record (h at_ : nat) : M (option LogRecord.t) :=
  n ← gets half;
  if (n <? at_ + HEADER_LEN)%nat then mret None
  else
    from ← gets (λ s, half_base s h);
    buf ← on_flash (flash_read (from + at_) HEADER);
    mret (LogRecord.parse buf).

(** The payload into a buffer of [n] octets, and whether the CRC holds. *)
Definition read_payload (h at_ : nat) (r : LogRecord.t) (n : nat) : M (bool * list Z) :=
  let len := LogRecord.len r in
  if (n <? len)%nat then fail BufferTooSmall
  else
    let a := align F in
    let body := (len - len mod a)%nat in
    base ← gets (λ s, half_base s h + at_ + HEADER_LEN)%nat;
    b1 ← (if (0 <? body)%nat then on_flash (flash_read base body) else mret []);
    b2 ← (if (body <? len)%nat then
            tmp ← on_flash (flash_read (base + body) a);
            mret (take (len - body) tmp)
          else mret []);
    let dst := b1 ++ b2 in
    let ok := crc16 dst =? LogRecord.crc r in
    _ ← (if negb ok then modify (with_stats StoreStats.corrupt) else mret tt);
    mret (ok, dst).

(** The loop of [payload_intact] from octet [done] on: at least one octet per
    round, so the fuel is the length. *)
Fixpoint intact_loop (fuel src len done : nat) (crc : Z) : M Z :=
  match fuel with
  | O => mret crc
  | S fuel =>
      if (done <? len)%nat then
        let n := Nat.min (len - done) (chunk F) in
        tmp ← on_flash (flash_read (src + done) (round_up n (align F)));
        intact_loop fuel src len (done + n) (crc16_update crc (take n tmp))
      else mret crc
  end.

Definition payload_intact (h at_ : nat) (r : LogRecord.t) : M bool :=
  src ← gets (λ s, half_base s h + at_ + HEADER_LEN)%nat;
  let len := LogRecord.len r in
  crc ← intact_loop len src len 0 0xFFFF;
  let ok := crc =? LogRecord.crc r in
  _ ← (if negb ok then modify (with_stats StoreStats.corrupt) else mret tt);
  mret ok.

(** A record takes at least 16 octets, so [half] rounds are enough for every
    loop over a half. *)
Fixpoint scan_loop (fuel at_ : nat) : M nat :=
  match fuel with
  | O => mret at_
  | S fuel =>
      h ← gets active;
      o ← read_record h at_;
      match o with
      | None => mret at_
      | Some r => scan_loop fuel (at_ + LogRecord.size F r)
      end
  end.

Definition scan_tail : M unit :=
  n ← gets half;
  at_ ← scan_loop n HEADER_LEN;
  modify (λ s, with_log (active s) (seq s) at_ s).

(** The closure takes the variables it captures and returns them with the
    decision to go on. *)
Fixpoint walk_loop {A} (fuel h at_ : nat) (f : A → nat → LogRecord.t → M (bool * A)) (a : A)
    : M A :=
  match fuel with
  | O => mret a
  | S fuel =>
      o ← read_record h at_;
      match o with
      | None => mret a
      | Some r =>
          x ← (f a at_ r : M (bool * A));
          if (x.1 : bool) then walk_loop fuel h (at_ + LogRecord.size F r) f x.2 else mret x.2
      end
  end.

Definition walk {A} (h : nat) (f : A → nat → LogRecord.t → M (bool * A)) (a : A) : M A :=
  n ← gets half; walk_loop n h HEADER_LEN f a.

Definition find_step (key : Key) (found : option (nat * LogRecord.t)) (at_ : nat)
    (r : LogRecord.t) : option (nat * LogRecord.t) :=
  if (LogRecord.flags r =? FLAG_KIND_ERASED) && (LogRecord.kind r =? code (kind key)) then None
  else if LogRecord.matches r key then
    if LogRecord.flags r =? FLAG_SET then Some (at_, r) else None
  else found.

Definition find (h : nat) (key : Key) : M (option (nat * LogRecord.t)) :=
  walk h (λ (found : option (nat * LogRecord.t)) at_ r, mret (true, find_step key found at_ r)) None.

Definition is_live (h at_ : nat) (r : LogRecord.t) : M bool :=
  if negb (LogRecord.flags r =? FLAG_SET) then mret false
  else
    let key := MkKey (default Application (from_code (LogRecord.kind r))) (LogRecord.id r) in
    match from_code (LogRecord.kind r) with
    | None => mret false
    | Some _ =>
        found ← find h key;
        mret (match found with Some (live, _) => (live =? at_)%nat | None => false end)
    end.

(** The payload, chunk by chunk. *)
Fixpoint copy_loop (fuel src len done : nat) (w : ChunkWriter.t) : M ChunkWriter.t :=
  match fuel with
  | O => mret w
  | S fuel =>
      if (done <? len)%nat then
        let n := Nat.min (len - done) (chunk F) in
        tmp ← on_flash (flash_read (src + done) (round_up n (align F)));
        w ← writing (ChunkWriter.push w (take n tmp));
        copy_loop fuel src len (done + n) w
      else mret w
  end.

Definition copy_record (old new at_ out : nat) (r : LogRecord.t) : M unit :=
  to ← gets (λ s, half_base s new + out)%nat;
  w ← writing (ChunkWriter.push (ChunkWriter.new to)
        (record_header (LogRecord.kind r) (LogRecord.flags r) (LogRecord.id r)
           (LogRecord.len r) (LogRecord.crc r)));
  src ← gets (λ s, half_base s old + at_ + HEADER_LEN)%nat;
  w ← copy_loop (LogRecord.len r) src (LogRecord.len r) 0 w;
  _ ← writing (ChunkWriter.flush w);
  mret tt.

Fixpoint compact_loop (fuel old new at_ out : nat) : M nat :=
  match fuel with
  | O => mret out
  | S fuel =>
      o ← read_record old at_;
      match o with
      | None => mret out
      | Some r =>
          live ← is_live old at_ r;
          keep ← (if live : bool then payload_intact old at_ r else mret false);
          out ← (if keep : bool then
                   _ ← copy_record old new at_ out r; mret (out + LogRecord.size F r)%nat
                 else mret out);
          compact_loop fuel old new (at_ + LogRecord.size F r) out
      end
  end.

Definition compact : M unit :=
  old ← gets active;
  let new := (1 - old)%nat in
  _ ← erase_half new;
  n ← gets half;
  out ← compact_loop n old new HEADER_LEN HEADER_LEN;
  seq ← gets (λ s, wrap 32 (seq s + 1));
  _ ← write_header new seq;
  _ ← modify (λ s, with_stats StoreStats.compacted (with_log new seq out s));
  erase_half old.

(** The writes of one record; their failure is [written.is_err()]. *)
Definition write_record (to : nat) (kind flags id : Z) (data : list Z)
    : SE F StorageError ChunkWriter.t :=
  w ← ChunkWriter.push (ChunkWriter.new to)
        (record_header kind flags id (length data) (crc16 data));
  w ← ChunkWriter.push w data;
  ChunkWriter.flush w.

(** The end of [append]: the record goes behind the tail. *)
Definition append_record (kind flags id : Z) (data : list Z) (size : nat) : M unit := λ s,
  let '(written, f) := write_record (half_base s (active s) + tail s) kind flags id data (flash s) in
  let s := with_flash s f in
  match written with
  | Err _ => (Err Io, with_stats StoreStats.failed s)
  | Ok _ => (Ok tt, with_stats StoreStats.wrote (with_log (active s) (seq s) (tail s + size) s))
  end.

Definition append (kind flags id : Z) (data : list Z) : M unit :=
  if (MAX_RECORD <? length data)%nat then fail Full
  else
    let size := round_up (HEADER_LEN + length data) (align F) in
    full ← gets (λ s, half s <? tail s + size)%nat;
    _ ← (if full : bool then
           _ ← compact;
           full ← gets (λ s, half s <? tail s + size)%nat;
           if full : bool then fail Full else mret tt
         else mret tt);
    append_record kind flags id data size.

Definition store (key : Key) (data : list Z) : M unit :=
  append (code (kind key)) FLAG_SET (id key) data.

Definition load (key : Key) (n : nat) : M (option (list Z)) :=
  h ← gets active;
  found ← find h key;
  match found with
  | None => mret None
  | Some (at_, r) =>
      if (n <? LogRecord.len r)%nat then fail BufferTooSmall
      else
        x ← read_payload h at_ r n;
        mret (if fst x : bool then Some (snd x) else None)
  end.

Definition erase (key : Key) : M unit :=
  h ← gets active;
  found ← find h key;
  match found with
  | None => mret tt
  | Some _ => append (code (kind key)) FLAG_ERASED (id key) []
  end.

Definition erase_kind (k : Kind) : M unit :=
  h ← gets active;
  any ← walk h (λ (any : bool) at_ r,
    if LogRecord.kind r =? code k then
      s_active ← gets active;
      live ← is_live s_active at_ r;
      mret (if live : bool then (false, true) else (true, any))
    else mret (true, any)) false;
  if negb any then mret tt else append (code k) FLAG_KIND_ERASED 0 [].

(** [format] leaves an empty log in half 0. *)
Definition format : M unit :=
  _ ← erase_half 0;
  _ ← erase_half 1;
  _ ← modify (λ s, with_log 0 1 (tail s) s);
  _ ← write_header 0 1;
  modify (λ s, with_log (active s) (seq s) HEADER_LEN s).

(** [new] from the reading of the headers on. *)
Definition open_halves : M unit :=
  a ← header 0;
  b ← header 1;
  match a, b with
  | None, None =>
      _ ← modify (with_stats StoreStats.set_formatted);
      format
  | Some sa, Some sb =>
      let newer := wrap 32 (sb - sa) <? u32_max / 2 in
      _ ← modify (λ s, if newer then with_log 1 sb (tail s) s else with_log 0 sa (tail s) s);
      scan_tail
  | Some sa, None => _ ← modify (λ s, with_log 0 sa (tail s) s); scan_tail
  | None, Some sb => _ ← modify (λ s, with_log 1 sb (tail s) s); scan_tail
  end.

(** The store takes over the flash. *)
Definition new (f : F) (base len : nat) : result st StorageError :=
  let sector := sector F in
  if (CHUNK <? align F)%nat then Err Io
  else if (len <? 2 * sector)%nat || negb (len mod (2 * sector) =? 0)%nat
          || negb (base mod sector =? 0)%nat then Err Io
  else
    match open_halves (mk f StoreStats.new base (len / 2) 0 0 HEADER_LEN) with
    | (Ok _, s) => Ok s
    | (Err e, _) => Err e
    end.

#[global] Instance nor_Storage : Storage st := {
  store := store; load := load; erase := erase; erase_kind := erase_kind
}.

End store.
End NorFlashStore.

(** ** A driver in RAM

    The rules of the flash double in the sources' tests, for any granule [g]
    and sector size [sec]: aligned requests, an erase sets a stretch to 0xFF, a
    write may only clear bits (an erased cell takes any octet), and an optional
    budget of writes simulates a power loss. *)

Module RamFlash.

Record t (g sec : nat) : Type := mk { mem : list Z; budget : option nat }.
Arguments mk {g sec} _ _.
Arguments mem {g sec} _.
Arguments budget {g sec} _.

Section ram.
Context {g sec : nat}.

Definition aligned (gr n : nat) : bool := (n mod gr =? 0)%nat.

Definition read (o n : nat) : SE (t g sec) unit (list Z) := λ f,
  if aligned g o && aligned g n && (o + n <=? length (mem f))%nat
  then (Ok (region o n (mem f)), f) else (Err tt, f).

Definition write (o : nat) (b : list Z) : SE (t g sec) unit unit := λ f,
  if negb (aligned g o && aligned g (length b) && (o + length b <=? length (mem f))%nat)
  then (Err tt, f)
  else
    match budget f with
    | Some O => (Err tt, f)
    | bud =>
        if forallb (λ p, (p.1 =? 0xFF) || (Z.land p.1 p.2 =? p.2)) (zip (region o (length b) (mem f)) b)
        then (Ok tt, mk (splice o b (mem f)) (Nat.pred <$> bud))
        else (Err tt, f)
    end.

Definition erase (from to : nat) : SE (t g sec) unit unit := λ f,
  if aligned sec from && aligned sec to && (from <=? to)%nat && (to <=? length (mem f))%nat
  then (Ok tt, mk (splice from (blank (to - from)) (mem f)) (budget f)) else (Err tt, f).

#[global] Instance ram_NorFlash : NorFlash (t g sec) := {
  READ_SIZE := g; WRITE_SIZE := g; ERASE_SIZE := sec;
  flash_read := read; flash_write := write; flash_erase := erase
}.

End ram.
End RamFlash.
