(* ===== verification/NorFlashLog.v ===== *)
(** * The flash log

    The halves of a [NorFlashStore] as lists of log entries: what each
    operation of nor_flash.rs reads and writes, down to the chunks the writer
    programs, and the state a compaction leaves on every outcome.  [NorFlashMap]
    reads the log as a map and proves the contract of [Storage]. *)

From S2P Require Import Prelude Heapless Storage NorFlash.

(** ** Granule arithmetic *)

Section round_up.
Implicit Types a n k : nat.
Local Open Scope nat_scope.

Lemma round_up_bounds n a : 0 < a → n ≤ round_up n a < n + a ∧ (a | round_up n a).
Proof.
  intros Ha. unfold round_up, div_ceil. split; [|by apply Nat.divide_factor_r].
  pose proof (Nat.div_mod n a ltac:(lia)). pose proof (Nat.mod_upper_bound n a ltac:(lia)).
  destruct (Nat.eqb_spec (n mod a) 0); nia.
Qed.

Lemma round_up_unique n a m : 0 < a → n ≤ m < n + a → (a | m) → round_up n a = m.
Proof.
  intros Ha Hm [q ->]. destruct (round_up_bounds n a Ha) as [Hb [p Hp]].
  rewrite Hp in *. assert (p < S q ∧ q < S p) by nia. f_equal. lia.
Qed.

Lemma round_up_shift n a k : 0 < a → (a | k) → round_up (k + n) a = k + round_up n a.
Proof.
  intros Ha Hk. destruct (round_up_bounds n a Ha) as [Hb Hd].
  apply round_up_unique; [done|lia|by apply Nat.divide_add_r].
Qed.

Lemma round_up_le n a m : 0 < a → n ≤ m → (a | m) → round_up n a ≤ m.
Proof.
  intros Ha Hm [q ->]. destruct (round_up_bounds n a Ha) as [Hb [p Hp]].
  rewrite Hp in *. assert (p < S q) by nia. nia.
Qed.
End round_up.

(** ** Regions *)

Section region.
Context {A : Type}.
Implicit Types l p q : list A.

Lemma length_region a n l : (a + n ≤ length l)%nat → length (region a n l) = n.
Proof. intros. unfold region. rewrite length_take, length_drop. lia. Qed.

Lemma region_region a m o n l :
  (o + n ≤ m)%nat → region o n (region a m l) = region (a + o) n l.
Proof.
  intros H. unfold region. rewrite skipn_firstn_comm, take_take, drop_drop.
  f_equal. lia.
Qed.

Lemma region_app a n p l q : length p = a → length l = n → region a n (p ++ l ++ q) = l.
Proof. intros <- <-. unfold region. by rewrite drop_app_length, take_app_length. Qed.

Lemma region_take a n m l : (n ≤ m)%nat → take n (region a m l) = region a n l.
Proof. intros. unfold region. rewrite take_take. f_equal. lia. Qed.

Lemma region_add a n m l : region a (n + m) l = region a n l ++ region (a + n) m l.
Proof. unfold region. by rewrite <- drop_drop, take_take_drop. Qed.

Lemma region_split a n l :
  (a + n ≤ length l)%nat → l = take a l ++ region a n l ++ drop (a + n) l.
Proof. intros. unfold region. rewrite <- drop_drop, take_drop. by rewrite take_drop. Qed.

(** A write outside a region does not change it; one inside is a write to it. *)
Lemma region_splice_ne a n o b l :
  (o + length b ≤ length l)%nat → (a + n ≤ o ∨ o + length b ≤ a)%nat →
  region a n (splice o b l) = region a n l.
Proof.
  intros Ho [H|H]; unfold region, splice.
  - rewrite <- (take_drop o l) at 3. rewrite !drop_app_le by (rewrite length_take; lia).
    rewrite !take_app_le by (rewrite length_drop, length_take; lia). done.
  - rewrite drop_app_ge by (rewrite length_take; lia).
    rewrite drop_app_ge by (rewrite length_take; lia).
    rewrite drop_drop, length_take. do 2 f_equal. lia.
Qed.

Lemma region_splice_in a n o b l :
  (a + n ≤ length l)%nat → (o + length b ≤ n)%nat →
  region a n (splice (a + o) b l) = splice o b (region a n l).
Proof.
  intros Hl Ho. unfold splice, region.
  rewrite take_take, skipn_firstn_comm, drop_drop.
  rewrite (drop_app_le (take (a + o) l)) by (rewrite length_take; lia).
  rewrite skipn_firstn_comm. replace (a + o - a)%nat with o by lia.
  rewrite take_app_ge by (rewrite length_take, length_drop; lia).
  rewrite length_take, length_drop.
  rewrite take_app_ge by lia. f_equal; [f_equal; lia|]. f_equal. f_equal; [lia|f_equal; lia].
Qed.
End region.

(** ** Outcomes of a stateful operation *)

Definition wp {S E A} (m : SE S E A) (Q : result A E → S → Prop) (s : S) : Prop :=
  Q (m s).1 (m s).2.

Section wp.
Context {S E : Type}.

Lemma wp_mono {A} (m : SE S E A) (P Q : result A E → S → Prop) s :
  wp m P s → (∀ r s', P r s' → Q r s') → wp m Q s.
Proof. unfold wp. eauto. Qed.

Lemma wp_bind {A B} (m : SE S E A) (f : A → SE S E B) Q s :
  wp m (λ r s', match r with Ok a => wp (f a) Q s' | Err e => Q (Err e) s' end) s →
  wp (m ≫= f) Q s.
Proof. unfold wp, mbind, se_bind. by destruct (m s) as [[a|e] s']. Qed.

Lemma wp_ret {A} (a : A) (Q : result A E → S → Prop) s : Q (Ok a) s → wp (mret a) Q s.
Proof. done. Qed.

Lemma wp_gets {A} (f : S → A) (Q : result A E → S → Prop) s : Q (Ok (f s)) s → wp (gets f) Q s.
Proof. done. Qed.

Lemma wp_modify (g : S → S) (Q : result unit E → S → Prop) s : Q (Ok tt) (g s) → wp (modify g) Q s.
Proof. done. Qed.

Lemma wp_eq {A} (m : SE S E A) (Q : result A E → S → Prop) s :
  wp m Q s ↔ ∃ r s', m s = (r, s') ∧ Q r s'.
Proof.
  unfold wp. destruct (m s) as [r s']. simpl. split; [eauto|]. by intros (? & ? & [= <- <-] & ?).
Qed.
End wp.

(** Granules that fit the 16-octet headers. *)
Class Granules (F : Type) `{!NorFlash F} : Prop := {
  gr_read : (READ_SIZE F | align F)%nat;
  gr_write : (WRITE_SIZE F | align F)%nat;
  gr_header : (align F | HEADER_LEN)%nat;
  gr_sector : (align F | ERASE_SIZE F)%nat;
  gr_erase : (0 < ERASE_SIZE F)%nat
}.

Section log.
Import NorFlashStore.
Context {F : Type} `{!NorFlash F, !NorFlashLaws F, !Granules F}.
Abbreviation st := (NorFlashStore.t F).
Abbreviation M := (SE st StorageError).
Implicit Types (s : st) (b d : list Z).

Lemma align_pos : (0 < align F)%nat.
Proof. unfold align. destruct (_ <? 4)%nat eqn:E; [lia|]. apply Nat.ltb_ge in E. lia. Qed.

Lemma align_bound : (align F ≤ 16)%nat.
Proof. apply Nat.divide_pos_le; [unfold HEADER_LEN; lia|apply gr_header]. Qed.

Lemma chunk_spec : (16 ≤ chunk F ≤ CHUNK)%nat ∧ (align F | chunk F)%nat.
Proof.
  unfold chunk. pose proof align_pos. pose proof align_bound.
  pose proof (Nat.mod_upper_bound CHUNK (align F) ltac:(lia)).
  change CHUNK with 64%nat in *. split; [lia|].
  exists (64 / align F)%nat. pose proof (Nat.div_mod 64 (align F) ltac:(lia)). lia.
Qed.

(** ** Operations that only read

    They may count a corrupt record and pass through the driver, but neither
    the cells nor the position in the log change. *)

Definition same s s' : Prop :=
  base s' = base s ∧ half s' = half s ∧ active s' = active s ∧ seq s' = seq s ∧
  tail s' = tail s ∧ cells (flash s') = cells (flash s) ∧
  (reliable (flash s') ↔ reliable (flash s)).

#[global] Instance same_equiv : Equivalence same.
Proof. unfold same. split; repeat intros ?; intuition congruence. Qed.

Definition reads {A} (m : M A) s (v : A) : Prop :=
  wp m (λ r s', same s s' ∧
    match r with Ok a => a = v | Err e => e = Io ∧ ¬ reliable (flash s) end) s.

Lemma reads_ret {A} (a : A) s : reads (mret a) s a.
Proof. by split. Qed.

Lemma reads_bind {A B} (m : M A) (f : A → M B) s v w :
  reads m s v → (∀ s', same s s' → reads (f v) s' w) → reads (m ≫= f) s w.
Proof.
  intros Hm Hf. unfold reads in *. apply wp_bind. eapply wp_mono; [exact Hm|]. simpl.
  intros [a|e] s' [Hs He]; [|done]. subst a. eapply wp_mono; [by apply Hf|]. simpl.
  intros r s'' [Hs' Hr]. split; [by etrans|]. destruct Hs as (_&_&_&_&_&_&Hs).
  destruct r; [done|]. by rewrite <- Hs.
Qed.

(** A read in front of an operation that writes. *)
Lemma wp_reads {A B} (m : M A) (f : A → M B) s v (Q : result B StorageError → st → Prop) :
  reads m s v → (∀ s', same s s' → wp (f v) Q s') →
  (∀ s', same s s' → ¬ reliable (flash s) → Q (Err Io) s') → wp (m ≫= f) Q s.
Proof.
  intros Hm Hf He. unfold reads in Hm. apply wp_bind. eapply wp_mono; [exact Hm|]. simpl.
  intros [a|e] s' [Hs Hr]; [subst a; by apply Hf|]. destruct Hr as [-> Hr]. by apply He.
Qed.

Lemma reads_gets {A} (f : st → A) s : reads (gets f) s (f s).
Proof. by split. Qed.

Lemma reads_eq {A} (m : M A) s v w : reads m s v → v = w → reads m s w.
Proof. by intros ? <-. Qed.

(** Where the two halves lie. *)
Definition placed s : Prop :=
  (ERASE_SIZE F | base s)%nat ∧ (ERASE_SIZE F | half s)%nat ∧ (0 < half s)%nat ∧
  (base s + 2 * half s ≤ length (cells (flash s)))%nat.

Definition hv s (h : nat) : list Z := region (half_base s h) (half s) (cells (flash s)).

Lemma same_placed s s' : same s s' → placed s → placed s'.
Proof. unfold placed. by intros (-> & -> & _ & _ & _ & -> & _). Qed.

Lemma same_hv s s' h : same s s' → hv s' h = hv s h.
Proof. unfold hv, half_base. by intros (-> & -> & _ & _ & _ & -> & _). Qed.

Lemma same_half_base s s' h : same s s' → half_base s' h = half_base s h.
Proof. unfold half_base. by intros (-> & -> & _). Qed.

Lemma placed_align s h : placed s → (align F | half_base s h)%nat.
Proof.
  intros (Hb & Hh & _). unfold half_base. pose proof gr_sector.
  apply Nat.divide_add_r; [|apply Nat.divide_mul_r]; by etrans.
Qed.

Lemma length_hv s h : placed s → (h ≤ 1)%nat → length (hv s h) = half s.
Proof. intros (_ & _ & _ & Hl) Hh. apply length_region. unfold half_base. nia. Qed.

Lemma reads_flash s h o n :
  placed s → (h ≤ 1)%nat → (align F | o)%nat → (align F | n)%nat → (o + n ≤ half s)%nat →
  reads (on_flash (flash_read (half_base s h + o) n)) s (region o n (hv s h)).
Proof.
  intros Hp Hh Ho Hn Hon. pose proof (placed_align s h Hp) as Hb. pose proof gr_read.
  destruct Hp as (_ & _ & _ & Hl).
  assert (half_base s h + half s ≤ length (cells (flash s)))%nat as Hl' by (unfold half_base in *; nia).
  pose proof (read_law (flash s) (half_base s h + o) n) as Hr.
  unfold reads, wp, on_flash. destruct (flash_read _ _ _) as [r f].
  destruct Hr as (Hc & Hrel & Hv); [by etrans; [|apply Nat.divide_add_r]|by etrans|lia|].
  unfold hv. rewrite region_region by lia. simpl. split; [by split_and!|]. by destruct r.
Qed.

(** ** Entries and what is read of them *)

(** One record of the log; [crc] is the stored checksum. *)
Record entry : Type := Entry {
  e_kind : Z; e_flags : Z; e_id : Z; e_crc : Z; e_data : list Z
}.

Definition e_header (e : entry) : LogRecord.t :=
  LogRecord.mk (e_kind e) (e_flags e) (e_id e) (length (e_data e)) (e_crc e).
Definition e_size (e : entry) : nat := LogRecord.size F (e_header e).
Definition e_head (e : entry) : list Z :=
  record_header (e_kind e) (e_flags e) (e_id e) (length (e_data e)) (e_crc e).
Definition e_bytes (e : entry) : list Z :=
  e_head e ++ e_data e ++ blank (e_size e - (HEADER_LEN + length (e_data e))).
Definition e_ok (e : entry) : Prop :=
  uint 16 (e_crc e) ∧ uint 64 (e_id e) ∧ (length (e_data e) ≤ MAX_RECORD)%nat.
Definition intact (e : entry) : bool := crc16 (e_data e) =? e_crc e.

Definition log (es : list entry) : list Z := concat (map e_bytes es).

(** The octets [b] from [at_] on are the log [es] and erased cells. *)
Definition holds b (at_ : nat) (es : list entry) : Prop :=
  (at_ ≤ length b)%nat ∧
  drop at_ b = log es ++ blank (length b - at_ - length (log es)).

Lemma length_e_head e : length (e_head e) = 16%nat.
Proof. reflexivity. Qed.

Lemma e_size_spec e :
  (HEADER_LEN + length (e_data e) ≤ e_size e)%nat ∧ (align F | e_size e)%nat.
Proof.
  destruct (round_up_bounds (HEADER_LEN + length (e_data e)) _ align_pos) as [[? _] ?]. by split.
Qed.

Lemma length_e_bytes e : length (e_bytes e) = e_size e.
Proof.
  unfold e_bytes, blank. rewrite !length_app, length_e_head, length_replicate.
  pose proof (e_size_spec e). unfold HEADER_LEN in *. lia.
Qed.

Lemma log_cons e es : log (e :: es) = e_bytes e ++ log es.
Proof. done. Qed.

Lemma log_app es es' : log (es ++ es') = log es ++ log es'.
Proof. unfold log. by rewrite map_app, concat_app. Qed.

Lemma log_align es : (align F | length (log es))%nat.
Proof.
  induction es as [|e es IH]; [apply Nat.divide_0_r|]. rewrite log_cons, length_app, length_e_bytes.
  apply Nat.divide_add_r; [apply e_size_spec|done].
Qed.

Lemma log_entries es : (16 * length es ≤ length (log es))%nat.
Proof.
  induction es as [|e es IH]; [simpl; lia|]. rewrite log_cons, length_app, length_e_bytes.
  simpl. pose proof (e_size_spec e). unfold HEADER_LEN in *. lia.
Qed.

Lemma holds_length b at_ es : holds b at_ es → (at_ + length (log es) ≤ length b)%nat.
Proof. intros [H1 H2]. apply (f_equal length) in H2. rewrite length_drop, length_app in H2. lia. Qed.

Lemma holds_cons b at_ e es :
  holds b at_ (e :: es) →
  region at_ (e_size e) b = e_bytes e ∧ holds b (at_ + e_size e) es.
Proof.
  intros H. pose proof (holds_length _ _ _ H) as Hl. destruct H as [H1 H2].
  rewrite log_cons, length_app, length_e_bytes in *. split.
  - unfold region. by rewrite H2, <- app_assoc, <- length_e_bytes, take_app_length.
  - split; [lia|]. rewrite <- drop_drop, H2, <- app_assoc, <- length_e_bytes, drop_app_length.
    do 2 f_equal. lia.
Qed.

Lemma holds_suffix b at_ pre suf :
  holds b at_ (pre ++ suf) → holds b (at_ + length (log pre)) suf.
Proof.
  intros H. pose proof (holds_length _ _ _ H) as Hl. destruct H as [H1 H2].
  rewrite log_app, length_app in *. split; [lia|].
  rewrite <- drop_drop, H2, <- app_assoc, drop_app_length. do 2 f_equal. lia.
Qed.

Lemma parse_head e : e_ok e → LogRecord.parse (e_head e) = Some (e_header e).
Proof.
  intros (Hc & Hi & Hd). unfold LogRecord.parse, e_head, record_header, e_header.
  set (b := [TAG_RECORD; _; _; 0] ++ _).
  assert (from_le (region 4 2 b) = Z.of_nat (length (e_data e))) as ->.
  { apply (from_to_le 2). unfold uint, MAX_RECORD in *. change (2 ^ _) with 65536. lia. }
  assert (from_le (region 6 2 b) = e_crc e) as -> by by apply (from_to_le 2).
  assert (from_le (region 8 8 b) = e_id e) as -> by by apply (from_to_le 8).
  cbn [negb default lookup list_lookup app b]. unfold MAX_RECORD in *. cbn [Z.eqb].
  rewrite (proj2 (Z.ltb_ge _ _)) by lia. by rewrite Nat2Z.id.
Qed.

Lemma reads_record s h at_ es :
  placed s → (h ≤ 1)%nat → (align F | at_)%nat → Forall e_ok es → holds (hv s h) at_ es →
  reads (read_record h at_) s (e_header <$> head es).
Proof.
  intros Hp Hh Ha Hok Hl. unfold read_record. eapply reads_bind; [apply reads_gets|].
  intros s1 H1. pose proof H1 as (_ & E1 & _). pose proof (length_hv s h Hp Hh) as Hlen.
  pose proof (holds_length _ _ _ Hl) as Hb.
  destruct (Nat.ltb_spec (half s) (at_ + HEADER_LEN)) as [Hlt|Hlt].
  - destruct es as [|e es]; [apply reads_ret|]. rewrite log_cons, length_app, length_e_bytes in Hb.
    pose proof (e_size_spec e). lia.
  - eapply reads_bind; [apply reads_gets|]. intros s2 H2. rewrite <- (same_half_base _ _ h H2).
    assert (same s s2) as H3 by by etrans. eapply reads_bind.
    { apply reads_flash; [by eapply same_placed|done|done|apply gr_header|].
      destruct H3 as (_ & -> & _). done. }
    intros s4 _. eapply reads_eq; [apply reads_ret|]. rewrite (same_hv _ _ h H3).
    destruct Hl as [Hl1 Hl2]. destruct es as [|e es]; simpl.
    + unfold region. rewrite Hl2. simpl. unfold LogRecord.parse, blank.
      rewrite take_replicate. change HEADER with 16%nat. unfold HEADER_LEN in *.
      replace (16 `min` (length (hv s h) - at_ - 0))%nat with 16%nat by lia. done.
    + apply Forall_cons in Hok as [He _]. unfold region. rewrite Hl2, log_cons. unfold e_bytes.
      rewrite <- !app_assoc. change HEADER with (length (e_head e)). rewrite take_app_length.
      by apply parse_head.
Qed.

(** ** Walking a half *)

(** The entries with their offsets. *)
Fixpoint located (at_ : nat) (es : list entry) : list (nat * entry) :=
  match es with
  | [] => []
  | e :: es => (at_, e) :: located (at_ + e_size e) es
  end.

Fixpoint walked {A} (g : A → nat → LogRecord.t → bool * A) (a : A) (l : list (nat * entry)) : A :=
  match l with
  | [] => a
  | (at_, e) :: l => let '(go, a) := g a at_ (e_header e) in if go then walked g a l else a
  end.

Lemma reads_walk_loop {A} fuel s h at_ es (f : A → nat → LogRecord.t → M (bool * A)) g a :
  placed s → (h ≤ 1)%nat → (align F | at_)%nat → Forall e_ok es → holds (hv s h) at_ es →
  (length es ≤ fuel)%nat →
  (∀ a at_ r s', same s s' → reads (f a at_ r) s' (g a at_ r)) →
  reads (walk_loop fuel h at_ f a) s (walked g a (located at_ es)).
Proof.
  intros Hp Hh. revert s at_ es a Hp.
  induction fuel as [|fuel IH]; intros s at_ es a Hp Ha Hok Hl Hlen Hf; simpl.
  { destruct es; [apply reads_ret|simpl in Hlen; lia]. }
  eapply reads_bind; [by apply reads_record|]. intros s1 H1.
  destruct es as [|e es]; simpl; [apply reads_ret|].
  eapply reads_bind; [by apply Hf|]. intros s2 H2.
  destruct (g a at_ (e_header e)) as [[] a']; simpl; [|apply reads_ret].
  apply Forall_cons in Hok as [He Hok]. apply holds_cons in Hl as [_ Hl].
  assert (same s s2) as H3 by by etrans.
  apply IH; [by eapply same_placed| | |by rewrite (same_hv _ _ _ H3)|simpl in Hlen; lia|].
  - apply Nat.divide_add_r; [done|apply e_size_spec].
  - done.
  - intros. apply Hf. by etrans.
Qed.

Lemma holds_fuel s h es :
  placed s → (h ≤ 1)%nat → holds (hv s h) HEADER_LEN es → (length es ≤ half s)%nat.
Proof.
  intros Hp Hh Hl. apply holds_length in Hl. rewrite length_hv in Hl by done.
  pose proof (log_entries es). lia.
Qed.

(** The half [h] carries a header and the log [es]. *)
Definition half_log s h es : Prop :=
  placed s ∧ (h ≤ 1)%nat ∧ Forall e_ok es ∧ holds (hv s h) HEADER_LEN es.

Lemma same_half_log s s' h es : same s s' → half_log s h es → half_log s' h es.
Proof. intros H (? & ? & ? & ?). split_and!; [by eapply same_placed|done..|]. by rewrite (same_hv _ _ _ H). Qed.

Lemma reads_walk {A} s h es (f : A → nat → LogRecord.t → M (bool * A)) g a :
  half_log s h es →
  (∀ a at_ r s', same s s' → reads (f a at_ r) s' (g a at_ r)) →
  reads (walk h f a) s (walked g a (located HEADER_LEN es)).
Proof.
  intros (Hp & Hh & Hok & Hl) Hf. unfold walk. eapply reads_bind; [apply reads_gets|].
  intros s1 H1. apply reads_walk_loop; [by eapply same_placed|done|apply gr_header|done|..].
  - by rewrite (same_hv _ _ _ H1).
  - by eapply holds_fuel.
  - intros. apply Hf. by etrans.
Qed.

Definition found (key : Key) (l : list (nat * entry)) : option (nat * LogRecord.t) :=
  foldl (λ acc p, find_step key acc p.1 (e_header p.2)) None l.

Lemma reads_find s h es key :
  half_log s h es → reads (find h key) s (found key (located HEADER_LEN es)).
Proof.
  intros Hl. unfold find. eapply reads_eq.
  { apply (reads_walk s h es _ (λ acc at_ r, (true, find_step key acc at_ r))); [done|].
    intros. apply reads_ret. }
  unfold found. generalize (@None (nat * LogRecord.t)). induction (located HEADER_LEN es) as [|[at_ e] l IH];
    intros acc; simpl; [done|]. apply IH.
Qed.

(** Whether a record found at [at_] is the live one, in terms of the log. *)
Definition live_at (es : list entry) (at_ : nat) (r : LogRecord.t) : bool :=
  (LogRecord.flags r =? FLAG_SET) &&
  match from_code (LogRecord.kind r) with
  | None => false
  | Some k =>
      match found (MkKey k (LogRecord.id r)) (located HEADER_LEN es) with
      | Some (live, _) => (live =? at_)%nat
      | None => false
      end
  end.

Lemma reads_is_live s h es at_ r :
  half_log s h es → reads (is_live h at_ r) s (live_at es at_ r).
Proof.
  intros Hl. unfold is_live, live_at. destruct (_ =? FLAG_SET); simpl; [|apply reads_ret].
  destruct (from_code _) as [k|]; [|apply reads_ret]. simpl.
  eapply reads_bind; [by apply reads_find|]. intros s' _. apply reads_ret.
Qed.

Lemma reads_scan_loop fuel s at_ es :
  placed s → (active s ≤ 1)%nat → (align F | at_)%nat → Forall e_ok es →
  holds (hv s (active s)) at_ es → (length es ≤ fuel)%nat →
  reads (scan_loop fuel at_) s (at_ + length (log es))%nat.
Proof.
  revert s at_ es. induction fuel as [|fuel IH]; intros s at_ es Hp Hh Ha Hok Hl Hlen; simpl.
  { destruct es; [|simpl in Hlen; lia]. rewrite Nat.add_0_r. apply reads_ret. }
  eapply reads_bind; [apply reads_gets|]. intros s0 H0.
  eapply reads_bind.
  { apply reads_record; [by eapply same_placed|done|done|exact Hok|by rewrite (same_hv _ _ _ H0)]. }
  intros s1 H1. assert (same s s1) as H2 by by etrans.
  destruct es as [|e es]; cbn [head fmap option_fmap option_map];
    [rewrite Nat.add_0_r; apply reads_ret|].
  apply Forall_cons in Hok as [He Hok]. apply holds_cons in Hl as [_ Hl].
  pose proof H2 as (_ & _ & Ha2 & _).
  eapply reads_eq.
  - apply (IH s1 _ es); [by eapply same_placed|by rewrite Ha2| |done| |simpl in Hlen; lia].
    + apply Nat.divide_add_r; [done|apply e_size_spec].
    + by rewrite (same_hv _ _ _ H2), Ha2.
  - rewrite log_cons, length_app, length_e_bytes. unfold e_size. lia.
Qed.

(** ** Reading a payload *)

Lemma holds_located b at_ es o e :
  holds b at_ es → (o, e) ∈ located at_ es →
  region o (e_size e) b = e_bytes e ∧ (at_ ≤ o)%nat ∧ (o + e_size e ≤ length b)%nat ∧
  ((align F | at_)%nat → (align F | o)%nat).
Proof.
  revert at_. induction es as [|e' es IH]; intros at_ Hl; simpl; [by intros ?%elem_of_nil|].
  pose proof (holds_length _ _ _ Hl) as Hb. rewrite log_cons, length_app, length_e_bytes in Hb.
  apply holds_cons in Hl as [He Hl]. intros [[= -> ->]|Hin]%elem_of_cons.
  - split_and!; [done|lia..|done].
  - destruct (IH _ Hl Hin) as (? & ? & ? & Hal). split_and!; [done|lia..|].
    intros Ha. apply Hal. apply Nat.divide_add_r; [done|apply e_size_spec].
Qed.

(** A read of [m] octets at offset [p] of the payload, padded to the granule. *)
Lemma reads_payload_part s h es o e p n m :
  half_log s h es → (o, e) ∈ located HEADER_LEN es →
  (align F | p)%nat → (p + n ≤ length (e_data e))%nat → m = round_up n (align F) →
  reads (on_flash (flash_read (half_base s h + o + HEADER_LEN + p) m)) s
    (region p m (e_data e ++ blank (e_size e - (HEADER_LEN + length (e_data e))))).
Proof.
  intros (Hp & Hh & Hok & Hl) Hin Hpa Hpn ->.
  destruct (holds_located _ _ _ _ _ Hl Hin) as (Hr & Ho & Hb & Hal).
  specialize (Hal gr_header). rewrite length_hv in Hb by done. pose proof (e_size_spec e) as [Hs1 Hs2].
  destruct (round_up_bounds n _ align_pos) as [_ Hm].
  assert (HEADER_LEN + p + round_up n (align F) ≤ e_size e)%nat as Hle.
  { rewrite <- round_up_shift; [|apply align_pos|apply Nat.divide_add_r; [apply gr_header|done]].
    apply round_up_le; [apply align_pos|lia|done]. }
  eapply reads_eq.
  - rewrite <- !Nat.add_assoc. apply reads_flash; [done|done| |done|lia].
    repeat apply Nat.divide_add_r; [done|apply gr_header|done].
  - rewrite <- (region_region o (e_size e)) by lia. rewrite Hr. unfold e_bytes.
    unfold region. rewrite <- drop_drop. change HEADER_LEN with (length (e_head e)).
    by rewrite drop_app_length.
Qed.

Lemma region_prefix {A} p n m (l q : list A) :
  (n ≤ m)%nat → (p + n ≤ length l)%nat → take n (region p m (l ++ q)) = region p n l.
Proof.
  intros. rewrite region_take by done. unfold region. rewrite drop_app_le by lia.
  rewrite take_app_le; [done|]. rewrite length_drop. lia.
Qed.

Lemma same_with_stats s g : same s (with_stats g s).
Proof. by split_and!. Qed.

Lemma reads_intact_loop fuel s h es o e done crc :
  half_log s h es → (o, e) ∈ located HEADER_LEN es → (align F | done)%nat ∨ done = length (e_data e) →
  (done ≤ length (e_data e))%nat → (length (e_data e) - done ≤ fuel)%nat →
  reads (intact_loop fuel (half_base s h + o + HEADER_LEN) (length (e_data e)) done crc) s
    (crc16_update crc (drop done (e_data e))).
Proof.
  revert s done crc. induction fuel as [|fuel IH]; intros s dn crc Hl Hin Ha Hd Hf; simpl.
  { rewrite drop_ge by lia. apply reads_ret. }
  destruct (Nat.ltb_spec dn (length (e_data e))) as [Hlt|Hge].
  2: { rewrite drop_ge by lia. apply reads_ret. }
  destruct Ha as [Ha|?]; [|lia].
  set (n := Nat.min (length (e_data e) - dn) (chunk F)). pose proof chunk_spec as [Hc1 Hc2].
  pose proof (round_up_bounds n _ align_pos) as [[Hr _] _].
  eapply reads_bind; [by apply (reads_payload_part _ _ es o e dn n); [..|lia|]|]. intros s' Hs.
  rewrite region_prefix by lia.
  rewrite <- (same_half_base _ _ h Hs). eapply reads_eq.
  - apply IH; [by eapply same_half_log|done| |lia|lia].
    destruct (decide (n = chunk F)) as [->|]; [left; by apply Nat.divide_add_r|right; lia].
  - unfold crc16_update. rewrite <- foldl_app. f_equal.
    unfold region. rewrite <- (take_drop n (drop dn (e_data e))) at 2. by rewrite drop_drop.
Qed.

Lemma reads_payload_intact s h es o e :
  half_log s h es → (o, e) ∈ located HEADER_LEN es →
  reads (payload_intact h o (e_header e)) s (intact e).
Proof.
  intros Hl Hin. unfold payload_intact. eapply reads_bind; [apply reads_gets|]. intros s1 H1.
  simpl. rewrite <- (same_half_base _ _ h H1).
  eapply reads_bind.
  { eapply (reads_intact_loop _ s1 h es o e 0); [by eapply same_half_log|done| |lia|lia].
    left. apply Nat.divide_0_r. }
  intros s2 _. change (crc16_update 0xFFFF (drop 0 (e_data e))) with (crc16 (e_data e)).
  fold (intact e). eapply (reads_bind _ _ _ tt).
  - destruct (intact e); simpl; [apply reads_ret|]. split; [apply same_with_stats|done].
  - intros s3 _. apply reads_ret.
Qed.

Lemma reads_read_payload s h es o e n :
  half_log s h es → (o, e) ∈ located HEADER_LEN es → (length (e_data e) ≤ n)%nat →
  reads (read_payload h o (e_header e) n) s (intact e, e_data e).
Proof.
  intros Hl Hin Hn. unfold read_payload. simpl.
  rewrite (proj2 (Nat.ltb_ge n _)) by done.
  pose proof align_pos as Hap. remember (length (e_data e) - length (e_data e) mod align F)%nat as body eqn:Hbody.
  pose proof (Nat.div_mod (length (e_data e)) (align F) ltac:(lia)) as Hdm.
  pose proof (Nat.mod_upper_bound (length (e_data e)) (align F) ltac:(lia)) as Hmu.
  assert (align F | body)%nat as Hba by (exists (length (e_data e) / align F)%nat; lia).
  eapply reads_bind; [apply reads_gets|]. intros s1 H1. rewrite <- (same_half_base _ _ h H1).
  apply (reads_bind _ _ _ (take body (e_data e))).
  { destruct (Nat.ltb_spec 0 body).
    - eapply reads_eq.
      + rewrite <- (Nat.add_0_r (_ + _ + HEADER_LEN)).
        eapply (reads_payload_part s1 h es o e 0 body); [by eapply same_half_log|done| |lia|].
        * apply Nat.divide_0_r.
        * symmetry. apply round_up_unique; [done|lia|done].
      + rewrite <- (region_take 0 body body) by done. rewrite region_prefix by lia. done.
    - replace body with 0%nat by lia. apply reads_ret. }
  intros s2 H2. assert (same s s2) as H3 by by etrans. rewrite <- (same_half_base _ _ h H2).
  apply (reads_bind _ _ _ (drop body (e_data e))).
  { destruct (Nat.ltb_spec body (length (e_data e))).
    - eapply reads_bind.
      + eapply (reads_payload_part s2 h es o e body (length (e_data e) - body)); [by eapply same_half_log|done|done|lia|].
        symmetry. apply round_up_unique; [done|lia|apply Nat.divide_refl].
      + intros s4 _. eapply reads_eq; [apply reads_ret|]. rewrite region_prefix by lia.
        unfold region. rewrite take_ge; [done|]. rewrite length_drop. lia.
    - rewrite drop_ge by lia. apply reads_ret. }
  intros s4 _. rewrite take_drop. fold (intact e). eapply (reads_bind _ _ _ tt).
  - destruct (intact e); simpl; [apply reads_ret|]. split; [apply same_with_stats|done].
  - intros s5 _. apply reads_ret.
Qed.

(** ** Writing into erased cells *)

(** [E] erased cells from [a] on. *)
Definition erased (c : list Z) (a E : nat) : Prop :=
  (a + E ≤ length c)%nat ∧ region a E c = blank E.

Lemma erased_part c a E n k : erased c a E → (n + k ≤ E)%nat → region (a + n) k c = blank k.
Proof.
  intros [Hl He] Hn. rewrite <- (region_region a E) by done. rewrite He. unfold region, blank.
  rewrite drop_replicate, take_replicate. f_equal. lia.
Qed.

(** Padding with 0xFF does not change erased cells. *)
Lemma splice_blank c a E l k :
  erased c a E → (length l + k ≤ E)%nat → splice a (l ++ blank k) c = splice a l c.
Proof.
  intros He Hk. pose proof (erased_part c a E (length l) k He Hk) as Hb. destruct He as [Hl _].
  unfold splice. rewrite <- app_assoc. do 2 f_equal. rewrite length_app.
  rewrite <- Hb at 1. unfold region. unfold blank. rewrite length_replicate.
  rewrite Nat.add_assoc, <- (drop_drop c k). apply take_drop.
Qed.

Implicit Types (f : F) (w : ChunkWriter.t).

(** The writer has been given [fl ++ pend], of which [fl] is in the flash. *)
Definition writer_at (c : list Z) (a : nat) (fl pend : list Z) w f : Prop :=
  w = ChunkWriter.mk (pend ++ blank (CHUNK - length pend)) (length pend) (a + length fl) ∧
  (chunk F | length fl)%nat ∧ (length pend < chunk F)%nat ∧ cells f = splice a fl c.

(** A failure leaves whole chunks of what was to be written. *)
Definition torn (c : list Z) (a : nat) (l : list Z) f : Prop :=
  ∃ k, (chunk F | k)%nat ∧ (k ≤ length l)%nat ∧ cells f = splice a (take k l) c.

Definition fails f (e : StorageError) : Prop := e = Io ∧ ¬ reliable f.

Lemma writer_new c a f : cells f = c → writer_at c a [] [] (ChunkWriter.new a) f.
Proof.
  intros <-. pose proof chunk_spec. split_and!.
  - unfold ChunkWriter.new. simpl. by rewrite Nat.add_0_r.
  - apply Nat.divide_0_r.
  - simpl. lia.
  - by rewrite splice_nil.
Qed.

Lemma flush_spec c a E fl pend w f :
  (align F | a)%nat → erased c a E → (align F | length fl)%nat → (length pend ≤ chunk F)%nat →
  w = ChunkWriter.mk (pend ++ blank (CHUNK - length pend)) (length pend) (a + length fl) →
  cells f = splice a fl c → (length fl + round_up (length pend) (align F) ≤ E)%nat →
  wp (ChunkWriter.flush w) (λ r f', (reliable f' ↔ reliable f) ∧
    match r with
    | Ok w' => w' = ChunkWriter.new (a + length fl + round_up (length pend) (align F)) ∧
               cells f' = splice a (fl ++ pend) c
    | Err e => fails f e ∧ cells f' = cells f
    end) f.
Proof.
  intros Ha He Hfl Hpe -> Hc HE. pose proof chunk_spec as [Hch1 Hch2]. pose proof He as [Hlen _].
  unfold ChunkWriter.flush. simpl. destruct (Nat.eqb_spec (length pend) 0) as [H0|H0].
  { apply length_zero_iff_nil in H0 as ->. simpl. split; [done|]. rewrite app_nil_r. split; [|done].
    unfold ChunkWriter.new. simpl. f_equal.
    rewrite (round_up_unique 0 _ 0); [lia|apply align_pos|pose proof align_pos; lia|apply Nat.divide_0_r]. }
  set (n := round_up (length pend) (align F)) in *.
  destruct (round_up_bounds (length pend) _ align_pos) as [[Hn1 _] Hn2]. fold n in Hn1, Hn2.
  assert (n ≤ chunk F)%nat as Hn3 by (apply round_up_le; [apply align_pos|done|done]).
  assert (take n (pend ++ blank (CHUNK - length pend)) = pend ++ blank (n - length pend)) as Ht.
  { rewrite take_app_ge by lia. f_equal. unfold blank. rewrite take_replicate. f_equal. lia. }
  assert (length (pend ++ blank (n - length pend)) = n) as Hln by (unfold blank; len).
  apply wp_bind. unfold wp. pose proof (write_law f (a + length fl) (pend ++ blank (n - length pend))) as Hw.
  rewrite Ht. rewrite Hln in Hw. destruct (flash_write _ _ f) as [r f'].
  destruct Hw as [Hrel Hr].
  - etrans; [apply gr_write|by apply Nat.divide_add_r].
  - by etrans; [apply gr_write|].
  - rewrite Hc, length_splice by lia. lia.
  - rewrite Hc, region_splice_ne by lia. by apply (erased_part _ _ E).
  - destruct r as [[]|[]]; simpl; split; try done.
    + split; [done|]. rewrite Hr, Hc, splice_splice by lia. rewrite app_assoc.
      eapply splice_blank; [done|]. len.
    + by destruct Hr.
Qed.

Lemma push_loop_spec fuel c a E fl pend w f bytes :
  (align F | a)%nat → erased c a E → (length bytes ≤ fuel)%nat →
  writer_at c a fl pend w f → (length (fl ++ pend ++ bytes) ≤ E)%nat →
  wp (ChunkWriter.push_loop fuel w bytes) (λ r f', (reliable f' ↔ reliable f) ∧
    match r with
    | Ok w' => ∃ fl' pend', fl' ++ pend' = fl ++ pend ++ bytes ∧ writer_at c a fl' pend' w' f'
    | Err e => fails f e ∧ torn c a (fl ++ pend ++ bytes) f'
    end) f.
Proof.
  intros Ha He. revert fl pend w f bytes.
  induction fuel as [|fuel IH]; intros fl pend w f bytes Hf Hw HE.
  { destruct bytes; [|simpl in Hf; lia]. split; [done|]. exists fl, pend. by rewrite app_nil_r. }
  destruct bytes as [|x bs]; [split; [done|]; exists fl, pend; by rewrite app_nil_r|].
  set (bytes := x :: bs) in *. assert (0 < length bytes)%nat by (simpl; lia).
  destruct Hw as (-> & Hfl & Hpe & Hc). pose proof chunk_spec as [Hch1 Hch2].
  change (ChunkWriter.push_loop (S fuel) ?w0 bytes) with
    (let n := Nat.min (chunk F - ChunkWriter.fill w0) (length bytes) in
     let w1 := ChunkWriter.mk (splice (ChunkWriter.fill w0) (take n bytes) (ChunkWriter.buf w0))
                (ChunkWriter.fill w0 + n) (ChunkWriter.at_ w0) in
     (if (ChunkWriter.fill w1 =? chunk F)%nat then ChunkWriter.flush w1 else mret w1) ≫= λ w2,
     ChunkWriter.push_loop fuel w2 (drop n bytes)).
  cbn [ChunkWriter.fill ChunkWriter.buf ChunkWriter.at_].
  cbv zeta. set (n := Nat.min (chunk F - length pend) (length bytes)).
  assert (splice (length pend) (take n bytes) (pend ++ blank (CHUNK - length pend)) =
    (pend ++ take n bytes) ++ blank (CHUNK - length (pend ++ take n bytes))) as ->.
  { unfold splice. rewrite take_app_length, drop_app_ge by lia. rewrite <- app_assoc. do 2 f_equal.
    unfold blank. rewrite drop_replicate. f_equal. len. }
  assert (length pend + n = length (pend ++ take n bytes))%nat as -> by len.
  assert (length (fl ++ (pend ++ take n bytes) ++ drop n bytes) = length (fl ++ pend ++ bytes)) as Hlen.
  { do 2 f_equal. by rewrite <- app_assoc, take_drop. }
  assert (fl ++ (pend ++ take n bytes) ++ drop n bytes = fl ++ pend ++ bytes) as Hcat.
  { by rewrite <- app_assoc, take_drop. }
  assert (length (drop n bytes) ≤ fuel)%nat as Hfu by len.
  rewrite length_app, length_app in Hlen.
  destruct (Nat.eqb_spec (length (pend ++ take n bytes)) (chunk F)) as [Hfull|Hnf].
  - apply wp_bind. eapply wp_mono.
    { eapply (flush_spec c a E fl (pend ++ take n bytes)); [done..|by etrans|lia|done|done|].
      rewrite Hfull. rewrite (round_up_unique _ _ (chunk F)); [lia|apply align_pos| |done].
      pose proof align_pos. lia. }
    simpl. intros [w'|e] f' [Hrel Hr].
    + destruct Hr as [-> Hc']. eapply wp_mono.
      { apply (IH (fl ++ pend ++ take n bytes) []); [done| |].
        - split_and!; [|rewrite length_app, Hfull; by apply Nat.divide_add_r; [|exists 1%nat; lia]|simpl; lia|done].
          unfold ChunkWriter.new. simpl. f_equal. rewrite (length_app fl), Hfull.
          rewrite (round_up_unique _ _ (chunk F)); [lia|apply align_pos| |done]. pose proof align_pos. lia.
        - simpl. by rewrite <- app_assoc, Hcat. }
      simpl. rewrite <- app_assoc, Hcat. unfold fails. intros r f'' [Hrel' Hr]. split; [by rewrite Hrel'|].
      destruct r; [done|]. by rewrite <- Hrel.
    + destruct Hr as [Hr1 Hr2]. split_and!; [done..|]. exists (length fl). split_and!; [done|len|].
      by rewrite take_app_length, Hr2.
  - apply wp_bind, wp_ret. eapply wp_mono.
    { apply (IH fl (pend ++ take n bytes)); [done| |by rewrite Hcat].
      split_and!; [done..| |done]. revert Hnf. unfold n. len. }
    simpl. by rewrite Hcat.
Qed.

Lemma push_spec c a E fl pend w f bytes :
  (align F | a)%nat → erased c a E →
  writer_at c a fl pend w f → (length (fl ++ pend ++ bytes) ≤ E)%nat →
  wp (ChunkWriter.push w bytes) (λ r f', (reliable f' ↔ reliable f) ∧
    match r with
    | Ok w' => ∃ fl' pend', fl' ++ pend' = fl ++ pend ++ bytes ∧ writer_at c a fl' pend' w' f'
    | Err e => fails f e ∧ torn c a (fl ++ pend ++ bytes) f'
    end) f.
Proof. intros. by eapply push_loop_spec. Qed.

(** The final flush. *)
Lemma finish_spec c a E fl pend w f :
  (align F | a)%nat → erased c a E → writer_at c a fl pend w f →
  (round_up (length (fl ++ pend)) (align F) ≤ E)%nat →
  wp (ChunkWriter.flush w) (λ r f', (reliable f' ↔ reliable f) ∧
    match r with
    | Ok _ => cells f' = splice a (fl ++ pend) c
    | Err e => fails f e ∧ torn c a (fl ++ pend) f'
    end) f.
Proof.
  intros Ha He (Hw & Hfl & Hpe & Hc) HE. pose proof chunk_spec as [_ Hch].
  rewrite length_app, round_up_shift in HE by (apply align_pos || by etrans).
  eapply wp_mono.
  { eapply (flush_spec c a E fl pend); [done..|by etrans|lia|done|done|done]. }
  simpl. intros [w'|e] f' [Hrel Hr]; split; try done; [by destruct Hr|].
  destruct Hr as [Hr Hc']. split; [done|]. exists (length fl). split_and!; [done|len|].
  by rewrite take_app_length, Hc'.
Qed.

Lemma torn_app c a l l' f : torn c a l f → torn c a (l ++ l') f.
Proof.
  intros (k & ? & ? & ?). exists k. split_and!; [done|len|]. by rewrite take_app_le.
Qed.

Lemma write_record_spec c a E f k fl i (data : list Z) :
  (align F | a)%nat → erased c a E → cells f = c →
  (round_up (HEADER_LEN + length data) (align F) ≤ E)%nat →
  let l := record_header k fl i (length data) (crc16 data) ++ data in
  wp (write_record a k fl i data) (λ r f', (reliable f' ↔ reliable f) ∧
    match r with
    | Ok _ => cells f' = splice a l c
    | Err e => fails f e ∧ torn c a l f'
    end) f.
Proof.
  intros Ha He Hc HE l. set (hd := record_header _ _ _ _ _) in l.
  pose proof (round_up_bounds (HEADER_LEN + length data) _ align_pos) as [[Hr _] _].
  assert (length l = HEADER_LEN + length data)%nat as Hl by (unfold l; rewrite length_app; done).
  unfold write_record. apply wp_bind. eapply wp_mono.
  { apply (push_spec c a E [] []); [done|done|by apply writer_new|]. simpl. unfold HEADER_LEN in *. lia. }
  intros [w|e] f1 [Hrel H1]; [|destruct H1; split_and!; [done..|by apply torn_app]].
  destruct H1 as (fl1 & pe1 & Heq & Hw1). apply wp_bind. eapply wp_mono.
  { apply (push_spec c a E fl1 pe1); [done|done|done|]. rewrite app_assoc, Heq. change (length l ≤ E)%nat. lia. }
  rewrite app_assoc, Heq. cbn [app]. fold hd. fold l.
  intros [w2|e] f2 [Hrel2 H2]; [|rewrite Hrel2, Hrel; split; [done|]; unfold fails in *; by rewrite <- Hrel].
  destruct H2 as (fl2 & pe2 & Heq2 & Hw2). eapply wp_mono.
  { apply (finish_spec c a E fl2 pe2); [done..|]. by rewrite Heq2, Hl. }
  rewrite Heq2. intros r f3 [Hrel3 H3]. rewrite Hrel3, Hrel2. split; [done|].
  destruct r; [done|]. unfold fails in *. by rewrite <- Hrel, <- Hrel2.
Qed.

(** ** Changes to one half *)

Definition frame s s' : Prop :=
  base s' = base s ∧ half s' = half s ∧ active s' = active s ∧ seq s' = seq s ∧
  tail s' = tail s ∧ (reliable (flash s') ↔ reliable (flash s)).

#[global] Instance frame_equiv : Equivalence frame.
Proof. unfold frame. split; repeat intros ?; intuition congruence. Qed.

Lemma same_frame s s' : same s s' → frame s s'.
Proof. unfold same, frame. tauto. Qed.

(** Cells outside [lo .. hi] are the same. *)
Definition agree_off (lo hi : nat) (c c' : list Z) : Prop :=
  length c' = length c ∧
  ∀ a n, (a + n ≤ lo ∨ hi ≤ a)%nat → region a n c' = region a n c.

#[global] Instance agree_off_equiv lo hi : Equivalence (agree_off lo hi).
Proof.
  split.
  - by intros c.
  - intros c c' [H1 H2]. split; [done|]. intros. symmetry. by apply H2.
  - intros c c' c'' [H1 H2] [H3 H4]. split; [congruence|]. intros. rewrite H4 by done. by apply H2.
Qed.

Lemma agree_off_weaken lo hi lo' hi' c c' :
  (lo' ≤ lo)%nat → (hi ≤ hi')%nat → agree_off lo hi c c' → agree_off lo' hi' c c'.
Proof. intros ?? [? H]. split; [done|]. intros. apply H. lia. Qed.

Lemma agree_off_splice lo hi o l c :
  (lo ≤ o)%nat → (o + length l ≤ hi)%nat → (hi ≤ length c)%nat → agree_off lo hi c (splice o l c).
Proof.
  intros. split; [apply length_splice; lia|]. intros. apply region_splice_ne; lia.
Qed.

(** [s'] is [s] with the half [h] replaced by [b]. *)
Definition moved s s' (h : nat) b : Prop :=
  frame s s' ∧ hv s' h = b ∧
  agree_off (half_base s h) (half_base s h + half s) (cells (flash s)) (cells (flash s')).

Lemma frame_half_base s s' h : frame s s' → half_base s' h = half_base s h.
Proof. unfold half_base. by intros (-> & -> & _). Qed.

Lemma moved_splice s s' h o l :
  placed s → (h ≤ 1)%nat → frame s s' → (o + length l ≤ half s)%nat →
  cells (flash s') = splice (half_base s h + o) l (cells (flash s)) →
  moved s s' h (splice o l (hv s h)).
Proof.
  intros (_ & _ & _ & Hl) Hh Hf Ho Hc.
  assert (half_base s h + half s ≤ length (cells (flash s)))%nat by (unfold half_base; nia).
  split_and!; [done| |].
  - unfold hv. rewrite (frame_half_base _ _ _ Hf). destruct Hf as (_ & -> & _).
    rewrite Hc. by apply region_splice_in.
  - rewrite Hc. apply agree_off_splice; lia.
Qed.

Lemma moved_same s s' h : same s s' → moved s s' h (hv s h).
Proof.
  intros H. split_and!; [by apply same_frame|by apply same_hv|].
  destruct H as (_ & _ & _ & _ & _ & -> & _). reflexivity.
Qed.

Lemma moved_trans s1 s2 s3 h b b' : moved s1 s2 h b → moved s2 s3 h b' → moved s1 s3 h b'.
Proof.
  intros (H1 & _ & H2) (H3 & H4 & H5). split_and!; [by etrans|done|].
  rewrite (frame_half_base _ _ _ H1) in H5. destruct H1 as (_ & Hh & _). rewrite Hh in H5. by etrans.
Qed.

Lemma moved_placed s s' h b : moved s s' h b → placed s → placed s'.
Proof. unfold placed. intros ((-> & -> & _) & _ & -> & _). done. Qed.

Lemma moved_other s s' h b : (h ≤ 1)%nat → moved s s' h b → hv s' (1 - h) = hv s (1 - h).
Proof.
  intros Hh (Hf & _ & _ & Hr). unfold hv. rewrite (frame_half_base _ _ _ Hf).
  destruct Hf as (_ & -> & _). apply Hr. unfold half_base. destruct h as [|[]]; lia.
Qed.

(** The part of a half behind [o] is erased. *)
Lemma erased_half s h o :
  placed s → (h ≤ 1)%nat → (o ≤ half s)%nat → drop o (hv s h) = blank (half s - o) →
  erased (cells (flash s)) (half_base s h + o) (half s - o).
Proof.
  intros Hp Hh Ho Hd. pose proof Hp as (_ & _ & _ & Hl). split; [unfold half_base in *; nia|].
  rewrite <- (region_region _ (half s)) by lia. fold (hv s h). unfold region. rewrite Hd.
  unfold blank. rewrite take_replicate. f_equal. lia.
Qed.

(** ** Copying a record *)

Lemma wp_writing {A} (m : SE F StorageError A) (Q : result A StorageError → st → Prop) s :
  wp m (λ r f, Q r (with_flash s f)) (flash s) → wp (writing m) Q s.
Proof. unfold wp, writing. by destruct (m (flash s)). Qed.

Lemma frame_with_flash s f : (reliable f ↔ reliable (flash s)) → frame s (with_flash s f).
Proof. intros H. unfold frame. by split_and!. Qed.

(** A write to one half leaves the log in the other as it was. *)
Lemma half_log_other s s' h o l es :
  half_log s (1 - h) es → (h ≤ 1)%nat → frame s s' → (o + length l ≤ half s)%nat →
  cells (flash s') = splice (half_base s h + o) l (cells (flash s)) →
  half_log s' (1 - h) es.
Proof.
  intros (Hp & Hh' & Hok & Hl) Hh Hf Ho Hc.
  pose proof (moved_splice s s' h o l Hp Hh Hf Ho Hc) as Hm.
  split_and!; [by eapply moved_placed|done|done|]. by rewrite (moved_other _ _ _ _ Hh Hm).
Qed.

Section copy.
Context (s0 : st) (old out o : nat) (es : list entry) (e : entry).
Context (Hlog : half_log s0 old es) (Hin : (o, e) ∈ located HEADER_LEN es).
Let new := (1 - old)%nat.
Let a := (half_base s0 new + out)%nat.
Let c := cells (flash s0).
Context (Hout : (align F | out)%nat) (Hle : (out + e_size e ≤ half s0)%nat).
Context (Hblank : drop out (hv s0 new) = blank (half s0 - out)).

Lemma copy_new_le : (new ≤ 1)%nat.
Proof. unfold new. clear. lia. Qed.

Lemma copy_align : (align F | a)%nat.
Proof. pose proof Hlog as (? & _). apply Nat.divide_add_r; [by apply placed_align|done]. Qed.

Lemma copy_erased : erased c a (half s0 - out).
Proof. pose proof Hlog as (? & _). apply erased_half; [done|apply copy_new_le|lia|done]. Qed.

Lemma copy_old s l :
  frame s0 s → (out + length l ≤ half s0)%nat → cells (flash s) = splice a l c → half_log s old es.
Proof.
  intros Hf Hl Hc. pose proof Hlog as (_ & Hold & _).
  assert (1 - new = old)%nat as Hn by (unfold new; lia).
  rewrite <- Hn. eapply half_log_other; [|apply copy_new_le|done|done|done]. by rewrite Hn.
Qed.

Definition copied (s : st) (l : list Z) (r : result ChunkWriter.t StorageError) : Prop :=
  frame s0 s ∧
  match r with
  | Ok w => ∃ fl pend, fl ++ pend = l ∧ writer_at c a fl pend w (flash s)
  | Err er => fails (flash s0) er ∧ torn c a l (flash s)
  end.

Lemma copy_push s w fl pend bytes :
  frame s0 s → writer_at c a fl pend w (flash s) →
  (out + length (fl ++ pend ++ bytes) ≤ half s0)%nat →
  wp (writing (ChunkWriter.push w bytes)) (λ r s', copied s' (fl ++ pend ++ bytes) r) s.
Proof.
  intros Hf Hw Hl. apply wp_writing. eapply wp_mono.
  { eapply (push_spec c a (half s0 - out)); [apply copy_align|apply copy_erased|done|lia]. }
  intros r f [Hrel Hr]. assert (frame s0 (with_flash s f)) as Hf'.
  { etrans; [done|]. by apply frame_with_flash. }
  split; [done|]. destruct r; [done|]. destruct Hr as [[-> Hn] Ht]. split; [|done].
  split; [done|]. destruct Hf as (_&_&_&_&_&Hrel0). by rewrite <- Hrel0.
Qed.

Lemma copy_loop_spec fuel s w fl pend dn :
  frame s0 s → writer_at c a fl pend w (flash s) → fl ++ pend = e_head e ++ take dn (e_data e) →
  (align F | dn)%nat ∨ dn = length (e_data e) → (dn ≤ length (e_data e))%nat →
  (length (e_data e) - dn ≤ fuel)%nat →
  wp (copy_loop fuel (half_base s0 old + o + HEADER_LEN) (length (e_data e)) dn w)
    (λ r s', copied s' (e_head e ++ e_data e) r) s.
Proof.
  pose proof (e_size_spec e) as [Hsz _].
  assert (∀ s w fl pend, frame s0 s → writer_at c a fl pend w (flash s) →
    fl ++ pend = e_head e ++ take (length (e_data e)) (e_data e) →
    wp (mret w : M _) (λ r s', copied s' (e_head e ++ e_data e) r) s) as Hret.
  { intros s1 w1 fl1 pe1 H1 H2 H3. apply wp_ret. split; [done|]. exists fl1, pe1. split; [|done].
    by rewrite H3, take_ge. }
  revert s w fl pend dn. induction fuel as [|fuel IH]; intros s w fl pend dn Hf Hw Heq Ha Hd Hfu;
    cbn [copy_loop].
  { eapply Hret; [done..|]. by replace (length (e_data e)) with dn by lia. }
  destruct (Nat.ltb_spec dn (length (e_data e))) as [Hlt|Hge].
  2: { eapply Hret; [done..|]. by replace (length (e_data e)) with dn by lia. }
  destruct Ha as [Ha|?]; [|lia].
  set (n := Nat.min (length (e_data e) - dn) (chunk F)). pose proof chunk_spec as [Hc1 Hc2].
  pose proof (round_up_bounds n _ align_pos) as [[Hr _] _].
  assert (out + length (fl ++ pend) ≤ half s0)%nat as Hfit.
  { rewrite Heq, length_app, length_take, length_e_head. unfold HEADER_LEN in *. lia. }
  assert (half_log s old es) as Hls.
  { destruct Hw as (_ & _ & _ & Hcs). eapply copy_old; [done| |done]. rewrite length_app in Hfit. lia. }
  apply wp_bind. eapply wp_mono.
  { rewrite <- (frame_half_base _ _ old Hf). apply (reads_payload_part _ _ es o e dn n); [done..|lia|done]. }
  intros [tmp|er] s1 [Hs1 H1].
  2: { split; [by etrans; [|apply same_frame]|]. destruct H1 as [-> Hn]. split.
       - split; [done|]. destruct Hf as (_&_&_&_&_&Hrel). by rewrite <- Hrel.
       - destruct Hw as (_ & Hdv & _ & Hcs). exists (length fl). split; [done|]. split.
         + rewrite length_app in Hfit. apply (f_equal length) in Heq.
           rewrite !length_app, length_take in Heq. rewrite length_app. lia.
         + destruct Hs1 as (_&_&_&_&_&-> &_). rewrite Hcs. f_equal.
           rewrite <- (take_drop dn (e_data e)) at 1. rewrite app_assoc, <- Heq, <- !app_assoc.
           by rewrite take_app_length. }
  subst tmp. rewrite region_prefix by lia.
  assert (fl ++ pend ++ region dn n (e_data e) = e_head e ++ take (dn + n) (e_data e)) as Heq'.
  { rewrite app_assoc, Heq, <- app_assoc. f_equal. unfold region. apply take_take_drop. }
  apply wp_bind. eapply wp_mono.
  { apply (copy_push s1 w fl pend (region dn n (e_data e))); [by etrans; [|apply same_frame]| |].
    - destruct Hw as (? & ? & ? & Hcs). split_and!; [done..|]. destruct Hs1 as (_&_&_&_&_&-> &_). done.
    - rewrite Heq', length_app, length_take, length_e_head. unfold HEADER_LEN in *. lia. }
  rewrite Heq'. intros [w2|er] s2 [Hf2 H2].
  - destruct H2 as (fl2 & pe2 & Heq2 & Hw2). eapply IH; [done|done|done| |lia|lia].
    destruct (decide (n = chunk F)) as [->|]; [left; by apply Nat.divide_add_r|right; lia].
  - split; [done|]. destruct H2 as [? Ht]. split; [done|].
    rewrite <- (take_drop (dn + n) (e_data e)) at 1. rewrite app_assoc. by apply torn_app.
Qed.

Lemma copy_record_spec :
  wp (copy_record old new o out (e_header e)) (λ r s', frame s0 s' ∧
    match r with
    | Ok _ => cells (flash s') = splice a (e_head e ++ e_data e) c
    | Err er => fails (flash s0) er ∧ torn c a (e_head e ++ e_data e) (flash s')
    end) s0.
Proof.
  pose proof (e_size_spec e) as [Hsz _]. unfold HEADER_LEN in Hsz.
  unfold copy_record. apply wp_bind, wp_gets. fold a.
  apply wp_bind. eapply wp_mono.
  { apply (copy_push s0 _ [] [] (e_head e)); [done|by apply writer_new|]. simpl app.
    rewrite length_e_head. lia. }
  cbn [app]. intros [w|er] s1 [Hf1 H1].
  2: { split; [done|]. destruct H1. split; [done|by apply torn_app]. }
  destruct H1 as (fl & pend & Heq & Hw). apply wp_bind, wp_gets.
  apply wp_bind. eapply wp_mono.
  { rewrite (frame_half_base _ _ old Hf1). eapply (copy_loop_spec _ s1 w fl pend 0); [done|done| | |lia|simpl; lia].
    - by rewrite Heq, app_nil_r.
    - left. apply Nat.divide_0_r. }
  intros [w2|er] s2 [Hf2 H2]; [|done]. destruct H2 as (fl2 & pe2 & Heq2 & Hw2).
  apply wp_bind, wp_writing. eapply wp_mono.
  { eapply (finish_spec c a (half s0 - out) fl2 pe2); [apply copy_align|apply copy_erased|done|].
    rewrite Heq2, length_app, length_e_head. change (e_size e ≤ half s0 - out)%nat. lia. }
  rewrite Heq2. intros r f [Hrel Hr].
  assert (frame s0 (with_flash s2 f)) as Hf3 by (etrans; [done|by apply frame_with_flash]).
  destruct r; [by split|]. split; [done|]. destruct Hr as [[-> Hn] Ht]. split; [|done]. split; [done|].
  destruct Hf2 as (_&_&_&_&_&Hrel0). by rewrite <- Hrel0.
Qed.
End copy.

(** ** Compaction *)

Definition keep (es : list entry) (p : nat * entry) : bool :=
  live_at es p.1 (e_header p.2) && intact p.2.

(** The entries that survive a compaction. *)
Definition kept (es : list entry) : list entry :=
  (List.filter (keep es) (located HEADER_LEN es)).*2.

Lemma splice_app_r {A} n (l p q : list A) :
  splice (length p + n) l (p ++ q) = p ++ splice n l q.
Proof.
  unfold splice. rewrite take_app_add', <- Nat.add_assoc, drop_app_add' by done.
  by rewrite <- app_assoc.
Qed.

Lemma drop_splice_l {A} m n (l b : list A) :
  (m ≤ length b)%nat → drop m (splice (m + n) l b) = splice n l (drop m b).
Proof.
  intros Hm. rewrite <- (take_drop m b) at 1.
  replace m with (length (take m b)) at 2 by (rewrite length_take; lia).
  rewrite splice_app_r. replace m with (length (take m b)) at 1 by (rewrite length_take; lia).
  by rewrite drop_app_length.
Qed.

Lemma holds_snoc b es e :
  holds b HEADER_LEN es → (HEADER_LEN + length (log es) + e_size e ≤ length b)%nat →
  holds (splice (HEADER_LEN + length (log es)) (e_head e ++ e_data e) b) HEADER_LEN (es ++ [e]).
Proof.
  intros [H1 H2] Hl. pose proof (e_size_spec e) as [Hs _].
  assert (length (e_head e ++ e_data e) = HEADER_LEN + length (e_data e))%nat as Hh.
  { by rewrite length_app, length_e_head. }
  split; [rewrite length_splice by lia; lia|].
  rewrite drop_splice_l by done. rewrite H2, length_splice by lia.
  rewrite <- (Nat.add_0_r (length (log es))) at 1. rewrite splice_app_r, log_app, <- app_assoc.
  f_equal. rewrite length_app, log_cons. change (log []) with (@nil Z).
  rewrite app_nil_r, length_e_bytes. unfold e_bytes, splice, blank. rewrite Hh, drop_replicate.
  rewrite take_0, app_nil_l, <- !app_assoc. do 2 f_equal.
  rewrite <- replicate_add. f_equal. lia.
Qed.

Lemma take_splice_low {A} m n (l b : list A) :
  (m ≤ n)%nat → (n ≤ length b)%nat → take m (splice n l b) = take m b.
Proof.
  intros Hm Hn. unfold splice. rewrite take_app_le by (rewrite length_take; lia).
  rewrite take_take. f_equal. lia.
Qed.

(** A half under construction: no header yet, then the entries so far. *)
Definition drafted b (outs : list entry) : Prop :=
  take HEADER_LEN b = blank HEADER_LEN ∧ holds b HEADER_LEN outs.

Lemma fails_frame s s' e : frame s s' → fails (flash s') e ↔ fails (flash s) e.
Proof. unfold fails. by intros (_&_&_&_&_&->). Qed.

(** The copy of one entry extends the draft; a failure leaves no header. *)
Lemma copy_extends s old es o e outs :
  half_log s old es → (o, e) ∈ located HEADER_LEN es → drafted (hv s (1 - old)) outs →
  (HEADER_LEN + length (log outs) + e_size e ≤ half s)%nat →
  wp (copy_record old (1 - old) o (HEADER_LEN + length (log outs)) (e_header e)) (λ r s',
    ∃ b, moved s s' (1 - old) b ∧
    match r with
    | Ok _ => drafted b (outs ++ [e])
    | Err er => fails (flash s) er ∧ take HEADER_LEN b = blank HEADER_LEN
    end) s.
Proof.
  intros Hl Hin [Ht Hd] Hsz. pose proof Hl as (Hp & Hold & _).
  assert (1 - old ≤ 1)%nat as Hnew by lia. pose proof (length_hv s (1 - old) Hp Hnew) as Hlen.
  pose proof (e_size_spec e) as [Hs _]. unfold HEADER_LEN in Hs.
  eapply wp_mono.
  { eapply copy_record_spec; [done|done| |done|].
    - apply Nat.divide_add_r; [apply gr_header|apply log_align].
    - destruct Hd as [_ Hd]. rewrite <- drop_drop, Hd, drop_app_length, Hlen. f_equal. lia. }
  intros r s' [Hf Hr].
  assert (∀ l, (length l ≤ e_size e)%nat →
    cells (flash s') = splice (half_base s (1 - old) + (HEADER_LEN + length (log outs))) l (cells (flash s)) →
    moved s s' (1 - old) (splice (HEADER_LEN + length (log outs)) l (hv s (1 - old))) ∧
    take HEADER_LEN (splice (HEADER_LEN + length (log outs)) l (hv s (1 - old))) = blank HEADER_LEN) as Hmv.
  { intros l Hll Hc. split; [apply moved_splice; [done..|lia|done]|].
    rewrite take_splice_low by lia. done. }
  destruct r as [[]|er].
  - eexists. destruct (Hmv (e_head e ++ e_data e)) as [Hm Ht'];
      [rewrite length_app, length_e_head; lia|done|].
    split; [done|]. split; [done|]. apply holds_snoc; [done|lia].
  - destruct Hr as [Hfa (k & _ & Hk & Hc)]. eexists.
    destruct (Hmv (take k (e_head e ++ e_data e))) as [Hm Ht']; [|done|done].
    rewrite length_take, length_app, length_e_head. lia.
Qed.

Lemma located_app at_ pre suf :
  located at_ (pre ++ suf) = located at_ pre ++ located (at_ + length (log pre)) suf.
Proof.
  revert at_. induction pre as [|e pre IH]; intros at_; cbn [app located].
  { change (log []) with (@nil Z). by rewrite Nat.add_0_r. }
  rewrite IH. rewrite log_cons, length_app, length_e_bytes. by rewrite Nat.add_assoc.
Qed.

Lemma log_snoc_length es e : length (log (es ++ [e])) = (length (log es) + e_size e)%nat.
Proof.
  rewrite log_app, length_app, log_cons, length_app, length_e_bytes. change (log []) with (@nil Z).
  simpl. lia.
Qed.

Lemma moved_half_log s s' h b es :
  (h ≤ 1)%nat → moved s s' h b → half_log s (1 - h) es → half_log s' (1 - h) es.
Proof.
  intros Hh Hm (? & ? & ? & ?). split_and!; [by eapply moved_placed|done..|].
  by rewrite (moved_other _ _ _ _ Hh Hm).
Qed.

(** One round of the loop: the entry [e] at [o] is copied or passed over. *)
Lemma compact_step s old es o e outs (k : nat → M nat) (Q : result nat StorageError → st → Prop) :
  half_log s old es → (o, e) ∈ located HEADER_LEN es → drafted (hv s (1 - old)) outs →
  (HEADER_LEN + length (log outs) + e_size e ≤ half s)%nat →
  (∀ s' b, moved s s' (1 - old) b →
     let outs' := outs ++ if keep es (o, e) then [e] else [] in
     drafted b outs' → wp (k (HEADER_LEN + length (log outs'))%nat) Q s') →
  (∀ s' b, moved s s' (1 - old) b → take HEADER_LEN b = blank HEADER_LEN →
     ¬ reliable (flash s) → Q (Err Io) s') →
  wp (live ← is_live old o (e_header e);
      keep ← (if live : bool then payload_intact old o (e_header e) else mret false);
      out ← (if keep : bool then
               _ ← copy_record old (1 - old) o (HEADER_LEN + length (log outs)) (e_header e);
               mret (HEADER_LEN + length (log outs) + LogRecord.size F (e_header e))%nat
             else mret (HEADER_LEN + length (log outs))%nat);
      k out) Q s.
Proof.
  intros Hl Hin Hdr Hsz Hok Herr. pose proof Hdr as [Hblank _].
  assert (∀ s1 s', same s s1 → same s1 s' → ¬ reliable (flash s1) → Q (Err Io) s') as Herr'.
  { intros s1 s' H1 H2 Hn. apply (Herr s' (hv s (1 - old))); [apply moved_same; by etrans|done|].
    destruct H1 as (_&_&_&_&_&_&Hr). by rewrite <- Hr. }
  eapply wp_reads; [by apply reads_is_live|intros s1 H1|by intros; eapply (Herr' s)].
  apply (wp_reads _ _ _ (keep es (o, e))); [|intros s2 H2|by intros; eapply (Herr' s1)].
  { unfold keep. simpl. destruct (live_at _ _ _); [|apply reads_ret].
    eapply reads_payload_intact; [|done]. by eapply same_half_log. }
  assert (same s s2) as Hs by by etrans.
  destruct (keep es (o, e)); [|apply wp_bind, wp_ret].
  - apply wp_bind, wp_bind. eapply wp_mono.
    { eapply copy_extends; [by eapply same_half_log|done|by rewrite (same_hv _ _ _ Hs)|].
      destruct Hs as (_ & -> & _). done. }
    intros [[]|er] s3 (b & Hm & H3).
    + apply wp_ret. change (LogRecord.size F (e_header e)) with (e_size e).
      rewrite <- Nat.add_assoc, <- log_snoc_length. apply (Hok s3 b); [|done].
      by eapply moved_trans; [apply moved_same|].
    + destruct H3 as [[-> Hn] Ht]. apply (Herr s3 b); [by eapply moved_trans; [apply moved_same|]|done|].
      destruct Hs as (_&_&_&_&_&_&Hr). by rewrite <- Hr.
  - specialize (Hok s2 (hv s (1 - old)) (moved_same _ _ _ Hs)). simpl in Hok.
    rewrite app_nil_r in Hok. by apply Hok.
Qed.

Lemma compact_loop_spec fuel s old es pre suf outs :
  half_log s old es → es = pre ++ suf → drafted (hv s (1 - old)) outs →
  (length (log outs) ≤ length (log pre))%nat → (length suf ≤ fuel)%nat →
  wp (compact_loop fuel old (1 - old) (HEADER_LEN + length (log pre)) (HEADER_LEN + length (log outs)))
    (λ r s', ∃ b, moved s s' (1 - old) b ∧
      match r with
      | Ok out =>
          let outs' := outs ++ (List.filter (keep es) (located (HEADER_LEN + length (log pre)) suf)).*2 in
          drafted b outs' ∧ out = (HEADER_LEN + length (log outs'))%nat
      | Err er => fails (flash s) er ∧ take HEADER_LEN b = blank HEADER_LEN
      end) s.
Proof.
  revert s pre suf outs. induction fuel as [|fuel IH]; intros s pre suf outs Hl Hes Hdr Hle Hfu;
    cbn [compact_loop].
  { destruct suf; [|simpl in Hfu; lia]. apply wp_ret. eexists. split; [by apply moved_same|].
    simpl. by rewrite app_nil_r. }
  pose proof Hl as (Hp & Hold & Hok & Hh). pose proof (holds_length _ _ _ Hh) as Hhl.
  rewrite (length_hv s old Hp Hold), Hes, log_app, length_app in Hhl.
  eapply wp_reads; [|intros s1 Hs1|].
  { apply (reads_record s old _ suf); [done|done| | |].
    - apply Nat.divide_add_r; [apply gr_header|apply log_align].
    - rewrite Hes in Hok. by apply Forall_app in Hok as [_ ?].
    - rewrite Hes in Hh. by apply holds_suffix. }
  2: { intros s' Hs Hn. eexists. split; [by apply moved_same|]. split; [done|]. by destruct Hdr. }
  destruct suf as [|e suf]; cbn [head fmap option_fmap option_map].
  { apply wp_ret. eexists. split; [by apply moved_same|]. simpl. by rewrite app_nil_r. }
  rewrite log_cons, length_app, length_e_bytes in Hhl. simpl in Hfu.
  apply (compact_step s1 old es _ e outs).
  - by eapply same_half_log.
  - rewrite Hes, located_app. apply elem_of_app. right. by left.
  - by rewrite (same_hv _ _ _ Hs1).
  - destruct Hs1 as (_ & -> & _). lia.
  - cbv zeta. intros s2 b Hm Hd. change (LogRecord.size F (e_header e)) with (e_size e).
    rewrite <- Nat.add_assoc, <- log_snoc_length. pose proof Hm as (Hf2 & Hb2 & _).
    eapply wp_mono; [apply (IH s2 (pre ++ [e]) suf); [|by rewrite <- app_assoc|by rewrite Hb2| |lia]|].
    + replace old with (1 - (1 - old))%nat by lia. eapply moved_half_log; [lia|done|].
      replace (1 - (1 - old))%nat with old by lia. by eapply same_half_log.
    + rewrite log_snoc_length, log_app, length_app. destruct (keep es _).
      * rewrite log_cons, length_app, length_e_bytes. change (log []) with (@nil Z). simpl. lia.
      * change (log []) with (@nil Z). simpl. lia.
    + intros r s3 (b3 & Hm3 & H3). exists b3. split.
      { eapply moved_trans; [by apply moved_same|]. by eapply moved_trans. }
      rewrite log_snoc_length, Nat.add_assoc in H3.
      destruct r as [out|er]; [|].
      * cbv zeta in H3. rewrite <- app_assoc in H3. cbn [located List.filter].
        destruct (keep es _); exact H3.
      * by rewrite <- (fails_frame _ _ _ (same_frame _ _ Hs1)), <- (fails_frame _ _ _ Hf2).
  - intros s' b Hm Ht Hn. exists b. split; [by eapply moved_trans; [apply moved_same|]|].
    split; [|done]. split; [done|]. destruct Hs1 as (_&_&_&_&_&_&Hr). by rewrite <- Hr.
Qed.

Lemma wp_on_flash {A} (m : SE F unit A) (Q : result A StorageError → st → Prop) s :
  wp m (λ r f, Q (map_err (λ _, Io) r) (with_flash s f)) (flash s) → wp (on_flash m) Q s.
Proof. unfold wp, on_flash. by destruct (m (flash s)). Qed.

Lemma same_with_flash s f :
  cells f = cells (flash s) → (reliable f ↔ reliable (flash s)) → same s (with_flash s f).
Proof. intros ??. unfold same. by split_and!. Qed.

Lemma erase_half_spec s h :
  placed s → (h ≤ 1)%nat →
  wp (erase_half h) (λ r s',
    match r with
    | Ok _ => moved s s' h (blank (half s))
    | Err e => fails (flash s) e ∧ same s s'
    end) s.
Proof.
  intros Hp Hh. pose proof Hp as (Hb & Hhd & _ & Hl). unfold erase_half.
  apply wp_bind, wp_gets, wp_bind, wp_gets, wp_on_flash. unfold wp.
  pose proof (erase_law (flash s) (half_base s h) (half_base s h + half s)) as He.
  destruct (flash_erase _ _ _) as [r f]. simpl. destruct He as [Hrel Hr].
  - unfold half_base. apply Nat.divide_add_r; [done|by apply Nat.divide_mul_r].
  - unfold half_base. apply Nat.divide_add_r; [|done].
    apply Nat.divide_add_r; [done|by apply Nat.divide_mul_r].
  - unfold half_base. nia.
  - destruct r as [[]|[]]; simpl.
    + replace (half_base s h + half s - half_base s h)%nat with (half s) in Hr by lia.
      rewrite <- (Nat.add_0_r (half_base s h)) in Hr.
      pose proof (moved_splice s (with_flash s f) h 0 (blank (half s)) Hp Hh) as Hm.
      unfold splice in Hm at 2. rewrite take_0, app_nil_l, drop_ge, app_nil_r in Hm.
      * apply Hm; [by apply frame_with_flash|unfold blank; len|done].
      * rewrite length_hv by done. unfold blank. len.
    + destruct Hr. split; [done|by apply same_with_flash].
Qed.

Lemma length_half_header q : length (half_header q) = HEADER_LEN.
Proof. reflexivity. Qed.

Lemma drop_header q b : drop HEADER_LEN (half_header q ++ b) = b.
Proof. reflexivity. Qed.

Lemma take_header q b : take HEADER_LEN (half_header q ++ b) = half_header q.
Proof. reflexivity. Qed.

Lemma write_header_spec s h q :
  placed s → (h ≤ 1)%nat → (HEADER_LEN ≤ half s)%nat →
  take HEADER_LEN (hv s h) = blank HEADER_LEN →
  wp (write_header h q) (λ r s',
    match r with
    | Ok _ => moved s s' h (half_header q ++ drop HEADER_LEN (hv s h))
    | Err e => fails (flash s) e ∧ same s s'
    end) s.
Proof.
  intros Hp Hh Hle Ht. pose proof Hp as (_ & _ & _ & Hl). unfold write_header.
  apply wp_bind, wp_gets, wp_on_flash. unfold wp.
  pose proof (write_law (flash s) (half_base s h) (half_header q)) as Hw.
  destruct (flash_write _ _ _) as [r f]. cbn [fst snd]. rewrite length_half_header in Hw.
  destruct Hw as [Hrel Hr].
  - etrans; [apply gr_write|by apply placed_align].
  - etrans; [apply gr_write|apply gr_header].
  - unfold half_base. nia.
  - rewrite <- Ht. unfold hv. rewrite region_take by lia. done.
  - destruct r as [[]|[]]; cbn [map_err].
    + rewrite <- (Nat.add_0_r (half_base s h)) in Hr.
      pose proof (moved_splice s (with_flash s f) h 0 (half_header q) Hp Hh) as Hm.
      unfold splice in Hm at 2. rewrite take_0, app_nil_l in Hm.
      apply Hm; [by apply frame_with_flash|rewrite length_half_header; lia|done].
    + destruct Hr. split; [done|by apply same_with_flash].
Qed.

(** ** The state of a store *)

(** The sequence number in the header of a half. *)
Definition half_seq b : option Z :=
  if bool_decide (take 4 b = MAGIC) then Some (from_le (region 4 4 b)) else None.

(** A half without a header, or with the one before [sq]. *)
Definition stale (sq : Z) b : Prop :=
  match half_seq b with None => True | Some q => uint 32 q ∧ sq = wrap 32 (q + 1) end.

(** Half [act] holds the header [sq] and the log [es]; the other half has no
    header, or an older one whose erasure did not happen. *)
Definition image s (act : nat) (sq : Z) (es : list entry) : Prop :=
  half_log s act es ∧ uint 32 sq ∧ take HEADER_LEN (hv s act) = half_header sq ∧
  stale sq (hv s (1 - act)).

Definition inv s es : Prop :=
  image s (active s) (seq s) es ∧ tail s = (HEADER_LEN + length (log es))%nat.

(** Nothing outside the two halves changes. *)
Definition confined s s' : Prop :=
  base s' = base s ∧ half s' = half s ∧ (reliable (flash s') ↔ reliable (flash s)) ∧
  agree_off (base s) (base s + 2 * half s) (cells (flash s)) (cells (flash s')).

#[global] Instance confined_preorder : PreOrder confined.
Proof.
  unfold confined. split.
  - intros s. by split_and!.
  - intros s1 s2 s3 (H1 & H2 & H3 & H4) (H5 & H6 & H7 & H8).
    rewrite H1, H2 in H8. split_and!; [congruence..| |by etrans]. by rewrite H7.
Qed.

Lemma moved_confined s s' h b : (h ≤ 1)%nat → moved s s' h b → confined s s'.
Proof.
  intros Hh ((? & ? & _ & _ & _ & ?) & _ & Hag). split_and!; [done..|].
  eapply agree_off_weaken; [| |done]; unfold half_base; nia.
Qed.

Lemma confined_fails s s' er : confined s s' → fails (flash s') er ↔ fails (flash s) er.
Proof. unfold fails. by intros (_ & _ & -> & _). Qed.

Lemma same_confined s s' : same s s' → confined s s'.
Proof. intros H. eapply (moved_confined _ _ 0); [lia|by apply moved_same]. Qed.

Lemma half_seq_header q b : uint 32 q → half_seq (half_header q ++ b) = Some q.
Proof.
  intros Hq. unfold half_seq. rewrite bool_decide_true by done. f_equal.
  change (region 4 4 _) with (to_le 4 q). by apply from_to_le.
Qed.

Lemma half_seq_take b : (HEADER_LEN ≤ length b)%nat → half_seq b = half_seq (take HEADER_LEN b).
Proof.
  intros Hl. unfold half_seq. rewrite take_take. change (4 `min` HEADER_LEN)%nat with 4%nat.
  destruct (bool_decide _); [|done]. f_equal. f_equal.
  change (take HEADER_LEN b) with (region 0 HEADER_LEN b). rewrite region_region; [done|].
  unfold HEADER_LEN. lia.
Qed.

Lemma half_seq_blank b : take HEADER_LEN b = blank HEADER_LEN → half_seq b = None.
Proof.
  intros Hb. rewrite half_seq_take, Hb; [done|]. apply (f_equal length) in Hb.
  unfold blank in Hb. rewrite length_take, length_replicate in Hb. lia.
Qed.

Lemma image_header s act sq es : image s act sq es → half_seq (hv s act) = Some sq.
Proof.
  intros ((Hp & Ha & _ & Hh) & Hu & Ht & _). rewrite <- (take_drop HEADER_LEN (hv s act)), Ht.
  by apply half_seq_header.
Qed.

Lemma located_elem p at_ es : p ∈ located at_ es → p.2 ∈ es.
Proof.
  revert at_. induction es as [|e es IH]; intros at_; simpl; [by intros ?%elem_of_nil|].
  intros [->|Hin]%elem_of_cons; [by left|]. right. by eapply IH.
Qed.

Lemma kept_ok es : Forall e_ok es → Forall e_ok (kept es).
Proof.
  intros Hok. apply Forall_forall. intros e (p & -> & Hp)%list_elem_of_fmap.
  apply list_elem_of_In, filter_In in Hp as [Hp _]. apply list_elem_of_In, located_elem in Hp.
  rewrite Forall_forall in Hok. by apply Hok.
Qed.

(** The other half may change, as long as its header stays stale. *)
Lemma inv_other s s' es b :
  inv s es → moved s s' (1 - active s) b → stale (seq s) b → inv s' es.
Proof.
  intros [(Hlog & Hsq & Hhd & _) Htl] Hm Hb. pose proof Hlog as (_ & Hact & _).
  assert (1 - (1 - active s) = active s)%nat as Hinv by lia.
  pose proof (moved_other _ _ _ _ (Nat.le_sub_l 1 _) Hm) as Ho. rewrite Hinv in Ho.
  pose proof (moved_half_log _ _ _ _ es (Nat.le_sub_l 1 _) Hm) as Hl'. rewrite Hinv in Hl'.
  pose proof Hm as ((_ & _ & Ha & Hs & Ht & _) & Hbv & _).
  split; [|by rewrite Ht]. rewrite Ha, Hs. split_and!; [by apply Hl'|done|by rewrite Ho|by rewrite Hbv].
Qed.

(** Once the header of the draft is written, the store can switch to it. *)
Lemma switch_inv s s' es q b g out :
  inv s es → q = wrap 32 (seq s + 1) → holds b HEADER_LEN (kept es) →
  out = (HEADER_LEN + length (log (kept es)))%nat →
  moved s s' (1 - active s) (half_header q ++ drop HEADER_LEN b) →
  inv (with_stats g (with_log (1 - active s) q out s')) (kept es).
Proof.
  intros Hi Hq [Hd3 Hd4] Hout Hm. pose proof Hi as [Him _].
  pose proof (image_header _ _ _ _ Him) as Hold.
  destruct Him as ((Hp & Hact & Hok & _) & Hsq & _).
  assert (1 - (1 - active s) = active s)%nat as Hinv by lia.
  pose proof (moved_other _ _ _ _ (Nat.le_sub_l 1 _) Hm) as Ho. rewrite Hinv in Ho.
  pose proof (moved_placed _ _ _ _ Hm Hp) as Hp'. destruct Hm as (_ & Hb & _).
  split; [|done]. cbn [active seq with_stats with_log].
  change (image s' (1 - active s) q (kept es)). split_and!.
  - split_and!; [done|lia|by apply kept_ok|]. rewrite Hb.
    assert (length (half_header q ++ drop HEADER_LEN b) = length b) as Hlb.
    { rewrite length_app, length_drop, length_half_header. lia. }
    split; [by rewrite Hlb|]. by rewrite drop_header, Hlb.
  - subst q. by apply uint_wrap.
  - by rewrite Hb, take_header.
  - unfold stale. by rewrite Hinv, Ho, Hold.
Qed.

Lemma stale_blank q b : take HEADER_LEN b = blank HEADER_LEN → stale q b.
Proof. intros H. unfold stale. by rewrite half_seq_blank. Qed.

Lemma drafted_blank n : (HEADER_LEN ≤ n)%nat → drafted (blank n) [].
Proof.
  intros Hn. split; unfold blank; [rewrite take_replicate; f_equal; lia|].
  split; [rewrite length_replicate; lia|]. rewrite drop_replicate, length_replicate.
  change (log []) with (@nil Z). rewrite app_nil_l. unfold blank. f_equal. cbn [length]. lia.
Qed.

(** Compaction, on every outcome.  A failure before the new header is written
    leaves the log where it was and the new half without a header; one after it
    leaves both halves with a header, the new one newer. *)
Lemma compact_spec s es :
  inv s es →
  wp compact (λ r s', confined s s' ∧
    match r with
    | Ok _ => inv s' (kept es)
    | Err e => fails (flash s) e ∧ (inv s' es ∨ inv s' (kept es))
    end) s.
Proof.
  intros Hi. pose proof Hi as [(Hlog & _ & _ & Hst) _]. pose proof Hlog as (Hp & Hact & _ & [Hge _]).
  rewrite (length_hv s _ Hp Hact) in Hge. pose proof (Nat.le_sub_l 1 (active s)) as Hnew.
  assert (1 - (1 - active s) = active s)%nat as Hinv by lia.
  unfold compact. apply wp_bind, wp_gets, wp_bind.
  eapply wp_mono; [by apply erase_half_spec|]. intros [[]|e] s1 H1.
  2: { destruct H1 as [? Hs]. split; [by apply same_confined|]. split; [done|]. left.
       eapply inv_other; [done|by apply moved_same|done]. }
  pose proof H1 as (Hf1 & Hb1 & _). apply wp_bind, wp_gets, wp_bind.
  pose proof (moved_half_log _ _ _ _ es Hnew H1) as Hl1. rewrite Hinv in Hl1. specialize (Hl1 Hlog).
  eapply wp_mono.
  { apply (compact_loop_spec (half s1) s1 (active s) es [] es []); [done|done| |done|].
    - rewrite Hb1. by apply drafted_blank.
    - destruct Hl1 as (? & ? & _ & ?). by eapply holds_fuel. }
  intros [out|e] s2 (b2 & Hm2 & H2); pose proof (moved_trans _ _ _ _ _ _ H1 Hm2) as Hm.
  2: { destruct H2 as [Hfa Ht]. split; [by eapply moved_confined|].
       rewrite <- (fails_frame _ _ _ Hf1). split; [done|].
       left. eapply inv_other; [done..|by apply stale_blank]. }
  destruct H2 as [[Ht2 Hd2] Hout]. pose proof Hm as (Hf2 & Hb2 & _).
  pose proof (moved_placed _ _ _ _ Hm Hp) as Hp2.
  apply wp_bind, wp_gets, wp_bind. assert (seq s2 = seq s ∧ half s2 = half s) as [-> Hh2]
    by (by destruct Hf2 as (_ & ? & _ & ? & _)).
  eapply wp_mono; [apply write_header_spec; [done|done|lia|by rewrite Hb2]|].
  rewrite Hb2. intros [[]|e] s3 H3.
  2: { destruct H3 as [Hfa Hs]. assert (moved s s3 (1 - active s) b2) as Hm3.
       { eapply moved_trans; [done|]. rewrite <- Hb2. by apply moved_same. }
       split; [by eapply moved_confined|]. rewrite <- (fails_frame _ _ _ Hf2). split; [done|].
       left. eapply inv_other; [done..|by apply stale_blank]. }
  pose proof (moved_trans _ _ _ _ _ _ Hm H3) as Hm3. apply wp_bind, wp_modify.
  pose proof (switch_inv s s3 es _ b2 StoreStats.compacted out Hi eq_refl Hd2 Hout Hm3) as Hi4.
  pose proof (moved_confined _ _ _ _ Hnew Hm3) as Hc3. pose proof Hm3 as (Hf3 & _).
  set (s4 := with_stats _ _) in *. assert (confined s s4) as Hc4 by exact Hc3.
  eapply wp_mono; [apply erase_half_spec; [exact (moved_placed _ _ _ _ Hm3 Hp)|done]|].
  intros [[]|e] s5 H5.
  - split; [etrans; [done|exact (moved_confined _ _ _ _ Hact H5)]|].
    apply (inv_other s4 s5 _ (blank (half s4))); [done|by simpl; rewrite Hinv|].
    apply stale_blank. unfold blank. rewrite take_replicate. f_equal.
    destruct Hc4 as (_ & -> & _). lia.
  - destruct H5 as [Hfa Hs]. split; [etrans; [done|by apply same_confined]|]. split.
    + by rewrite <- (confined_fails s s4).
    + right. pose proof Hi4 as [(_ & _ & _ & Hst4) _]. eapply inv_other; [done|by apply moved_same|done].
Qed.

End log.
