(* ===== verification/NorFlashMap.v ===== *)
(** * The flash store is a map

    The log of [NorFlashLog] read as a map from keys to records: compaction
    does not change it, the operations of the store act on it as the contract
    of [Storage] demands, reopening finds it again, and a power loss during a
    store touches at most the record being written. *)

From S2P Require Import Prelude Heapless Storage NorFlash NorFlashLog.

#[export] Instance entry_eq_dec : EqDecision entry.
Proof. solve_decision. Defined.

Section map.
Import NorFlashStore.
Context {F : Type} `{!NorFlash F, !NorFlashLaws F, !Granules F}.
Abbreviation st := (NorFlashStore.t F).
Abbreviation M := (SE st StorageError).
Implicit Types (s : st) (b d : list Z) (e : entry) (l : list (nat * entry)).

(** ** The map a log stands for *)

(** What one entry does to the record found for [key] so far. *)
Definition settle {A} (hd : A → LogRecord.t) (key : Key) (acc : option A) (x : A) : option A :=
  if (LogRecord.flags (hd x) =? FLAG_KIND_ERASED) && (LogRecord.kind (hd x) =? code (kind key)) then None
  else if LogRecord.matches (hd x) key then
    if LogRecord.flags (hd x) =? FLAG_SET then Some x else None
  else acc.

(** The entry that decides [key]. *)
Definition lookup_log (es : list entry) (key : Key) : option entry :=
  foldl (settle e_header key) None es.
Definition decided l (key : Key) : option (nat * entry) :=
  foldl (settle (λ p, e_header p.2) key) None l.

Lemma found_decided l key : found key l = (λ p, (p.1, e_header p.2)) <$> decided l key.
Proof.
  unfold found, decided. change (@None (nat * LogRecord.t)) with
    ((λ p : nat * entry, (p.1, e_header p.2)) <$> None).
  generalize (@None (nat * entry)). induction l as [|p l IH]; intros acc; [done|].
  simpl foldl. rewrite <- IH. f_equal. unfold find_step, settle.
  repeat (case_match; try done).
Qed.

Lemma decided_snd l key : snd <$> decided l key = lookup_log l.*2 key.
Proof.
  unfold lookup_log, decided. change (@None entry) with (snd <$> @None (nat * entry)).
  generalize (@None (nat * entry)). induction l as [|p l IH]; intros acc; [done|].
  simpl. rewrite IH. f_equal. unfold settle. repeat (case_match; try done).
Qed.

Lemma located_snd at_ es : (located at_ es).*2 = es.
Proof. revert at_. induction es as [|e es IH]; intros at_; simpl; [done|]. by rewrite IH. Qed.

Lemma settle_elem {A} (hd : A → LogRecord.t) key (xs : list A) acc (x : A) :
  foldl (settle hd key) acc xs = Some x →
  acc = Some x ∨ x ∈ xs ∧ LogRecord.flags (hd x) = FLAG_SET ∧ LogRecord.matches (hd x) key = true.
Proof.
  revert acc. induction xs as [|y xs IH]; intros acc; simpl; [by left|].
  intros [H|(? & ? & ?)]%IH; [|right; split_and!; [by right|done..]].
  unfold settle in H. destruct (_ && _); [done|].
  destruct (LogRecord.matches (hd y) key) eqn:Em; [|by left].
  destruct (Z.eqb_spec (LogRecord.flags (hd y)) FLAG_SET); [|done]. simplify_eq.
  right. split_and!; [by left|done..].
Qed.

Lemma decided_elem l key p :
  decided l key = Some p →
  p ∈ l ∧ LogRecord.flags (e_header p.2) = FLAG_SET ∧ LogRecord.matches (e_header p.2) key = true.
Proof. intros [?|?]%settle_elem; [done|done]. Qed.

Lemma matches_key (r : LogRecord.t) key :
  LogRecord.matches r key = true ↔
  from_code (LogRecord.kind r) = Some (kind key) ∧ LogRecord.id r = id key.
Proof.
  unfold LogRecord.matches. rewrite andb_true_iff, !Z.eqb_eq. split; intros [H1 H2]; split; try done.
  - rewrite H1. apply from_code_code.
  - by apply from_code_Some.
Qed.

(** The map, and the records whose checksum holds. *)
Definition log_step (m : gmap Key entry) (e : entry) : gmap Key entry :=
  match from_code (e_kind e) with
  | None => m
  | Some k =>
      if e_flags e =? FLAG_KIND_ERASED then filter (λ p, kind p.1 ≠ k) m
      else if e_flags e =? FLAG_SET then <[MkKey k (e_id e) := e]> m
      else delete (MkKey k (e_id e)) m
  end.
Definition log_map (es : list entry) : gmap Key entry := foldl log_step ∅ es.
Definition readable (e : entry) : option (list Z) := if intact e then Some (e_data e) else None.
Definition log_view (es : list entry) : gmap Key (list Z) := omap readable (log_map es).

Lemma log_step_lookup m e key : log_step m e !! key = settle e_header key (m !! key) e.
Proof.
  unfold log_step, settle. simpl. destruct (from_code (e_kind e)) as [k|] eqn:Ek.
  - apply from_code_Some in Ek. destruct (Z.eqb_spec (e_flags e) FLAG_KIND_ERASED) as [Hf|Hf]; simpl.
    + destruct (Z.eqb_spec (e_kind e) (code (kind key))) as [Hk|Hk].
      * rewrite Ek in Hk. apply code_inj in Hk as ->. rewrite map_lookup_filter.
        destruct (m !! key); simpl; [|done]. by rewrite option_guard_False by naive_solver.
      * assert (LogRecord.matches (e_header e) key = false) as ->.
        { unfold LogRecord.matches. simpl. by rewrite (proj2 (Z.eqb_neq _ _) Hk). }
        rewrite map_lookup_filter. destruct (m !! key); simpl; [|done].
        rewrite option_guard_True; [done|]. simpl. intros <-. done.
    + destruct (LogRecord.matches (e_header e) key) eqn:Em.
      * apply matches_key in Em as [Hk Hi]. simpl in Hk, Hi. rewrite Ek, from_code_code in Hk.
        injection Hk as ->. assert (MkKey (kind key) (e_id e) = key) as -> by (by rewrite Hi; destruct key).
        destruct (_ =? FLAG_SET); [by rewrite lookup_insert_eq|by rewrite lookup_delete_eq].
      * assert (MkKey k (e_id e) ≠ key) as Hne.
        { intros <-. unfold LogRecord.matches in Em. simpl in Em. by rewrite Ek, !Z.eqb_refl in Em. }
        destruct (_ =? FLAG_SET); [by rewrite lookup_insert_ne|by rewrite lookup_delete_ne].
  - assert (e_kind e ≠ code (kind key)) as Hk by (intros H; by rewrite H, from_code_code in Ek).
    assert (LogRecord.matches (e_header e) key = false) as ->.
    { unfold LogRecord.matches. simpl. by rewrite (proj2 (Z.eqb_neq _ _) Hk). }
    by rewrite (proj2 (Z.eqb_neq _ _) Hk), andb_false_r.
Qed.

Lemma log_map_lookup es key : log_map es !! key = lookup_log es key.
Proof.
  unfold log_map, lookup_log. rewrite <- (lookup_empty (M:=gmap Key) (A:=entry) key).
  generalize (∅ : gmap Key entry). induction es as [|e es IH]; intros m; [done|].
  simpl. by rewrite IH, log_step_lookup.
Qed.

Lemma log_view_lookup es key : log_view es !! key = lookup_log es key ≫= readable.
Proof. unfold log_view. by rewrite lookup_omap, log_map_lookup. Qed.

Lemma log_map_snoc es e : log_map (es ++ [e]) = log_step (log_map es) e.
Proof. unfold log_map. by rewrite foldl_app. Qed.

(** What appending a record does to the map. *)
Lemma log_view_set es k i d :
  log_view (es ++ [Entry (code k) FLAG_SET i (crc16 d) d]) = <[MkKey k i := d]> (log_view es).
Proof.
  unfold log_view. rewrite log_map_snoc. unfold log_step. simpl. rewrite from_code_code.
  apply map_eq. intros j. rewrite lookup_omap. destruct (decide (j = MkKey k i)) as [->|].
  - rewrite !lookup_insert_eq. simpl. unfold readable, intact. simpl. by rewrite Z.eqb_refl.
  - rewrite !lookup_insert_ne by done. by rewrite lookup_omap.
Qed.

Lemma log_view_erased es k i d :
  log_view (es ++ [Entry (code k) FLAG_ERASED i (crc16 d) d]) = delete (MkKey k i) (log_view es).
Proof.
  unfold log_view. rewrite log_map_snoc. unfold log_step. simpl. rewrite from_code_code.
  apply map_eq. intros j. rewrite lookup_omap. destruct (decide (j = MkKey k i)) as [->|].
  - by rewrite !lookup_delete_eq.
  - rewrite !lookup_delete_ne by done. by rewrite lookup_omap.
Qed.

Lemma log_view_kind_erased es k i d :
  log_view (es ++ [Entry (code k) FLAG_KIND_ERASED i (crc16 d) d]) = filter (not_kind k) (log_view es).
Proof.
  unfold log_view. rewrite log_map_snoc. unfold log_step. simpl. rewrite from_code_code.
  apply map_eq. intros j. rewrite lookup_omap, !map_lookup_filter, lookup_omap. unfold not_kind.
  destruct (log_map es !! j) as [e|]; simpl; [|done].
  destruct (decide (kind j = k)).
  - rewrite option_guard_False by (simpl; naive_solver). destruct (readable e); simpl; [|done].
    by rewrite option_guard_False by (simpl; naive_solver).
  - rewrite option_guard_True by done. simpl. destruct (readable e); simpl; [|done].
    by rewrite option_guard_True by done.
Qed.

(** Another key is not touched by any entry for this one. *)
Lemma log_view_other es k i fl crc d key :
  key ≠ MkKey k i → fl ≠ FLAG_KIND_ERASED →
  log_view (es ++ [Entry (code k) fl i crc d]) !! key = log_view es !! key.
Proof.
  intros Hne Hfl. unfold log_view. rewrite !lookup_omap, log_map_snoc. unfold log_step. simpl.
  rewrite from_code_code, (proj2 (Z.eqb_neq _ _) Hfl).
  destruct (fl =? FLAG_SET); [by rewrite lookup_insert_ne|by rewrite lookup_delete_ne].
Qed.

(** ** Compaction does not change the map *)

Lemma located_NoDup at_ es : NoDup (located at_ es).*1 ∧ Forall (λ p, at_ ≤ p.1)%nat (located at_ es).
Proof.
  revert at_. induction es as [|e es IH]; intros at_; simpl; [by split; constructor|].
  destruct (IH (at_ + e_size e)%nat) as [Hn Hf]. pose proof (e_size_spec e) as [Hs _].
  unfold HEADER_LEN in Hs. split.
  - apply NoDup_cons. split; [|done]. intros (p & Hp & Hin)%list_elem_of_fmap.
    rewrite Forall_forall in Hf. specialize (Hf p Hin). simpl in Hf. lia.
  - constructor; [done|]. eapply Forall_impl; [done|]. simpl. lia.
Qed.

(** An entry is live exactly when it decides its key. *)
Lemma live_decided es p key :
  p ∈ located HEADER_LEN es → LogRecord.matches (e_header p.2) key = true →
  live_at es p.1 (e_header p.2) = true ↔ decided (located HEADER_LEN es) key = Some p.
Proof.
  intros Hp Hm. apply matches_key in Hm as Hk. destruct Hk as [Hk Hi].
  unfold live_at. rewrite Hk, found_decided, Hi.
  replace (MkKey (kind key) (id key)) with key by by destruct key.
  destruct (decided _ key) as [q|] eqn:Ed; simpl.
  - apply decided_elem in Ed as (Hq & Hs & _). split.
    + rewrite andb_true_iff, Nat.eqb_eq. intros [_ Ho]. f_equal.
      destruct (located_NoDup HEADER_LEN es) as [Hnd _].
      apply list_elem_of_lookup in Hp as [i Hpi]. apply list_elem_of_lookup in Hq as [j Hqj].
      assert (i = j) as ->; [|congruence].
      apply (NoDup_lookup (located HEADER_LEN es).*1 i j p.1 Hnd); rewrite list_lookup_fmap.
      * by rewrite Hpi.
      * by rewrite Hqj, <- Ho.
    + intros [= ->]. simpl in Hs. by rewrite Hs, Nat.eqb_refl.
  - by rewrite andb_false_r.
Qed.

(** In a list of plain records with one candidate for [key], it decides it. *)
Lemma decided_unique l key q :
  (∀ p, p ∈ l → LogRecord.flags (e_header p.2) = FLAG_SET ∧
    (LogRecord.matches (e_header p.2) key = true → p = q)) →
  decided l key = if decide (q ∈ l ∧ LogRecord.matches (e_header q.2) key = true) then Some q else None.
Proof.
  intros Hl. unfold decided. assert (∀ acc, acc = None ∨ acc = Some q →
    foldl (settle (λ p : nat * entry, e_header p.2) key) acc l =
      if decide (q ∈ l ∧ LogRecord.matches (e_header q.2) key = true) then Some q else acc) as H.
  2: { by apply H; left. }
  induction l as [|p l IH]; intros acc Ha; cbn [foldl].
  { rewrite decide_False; [done|]. by intros [?%elem_of_nil _]. }
  destruct (Hl p) as [Hf Hm]; [by left|].
  assert (settle (λ p : nat * entry, e_header p.2) key acc p =
    if LogRecord.matches (e_header p.2) key then Some p else acc) as ->.
  { unfold settle. cbv beta. by rewrite Hf. }
  destruct (LogRecord.matches (e_header p.2) key) eqn:Em.
  - rewrite (Hm eq_refl) in *. rewrite IH; [|intros; apply Hl; by right|by right].
    rewrite (decide_True (P := q ∈ q :: l ∧ _)); [by destruct (decide _)|]. split; [by left|done].
  - rewrite IH; [|intros; apply Hl; by right|done].
    apply decide_ext. rewrite elem_of_cons. split; [tauto|]. intros [[->|?] ?]; [congruence|done].
Qed.

Lemma kept_lookup es key :
  lookup_log (kept es) key =
    match lookup_log es key with Some e => if intact e then Some e else None | None => None end.
Proof.
  set (l := located HEADER_LEN es). assert (lookup_log es key = snd <$> decided l key) as ->.
  { unfold l. by rewrite decided_snd, located_snd. }
  unfold kept. fold l. rewrite <- decided_snd.
  assert (∀ p, p ∈ List.filter (keep es) l ↔ p ∈ l ∧ keep es p = true) as Hin.
  { intros p. by rewrite list_elem_of_In, filter_In, <- list_elem_of_In. }
  assert (∀ p, keep es p = true → LogRecord.flags (e_header p.2) = FLAG_SET) as Hset.
  { intros p. unfold keep, live_at. rewrite !andb_true_iff, Z.eqb_eq. tauto. }
  destruct (decided l key) as [q|] eqn:Ed; cbn [fmap option_fmap option_map].
  - pose proof (decided_elem _ _ _ Ed) as (Hq & Hf & Hm).
    rewrite (decided_unique _ _ q).
    + assert (keep es q = intact q.2) as Hk.
      { unfold keep. by rewrite (proj2 (live_decided es q key Hq Hm) Ed). }
      destruct (intact q.2) eqn:Ei.
      * rewrite decide_True; [done|]. split; [|done]. apply Hin. by rewrite Hk.
      * rewrite decide_False; [done|]. intros [[_ Hk']%Hin _]. congruence.
    + intros p [Hp Hk]%Hin. split; [by apply Hset|]. intros Hm'.
      assert (decided l key = Some p) as Hd; [|congruence].
      apply live_decided; [done..|]. unfold keep in Hk. by apply andb_true_iff in Hk as [? _].
  - destruct (decided (List.filter (keep es) l) key) as [p|] eqn:Ep; [|done].
    apply decided_elem in Ep as ([Hp Hk]%Hin & _ & Hm). exfalso.
    assert (decided l key = Some p) as Hd; [|congruence].
    apply live_decided; [done..|]. unfold keep in Hk. by apply andb_true_iff in Hk as [? _].
Qed.

Lemma log_view_kept es : log_view (kept es) = log_view es.
Proof.
  apply map_eq. intros key. rewrite !log_view_lookup, kept_lookup.
  destruct (lookup_log es key) as [e|]; simpl; [|done]. unfold readable at 2.
  destruct (intact e) eqn:Ei; simpl; [|done]. unfold readable. by rewrite Ei.
Qed.

(** ** The map of a store *)

(** The entries in a half, read off its octets. *)
Fixpoint parsed (fuel : nat) b (at_ : nat) : list entry :=
  match fuel with
  | O => []
  | S fuel =>
      if (length b <? at_ + HEADER_LEN)%nat then []
      else
        match LogRecord.parse (region at_ HEADER_LEN b) with
        | None => []
        | Some r =>
            Entry (LogRecord.kind r) (LogRecord.flags r) (LogRecord.id r) (LogRecord.crc r)
              (region (at_ + HEADER_LEN) (LogRecord.len r) b)
            :: parsed fuel b (at_ + LogRecord.size F r)
        end
  end.

Lemma parsed_holds fuel b at_ es :
  holds b at_ es → Forall e_ok es → (length es ≤ fuel)%nat → parsed fuel b at_ = es.
Proof.
  revert at_ es. induction fuel as [|fuel IH]; intros at_ es Hh Hok Hf.
  { destruct es; [done|simpl in Hf; lia]. }
  pose proof (holds_length _ _ _ Hh) as Hl. cbn [parsed].
  destruct es as [|e es].
  - destruct (Nat.ltb_spec (length b) (at_ + HEADER_LEN)); [done|]. destruct Hh as [_ Hd].
    unfold region. rewrite Hd. change (log []) with (@nil Z). rewrite app_nil_l. unfold blank.
    rewrite take_replicate, Nat.min_l by (simpl; lia). done.
  - rewrite log_cons, length_app, length_e_bytes in Hl. pose proof (e_size_spec e) as [Hs _].
    rewrite (proj2 (Nat.ltb_ge _ _)) by lia. apply holds_cons in Hh as [Hr Hh].
    apply Forall_cons in Hok as [He Hok].
    assert (∀ p n, (p + n ≤ e_size e)%nat → region (at_ + p) n b = region p n (e_bytes e)) as Hreg.
    { intros p n Hpn. rewrite <- Hr. by rewrite region_region. }
    assert (region at_ HEADER_LEN b = e_head e) as ->.
    { rewrite <- (Nat.add_0_r at_), Hreg by lia. unfold e_bytes.
      by apply (region_app 0 HEADER_LEN []). }
    rewrite (parse_head e He).
    assert (region (at_ + HEADER_LEN) (LogRecord.len (e_header e)) b = e_data e) as ->.
    { rewrite Hreg by done. unfold e_bytes. by apply region_app. }
    fold (e_size e). rewrite (IH _ es) by (done || (simpl in Hf; lia)). by destruct e.
Qed.

Definition nor_view s : gmap Key (list Z) :=
  log_view (parsed (half s) (hv s (active s)) HEADER_LEN).

Lemma inv_view s es : inv s es → nor_view s = log_view es.
Proof.
  intros [((Hp & Ha & Hok & Hh) & _) _]. unfold nor_view.
  by rewrite (parsed_holds _ _ _ es) by (done || by eapply holds_fuel).
Qed.

(** ** Appending *)

Lemma ccitt_octet_uint c x : uint 16 c → uint 8 x → uint 16 (ccitt_octet c x).
Proof.
  intros Hc Hx. unfold ccitt_octet.
  assert (∀ n z, uint 16 z → uint 16 (Nat.iter n ccitt_bit z)) as Hit.
  { induction n as [|n IH]; intros z Hz; simpl; [done|]. unfold ccitt_bit at 1.
    case_match; [apply uint_lxor; [lia| |vm_compute; split; congruence]|]; by apply uint_wrap. }
  apply Hit, uint_lxor; [lia|done|]. unfold uint in *. rewrite Z.shiftl_mul_pow2 by lia.
  change (2 ^ 8) with 256 in *. change (2 ^ 16) with 65536. lia.
Qed.

Lemma crc16_uint d : bytes_ok d → uint 16 (crc16 d).
Proof.
  unfold crc16, crc16_update. assert (uint 16 0xFFFF) as H0 by (vm_compute; split; congruence).
  revert H0. generalize 0xFFFF. intros c Hc Hd. revert c Hc.
  induction Hd as [|x d Hx Hd IH]; intros c Hc; simpl; [done|]. by apply IH, ccitt_octet_uint.
Qed.

(** An entry of which only [k] octets of the payload reached the flash. *)
Definition damaged (e : entry) (k : nat) : entry :=
  Entry (e_kind e) (e_flags e) (e_id e) (e_crc e)
    (take k (e_data e) ++ blank (length (e_data e) - k)).

Lemma damaged_spec e k :
  length (e_data (damaged e k)) = length (e_data e) ∧
  (e_ok e → e_ok (damaged e k)) ∧ e_head (damaged e k) = e_head e.
Proof.
  assert (length (e_data (damaged e k)) = length (e_data e)) as Hl by (simpl; unfold blank; len).
  split_and!; [done| |]; unfold e_ok, e_head; by rewrite Hl.
Qed.

Lemma image_snoc s s' es e :
  inv s es → e_ok e → frame s s' → (tail s + e_size e ≤ half s)%nat →
  cells (flash s') = splice (half_base s (active s) + tail s) (e_head e ++ e_data e) (cells (flash s)) →
  image s' (active s) (seq s) (es ++ [e]) ∧ confined s s'.
Proof.
  intros [((Hp & Ha & Hok & Hh) & Hq & Ht & Hst) Htl] He Hf Hfit Hc.
  pose proof (e_size_spec e) as [Hs _]. pose proof (length_hv _ _ Hp Ha) as Hlen.
  assert (moved s s' (active s) (splice (tail s) (e_head e ++ e_data e) (hv s (active s)))) as Hm.
  { apply moved_splice; [done..| |done]. rewrite length_app, length_e_head. unfold HEADER_LEN in Hs. lia. }
  pose proof Hm as (_ & Hb & _). split; [|by eapply moved_confined].
  split_and!; [|done| |by rewrite (moved_other _ _ _ _ Ha Hm)].
  - split_and!; [by eapply moved_placed|done|apply Forall_app_2; [done|by apply Forall_singleton]|].
    rewrite Hb, Htl. apply holds_snoc; [done|lia].
  - rewrite Hb, take_splice_low; [done|lia|lia].
Qed.

Lemma append_record_spec s es k fl i d :
  let e := Entry k fl i (crc16 d) d in
  inv s es → e_ok e → (tail s + e_size e ≤ half s)%nat →
  wp (append_record k fl i d (e_size e)) (λ r s', confined s s' ∧
    match r with
    | Ok _ => inv s' (es ++ [e])
    | Err er => fails (flash s) er ∧
        (image s' (active s) (seq s) es ∨ ∃ n, image s' (active s) (seq s) (es ++ [damaged e n]))
    end) s.
Proof.
  intros e Hinv He Hfit. pose proof Hinv as [((Hp & Ha & Hok & Hh) & Hq & Ht & Hst) Htl].
  pose proof (e_size_spec e) as [Hs _]. pose proof (length_hv _ _ Hp Ha) as Hlen.
  assert (erased (cells (flash s)) (half_base s (active s) + tail s) (half s - tail s)) as Her.
  { apply erased_half; [done|done|lia|]. destruct Hh as [_ Hd].
    rewrite Htl, <- drop_drop, Hd, drop_app_length, Hlen. f_equal. lia. }
  assert (align F | half_base s (active s) + tail s)%nat as Hal.
  { apply Nat.divide_add_r; [by apply placed_align|]. rewrite Htl.
    apply Nat.divide_add_r; [apply gr_header|apply log_align]. }
  pose proof (write_record_spec (cells (flash s)) _ _ (flash s) k fl i d Hal Her eq_refl) as Hw.
  cbv zeta in Hw. change (round_up _ _) with (e_size e) in Hw.
  specialize (Hw ltac:(lia)). change (record_header _ _ _ _ _ ++ d) with (e_head e ++ e_data e) in Hw.
  unfold append_record, wp in *. destruct (write_record _ _ _ _ _ _) as [[w|er] f]; cbn [fst snd] in *;
    destruct Hw as [Hrel Hw].
  - assert (frame s (with_flash s f)) as Hf by by apply frame_with_flash.
    destruct (image_snoc s (with_flash s f) es e Hinv He Hf Hfit Hw) as [Hi Hc].
    split; [done|]. split; [done|]. simpl. rewrite Htl, log_app, length_app, log_cons, length_app, length_e_bytes.
    change (log []) with (@nil Z). simpl. lia.
  - destruct Hw as [[_ Hnr] (n & Hn1 & Hn2 & Hn3)].
    assert (frame s (with_flash s f)) as Hf by by apply frame_with_flash.
    destruct (decide (n = 0)%nat) as [->|Hn0].
    + assert (same s (with_flash s f)) as Hsm.
      { apply same_with_flash; [|done]. by rewrite Hn3, take_0, splice_nil. }
      split; [by apply same_confined|]. split; [done|]. left.
      split_and!; [by eapply same_half_log; [exact Hsm|]|done|..].
      * by rewrite <- Ht, <- (same_hv _ _ _ Hsm).
      * pose proof (same_hv _ _ (1 - active s) Hsm) as Hsv.
        change (hv (with_stats StoreStats.failed (with_flash s f)) (1 - active s))
          with (hv (with_flash s f) (1 - active s)). by rewrite Hsv.
    + pose proof chunk_spec as [Hch _]. apply Nat.divide_pos_le in Hn1; [|lia].
      destruct (damaged_spec e (n - 16)) as (Hdl & Hdo & Hdh).
      destruct (image_snoc s (with_flash s f) es (damaged e (n - 16)) Hinv (Hdo He) Hf) as [Hi Hc].
      * unfold e_size, LogRecord.size, e_header in *. cbn [LogRecord.len] in *. by rewrite Hdl.
      * change (flash (with_flash s f)) with f. rewrite Hn3, Hdh. rewrite <- (splice_blank (cells (flash s)) _ (half s - tail s) _ (length d - (n - 16))).
        -- f_equal. rewrite take_app_ge by (rewrite length_e_head; lia). rewrite length_e_head.
           by rewrite <- app_assoc.
        -- done.
        -- rewrite length_app, length_e_head in Hn2. rewrite length_take, length_app, length_e_head. simpl in *.
           unfold HEADER_LEN in Hs. lia.
      * split; [done|]. split; [done|]. right. by exists (n - 16)%nat.
Qed.

Lemma inv_image s es : inv s es → image s (active s) (seq s) es.
Proof. by intros [? _]. Qed.

(** Appending, on every outcome.  [es0] is the log before the new record: the
    old one, or what a compaction kept of it. *)
Lemma append_spec s es k fl i d :
  let e := Entry k fl i (crc16 d) d in
  inv s es → uint 64 i → bytes_ok d →
  wp (append k fl i d) (λ r s', confined s s' ∧ ∃ es0, (es0 = es ∨ es0 = kept es) ∧
    match r with
    | Ok _ => inv s' (es0 ++ [e])
    | Err Full => inv s' es0 ∧
        (MAX_RECORD < length d ∨ half s < HEADER_LEN + length (log (F:=F) (kept es)) + e_size (F:=F) e)%nat
    | Err er => fails (flash s) er ∧ ∃ act sq,
        image s' act sq es0 ∨ ∃ n, image s' act sq (es0 ++ [damaged e n])
    end) s.
Proof.
  intros e Hinv Hi Hd. unfold append. destruct (Nat.ltb_spec MAX_RECORD (length d)) as [Hl|Hl].
  { split; [done|]. exists es. split; [by left|]. split; [done|by left]. }
  assert (e_ok e) as He by (split_and!; [by apply crc16_uint|done|done]).
  cbv zeta. change (round_up _ _) with (e_size e).
  assert (∀ s1 es0, confined s s1 → inv s1 es0 → (es0 = es ∨ es0 = kept es) →
    (tail s1 + e_size e ≤ half s1)%nat →
    wp (append_record k fl i d (e_size e)) (λ r s', confined s s' ∧ ∃ es0, (es0 = es ∨ es0 = kept es) ∧
      match r with
      | Ok _ => inv s' (es0 ++ [e])
      | Err Full => inv s' es0 ∧ (MAX_RECORD < length d ∨ half s < HEADER_LEN + length (log (kept es)) + e_size e)%nat
      | Err er => fails (flash s) er ∧ ∃ act sq,
          image s' act sq es0 ∨ ∃ n, image s' act sq (es0 ++ [damaged e n])
      end) s1) as Hrec.
  { intros s1 es0 Hc1 Hi1 Hes Hfit. eapply wp_mono; [by apply (append_record_spec s1 es0)|].
    intros r s' [Hc Hr]. split; [by etrans|]. exists es0. split; [done|].
    destruct r as [|er]; [done|]. destruct Hr as [Hf Hr].
    rewrite (confined_fails _ _ _ Hc1) in Hf. destruct Hf as [-> Hf]. split; [done|].
    by exists (active s1), (seq s1). }
  apply wp_bind, wp_gets.
  destruct (Nat.ltb_spec (half s) (tail s + e_size e)) as [Hfull|Hfit].
  2: { apply wp_bind, wp_ret. by apply (Hrec s es); [|done|left|]. }
  apply wp_bind, wp_bind. eapply wp_mono; [by apply compact_spec|].
  intros [[]|er] s1 [Hc1 H1].
  2: { split; [done|]. destruct H1 as [Hf H1]. pose proof Hf as [-> _].
       destruct H1 as [H1|H1]; eexists; (split; [by (left + right)|]); (split; [done|]);
         eexists _, _; left; by apply inv_image. }
  apply wp_bind, wp_gets.
  destruct (Nat.ltb_spec (half s1) (tail s1 + e_size e)) as [Hfull1|Hfit1].
  - split; [done|]. exists (kept es). split; [by right|]. split; [done|]. right.
    destruct H1 as [_ Ht1]. destruct Hc1 as (_ & Hh1 & _). rewrite <- Hh1, <- Ht1. done.
  - apply wp_ret. by apply (Hrec s1 (kept es)); [..|right|].
Qed.

(** ** Reading *)

Lemma inv_half_log s es : inv s es → half_log s (active s) es.
Proof. by intros [[? _] _]. Qed.

Lemma found_lookup es key :
  found key (located HEADER_LEN es) = None ↔ lookup_log es key = None.
Proof.
  rewrite found_decided. pose proof (decided_snd (located HEADER_LEN es) key) as Hs.
  rewrite located_snd in Hs. rewrite <- Hs. by destruct (decided _ key).
Qed.

(** What [load] returns for the entry that decides the key. *)
Definition load_result (o : option entry) (n : nat) : result (option (list Z)) StorageError :=
  match o with
  | None => Ok None
  | Some e => if (n <? length (e_data e))%nat then Err BufferTooSmall else Ok (readable e)
  end.

Lemma load_spec s es key n :
  inv s es →
  wp (load key n) (λ r s', same s s' ∧
    (fails (flash s) Io ∧ r = Err Io ∨ r = load_result (lookup_log es key) n)) s.
Proof.
  intros Hinv. pose proof (inv_half_log _ _ Hinv) as Hl. unfold load. apply wp_bind, wp_gets.
  pose proof (decided_snd (located HEADER_LEN es) key) as Hs. rewrite located_snd in Hs.
  eapply wp_reads; [by apply reads_find| |by intros; split; [|left]]. intros s1 H1.
  rewrite found_decided, <- Hs. destruct (decided _ key) as [[o e]|] eqn:Ed.
  2: { apply wp_ret. split; [done|]. by right. }
  apply decided_elem in Ed as (Hin & _). cbn [fmap option_fmap option_map fst snd load_result].
  change (LogRecord.len (e_header e)) with (length (e_data e)).
  destruct (Nat.ltb_spec n (length (e_data e))); [split; [done|by right]|].
  eapply wp_reads; [eapply reads_read_payload; [by eapply same_half_log|done|done]| |].
  - intros s2 H2. apply wp_ret. split; [by etrans|]. right. unfold readable. by destruct (intact e).
  - intros s2 H2 Hn. split; [by etrans|]. left. split; [|done]. split; [done|].
    destruct H1 as (_&_&_&_&_&_&Hr). by rewrite <- Hr.
Qed.

Lemma same_inv s s' es : same s s' → inv s es → inv s' es.
Proof.
  intros H [(Hl & Hq & Ht & Hst) Htl]. pose proof H as (_ & _ & Ha & Hs & Htt & _).
  split; [|by rewrite Htt]. rewrite Ha, Hs. split_and!; [by eapply same_half_log|done|..];
    by rewrite (same_hv _ _ _ H).
Qed.

(** Whether a walk for a live record of a kind finds one. *)
Lemma walked_live es k (l : list (nat * entry)) :
  walked (λ any at_ r, if LogRecord.kind r =? code k then
            if live_at es at_ r then (false, true) else (true, any) else (true, any)) false l =
    existsb (λ p, (e_kind p.2 =? code k) && live_at es p.1 (e_header p.2)) l.
Proof.
  induction l as [|[o e] l IH]; simpl; [done|]. change (LogRecord.kind (e_header e)) with (e_kind e).
  destruct (_ =? _); simpl; [|done]. by destruct (live_at _ _ _).
Qed.

Lemma erase_kind_search s es k :
  inv s es →
  reads (walk (active s) (λ (any : bool) at_ r,
    if LogRecord.kind r =? code k then
      s_active ← gets active;
      live ← is_live s_active at_ r;
      mret (if live : bool then (false, true) else (true, any))
    else mret (true, any)) false) s
    (existsb (λ p, (e_kind p.2 =? code k) && live_at es p.1 (e_header p.2)) (located HEADER_LEN es)).
Proof.
  intros Hinv. pose proof (inv_half_log _ _ Hinv) as Hl. rewrite <- walked_live.
  apply (reads_walk s (active s) es); [done|]. intros any at_ r s1 H1.
  destruct (_ =? _); [|apply reads_ret]. eapply reads_bind; [apply reads_gets|]. intros s2 H2.
  assert (active s1 = active s) as -> by (by destruct H1 as (_ & _ & ? & _)).
  eapply reads_bind; [apply reads_is_live, (same_half_log s); [by etrans|done]|]. intros s3 _.
  eapply reads_eq; [apply reads_ret|]. by destruct (live_at _ _ _).
Qed.

(** If there is none, no key of the kind has a record. *)
Lemma no_live_kind es k :
  existsb (λ p, (e_kind p.2 =? code k) && live_at es p.1 (e_header p.2)) (located HEADER_LEN es) = false →
  filter (not_kind k) (log_view es) = log_view es.
Proof.
  intros Hex. apply map_filter_id. intros j d Hj Hk. simpl in Hk. subst k.
  rewrite log_view_lookup in Hj. pose proof (decided_snd (located HEADER_LEN es) j) as Hs.
  rewrite located_snd in Hs. rewrite <- Hs in Hj.
  destruct (decided (located HEADER_LEN es) j) as [p|] eqn:Ed; [|done].
  pose proof (decided_elem _ _ _ Ed) as (Hin & _ & Hm).
  assert (existsb (λ p, (e_kind p.2 =? code (kind j)) && live_at es p.1 (e_header p.2))
    (located HEADER_LEN es) = true) as Ht; [|congruence].
  apply existsb_exists. exists p. split; [by apply list_elem_of_In|]. apply andb_true_iff. split.
  - apply matches_key in Hm as [Hk _]. apply from_code_Some in Hk. simpl in Hk. rewrite Hk. apply Z.eqb_refl.
  - by apply (live_decided es p j).
Qed.

(** ** Opening *)

Lemma reads_header s h :
  placed s → (h ≤ 1)%nat → (HEADER_LEN ≤ half s)%nat → reads (header h) s (half_seq (hv s h)).
Proof.
  intros Hp Hh Hle. unfold header. eapply reads_bind; [apply reads_gets|]. intros s1 H1.
  rewrite <- (same_half_base _ _ h H1). eapply reads_bind.
  { rewrite <- (Nat.add_0_r (half_base s1 h)). eapply reads_flash; [by eapply same_placed|done| |apply gr_header|].
    - apply Nat.divide_0_r.
    - destruct H1 as (_ & -> & _). done. }
  intros s2 _. eapply reads_eq; [apply reads_ret|]. rewrite (same_hv _ _ _ H1).
  rewrite (half_seq_take (hv s h)); [done|]. by rewrite length_hv.
Qed.

(** Two stores over the same cells. *)
Definition alike s s' : Prop :=
  base s' = base s ∧ half s' = half s ∧ cells (flash s') = cells (flash s) ∧
  (reliable (flash s') ↔ reliable (flash s)).

Lemma image_cells s s' act sq es :
  base s' = base s → half s' = half s → cells (flash s') = cells (flash s) →
  image s act sq es → image s' act sq es.
Proof.
  intros Hb Hh Hc. assert (∀ h, hv s' h = hv s h) as Hv.
  { intros h. unfold hv, half_base. by rewrite Hb, Hh, Hc. }
  unfold image, half_log, placed. by rewrite !Hv, Hb, Hh, Hc.
Qed.

Lemma alike_image s s' act sq es : alike s s' → image s act sq es → image s' act sq es.
Proof. intros (?&?&?&_). by apply image_cells. Qed.

Lemma scan_tail_spec s es act sq :
  image s act sq es → active s = act → seq s = sq →
  wp scan_tail (λ r s', alike s s' ∧
    match r with Ok _ => inv s' es ∧ active s' = act ∧ seq s' = sq | Err er => fails (flash s) er end) s.
Proof.
  intros Hi Ha Hs. pose proof Hi as ((Hp & Hact & Hok & Hh) & _). unfold scan_tail.
  apply wp_bind, wp_gets. subst act. eapply wp_reads.
  - apply reads_scan_loop; [done|done|apply gr_header|done|done|by eapply holds_fuel].
  - intros s1 H1. apply wp_modify. destruct H1 as (Hb & Hhf & Hac & Hsq & Ht & Hc & Hr).
    assert (alike s (with_log (active s1) (seq s1) (HEADER_LEN + length (log es)) s1)) as Hal by by split_and!.
    split; [done|]. split; [|simpl; by rewrite Hac, Hsq]. split; [|done]. simpl. rewrite Hac, Hsq, Hs.
    by eapply alike_image.
  - intros s1 (Hb & Hhf & Hac & Hsq & Ht & Hc & Hr) Hn. split; [by split_and!|done].
Qed.

Lemma image_stale s act sq es :
  image s act sq es → (act ≤ 1)%nat ∧ (HEADER_LEN ≤ half s)%nat ∧ placed s.
Proof.
  intros ((Hp & Ha & _ & Hh) & _). destruct Hh as [Hh _]. rewrite length_hv in Hh by done. done.
Qed.

(** Opening finds the log, whichever half it is in. *)
Lemma open_spec s es act sq :
  image s act sq es →
  wp open_halves (λ r s', alike s s' ∧
    match r with Ok _ => inv s' es ∧ active s' = act ∧ seq s' = sq | Err er => fails (flash s) er end) s.
Proof.
  intros Hi. pose proof (image_stale _ _ _ _ Hi) as (Hact & Hle & Hp).
  pose proof (image_header _ _ _ _ Hi) as Hh. pose proof Hi as (_ & Hsq & _ & Hst).
  assert (∀ s', same s s' → ¬ reliable (flash s) → alike s s' ∧ fails (flash s) Io) as Herr.
  { intros s' (?&?&_&_&_&?&?) Hn. by split_and!. }
  assert (∀ s1, same s s1 → wp (_ ← modify (λ s, with_log act sq (tail s) s); scan_tail)
    (λ r s', alike s s' ∧ match r with Ok _ => inv s' es ∧ active s' = act ∧ seq s' = sq
     | Err er => fails (flash s) er end) s1) as Hgo.
  { intros s1 (Hb & Hhf & _ & _ & _ & Hc & Hr). apply wp_bind, wp_modify.
    set (s2 := with_log act sq (tail s1) s1). assert (alike s s2) as Hal by by split_and!.
    pose proof (alike_image _ _ _ _ _ Hal Hi) as Hi2.
    pose proof (scan_tail_spec s2 es act sq Hi2 eq_refl eq_refl) as Hsc.
    apply wp_eq in Hsc as (r & s' & E & Hal' & Hr'). apply wp_eq. exists r, s'. split; [done|].
    assert (alike s s') as Hal2.
    { destruct Hal as (?&?&?&Hx), Hal' as (?&?&?&Hy). split_and!; [congruence..|]. by rewrite Hy. }
    split; [done|]. destruct r as [[]|er].
    - done.
    - destruct Hr' as [-> Hn]. split; [done|]. intros Hx. apply Hn. by apply Hr. }
  unfold open_halves. eapply wp_reads; [apply reads_header; [done|lia|done]| |done]. intros s1 H1.
  eapply wp_reads; [apply reads_header; [by eapply same_placed|lia|by destruct H1 as (_ & -> & _)]| |].
  2: { intros s' Hs' Hn. apply Herr; [by etrans|]. destruct H1 as (_&_&_&_&_&_&Hr). by rewrite <- Hr. }
  intros s2 H2. rewrite (same_hv _ _ _ H1). assert (same s s2) as H3 by by etrans.
  unfold stale in Hst. destruct act as [|[|]]; [..|lia]; simpl in Hst; rewrite Hh.
  - destruct (half_seq (hv s 1)) as [q|]; [|by apply Hgo].
    destruct Hst as [Hq ->]. cbv zeta.
    assert ((wrap 32 (q - wrap 32 (q + 1)) <? u32_max / 2) = false) as ->; [|by apply Hgo].
    apply Z.ltb_ge. unfold wrap, uint, u32_max in *.
    rewrite Zminus_mod_idemp_r. replace (q - (q + 1)) with (-1) by lia. vm_compute. congruence.
  - destruct (half_seq (hv s 0)) as [q|]; [|by apply Hgo].
    destruct Hst as [Hq ->]. cbv zeta.
    assert ((wrap 32 (wrap 32 (q + 1) - q) <? u32_max / 2) = true) as ->; [|by apply Hgo].
    apply Z.ltb_lt. unfold wrap. rewrite Zminus_mod_idemp_l. replace (q + 1 - q) with 1 by lia. done.
Qed.

(** A region without a header is formatted. *)
Lemma format_spec s :
  placed s → (HEADER_LEN ≤ half s)%nat →
  wp format (λ r s', confined s s' ∧
    match r with Ok _ => inv s' [] | Err er => fails (flash s) er end) s.
Proof.
  intros Hp Hle. unfold format. apply wp_bind. eapply wp_mono; [apply erase_half_spec; [done|lia]|].
  intros [[]|er] s1 H1; [|by destruct H1; split; [apply same_confined|]].
  pose proof (moved_confined _ _ 0 _ ltac:(lia) H1) as Hc1. pose proof (moved_placed _ _ _ _ H1 Hp) as Hp1.
  apply wp_bind. eapply wp_mono; [apply erase_half_spec; [done|lia]|].
  intros [[]|er] s2 H2.
  2: { destruct H2 as [Hf Hs]. rewrite (confined_fails _ _ _ Hc1) in Hf. split; [|done].
       etrans; [done|by apply same_confined]. }
  pose proof (moved_confined _ _ 1 _ ltac:(lia) H2) as Hc2. pose proof (moved_placed _ _ _ _ H2 Hp1) as Hp2.
  assert (half s2 = half s1 ∧ half s1 = half s) as [Hh2 Hh1] by (by destruct Hc1 as (_ & ? & _), Hc2 as (_ & ? & _)).
  pose proof (moved_other _ _ 1 _ ltac:(lia) H2) as Ho. simpl in Ho.
  destruct H1 as (_ & Hb1 & _). rewrite Hb1 in Ho.
  apply wp_bind, wp_modify. set (s3 := with_log 0 1 (tail s2) s2).
  assert (confined s s3) as Hc3 by (etrans; [exact Hc1|exact Hc2]).
  apply wp_bind. eapply wp_mono.
  { apply write_header_spec; [exact Hp2|lia|change (HEADER_LEN ≤ half s2)%nat; lia|].
    change (hv s3 0) with (hv s2 0). rewrite Ho. unfold blank. rewrite take_replicate. f_equal. lia. }
  change (hv s3 0) with (hv s2 0). rewrite Ho. intros [[]|er] s4 H4.
  2: { destruct H4 as [Hf Hs]. rewrite (confined_fails _ _ _ Hc3) in Hf. split; [|done].
       etrans; [done|by apply same_confined]. }
  apply wp_modify. pose proof (moved_confined _ _ 0 _ ltac:(lia) H4) as Hc4.
  split; [etrans; [exact Hc3|exact Hc4]|]. pose proof (moved_placed _ _ _ _ H4 Hp2) as Hp4.
  pose proof (moved_other _ _ 0 _ ltac:(lia) H4) as Ho4. simpl in Ho4.
  destruct H4 as ((_ & Hh4 & Ha4 & Hs4 & _) & Hb4 & _). split; [|done].
  simpl. rewrite Ha4, Hs4. simpl.
  assert (length (drop HEADER_LEN (blank (half s))) = half s - HEADER_LEN)%nat as Hld by (unfold blank; len).
  split_and!; [split_and!; [exact Hp4|lia|done|]|done|..].
  - change (holds (hv s4 0) HEADER_LEN []). rewrite Hb4. split; [rewrite length_app, length_half_header; lia|].
    rewrite drop_header, length_app, length_half_header, Hld. change (log []) with (@nil Z).
    rewrite app_nil_l. unfold blank. rewrite drop_replicate. f_equal. simpl. lia.
  - change (take HEADER_LEN (hv s4 0) = half_header 1). by rewrite Hb4, take_header.
  - match goal with |- stale _ ?x => change x with (hv s4 1) end. rewrite Ho4.
    change (hv s3 1) with (hv s2 1). destruct H2 as (_ & -> & _).
    apply stale_blank. unfold blank. rewrite take_replicate. f_equal. lia.
Qed.

(** The checks of [new] are those of a placed region. *)
Lemma new_checks f s :
  placed s →
  new f (base s) (2 * half s) =
    match open_halves (mk f StoreStats.new (base s) (half s) 0 0 HEADER_LEN) with
    | (Ok _, s) => Ok s
    | (Err e, _) => Err e
    end.
Proof.
  intros (Hb & Hh & Hpos & _). unfold new, sector. pose proof gr_erase as Her.
  pose proof align_bound. rewrite (proj2 (Nat.ltb_ge CHUNK (align F))) by (unfold CHUNK; lia).
  assert (ERASE_SIZE F ≤ half s)%nat by (apply Nat.divide_pos_le; [lia|done]).
  rewrite (proj2 (Nat.ltb_ge _ _)) by lia.
  assert ((2 * half s) mod (2 * ERASE_SIZE F) = 0)%nat as ->.
  { apply Nat.Lcm0.mod_divide. by apply Nat.mul_divide_mono_l. }
  assert (base s mod ERASE_SIZE F = 0)%nat as -> by by apply Nat.Lcm0.mod_divide.
  simpl orb. rewrite (Nat.mul_comm 2), Nat.div_mul by done. done.
Qed.

Lemma new_spec f s act sq es :
  image s act sq es → cells f = cells (flash s) →
  match new f (base s) (2 * half s) with
  | Ok s' => inv s' es ∧ active s' = act ∧ seq s' = sq ∧ (reliable (flash s') ↔ reliable f)
  | Err er => er = Io ∧ ¬ reliable f
  end.
Proof.
  intros Hi Hc. pose proof (image_stale _ _ _ _ Hi) as (_ & _ & Hp).
  rewrite (new_checks f s Hp). set (s0 := mk f StoreStats.new (base s) (half s) 0 0 HEADER_LEN).
  assert (image s0 act sq es) as Hi0 by by apply (image_cells s).
  pose proof (open_spec s0 es act sq Hi0) as Ho. apply wp_eq in Ho as (r & s' & E & Hal & Hr).
  rewrite E. destruct r as [[]|er]; [|done]. destruct Hr as (? & ? & ?). destruct Hal as (_ & _ & _ & Hal).
  split_and!; [done..|]. exact Hal.
Qed.

End map.
