(* ===== verification/NorFlashContract.v ===== *)
(** * The flash store and the storage contract

    [NorFlashStore] meets [StorageLaws] on a reliable flash, so that the
    clients proved against the contract (the frame-counter persistence) can run
    on it; what reopening and a power loss do; and the two places where the
    code and its documentation part. *)

From S2P Require Import Prelude Heapless Storage NorFlash NorFlashLog NorFlashMap.

Section contract.
Import NorFlashStore.
Context {F : Type} `{!NorFlash F, !NorFlashLaws F, !Granules F}.
Abbreviation st := (NorFlashStore.t F).
Implicit Types (s : st) (d : list Z) (e : entry).

(** The entries of the active half. *)
Definition entries s : list entry := parsed (F:=F) (half s) (hv s (active s)) HEADER_LEN.

(** What a compaction would leave of it, in octets. *)
Definition live_len s : nat := HEADER_LEN + length (log (F:=F) (kept (F:=F) (entries s))).

(** A store on a reliable flash, none of whose records is torn. *)
Definition nor_inv s : Prop :=
  ∃ es, inv s es ∧ reliable (flash s) ∧ Forall (λ e, intact e = true) es.

Lemma inv_entries s es : inv s es → entries s = es.
Proof.
  intros [((Hp & Ha & Hok & Hh) & _) _]. apply parsed_holds; [done..|by eapply holds_fuel].
Qed.

Lemma kept_intact es : Forall (λ e, intact e = true) es → Forall (λ e, intact e = true) (kept (F:=F) es).
Proof.
  rewrite !Forall_forall. intros H e (p & -> & Hp)%list_elem_of_fmap.
  apply list_elem_of_In, filter_In in Hp as [Hp _]. apply list_elem_of_In, located_elem in Hp. by apply H.
Qed.

Lemma intact_new k fl i d : intact (Entry k fl i (crc16 d) d) = true.
Proof. apply Z.eqb_refl. Qed.

(** An append on a reliable flash. *)
Lemma append_reliable s k fl i d :
  nor_inv s → uint 64 i → bytes_ok d →
  ∃ r s' es0, append k fl i d s = (r, s') ∧ nor_inv s' ∧ confined s s' ∧
    nor_view s = log_view es0 ∧
    (r = Ok tt ∧ nor_view s' = log_view (es0 ++ [Entry k fl i (crc16 d) d]) ∨
     r = Err Full ∧ nor_view s' = nor_view s ∧
       (MAX_RECORD < length d ∨ half s < live_len s + round_up (HEADER_LEN + length d) (align F))%nat).
Proof.
  intros (es & Hinv & Hrel & Hint) Hi Hd.
  pose proof (append_spec s es k fl i d Hinv Hi Hd) as Hw.
  apply wp_eq in Hw as (r & s' & E & Hc & es0 & Hes0 & Hr). exists r, s', es0.
  assert (nor_view s = log_view es0) as Hv0.
  { rewrite (inv_view s es Hinv). by destruct Hes0 as [->| ->]; rewrite ?log_view_kept. }
  assert (Forall (λ e, intact e = true) es0) as Hint0.
  { destruct Hes0 as [->| ->]; [done|by apply kept_intact]. }
  assert (reliable (flash s')) as Hrel' by (destruct Hc as (_ & _ & Hx & _); by apply Hx).
  split; [done|]. destruct r as [[]|er].
  - split_and!; [|done|done|left; split; [done|by apply inv_view]].
    eexists. split; [exact Hr|]. split; [done|]. apply Forall_app_2; [done|].
    apply Forall_singleton. apply intact_new.
  - assert (er = Full) as ->.
    { destruct er; [done|..]; destruct Hr as [[? Hn] _]; done. }
    destruct Hr as [Hi' Hsz]. split_and!; [by exists es0|done|done|right].
    split_and!; [done|by rewrite Hv0; apply inv_view|].
    unfold live_len. by rewrite (inv_entries s es Hinv).
Qed.

Lemma nor_store_law s k d r s' :
  nor_inv s → uint 64 (id k) → bytes_ok d → NorFlashStore.store k d s = (r, s') →
  nor_inv s' ∧ nor_view s' = match r with Ok _ => <[k := d]> (nor_view s) | Err _ => nor_view s end.
Proof.
  intros Hinv Hi Hd E. unfold NorFlashStore.store in E.
  destruct (append_reliable s (code (kind k)) FLAG_SET (id k) d Hinv Hi Hd)
    as (r' & s1 & es0 & E' & Hi' & _ & Hv & Hr). rewrite E in E'. injection E' as <- <-.
  split; [done|]. destruct Hr as [[-> ->]|(-> & -> & _)]; [|done].
  rewrite log_view_set, Hv. by destruct k.
Qed.

Lemma nor_load_eq s es k n :
  inv s es → reliable (flash s) →
  ∃ s', NorFlashStore.load k n s = (load_result (lookup_log es k) n, s') ∧ same s s'.
Proof.
  intros Hinv Hrel. pose proof (load_spec s es k n Hinv) as Hw.
  apply wp_eq in Hw as (r & s' & E & Hs & Hr). exists s'. rewrite E. split; [|done].
  destruct Hr as [[[_ Hn] _]| ->]; done.
Qed.

Lemma nor_load_law s k n r s' :
  nor_inv s → NorFlashStore.load k n s = (r, s') →
  nor_inv s' ∧ nor_view s' = nor_view s ∧
  match nor_view s !! k with
  | None => r = Ok None
  | Some d => if (length d <=? n)%nat then r = Ok (Some d) else r = Err BufferTooSmall
  end.
Proof.
  intros (es & Hinv & Hrel & Hint) E. destruct (nor_load_eq s es k n Hinv Hrel) as (s1 & E1 & Hs).
  rewrite E in E1. injection E1 as -> <-. pose proof (same_inv _ _ _ Hs Hinv) as Hinv'.
  split_and!.
  - exists es. split_and!; [done| |done]. destruct Hs as (_&_&_&_&_&_&Hx). by apply Hx.
  - by rewrite (inv_view s' es), (inv_view s es).
  - rewrite (inv_view s es Hinv), log_view_lookup.
    destruct (lookup_log es k) as [e|] eqn:El; simpl; [|done].
    assert (intact e = true) as Hie.
    { apply settle_elem in El as [?|(Hin & _)]; [done|]. rewrite Forall_forall in Hint. by apply Hint. }
    unfold readable. rewrite Hie. destruct (Nat.ltb_spec n (length (e_data e))),
      (Nat.leb_spec (length (e_data e)) n); done || lia.
Qed.

(** There is no room for a record without data, even after a compaction. *)
Definition no_room s : Prop := (half s < live_len s + round_up HEADER_LEN (align F))%nat.

Lemma same_nor s s1 es :
  same s s1 → inv s es → reliable (flash s) → Forall (λ e, intact e = true) es →
  nor_inv s1 ∧ nor_view s1 = nor_view s ∧ live_len s1 = live_len s ∧ half s1 = half s ∧ confined s s1.
Proof.
  intros Hs Hin Hrel Hint. pose proof (same_inv _ _ _ Hs Hin) as Hin1. split_and!.
  - exists es. split_and!; [done| |done]. destruct Hs as (_&_&_&_&_&_&Hx). by apply Hx.
  - by rewrite (inv_view s1 es), (inv_view s es).
  - unfold live_len. by rewrite (inv_entries s es Hin), (inv_entries s1 es Hin1).
  - by destruct Hs as (_ & -> & _).
  - by apply same_confined.
Qed.

Lemma nor_erase_law s k r s' :
  nor_inv s → NorFlashStore.erase k s = (r, s') →
  nor_inv s' ∧ nor_view s' = match r with Ok _ => delete k (nor_view s) | Err _ => nor_view s end ∧
  confined s s' ∧ (r = Ok tt ∨ r = Err Full ∧ no_room s ∧ is_Some (nor_view s !! k)).
Proof.
  intros Hinv E. pose proof Hinv as (es & Hin & Hrel & Hint).
  pose proof (inv_half_log _ _ Hin) as Hl.
  assert (wp (NorFlashStore.erase k) (λ r s', nor_inv s' ∧
    nor_view s' = match r with Ok _ => delete k (nor_view s) | Err _ => nor_view s end ∧
    confined s s' ∧ (r = Ok tt ∨ r = Err Full ∧ no_room s ∧ is_Some (nor_view s !! k))) s) as Hw; [|unfold wp in Hw; by rewrite E in Hw].
  unfold NorFlashStore.erase. apply wp_bind, wp_gets. eapply wp_reads; [by apply reads_find| |done].
  intros s1 Hs. destruct (same_nor s s1 es Hs Hin Hrel Hint) as (Hinv1 & Hv1 & Hl1 & Hh1 & Hc1).
  destruct (found k _) as [x|] eqn:Ef.
  - assert (uint 64 (id k)) as Hi.
    { rewrite found_decided in Ef. destruct (decided _ k) as [p|] eqn:Ed; [|done].
      apply decided_elem in Ed as (Hp & _ & [_ Hm]%matches_key). apply located_elem in Hp.
      destruct Hl as (_ & _ & Hok & _). rewrite Forall_forall in Hok. destruct (Hok _ Hp) as (_ & Hu & _).
      by rewrite <- Hm. }
    destruct (append_reliable s1 (code (kind k)) FLAG_ERASED (id k) [] Hinv1 Hi ltac:(constructor))
      as (r' & s2 & es0 & E' & Hi' & Hc2 & Hv & Hr). unfold wp. rewrite E'. cbn [fst snd]. split; [done|].
    assert (confined s s2) as Hc by (by etrans).
    destruct Hr as [[-> ->]|(-> & -> & Hsz)].
    + rewrite log_view_erased, <- Hv, Hv1. split; [by destruct k|]. by split; [|left].
    + split; [done|]. split; [done|]. right. split; [done|]. split.
      * unfold no_room. rewrite <- Hl1, <- Hh1. destruct Hsz as [Hsz|Hsz]; [cbn in Hsz; unfold MAX_RECORD in Hsz; lia|].
        by rewrite Nat.add_0_r in Hsz.
      * rewrite (inv_view s es Hin), log_view_lookup. rewrite found_decided in Ef.
        pose proof (decided_snd (located (F:=F) HEADER_LEN es) k) as Hd. rewrite located_snd in Hd.
        destruct (decided _ k) as [p|] eqn:Ed; [|done]. cbn in Hd. rewrite <- Hd. cbn.
        apply decided_elem in Ed as (Hp & _). apply located_elem in Hp. rewrite Forall_forall in Hint.
        unfold readable. rewrite (Hint _ Hp). by eexists.
  - apply found_lookup in Ef. apply wp_ret. split; [done|]. split; [|by split; [|left]].
    rewrite Hv1, (inv_view s es Hin), delete_id; [done|]. by rewrite log_view_lookup, Ef.
Qed.

Lemma nor_erase_kind_law s k r s' :
  nor_inv s → NorFlashStore.erase_kind k s = (r, s') →
  nor_inv s' ∧ nor_view s' = match r with Ok _ => filter (not_kind k) (nor_view s) | Err _ => nor_view s end ∧
  confined s s' ∧ (r = Ok tt ∨ r = Err Full ∧ no_room s).
Proof.
  intros Hinv E. pose proof Hinv as (es & Hin & Hrel & Hint).
  assert (wp (NorFlashStore.erase_kind k) (λ r s', nor_inv s' ∧
    nor_view s' = match r with Ok _ => filter (not_kind k) (nor_view s) | Err _ => nor_view s end ∧
    confined s s' ∧ (r = Ok tt ∨ r = Err Full ∧ no_room s)) s) as Hw; [|unfold wp in Hw; by rewrite E in Hw].
  unfold NorFlashStore.erase_kind. apply wp_bind, wp_gets.
  eapply wp_reads; [by apply erase_kind_search| |done].
  intros s1 Hs. destruct (same_nor s s1 es Hs Hin Hrel Hint) as (Hinv1 & Hv1 & Hl1 & Hh1 & Hc1).
  destruct (existsb _ _) eqn:Ex; simpl negb.
  - assert (uint 64 0) as H0 by by apply uint_0.
    destruct (append_reliable s1 (code k) FLAG_KIND_ERASED 0 [] Hinv1 H0 ltac:(constructor))
      as (r' & s2 & es0 & E' & Hi' & Hc2 & Hv & Hr). unfold wp. rewrite E'. cbn [fst snd]. split; [done|].
    assert (confined s s2) as Hc by (by etrans).
    destruct Hr as [[-> ->]|(-> & -> & Hsz)].
    + rewrite log_view_kind_erased, <- Hv, Hv1. split; [done|]. by split; [|left].
    + split; [done|]. split; [done|]. right. split; [done|]. unfold no_room. rewrite <- Hl1, <- Hh1.
      destruct Hsz as [Hsz|Hsz]; [cbn in Hsz; unfold MAX_RECORD in Hsz; lia|]. by rewrite Nat.add_0_r in Hsz.
  - apply wp_ret. split; [done|]. split; [|by split; [|left]].
    by rewrite Hv1, (inv_view s es Hin), (no_live_kind es k Ex).
Qed.

(** The contract. *)
#[export, refine] Instance nor_laws : StorageLaws st := {
  st_inv := nor_inv;
  view := nor_view;
  store_law := nor_store_law
}.
Proof.
  - intros s k n r s' Hi E. destruct (nor_load_law s k n r s' Hi E) as (? & ? & ?). by auto.
  - intros s k r s' Hi E. by destruct (nor_erase_law s k r s' Hi E) as (? & ? & _).
  - intros s k r s' Hi E. by destruct (nor_erase_kind_law s k r s' Hi E) as (? & ? & _).
Defined.

End contract.

(** ** The RAM driver meets the driver's laws *)

Lemma aligned_divide g n : RamFlash.aligned g n = true ↔ (g | n)%nat.
Proof. unfold RamFlash.aligned. by rewrite Nat.eqb_eq, Nat.Lcm0.mod_divide. Qed.

Lemma blank_accepts (b : list Z) :
  forallb (λ p : Z * Z, (p.1 =? 0xFF) || (Z.land p.1 p.2 =? p.2)) (zip (blank (length b)) b) = true.
Proof. induction b as [|x b IH]; [done|]. simpl. exact IH. Qed.

#[export, refine] Instance ram_laws g sec : NorFlashLaws (RamFlash.t g sec) := {
  cells := RamFlash.mem;
  reliable f := RamFlash.budget f = None
}.
Proof.
  - intros f o n Ho%aligned_divide Hn%aligned_divide Hl. simpl in *. unfold RamFlash.read.
    by rewrite Ho, Hn, (proj2 (Nat.leb_le _ _) Hl).
  - intros f o b Ho%aligned_divide Hn%aligned_divide Hl Hb. simpl in *. unfold RamFlash.write.
    rewrite Ho, Hn, (proj2 (Nat.leb_le _ _) Hl), Hb, blank_accepts. simpl.
    destruct (RamFlash.budget f) as [[|n]|] eqn:Eb; simpl; naive_solver.
  - intros f from to Hf%aligned_divide Ht%aligned_divide [Hl1 Hl2]. simpl in *. unfold RamFlash.erase.
    by rewrite Hf, Ht, (proj2 (Nat.leb_le _ _) Hl1), (proj2 (Nat.leb_le _ _) Hl2).
Defined.

#[export] Instance ram_granules : Granules (RamFlash.t 4 128).
Proof. by split; simpl; [exists 1%nat|exists 1%nat|exists 4%nat|exists 32%nat|lia]. Qed.

(** The store of the witnesses: a fresh region of two sectors of 128 octets. *)
Definition sample : NorFlashStore.t (RamFlash.t 4 128) :=
  NorFlashStore.mk (RamFlash.mk (NorFlashStore.half_header 1 ++ blank 240) None)
    StoreStats.new 0 128 0 1 16.

Lemma sample_inv : inv sample [].
Proof.
  split; [|done]. split_and!; [split_and!|..].
  - split_and!; simpl; [by exists 0%nat|by exists 1%nat|lia|vm_compute; lia].
  - simpl. lia.
  - constructor.
  - split; [vm_compute; lia|reflexivity].
  - vm_compute. split; congruence.
  - reflexivity.
  - done.
Qed.

Lemma sample_nor_inv : nor_inv sample.
Proof. exists []. split_and!; [apply sample_inv|done|constructor]. Qed.

(** ** The theorems *)

Section theorems.
Import NorFlashStore.



(** What is stored survives a restart: opening the region again, from the
    cells alone, gives a store with the same log, hence the same map; opening a
    region without a header formats it and gives the empty map. *)
Theorem nor_flash_reopens {F} `{!NorFlash F, !NorFlashLaws F, !Granules F}
    (s : NorFlashStore.t F) (f : F) :
  reliable f → cells f = cells (flash s) →
  (nor_inv s →
     ∃ s', new f (base s) (2 * half s) = Ok s' ∧ nor_inv s' ∧ nor_view s' = nor_view s ∧
       active s' = active s ∧ seq s' = seq s ∧ tail s' = tail s) ∧
  (placed s → (HEADER_LEN ≤ half s)%nat → half_seq (hv s 0) = None → half_seq (hv s 1) = None →
     ∃ s', new f (base s) (2 * half s) = Ok s' ∧ nor_inv s' ∧ nor_view s' = ∅).
Proof.
  intros Hrel Hc. split.
  - intros (es & Hinv & Hr & Hint). pose proof (new_spec f s _ _ es (inv_image _ _ Hinv) Hc) as Hn.
    destruct (new f (base s) (2 * half s)) as [s'|er]; [|by destruct Hn].
    destruct Hn as (Hinv' & Ha & Hs & Hr'). exists s'. split_and!; [done| | |done|done|].
    + exists es. split_and!; [done|by apply Hr'|done].
    + by rewrite (inv_view s' es), (inv_view s es).
    + destruct Hinv as [_ ->], Hinv' as [_ ->]. done.
  - intros Hp Hle H0 H1. rewrite (new_checks f s Hp).
    set (s0 := mk f StoreStats.new (base s) (half s) 0 0 HEADER_LEN).
    assert (∀ h, hv s0 h = hv s h) as Hv by (intros h; unfold hv, half_base; simpl; by rewrite Hc).
    assert (placed s0) as Hp0 by (unfold placed; simpl; by rewrite Hc).
    assert (wp open_halves (λ r s', match r with Ok _ => inv s' [] ∧ reliable (flash s') | Err _ => False end) s0) as Hw.
    { unfold open_halves. eapply wp_reads; [apply reads_header; [done|lia|done]| |done]. intros s1 Hs1.
      eapply wp_reads; [apply reads_header; [by eapply same_placed|lia|by destruct Hs1 as (_ & -> & _)]| |].
      - intros s2 Hs2. rewrite (same_hv _ _ _ Hs1), !Hv, H0, H1. apply wp_bind, wp_modify.
        assert (same s0 s2) as Hs by by etrans. set (s3 := with_stats _ s2).
        assert (same s0 s3) as Hs3 by exact Hs. eapply wp_mono; [apply format_spec|].
        + by eapply same_placed.
        + destruct Hs3 as (_ & -> & _). done.
        + assert (reliable (flash s3)) as Hr3 by (destruct Hs3 as (_&_&_&_&_&_&Hx); by apply Hx).
          intros [[]|er] s4 [Hc4 H4]; [|by destruct H4]. split; [done|].
          destruct Hc4 as (_ & _ & Hx & _). by apply Hx.
      - intros s2 Hs2 Hn. apply Hn. destruct Hs1 as (_&_&_&_&_&_&Hx). by apply Hx. }
    apply wp_eq in Hw as (r & s' & E & Hr). rewrite E. destruct r as [[]|er]; [|done].
    destruct Hr as [Hi Hr]. exists s'. split_and!; [done|by exists []; split_and!|].
    by rewrite (inv_view s' [] Hi).
Qed.

Lemma nor_flash_reopens_witness :
  ∃ s', new (flash sample) 0 256 = Ok s' ∧ nor_view s' = nor_view sample.
Proof.
  assert (reliable (flash sample)) as Hr by done.
  destruct (proj1 (nor_flash_reopens sample (flash sample) Hr eq_refl) sample_nor_inv)
    as (s' & H1 & _ & H2 & _). by exists s'.
Defined.
(** C28. A power loss during a store, anywhere between two flash operations, a
    compaction included: the region opens again, every other key has its
    record, and the key being stored has its old record, the new one, or a
    record of which only whole chunks were written, which reads as absent
    unless its checksum happens to match. A store that returned success is
    never lost. *)
Theorem nor_flash_power_loss {F} `{!NorFlash F, !NorFlashLaws F, !Granules F}
    (s s' : NorFlashStore.t F) (es : list entry) (k : Key) (d : list Z)
    (r : result unit StorageError) (f : F) :
  inv s es → uint 64 (id k) → bytes_ok d → store k d s = (r, s') →
  reliable f → cells f = cells (flash s') →
  ∃ s2, new f (base s) (2 * half s) = Ok s2 ∧
    (∀ j, j ≠ k → nor_view s2 !! j = nor_view s !! j) ∧
    match r with
    | Ok _ => nor_view s2 !! k = Some d
    | Err _ => nor_view s2 !! k = nor_view s !! k ∨
        ∃ n, let d' := take n d ++ blank (length d - n) in
             nor_view s2 !! k = if crc16 d' =? crc16 d then Some d' else None
    end.
Proof.
  intros Hinv Hi Hd E Hrel Hc.
  pose proof (append_spec s es (code (kind k)) FLAG_SET (id k) d Hinv Hi Hd) as Hw.
  apply wp_eq in Hw as (r' & s1 & E' & Hcf & es0 & Hes0 & Hr).
  unfold store in E. rewrite E in E'. injection E' as <- <-.
  assert (nor_view s = log_view es0) as Hv0.
  { rewrite (inv_view s es Hinv). by destruct Hes0 as [->| ->]; rewrite ?log_view_kept. }
  assert (∀ act sq es', image s' act sq es' →
    ∃ s2, new f (base s) (2 * half s) = Ok s2 ∧ nor_view s2 = log_view es') as Hopen.
  { intros act sq es' Him. pose proof (new_spec f s' act sq es' Him Hc) as Hn.
    destruct Hcf as (Hb & Hh & _). rewrite Hb, Hh in Hn.
    destruct (new f (base s) (2 * half s)) as [s2|]; [|by destruct Hn].
    destruct Hn as [Hn _]. exists s2. split; [done|by apply inv_view]. }
  destruct k as [kd i]. cbn [kind id] in *.
  assert (∀ act sq n, image s' act sq (es0 ++ [damaged (Entry (code kd) FLAG_SET i (crc16 d) d) n]) →
    ∃ s2, new f (base s) (2 * half s) = Ok s2 ∧ (∀ j, j ≠ MkKey kd i → nor_view s2 !! j = nor_view s !! j) ∧
      nor_view s2 !! MkKey kd i =
        (let d' := take n d ++ blank (length d - n) in if crc16 d' =? crc16 d then Some d' else None)) as Hdam.
  { intros act sq n Him. destruct (Hopen _ _ _ Him) as (s2 & Hn & Hv2). exists s2. split; [done|].
    rewrite Hv2, Hv0. split; [intros j Hj; by apply log_view_other|].
    rewrite log_view_lookup, <- log_map_lookup, log_map_snoc. unfold log_step. simpl.
    by rewrite from_code_code, lookup_insert_eq. }
  destruct r as [[]|[]].
  - destruct (Hopen _ _ _ (inv_image _ _ Hr)) as (s2 & Hn & Hv2). exists s2.
    split; [done|]. rewrite Hv2, log_view_set, Hv0. split; [intros j Hj; by rewrite lookup_insert_ne|].
    by rewrite lookup_insert_eq.
  - destruct Hr as [Hr _]. destruct (Hopen _ _ _ (inv_image _ _ Hr)) as (s2 & Hn & Hv2). exists s2.
    rewrite Hv2, Hv0. by split_and!; [..|left].
  - destruct Hr as [[? _] _]. done.
  - destruct Hr as (_ & act & sq & [Him|[n Him]]).
    + destruct (Hopen _ _ _ Him) as (s2 & Hn & Hv2). exists s2. rewrite Hv2, Hv0. by split_and!; [..|left].
    + destruct (Hdam _ _ _ Him) as (s2 & ? & ? & ?). exists s2. split_and!; [done..|right]. by exists n.
Qed.

(** The power fails after the first chunk of the record. *)
Definition failing : NorFlashStore.t (RamFlash.t 4 128) :=
  with_flash sample (RamFlash.mk (RamFlash.mem (flash sample)) (Some 1%nat)).

Lemma nor_flash_power_loss_witness :
  let d := replicate 60 7 in
  let '(r, s') := store (single Nib) d failing in
  r = Err Io ∧
  ∃ s2, new (RamFlash.mk (RamFlash.mem (flash s')) None : RamFlash.t 4 128) 0 256 = Ok s2 ∧
    nor_view s2 !! single Aib = nor_view failing !! single Aib.
Proof.
  intros d. destruct (store (single Nib) d failing) as [r s'] eqn:E.
  assert ((store (single Nib) d failing).1 = Err Io) as Hr by (vm_compute; reflexivity).
  split; [by rewrite E in Hr|].
  assert (inv failing []) as Hinv.
  { destruct sample_inv as [Hi Ht]. split; [|done]. by apply (image_cells sample). }
  assert (uint 64 (id (single Nib))) as Hi by by apply uint_0.
  assert (bytes_ok d) as Hd by (apply Forall_replicate; vm_compute; split; congruence).
  assert (reliable (RamFlash.mk (RamFlash.mem (flash s')) None : RamFlash.t 4 128)) as Hrel by done.
  destruct (nor_flash_power_loss failing s' [] (single Nib) d r _ Hinv Hi Hd E Hrel eq_refl)
    as (s2 & Hn & Hv & _). exists s2. split; [done|]. by apply Hv.
Defined.

(** The old record does not survive a torn store. The storage model asks
    [store] to be atomic and the module documentation says a torn record is
    skipped, but [find] settles on the newest header before any checksum is
    read: a store of sixty octets cut after its first chunk makes the record
    that was there before read as absent, while the flash still holds it. *)
Theorem torn_store_hides_record :
  ∃ s1 s2 s3,
    store (single Nib) [1; 2; 3] sample = (Ok tt, s1) ∧
    store (single Nib) (replicate 60 7)
      (with_flash s1 (RamFlash.mk (RamFlash.mem (flash s1)) (Some 1%nat))) = (Err Io, s2) ∧
    new (RamFlash.mk (RamFlash.mem (flash s2)) None : RamFlash.t 4 128) 0 256 = Ok s3 ∧
    (load (single Nib) 64 s1).1 = Ok (Some [1; 2; 3]) ∧
    (load (single Nib) 64 s3).1 = Ok None.
Proof.
  eexists _, _, _. split; [vm_compute; reflexivity|]. split; [vm_compute; reflexivity|].
  split; [vm_compute; reflexivity|]. split; vm_compute; reflexivity.
Qed.

(** Granules of 32 or 64 octets pass the check of [new], whose
    documentation promises to refuse only larger ones, but the store reads and
    writes its headers in 16 octets: on a driver that enforces its granule no
    region can be opened. *)
Theorem wide_granule_unusable (mem : list Z) :
  let f : RamFlash.t 32 128 := RamFlash.mk mem None in
  (align (RamFlash.t 32 128) ≤ CHUNK)%nat ∧ new f 0 256 = Err Io.
Proof. by split; [vm_compute; lia|]. Qed.

(** Stores that share one driver do not disturb each other: whatever the
    first one stores, and whether or not it succeeds, a second store in a
    disjoint region of the same flash keeps its log and its map. *)
Theorem shared_stores_independent {F} `{!NorFlash F, !NorFlashLaws F, !Granules F}
    (s1 s1' s2 : NorFlashStore.t F) (es1 es2 : list entry) (k : Key) (d : list Z)
    (r : result unit StorageError) :
  inv s1 es1 → inv s2 es2 → cells (flash s2) = cells (flash s1) →
  (base s1 + 2 * half s1 ≤ base s2 ∨ base s2 + 2 * half s2 ≤ base s1)%nat →
  uint 64 (id k) → bytes_ok d → store k d s1 = (r, s1') →
  let s2' := with_flash s2 (flash s1') in
  inv s2' es2 ∧ nor_view s2' = nor_view s2.
Proof.
  intros H1 H2 Hc Hdis Hi Hd E s2'.
  pose proof (append_spec s1 es1 (code (kind k)) FLAG_SET (id k) d H1 Hi Hd) as Hw.
  apply wp_eq in Hw as (r' & s & E' & (_ & _ & _ & Hl & Hag) & _).
  unfold store in E. rewrite E in E'. injection E' as <- <-.
  assert (inv s2' es2) as Hi2; [|by rewrite (inv_view s2' es2), (inv_view s2 es2)].
  destruct H2 as [Him Ht]. split; [|done]. pose proof (image_stale _ _ _ _ Him) as (Ha & _ & Hp).
  assert (∀ h, (h ≤ 1)%nat → hv s2' h = hv s2 h) as Hv.
  { intros h Hh. unfold hv, half_base, s2'. simpl. rewrite Hag, Hc; [done|]. nia. }
  destruct Him as ((_ & _ & Hok & Hh) & Hq & Hhd & Hst). simpl.
  split_and!; [split_and!; [|done|done|by rewrite Hv]|done|by rewrite Hv|by rewrite Hv by lia].
  destruct Hp as (? & ? & ? & Hlen). unfold placed, s2'. simpl. rewrite Hl, <- Hc. done.
Qed.

(** Two stores, in the first and the second 256 octets of one flash. *)
Definition pair_flash : RamFlash.t 4 128 :=
  RamFlash.mk (half_header 1 ++ blank 240 ++ half_header 1 ++ blank 240) None.
Definition left_store : NorFlashStore.t (RamFlash.t 4 128) :=
  mk pair_flash StoreStats.new 0 128 0 1 16.
Definition right_store : NorFlashStore.t (RamFlash.t 4 128) :=
  mk pair_flash StoreStats.new 256 128 0 1 16.

Lemma pair_inv : inv left_store [] ∧ inv right_store [].
Proof.
  split; (split; [|done]); (split_and!; [split_and!|..]).
  all: try (by constructor).
  all: try (split; [vm_compute; lia|reflexivity]).
  all: try (simpl; lia).
  all: try reflexivity.
  all: try (vm_compute; split; congruence).
  - split_and!; simpl; [by exists 0%nat|by exists 1%nat|lia|vm_compute; lia].
  - split_and!; simpl; [by exists 2%nat|by exists 1%nat|lia|vm_compute; lia].
Qed.

Lemma shared_stores_independent_witness :
  let '(r, s1') := store (single Nib) [5] left_store in
  r = Ok tt ∧ nor_view (with_flash right_store (flash s1')) = nor_view right_store.
Proof.
  destruct (store (single Nib) [5] left_store) as [r s1'] eqn:E.
  assert ((store (single Nib) [5] left_store).1 = Ok tt) as Hr by (vm_compute; reflexivity).
  split; [by rewrite E in Hr|].
  assert (bytes_ok [5]) as Hb by (repeat constructor; vm_compute; congruence).
  assert (uint 64 (id (single Nib))) as Hi by by apply uint_0.
  destruct pair_inv as [H1 H2].
  apply (shared_stores_independent left_store s1' right_store [] [] (single Nib) [5] r H1 H2 eq_refl);
    [simpl; lia|done|done|done].
Defined.

End theorems.
