(* ===== verification/FrameCounter.v ===== *)
(** * Frame counters (panweave-security/src/frame_counter.rs) and their
    persistence

    [OutgoingCounter] hands out the frame counters that make CCM nonces
    unique; [IncomingCounters] rejects replays.  [Persisted] is the loop
    through which the runtime persists the reservations of the NWK counter
    (panweave-runtime/src/pump.rs and persist.rs, panweave-nwk/src/layer/mod.rs),
    over any storage that meets the contract of [Storage]. *)

From Stdlib Require Import Sorting.Sorted.
From S2P Require Import Prelude Heapless Storage.

Inductive CounterError : Type := Exhausted | ReservationRequired.
Inductive FreshnessError : Type := Replay | TableFull | CounterExhausted.

(** ** Outgoing counters *)

Module OutgoingCounter.

Record t : Type := mk {
  next : Z;
  reserved_until : Z;
  window : Z;
  margin : Z;
  in_flight : option Z
}.

Definition DEFAULT_WINDOW : Z := 1024.
Definition DEFAULT_MARGIN : Z := 64.
Definition SWITCH_RESET_THRESHOLD : Z := 0x80000000.

Definition restore (r : Z) : t := mk r r DEFAULT_WINDOW DEFAULT_MARGIN None.
Definition new : t := restore 0.

Definition with_window (c : t) (w m : Z) : t :=
  let w' := Z.max w 1 in
  mk (next c) (reserved_until c) w' (Z.min m (sat_sub w' 1)) (in_flight c).

Definition peek (c : t) : Z := next c.

Definition needs_reservation (c : t) : bool :=
  bool_decide (in_flight c = None)
  && (reserved_until c <=? sat_add 32 (next c) (margin c))
  && negb (reserved_until c =? u32_max).

(** The reservation to persist, if one is started. *)
Definition start_reservation (c : t) : option Z * t :=
  if needs_reservation c then
    let target := Z.max (sat_add 32 (next c) (window c)) (reserved_until c) in
    (Some target, mk (next c) (reserved_until c) (window c) (margin c) (Some target))
  else (None, c).

Definition commit_reservation (c : t) (r : Z) : t :=
  let fl := if bool_decide (in_flight c = Some r) then None else in_flight c in
  let ru := if reserved_until c <? r then r else reserved_until c in
  mk (next c) ru (window c) (margin c) fl.

Definition abort_reservation (c : t) : t :=
  mk (next c) (reserved_until c) (window c) (margin c) None.

Definition allocate : SE t CounterError Z := λ c,
  if next c =? u32_max then (Err Exhausted, c)
  else if reserved_until c <=? next c then (Err ReservationRequired, c)
  else (Ok (next c), mk (next c + 1) (reserved_until c) (window c) (margin c) (in_flight c)).

Definition on_key_switch (c : t) : bool * t :=
  if SWITCH_RESET_THRESHOLD <? next c then (true, mk 0 0 (window c) (margin c) None)
  else (false, c).

Definition near_exhaustion (c : t) : bool := SWITCH_RESET_THRESHOLD <=? next c.

(** All fields are [u32]; the margin stays below the window. *)
Definition wf (c : t) : Prop :=
  uint 32 (next c) ∧ uint 32 (reserved_until c) ∧ 1 ≤ window c < 2 ^ 32 ∧
  0 ≤ margin c < window c ∧
  match in_flight c with Some r => uint 32 r | None => True end.

End OutgoingCounter.

(** ** Incoming counters *)

Module IncomingCounters.

(** Entries (sender, next acceptable counter); [K] is the table capacity. *)
Record t (K : nat) : Type := mk { entries : list (Z * Z) }.
Arguments mk {K} _.
Arguments entries {K} _.

Definition new K : t K := mk [].

Section incoming.
Context {H : Heapless} {K : nat}.

Definition from_sender (sender : Z) (e : Z * Z) : bool := e.1 =? sender.

Definition check_and_update (sender received : Z) (all_fresh : bool)
    : SE (t K) FreshnessError unit := λ s,
  if received =? u32_max then (Err CounterExhausted, s)
  else
    match List.find (from_sender sender) (entries s) with
    | Some e =>
        if received <? e.2 then (Err Replay, s)
        else (Ok tt, mk (update_first (from_sender sender) (λ e, (e.1, received + 1)) (entries s)))
    | None =>
        match vec_push K (entries s) (sender, received + 1) with
        | Ok es => (Ok tt, mk es)
        | Err _ => if all_fresh then (Err TableFull, s) else (Ok tt, s)
        end
    end.

Definition is_fresh (s : t K) (sender received : Z) : bool :=
  negb (received =? u32_max) &&
  match List.find (from_sender sender) (entries s) with
  | None => true
  | Some e => e.2 <=? received
  end.

Definition get (s : t K) (sender : Z) : option Z :=
  snd <$> List.find (from_sender sender) (entries s).

Definition set (sender nxt : Z) : SE (t K) FreshnessError unit := λ s,
  match List.find (from_sender sender) (entries s) with
  | Some _ => (Ok tt, mk (update_first (from_sender sender) (λ e, (e.1, nxt)) (entries s)))
  | None =>
      match vec_push K (entries s) (sender, nxt) with
      | Ok es => (Ok tt, mk es)
      | Err _ => (Err TableFull, s)
      end
  end.

Definition remove (sender : Z) (s : t K) : t K :=
  mk (vec_retain (entries s) (λ e, negb (from_sender sender e))).

Definition reset_all (s : t K) : t K := mk (vec_clear (entries s)).

Definition len (s : t K) : nat := length (entries s).
Definition is_empty (s : t K) : bool := (len s =? 0)%nat.

(** One entry per sender, within capacity, every value a [u32]. *)
Definition wf (s : t K) : Prop :=
  NoDup (entries s).*1 ∧ (length (entries s) ≤ K)%nat ∧ Forall (λ e, uint 32 e.2) (entries s).

End incoming.
End IncomingCounters.

(** ** Outgoing counters: invariant and progress *)

Section outgoing.
Implicit Types c : OutgoingCounter.t.

Lemma u32_pow : 2 ^ 32 = 4294967296. Proof. done. Qed.

(** Unfold the machine-integer vocabulary and let [lia] finish. *)
Ltac u32 := unfold uint, sat_add, sat_sub, u32_max in *; rewrite ?u32_pow in *; try lia.

Lemma restore_wf r : uint 32 r → OutgoingCounter.wf (OutgoingCounter.restore r).
Proof. intros Hr. unfold OutgoingCounter.wf. simpl. split_and!; try done; u32. Qed.

Lemma with_window_wf c w m :
  OutgoingCounter.wf c → uint 32 w → uint 32 m → OutgoingCounter.wf (OutgoingCounter.with_window c w m).
Proof. intros (?&?&?&?&?) ??. unfold OutgoingCounter.wf. simpl. split_and!; try done; u32. Qed.

Lemma start_reservation_wf c o c' :
  OutgoingCounter.wf c → OutgoingCounter.start_reservation c = (o, c') → OutgoingCounter.wf c'.
Proof.
  intros (Hn&Hr&Hw&Hm&Hf). unfold OutgoingCounter.start_reservation.
  destruct (OutgoingCounter.needs_reservation c); intros [= <- <-]; [|done].
  unfold OutgoingCounter.wf. simpl. split_and!; try done; u32.
Qed.

Lemma commit_reservation_wf c r :
  OutgoingCounter.wf c → uint 32 r → OutgoingCounter.wf (OutgoingCounter.commit_reservation c r).
Proof.
  intros (?&?&?&?&?) ?. unfold OutgoingCounter.wf. simpl. split_and!; try done; try lia.
  - by destruct (_ <? _).
  - by case_bool_decide.
Qed.

Lemma abort_reservation_wf c : OutgoingCounter.wf c → OutgoingCounter.wf (OutgoingCounter.abort_reservation c).
Proof. by intros (?&?&?&?&?). Qed.

Lemma allocate_wf c r c' :
  OutgoingCounter.wf c → OutgoingCounter.allocate c = (r, c') → OutgoingCounter.wf c'.
Proof.
  intros (Hn&Hr&Hw&Hm&Hf). unfold OutgoingCounter.allocate.
  destruct (Z.eqb_spec (OutgoingCounter.next c) u32_max); [by intros [= <- <-]|].
  destruct (Z.leb_spec (OutgoingCounter.reserved_until c) (OutgoingCounter.next c));
    intros [= <- <-]; [done|].
  unfold OutgoingCounter.wf. simpl. split_and!; try done; u32.
Qed.

Lemma on_key_switch_wf c b c' :
  OutgoingCounter.wf c → OutgoingCounter.on_key_switch c = (b, c') → OutgoingCounter.wf c'.
Proof.
  intros (Hn&Hr&Hw&Hm&Hf). unfold OutgoingCounter.on_key_switch.
  destruct (_ <? _); intros [= <- <-]; [|done].
  unfold OutgoingCounter.wf. simpl. split_and!; try done; u32.
Qed.

(** What a started reservation is. *)
Lemma start_reservation_Some c r c' :
  OutgoingCounter.wf c → OutgoingCounter.start_reservation c = (Some r, c') →
  OutgoingCounter.in_flight c = None ∧ OutgoingCounter.in_flight c' = Some r ∧
  OutgoingCounter.next c' = OutgoingCounter.next c ∧
  OutgoingCounter.reserved_until c' = OutgoingCounter.reserved_until c ∧
  OutgoingCounter.reserved_until c ≤ r ∧ uint 32 r.
Proof.
  intros (Hn&Hr&Hw&Hm&_). unfold OutgoingCounter.start_reservation.
  destruct (OutgoingCounter.needs_reservation c) eqn:E; [|by intros [=]].
  unfold OutgoingCounter.needs_reservation in E.
  apply andb_prop in E as [[E%bool_decide_eq_true _]%andb_prop _].
  intros [= <- <-]. simpl. split_and!; try done; u32.
Qed.

End outgoing.

(** The counter never deadlocks: with no reservation in flight, starting one
    if needed and committing it makes the next allocation succeed with exactly
    the next value, unless the counter is exhausted, in which case every
    allocation is refused and the state does not move. *)
Theorem outgoing_counter_progress (c : OutgoingCounter.t) :
  OutgoingCounter.wf c → OutgoingCounter.in_flight c = None →
  let '(o, c1) := OutgoingCounter.start_reservation c in
  let c2 := match o with Some r => OutgoingCounter.commit_reservation c1 r | None => c1 end in
  if OutgoingCounter.next c =? u32_max
  then OutgoingCounter.allocate c = (Err Exhausted, c)
  else ∃ c3, OutgoingCounter.allocate c2 = (Ok (OutgoingCounter.next c), c3) ∧
         OutgoingCounter.next c3 = OutgoingCounter.next c + 1 ∧ OutgoingCounter.wf c3.
Proof.
  intros Hwf Hf. pose proof Hwf as (Hn&Hr&Hw&Hm&_).
  destruct (OutgoingCounter.start_reservation c) as [o c1] eqn:E.
  pose proof (start_reservation_wf c o c1 Hwf E) as Hwf1.
  destruct (Z.eqb_spec (OutgoingCounter.next c) u32_max) as [Hx|Hx].
  { unfold OutgoingCounter.allocate. by rewrite Hx. }
  set (c2 := match o with Some r => _ | None => _ end).
  assert (OutgoingCounter.wf c2 ∧ OutgoingCounter.next c2 = OutgoingCounter.next c ∧
    OutgoingCounter.next c < OutgoingCounter.reserved_until c2) as (Hwf2 & Hn2 & Hlt).
  { destruct o as [r|]; subst c2.
    - destruct (start_reservation_Some c r c1 Hwf E) as (_ & _ & Hn1 & Hr1 & Hle & Hu).
      split; [by apply commit_reservation_wf|]. simpl. split; [done|]. rewrite Hr1.
      unfold OutgoingCounter.start_reservation in E.
      destruct (OutgoingCounter.needs_reservation c); [|done]. injection E as <- _.
      unfold uint, sat_add, u32_max in *; rewrite ?u32_pow in *.
      destruct (Z.ltb_spec (OutgoingCounter.reserved_until c)
        (Z.max (Z.min (OutgoingCounter.next c + OutgoingCounter.window c) (4294967296 - 1))
          (OutgoingCounter.reserved_until c))); lia.
    - unfold OutgoingCounter.start_reservation in E.
      destruct (OutgoingCounter.needs_reservation c) eqn:En; [done|]. injection E as <-.
      split_and!; [done..|]. unfold OutgoingCounter.needs_reservation in En.
      rewrite bool_decide_true in En by done.
      unfold uint, sat_add, u32_max in *; rewrite ?u32_pow in *. lia. }
  destruct (OutgoingCounter.allocate c2) as [r c3] eqn:Ea. exists c3.
  pose proof (allocate_wf _ _ _ Hwf2 Ea) as Hwf3. pose proof Ea as Ha.
  unfold OutgoingCounter.allocate in Ea.
  rewrite Hn2, (proj2 (Z.eqb_neq _ _) Hx), (proj2 (Z.leb_gt _ _) Hlt) in Ea.
  by injection Ea as <- <-.
Qed.

Lemma outgoing_counter_progress_witness :
  ∃ c3, OutgoingCounter.allocate (OutgoingCounter.commit_reservation
      (snd (OutgoingCounter.start_reservation (OutgoingCounter.restore 4096))) 5120) =
    (Ok 4096, c3) ∧ OutgoingCounter.next c3 = 4097 ∧ OutgoingCounter.wf c3.
Proof.
  apply (outgoing_counter_progress (OutgoingCounter.restore 4096)).
  - apply restore_wf. vm_compute. split; congruence.
  - reflexivity.
Defined.

(** ** Persisting the reservations *)

Module Persisted.

Section persisted.
Context {S : Type} `{!Storage S}.

(** The counter of the NWK layer, the [CounterReservation] actions the runtime
    has not handled yet, and the storage.  [epoch] and [issued] are history:
    how often a key switch has reset the counter, and the values handed out. *)
Record t : Type := mk {
  ctr : OutgoingCounter.t;
  actions : list Z;
  disk : S;
  epoch : nat;
  issued : list (nat * Z)
}.

Definition counter_key : Key := single NwkFrameCounter.

(** [Nwk::maybe_reserve_counter] *)
Definition maybe_reserve (s : t) : t :=
  match OutgoingCounter.start_reservation (ctr s) with
  | (Some r, c) => mk c (actions s ++ [r]) (disk s) (epoch s) (issued s)
  | (None, c) => mk c (actions s) (disk s) (epoch s) (issued s)
  end.

(** The [NwkAction::CounterReservation] arm of the runtime's pump. *)
Definition handle_reservation (s : t) : option t :=
  match actions s with
  | [] => None
  | r :: rest =>
      match store counter_key (to_le 4 r) (disk s) with
      | (Ok _, d) => Some (mk (OutgoingCounter.commit_reservation (ctr s) r) rest d (epoch s) (issued s))
      | (Err _, d) => Some (mk (OutgoingCounter.abort_reservation (ctr s)) rest d (epoch s) (issued s))
      end
  end.

(** Securing a frame takes the next value ([NwkSecurity::secure_outgoing]). *)
Definition secure (s : t) : option t :=
  match OutgoingCounter.allocate (ctr s) with
  | (Ok v, c) => Some (mk c (actions s) (disk s) (epoch s) (issued s ++ [(epoch s, v)]))
  | (Err _, _) => None
  end.

(** A reset loses the RAM; [Stack::restore] loads the persisted bound into a
    zeroed buffer of four octets and resumes from it. *)
Definition reboot (s : t) : option t :=
  match load counter_key 4 (disk s) with
  | (Ok (Some v), d) =>
      Some (mk (OutgoingCounter.restore (from_le (splice 0 v (replicate 4 0)))) [] d (epoch s) (issued s))
  | (Ok None, d) => Some (mk OutgoingCounter.new [] d (epoch s) (issued s))
  | (Err _, _) => None
  end.

(** [Nwk::switch_network_key] to another installed key. *)
Definition switch_key (s : t) : t :=
  let '(reset, c) := OutgoingCounter.on_key_switch (ctr s) in
  maybe_reserve (mk c (actions s) (disk s)
    (if reset then Datatypes.S (epoch s) else epoch s) (issued s)).

Inductive op : Type := Reserve | HandleAction | Secure | Reboot | SwitchKey.

Definition exec (o : op) (s : t) : option t :=
  match o with
  | Reserve => Some (maybe_reserve s)
  | HandleAction => handle_reservation s
  | Secure => secure s
  | Reboot => reboot s
  | SwitchKey => Some (switch_key s)
  end.

Fixpoint run (os : list op) (s : t) : option t :=
  match os with
  | [] => Some s
  | o :: os => s' ← exec o s; run os s'
  end.

(** Executions in which no key switch resets the counter while a reservation
    is still queued for the storage. *)
Inductive reach (s0 : t) : t → Prop :=
  | reach_refl : reach s0 s0
  | reach_step s o s' :
      reach s0 s →
      (o = SwitchKey → fst (OutgoingCounter.on_key_switch (ctr s)) = true → actions s = []) →
      exec o s = Some s' → reach s0 s'.

(** A device that has just booted. *)
Definition boot (d : S) : option t := reboot (mk OutgoingCounter.new [] d 0 []).

End persisted.
Arguments t S : clear implicits.
End Persisted.

Section persisted_safety.
Context {S : Type} `{!Storage S, !StorageLaws S}.
Import Persisted.
Implicit Types s : Persisted.t S.

(** The bound a restart would resume from. *)
Definition bound (d : S) : option Z :=
  match view d !! counter_key with
  | None => Some 0
  | Some v => if (length v =? 4)%nat then Some (from_le v) else None
  end.

Record safe s : Prop := {
  safe_wf : OutgoingCounter.wf (ctr s);
  safe_disk : st_inv (disk s);
  safe_bound : ∃ b, bound (disk s) = Some b ∧ uint 32 b ∧
    OutgoingCounter.next (ctr s) ≤ OutgoingCounter.reserved_until (ctr s) ≤ b;
  safe_queue : actions s = option_list (OutgoingCounter.in_flight (ctr s));
  safe_flight : ∀ r, OutgoingCounter.in_flight (ctr s) = Some r →
    OutgoingCounter.reserved_until (ctr s) ≤ r;
  safe_issued : ∀ e v, (e, v) ∈ issued s →
    (e < epoch s)%nat ∨ e = epoch s ∧ v < OutgoingCounter.next (ctr s);
  safe_nodup : NoDup (issued s)
}.

Lemma maybe_reserve_safe s : safe s → safe (maybe_reserve s).
Proof.
  intros [Hwf Hd Hb Hq Hf Hi Hn]. unfold maybe_reserve.
  destruct (OutgoingCounter.start_reservation (ctr s)) as [[r|] c] eqn:E.
  - pose proof (start_reservation_wf _ _ _ Hwf E).
    destruct (start_reservation_Some _ _ _ Hwf E) as (Hnone & Hfl & Hnx & Hru & Hle & _).
    constructor; simpl; rewrite ?Hnx, ?Hru, ?Hfl; try done.
    + by rewrite Hq, Hnone.
    + by intros ? [= <-].
  - unfold OutgoingCounter.start_reservation in E.
    destruct (OutgoingCounter.needs_reservation _); [done|]. injection E as <-. by constructor.
Qed.

Lemma handle_reservation_safe s s' : safe s → handle_reservation s = Some s' → safe s'.
Proof.
  intros [Hwf Hd (b & Hb & Hub & Hle) Hq Hf Hi Hn]. unfold handle_reservation.
  destruct (actions s) as [|r rest] eqn:Ea; [done|].
  destruct (OutgoingCounter.in_flight (ctr s)) as [r'|] eqn:Efl; [|done].
  simpl in Hq. injection Hq as <- ->. specialize (Hf _ eq_refl).
  assert (uint 32 r) as Hur by (destruct Hwf as (_&_&_&_&Hw); by rewrite Efl in Hw).
  destruct (store counter_key (to_le 4 r) (disk s)) as [res d] eqn:Es.
  assert (uint 64 (id counter_key)) as Hid by (vm_compute; split; congruence).
  destruct (store_law _ _ _ _ _ Hd Hid (to_le_bytes_ok 4 r) Es) as [Hd' Hv]. destruct res as [[]|]; intros [= <-].
  - constructor; simpl; try done.
    + by apply commit_reservation_wf.
    + exists r. unfold bound. rewrite Hv, lookup_insert_eq, length_to_le, Nat.eqb_refl.
      rewrite from_to_le by done. split_and!; [done|done| |].
      * destruct (Z.ltb_spec (OutgoingCounter.reserved_until (ctr s)) r); lia.
      * destruct (Z.ltb_spec (OutgoingCounter.reserved_until (ctr s)) r); lia.
    + by rewrite Efl, bool_decide_true.
    + by rewrite Efl, bool_decide_true.
  - constructor; simpl; try done; [by apply abort_reservation_wf|].
    exists b. unfold bound in *. by rewrite Hv.
Qed.

Lemma secure_safe s s' : safe s → secure s = Some s' → safe s'.
Proof.
  intros [Hwf Hd (b & Hb & Hub & Hle) Hq Hf Hi Hn]. unfold secure.
  destruct (OutgoingCounter.allocate (ctr s)) as [[v|] c] eqn:E; [|done].
  intros [= <-]. pose proof (allocate_wf _ _ _ Hwf E) as Hwf'.
  unfold OutgoingCounter.allocate in E. destruct (Z.eqb_spec (OutgoingCounter.next (ctr s)) u32_max); [done|].
  destruct (Z.leb_spec (OutgoingCounter.reserved_until (ctr s)) (OutgoingCounter.next (ctr s))); [done|].
  injection E as <- <-. constructor; simpl in *; try done.
  - exists b. split_and!; [done|done|lia|lia].
  - intros e v [Hin|Hin]%elem_of_app; [destruct (Hi _ _ Hin) as [|[]]; [by left|right; lia]|].
    apply list_elem_of_singleton in Hin as [= -> ->]. right. lia.
  - apply NoDup_app. split_and!; [done| |apply NoDup_singleton].
    intros [e v] Hin [= -> ->]%list_elem_of_singleton. destruct (Hi _ _ Hin); lia.
Qed.

(** A restart resumes exactly at the persisted bound. *)
Lemma reboot_bound s s' b :
  st_inv (disk s) → bound (disk s) = Some b → reboot s = Some s' →
  ∃ d, s' = mk (OutgoingCounter.restore b) [] d (epoch s) (issued s) ∧
    st_inv d ∧ view d = view (disk s).
Proof.
  intros Hd Hb. unfold reboot. destruct (load counter_key 4 (disk s)) as [r d] eqn:El.
  destruct (load_law _ _ _ _ _ Hd El) as (Hd' & Hv & Hr). intros Hs. exists d.
  split; [|done]. unfold bound in Hb. destruct Hr as [->|Hr]; [done|].
  destruct (view (disk s) !! counter_key) as [v|].
  - destruct (Nat.eqb_spec (length v) 4) as [Hl|]; [|done].
    rewrite Hl in Hr. simpl in Hr. subst r. injection Hb as <-. injection Hs as <-.
    unfold splice. rewrite Hl. simpl. by rewrite app_nil_r.
  - subst r. injection Hb as <-. by injection Hs as <-.
Qed.

Lemma reboot_safe s s' : safe s → reboot s = Some s' → safe s'.
Proof.
  intros [Hwf Hd (b & Hb & Hub & Hle) Hq Hf Hi Hn] Hs.
  destruct (reboot_bound s s' b Hd Hb Hs) as (d & -> & Hd' & Hv).
  constructor; simpl; [by apply restore_wf|done| |done|done| |done].
  - exists b. unfold bound in *. rewrite Hv. split_and!; [done|done|lia|lia].
  - intros e w Hin. destruct (Hi _ _ Hin) as [|[]]; [by left|right; lia].
Qed.

Lemma switch_key_safe s :
  safe s → (fst (OutgoingCounter.on_key_switch (ctr s)) = true → actions s = []) →
  safe (switch_key s).
Proof.
  intros [Hwf Hd (b & Hb & Hub & Hle) Hq Hf Hi Hn] Hg. unfold switch_key.
  destruct (OutgoingCounter.on_key_switch (ctr s)) as [reset c] eqn:E.
  pose proof (on_key_switch_wf _ _ _ Hwf E) as Hwf'. simpl in Hg. apply maybe_reserve_safe.
  unfold OutgoingCounter.on_key_switch in E. destruct (_ <? _); injection E as <- <-.
  - constructor; simpl in *; try done.
    + exists b. split_and!; [done|done|lia|unfold uint in Hub; lia].
    + by apply Hg.
    + intros e v Hin. left. destruct (Hi _ _ Hin) as [|[-> _]]; lia.
  - constructor; simpl; try done. by exists b.
Qed.

Lemma exec_safe o s s' :
  safe s → (o = SwitchKey → fst (OutgoingCounter.on_key_switch (ctr s)) = true → actions s = []) →
  exec o s = Some s' → safe s'.
Proof.
  intros Hs Hg. destruct o; simpl.
  - intros [= <-]. by apply maybe_reserve_safe.
  - by apply handle_reservation_safe.
  - by apply secure_safe.
  - by apply reboot_safe.
  - intros [= <-]. apply switch_key_safe; auto.
Qed.

Lemma boot_safe d b s :
  st_inv d → bound d = Some b → uint 32 b → boot d = Some s → safe s.
Proof.
  intros Hd Hb Hub Hs. destruct (reboot_bound (mk OutgoingCounter.new [] d 0 []) s b Hd Hb Hs)
    as (d' & -> & Hd' & Hv).
  constructor; simpl; [by apply restore_wf|done| |done|done| |constructor].
  - exists b. unfold bound in *. rewrite Hv. by split_and!.
  - by intros e v ?%not_elem_of_nil.
Qed.

Lemma reach_safe s0 s : safe s0 → reach s0 s → safe s.
Proof. intros H0. induction 1; [done|]. by eapply exec_safe. Qed.

End persisted_safety.

(** C1. Outgoing NWK frame counters are never reused, across any interleaving
    of reservations, storage successes and failures, transmissions, resets and
    key switches, on any storage that meets the contract: within one epoch (the
    time between two counter resets) no value is handed out twice, every value
    is below the persisted bound, and a restart resumes above all of them.
    Executions in which a key switch resets the counter while an older
    reservation is still queued are excluded (see [stale_reservation_reuse]). *)
Theorem frame_counters_never_reused {S : Type} `{!Storage S, !StorageLaws S}
    (d : S) (b : Z) (s0 s : Persisted.t S) :
  st_inv d → bound d = Some b → uint 32 b →
  Persisted.boot d = Some s0 → Persisted.reach s0 s →
  NoDup (Persisted.issued s) ∧
  (∀ v, (Persisted.epoch s, v) ∈ Persisted.issued s →
     ∃ b', bound (Persisted.disk s) = Some b' ∧ v < b') ∧
  (∀ s', Persisted.reboot s = Some s' → ∀ v, (Persisted.epoch s', v) ∈ Persisted.issued s' →
     v < OutgoingCounter.next (Persisted.ctr s')).
Proof.
  intros Hd Hb Hub Hboot Hr.
  pose proof (reach_safe _ _ (boot_safe _ _ _ Hd Hb Hub Hboot) Hr) as Hs.
  split_and!; [apply Hs| |].
  - intros v Hv. destruct Hs as [_ _ (b' & Hb' & _ & Hle) _ _ Hi _].
    exists b'. split; [done|]. destruct (Hi _ _ Hv); lia.
  - intros s' Hre v Hv. pose proof (reboot_safe _ _ Hs Hre) as Hs'.
    destruct (safe_issued _ Hs' _ _ Hv); lia.
Qed.

Lemma run_reach {S : Type} `{!Storage S} os (s0 s1 s : Persisted.t S) :
  Forall (λ o, o ≠ Persisted.SwitchKey) os →
  Persisted.reach s0 s1 → Persisted.run os s1 = Some s → Persisted.reach s0 s.
Proof.
  intros Hos. revert s1. induction Hos as [|o os Ho Hos IH]; intros s1 Hr; simpl.
  - by intros [= <-].
  - intros (s2 & H2 & Hrun)%bind_Some. eapply IH; [|done].
    by eapply Persisted.reach_step; [..|done].
Qed.

Lemma frame_counters_never_reused_witness :
  ∃ s0 s, Persisted.boot (MemoryStorage.new 4 8) = Some s0 ∧
    Persisted.run [Persisted.Reserve; Persisted.HandleAction; Persisted.Secure; Persisted.Secure;
      Persisted.Reboot; Persisted.Reserve; Persisted.HandleAction; Persisted.Secure] s0 = Some s ∧
    Persisted.issued s = [(0%nat, 0); (0%nat, 1); (0%nat, 1024)] ∧
    NoDup (Persisted.issued s).
Proof.
  eexists _, _. split; [vm_compute; reflexivity|].
  split; [vm_compute; reflexivity|]. split; [reflexivity|].
  eapply (frame_counters_never_reused (MemoryStorage.new 4 8) 0).
  - split_and!; simpl; [constructor|lia|constructor].
  - reflexivity.
  - vm_compute. split; congruence.
  - vm_compute. reflexivity.
  - eapply run_reach; [|apply Persisted.reach_refl|].
    + instantiate (1 := [Persisted.Reserve; Persisted.HandleAction; Persisted.Secure; Persisted.Secure;
        Persisted.Reboot; Persisted.Reserve; Persisted.HandleAction; Persisted.Secure]).
      by repeat constructor.
    + vm_compute. reflexivity.
Defined.

(** ** A reservation that outlives a key switch *)

Section stale.
Context {S : Type} `{!Storage S, !StorageLaws S}.
Import Persisted.
Implicit Types s : Persisted.t S.

(** A storage that takes and gives back the persisted bound. *)
Record serves (accepts : S → Prop) : Prop := {
  serves_inv d : accepts d → st_inv d;
  serves_store d v : accepts d → ∃ d', store counter_key (to_le 4 v) d = (Ok tt, d') ∧ accepts d';
  serves_load d : accepts d → (load counter_key 4 d).1 ≠ Err Io ∧ accepts (load counter_key 4 d).2
}.

Context (accepts : S → Prop) (Hacc : serves accepts).

Lemma handle_commits c r rest d e l :
  accepts d → uint 32 r →
  ∃ d', handle_reservation (mk c (r :: rest) d e l) = Some (mk (OutgoingCounter.commit_reservation c r) rest d' e l) ∧
    accepts d' ∧ bound d' = Some r.
Proof using Hacc.
  intros Ha Hr. destruct (serves_store _ Hacc d r Ha) as (d' & Es & Ha'). exists d'. unfold handle_reservation. cbn.
  rewrite Es. split_and!; [done|done|].
  destruct (store_law d counter_key (to_le 4 r) (Ok tt) d') as [_ Hv];
    [by eapply serves_inv|vm_compute; split; congruence|apply to_le_bytes_ok|done|].
  unfold bound. by rewrite Hv, lookup_insert_eq, length_to_le, Nat.eqb_refl, from_to_le.
Qed.

Lemma run_secures n k c acts d e l :
  0 ≤ OutgoingCounter.next c → OutgoingCounter.next c + Z.of_nat n ≤ OutgoingCounter.reserved_until c ≤ u32_max →
  OutgoingCounter.next c = Z.of_nat k →
  run (replicate n Secure) (mk c acts d e l) =
    Some (mk (OutgoingCounter.mk (OutgoingCounter.next c + Z.of_nat n) (OutgoingCounter.reserved_until c)
      (OutgoingCounter.window c) (OutgoingCounter.margin c) (OutgoingCounter.in_flight c)) acts d e
      (l ++ ((λ i, (e, Z.of_nat i)) <$> seq k n))).
Proof.
  revert k c l. induction n as [|n IH]; intros k c l H0 Hr Hk; cbn [replicate run].
  - rewrite Z.add_0_r, app_nil_r. by destruct c.
  - cbn [exec]. unfold secure. cbn [ctr]. unfold OutgoingCounter.allocate.
    rewrite (proj2 (Z.eqb_neq _ _)), (proj2 (Z.leb_gt _ _)) by lia. cbn [mbind option_bind].
    cbn [actions disk epoch issued]. rewrite (IH (Datatypes.S k)) by (cbn; lia).
    cbn [OutgoingCounter.next OutgoingCounter.reserved_until OutgoingCounter.window OutgoingCounter.margin OutgoingCounter.in_flight].
    do 2 f_equal; [f_equal; lia|]. rewrite <- app_assoc. cbn. by rewrite Hk.
Qed.

Lemma run_ops_app os1 os2 s : run (os1 ++ os2) s = run os1 s ≫= run os2.
Proof. revert s. induction os1 as [|o os1 IH]; intros s; [done|]. cbn. destruct (exec o s); cbn; [apply IH|done]. Qed.

(** The two reservations, the old one first. *)
Lemma switch_commits s r :
  safe s → accepts (disk s) → actions s = [r] → OutgoingCounter.SWITCH_RESET_THRESHOLD < OutgoingCounter.next (ctr s) →
  OutgoingCounter.window (ctr s) ≤ OutgoingCounter.SWITCH_RESET_THRESHOLD →
  let w := OutgoingCounter.window (ctr s) in
  ∃ d, run [SwitchKey; HandleAction; HandleAction] s =
      Some (mk (OutgoingCounter.mk 0 r w (OutgoingCounter.margin (ctr s)) None) [] d (Datatypes.S (epoch s)) (issued s)) ∧
    accepts d ∧ bound d = Some w ∧ w < r ≤ u32_max ∧ 1 ≤ w.
Proof using Hacc.
  intros Hs Ha Hq Hn Hw w. destruct Hs as [Hwf _ (b & _ & _ & Hle) Hfl Hfr _ _]. rewrite Hq in Hfl.
  destruct (OutgoingCounter.in_flight (ctr s)) as [r'|] eqn:Ef; [|done]. injection Hfl as <-. specialize (Hfr r eq_refl).
  pose proof Hwf as (_ & _ & Hww & Hm & Hr). rewrite Ef in Hr. fold w in Hww, Hm, Hw.
  assert (w < r ≤ u32_max) as Hwr by (unfold uint, u32_max, OutgoingCounter.SWITCH_RESET_THRESHOLD in *; lia).
  destruct s as [c acts d0 e l]. cbn [ctr actions disk epoch issued] in *. subst acts.
  cbn [run exec]. unfold switch_key. cbn [ctr actions disk epoch issued].
  unfold OutgoingCounter.on_key_switch. rewrite (proj2 (Z.ltb_lt _ _) Hn). unfold maybe_reserve. cbn [ctr actions disk epoch issued].
  unfold OutgoingCounter.start_reservation, OutgoingCounter.needs_reservation. cbn [OutgoingCounter.in_flight OutgoingCounter.reserved_until
    OutgoingCounter.next OutgoingCounter.margin OutgoingCounter.window]. rewrite bool_decide_true by done.
  rewrite (proj2 (Z.leb_le 0 _)) by (unfold sat_add; lia). cbn [andb negb]. fold w.
  change (0 =? u32_max) with false. cbn [negb].
  assert (Z.max (sat_add 32 0 w) 0 = w) as -> by (unfold sat_add, u32_max in *; lia). cbn [mbind option_bind app].
  destruct (handle_commits (OutgoingCounter.mk 0 0 w (OutgoingCounter.margin c) (Some w)) r [w] d0 (Datatypes.S e) l Ha)
    as (d1 & -> & Ha1 & _); [done|]. cbn [mbind option_bind].
  unfold OutgoingCounter.commit_reservation at 1. cbn [OutgoingCounter.in_flight OutgoingCounter.reserved_until
    OutgoingCounter.next OutgoingCounter.margin OutgoingCounter.window].
  rewrite bool_decide_false by (intros [= ?]; lia). rewrite (proj2 (Z.ltb_lt 0 r)) by lia.
  destruct (handle_commits (OutgoingCounter.mk 0 r w (OutgoingCounter.margin c) (Some w)) w [] d1 (Datatypes.S e) l Ha1)
    as (d2 & -> & Ha2 & Hb2); [unfold uint, u32_max in *; lia|]. cbn [mbind option_bind].
  unfold OutgoingCounter.commit_reservation. cbn [OutgoingCounter.in_flight OutgoingCounter.reserved_until
    OutgoingCounter.next OutgoingCounter.margin OutgoingCounter.window].
  rewrite bool_decide_true by done. rewrite (proj2 (Z.ltb_ge r w)) by lia. exists d2. split_and!; (done || lia).
Qed.
End stale.

(** C40. A reservation that is still queued when a key switch resets the counter is
    committed afterwards.  From any state of the protocol in which one is queued and
    the counter is past the threshold of the reset, on any storage that takes the
    writes: after the switch and the handling of the two reservations the counter
    may run up to the old, large bound while the storage holds the small one (a
    window); once it has run past that and the device restarts, the value of the
    bound is used a second time in the same epoch. *)
Theorem stale_reservation_reuse {S : Type} `{!Storage S, !StorageLaws S} (accepts : S → Prop)
    (s : Persisted.t S) (r : Z) :
  serves accepts → accepts (Persisted.disk s) → safe s → Persisted.actions s = [r] →
  OutgoingCounter.SWITCH_RESET_THRESHOLD < OutgoingCounter.next (Persisted.ctr s) →
  OutgoingCounter.window (Persisted.ctr s) ≤ OutgoingCounter.SWITCH_RESET_THRESHOLD →
  let w := OutgoingCounter.window (Persisted.ctr s) in
  let e := Datatypes.S (Persisted.epoch s) in
  (∃ s1, Persisted.run [Persisted.SwitchKey; Persisted.HandleAction; Persisted.HandleAction] s = Some s1 ∧
     bound (Persisted.disk s1) = Some w ∧ OutgoingCounter.reserved_until (Persisted.ctr s1) = r ∧ w < r) ∧
  ∃ s2, Persisted.run ([Persisted.SwitchKey; Persisted.HandleAction; Persisted.HandleAction] ++
      replicate (Z.to_nat w + 1) Persisted.Secure ++
      [Persisted.Reboot; Persisted.Reserve; Persisted.HandleAction; Persisted.Secure]) s = Some s2 ∧
    Persisted.issued s2 = Persisted.issued s ++ ((λ i, (e, Z.of_nat i)) <$> seq 0 (Z.to_nat w + 1)) ++ [(e, w)] ∧
    ¬ NoDup (Persisted.issued s2).
Proof.
  intros Hacc Ha Hs Hq Hn Hw w e.
  destruct (switch_commits accepts Hacc s r Hs Ha Hq Hn Hw) as (d & Hrun & Had & Hb & Hwr & Hw1). fold w in Hrun, Hb, Hwr, Hw1. fold e in Hrun.
  split; [eexists; split_and!; [exact Hrun|exact Hb|done|lia]|].
  rewrite run_ops_app, Hrun. cbn [mbind option_bind]. rewrite run_ops_app, (run_secures _ 0) by (cbn; lia).
  cbn [mbind option_bind Persisted.run Persisted.exec].
  destruct (serves_load _ Hacc d Had) as [Hio Had2].
  match goal with |- context [Persisted.reboot ?x] => destruct (Persisted.reboot x) as [s3|] eqn:Er end.
  2: { exfalso. unfold Persisted.reboot in Er. cbn [Persisted.disk] in Er. pose proof (load_law d Persisted.counter_key 4) as Hl.
       destruct (load Persisted.counter_key 4 d) as [[[v|]|err] d'] eqn:El; [done|done|]. cbn [fst] in Hio.
       destruct (Hl _ _ (serves_inv _ Hacc d Had) eq_refl) as (_ & _ & [Hx|Hx]); [done|]. unfold bound in Hb.
       destruct (view d !! Persisted.counter_key) as [v|]; [|done].
       destruct (Nat.eqb_spec (length v) 4) as [Hv|]; [|done]. rewrite Hv in Hx. done. }
  pose proof Er as Er'. eapply reboot_bound in Er' as (d3 & Hs3 & _ & _); [|by apply (serves_inv _ Hacc d)|exact Hb]. subst s3. cbn [Persisted.epoch Persisted.issued mbind option_bind].
  assert (accepts d3) as Had3.
  { unfold Persisted.reboot in Er. cbn [Persisted.disk] in Er.
    destruct (load Persisted.counter_key 4 d) as [[[v|]|err] d'] eqn:El; [| |done]; cbn [snd] in Had2; (apply (f_equal (fmap Persisted.disk)) in Er; cbn in Er; by injection Er as <-). }
  unfold Persisted.maybe_reserve, OutgoingCounter.start_reservation, OutgoingCounter.needs_reservation, OutgoingCounter.restore.
  cbn [Persisted.ctr Persisted.actions Persisted.disk Persisted.epoch Persisted.issued OutgoingCounter.in_flight OutgoingCounter.reserved_until
    OutgoingCounter.next OutgoingCounter.margin OutgoingCounter.window].
  rewrite bool_decide_true by done. unfold OutgoingCounter.DEFAULT_MARGIN, OutgoingCounter.DEFAULT_WINDOW.
  assert (w < sat_add 32 w 1024 ≤ u32_max) as Hsat by (unfold sat_add, u32_max in *; lia).
  rewrite (proj2 (Z.leb_le w _)), (proj2 (Z.eqb_neq w _)) by (unfold sat_add, u32_max in *; lia). cbn [andb negb app].
  rewrite Z.max_l by lia.
  destruct (handle_commits accepts Hacc (OutgoingCounter.mk w w 1024 64 (Some (sat_add 32 w 1024))) (sat_add 32 w 1024) [] d3 e
    (Persisted.issued s ++ ((λ i, (e, Z.of_nat i)) <$> seq 0 (Z.to_nat w + 1))) Had3) as (d4 & -> & _).
  { unfold uint, u32_max in *. lia. }
  cbn [mbind option_bind]. unfold Persisted.secure, OutgoingCounter.commit_reservation, OutgoingCounter.allocate.
  cbn [Persisted.ctr Persisted.actions Persisted.disk Persisted.epoch Persisted.issued OutgoingCounter.in_flight OutgoingCounter.reserved_until
    OutgoingCounter.next OutgoingCounter.margin OutgoingCounter.window].
  rewrite (proj2 (Z.ltb_lt w _)), (proj2 (Z.eqb_neq w _)), (proj2 (Z.leb_gt _ w)) by lia.
  eexists. split; [reflexivity|]. cbn [Persisted.issued]. rewrite <- app_assoc. split; [done|].
  rewrite app_assoc. intros (_ & Hd & _)%NoDup_app. eapply (Hd (e, w)); [|by apply list_elem_of_singleton].
  apply elem_of_app. right. apply list_elem_of_fmap. exists (Z.to_nat w). split; [f_equal; lia|]. apply elem_of_seq. lia.
Qed.

(** RAM that holds a bound takes every later one. *)
Lemma memory_serves {H : Heapless} {N S : nat} :
  (4 ≤ S)%nat → serves (λ d : MemoryStorage.t N S, mem_inv d ∧ is_Some (mem_view d !! Persisted.counter_key)).
Proof.
  intros HS. split.
  - by intros d [Hd _].
  - intros d v [Hd Hk]. destruct (store Persisted.counter_key (to_le 4 v) d) as [r d'] eqn:E.
    destruct (mem_store_law d _ _ _ _ Hd E) as [Hd' Hv]. cbn in E. unfold MemoryStorage.store in E.
    rewrite length_to_le, (proj2 (Nat.ltb_ge _ _)) in E by done. unfold mem_view in Hk. rewrite <- find_list_to_map in Hk.
    destruct (List.find _ _); [|by destruct Hk]. injection E as <- <-. eexists. split; [done|]. split; [done|].
    rewrite Hv, lookup_insert_eq. done.
  - intros d [Hd Hk]. cbn. unfold MemoryStorage.load. destruct (List.find _ _) as [[]|]; [case_match|]; done.
Qed.

(** A device whose counter is near the threshold, with a reservation queued. *)
Definition example_switching : option (Persisted.t (MemoryStorage.t 4 8)) :=
  s ← Persisted.boot (MemoryStorage.mk [(Persisted.counter_key, to_le 4 0x80000100)] 0); Persisted.run [Persisted.Reserve] s.

Lemma stale_reservation_reuse_witness :
  ∃ s s2, example_switching = Some s ∧
    Persisted.run ([Persisted.SwitchKey; Persisted.HandleAction; Persisted.HandleAction] ++
      replicate 1025 Persisted.Secure ++
      [Persisted.Reboot; Persisted.Reserve; Persisted.HandleAction; Persisted.Secure]) s = Some s2 ∧
    ¬ NoDup (Persisted.issued s2).
Proof.
  set (d := MemoryStorage.mk [(Persisted.counter_key, to_le 4 0x80000100)] 0 : MemoryStorage.t 4 8).
  assert (mem_inv d) as Hd by (split_and!; [repeat constructor; set_solver|cbn; lia|repeat constructor; cbn; lia]).
  eassert (Persisted.boot d = Some _) as Hb by (vm_compute; reflexivity).
  eassert (safe _) as Hs0 by (eapply (boot_safe d 0x80000100); [exact Hd|vm_compute; reflexivity|vm_compute; split; congruence|exact Hb]).
  apply maybe_reserve_safe in Hs0. eexists. unfold example_switching. fold d. rewrite Hb. cbn [mbind option_bind Persisted.run Persisted.exec].
  match type of Hs0 with safe ?x =>
    destruct (stale_reservation_reuse _ x 0x80000500 (memory_serves (N:=4) (S:=8) ltac:(lia)) ltac:(split; [exact Hd|vm_compute; eauto]) Hs0
      ltac:(vm_compute; reflexivity) ltac:(vm_compute; reflexivity) ltac:(vm_compute; congruence)) as (_ & s2 & Hr & _ & Hn)
  end.
  exists s2. split; [reflexivity|]. split; [exact Hr|exact Hn].
Defined.

(** ** Incoming counters reject replays *)

Section replay.
Context {H : Heapless} {K : nat}.
Implicit Types s : IncomingCounters.t K.

Lemma get_None s x :
  IncomingCounters.get s x = None ↔ List.find (IncomingCounters.from_sender x) (IncomingCounters.entries s) = None.
Proof. unfold IncomingCounters.get. by destruct (List.find _ _). Qed.

Lemma update_first_keys x v (l : list (Z * Z)) :
  (update_first (IncomingCounters.from_sender x) (λ e, (e.1, v)) l).*1 = l.*1.
Proof.
  induction l as [|[y w] l IH]; simpl; [done|].
  destruct (IncomingCounters.from_sender x (y, w)); [done|]. by apply (f_equal (cons y)).
Qed.

(** Recording a value for a tracked sender. *)
Lemma record_spec s x v :
  IncomingCounters.wf s → uint 32 v → is_Some (IncomingCounters.get s x) →
  let s' := IncomingCounters.mk (update_first (IncomingCounters.from_sender x)
              (λ e, (e.1, v)) (IncomingCounters.entries s)) : IncomingCounters.t K in
  IncomingCounters.wf s' ∧ IncomingCounters.get s' x = Some v ∧
  ∀ y, y ≠ x → IncomingCounters.get s' y = IncomingCounters.get s y.
Proof.
  intros (Hnd & Hl & Hu) Hv Hs. unfold IncomingCounters.wf, IncomingCounters.get in *. simpl.
  rewrite update_first_keys, length_update_first. split_and!; [done|done| | |].
  - clear -Hu Hv. induction Hu as [|e l He Hl IH]; simpl; [done|].
    by case_match; constructor.
  - rewrite find_update_first by done. by destruct (List.find _ _); [|destruct Hs].
  - intros y Hy. rewrite find_update_first_ne; [done|].
    unfold IncomingCounters.from_sender. intros e He%Z.eqb_eq. simpl.
    split; apply Z.eqb_neq; congruence.
Qed.

(** Starting to track a sender. *)
Lemma track_spec s x v :
  IncomingCounters.wf s → uint 32 v → IncomingCounters.get s x = None →
  (length (IncomingCounters.entries s) < K)%nat →
  let s' := IncomingCounters.mk (IncomingCounters.entries s ++ [(x, v)]) : IncomingCounters.t K in
  IncomingCounters.wf s' ∧ IncomingCounters.get s' x = Some v ∧
  ∀ y, y ≠ x → IncomingCounters.get s' y = IncomingCounters.get s y.
Proof.
  intros (Hnd & Hl & Hu) Hv Hn Hlt. apply get_None in Hn.
  unfold IncomingCounters.wf, IncomingCounters.get. simpl.
  rewrite fmap_app, length_app. simpl. split_and!; [|lia| | |].
  - apply NoDup_app. split_and!; [done| |apply NoDup_singleton].
    intros z (e & -> & Hin)%list_elem_of_fmap Hz%list_elem_of_singleton.
    pose proof (proj1 (find_None _ _) Hn e Hin) as He. unfold IncomingCounters.from_sender in He.
    by rewrite Hz, Z.eqb_refl in He.
  - apply Forall_app. by rewrite Forall_singleton.
  - rewrite find_snoc, Hn. unfold IncomingCounters.from_sender. simpl. by rewrite Z.eqb_refl.
  - intros y Hy. rewrite find_snoc. destruct (List.find (IncomingCounters.from_sender y) _); [done|].
    unfold IncomingCounters.from_sender. simpl. by rewrite (proj2 (Z.eqb_neq x y) (not_eq_sym Hy)).
Qed.

Lemma check_and_update_spec s x v af :
  IncomingCounters.wf s → uint 32 v →
  match IncomingCounters.check_and_update x v af s with
  | (Ok _, s') =>
      IncomingCounters.is_fresh s x v = true ∧ IncomingCounters.wf s' ∧
      (∀ y, y ≠ x → IncomingCounters.get s' y = IncomingCounters.get s y) ∧
      (IncomingCounters.get s' x = Some (v + 1) ∨
       s' = s ∧ af = false ∧ IncomingCounters.get s x = None ∧ IncomingCounters.len s = K)
  | (Err Replay, s') => s' = s ∧ ∃ n, IncomingCounters.get s x = Some n ∧ v < n
  | (Err TableFull, s') =>
      s' = s ∧ af = true ∧ IncomingCounters.get s x = None ∧ IncomingCounters.len s = K
  | (Err CounterExhausted, s') => s' = s ∧ v = u32_max
  end.
Proof.
  intros Hwf Hv. unfold IncomingCounters.check_and_update, IncomingCounters.is_fresh.
  destruct (Z.eqb_spec v u32_max) as [->|Hx]; [done|].
  assert (uint 32 (v + 1)) as Hv1 by (unfold uint, u32_max in *; lia).
  destruct (List.find (IncomingCounters.from_sender x) (IncomingCounters.entries s)) as [e|] eqn:E.
  - assert (IncomingCounters.get s x = Some e.2) as Hg by (unfold IncomingCounters.get; by rewrite E).
    destruct (Z.ltb_spec v e.2); [eauto|].
    destruct (record_spec s x (v + 1) Hwf Hv1 ltac:(eauto)) as (? & ? & ?).
    split_and!; [by apply Z.leb_le|done|done|by left].
  - assert (IncomingCounters.get s x = None) as Hg by (unfold IncomingCounters.get; by rewrite E).
    destruct (vec_push_cases K (IncomingCounters.entries s) (x, v + 1)) as [[Hl ->]|[Hl ->]].
    + destruct (track_spec s x (v + 1) Hwf Hv1 Hg Hl) as (? & ? & ?). by split_and!; [..|left].
    + assert (IncomingCounters.len s = K) by (destruct Hwf as (_ & ? & _); unfold IncomingCounters.len; lia).
      destruct af; split_and!; auto.
Qed.

(** The frames accepted out of a received sequence, [nwkAllFresh] set. *)
Fixpoint accepted (frames : list (Z * Z)) s : list (Z * Z) :=
  match frames with
  | [] => []
  | (x, v) :: frames =>
      match IncomingCounters.check_and_update x v true s with
      | (Ok _, s') => (x, v) :: accepted frames s'
      | (Err _, s') => accepted frames s'
      end
  end.

Lemma accepted_above frames s x n v :
  IncomingCounters.wf s → Forall (λ f, uint 32 f.2) frames →
  IncomingCounters.get s x = Some n → (x, v) ∈ accepted frames s → n ≤ v.
Proof.
  intros Hwf Hf. revert s n Hwf. induction Hf as [|[y w] frames Hw Hf IH]; intros s n Hwf Hg; simpl.
  { by intros ?%not_elem_of_nil. }
  simpl in Hw. pose proof (check_and_update_spec s y w true Hwf Hw) as Hc.
  destruct (IncomingCounters.check_and_update y w true s) as [[[]|e] s'].
  - destruct Hc as (Hfr & Hwf' & Hoth & [Hs'|[_ [? _]]]); [|done].
    assert (∀ m, x = y → IncomingCounters.get s y = Some m → m ≤ w) as Hle.
    { intros m _ Hm. unfold IncomingCounters.is_fresh, IncomingCounters.get in Hfr, Hm.
      destruct (List.find (IncomingCounters.from_sender y) _) as [e|]; [|done].
      injection Hm as <-. lia. }
    intros [[= -> ->]|Hin]%elem_of_cons; [by apply Hle|].
    destruct (decide (x = y)) as [->|Hne].
    + specialize (Hle n eq_refl Hg). specialize (IH s' (w + 1) Hwf' Hs' Hin). lia.
    + apply (IH s' n Hwf'); [by rewrite Hoth|done].
  - assert (s' = s) as -> by (destruct e; by destruct Hc). by apply IH.
Qed.

End replay.

(** C29. Replay protection on every branch: an accepted frame was fresh (at or
    above the next acceptable counter of its sender) and moves only that
    sender's entry past it; a replay is refused exactly when the sender is
    tracked with a larger next value; the counter value [u32::MAX] is never
    accepted; a full table refuses a new sender only when freshness is demanded
    of everyone.  A refusal changes nothing. *)
Theorem incoming_replay_protection {H : Heapless} {K : nat} (s : IncomingCounters.t K)
    (x v : Z) (af : bool) :
  IncomingCounters.wf s → uint 32 v →
  match IncomingCounters.check_and_update x v af s with
  | (Ok _, s') =>
      IncomingCounters.is_fresh s x v = true ∧ IncomingCounters.wf s' ∧
      (∀ y, y ≠ x → IncomingCounters.get s' y = IncomingCounters.get s y) ∧
      (IncomingCounters.get s' x = Some (v + 1) ∨
       s' = s ∧ af = false ∧ IncomingCounters.get s x = None ∧ IncomingCounters.len s = K)
  | (Err Replay, s') => s' = s ∧ ∃ n, IncomingCounters.get s x = Some n ∧ v < n
  | (Err TableFull, s') =>
      s' = s ∧ af = true ∧ IncomingCounters.get s x = None ∧ IncomingCounters.len s = K
  | (Err CounterExhausted, s') => s' = s ∧ v = u32_max
  end.
Proof. apply check_and_update_spec. Qed.

Lemma incoming_replay_protection_witness :
  IncomingCounters.check_and_update (K:=2) 9 4 true (IncomingCounters.mk [(9, 5)]) =
    (Err Replay, IncomingCounters.mk [(9, 5)]) ∧
  ∃ n, IncomingCounters.get (K:=2) (IncomingCounters.mk [(9, 5)]) 9 = Some n ∧ 4 < n.
Proof.
  split; [reflexivity|].
  refine (proj2 (incoming_replay_protection (K:=2) (IncomingCounters.mk [(9, 5)]) 9 4 true _ _)).
  - split_and!; simpl; [apply NoDup_singleton|lia|]. constructor; [|constructor].
    vm_compute. split; congruence.
  - vm_compute. split; congruence.
Defined.

(** With [nwkAllFresh] set, the counters accepted from one sender are
    strictly increasing over any sequence of received frames, whatever the other
    senders do: no frame is ever accepted twice. *)
Theorem accepted_strictly_increasing {H : Heapless} {K : nat} (frames : list (Z * Z))
    (s : IncomingCounters.t K) (x : Z) :
  IncomingCounters.wf s → Forall (λ f, uint 32 f.2) frames →
  StronglySorted Z.lt (List.filter (IncomingCounters.from_sender x) (accepted frames s)).*2.
Proof.
  intros Hwf Hf. revert s Hwf. induction Hf as [|[y w] frames Hw Hf IH]; intros s Hwf; simpl.
  { constructor. }
  simpl in Hw. pose proof (check_and_update_spec s y w true Hwf Hw) as Hc.
  destruct (IncomingCounters.check_and_update y w true s) as [[[]|e] s'].
  - destruct Hc as (_ & Hwf' & _ & [Hs'|[_ [? _]]]); [|done]. simpl.
    unfold IncomingCounters.from_sender at 1. simpl.
    destruct (Z.eqb_spec y x) as [->|Hne]; [|by apply IH]. simpl. constructor; [by apply IH|].
    apply Forall_forall. intros v ([z u] & -> & [Hin Hz]%list_elem_of_In%List.filter_In)%list_elem_of_fmap.
    apply Z.eqb_eq in Hz. simpl in *. subst z.
    assert (w + 1 ≤ u); [|lia].
    eapply (accepted_above frames s' x); [done..|by apply list_elem_of_In].
  - assert (s' = s) as -> by (destruct e; by destruct Hc). by apply IH.
Qed.

Lemma accepted_strictly_increasing_witness :
  accepted [(1, 5); (2, 3); (1, 5); (1, 4); (1, 9)] (IncomingCounters.new 4) =
    [(1, 5); (2, 3); (1, 9)] ∧
  StronglySorted Z.lt (List.filter (IncomingCounters.from_sender 1)
    (accepted [(1, 5); (2, 3); (1, 5); (1, 4); (1, 9)] (IncomingCounters.new 4))).*2.
Proof.
  split; [reflexivity|]. apply accepted_strictly_increasing.
  - split_and!; simpl; [constructor|lia|constructor].
  - repeat (constructor; [vm_compute; split; congruence|]). constructor.
Defined.
