(* ===== verification/AuxHeader.v ===== *)
(** * The auxiliary security header (panweave-security/src/aux_header.rs)

    The header carried by every secured NWK and APS frame, its wire format and
    the CCM* nonce built from it. *)

From S2P Require Import Prelude Codec.

Definition NONCE_LEN : nat := 13.

(** ** The security level *)

Module SecurityLevel.

Inductive t : Type :=
  | NoSecurity | Mic32 | Mic64 | Mic128 | Enc | EncMic32 | EncMic64 | EncMic128.

#[global] Instance eq_dec : EqDecision t.
Proof. solve_decision. Defined.

Definition from_raw (v : Z) : t :=
  match Z.land v 0x7 with
  | 0 => NoSecurity
  | 1 => Mic32
  | 2 => Mic64
  | 3 => Mic128
  | 4 => Enc
  | 5 => EncMic32
  | 6 => EncMic64
  | _ => EncMic128
  end.

Definition raw (l : t) : Z :=
  match l with
  | NoSecurity => 0 | Mic32 => 1 | Mic64 => 2 | Mic128 => 3
  | Enc => 4 | EncMic32 => 5 | EncMic64 => 6 | EncMic128 => 7
  end.

Definition mic_len (l : t) : nat :=
  match l with
  | NoSecurity | Enc => 0
  | Mic32 | EncMic32 => 4
  | Mic64 | EncMic64 => 8
  | Mic128 | EncMic128 => 16
  end.

Definition encrypts (l : t) : bool := negb (Z.land (raw l) 0x4 =? 0).

End SecurityLevel.

(** ** The key identifier *)

Module KeyIdentifier.

Inductive t : Type := Data | Network | KeyTransport | KeyLoad.

#[global] Instance eq_dec : EqDecision t.
Proof. solve_decision. Defined.

Definition from_raw (v : Z) : t :=
  match Z.land v 0x3 with
  | 0 => Data
  | 1 => Network
  | 2 => KeyTransport
  | _ => KeyLoad
  end.

Definition raw (k : t) : Z :=
  match k with Data => 0 | Network => 1 | KeyTransport => 2 | KeyLoad => 3 end.

End KeyIdentifier.

(** ** The security control octet *)

Module SecurityControl.

Record t : Type := mk {
  level : SecurityLevel.t;
  key_id : KeyIdentifier.t;
  extended_nonce : bool
}.

#[global] Instance eq_dec : EqDecision t.
Proof. solve_decision. Defined.

Definition from_raw (v : Z) : t :=
  mk (SecurityLevel.from_raw v) (KeyIdentifier.from_raw (Z.shiftr v 3))
     (negb (Z.land v 0x20 =? 0)).

Definition raw (c : t) : Z :=
  Z.lor (Z.lor (SecurityLevel.raw (level c)) (Z.shiftl (KeyIdentifier.raw (key_id c)) 3))
        (Z.shiftl (Z_of_bool (extended_nonce c)) 5).

Definition with_level (c : t) (l : SecurityLevel.t) : t := mk l (key_id c) (extended_nonce c).

End SecurityControl.

(** ** The header *)

Module AuxHeader.

Record t : Type := mk {
  control : SecurityControl.t;
  frame_counter : Z;
  source : option Z;
  key_sequence : option Z
}.

Definition network (level : SecurityLevel.t) (fc src ks : Z) : t :=
  mk (SecurityControl.mk level KeyIdentifier.Network true) fc (Some src) (Some ks).

Definition link (level : SecurityLevel.t) (kid : KeyIdentifier.t) (fc : Z) (src : option Z) : t :=
  mk (SecurityControl.mk level kid (is_some src)) fc src None.

Definition encoded_len (h : t) : nat :=
  1 + 4 + (if is_some (source h) then 8 else 0) + (if is_some (key_sequence h) then 1 else 0).

(** The 13 octets: source address, frame counter, control octet. *)
Definition nonce (h : t) (src : Z) : list Z :=
  let n := replicate NONCE_LEN 0 in
  let n := splice 0 (to_le 8 (default src (source h))) n in
  let n := splice 8 (to_le 4 (frame_counter h)) n in
  <[12%nat := SecurityControl.raw (control h)]> n.

#[global] Instance Decode_t : Decode t :=
  c ← Reader.u8;
  let control := SecurityControl.from_raw c in
  fc ← Reader.u32_le;
  src ← (if SecurityControl.extended_nonce control
         then s ← Reader.u64_le; mret (Some s) else mret None);
  ks ← (if bool_decide (SecurityControl.key_id control = KeyIdentifier.Network)
        then k ← Reader.u8; mret (Some k) else mret None);
  mret (mk control fc src ks).

#[global] Instance Encode_t : Encode t := {
  encoded_len := encoded_len;
  encode h :=
    if negb (eqb (SecurityControl.extended_nonce (control h)) (is_some (source h))) then
      fail (InvalidField "extended nonce" (Z_of_bool (SecurityControl.extended_nonce (control h))))
    else if negb (eqb (bool_decide (SecurityControl.key_id (control h) = KeyIdentifier.Network))
                      (is_some (key_sequence h))) then
      fail (InvalidField "key sequence number" (Z_of_bool (is_some (key_sequence h))))
    else
      Writer.u8 (SecurityControl.raw (control h));;
      Writer.u32_le (frame_counter h);;
      match source h with Some s => Writer.u64_le s | None => mret tt end;;
      match key_sequence h with Some k => Writer.u8 k | None => mret tt end;;
      mret tt
}.

(** The presence flags agree with the fields, and the fields fit. *)
Definition wf (h : t) : Prop :=
  SecurityControl.extended_nonce (control h) = is_some (source h) ∧
  bool_decide (SecurityControl.key_id (control h) = KeyIdentifier.Network)
    = is_some (key_sequence h) ∧
  uint 32 (frame_counter h) ∧
  from_option (uint 64) True (source h) ∧ from_option (uint 8) True (key_sequence h).

Definition wire (h : t) : list Z :=
  [SecurityControl.raw (control h)] ++ to_le 4 (frame_counter h) ++
  from_option (to_le 8) [] (source h) ++ from_option (λ k, [k]) [] (key_sequence h).

End AuxHeader.

(** ** The control octet *)

Section control.
Lemma level_raw_from_raw l : SecurityLevel.from_raw (SecurityLevel.raw l) = l.
Proof. by destruct l. Qed.

Lemma control_from_raw_raw c : SecurityControl.from_raw (SecurityControl.raw c) = c.
Proof. by destruct c as [[] [] []]. Qed.

Lemma control_raw_bound c : uint 8 (SecurityControl.raw c).
Proof. destruct c as [[] [] []]; vm_compute; split; congruence. Qed.

(** Parsing an octet drops only the reserved bits 6 and 7. *)
Lemma control_raw_from_raw v :
  uint 8 v → SecurityControl.raw (SecurityControl.from_raw v) = Z.land v 0x3F.
Proof.
  intros Hv. apply Z.eqb_eq. revert v Hv.
  apply (byte_forall (λ v, SecurityControl.raw (SecurityControl.from_raw v) =? Z.land v 0x3F)).
  vm_compute. reflexivity.
Qed.

(** Zeroing the level bits on the air and restoring them. *)
Lemma control_zero_level c :
  Z.land (SecurityControl.raw c) (Z.lnot 0x07)
  = SecurityControl.raw (SecurityControl.with_level c SecurityLevel.NoSecurity).
Proof. by destruct c as [[] [] []]. Qed.

Lemma mic_len_valid l : SecurityLevel.mic_len l ∈ [0%nat; 4%nat; 8%nat; 16%nat].
Proof. destruct l; set_solver. Qed.
End control.

(** ** The wire format *)

Section aux_header.
Implicit Types h : AuxHeader.t.

Lemma aux_writes h : AuxHeader.wf h → writes (encode h) (AuxHeader.wire h).
Proof.
  intros (He & Hk & _). simpl. rewrite He, Hk, !eqb_reflx. simpl.
  unfold AuxHeader.wire. apply writes_bind; [apply writes_u8|].
  apply writes_bind; [apply writes_u32|].
  apply writes_bind; [apply writes_opt; intros; apply writes_u64|].
  apply writes_bind_last; [|apply writes_ret].
  apply writes_opt. intros. apply writes_u8.
Qed.

Lemma aux_decodes h : AuxHeader.wf h → decodes decode (AuxHeader.wire h) h.
Proof.
  destruct h as [c fc src ks]. unfold AuxHeader.wf. simpl. intros (He & Hk & Hf & Hs & Hks).
  unfold AuxHeader.wire. cbn [AuxHeader.control AuxHeader.frame_counter AuxHeader.source AuxHeader.key_sequence].
  eapply decodes_bind; [apply decodes_u8|]. cbv zeta. rewrite control_from_raw_raw.
  eapply decodes_bind; [by apply decodes_u32|].
  eapply decodes_bind; [apply decodes_opt; [done|]; intros a ->; by apply decodes_u64|].
  rewrite <- (app_nil_r (from_option _ _ ks)).
  eapply decodes_bind; [apply decodes_opt; [done|]; intros a _; apply decodes_u8|].
  apply decodes_ret.
Qed.

Lemma aux_len h : AuxHeader.encoded_len h = length (AuxHeader.wire h).
Proof.
  unfold AuxHeader.encoded_len, AuxHeader.wire.
  by destruct (AuxHeader.source h), (AuxHeader.key_sequence h).
Qed.

#[export] Instance aux_Codec : Codec AuxHeader.t := {
  wire_ok := AuxHeader.wf;
  wire := AuxHeader.wire;
  codec_writes := aux_writes;
  codec_decodes := aux_decodes;
  codec_len h _ := aux_len h
}.

(** What the decoder consumed. *)
Lemma aux_parsed r r' h :
  bytes_ok (Reader.buf r) → decode r = (Ok h, r') →
  AuxHeader.wf h ∧
  ∃ c tl, parsed r (c :: tl) r' ∧ AuxHeader.wire h = Z.land c 0x3F :: tl.
Proof.
  intros Hok Hd. unfold decode, AuxHeader.Decode_t in Hd.
  apply se_bind_inv in Hd as (c & r1 & Hc & Hd). cbv zeta in Hd.
  apply se_bind_inv in Hd as (fc & r2 & Hf & Hd).
  apply se_bind_inv in Hd as (src & r3 & Hs & Hd).
  apply se_bind_inv in Hd as (ks & r4 & Hk & [= <- <-]).
  apply u8_parsed in Hc as [Pc Hc]; [|done].
  pose proof (parsed_bytes_ok _ _ _ Pc Hok) as [_ Hok1].
  apply u32_parsed in Hf as [Pf Hf]; [|done].
  pose proof (parsed_bytes_ok _ _ _ Pf Hok1) as [_ Hok2].
  apply (opt_parsed _ _ (to_le 8) (uint 64)) in Hs as (Ps & Es & Hs);
    [|intros a rr; by apply u64_parsed].
  pose proof (parsed_bytes_ok _ _ _ Ps Hok2) as [_ Hok3].
  apply (opt_parsed _ _ (λ k, [k]) (uint 8)) in Hk as (Pk & Ek & Hk);
    [|intros a rr; by apply u8_parsed].
  split; [by split_and!|].
  eexists c, _. split; [|unfold AuxHeader.wire; simpl; rewrite control_raw_from_raw by done; done].
  exact (parsed_trans _ _ _ _ _ Pc (parsed_trans _ _ _ _ _ Pf (parsed_trans _ _ _ _ _ Ps Pk))).
Qed.

Lemma nonce_eq h src :
  AuxHeader.nonce h src =
    to_le 8 (default src (AuxHeader.source h)) ++ to_le 4 (AuxHeader.frame_counter h) ++
    [SecurityControl.raw (AuxHeader.control h)].
Proof. reflexivity. Qed.

Lemma length_nonce h src : length (AuxHeader.nonce h src) = NONCE_LEN.
Proof. by rewrite nonce_eq. Qed.

Lemma network_wf l fc src ks :
  uint 32 fc → uint 64 src → uint 8 ks → AuxHeader.wf (AuxHeader.network l fc src ks).
Proof. by intros; split_and!. Qed.
End aux_header.

(** The auxiliary header survives the wire.  A header whose presence flags
    agree with its fields is written in exactly [encoded_len] octets and decoded
    back; one whose flags disagree is refused before anything is written. *)
Theorem aux_header_round_trip (h : AuxHeader.t) (out : list Z) :
  (AuxHeader.encoded_len h ≤ length out)%nat →
  (AuxHeader.wf h →
     ∃ out', encode_to_slice h out = (Ok (AuxHeader.encoded_len h), out') ∧
       decode_exact (take (AuxHeader.encoded_len h) out') = Ok h ∧
       drop (AuxHeader.encoded_len h) out' = drop (AuxHeader.encoded_len h) out) ∧
  (SecurityControl.extended_nonce (AuxHeader.control h) ≠ is_some (AuxHeader.source h) ∨
   bool_decide (SecurityControl.key_id (AuxHeader.control h) = KeyIdentifier.Network)
     ≠ is_some (AuxHeader.key_sequence h) →
     ∃ f v, encode_to_slice h out = (Err (InvalidField f v), out)).
Proof.
  intros Hlen. split; [intros Hwf; exact (codec_round_trip h out Hwf Hlen)|].
  intros Hbad. unfold encode_to_slice. simpl.
  destruct (eqb (SecurityControl.extended_nonce _) _) eqn:E1; simpl; [|eauto].
  destruct (eqb (bool_decide _) _) eqn:E2; simpl; [|eauto].
  apply eqb_prop in E1, E2. by destruct Hbad.
Qed.

Lemma aux_header_round_trip_witness :
  decode_exact (take 14 (snd (encode_to_slice
    (AuxHeader.network SecurityLevel.EncMic32 0x01020304 0x1122334455667788 7)
    (replicate 16 0)))) =
  Ok (AuxHeader.network SecurityLevel.EncMic32 0x01020304 0x1122334455667788 7).
Proof.
  destruct (aux_header_round_trip
    (AuxHeader.network SecurityLevel.EncMic32 0x01020304 0x1122334455667788 7) (replicate 16 0))
    as [Hok _]; [vm_compute; lia|].
  destruct Hok as (out' & Ho & Hd & _); [split_and!; vm_compute; done|].
  rewrite Ho. exact Hd.
Defined.

(** The decoder accepts nothing but encodings: from any octets it either
    fails or yields a well-formed header whose encoding is the octets consumed,
    up to the two reserved bits of the control octet, which it ignores. *)
Theorem aux_header_decode_canonical (r r' : Reader.t) (h : AuxHeader.t) :
  bytes_ok (Reader.buf r) → decode r = (Ok h, r') →
  AuxHeader.wf h ∧
  ∃ c tl, parsed r (c :: tl) r' ∧ AuxHeader.wire h = Z.land c 0x3F :: tl.
Proof. apply aux_parsed. Qed.

Lemma aux_header_decode_canonical_witness :
  ∃ c tl, parsed (Reader.new [0xD5; 1; 0; 0; 0]) (c :: tl) (Reader.mk [0xD5; 1; 0; 0; 0] 5) ∧
    AuxHeader.wire (AuxHeader.link SecurityLevel.EncMic32 KeyIdentifier.KeyTransport 1 None)
      = Z.land c 0x3F :: tl.
Proof.
  eapply aux_header_decode_canonical; [|reflexivity].
  repeat constructor; vm_compute; congruence.
Defined.

(** Nonces separate frames: two headers have the same CCM* nonce only when
    they agree on the address used, the frame counter and the control octet.
    Since the counters of one key never repeat, no nonce is ever reused. *)
Theorem nonce_injective (h1 h2 : AuxHeader.t) (s1 s2 : Z) :
  AuxHeader.wf h1 → AuxHeader.wf h2 → uint 64 s1 → uint 64 s2 →
  AuxHeader.nonce h1 s1 = AuxHeader.nonce h2 s2 →
  default s1 (AuxHeader.source h1) = default s2 (AuxHeader.source h2) ∧
  AuxHeader.frame_counter h1 = AuxHeader.frame_counter h2 ∧
  AuxHeader.control h1 = AuxHeader.control h2.
Proof.
  intros (_&_&Hf1&Hs1&_) (_&_&Hf2&Hs2&_) Hu1 Hu2. rewrite !nonce_eq. intros E.
  apply app_inj_1 in E as [Es E]; [|by rewrite !length_to_le].
  apply app_inj_1 in E as [Ef [= Ec]]; [|by rewrite !length_to_le].
  split_and!.
  - rewrite <- (from_to_le 8 (default s1 _)), <- (from_to_le 8 (default s2 _)), Es; [done|..].
    + by destruct (AuxHeader.source h2).
    + by destruct (AuxHeader.source h1).
  - by rewrite <- (from_to_le 4 (AuxHeader.frame_counter h1)), Ef, from_to_le by done.
  - by rewrite <- (control_from_raw_raw (AuxHeader.control h1)), Ec, control_from_raw_raw.
Qed.

Lemma nonce_injective_witness :
  AuxHeader.control (AuxHeader.network SecurityLevel.EncMic32 5 9 1) =
  AuxHeader.control (AuxHeader.network SecurityLevel.EncMic32 5 9 2).
Proof.
  eapply (nonce_injective (AuxHeader.network SecurityLevel.EncMic32 5 9 1)
    (AuxHeader.network SecurityLevel.EncMic32 5 9 2) 0 0);
    first [reflexivity | split_and!; vm_compute; done | vm_compute; split; congruence].
Defined.
