(* ===== verification/Ccm.v ===== *)
(** * The block cipher interface and CCM* (panweave-security/src/cipher.rs, ccm.rs)

    [BlockCipher] is the trait of cipher.rs: hardware engines and the software
    AES implement it outside this repository, so it is a class with the laws the
    mode relies on (a block is 16 octets, and decryption inverts encryption).
    [ConstantTimeEq] is the slice comparison of the [subtle] crate.  The mode
    itself, ccm.rs, is modelled in full. *)

From S2P Require Import Prelude AuxHeader.

(** Membership of [[u8; 16]]. *)
Definition block_ok (b : list Z) : Prop := length b = 16%nat ∧ bytes_ok b.

Class BlockCipher (C : Type) := {
  (** [C::new(key)] *)
  cipher_new : list Z → C;
  encrypt_block : C → list Z → list Z;
  decrypt_block : C → list Z → list Z;
  encrypt_block_len c b : length b = 16%nat → length (encrypt_block c b) = 16%nat;
  decrypt_block_len c b : length b = 16%nat → length (decrypt_block c b) = 16%nat;
  encrypt_block_bytes c b : block_ok b → bytes_ok (encrypt_block c b);
  decrypt_block_bytes c b : block_ok b → bytes_ok (decrypt_block c b);
  decrypt_encrypt_block c b : block_ok b → decrypt_block c (encrypt_block c b) = b
}.

Class ConstantTimeEq := {
  ct_eq : list Z → list Z → bool;
  ct_eq_spec a b : ct_eq a b = true ↔ a = b
}.

(** The slice comparison has an implementation. *)
#[export, refine] Instance list_ct_eq : ConstantTimeEq := {
  ct_eq a b := bool_decide (a = b)
}.
Proof. intros a b. apply bool_decide_eq_true. Defined.

Definition L : nat := 2.

Inductive CcmError : Type :=
  | InvalidMicLength
  | LengthOverflow
  | CcmTruncated
  | AuthenticationFailed.

#[export] Instance CcmError_eq_dec : EqDecision CcmError.
Proof. solve_decision. Defined.

(** [for (d, s) in dst.iter_mut().zip(src) { *d = *s }] *)
Fixpoint copy_prefix (dst src : list Z) : list Z :=
  match dst, src with
  | _ :: dst, s :: src => s :: copy_prefix dst src
  | _, _ => dst
  end.

(** [for (d, s) in dst.iter_mut().zip(src) { *d ^= *s }] *)
Fixpoint xor_into (dst src : list Z) : list Z :=
  match dst, src with
  | d :: dst, s :: src => Z.lxor d s :: xor_into dst src
  | _, _ => dst
  end.

(** [uN::try_from(n).unwrap_or(d)] *)
Definition try_from_or (max : Z) (n : nat) (d : Z) : Z :=
  if Z.of_nat n <=? max then Z.of_nat n else d.

Section ccm.
Context {C : Type} `{!BlockCipher C} {CT : ConstantTimeEq}.
Implicit Types (cipher : C) (nonce aad msg mic x rest data : list Z).

(** The absorption loop of [cbc_mac]; a round consumes at least one octet, so
    [length rest] rounds are enough. *)
Fixpoint absorb (fuel : nat) cipher x rest : list Z :=
  match fuel with
  | O => x
  | S fuel =>
      if (length rest =? 0)%nat then x
      else
        let n := Nat.min (length rest) 16 in
        let block := copy_prefix (replicate 16 0) (default [] (get_range rest 0 n)) in
        let x := encrypt_block cipher (xor_into x block) in
        absorb fuel cipher x (default [] (get_from rest n))
  end.

Definition cbc_mac cipher nonce aad msg (mic_len : nat) : list Z :=
  let m_field := if (mic_len =? 0)%nat then 0%nat else ((mic_len - 2) / 2)%nat in
  let flags :=
    Z.lor (Z.lor (Z.shiftl (Z_of_bool (negb (length aad =? 0)%nat)) 6)
                 (Z.shiftl (Z.land (try_from_or u8_max m_field 0) 0x7) 3))
          (Z.land (try_from_or u8_max (L - 1) 1) 0x7) in
  let x := replicate 16 0 in
  let x := <[0%nat := flags]> x in
  let x := splice 1 nonce x in
  let len := to_be 2 (try_from_or u16_max (length msg) u16_max) in
  let x := <[14%nat := nth 0 len 0]> x in
  let x := <[15%nat := nth 1 len 0]> x in
  let x := encrypt_block cipher x in
  let x :=
    if negb (length aad =? 0)%nat then
      let la := to_be 2 (try_from_or u16_max (length aad) u16_max) in
      let block := replicate 16 0 in
      let block := <[0%nat := nth 0 la 0]> block in
      let block := <[1%nat := nth 1 la 0]> block in
      let first := Nat.min (length aad) 14 in
      let block := take 2 block ++ copy_prefix (drop 2 block) (default [] (get_range aad 0 first)) in
      let x := encrypt_block cipher (xor_into x block) in
      let rest := default [] (get_from aad first) in
      absorb (length rest) cipher x rest
    else x in
  absorb (length msg) cipher x msg.

Definition ctr_block cipher nonce (counter : Z) : list Z :=
  let a := replicate 16 0 in
  let a := <[0%nat := Z.land (try_from_or u8_max (L - 1) 1) 0x7]> a in
  let a := splice 1 nonce a in
  let c := to_be 2 counter in
  let a := <[14%nat := nth 0 c 0]> a in
  let a := <[15%nat := nth 1 c 0]> a in
  encrypt_block cipher a.

(** [for (i, chunk) in data.chunks_mut(16).enumerate()]: at most one chunk per
    octet. *)
Fixpoint ctr_chunks (fuel : nat) cipher nonce (i : nat) data : list Z :=
  match fuel with
  | O => data
  | S fuel =>
      if (length data =? 0)%nat then []
      else
        let counter := try_from_or u16_max (i + 1) u16_max in
        let ks := ctr_block cipher nonce counter in
        xor_into (take 16 data) ks ++ ctr_chunks fuel cipher nonce (i + 1) (drop 16 data)
  end.

Definition ctr_xor cipher nonce data : list Z :=
  ctr_chunks (length data) cipher nonce 0 data.

Definition check_params (aad_len msg_len mic_len : nat) : result unit CcmError :=
  if negb (bool_decide (mic_len ∈ [0; 4; 8; 16]%nat)) then Err InvalidMicLength
  else if (0xFFFF <? Z.of_nat msg_len) || (0xFF00 <=? Z.of_nat aad_len) then Err LengthOverflow
  else Ok tt.

(** The result and the contents of [msg] and [mic] afterwards. *)
Definition encrypt_in_place cipher nonce aad msg mic : result unit CcmError * (list Z * list Z) :=
  match check_params (length aad) (length msg) (length mic) with
  | Err e => (Err e, (msg, mic))
  | Ok _ =>
      let tag := cbc_mac cipher nonce aad msg (length mic) in
      let msg := ctr_xor cipher nonce msg in
      let s0 := ctr_block cipher nonce 0 in
      (Ok tt, (msg, copy_prefix mic (zip_with Z.lxor tag s0)))
  end.

(** The result and the contents of [msg] afterwards. *)
Definition decrypt_in_place cipher nonce aad msg mic : result unit CcmError * list Z :=
  match check_params (length aad) (length msg) (length mic) with
  | Err e => (Err e, msg)
  | Ok _ =>
      let s0 := ctr_block cipher nonce 0 in
      let tag := copy_prefix (replicate 16 0) (zip_with Z.lxor mic s0) in
      let msg := ctr_xor cipher nonce msg in
      let expected := cbc_mac cipher nonce aad msg (length mic) in
      let ok := ct_eq (default [] (get_range expected 0 (length mic)))
                      (default [] (get_range tag 0 (length mic))) in
      if ok then (Ok tt, msg)
      else (Err AuthenticationFailed, replicate (length msg) 0)
  end.

Definition encrypt_buffer cipher nonce aad (buf : list Z) (mic_len : nat)
    : result unit CcmError * list Z :=
  if (length buf <? mic_len)%nat then (Err CcmTruncated, buf)
  else
    let split := (length buf - mic_len)%nat in
    let '(r, (msg, mic)) := encrypt_in_place cipher nonce aad (take split buf) (drop split buf) in
    (r, msg ++ mic).

Definition decrypt_buffer cipher nonce aad (buf : list Z) (mic_len : nat)
    : result unit CcmError * list Z :=
  if (length buf <? mic_len)%nat then (Err CcmTruncated, buf)
  else
    let split := (length buf - mic_len)%nat in
    let '(r, msg) := decrypt_in_place cipher nonce aad (take split buf) (drop split buf) in
    (r, msg ++ drop split buf).

End ccm.

(** ** Zipping loops *)

Section zip_loops.
Implicit Types a b l : list Z.

Lemma length_copy_prefix a b : length (copy_prefix a b) = length a.
Proof. revert b. induction a; intros []; simpl; auto. Qed.

Lemma length_xor_into a b : length (xor_into a b) = length a.
Proof. revert b. induction a; intros []; simpl; auto. Qed.

Lemma copy_prefix_app a b :
  (length b ≤ length a)%nat → copy_prefix a b = b ++ drop (length b) a.
Proof.
  revert b. induction a as [|x a IH]; intros [|y b]; simpl; intros; try done; [lia|].
  by rewrite IH by lia.
Qed.

Lemma copy_prefix_long a b : (length a ≤ length b)%nat → copy_prefix a b = take (length a) b.
Proof.
  revert b. induction a as [|x a IH]; intros [|y b]; simpl; intros; try done; [lia|].
  by rewrite IH by lia.
Qed.

Lemma xor_into_zip a b : length a = length b → xor_into a b = zip_with Z.lxor a b.
Proof. revert b. induction a; intros []; simpl; intros; try done. f_equal. auto. Qed.

Lemma xor_into_involutive a b : xor_into (xor_into a b) b = a.
Proof.
  revert b. induction a as [|x a IH]; intros [|y b]; simpl; try done.
  by rewrite IH, Z.lxor_assoc, Z.lxor_nilpotent, Z.lxor_0_r.
Qed.

Lemma zip_lxor_zero l n : (length l ≤ n)%nat → zip_with Z.lxor (replicate n 0) l = l.
Proof. revert n. induction l; intros [|n]; simpl; intros; try done; [lia|]. f_equal. apply IHl. lia. Qed.

(** The tag xored twice with the keystream. *)
Lemma zip_lxor_cancel a b : (length a ≤ length b)%nat → zip_with Z.lxor (zip_with Z.lxor a b) b = a.
Proof.
  revert b. induction a as [|x a IH]; intros [|y b]; simpl; intros; try done; [lia|].
  by rewrite IH, Z.lxor_assoc, Z.lxor_nilpotent, Z.lxor_0_r by lia.
Qed.

Lemma take_zip_lxor n a b : take n (zip_with Z.lxor a b) = zip_with Z.lxor (take n a) b.
Proof. revert n b. induction a; intros [|n] []; simpl; try done. by f_equal. Qed.
End zip_loops.

#[export] Hint Rewrite length_copy_prefix length_xor_into @length_insert : len.

(** ** Blocks *)

(** The 16-octet blocks of data that fills them. *)
Definition blocks (l : list Z) : list (list Z) := reshape (replicate (length l / 16) 16%nat) l.

(** Zero padding to a block multiple. *)
Definition pad16 (l : list Z) : list Z := l ++ replicate ((16 - length l mod 16) mod 16) 0.

Section blocks.
Implicit Types b l : list Z.

Lemma blocks_cons b l : length b = 16%nat → blocks (b ++ l) = b :: blocks l.
Proof.
  intros Hb. unfold blocks. rewrite length_app, Hb.
  replace ((16 + length l) / 16)%nat with (S (length l / 16)).
  - simpl. by rewrite take_app_length', drop_app_length' by done.
  - symmetry. exact (Nat.div_add_l 1 16 (length l) ltac:(lia)).
Qed.

Lemma blocks_app k l1 l2 : length l1 = (16 * k)%nat → blocks (l1 ++ l2) = blocks l1 ++ blocks l2.
Proof.
  revert l1. induction k as [|k IH]; intros l1 Hl.
  { destruct l1; [done|simpl in Hl; lia]. }
  rewrite <- (take_drop 16 l1) at 1 2.
  rewrite <- app_assoc, !blocks_cons by (rewrite length_take; lia).
  rewrite IH by (rewrite length_drop; lia).
  by rewrite blocks_cons by (rewrite length_take; lia).
Qed.

Lemma pad16_cons b l : length b = 16%nat → pad16 (b ++ l) = b ++ pad16 l.
Proof.
  intros Hb. unfold pad16. rewrite length_app, Hb, <- app_assoc.
  by rewrite <- Nat.Div0.add_mod_idemp_l, Nat.Div0.mod_same.
Qed.

Lemma pad16_short l : (0 < length l ≤ 16)%nat → pad16 l = l ++ replicate (16 - length l) 0.
Proof.
  intros Hl. unfold pad16. do 2 f_equal.
  destruct (decide (length l = 16)%nat) as [->|]; [done|].
  rewrite (Nat.mod_small (length l)) by lia. rewrite Nat.mod_small; lia.
Qed.

Lemma length_pad16 l : ∃ k, length (pad16 l) = (16 * k)%nat.
Proof.
  unfold pad16. rewrite length_app, length_replicate.
  pose proof (Nat.div_mod_eq (length l) 16). pose proof (Nat.mod_upper_bound (length l) 16 ltac:(lia)).
  destruct (decide (length l mod 16 = 0)%nat) as [E|E].
  - rewrite E, Nat.sub_0_r, Nat.Div0.mod_same. exists (length l / 16)%nat. lia.
  - rewrite (Nat.mod_small (16 - _)) by lia. exists (S (length l / 16)). lia.
Qed.
End blocks.

(** ** The modes *)

Section mode.
Context {C : Type} `{!BlockCipher C} {CT : ConstantTimeEq}.
Implicit Types (cipher : C) (nonce aad msg mic x rest data : list Z).

(** One CBC-MAC step. *)
Definition cbc_step cipher x (b : list Z) : list Z := encrypt_block cipher (zip_with Z.lxor x b).

Lemma length_cbc_step cipher x b :
  length x = 16%nat → length b = 16%nat → length (cbc_step cipher x b) = 16%nat.
Proof. intros Hx Hb. apply encrypt_block_len. rewrite length_zip_with, Hx, Hb. done. Qed.

Lemma absorb_block rest :
  rest ≠ [] →
  copy_prefix (replicate 16 0) (default [] (get_range rest 0 (Nat.min (length rest) 16)))
    = take 16 rest ++ replicate (16 - length rest) 0.
Proof.
  intros Hne. rewrite get_range_Some by lia. change (default [] (Some ?l)) with l. rewrite drop_0, Nat.sub_0_r.
  rewrite copy_prefix_app by len. rewrite length_take, drop_replicate. f_equal.
  - destruct (decide (length rest ≤ 16)%nat); [by rewrite !take_ge by lia|]. f_equal. lia.
  - f_equal. lia.
Qed.

(** The absorption loop is the CBC-MAC of the padded data. *)
Lemma absorb_spec fuel cipher x rest :
  (length rest ≤ fuel)%nat → length x = 16%nat →
  absorb fuel cipher x rest = foldl (cbc_step cipher) x (blocks (pad16 rest)).
Proof.
  revert x rest. induction fuel as [|fuel IH]; intros x rest Hf Hx; cbn [absorb].
  { destruct rest; [done|simpl in Hf; lia]. }
  destruct (Nat.eqb_spec (length rest) 0) as [E|E]; [by destruct rest|].
  assert (rest ≠ []) as Hne by (by intros ->).
  cbv zeta. rewrite absorb_block by done. unfold get_from.
  rewrite (proj2 (Nat.leb_le _ _)) by lia. change (default [] (Some ?l)) with l.
  assert (length (take 16 rest ++ replicate (16 - length rest) 0) = 16%nat) as Hb by len.
  rewrite xor_into_zip by lia. fold (cbc_step cipher x (take 16 rest ++ replicate (16 - length rest) 0)).
  rewrite IH; [|len|by apply length_cbc_step].
  destruct (decide (length rest ≤ 16)%nat) as [Hs|Hl].
  - rewrite (drop_ge rest), (take_ge rest) by lia. rewrite (pad16_short rest) by lia.
    rewrite <- (app_nil_r (rest ++ _)) at 2.
    rewrite blocks_cons by (rewrite take_ge in Hb by lia; done). done.
  - replace (Nat.min (length rest) 16) with 16%nat by lia.
    replace (16 - length rest)%nat with 0%nat by lia. rewrite app_nil_r.
    rewrite <- (take_drop 16 rest) at 3.
    by rewrite pad16_cons, blocks_cons by len.
Qed.

Lemma length_absorb fuel cipher x rest :
  length x = 16%nat → length (absorb fuel cipher x rest) = 16%nat.
Proof.
  revert x rest. induction fuel as [|fuel IH]; intros x rest Hx; cbn [absorb]; [done|].
  case_match; [done|]. apply IH, encrypt_block_len. by rewrite length_xor_into.
Qed.

(** [ctr_chunks] keeps the length and undoes itself. *)
Lemma length_ctr_chunks fuel cipher nonce i data :
  length (ctr_chunks fuel cipher nonce i data) = length data.
Proof.
  revert i data. induction fuel as [|fuel IH]; intros i data; simpl; [done|].
  destruct (Nat.eqb_spec (length data) 0); [done|]. rewrite length_app, IH. len.
Qed.

Lemma ctr_chunks_involutive fuel cipher nonce i data :
  (length data ≤ fuel)%nat →
  ctr_chunks fuel cipher nonce i (ctr_chunks fuel cipher nonce i data) = data.
Proof.
  revert i data. induction fuel as [|fuel IH]; intros i data Hf; [done|]. simpl.
  destruct (Nat.eqb_spec (length data) 0) as [E|E]; [by destruct data|].
  set (c := xor_into (take 16 data) _).
  rewrite length_app, length_ctr_chunks.
  destruct (Nat.eqb_spec (length c + length (drop 16 data)) 0) as [E'|_].
  { subst c. revert E'. len. }
  destruct (decide (length data ≤ 16)%nat) as [Hs|Hl].
  - rewrite (drop_ge data) by lia. subst c. rewrite (take_ge data) by lia.
    assert (∀ j, ctr_chunks fuel cipher nonce j [] = []) as Hnil by (by destruct fuel).
    rewrite !Hnil, !app_nil_r, take_ge, drop_ge by len.
    by rewrite Hnil, app_nil_r, xor_into_involutive.
  - assert (length c = 16%nat) as Hc by (subst c; len).
    rewrite take_app_length', drop_app_length' by done.
    rewrite IH by len. subst c. by rewrite xor_into_involutive, take_drop.
Qed.

Lemma ctr_xor_involutive cipher nonce data :
  ctr_xor cipher nonce (ctr_xor cipher nonce data) = data.
Proof.
  unfold ctr_xor. rewrite length_ctr_chunks. by apply ctr_chunks_involutive.
Qed.

Lemma length_ctr_xor cipher nonce data : length (ctr_xor cipher nonce data) = length data.
Proof. apply length_ctr_chunks. Qed.

Lemma length_ctr_block cipher nonce n :
  length nonce = NONCE_LEN → length (ctr_block cipher nonce n) = 16%nat.
Proof.
  intros Hn. apply encrypt_block_len. rewrite !length_insert, length_splice; [by rewrite length_insert|].
  rewrite Hn, length_insert, length_replicate. unfold NONCE_LEN. lia.
Qed.

(** The first block: a flags octet, the nonce, two octets. *)
Lemma frame_block nonce h a b :
  length nonce = NONCE_LEN →
  <[15%nat:=b]> (<[14%nat:=a]> (splice 1 nonce (<[0%nat:=h]> (replicate 16 0))))
    = h :: nonce ++ [a; b].
Proof.
  intros Hn. do 13 (destruct nonce as [|? nonce]; [done|]). destruct nonce; [|done]. reflexivity.
Qed.

(** The authenticated data with its length, as Annex A encodes it. *)
Definition auth_data aad : list Z :=
  if (length aad =? 0)%nat then [] else to_be 2 (Z.of_nat (length aad)) ++ aad.

(** [B0 || AddAuthData || Msg], padded. *)
Definition mac_input nonce aad msg (mic_len : nat) : list Z :=
  ((Z_of_bool (negb (length aad =? 0)%nat) * 64 + Z.of_nat ((mic_len - 2) / 2) * 8 + 1)
     :: nonce ++ to_be 2 (Z.of_nat (length msg))) ++
  pad16 (auth_data aad) ++ pad16 msg.

Lemma check_params_inv a m t :
  check_params a m t = Ok tt →
  t ∈ [0; 4; 8; 16]%nat ∧ Z.of_nat m ≤ u16_max ∧ Z.of_nat a < 0xFF00.
Proof.
  unfold check_params. case_bool_decide as E; simpl; [|done].
  destruct (Z.ltb_spec 0xFFFF (Z.of_nat m)); simpl; [done|].
  destruct (Z.leb_spec 0xFF00 (Z.of_nat a)); simpl; [done|].
  intros _. unfold u16_max. split_and!; [done|lia..].
Qed.

Lemma try_from_or_small max n d : Z.of_nat n ≤ max → try_from_or max n d = Z.of_nat n.
Proof. intros H. unfold try_from_or. by rewrite (proj2 (Z.leb_le _ _) H). Qed.

(** Absorbing the first block of the authenticated data and then the rest. *)
Lemma absorb_aad cipher x aad la :
  length x = 16%nat → length la = 2%nat → aad ≠ [] →
  absorb (length (drop (Nat.min (length aad) 14) aad)) cipher
    (encrypt_block cipher (xor_into x
      (la ++ copy_prefix (replicate 14 0) (take (Nat.min (length aad) 14) aad))))
    (drop (Nat.min (length aad) 14) aad)
  = foldl (cbc_step cipher) x (blocks (pad16 (la ++ aad))).
Proof.
  intros Hx Hla Hne. rewrite copy_prefix_app by len.
  rewrite length_take, drop_replicate.
  set (b := la ++ _). assert (length b = 16%nat) as Hb by (subst b; len).
  rewrite xor_into_zip by lia. fold (cbc_step cipher x b).
  rewrite absorb_spec by (done || by apply length_cbc_step).
  assert (0 < length aad)%nat by (destruct aad; simpl; [done|lia]).
  destruct (decide (length aad ≤ 14)%nat) as [Hs|Hl].
  - rewrite (drop_ge aad) by lia. rewrite (pad16_short (la ++ aad)) by len.
    rewrite <- (app_nil_r (_ ++ replicate _ _)).
    assert (b = (la ++ aad) ++ replicate (16 - length (la ++ aad)) 0) as <-.
    { subst b. rewrite <- app_assoc, take_ge, length_app by lia. do 3 f_equal. lia. }
    by rewrite blocks_cons.
  - replace (Nat.min (length aad) 14) with 14%nat in * by lia.
    rewrite <- (take_drop 14 aad) at 2. rewrite app_assoc.
    replace b with (la ++ take 14 aad) in *.
    2: { subst b. replace (14 - _)%nat with 0%nat by lia. rewrite app_nil_r. do 2 f_equal. lia. }
    by rewrite pad16_cons, blocks_cons.
Qed.

Lemma cbc_mac_spec cipher nonce aad msg mic_len :
  length nonce = NONCE_LEN → check_params (length aad) (length msg) mic_len = Ok tt →
  cbc_mac cipher nonce aad msg mic_len =
    foldl (cbc_step cipher) (replicate 16 0) (blocks (mac_input nonce aad msg mic_len)).
Proof.
  intros Hn Hp. apply check_params_inv in Hp as (Ht & Hm & Ha).
  unfold cbc_mac, mac_input. cbv zeta. rewrite frame_block by done.
  rewrite !(try_from_or_small u16_max) by (unfold u16_max in *; lia).
  set (b0 := _ :: nonce ++ [_; _]). set (b0' := _ :: nonce ++ _).
  assert (b0 = b0') as <-.
  { subst b0 b0'. f_equal. destruct (length aad =? 0)%nat;
      repeat (apply elem_of_cons in Ht as [->|Ht]; [reflexivity|]); by apply not_elem_of_nil in Ht. }
  assert (length b0 = 16%nat) as Hb0 by (subst b0; simpl; len; by rewrite Hn).
  rewrite blocks_cons by done. cbn [foldl].
  assert (cbc_step cipher (replicate 16 0) b0 = encrypt_block cipher b0) as ->.
  { unfold cbc_step. by rewrite zip_lxor_zero by lia. }
  assert (length (encrypt_block cipher b0) = 16%nat) as Hx by by apply encrypt_block_len.
  destruct (length_pad16 (auth_data aad)) as [k Hk].
  rewrite (blocks_app k), foldl_app by done. unfold auth_data.
  destruct (Nat.eqb_spec (length aad) 0) as [E|E]; cbn [negb].
  { by rewrite absorb_spec. }
  assert (aad ≠ []) as Hne by (by intros ->).
  rewrite (get_range_Some aad), Nat.sub_0_r, drop_0 by lia. unfold get_from.
  rewrite (proj2 (Nat.leb_le _ _)) by lia. change (default [] (Some ?l)) with l.
  pose proof (absorb_aad cipher (encrypt_block cipher b0) aad
    (to_be 2 (Z.of_nat (length aad))) Hx eq_refl Hne) as HA.
  change (take 2 _ ++ copy_prefix (drop 2 _) ?l)
    with (to_be 2 (Z.of_nat (length aad)) ++ copy_prefix (replicate 14 0) l).
  rewrite absorb_spec; [by rewrite HA|done|].
  by apply length_absorb, encrypt_block_len; rewrite length_xor_into.
Qed.
End mode.

Section accept.
Context {C : Type} `{!BlockCipher C} {CT : ConstantTimeEq}.
Implicit Types (cipher : C) (nonce aad msg mic : list Z).

Lemma length_cbc_mac cipher nonce aad msg t :
  length nonce = NONCE_LEN → length (cbc_mac cipher nonce aad msg t) = 16%nat.
Proof.
  intros Hn. unfold cbc_mac. cbv zeta. rewrite frame_block by done. apply length_absorb.
  assert (∀ h a b, length (encrypt_block cipher (h :: nonce ++ [a; b])) = 16%nat) as Hx.
  { intros. apply encrypt_block_len. simpl. rewrite length_app, Hn. done. }
  case_match; [|apply Hx]. apply length_absorb, encrypt_block_len. rewrite length_xor_into. apply Hx.
Qed.

(** The encrypted tag [U] of a message. *)
Definition mic_of cipher nonce aad msg (t : nat) : list Z :=
  take t (zip_with Z.lxor (cbc_mac cipher nonce aad msg t) (ctr_block cipher nonce 0)).

Lemma mic_len_le a m t : check_params a m t = Ok tt → (t ≤ 16)%nat.
Proof.
  intros [Ht _]%check_params_inv.
  repeat (apply elem_of_cons in Ht as [->|Ht]; [lia|]). by apply not_elem_of_nil in Ht.
Qed.

Lemma encrypt_spec cipher nonce aad msg mic :
  length nonce = NONCE_LEN → check_params (length aad) (length msg) (length mic) = Ok tt →
  encrypt_in_place cipher nonce aad msg mic =
    (Ok tt, (ctr_xor cipher nonce msg, mic_of cipher nonce aad msg (length mic))).
Proof.
  intros Hn Hp. unfold encrypt_in_place. rewrite Hp. unfold mic_of.
  pose proof (mic_len_le _ _ _ Hp).
  rewrite copy_prefix_long; [done|].
  rewrite length_zip_with, length_cbc_mac, length_ctr_block by done. done.
Qed.

(** The tag recovered from a received MIC matches exactly when the MIC is the
    one the sender computes. *)
Lemma tag_matches (expected s0 mic : list Z) :
  length expected = 16%nat → length s0 = 16%nat → (length mic ≤ 16)%nat →
  take (length mic) expected =
    take (length mic) (copy_prefix (replicate 16 0) (zip_with Z.lxor mic s0))
  ↔ mic = take (length mic) (zip_with Z.lxor expected s0).
Proof.
  intros He Hs Hm. rewrite take_zip_lxor.
  assert (length (zip_with Z.lxor mic s0) = length mic) as Hl by (rewrite length_zip_with; lia).
  rewrite copy_prefix_app by (rewrite Hl, length_replicate; lia).
  rewrite take_app_length' by done. split; intros E.
  - rewrite E. by rewrite zip_lxor_cancel by lia.
  - rewrite E at 2. rewrite zip_lxor_cancel; [done|]. rewrite length_take. lia.
Qed.

Lemma decrypt_spec cipher nonce aad ct mic :
  length nonce = NONCE_LEN → check_params (length aad) (length ct) (length mic) = Ok tt →
  let m := ctr_xor cipher nonce ct in
  decrypt_in_place cipher nonce aad ct mic =
    if bool_decide (mic = mic_of cipher nonce aad m (length mic)) then (Ok tt, m)
    else (Err AuthenticationFailed, replicate (length ct) 0).
Proof.
  intros Hn Hp m. unfold decrypt_in_place. rewrite Hp. fold m.
  pose proof (mic_len_le _ _ _ Hp) as Hle.
  rewrite !get_range_Some; [|rewrite ?length_copy_prefix, ?length_replicate, ?length_cbc_mac by done; lia..].
  change (default [] (Some ?l)) with l. rewrite !drop_0, !Nat.sub_0_r.
  assert (length m = length ct) as Hm by apply length_ctr_xor.
  pose proof (tag_matches (cbc_mac cipher nonce aad m (length mic)) (ctr_block cipher nonce 0) mic
    (length_cbc_mac _ _ _ _ _ Hn) (length_ctr_block _ _ _ Hn) Hle) as Htag.
  destruct (ct_eq _ _) eqn:E; case_bool_decide as Ht; try done.
  - destruct Ht. by apply Htag, ct_eq_spec.
  - by apply Htag, ct_eq_spec in Ht; rewrite Ht in E.
  - by rewrite Hm.
Qed.

Lemma decrypt_Ok cipher nonce aad ct mic m :
  length nonce = NONCE_LEN → decrypt_in_place cipher nonce aad ct mic = (Ok tt, m) →
  check_params (length aad) (length ct) (length mic) = Ok tt ∧
  m = ctr_xor cipher nonce ct ∧ mic = mic_of cipher nonce aad m (length mic).
Proof.
  intros Hn Hd. destruct (check_params _ _ _) as [[]|e] eqn:Hp.
  - rewrite decrypt_spec in Hd by done. case_bool_decide; [|done]. by injection Hd as <-.
  - unfold decrypt_in_place in Hd. by rewrite Hp in Hd.
Qed.

Lemma decrypt_Err cipher nonce aad ct mic e m :
  decrypt_in_place cipher nonce aad ct mic = (Err e, m) →
  m = if bool_decide (e = AuthenticationFailed) then replicate (length ct) 0 else ct.
Proof.
  unfold decrypt_in_place. destruct (check_params _ _ _) as [[]|e'] eqn:Hp.
  - case_match; [done|]. intros [= <- <-]. by rewrite length_ctr_xor.
  - intros [= <- <-]. rewrite bool_decide_false; [done|]. intros ->.
    unfold check_params in Hp. by repeat case_match.
Qed.
End accept.

(** A cipher to evaluate with: every octet shifted by a constant. *)
#[export, refine] Instance shift_cipher : BlockCipher Z := {
  cipher_new key := foldl Z.add 0 key;
  encrypt_block k b := (λ z, (z + k) mod 256) <$> b;
  decrypt_block k b := (λ z, (z - k) mod 256) <$> b
}.
Proof.
  - intros. by rewrite length_fmap.
  - intros. by rewrite length_fmap.
  - intros c b _. apply Forall_fmap, Forall_true. intros z. apply (Z.mod_pos_bound _ 256). lia.
  - intros c b _. apply Forall_fmap, Forall_true. intros z. apply (Z.mod_pos_bound _ 256). lia.
  - intros c b [_ Hb]. induction Hb as [|z b Hz Hb IH]; simpl; [done|]. f_equal; [|done].
    unfold uint in Hz. change (2 ^ 8) with 256 in Hz.
    rewrite Zminus_mod_idemp_l. replace (z + c - c) with z by lia. by apply Z.mod_small.
Defined.

(** The in-place CBC-MAC of [cbc_mac] (first block built by hand, the
    authenticated data and the message absorbed in partial blocks) computes the
    authentication transformation of Annex A: CBC over [B0], the length-prefixed
    authenticated data and the message, each zero-padded to whole blocks. *)
Theorem cbc_mac_reference {C} `{!BlockCipher C} (cipher : C) (nonce aad msg : list Z) (mic_len : nat) :
  length nonce = NONCE_LEN → check_params (length aad) (length msg) mic_len = Ok tt →
  cbc_mac cipher nonce aad msg mic_len =
    foldl (cbc_step cipher) (replicate 16 0) (blocks (mac_input nonce aad msg mic_len)).
Proof. apply cbc_mac_spec. Qed.

Lemma cbc_mac_reference_witness :
  cbc_mac 7 (seqZ 1 13) (seqZ 1 20) (seqZ 1 17) 8 =
    foldl (cbc_step 7) (replicate 16 0) (blocks (mac_input (seqZ 1 13) (seqZ 1 20) (seqZ 1 17) 8)).
Proof. apply (cbc_mac_reference 7 (seqZ 1 13) (seqZ 1 20) (seqZ 1 17) 8); vm_compute; reflexivity. Defined.

(** C5. CCM* decryption accepts exactly what encryption produces.  On success
    the buffer holds the one message whose encryption under the same key, nonce
    and authenticated data is the received ciphertext and MIC; on an
    authentication failure no message has that encryption, and the buffer is
    zeroed so that nothing unauthenticated is released; on a parameter error the
    buffer is untouched. *)
Theorem ccm_decrypt_accepts_exactly {C} `{!BlockCipher C} {CT : ConstantTimeEq}
    (cipher : C) (nonce aad ct mic : list Z) :
  length nonce = NONCE_LEN →
  match decrypt_in_place cipher nonce aad ct mic with
  | (Ok _, m) =>
      length m = length ct ∧
      encrypt_in_place cipher nonce aad m (replicate (length mic) 0) = (Ok tt, (ct, mic))
  | (Err AuthenticationFailed, m) =>
      m = replicate (length ct) 0 ∧
      ∀ m' mic', length mic' = length mic →
        encrypt_in_place cipher nonce aad m' mic' ≠ (Ok tt, (ct, mic))
  | (Err e, m) => m = ct ∧ check_params (length aad) (length ct) (length mic) = Err e
  end.
Proof.
  intros Hn. destruct (check_params (length aad) (length ct) (length mic)) as [[]|e] eqn:Hp.
  2: { unfold decrypt_in_place. rewrite Hp. destruct e; try done.
       unfold check_params in Hp. repeat case_match; done. }
  rewrite decrypt_spec by done.
  set (m := ctr_xor cipher nonce ct). assert (length m = length ct) as Hm by apply length_ctr_xor.
  case_bool_decide as E.
  - split; [done|]. rewrite encrypt_spec; [|done|by rewrite Hm, length_replicate].
    rewrite length_replicate, <- E. unfold m. by rewrite ctr_xor_involutive.
  - split; [done|]. intros m' mic' Hl He.
    assert (length m' = length ct) as Hm'.
    { unfold encrypt_in_place in He. case_match; [|done]. injection He as <- _. by rewrite length_ctr_xor. }
    rewrite encrypt_spec in He by (by rewrite ?Hm', ?Hl). injection He as Hc Hmic.
    destruct E. unfold m. rewrite <- Hc, ctr_xor_involutive. by rewrite Hl in Hmic.
Qed.

Lemma ccm_decrypt_accepts_exactly_witness :
  let '(ct, mic) := snd (encrypt_in_place 7 (seqZ 1 13) [1; 2] [10; 20; 30] [0; 0; 0; 0]) in
  fst (decrypt_in_place 7 (seqZ 1 13) [1; 2] ct mic) = Ok tt ∧
  encrypt_in_place 7 (seqZ 1 13) [1; 2]
    (snd (decrypt_in_place 7 (seqZ 1 13) [1; 2] ct mic)) (replicate 4 0) = (Ok tt, (ct, mic)).
Proof.
  split; [vm_compute; reflexivity|].
  exact (proj2 (ccm_decrypt_accepts_exactly 7 (seqZ 1 13) [1; 2]
    (fst (snd (encrypt_in_place 7 (seqZ 1 13) [1; 2] [10; 20; 30] [0; 0; 0; 0])))
    (snd (snd (encrypt_in_place 7 (seqZ 1 13) [1; 2] [10; 20; 30] [0; 0; 0; 0]))) eq_refl)).
Defined.

(** A buffer [message || MIC] encrypted in place and decrypted in place is
    the message again, for every parameter set the mode accepts; the ciphertext
    has the length of the message, and a buffer shorter than its MIC is refused
    untouched. *)
Theorem ccm_buffer_round_trip {C} `{!BlockCipher C} {CT : ConstantTimeEq}
    (cipher : C) (nonce aad buf : list Z) (mic_len : nat) :
  length nonce = NONCE_LEN →
  ((length buf < mic_len)%nat →
     encrypt_buffer cipher nonce aad buf mic_len = (Err CcmTruncated, buf) ∧
     decrypt_buffer cipher nonce aad buf mic_len = (Err CcmTruncated, buf)) ∧
  ((mic_len ≤ length buf)%nat →
   check_params (length aad) (length buf - mic_len) mic_len = Ok tt →
   ∃ sec out, encrypt_buffer cipher nonce aad buf mic_len = (Ok tt, sec) ∧
     length sec = length buf ∧
     decrypt_buffer cipher nonce aad sec mic_len = (Ok tt, out) ∧
     take (length buf - mic_len) out = take (length buf - mic_len) buf).
Proof.
  intros Hn. unfold encrypt_buffer, decrypt_buffer. split.
  { intros Hs. by rewrite (proj2 (Nat.ltb_lt _ _) Hs). }
  intros Hl Hp. rewrite (proj2 (Nat.ltb_ge _ _) Hl).
  set (sp := (length buf - mic_len)%nat) in *.
  assert (length (take sp buf) = sp) as Hm by len.
  assert (length (drop sp buf) = mic_len) as Ht by len.
  rewrite encrypt_spec by (by rewrite ?Hm, ?Ht). rewrite Ht.
  set (ct := ctr_xor cipher nonce (take sp buf)). set (mic := mic_of _ _ _ _ _).
  assert (length ct = sp) as Hc by (subst ct; by rewrite length_ctr_xor).
  assert (length mic = mic_len) as Hmic.
  { subst mic. unfold mic_of. pose proof (mic_len_le _ _ _ Hp).
    rewrite length_take, length_zip_with, length_cbc_mac, length_ctr_block by done. lia. }
  assert (length (ct ++ mic) = length buf) as Hlen by (rewrite length_app; lia).
  assert (decrypt_in_place cipher nonce aad ct mic = (Ok tt, take sp buf)) as Hd.
  { rewrite decrypt_spec by (by rewrite ?Hc, ?Hmic). unfold ct. rewrite ctr_xor_involutive, Hmic.
    by rewrite bool_decide_true. }
  exists (ct ++ mic), (take sp buf ++ mic). split_and!; [done..| |by apply take_app_length'].
  rewrite Hlen, (proj2 (Nat.ltb_ge _ _) Hl). fold sp.
  by rewrite take_app_length', drop_app_length', Hd by done.
Qed.

Lemma ccm_buffer_round_trip_witness :
  ∃ sec out, encrypt_buffer 7 (seqZ 1 13) [1; 2] ([10; 20; 30] ++ replicate 8 0) 8 = (Ok tt, sec) ∧
     length sec = 11%nat ∧ decrypt_buffer 7 (seqZ 1 13) [1; 2] sec 8 = (Ok tt, out) ∧
     take 3 out = [10; 20; 30].
Proof.
  apply (proj2 (ccm_buffer_round_trip 7 (seqZ 1 13) [1; 2] ([10; 20; 30] ++ replicate 8 0) 8 eq_refl));
    [vm_compute; lia|vm_compute; reflexivity].
Defined.
