(* ===== verification/SecFrame.v ===== *)
(** * Frame protection (panweave-security/src/frame.rs)

    Both the NWK and the APS layer secure a frame in the buffer that holds it:
    header, auxiliary header, payload, MIC.  A function that works on
    [&mut [u8]] returns its result and the contents of the buffer afterwards. *)

From S2P Require Import Prelude Codec AuxHeader Ccm.

Inductive SecurityError : Type :=
  | SecFrameCounter
  | NoKey
  | BadFrameCounter
  | UnverifiedFrameCounter
  | SecMalformed
  | SecBufferTooSmall
  | SecCcm (e : CcmError)
  | PolicyRejected.

#[export] Instance SecurityError_eq_dec : EqDecision SecurityError.
Proof. solve_decision. Defined.

Module Unprotected.
Record t : Type := mk {
  aux : AuxHeader.t;
  payload_start : nat;
  payload_end : nat
}.
End Unprotected.

(** Replacing the control field: [aux.control = ..]. *)
Definition with_control (h : AuxHeader.t) (c : SecurityControl.t) : AuxHeader.t :=
  AuxHeader.mk c (AuxHeader.frame_counter h) (AuxHeader.source h) (AuxHeader.key_sequence h).

Definition peek_aux (buf : list Z) (offset : nat) : result AuxHeader.t SecurityError :=
  match get_from buf offset with
  | None => Err SecMalformed
  | Some slice =>
      match decode (Reader.new slice) with
      | (Ok h, _) => Ok h
      | (Err _, _) => Err SecMalformed
      end
  end.

Section frame.
Context {C : Type} `{!BlockCipher C} {CT : ConstantTimeEq}.

Definition protect_in_place (cipher : C) (aux : AuxHeader.t) (nonce_source : Z)
    (buf : list Z) (header_len payload_len : nat) : result nat SecurityError * list Z :=
  let level := SecurityControl.level (AuxHeader.control aux) in
  let aux_len := AuxHeader.encoded_len aux in
  let mic_len := SecurityLevel.mic_len level in
  let payload_start := (header_len + aux_len)%nat in
  let payload_end := (payload_start + payload_len)%nat in
  let total := (payload_end + mic_len)%nat in
  if (length buf <? total)%nat then (Err SecBufferTooSmall, buf)
  else
    match get_range buf header_len payload_start with
    | None => (Err SecBufferTooSmall, buf)
    | Some aux_slot =>
        let '(r, w) := encode aux (Writer.new aux_slot) in
        let buf := splice header_len (Writer.buf w) buf in
        match r with
        | Err _ => (Err SecMalformed, buf)
        | Ok _ =>
            let nonce := AuxHeader.nonce aux nonce_source in
            let '(r, buf) :=
              if SecurityLevel.encrypts level then
                let aad := take payload_start buf in
                let rest := drop payload_start buf in
                let msg := take payload_len rest in
                let tail := drop payload_len rest in
                match get_range tail 0 mic_len with
                | None => (Err SecBufferTooSmall, buf)
                | Some mic =>
                    let '(r, (msg, mic)) := encrypt_in_place cipher nonce aad msg mic in
                    (map_err SecCcm r, aad ++ msg ++ splice 0 mic tail)
                end
              else
                let aad := take payload_end buf in
                let tail := drop payload_end buf in
                match get_range tail 0 mic_len with
                | None => (Err SecBufferTooSmall, buf)
                | Some mic =>
                    let '(r, (_, mic)) := encrypt_in_place cipher nonce aad [] mic in
                    (map_err SecCcm r, aad ++ splice 0 mic tail)
                end in
            match r with
            | Err e => (Err e, buf)
            | Ok _ => (Ok total, alter (λ c, Z.land c 0xF8) header_len buf)
            end
        end
    end.

Definition unprotect_in_place (cipher : C) (level : SecurityLevel.t) (nonce_source : Z)
    (buf : list Z) (header_len : nat) : result Unprotected.t SecurityError * list Z :=
  match peek_aux buf header_len with
  | Err e => (Err e, buf)
  | Ok aux =>
      let aux := with_control aux (SecurityControl.with_level (AuxHeader.control aux) level) in
      let aux_len := AuxHeader.encoded_len aux in
      let mic_len := SecurityLevel.mic_len level in
      let payload_start := (header_len + aux_len)%nat in
      if (length buf <? payload_start + mic_len)%nat then (Err SecMalformed, buf)
      else
        let payload_end := (length buf - mic_len)%nat in
        let buf := alter (λ _, SecurityControl.raw (AuxHeader.control aux)) header_len buf in
        let nonce := AuxHeader.nonce aux nonce_source in
        let '(r, buf) :=
          if SecurityLevel.encrypts level then
            let aad := take payload_start buf in
            let rest := drop payload_start buf in
            let msg := take (payload_end - payload_start) rest in
            let mic := drop (payload_end - payload_start) rest in
            let '(r, msg) := decrypt_in_place cipher nonce aad msg mic in
            (r, aad ++ msg ++ mic)
          else
            let aad := take payload_end buf in
            let mic := drop payload_end buf in
            let '(r, _) := decrypt_in_place cipher nonce aad [] mic in
            (r, aad ++ mic) in
        match r with
        | Err e => (Err (SecCcm e), buf)
        | Ok _ => (Ok (Unprotected.mk aux payload_start payload_end), buf)
        end
  end.

End frame.

(** The auxiliary header of a received frame, its level bits replaced by the level
    in force. *)
Definition received_aux (level : SecurityLevel.t) (aux : AuxHeader.t) : AuxHeader.t :=
  with_control aux (SecurityControl.with_level (AuxHeader.control aux) level).

(** [buf] is what protecting [payload] with [aux], behind the first [hl] octets of
    [buf], puts on the air (the level bits, and the two bits above the control
    field, are not part of what is protected). *)
Definition protects_to {C} `{!BlockCipher C} (cipher : C) (aux : AuxHeader.t) (src : Z) (hl : nat)
    (payload buf : list Z) : Prop :=
  protect_in_place cipher aux src
    (take hl buf ++ replicate (AuxHeader.encoded_len aux) 0 ++ payload
       ++ replicate (SecurityLevel.mic_len (SecurityControl.level (AuxHeader.control aux))) 0)
    hl (length payload) = (Ok (length buf), alter (λ c, Z.land c 0x38) hl buf).

(** ** The two transformations on the parts of a frame *)

Section parts.
Context {C : Type} `{!BlockCipher C} {CT : ConstantTimeEq}.
Implicit Types (cipher : C) (H P M : list Z).

(** What is authenticated and what is encrypted, by level. *)
Definition sealed cipher (aux : AuxHeader.t) (src : Z) H P : list Z * list Z :=
  let level := SecurityControl.level (AuxHeader.control aux) in
  let nonce := AuxHeader.nonce aux src in
  let t := SecurityLevel.mic_len level in
  if SecurityLevel.encrypts level
  then (ctr_xor cipher nonce P, mic_of cipher nonce (H ++ AuxHeader.wire aux) P t)
  else (P, mic_of cipher nonce (H ++ AuxHeader.wire aux ++ P) [] t).

(** The CCM* parameters of a frame are in range. *)
Definition ccm_fits (aux : AuxHeader.t) H P : Prop :=
  let level := SecurityControl.level (AuxHeader.control aux) in
  let aad_len := (length H + AuxHeader.encoded_len aux)%nat in
  if SecurityLevel.encrypts level
  then Z.of_nat (length P) ≤ 0xFFFF ∧ Z.of_nat aad_len < 0xFF00
  else Z.of_nat (aad_len + length P) < 0xFF00.

Definition zero_level (aux : AuxHeader.t) : AuxHeader.t :=
  with_control aux (SecurityControl.with_level (AuxHeader.control aux) SecurityLevel.NoSecurity).

Lemma check_params_level a m l :
  Z.of_nat m ≤ 0xFFFF → Z.of_nat a < 0xFF00 → check_params a m (SecurityLevel.mic_len l) = Ok tt.
Proof.
  intros Hm Ha. unfold check_params. rewrite bool_decide_true by apply mic_len_valid. simpl.
  by rewrite (proj2 (Z.ltb_ge _ _) Hm), (proj2 (Z.leb_gt _ _) Ha).
Qed.

(** Octets of the header before the control octet, and the control octet. *)
Lemma alter_control f H (c : Z) l : alter f (length H) (H ++ (c :: l)) = H ++ (f c :: l).
Proof. induction H as [|x H IH]; simpl; [done|]. by f_equal. Qed.

Lemma zero_level_wire aux :
  ∃ tl, AuxHeader.wire aux = SecurityControl.raw (AuxHeader.control aux) :: tl ∧
    AuxHeader.wire (zero_level aux) = Z.land (SecurityControl.raw (AuxHeader.control aux)) 0xF8 :: tl.
Proof.
  eexists. split; [done|]. unfold AuxHeader.wire, zero_level. simpl. f_equal.
  by destruct (AuxHeader.control aux) as [[] [] []].
Qed.

End parts.

#[local] Arguments AuxHeader.wire : simpl never.

Section specs.
Context {C : Type} `{!BlockCipher C} {CT : ConstantTimeEq}.
Implicit Types (cipher : C) (H S P M T : list Z) (aux : AuxHeader.t).

Lemma length_mic_of cipher aux src aad msg :
  length (mic_of cipher (AuxHeader.nonce aux src) aad msg
    (SecurityLevel.mic_len (SecurityControl.level (AuxHeader.control aux))))
  = SecurityLevel.mic_len (SecurityControl.level (AuxHeader.control aux)).
Proof.
  unfold mic_of. rewrite length_take, length_zip_with, length_cbc_mac, length_ctr_block
    by apply length_nonce.
  by destruct (SecurityControl.level (AuxHeader.control aux)).
Qed.

(** Writing the auxiliary header over its slot. *)
Lemma encode_slot aux slot :
  AuxHeader.wf aux → length slot = AuxHeader.encoded_len aux →
  encode aux (Writer.new slot) = (Ok tt, Writer.mk (AuxHeader.wire aux) (length (AuxHeader.wire aux))).
Proof.
  intros Hwf Hl. rewrite aux_len in Hl. destruct (aux_writes aux Hwf (Writer.new slot)) as [Hok _].
  { unfold Writer.wf. simpl. lia. }
  rewrite Hok by (unfold Writer.remaining, Writer.new, Writer.buf, Writer.pos; lia).
  unfold advance, splice, Writer.new, Writer.buf, Writer.pos.
  by rewrite drop_ge, app_nil_r by lia.
Qed.

Lemma protect_spec cipher aux src H S P M T :
  let t := SecurityLevel.mic_len (SecurityControl.level (AuxHeader.control aux)) in
  AuxHeader.wf aux → length S = AuxHeader.encoded_len aux → length M = t → ccm_fits aux H P →
  protect_in_place cipher aux src (H ++ S ++ P ++ M ++ T) (length H) (length P) =
    (Ok (length H + AuxHeader.encoded_len aux + length P + t)%nat,
     H ++ AuxHeader.wire (zero_level aux) ++
       (sealed cipher aux src H P).1 ++ (sealed cipher aux src H P).2 ++ T).
Proof.
  intros t Hwf HS HM Hfit. unfold protect_in_place. cbv zeta. fold t.
  rewrite (proj2 (Nat.ltb_ge _ _)) by (rewrite !length_app; lia).
  rewrite <- HS at 1. rewrite get_range_app, encode_slot by done. simpl Writer.buf.
  pose proof (aux_len aux) as Hw. rewrite splice_app_exact by lia.
  destruct (zero_level_wire aux) as (tl & Ea & Ez). unfold sealed, ccm_fits in *. fold t.
  destruct (SecurityLevel.encrypts _) eqn:El.
  - rewrite app_assoc, take_app_length', drop_app_length' by (rewrite length_app; lia).
    rewrite take_app_length, drop_app_length.
    pose proof (get_range_app [] M T) as HR. simpl in HR. rewrite HM in HR. rewrite HR.
    rewrite encrypt_spec; [|apply length_nonce|].
    2: { rewrite HM. destruct Hfit as [??]. apply check_params_level; [done|]. rewrite length_app, <- Hw. done. }
    cbn [map_err fst snd]. f_equal. rewrite HM.
    rewrite (splice_app_exact [] M _ T) by (unfold t; by rewrite length_mic_of). rewrite app_nil_l.
    by rewrite <- !app_assoc, Ea, <- !app_comm_cons, alter_control, Ez.
  - rewrite (app_assoc H), (app_assoc (H ++ _)).
    rewrite take_app_length', drop_app_length' by (rewrite !length_app; lia).
    pose proof (get_range_app [] M T) as HR. simpl in HR. rewrite HM in HR. rewrite HR.
    rewrite encrypt_spec; [|apply length_nonce|].
    2: { rewrite HM. apply check_params_level; [done|]. rewrite !length_app, <- Hw. simpl. done. }
    cbn [map_err fst snd]. f_equal. rewrite HM.
    rewrite (splice_app_exact [] M _ T) by (unfold t; by rewrite length_mic_of). rewrite app_nil_l.
    by rewrite <- !app_assoc, Ea, <- !app_comm_cons, alter_control, Ez.
Qed.

Lemma peek_aux_ok H aux rest :
  AuxHeader.wf aux → peek_aux (H ++ AuxHeader.wire aux ++ rest) (length H) = Ok aux.
Proof.
  intros Hwf. unfold peek_aux, get_from.
  rewrite (proj2 (Nat.leb_le _ _)) by (rewrite length_app; lia). rewrite drop_app_length.
  pose proof (aux_decodes aux Hwf [] rest) as Hd. rewrite app_nil_l in Hd.
  unfold Reader.new. change (length (A:=Z) []) with 0%nat in Hd. by rewrite Hd.
Qed.

Lemma peek_aux_inv buf hl aux :
  bytes_ok buf → peek_aux buf hl = Ok aux →
  AuxHeader.wf aux ∧ ∃ H c tl rest, buf = H ++ (c :: tl) ++ rest ∧ length H = hl ∧
    AuxHeader.wire aux = Z.land c 0x3F :: tl.
Proof.
  intros Hok. unfold peek_aux, get_from. destruct (Nat.leb_spec hl (length buf)); [|done].
  destruct (decode _) as [[h|e] r'] eqn:E; [|done]. intros [= ->].
  apply aux_parsed in E as (Hwf & c & tl & (_ & _ & Hp) & Hw); [|by apply bytes_ok_drop].
  split; [done|]. exists (take hl buf), c, tl, (drop (Reader.pos r') (Reader.buf r')).
  simpl in Hp. rewrite drop_0 in Hp. split_and!; [|len|done].
  simpl. by rewrite <- Hp, take_drop.
Qed.

Lemma with_level_wire aux c l x tl :
  AuxHeader.wire aux = x :: tl → c = SecurityControl.with_level (AuxHeader.control aux) l →
  AuxHeader.wire (with_control aux c) = SecurityControl.raw c :: tl ∧
  AuxHeader.encoded_len (with_control aux c) = S (length tl).
Proof.
  intros [= _ Htl] ->. rewrite aux_len. unfold AuxHeader.wire. simpl. rewrite <- Htl. done.
Qed.

(** The receiver on the parts of a frame whose auxiliary header parses. *)
Lemma unprotect_spec cipher level src H c x tl aux0 P M :
  let aux := with_control aux0 (SecurityControl.with_level (AuxHeader.control aux0) level) in
  let nonce := AuxHeader.nonce aux src in
  let ps := (length H + AuxHeader.encoded_len aux)%nat in
  let d := if SecurityLevel.encrypts level
           then decrypt_in_place cipher nonce (H ++ AuxHeader.wire aux) P M
           else ((decrypt_in_place cipher nonce (H ++ AuxHeader.wire aux ++ P) [] M).1, P) in
  peek_aux (H ++ (c :: tl) ++ P ++ M) (length H) = Ok aux0 →
  AuxHeader.wire aux0 = x :: tl → length M = SecurityLevel.mic_len level →
  unprotect_in_place cipher level src (H ++ (c :: tl) ++ P ++ M) (length H) =
    (match d.1 with
     | Err e => Err (SecCcm e)
     | Ok _ => Ok (Unprotected.mk aux ps (ps + length P))
     end, H ++ AuxHeader.wire aux ++ d.2 ++ M).
Proof.
  intros aux nonce ps d Hpk Hx HM. unfold unprotect_in_place. rewrite Hpk. cbv zeta.
  fold aux nonce ps. destruct (with_level_wire aux0 _ level x tl Hx eq_refl) as [Hw Hl].
  fold aux in Hw, Hl. rewrite <- HM.
  assert (length (H ++ (c :: tl) ++ P ++ M) = (ps + length P + length M)%nat) as Hlen.
  { rewrite !length_app. simpl. unfold ps. lia. }
  rewrite Hlen, (proj2 (Nat.ltb_ge _ _)) by lia. rewrite <- app_comm_cons, alter_control.
  change (AuxHeader.control aux) with (SecurityControl.with_level (AuxHeader.control aux0) level).
  rewrite app_comm_cons, <- Hw.
  assert (length (AuxHeader.wire aux) = AuxHeader.encoded_len aux) as Hwl by (symmetry; apply aux_len).
  replace (ps + length P + length M - length M)%nat with (ps + length P)%nat by lia.
  replace (ps + length P - ps)%nat with (length P) by lia.
  subst d. destruct (SecurityLevel.encrypts level).
  - rewrite app_assoc, take_app_length', drop_app_length' by (rewrite length_app; unfold ps; lia).
    rewrite take_app_length, drop_app_length.
    destruct (decrypt_in_place _ _ _ _ _) as [[[]|e] m]; cbn [fst snd]; by rewrite <- app_assoc.
  - rewrite (app_assoc H), (app_assoc (H ++ _)).
    rewrite take_app_length', drop_app_length' by (rewrite !length_app; unfold ps; lia).
    rewrite <- !app_assoc.
    by destruct (decrypt_in_place _ _ _ _ _) as [[[]|e] m]; cbn [fst snd].
Qed.

(** A frame long enough for its MIC, in parts. *)
Lemma unprotect_parts cipher level src buf hl :
  bytes_ok buf →
  unprotect_in_place cipher level src buf hl = (Err SecMalformed, buf) ∨
  ∃ H c x tl P M aux0, buf = H ++ (c :: tl) ++ P ++ M ∧ length H = hl ∧
    length M = SecurityLevel.mic_len level ∧ peek_aux buf hl = Ok aux0 ∧ AuxHeader.wf aux0 ∧
    AuxHeader.wire aux0 = x :: tl ∧ x = Z.land c 0x3F.
Proof.
  intros Hok. destruct (peek_aux buf hl) as [aux0|e] eqn:Hpk.
  2: { left. unfold unprotect_in_place. rewrite Hpk. unfold peek_aux in Hpk.
       repeat case_match; by simplify_eq. }
  destruct (peek_aux_inv _ _ _ Hok Hpk) as (Hwf & H & c & tl & rest & Hb & Hl & Hw).
  destruct (decide (SecurityLevel.mic_len level ≤ length rest)%nat) as [Hm|Hm].
  - right. set (k := (length rest - SecurityLevel.mic_len level)%nat).
    exists H, c, (Z.land c 0x3F), tl, (take k rest), (drop k rest), aux0.
    split_and!; try done; [by rewrite take_drop|subst k; len].
  - left. unfold unprotect_in_place. rewrite Hpk. cbv zeta.
    destruct (with_level_wire aux0 _ level _ tl Hw eq_refl) as [_ Hen]. rewrite Hen.
    rewrite (proj2 (Nat.ltb_lt _ _)); [done|]. rewrite Hb, !length_app. simpl. lia.
Qed.

(** The auxiliary header a successful unprotection reports. *)
Lemma unprotect_aux cipher level src buf hl aux0 u out :
  peek_aux buf hl = Ok aux0 → unprotect_in_place cipher level src buf hl = (Ok u, out) →
  Unprotected.aux u = with_control aux0 (SecurityControl.with_level (AuxHeader.control aux0) level).
Proof.
  intros Hpk. unfold unprotect_in_place. rewrite Hpk. cbv zeta.
  destruct (_ <? _)%nat; [done|]. destruct (SecurityLevel.encrypts level);
    destruct (decrypt_in_place _ _ _ _ _) as [[[]|e] m]; by intros [= <- _].
Qed.

(** The round trip. *)
Lemma protect_unprotect cipher aux src H S P M T :
  let level := SecurityControl.level (AuxHeader.control aux) in
  let ps := (length H + AuxHeader.encoded_len aux)%nat in
  AuxHeader.wf aux → length S = AuxHeader.encoded_len aux →
  length M = SecurityLevel.mic_len level → ccm_fits aux H P →
  ∃ total frame M',
    protect_in_place cipher aux src (H ++ S ++ P ++ M ++ T) (length H) (length P)
      = (Ok total, frame ++ T) ∧
    total = length frame ∧ take (length H) frame = H ∧
    peek_aux frame (length H) = Ok (zero_level aux) ∧
    unprotect_in_place cipher level src frame (length H) =
      (Ok (Unprotected.mk aux ps (ps + length P)), H ++ AuxHeader.wire aux ++ P ++ M').
Proof.
  intros level ps Hwf HS HM Hfit.
  assert (AuxHeader.wf (zero_level aux)) as Hwf0 by exact Hwf.
  destruct (sealed cipher aux src H P) as [P' M'] eqn:Es.
  assert (length P' = length P ∧ length M' = SecurityLevel.mic_len level) as [HP' HM'].
  { unfold sealed in Es. destruct (SecurityLevel.encrypts _); injection Es as <- <-;
      rewrite ?length_ctr_xor, length_mic_of; done. }
  exists (length H + AuxHeader.encoded_len aux + length P + SecurityLevel.mic_len level)%nat,
    (H ++ AuxHeader.wire (zero_level aux) ++ P' ++ M'), M'.
  destruct (zero_level_wire aux) as (tl & Ea & Ez).
  split_and!.
  - rewrite protect_spec by done. rewrite Es. cbn [fst snd]. by rewrite <- !app_assoc.
  - rewrite !length_app, <- (aux_len (zero_level aux)). change (AuxHeader.encoded_len (zero_level aux))
      with (AuxHeader.encoded_len aux). lia.
  - apply take_app_length.
  - by apply peek_aux_ok.
  - pose proof (peek_aux_ok H (zero_level aux) (P' ++ M') Hwf0) as Hpk. rewrite Ez in Hpk |- *.
    rewrite (unprotect_spec cipher level src H _ _ tl (zero_level aux) P' M' Hpk Ez HM').
    replace (with_control (zero_level aux) _) with aux by (by destruct aux as [[] ?]).
    unfold sealed, ccm_fits in *. fold level in Es, Hfit. rewrite HP'.
    destruct (SecurityLevel.encrypts level) eqn:El; injection Es as <- <-.
    + rewrite decrypt_spec; [|apply length_nonce|].
      2: { rewrite length_ctr_xor, HM', length_app, <- aux_len. destruct Hfit. by apply check_params_level. }
      rewrite ctr_xor_involutive, HM'. by rewrite bool_decide_true.
    + rewrite decrypt_spec; [|apply length_nonce|].
      2: { rewrite HM', !length_app, <- aux_len. apply check_params_level; [done|]. lia. }
      change (ctr_xor cipher _ []) with (@nil Z). rewrite HM'. by rewrite bool_decide_true.
Qed.

(** A frame that is let through, in parts: the payload [P'] behind the header
    and the auxiliary header seals to what was received. *)
Lemma unprotect_opens cipher level src buf out hl u :
  bytes_ok buf → unprotect_in_place cipher level src buf hl = (Ok u, out) →
  ∃ H c tl P M P' aux0, buf = H ++ (c :: tl) ++ P ++ M ∧ length H = hl ∧ length M = SecurityLevel.mic_len level ∧
    peek_aux buf hl = Ok aux0 ∧ AuxHeader.wf aux0 ∧ AuxHeader.wire aux0 = Z.land c 0x3F :: tl ∧
    let aux := received_aux level aux0 in
    u = Unprotected.mk aux (length H + AuxHeader.encoded_len aux) (length H + AuxHeader.encoded_len aux + length P) ∧
    out = H ++ AuxHeader.wire aux ++ P' ++ M ∧
    sealed cipher aux src H P' = (P, M) ∧ ccm_fits aux H P' ∧ length P' = length P.
Proof.
  intros Hok Hu. destruct (unprotect_parts cipher level src buf hl Hok)
    as [Hbad|(H & c & x & tl & P & M & aux0 & -> & <- & HM & Hpk & Hwf & Hw & ->)];
    [by rewrite Hbad in Hu|].
  rewrite (unprotect_spec cipher level src H c _ tl aux0 P M Hpk Hw HM) in Hu. fold (received_aux level aux0) in Hu.
  set (aux := received_aux level aux0) in *. set (d := if SecurityLevel.encrypts level then _ else _) in *.
  destruct d as [[[]|e] P'] eqn:Ed; [|done]. cbn [fst snd] in Hu.
  apply pair_equal_spec in Hu as [Hu <-]. injection Hu as <-.
  assert (sealed cipher aux src H P' = (P, M) ∧ ccm_fits aux H P' ∧ length P' = length P) as (Hs & Hfit & HP').
  { subst d. unfold sealed, ccm_fits. rewrite (aux_len aux). change (SecurityControl.level (AuxHeader.control aux)) with level.
    destruct (SecurityLevel.encrypts level).
    - apply decrypt_Ok in Ed as (Hp & -> & Hmic); [|apply length_nonce].
      rewrite ctr_xor_involutive, length_ctr_xor. rewrite HM in Hmic. rewrite <- Hmic.
      apply check_params_inv in Hp as (_ & ? & ?). rewrite length_app in *. by split_and!.
    - apply pair_equal_spec in Ed as [Ed <-].
      destruct (decrypt_in_place _ _ _ _ _) as [r m] eqn:Ed'. cbn [fst] in Ed. subst r.
      apply decrypt_Ok in Ed' as (Hp & -> & Hmic); [|apply length_nonce].
      rewrite HM in Hmic. change (ctr_xor cipher _ []) with (@nil Z) in Hmic. rewrite <- Hmic.
      apply check_params_inv in Hp as (_ & _ & ?). rewrite !length_app in *. split_and!; [done|lia|done]. }
  exists H, c, tl, P, M, P', aux0. by split_and!.
Qed.

(** Sealing what was recovered gives the received octets again. *)
Lemma sealed_again cipher level src H c tl P M P' S N aux0 :
  let aux := received_aux level aux0 in
  AuxHeader.wf aux0 → AuxHeader.wire aux0 = Z.land c 0x3F :: tl → length M = SecurityLevel.mic_len level →
  sealed cipher aux src H P' = (P, M) → ccm_fits aux H P' → length P' = length P →
  length S = AuxHeader.encoded_len aux → length N = SecurityLevel.mic_len level →
  let buf := H ++ (c :: tl) ++ P ++ M in
  protect_in_place cipher aux src (H ++ S ++ P' ++ N) (length H) (length P') =
    (Ok (length buf), alter (λ c, Z.land c 0x38) (length H) buf).
Proof.
  intros aux Hwf Hw HM Hs Hfit HP' HS HN buf. unfold buf.
  assert (AuxHeader.wf aux) as Hwfa by exact Hwf.
  pose proof (protect_spec cipher aux src H S P' N [] Hwfa) as Hps.
  rewrite Hs, app_nil_r in Hps. cbn [fst snd] in Hps. rewrite Hps by done. clear Hps.
  destruct (with_level_wire aux0 _ level _ tl Hw eq_refl) as [Hwa Hl]. fold (received_aux level aux0) in Hwa, Hl. fold aux in Hwa, Hl.
  f_equal.
  - f_equal. rewrite !length_app, HM, Hl. simpl. change (SecurityControl.level (AuxHeader.control aux)) with level. lia.
  - rewrite <- app_comm_cons, alter_control. destruct (zero_level_wire aux) as (tl' & Ea & Ez).
    rewrite Ez. rewrite Hwa in Ea. injection Ea as <-. rewrite app_nil_r, <- app_comm_cons.
    f_equal. f_equal. injection Hw as Hc _.
    change (AuxHeader.control aux) with (SecurityControl.with_level (AuxHeader.control aux0) level).
    transitivity (Z.land (SecurityControl.raw (AuxHeader.control aux0)) 0xF8).
    + by destruct (AuxHeader.control aux0) as [[] [] []], level.
    + rewrite Hc, <- Z.land_assoc. done.
Qed.

(** What a successful unprotection establishes: the buffer it leaves, and the
    payload by itself, protect to what was received. *)
Lemma unprotect_sound cipher level src buf out hl u :
  bytes_ok buf → unprotect_in_place cipher level src buf hl = (Ok u, out) →
  SecurityControl.level (AuxHeader.control (Unprotected.aux u)) = level ∧
  protect_in_place cipher (Unprotected.aux u) src out hl
    (Unprotected.payload_end u - Unprotected.payload_start u) =
    (Ok (length buf), alter (λ c, Z.land c 0x38) hl buf).
Proof.
  intros Hok (H & c & tl & P & M & P' & aux0 & -> & <- & HM & _ & Hwf & Hw & -> & -> & Hs & Hfit & HP')%unprotect_opens; [|done].
  cbn [Unprotected.aux Unprotected.payload_start Unprotected.payload_end]. split; [done|].
  replace (_ + length P - _)%nat with (length P') by lia. apply sealed_again; try done. by rewrite aux_len.
Qed.

Lemma unprotect_protects cipher level src buf out hl u aux0 :
  bytes_ok buf → unprotect_in_place cipher level src buf hl = (Ok u, out) → peek_aux buf hl = Ok aux0 →
  ∃ payload, get_range out (Unprotected.payload_start u) (Unprotected.payload_end u) = Some payload ∧
    protects_to cipher (received_aux level aux0) src hl payload buf.
Proof.
  intros Hok (H & c & tl & P & M & P' & aux1 & -> & <- & HM & Hpk & Hwf & Hw & -> & -> & Hs & Hfit & HP')%unprotect_opens Hpk'; [|done].
  rewrite Hpk in Hpk'. injection Hpk' as ->. set (aux := received_aux level aux0) in *.
  cbn [Unprotected.payload_start Unprotected.payload_end]. exists P'. split.
  - pose proof (get_range_app (H ++ AuxHeader.wire aux) P' M) as HR. rewrite <- app_assoc, length_app, <- aux_len, HP' in HR. done.
  - unfold protects_to. rewrite take_app_length. unfold aux.
    apply sealed_again; try done; by rewrite length_replicate.
Qed.
End specs.

(** A protected frame is recovered by a receiver with the same key, level
    and sender address: the header travels in clear and unchanged, the level bits
    are zero on the air, the payload and the auxiliary header with the level
    restored come back, and the octets behind the frame are never touched. *)
Theorem protect_unprotect_round_trip {C} `{!BlockCipher C} {CT : ConstantTimeEq}
    (cipher : C) (aux : AuxHeader.t) (src : Z) (H S P M T : list Z) :
  let level := SecurityControl.level (AuxHeader.control aux) in
  let ps := (length H + AuxHeader.encoded_len aux)%nat in
  AuxHeader.wf aux → length S = AuxHeader.encoded_len aux →
  length M = SecurityLevel.mic_len level → ccm_fits aux H P →
  ∃ total frame M',
    protect_in_place cipher aux src (H ++ S ++ P ++ M ++ T) (length H) (length P)
      = (Ok total, frame ++ T) ∧
    total = length frame ∧ take (length H) frame = H ∧
    peek_aux frame (length H) = Ok (zero_level aux) ∧
    unprotect_in_place cipher level src frame (length H) =
      (Ok (Unprotected.mk aux ps (ps + length P)), H ++ AuxHeader.wire aux ++ P ++ M').
Proof. exact (protect_unprotect cipher aux src H S P M T). Qed.

(** A NWK header, a data payload and room for a four-octet MIC. *)
Lemma protect_unprotect_round_trip_witness :
  let aux := AuxHeader.network SecurityLevel.EncMic32 42 0x0011223344556677 0 in
  ∃ total frame M',
    protect_in_place 7 aux 5 ([8; 2; 0; 0] ++ replicate 14 0 ++ [0xDE; 0xAD] ++ [0; 0; 0; 0] ++ [9]) 4 2
      = (Ok total, frame ++ [9]) ∧
    total = length frame ∧ take 4 frame = [8; 2; 0; 0] ∧
    peek_aux frame 4 = Ok (zero_level aux) ∧
    unprotect_in_place 7 SecurityLevel.EncMic32 5 frame 4 =
      (Ok (Unprotected.mk aux 18 20), [8; 2; 0; 0] ++ AuxHeader.wire aux ++ [0xDE; 0xAD] ++ M').
Proof.
  apply (protect_unprotect_round_trip 7 (AuxHeader.network SecurityLevel.EncMic32 42 0x0011223344556677 0)
    5 [8; 2; 0; 0] (replicate 14 0) [0xDE; 0xAD] [0; 0; 0; 0] [9]);
    first [reflexivity | split_and!; vm_compute; done | vm_compute; split; congruence].
Defined.

(** What a failed unprotection leaves behind: a frame that does not parse is
    untouched; after a failed authentication the payload of an encrypted frame is
    all zeros, and nothing else changes but the control octet, whose level is
    restored.  At the MIC-only levels the payload, which was in clear, stays. *)
Theorem unprotect_failure_releases_nothing {C} `{!BlockCipher C} {CT : ConstantTimeEq}
    (cipher : C) (level : SecurityLevel.t) (src : Z) (buf out : list Z) (hl : nat) (e : SecurityError) :
  bytes_ok buf → unprotect_in_place cipher level src buf hl = (Err e, out) →
  e = SecMalformed ∧ out = buf ∨
  ∃ ce H c c' tl P M, e = SecCcm ce ∧ buf = H ++ (c :: tl) ++ P ++ M ∧
    length H = hl ∧ length M = SecurityLevel.mic_len level ∧
    out = H ++ (c' :: tl) ++
      (if SecurityLevel.encrypts level && bool_decide (ce = AuthenticationFailed)
       then replicate (length P) 0 else P) ++ M.
Proof.
  intros Hok Hu. destruct (unprotect_parts cipher level src buf hl Hok)
    as [Hbad|(H & c & x & tl & P & M & aux0 & -> & <- & HM & Hpk & Hwf & Hw & ->)].
  { rewrite Hbad in Hu. injection Hu as <- <-. by left. }
  right. rewrite (unprotect_spec cipher level src H c _ tl aux0 P M Hpk Hw HM) in Hu.
  destruct (with_level_wire aux0 _ level _ tl Hw eq_refl) as [Hwa _].
  set (aux := with_control aux0 _) in *. rewrite Hwa in Hu.
  destruct (SecurityLevel.encrypts level); simpl.
  - destruct (decrypt_in_place _ _ _ _ _) as [[[]|ce] P'] eqn:Ed; [done|].
    apply decrypt_Err in Ed. cbn [fst snd] in Hu. injection Hu as <- <-. subst P'.
    by eexists ce, H, c, _, tl, P, M.
  - destruct (decrypt_in_place _ _ _ _ _) as [[[]|ce] P'] eqn:Ed; [done|].
    cbn [fst snd] in Hu. injection Hu as <- <-. by eexists ce, H, c, _, tl, P, M.
Qed.

Lemma unprotect_failure_releases_nothing_witness :
  let frame := [1] ++ [0x28; 1; 0; 0; 0; 5; 0; 0; 0; 0; 0; 0; 0; 0] ++ [7; 7] ++ [0; 0; 0; 0] in
  ∃ ce H c c' tl P M, SecCcm AuthenticationFailed = SecCcm ce ∧ frame = H ++ (c :: tl) ++ P ++ M ∧
    length H = 1%nat ∧ length M = 4%nat ∧
    snd (unprotect_in_place 7 SecurityLevel.EncMic32 5 frame 1) = H ++ (c' :: tl) ++
      (if SecurityLevel.encrypts SecurityLevel.EncMic32 && bool_decide (ce = AuthenticationFailed)
       then replicate (length P) 0 else P) ++ M.
Proof.
  set (frame := [1] ++ [0x28; 1; 0; 0; 0; 5; 0; 0; 0; 0; 0; 0; 0; 0] ++ [7; 7] ++ [0; 0; 0; 0]).
  destruct (unprotect_failure_releases_nothing 7 SecurityLevel.EncMic32 5 frame
    (snd (unprotect_in_place 7 SecurityLevel.EncMic32 5 frame 1)) 1 (SecCcm AuthenticationFailed))
    as [[? _]|H]; [|vm_compute; reflexivity|discriminate|exact H].
  repeat constructor; vm_compute; congruence.
Defined.
