(* ===== verification/Mmo.v ===== *)
(** * The AES-MMO hash, HMAC and key derivation
    (panweave-security/src/mmo.rs, key_hierarchy.rs)

    [MmoHasher] keeps a partial block between calls of [update]; the theorems
    relate it to the one-shot hash of Annex B.4 over the padded message. *)

From S2P Require Import Prelude AuxHeader Ccm.

Definition HASH_LEN : nat := 16.
Definition HMAC_BLOCK_LEN : nat := 16.
Definition LONG_THRESHOLD_OCTETS : nat := Z.to_nat 8192.

Module MmoHasher.

Record t : Type := mk {
  state : list Z;
  buf : list Z;
  buf_len : nat;
  total_len : nat
}.

Definition new : t := mk (replicate 16 0) (replicate 16 0) 0 0.

Section hasher.
Context (C : Type) `{!BlockCipher C}.

(** [E(Hash_{j-1}, M_j) XOR M_j] *)
Definition compress (st block : list Z) : list Z :=
  let cipher := cipher_new (C:=C) st in
  xor_into (encrypt_block cipher block) block.

(** [while rest.len() >= 16]: a round consumes 16 octets, so [length rest]
    rounds are enough. *)
Fixpoint full_blocks (fuel : nat) (st rest : list Z) : list Z * list Z :=
  match fuel with
  | O => (st, rest)
  | S fuel =>
      if (16 <=? length rest)%nat then
        full_blocks fuel (compress st (default (replicate 16 0) (get_range rest 0 16)))
          (default [] (get_from rest 16))
      else (st, rest)
  end.

Definition update (h : t) (data : list Z) : t :=
  let rest := data in
  let h := mk (state h) (buf h) (buf_len h) (total_len h + length data) in
  let '(h, rest) :=
    if (0 <? buf_len h)%nat then
      let take_ := Nat.min (16 - buf_len h) (length rest) in
      let buf := take (buf_len h) (buf h) ++
        copy_prefix (default [] (get_from (buf h) (buf_len h))) (default [] (get_range rest 0 take_)) in
      let buf_len := (buf_len h + take_)%nat in
      let rest := default [] (get_from rest take_) in
      if (buf_len =? 16)%nat
      then (mk (compress (state h) buf) buf 0 (total_len h), rest)
      else (mk (state h) buf buf_len (total_len h), rest)
    else (h, rest) in
  let '(st, rest) := full_blocks (length rest) (state h) rest in
  if negb (length rest =? 0)%nat
  then mk st (copy_prefix (buf h) rest) (length rest) (total_len h)
  else mk st (buf h) (buf_len h) (total_len h).

Definition update_padding (h : t) (data : list Z) : t :=
  let saved := total_len h in
  let h := update h data in
  mk (state h) (buf h) (buf_len h) saved.

(** [while self.buf_len != tail_mod]: the offset in the block returns to any
    value within 16 rounds. *)
Fixpoint zero_fill (fuel : nat) (tail_mod : nat) (h : t) : t :=
  match fuel with
  | O => h
  | S fuel =>
      if negb (buf_len h =? tail_mod)%nat then zero_fill fuel tail_mod (update_padding h [0x00]) else h
  end.

Definition finalize (h : t) : list Z :=
  let total := total_len h in
  let bit_len := (total * 8)%nat in
  let '(tail_mod, len_enc) :=
    if (total <? LONG_THRESHOLD_OCTETS)%nat then
      let l := to_be 2 (try_from_or u16_max bit_len u16_max) in
      (14%nat, [nth 0 l 0; nth 1 l 0; 0; 0; 0; 0])
    else
      let l := to_be 4 (try_from_or u32_max bit_len u32_max) in
      (10%nat, [nth 0 l 0; nth 1 l 0; nth 2 l 0; nth 3 l 0; 0; 0]) in
  let len_enc_len := (16 - tail_mod)%nat in
  let h := update_padding h [0x80] in
  let h := zero_fill 16 tail_mod h in
  let h := update_padding h (default [] (get_range len_enc 0 len_enc_len)) in
  state h.

End hasher.
End MmoHasher.

Section hash.
Context (C : Type) `{!BlockCipher C}.

Definition hash (data : list Z) : list Z :=
  MmoHasher.finalize C (MmoHasher.update C MmoHasher.new data).

Definition hmac (key data : list Z) : list Z :=
  let k0 := replicate 16 0 in
  let k0 := if (HMAC_BLOCK_LEN <? length key)%nat then hash key else copy_prefix k0 key in
  let inner_key := (λ b, Z.lxor b 0x36) <$> k0 in
  let outer_key := (λ b, Z.lxor b 0x5C) <$> k0 in
  let inner := MmoHasher.update C (MmoHasher.update C MmoHasher.new inner_key) data in
  let inner_hash := MmoHasher.finalize C inner in
  let outer := MmoHasher.update C (MmoHasher.update C MmoHasher.new outer_key) inner_hash in
  MmoHasher.finalize C outer.

(** Key derivation, key_hierarchy.rs. *)
Definition key_transport_key (link_key : list Z) : list Z := hmac link_key [0x00].
Definition key_load_key (link_key : list Z) : list Z := hmac link_key [0x02].
Definition verify_key_hash (link_key : list Z) : list Z := hmac link_key [0x03].
Definition link_key_from_install_code (code : list Z) : list Z := hash code.

(** ** The reference: the hash of Annex B.4 *)

(** The padding of a message of [n] octets: below 2^16 bits the length takes two
    octets, from there on four (it saturates at 2^32 bits, where the hash is not
    defined), and two octets are zero. *)
Definition mmo_padding (n : nat) : list Z :=
  if 8 * Z.of_nat n <? 2 ^ 16
  then 0x80 :: replicate ((29 - n mod 16) mod 16) 0 ++ to_be 2 (Z.of_nat (8 * n))
  else 0x80 :: replicate ((25 - n mod 16) mod 16) 0 ++
       to_be 4 (Z.min (Z.of_nat (8 * n)) u32_max) ++ [0; 0].

(** A block enciphered under the hash so far, exclusive-or the block. *)
Definition mmo_step (h block : list Z) : list Z :=
  zip_with Z.lxor (encrypt_block (cipher_new (C:=C) h) block) block.

Definition mmo_ref (m : list Z) : list Z :=
  foldl mmo_step (replicate 16 0) (blocks (m ++ mmo_padding (length m))).

(** HMAC of FIPS 198 over it. *)
Definition hmac_ref (key data : list Z) : list Z :=
  let k0 := if (16 <? length key)%nat then mmo_ref key else key ++ replicate (16 - length key) 0 in
  mmo_ref (((λ b, Z.lxor b 0x5C) <$> k0) ++ mmo_ref (((λ b, Z.lxor b 0x36) <$> k0) ++ data)).

End hash.

(** ** The hasher holds the blocks absorbed so far *)

Section hasher_spec.
Context (C : Type) `{!BlockCipher C}.
Implicit Types (h : MmoHasher.t) (d D p : list Z).

Abbreviation cmp := (mmo_step C).

Lemma compress_step st b : length b = 16%nat → MmoHasher.compress C st b = cmp st b.
Proof. intros Hb. apply xor_into_zip. by rewrite encrypt_block_len. Qed.

(** The hasher has absorbed [d]: the whole blocks [D] are in the state, the
    rest [p] is in the buffer. *)
Definition absorbed h d : Prop :=
  ∃ D p k, d = D ++ p ∧ length D = (16 * k)%nat ∧ (length p < 16)%nat ∧
    MmoHasher.state h = foldl cmp (replicate 16 0) (blocks D) ∧
    length (MmoHasher.buf h) = 16%nat ∧ MmoHasher.buf_len h = length p ∧
    take (length p) (MmoHasher.buf h) = p.

Lemma full_blocks_spec fuel st rest :
  (length rest ≤ fuel)%nat →
  ∃ B tl k, rest = B ++ tl ∧ length B = (16 * k)%nat ∧ (length tl < 16)%nat ∧
    MmoHasher.full_blocks C fuel st rest = (foldl cmp st (blocks B), tl).
Proof.
  revert st rest. induction fuel as [|fuel IH]; intros st rest Hf; cbn [MmoHasher.full_blocks].
  { exists [], rest, 0%nat. split_and!; simpl; [done|done|lia|done]. }
  destruct (Nat.leb_spec 16 (length rest)) as [Hl|Hl].
  - rewrite get_range_Some by lia. unfold get_from. rewrite (proj2 (Nat.leb_le _ _) Hl).
    change (default _ (Some ?l)) with l. rewrite drop_0, Nat.sub_0_r, compress_step by len.
    destruct (IH (cmp st (take 16 rest)) (drop 16 rest)) as (B & tl & k & Hr & HB & Htl & ->);
      [len|].
    exists (take 16 rest ++ B), tl, (S k). split_and!; [|len|done|].
    + rewrite <- app_assoc, <- Hr. by rewrite take_drop.
    + rewrite blocks_cons by len. done.
  - exists [], rest, 0%nat. split_and!; simpl; [done|done|lia|done].
Qed.

Lemma absorbed_new : absorbed MmoHasher.new [].
Proof. exists [], [], 0%nat. split_and!; simpl; (done || lia). Qed.

(** Absorbing from a block boundary. *)
Lemma absorbed_aligned h D k data :
  length D = (16 * k)%nat → MmoHasher.state h = foldl cmp (replicate 16 0) (blocks D) →
  length (MmoHasher.buf h) = 16%nat → MmoHasher.buf_len h = 0%nat →
  absorbed (let '(st, rest) := MmoHasher.full_blocks C (length data) (MmoHasher.state h) data in
    if negb (length rest =? 0)%nat
    then MmoHasher.mk st (copy_prefix (MmoHasher.buf h) rest) (length rest) (MmoHasher.total_len h)
    else MmoHasher.mk st (MmoHasher.buf h) (MmoHasher.buf_len h) (MmoHasher.total_len h)) (D ++ data).
Proof.
  intros HD Hst Hb Hz.
  destruct (full_blocks_spec (length data) (MmoHasher.state h) data) as (B & tl & j & -> & HB & Htl & ->);
    [done|].
  exists (D ++ B), tl, (k + j)%nat. rewrite app_assoc.
  assert (foldl cmp (MmoHasher.state h) (blocks B) = foldl cmp (replicate 16 0) (blocks (D ++ B))) as Hf.
  { by rewrite (blocks_app k), foldl_app, Hst by done. }
  destruct (Nat.eqb_spec (length tl) 0) as [E|E]; cbn [negb].
  - destruct tl; [|done]. split_and!; try done; len.
  - split_and!; try done; cbn [MmoHasher.buf]; [len..|].
    rewrite copy_prefix_app by lia. apply take_app_length.
Qed.

Lemma update_absorbed h d data :
  absorbed h d → absorbed (MmoHasher.update C h data) (d ++ data).
Proof.
  intros (D & p & k & -> & HD & Hp & Hst & Hb & Hl & Hpre). unfold MmoHasher.update.
  cbn [MmoHasher.state MmoHasher.buf MmoHasher.buf_len MmoHasher.total_len].
  destruct (Nat.ltb_spec 0 (MmoHasher.buf_len h)) as [H0|H0].
  2: { destruct p; [|simpl in Hl; lia]. rewrite app_nil_r.
       exact (absorbed_aligned (MmoHasher.mk _ _ _ _) D k data HD Hst Hb Hl). }
  unfold get_from. rewrite Hl, Hpre in *.
  rewrite (proj2 (Nat.leb_le _ (length (MmoHasher.buf h)))) by lia.
  rewrite (proj2 (Nat.leb_le _ (length data))) by lia.
  rewrite (get_range_Some data) by lia. change (default _ (Some ?l)) with l. rewrite drop_0, Nat.sub_0_r.
  rewrite copy_prefix_app by len.
  set (m := Nat.min (16 - length p) (length data)).
  rewrite length_take. replace (Nat.min m (length data)) with m by lia. rewrite drop_drop.
  destruct (Nat.eqb_spec (length p + m) 16) as [E|E].
  - rewrite (drop_ge (MmoHasher.buf h)) by lia. rewrite app_nil_r.
    assert (length (p ++ take m data) = 16%nat) as Hblk by len.
    replace ((D ++ p) ++ data) with ((D ++ p ++ take m data) ++ drop m data)
      by (by rewrite <- !app_assoc, take_drop).
    apply (absorbed_aligned (MmoHasher.mk _ _ 0 _) (D ++ p ++ take m data) (S k)); [len| |done|done].
    cbn [MmoHasher.state]. rewrite compress_step, (blocks_app k) by done.
    rewrite <- (app_nil_r (p ++ take m data)) at 2. rewrite blocks_cons by done.
    rewrite foldl_app, <- Hst. done.
  - assert (length p + length data < 16)%nat as Hs by lia.
    assert (m = length data) as Em by lia. clearbody m. subst m. rewrite (drop_ge data), (take_ge data) by done.
    cbn. rewrite <- app_assoc. exists D, (p ++ data), k.
    split_and!; cbn [MmoHasher.state MmoHasher.buf MmoHasher.buf_len]; [done|done|len|done|len|len|].
    rewrite app_assoc. apply take_app_length.
Qed.
End hasher_spec.

Section finalize_spec.
Context (C : Type) `{!BlockCipher C}.
Implicit Types (h : MmoHasher.t) (d : list Z).

Lemma padding_absorbed h d data :
  absorbed C h d → absorbed C (MmoHasher.update_padding C h data) (d ++ data).
Proof.
  intros Ha. apply (update_absorbed C h d data) in Ha as (D & p & k & Hd).
  by exists D, p, k.
Qed.

Lemma absorbed_offset h d : absorbed C h d → MmoHasher.buf_len h = (length d mod 16)%nat.
Proof.
  intros (D & p & k & -> & HD & Hp & _ & _ & -> & _).
  rewrite length_app, HD, Nat.add_comm, (Nat.mul_comm 16), Nat.Div0.mod_add. by rewrite Nat.mod_small.
Qed.

(** The padding loop stops after the [z] zeros that reach the wanted offset. *)
Lemma zero_fill_absorbed fuel t z h d :
  (z < fuel)%nat → (z < 16)%nat → (t < 16)%nat → ((length d + z) mod 16 = t)%nat → absorbed C h d →
  absorbed C (MmoHasher.zero_fill C fuel t h) (d ++ replicate z 0).
Proof.
  revert z h d. induction fuel as [|fuel IH]; intros z h d Hf Hz Ht Hm Ha; [lia|]. simpl.
  rewrite (absorbed_offset h d Ha).
  destruct z as [|z].
  - rewrite Nat.add_0_r in Hm. rewrite Hm, Nat.eqb_refl. simpl. by rewrite app_nil_r.
  - destruct (Nat.eqb_spec (length d mod 16) t) as [E|E]; simpl.
    { exfalso. rewrite <- E in Hm. rewrite Nat.Div0.add_mod, (Nat.mod_small (S z)) in Hm by lia.
      pose proof (Nat.mod_upper_bound (length d) 16 ltac:(lia)).
      destruct (decide (length d mod 16 + S z < 16)%nat).
      - rewrite Nat.mod_small in Hm by lia. lia.
      - replace (length d mod 16 + S z)%nat with ((length d mod 16 + S z - 16) + 1 * 16)%nat in Hm by lia.
        rewrite Nat.Div0.mod_add, Nat.mod_small in Hm by lia. lia. }
    replace (0 :: replicate z 0) with ([0] ++ replicate z 0) by done. rewrite app_assoc.
    apply IH; [lia..| |by apply padding_absorbed]. rewrite length_app. simpl.
    by rewrite <- Nat.add_assoc.
Qed.

(** The offset reached after a message, its [0x80] and the zeros. *)
Lemma zeros_offset n t :
  (t = 13 ∨ t = 9)%nat → ((n + 1 + (16 + t - n mod 16) mod 16) mod 16 = S t)%nat.
Proof.
  intros Ht. pose proof (Nat.mod_upper_bound n 16 ltac:(lia)). pose proof (Nat.div_mod_eq n 16).
  assert (∃ j, (n + 1 + (16 + t - n mod 16) mod 16)%nat = (S t + j * 16)%nat) as [j ->].
  { destruct (decide (n mod 16 ≤ t)%nat).
    - replace (16 + t - n mod 16)%nat with ((t - n mod 16) + 1 * 16)%nat by lia.
      rewrite Nat.Div0.mod_add, Nat.mod_small by lia. exists (n / 16)%nat. lia.
    - rewrite (Nat.mod_small (16 + _ - _)) by lia. exists (S (n / 16)). lia. }
  rewrite Nat.Div0.mod_add, Nat.mod_small; lia.
Qed.

Lemma finalize_absorbed h d :
  absorbed C h d → MmoHasher.total_len h = length d →
  MmoHasher.finalize C h = mmo_ref C d.
Proof.
  intros Ha Hn. unfold MmoHasher.finalize, mmo_ref. rewrite Hn. set (n := length d) in *.
  set (pick := if (n <? LONG_THRESHOLD_OCTETS)%nat then _ else _).
  assert (∃ t enc, pick = (S t, enc) ∧ (t = 13 ∨ t = 9)%nat ∧ length enc = 6%nat ∧
    mmo_padding n = 0x80 :: replicate ((16 + t - n mod 16) mod 16) 0 ++ take (16 - S t) enc)
    as (t & enc & -> & Ht & Hl & Hp).
  { subst pick. unfold mmo_padding.
    assert ((8 * Z.of_nat n <? 2 ^ 16) = (n <? LONG_THRESHOLD_OCTETS)%nat) as ->.
    { unfold LONG_THRESHOLD_OCTETS. change (2 ^ 16) with 65536.
      destruct (Z.ltb_spec (8 * Z.of_nat n) 65536), (Nat.ltb_spec n (Z.to_nat 8192)); (done || lia). }
    destruct (Nat.ltb_spec n LONG_THRESHOLD_OCTETS) as [Hs|_]; eexists _, _; (split; [done|]);
      (split; [auto|]); (split; [done|]).
    - rewrite try_from_or_small by (unfold LONG_THRESHOLD_OCTETS, u16_max in *; lia).
      by rewrite (Nat.mul_comm n 8).
    - do 3 f_equal. unfold try_from_or. rewrite (Nat.mul_comm n 8).
      destruct (Z.leb_spec (Z.of_nat (8 * n)) u32_max); [by rewrite Z.min_l by lia|].
      by rewrite Z.min_r by lia. }
  rewrite get_range_Some by lia. change (default _ (Some ?l)) with l. rewrite drop_0, Nat.sub_0_r.
  rewrite Hp. apply (padding_absorbed h d [0x80]) in Ha.
  apply (zero_fill_absorbed 16 (S t) ((16 + t - n mod 16) mod 16)) in Ha;
    [|apply Nat.mod_upper_bound; lia..|lia|].
  2: { rewrite length_app. apply zeros_offset. done. }
  apply (padding_absorbed _ _ (take (16 - S t) enc)) in Ha. rewrite <- !app_assoc in Ha.
  pose proof (absorbed_offset _ _ Ha) as Hoff. destruct Ha as (D & p & k & Hd & HD & Hp16 & -> & _ & Hb & _).
  assert (length p = 0%nat) as Hp0.
  { rewrite <- Hb, Hoff, !length_app, length_replicate, length_take. simpl length.
    rewrite Hl. pose proof (zeros_offset n t Ht) as Hz. fold n.
    replace (n + _)%nat with ((n + 1 + (16 + t - n mod 16) mod 16) + (15 - t))%nat by lia.
    rewrite <- Nat.Div0.add_mod_idemp_l, Hz. replace (S t + (15 - t))%nat with 16%nat by lia. done. }
  destruct p; [|done]. rewrite app_nil_r in Hd. by rewrite <- Hd.
Qed.

Lemma total_update h data :
  MmoHasher.total_len (MmoHasher.update C h data) = (MmoHasher.total_len h + length data)%nat.
Proof. unfold MmoHasher.update. repeat case_match; simplify_eq; done. Qed.

Lemma stream_spec (parts : list (list Z)) h d :
  absorbed C h d → MmoHasher.total_len h = length d →
  MmoHasher.finalize C (foldl (MmoHasher.update C) h parts) = mmo_ref C (d ++ concat parts).
Proof.
  revert h d. induction parts as [|p parts IH]; intros h d Ha Hn; simpl.
  - rewrite app_nil_r. by apply finalize_absorbed.
  - rewrite app_assoc. apply IH; [by apply update_absorbed|]. by rewrite total_update, Hn, length_app.
Qed.

Lemma hash_spec d : hash C d = mmo_ref C d.
Proof.
  pose proof (stream_spec [d] _ _ (absorbed_new C) eq_refl) as H. simpl in H. by rewrite app_nil_r in H.
Qed.

Lemma hmac_spec key data : hmac C key data = hmac_ref C key data.
Proof.
  unfold hmac, hmac_ref. rewrite hash_spec. unfold HMAC_BLOCK_LEN.
  set (k0 := if (16 <? length key)%nat then _ else copy_prefix _ _).
  set (k0' := if (16 <? length key)%nat then _ else key ++ _).
  assert (k0 = k0') as <-.
  { subst k0 k0'. destruct (Nat.ltb_spec 16 (length key)); [done|].
    rewrite copy_prefix_app by len. by rewrite drop_replicate. }
  assert (∀ a b, MmoHasher.finalize C (MmoHasher.update C (MmoHasher.update C MmoHasher.new a) b)
    = mmo_ref C (a ++ b)) as H2.
  { intros a b. pose proof (stream_spec [a; b] _ _ (absorbed_new C) eq_refl) as H.
    simpl in H. by rewrite app_nil_r in H. }
  by rewrite !H2.
Qed.
End finalize_spec.

(** C39. Hashing a message in any sequence of pieces gives the Matyas-Meyer-Oseas
    hash of Annex B.4 over the whole message: from the zero block, every 16-octet
    block of the padded message is enciphered under the hash so far and combined
    with itself by exclusive or; the padding is 0x80, zeros, and the bit length, in
    two octets for messages below 2^16 bits and in four with two zero octets for
    longer ones.  The digest does not depend on how the caller cuts the data. *)
Theorem mmo_stream_reference (C : Type) `{!BlockCipher C} (parts : list (list Z)) :
  MmoHasher.finalize C (foldl (MmoHasher.update C) MmoHasher.new parts) = mmo_ref C (concat parts).
Proof. exact (stream_spec C parts MmoHasher.new [] (absorbed_new C) eq_refl). Qed.

(** [hmac] is the HMAC of FIPS 198 over that hash with 16-octet blocks (a
    key longer than a block is hashed first), and the derived keys are HMACs of
    their one-octet inputs. *)
Theorem hmac_reference (C : Type) `{!BlockCipher C} (key data : list Z) :
  hmac C key data = hmac_ref C key data ∧
  key_transport_key C key = hmac_ref C key [0x00] ∧
  key_load_key C key = hmac_ref C key [0x02] ∧
  verify_key_hash C key = hmac_ref C key [0x03].
Proof. split_and!; apply hmac_spec. Qed.
