(* ===== verification/Keys.v ===== *)
(** * Keys and key storage (panweave-types/src/key.rs,
    panweave-security/src/material.rs)

    Install codes and their CRC, the network key slots with the active key, and
    the table of APS link keys.  A [Key128] is the list of its 16 octets. *)

From S2P Require Import Prelude Heapless Ccm FrameCounter.

(** ** Enumerations of key.rs *)

Module KeyType.
Inductive t : Type :=
  | StandardNetworkKey | ApplicationLinkKey | TrustCenterLinkKey | EphemeralGlobal
  | EphemeralUnique | BasicAuthorization | AdministrativeAuthorization | Unknown (v : Z).

Definition raw (k : t) : Z :=
  match k with
  | StandardNetworkKey => 0x01
  | ApplicationLinkKey => 0x03
  | TrustCenterLinkKey => 0x04
  | EphemeralGlobal => 0xB0
  | EphemeralUnique => 0xB1
  | BasicAuthorization => 0xB2
  | AdministrativeAuthorization => 0xB3
  | Unknown v => v
  end.

Definition from_raw (v : Z) : t :=
  match v with
  | 0x01 => StandardNetworkKey
  | 0x03 => ApplicationLinkKey
  | 0x04 => TrustCenterLinkKey
  | 0xB0 => EphemeralGlobal
  | 0xB1 => EphemeralUnique
  | 0xB2 => BasicAuthorization
  | 0xB3 => AdministrativeAuthorization
  | other => Unknown other
  end.

#[global] Instance eq_dec : EqDecision t.
Proof. solve_decision. Defined.
End KeyType.

Module KeyAttributes.
Inductive t : Type := ProvisionalKey | UnverifiedKey | VerifiedKey | Unknown (v : Z).

Definition raw (k : t) : Z :=
  match k with
  | ProvisionalKey => 0
  | UnverifiedKey => 1
  | VerifiedKey => 2
  | Unknown v => v
  end.

Definition from_raw (v : Z) : t :=
  match v with
  | 0 => ProvisionalKey
  | 1 => UnverifiedKey
  | 2 => VerifiedKey
  | other => Unknown other
  end.
End KeyAttributes.

(** ** Install codes *)

(** One round of the reflected CRC. *)
Definition crc_bit (crc : Z) : Z :=
  if negb (Z.land crc 1 =? 0) then Z.lxor (Z.shiftr crc 1) 0x8408 else Z.shiftr crc 1.

Definition crc_octet (crc b : Z) : Z := Nat.iter 8 crc_bit (Z.lxor crc b).

Definition crc16_x25 (data : list Z) : Z := Z.lxor (foldl crc_octet 0xFFFF data) 0xFFFF.

Module InstallCode.
Record t : Type := mk { bytes : list Z; len : nat }.

Definition new (b : list Z) : option t :=
  if negb (bool_decide (length b ∈ [8; 10; 14; 18]%nat)) then None
  else
    let buf := replicate 18 0 in
    match get_range buf 0 (length b) with
    | None => None
    | Some _ => Some (mk (splice 0 b buf) (length b))
    end.

Definition as_bytes (c : t) : list Z := default [] (get_range (bytes c) 0 (len c)).
Definition code (c : t) : list Z := default [] (get_range (bytes c) 0 (len c - 2)).

(** [wrapping_sub] of an index below 2 leaves the array, as [None] does here. *)
Definition crc (c : t) : Z :=
  if (len c <? 2)%nat then 0
  else match bytes c !! (len c - 2)%nat, bytes c !! (len c - 1)%nat with
       | Some lo, Some hi => from_le [lo; hi]
       | _, _ => 0
       end.

Definition crc_valid (c : t) : bool := crc16_x25 (code c) =? crc c.
End InstallCode.

(** ** Network keys *)

Module NetworkKeySlot.
Record t : Type := mk { sequence : Z; key : list Z }.
End NetworkKeySlot.

Module NetworkKeys.

Record t : Type := mk {
  slots : list NetworkKeySlot.t;
  active_seq : option Z;
  outgoing : OutgoingCounter.t
}.

Definition new : t := mk [] None OutgoingCounter.new.

Section keys.
Context {H : Heapless}.

Definition of_sequence (seq : Z) (s : NetworkKeySlot.t) : bool := NetworkKeySlot.sequence s =? seq.

Definition install (k : t) (seq : Z) (key : list Z) : t :=
  match List.find (of_sequence seq) (slots k) with
  | Some _ =>
      mk (update_first (of_sequence seq) (λ s, NetworkKeySlot.mk (NetworkKeySlot.sequence s) key) (slots k))
         (active_seq k) (outgoing k)
  | None =>
      let ss :=
        if vec_is_full 2 (slots k) then
          let victim :=
            default 0%nat
              (position (λ s, negb (bool_decide (Some (NetworkKeySlot.sequence s) = active_seq k))) (slots k)) in
          match vec_swap_remove (slots k) victim with
          | Some (_, ss) => ss
          | None => slots k
          end
        else slots k in
      let ss :=
        match vec_push 2 ss (NetworkKeySlot.mk seq key) with
        | Ok ss => ss
        | Err _ => ss
        end in
      mk ss (active_seq k) (outgoing k)
  end.

Definition install_active (k : t) (seq : Z) (key : list Z) : t :=
  let k := install k seq key in
  mk (slots k) (Some seq) (outgoing k).

Definition switch_to (k : t) (seq : Z) : bool * t :=
  if existsb (of_sequence seq) (slots k) then
    if bool_decide (active_seq k ≠ Some seq)
    then (true, mk (slots k) (Some seq) (snd (OutgoingCounter.on_key_switch (outgoing k))))
    else (true, k)
  else (false, k).

Definition active_sequence (k : t) : option Z := active_seq k.

Definition get (k : t) (seq : Z) : option NetworkKeySlot.t := List.find (of_sequence seq) (slots k).

Definition active (k : t) : option NetworkKeySlot.t :=
  match active_seq k with
  | None => None
  | Some a => List.find (of_sequence a) (slots k)
  end.

Definition has_active (k : t) : bool := is_some (active k).

Definition clear_keys (k : t) : t := mk (vec_clear (slots k)) None (outgoing k).

(** At most two keys, one per sequence number, and the active one is held. *)
Definition wf (k : t) : Prop :=
  NoDup (NetworkKeySlot.sequence <$> slots k) ∧ (length (slots k) ≤ 2)%nat ∧
  match active_seq k with None => True | Some a => is_Some (get k a) end.

End keys.
End NetworkKeys.

(** ** Link keys *)

Inductive LinkKeyKind : Type := Unique | Global.

Module InitialJoinAuthentication.
Inductive t : Type :=
  | NoAuthentication | InstallCodeKey | AnonymousKeyNegotiation | KeyNegotiationWithAuthentication.
Definition raw (a : t) : Z :=
  match a with
  | NoAuthentication => 0
  | InstallCodeKey => 1
  | AnonymousKeyNegotiation => 2
  | KeyNegotiationWithAuthentication => 3
  end.
End InitialJoinAuthentication.

Module PostJoinKeyUpdate.
Inductive t : Type :=
  | NotUpdated | KeyRequest | UnauthenticatedNegotiation | AuthenticatedNegotiation | CertificateBased.
Definition raw (a : t) : Z :=
  match a with
  | NotUpdated => 0
  | KeyRequest => 1
  | UnauthenticatedNegotiation => 2
  | AuthenticatedNegotiation => 3
  | CertificateBased => 4
  end.
End PostJoinKeyUpdate.

Inductive KeyNegotiationState : Type := NegotiationNone | NegotiationStarted | NegotiationComplete.

Module LinkKeyEntry.
Record t : Type := mk {
  partner : Z;
  key : list Z;
  kind : LinkKeyKind;
  attributes : KeyAttributes.t;
  outgoing : OutgoingCounter.t;
  incoming : Z;
  initial_join_authentication : InitialJoinAuthentication.t;
  negotiation_state : KeyNegotiationState;
  negotiation_method : Z;
  post_join_key_update : PostJoinKeyUpdate.t;
  passphrase : option (list Z);
  passphrase_update_allowed : bool;
  frame_counter_sync : bool;
  verified_frame_counter : bool;
  challenge_frame_counter : Z;
  timeout_secs : Z
}.

Definition provisional (partner : Z) (key : list Z) (kind : LinkKeyKind) : t := {|
  partner := partner;
  key := key;
  kind := kind;
  attributes := KeyAttributes.ProvisionalKey;
  outgoing := OutgoingCounter.new;
  incoming := 0;
  initial_join_authentication := InitialJoinAuthentication.NoAuthentication;
  negotiation_state := NegotiationNone;
  negotiation_method := 0;
  post_join_key_update := PostJoinKeyUpdate.NotUpdated;
  passphrase := None;
  passphrase_update_allowed := true;
  frame_counter_sync := false;
  verified_frame_counter := true;
  challenge_frame_counter := 0;
  timeout_secs := 0xFFFF
|}.

Definition is_verified (e : t) : bool :=
  match attributes e with KeyAttributes.VerifiedKey => true | _ => false end.
Definition has_passphrase (e : t) : bool := is_some (passphrase e).
End LinkKeyEntry.

Module LinkKeyTable.
Record t (K : nat) : Type := mk { entries : list LinkKeyEntry.t }.
Arguments mk {K} _.
Arguments entries {K} _.

Definition new K : t K := mk [].

Section table.
Context {H : Heapless} {K : nat}.

Definition of_partner (p : Z) (e : LinkKeyEntry.t) : bool := LinkKeyEntry.partner e =? p.

Definition get (s : t K) (p : Z) : option LinkKeyEntry.t := List.find (of_partner p) (entries s).

(** [get_mut(p)] followed by an update of the entry found. *)
Definition get_mut (s : t K) (p : Z) (f : LinkKeyEntry.t → LinkKeyEntry.t) : t K :=
  mk (update_first (of_partner p) f (entries s)).

Definition insert (e : LinkKeyEntry.t) : SE (t K) LinkKeyEntry.t unit := λ s,
  match get s (LinkKeyEntry.partner e) with
  | Some _ => (Ok tt, get_mut s (LinkKeyEntry.partner e) (λ _, e))
  | None =>
      match vec_push K (entries s) e with
      | Ok es => (Ok tt, mk es)
      | Err e => (Err e, s)
      end
  end.

Definition remove (s : t K) (p : Z) : bool * t K :=
  let es := vec_retain (entries s) (λ e, negb (of_partner p e)) in
  (negb (length es =? length (entries s))%nat, mk es).

Definition len (s : t K) : nat := length (entries s).
Definition is_empty (s : t K) : bool := (length (entries s) =? 0)%nat.
Definition is_full (s : t K) : bool := vec_is_full K (entries s).
Definition clear (s : t K) : t K := mk (vec_clear (entries s)).

Definition wf (s : t K) : Prop :=
  NoDup (LinkKeyEntry.partner <$> entries s) ∧ (length (entries s) ≤ K)%nat.
End table.
End LinkKeyTable.

(** ** Install codes: the CRC *)

Section crc.
Lemma lxor_cancel_r a b c : Z.lxor a c = Z.lxor b c → a = b.
Proof.
  intros E. rewrite <- (Z.lxor_0_r a), <- (Z.lxor_0_r b), <- (Z.lxor_nilpotent c).
  by rewrite <- !Z.lxor_assoc, E.
Qed.

Lemma lxor_cancel_l a b c : Z.lxor c a = Z.lxor c b → a = b.
Proof. rewrite !(Z.lxor_comm c). apply lxor_cancel_r. Qed.

Lemma land_1_odd x : negb (Z.land x 1 =? 0) = Z.odd x.
Proof. change 1 with (Z.ones 1). rewrite Z.land_ones by lia. change (2 ^ 1) with 2.
  rewrite Zmod_odd. by destruct (Z.odd x). Qed.

Lemma crc_bit_uint x : uint 16 x → uint 16 (crc_bit x).
Proof.
  intros Hx. unfold crc_bit.
  assert (uint 16 (Z.shiftr x 1)) as Hs.
  { unfold uint in *. rewrite Z.shiftr_div_pow2 by lia. change (2 ^ 1) with 2.
    split; [apply Z.div_pos; lia|apply Z.div_lt_upper_bound; lia]. }
  case_match; [|done]. apply uint_lxor; [lia|done|vm_compute; split; congruence].
Qed.

(** The bit shifted out is the top bit of the result, so a round loses nothing. *)
Lemma crc_bit_top x : uint 16 x → Z.testbit (crc_bit x) 15 = Z.odd x.
Proof.
  intros Hx. unfold crc_bit. rewrite land_1_odd.
  assert (Z.testbit (Z.shiftr x 1) 15 = false) as Hs.
  { rewrite Z.shiftr_spec by lia. by apply (uint_testbit 16). }
  destruct (Z.odd x) eqn:E; [|done]. rewrite Z.lxor_spec, Hs. done.
Qed.

Lemma crc_bit_inj x y : uint 16 x → uint 16 y → crc_bit x = crc_bit y → x = y.
Proof.
  intros Hx Hy E. pose proof (crc_bit_top x Hx) as Tx. pose proof (crc_bit_top y Hy) as Ty.
  rewrite E in Tx. rewrite Tx in Ty. unfold crc_bit in E. rewrite !land_1_odd, <- Ty in E.
  assert (Z.shiftr x 1 = Z.shiftr y 1) as Es.
  { destruct (Z.odd x); [by apply lxor_cancel_r in E|done]. }
  rewrite (Z.div_mod x 2), (Z.div_mod y 2) by lia.
  rewrite !Z.shiftr_div_pow2 in Es by lia. change (2 ^ 1) with 2 in Es.
  by rewrite Es, !Zmod_odd, Ty.
Qed.

Lemma iter_crc_bit n x y :
  uint 16 x → uint 16 y →
  uint 16 (Nat.iter n crc_bit x) ∧ (Nat.iter n crc_bit x = Nat.iter n crc_bit y → x = y).
Proof.
  intros Hx Hy. assert (∀ z, uint 16 z → uint 16 (Nat.iter n crc_bit z)) as Hu.
  { intros z Hz. induction n; simpl; [done|by apply crc_bit_uint]. }
  split; [auto|]. clear Hu. induction n as [|n IH]; simpl; [done|]. intros E. apply IH.
  apply crc_bit_inj in E; [done|..]; clear -Hx Hy; induction n; simpl; auto using crc_bit_uint.
Qed.

Lemma byte_u16 b : uint 8 b → uint 16 b.
Proof. unfold uint. change (2 ^ 8) with 256. change (2 ^ 16) with 65536. lia. Qed.

Lemma crc_octet_uint c b : uint 16 c → uint 8 b → uint 16 (crc_octet c b).
Proof.
  intros Hc Hb. apply (iter_crc_bit 8 _ 0); [|vm_compute; split; congruence].
  apply uint_lxor; [lia|done|by apply byte_u16].
Qed.

Lemma crc_octet_inj c b c' b' :
  uint 16 c → uint 8 b → uint 16 c' → uint 8 b' →
  crc_octet c b = crc_octet c' b' → Z.lxor c b = Z.lxor c' b'.
Proof.
  intros Hc Hb Hc' Hb' E. apply iter_crc_bit in E; [done|..]; (apply uint_lxor; [lia|done|by apply byte_u16]).
Qed.

Lemma crc_foldl_uint c data : uint 16 c → bytes_ok data → uint 16 (foldl crc_octet c data).
Proof.
  intros Hc Hd. revert c Hc. induction Hd; intros c Hc; simpl; [done|]. auto using crc_octet_uint.
Qed.

Lemma crc_foldl_inj c c' data :
  uint 16 c → uint 16 c' → bytes_ok data →
  foldl crc_octet c data = foldl crc_octet c' data → c = c'.
Proof.
  intros Hc Hc' Hd. revert c c' Hc Hc'. induction Hd as [|b data Hb Hd IH]; intros c c' Hc Hc' E; [done|].
  simpl in E. apply IH in E; [|by apply crc_octet_uint..].
  apply crc_octet_inj in E; [|done..]. by apply lxor_cancel_r in E.
Qed.
End crc.

(** The install code CRC catches every single-octet error: two codes of the
    same length that differ in exactly one octet have different CRCs, so a code
    accepted with its CRC is rejected after any one octet of it is changed. *)
Theorem install_code_crc_detects (pre suf : list Z) (b b' crc_lo crc_hi : Z) (c c' : InstallCode.t) :
  bytes_ok pre → bytes_ok suf → uint 8 b → uint 8 b' → b ≠ b' →
  InstallCode.new (pre ++ [b] ++ suf ++ [crc_lo; crc_hi]) = Some c →
  InstallCode.new (pre ++ [b'] ++ suf ++ [crc_lo; crc_hi]) = Some c' →
  InstallCode.code c = pre ++ [b] ++ suf ∧
  (InstallCode.crc_valid c = true → InstallCode.crc_valid c' = false).
Proof.
  intros Hpre Hsuf Hb Hb' Hne Hc Hc'.
  assert (∀ x i, InstallCode.new (pre ++ [x] ++ suf ++ [crc_lo; crc_hi]) = Some i →
    InstallCode.code i = pre ++ [x] ++ suf ∧ InstallCode.crc i = from_le [crc_lo; crc_hi]) as Hparts.
  { intros x i. unfold InstallCode.new. set (code := pre ++ [x] ++ suf).
    replace (pre ++ [x] ++ suf ++ [crc_lo; crc_hi]) with (code ++ [crc_lo; crc_hi])
      by (subst code; by rewrite <- !app_assoc).
    case_bool_decide as Hl; cbn [negb]; [|done].
    assert (length (code ++ [crc_lo; crc_hi]) ≤ 18)%nat as Hle.
    { repeat (apply elem_of_cons in Hl as [->|Hl]; [lia|]). by apply not_elem_of_nil in Hl. }
    rewrite get_range_Some by (rewrite length_replicate; lia). intros [= <-].
    unfold InstallCode.code, InstallCode.crc. cbn [InstallCode.bytes InstallCode.len].
    unfold splice. rewrite take_0, app_nil_l, length_app in *. simpl length in *.
    rewrite get_range_Some by (rewrite !length_app; simpl; lia). change (default [] (Some ?l)) with l.
    replace (length code + 2 - 2)%nat with (length code) by lia.
    replace (length code + 2 - 1)%nat with (length code + 1)%nat by lia.
    rewrite drop_0, Nat.sub_0_r, (proj2 (Nat.ltb_ge _ _)), <- app_assoc by lia.
    rewrite take_app_length. split; [done|].
    rewrite !(lookup_app_r code) by lia.
    rewrite Nat.sub_diag. replace (length code + 1 - length code)%nat with 1%nat by lia. done. }
  destruct (Hparts b c Hc) as [Hcode Hcrc]. destruct (Hparts b' c' Hc') as [Hcode' Hcrc'].
  split; [done|]. unfold InstallCode.crc_valid. rewrite Hcode, Hcode', Hcrc, Hcrc'.
  intros E%Z.eqb_eq. apply Z.eqb_neq. rewrite <- E. intros E'. apply Hne.
  unfold crc16_x25 in E'. apply lxor_cancel_r in E'.
  assert (uint 16 0xFFFF) as Hi by (vm_compute; split; congruence).
  rewrite !foldl_app in E'. simpl in E'.
  pose proof (crc_foldl_uint _ _ Hi Hpre) as Hp.
  apply crc_foldl_inj in E'; [|by apply crc_octet_uint..|done].
  apply crc_octet_inj in E'; [|done..]. by apply lxor_cancel_l in E'.
Qed.

(** The install code of the BDB specification. *)
Lemma install_code_crc_detects_witness :
  let code b := b :: [0xFE; 0xD3; 0x40; 0x7A; 0x93; 0x97; 0x23; 0xA5; 0xC6; 0x39; 0xB2; 0x69; 0x16;
                      0xD5; 0x05; 0xC3; 0xB5] in
  InstallCode.crc_valid (InstallCode.mk (code 0x83) 18) = true ∧
  InstallCode.crc_valid (InstallCode.mk (code 0x82) 18) = false.
Proof.
  split; [vm_compute; reflexivity|].
  refine (proj2 (install_code_crc_detects []
    [0xFE; 0xD3; 0x40; 0x7A; 0x93; 0x97; 0x23; 0xA5; 0xC6; 0x39; 0xB2; 0x69; 0x16; 0xD5; 0x05]
    0x83 0x82 0xC3 0xB5 _ _ _ _ _ _ _ eq_refl eq_refl) _).
  - constructor.
  - repeat (constructor; [vm_compute; split; congruence|]). constructor.
  - vm_compute; split; congruence.
  - vm_compute; split; congruence.
  - lia.
  - vm_compute; reflexivity.
Defined.

(** ** Network keys *)

#[global] Instance of_sequence_test : KeyTest NetworkKeySlot.sequence NetworkKeys.of_sequence.
Proof. intros p e. apply Z.eqb_eq. Qed.
#[global] Instance of_partner_test : KeyTest LinkKeyEntry.partner LinkKeyTable.of_partner.
Proof. intros p e. apply Z.eqb_eq. Qed.

Section network_keys.
Context {H : Heapless}.
Implicit Types k : NetworkKeys.t.

Abbreviation seq_of := NetworkKeySlot.sequence.

(** Making room in full slots spares the active key. *)
Lemma evict_spec k :
  NetworkKeys.wf k → length (NetworkKeys.slots k) = 2%nat →
  ∃ i x l', position (λ s, negb (bool_decide (Some (seq_of s) = NetworkKeys.active_seq k)))
      (NetworkKeys.slots k) = Some i ∧
    vec_swap_remove (NetworkKeys.slots k) i = Some (x, l') ∧ Some (seq_of x) ≠ NetworkKeys.active_seq k ∧
    NoDup (seq_of <$> l') ∧ length l' = 1%nat ∧
    (∀ p, p ≠ seq_of x → List.find (NetworkKeys.of_sequence p) l' = NetworkKeys.get k p) ∧
    (∀ p, p ∉ seq_of <$> NetworkKeys.slots k → p ∉ seq_of <$> l').
Proof.
  intros (Hnd & _ & _) Hl. set (f := λ s, negb _).
  destruct (position f (NetworkKeys.slots k)) as [i|] eqn:E.
  - apply position_Some in E as (x & Hi & Hf & _).
    destruct (swap_remove_Permutation _ _ _ Hi) as (l' & Hr & Hp).
    destruct (swap_remove_keyed seq_of _ _ _ _ Hnd Hi Hr) as (Hnd' & Hlen & _ & Hfind).
    exists i, x, l'. split_and!; [done|done| |done|lia|exact Hfind|].
    + subst f. simpl in Hf. by case_bool_decide.
    + intros p Hp1 Hp2. apply Hp1. rewrite Hp. simpl. by right.
  - exfalso. pose proof (proj1 (position_None _ _) E) as Hall.
    destruct (NetworkKeys.slots k) as [|x [|y [|]]] eqn:Es; simpl in Hl; try lia.
    assert (∀ s, s ∈ [x; y] → Some (seq_of s) = NetworkKeys.active_seq k) as Hact.
    { intros s Hs. specialize (Hall s Hs). subst f. simpl in Hall. by case_bool_decide. }
    pose proof (Hact x ltac:(set_solver)) as Hx. pose proof (Hact y ltac:(set_solver)) as Hy.
    rewrite <- Hx in Hy. injection Hy as Hy. simpl in Hnd.
    apply NoDup_cons in Hnd as [Hn _]. apply Hn. rewrite Hy. set_solver.
Qed.

Lemma install_spec k seq key :
  NetworkKeys.wf k →
  let k' := NetworkKeys.install k seq key in
  NetworkKeys.wf k' ∧ NetworkKeys.get k' seq = Some (NetworkKeySlot.mk seq key) ∧
  NetworkKeys.active_seq k' = NetworkKeys.active_seq k ∧
  NetworkKeys.outgoing k' = NetworkKeys.outgoing k ∧
  (∀ a, NetworkKeys.active_seq k = Some a → a ≠ seq → NetworkKeys.get k' a = NetworkKeys.get k a).
Proof.
  intros Hwf. pose proof Hwf as (Hnd & Hl & Hact). unfold NetworkKeys.install.
  destruct (List.find (NetworkKeys.of_sequence seq) (NetworkKeys.slots k)) as [s|] eqn:E.
  - set (g := λ s, _). assert (∀ e, seq_of e = seq → seq_of (g e) = seq) as Hg by done.
    pose proof (find_key_update seq_of seq g (NetworkKeys.slots k) Hg) as Hs.
    assert (∀ a, a ≠ seq → List.find (NetworkKeys.of_sequence a)
      (update_first (NetworkKeys.of_sequence seq) g (NetworkKeys.slots k)) =
      List.find (NetworkKeys.of_sequence a) (NetworkKeys.slots k)) as Ho.
    { intros a Ha. by apply (find_key_update_ne seq_of). }
    rewrite E in Hs.
    apply (find_key_Some seq_of) in E as [_ E].
    split_and!; [|unfold NetworkKeys.get; etransitivity; [exact Hs|]; by subst seq|done|done|intros; by apply Ho].
    unfold NetworkKeys.wf, NetworkKeys.get. simpl.
    pose proof (keys_update_first seq_of seq g (NetworkKeys.slots k) Hg) as Hk.
    split_and!; [by rewrite <- Hk in Hnd|by rewrite length_update_first|].
    destruct (NetworkKeys.active_seq k) as [a|]; [|done].
    destruct (decide (a = seq)) as [->|Hne]; [rewrite Hs; eauto|]. by rewrite Ho.
  - apply (find_key_None seq_of) in E. rewrite vec_is_full_spec.
    set (ss := if (_ =? _)%nat then _ else _).
    assert (NoDup (seq_of <$> ss) ∧ (length ss < 2)%nat ∧ (seq ∉ seq_of <$> ss) ∧
      ∀ a, NetworkKeys.active_seq k = Some a →
        List.find (NetworkKeys.of_sequence a) ss = NetworkKeys.get k a) as (Hnd' & Hl' & Hn' & Ha').
    { subst ss. destruct (Nat.eqb_spec (length (NetworkKeys.slots k)) 2) as [E2|E2].
      - destruct (evict_spec k Hwf E2) as (i & x & l' & -> & Hr & Hx & Hnd' & Hl' & Hf & Hn).
        simpl. rewrite Hr. split_and!; [done|lia|by apply Hn|]. intros a Ha. apply Hf. congruence.
      - split_and!; [done|lia|done|done]. }
    rewrite (vec_push_room _ _ ss) by done.
    pose proof (find_key_snoc seq_of seq ss (NetworkKeySlot.mk seq key) Hn' eq_refl) as Hs.
    assert (∀ a, NetworkKeys.active_seq k = Some a → a ≠ seq →
      List.find (NetworkKeys.of_sequence a) (ss ++ [NetworkKeySlot.mk seq key]) = NetworkKeys.get k a) as Ho.
    { intros a Ha Hne. rewrite <- (Ha' a Ha).
      exact (find_key_snoc_ne seq_of a ss (NetworkKeySlot.mk seq key) (not_eq_sym Hne)). }
    split_and!; [|exact Hs|done|done|exact Ho].
    unfold NetworkKeys.wf, NetworkKeys.get. cbn [NetworkKeys.slots NetworkKeys.active_seq].
    split_and!; [by apply (NoDup_keys_snoc seq_of)|rewrite length_app; simpl; lia|].
    destruct (NetworkKeys.active_seq k) as [a|] eqn:Ea; [|done].
    destruct (decide (a = seq)) as [->|Hne]; [rewrite Hs; eauto|]. by rewrite (Ho a).
Qed.

Lemma install_active_wf k seq key :
  NetworkKeys.wf k → NetworkKeys.wf (NetworkKeys.install_active k seq key).
Proof.
  intros (( Hnd & Hl & _) & Hg & _)%(install_spec k seq key). unfold NetworkKeys.install_active.
  split_and!; [done..|]. simpl. unfold NetworkKeys.get in *. simpl. by rewrite Hg.
Qed.

Lemma switch_to_spec k seq :
  NetworkKeys.wf k →
  NetworkKeys.wf (NetworkKeys.switch_to k seq).2 ∧
  (NetworkKeys.switch_to k seq).1 = is_some (NetworkKeys.get k seq) ∧
  NetworkKeys.slots (NetworkKeys.switch_to k seq).2 = NetworkKeys.slots k ∧
  NetworkKeys.active_seq (NetworkKeys.switch_to k seq).2 =
    (if is_some (NetworkKeys.get k seq) then Some seq else NetworkKeys.active_seq k).
Proof.
  intros Hwf. pose proof Hwf as (Hnd & Hl & _). unfold NetworkKeys.switch_to.
  assert (existsb (NetworkKeys.of_sequence seq) (NetworkKeys.slots k) = is_some (NetworkKeys.get k seq)) as Hex.
  { unfold NetworkKeys.get. clear. induction (NetworkKeys.slots k) as [|s l IH]; simpl; [done|].
    by destruct (NetworkKeys.of_sequence seq s). }
  rewrite Hex. destruct (NetworkKeys.get k seq) as [s|] eqn:E; simpl; [|done].
  case_bool_decide as Ha; simpl.
  - split_and!; [|done..]. split_and!; [done..|]. simpl. unfold NetworkKeys.get in *. simpl.
    by rewrite E.
  - split_and!; try done.
Qed.
End network_keys.

(** The network key slots: from any well-formed state (two slots, one key
    per sequence number, the active key present) every operation keeps the state
    well-formed; an installed key is found under its sequence number; and neither
    the active sequence nor the active key is disturbed by installing another
    key, also when a slot has to be evicted.  Switching succeeds exactly for an
    installed key and then makes it the active one. *)
Theorem network_keys_protect_active {H : Heapless} (k : NetworkKeys.t) (seq : Z) (key : list Z) :
  NetworkKeys.wf k →
  let k' := NetworkKeys.install k seq key in
  let '(ok, k2) := NetworkKeys.switch_to k seq in
  NetworkKeys.wf k' ∧ NetworkKeys.wf (NetworkKeys.install_active k seq key) ∧ NetworkKeys.wf k2 ∧
  NetworkKeys.wf (NetworkKeys.clear_keys k) ∧
  NetworkKeys.get k' seq = Some (NetworkKeySlot.mk seq key) ∧
  NetworkKeys.active_sequence k' = NetworkKeys.active_sequence k ∧
  (∀ a, NetworkKeys.active_sequence k = Some a → a ≠ seq →
     NetworkKeys.active k' = NetworkKeys.active k) ∧
  ok = is_some (NetworkKeys.get k seq) ∧
  (ok = true → NetworkKeys.active k2 = NetworkKeys.get k seq) ∧ (ok = false → k2 = k).
Proof.
  intros Hwf k'. destruct (install_spec k seq key Hwf) as (Hw & Hg & Ha & _ & Ho).
  destruct (switch_to_spec k seq Hwf) as (Hw2 & Hok & Hs & Ha2).
  destruct (NetworkKeys.switch_to k seq) as [ok k2] eqn:E. simpl in *.
  split_and!; try done.
  - by apply install_active_wf.
  - unfold NetworkKeys.wf, NetworkKeys.clear_keys. rewrite vec_clear_spec. simpl.
    split_and!; [constructor|lia|done].
  - intros a Ha1 Hne. specialize (Ho a Ha1 Hne). unfold NetworkKeys.active_sequence, NetworkKeys.active, NetworkKeys.get, k' in *.
    by rewrite Ha, Ha1.
  - intros ->. unfold NetworkKeys.active. rewrite Ha2, <- Hok, Hs. done.
  - intros ->. unfold NetworkKeys.switch_to in E. repeat case_match; by simplify_eq.
Qed.

Lemma network_keys_protect_active_witness :
  let k := NetworkKeys.install (NetworkKeys.install_active NetworkKeys.new 0 [1]) 1 [2] in
  NetworkKeys.active (NetworkKeys.install k 2 [3]) = Some (NetworkKeySlot.mk 0 [1]) ∧
  NetworkKeys.active (NetworkKeys.install k 2 [3]) = NetworkKeys.active k.
Proof.
  split; [vm_compute; reflexivity|].
  refine (proj1 (proj2 (proj2 (proj2 (proj2 (proj2 (proj2 (network_keys_protect_active
    (NetworkKeys.install (NetworkKeys.install_active NetworkKeys.new 0 [1]) 1 [2]) 2 [3] _))))))) 0 eq_refl _).
  - vm_compute. split_and!; [|lia|eauto].
    repeat constructor; rewrite ?elem_of_cons, ?elem_of_nil; intuition congruence.
  - lia.
Defined.

(** ** The link key table *)

(** The link key table is a bounded map from partner addresses to entries:
    inserting replaces or adds exactly the partner's entry, fails (handing the
    entry back and changing nothing) only for a new partner in a full table, and
    removing forgets exactly that partner and reports whether it was there. *)
Theorem link_key_table_map {H : Heapless} {K : nat} (s : LinkKeyTable.t K) (e : LinkKeyEntry.t) (p : Z) :
  LinkKeyTable.wf s →
  (match LinkKeyTable.insert e s with
   | (Ok _, s') =>
       LinkKeyTable.wf s' ∧ LinkKeyTable.get s' (LinkKeyEntry.partner e) = Some e ∧
       ∀ q, q ≠ LinkKeyEntry.partner e → LinkKeyTable.get s' q = LinkKeyTable.get s q
   | (Err e', s') =>
       e' = e ∧ s' = s ∧ LinkKeyTable.get s (LinkKeyEntry.partner e) = None ∧ LinkKeyTable.is_full s = true
   end) ∧
  (let '(was, s') := LinkKeyTable.remove s p in
   LinkKeyTable.wf s' ∧ LinkKeyTable.get s' p = None ∧
   (∀ q, q ≠ p → LinkKeyTable.get s' q = LinkKeyTable.get s q) ∧
   was = is_some (LinkKeyTable.get s p)).
Proof.
  destruct s as [l]. intros [Hnd Hl]. unfold LinkKeyTable.insert, LinkKeyTable.remove, LinkKeyTable.wf,
    LinkKeyTable.get, LinkKeyTable.get_mut, LinkKeyTable.is_full in *.
  cbn [LinkKeyTable.entries] in *.
  split.
  - set (q0 := LinkKeyEntry.partner e). destruct (List.find (LinkKeyTable.of_partner q0) l) as [e0|] eqn:E.
    + cbn [LinkKeyTable.entries].
      assert (∀ e1, LinkKeyEntry.partner e1 = q0 → LinkKeyEntry.partner ((λ _, e) e1) = q0) as Hg by done.
      rewrite (keys_update_first LinkKeyEntry.partner), length_update_first, (find_key_update LinkKeyEntry.partner), E by done.
      split_and!; [done..|]. intros q Hq. by apply (find_key_update_ne LinkKeyEntry.partner).
    + apply (find_key_None LinkKeyEntry.partner) in E. destruct (vec_push_cases K l e) as [[Hlt ->]|[Hge ->]]; cbn [LinkKeyTable.entries].
      * split_and!; [by apply NoDup_keys_snoc|rewrite length_app; simpl; lia| |].
        -- by apply (find_key_snoc LinkKeyEntry.partner).
        -- intros q Hq. by apply (find_key_snoc_ne LinkKeyEntry.partner).
      * split_and!; [done..|]. rewrite vec_is_full_spec. apply Nat.eqb_eq. lia.
  - rewrite vec_retain_spec. cbn [LinkKeyTable.entries].
    pose proof (List.filter_length_le (λ e, negb (LinkKeyTable.of_partner p e)) l).
    split_and!; [by apply NoDup_keys_filter|lia|apply find_key_filter_drop| |].
    + intros q Hq. by apply (find_key_filter_keep LinkKeyEntry.partner).
    + clear. induction l as [|e1 l IH]; simpl; [done|].
      pose proof (List.filter_length_le (λ e, negb (LinkKeyTable.of_partner p e)) l).
      destruct (LinkKeyTable.of_partner p e1); simpl; [|done].
      apply negb_true_iff, Nat.eqb_neq. lia.
Qed.

Lemma link_key_table_map_witness :
  let e := LinkKeyEntry.provisional 7 [0] Unique in
  LinkKeyTable.insert e (LinkKeyTable.new 1) = (Ok tt, LinkKeyTable.mk [e]) ∧
  LinkKeyTable.get (K:=1) (LinkKeyTable.mk [e]) (LinkKeyEntry.partner e) = Some e.
Proof.
  split; [reflexivity|].
  refine (proj1 (proj2 (proj1 (link_key_table_map (LinkKeyTable.new 1) (LinkKeyEntry.provisional 7 [0] Unique) 0 _)))).
  split; simpl; [constructor|lia].
Defined.

(** The wire values of the key enumerations: parsing a value and printing it
    again is the identity on every octet, so unknown values survive, and a known
    constructor is parsed back from its value. *)
Theorem key_enums_round_trip (v : Z) :
  KeyType.raw (KeyType.from_raw v) = v ∧ KeyAttributes.raw (KeyAttributes.from_raw v) = v ∧
  (∀ k, (∀ u, k ≠ KeyType.Unknown u) → KeyType.from_raw (KeyType.raw k) = k) ∧
  (∀ a, (∀ u, a ≠ KeyAttributes.Unknown u) → KeyAttributes.from_raw (KeyAttributes.raw a) = a).
Proof.
  split_and!.
  - unfold KeyType.from_raw. by repeat case_match.
  - unfold KeyAttributes.from_raw. by repeat case_match.
  - intros [] Hk; try done. by destruct (Hk v0).
  - intros [] Hk; try done. by destruct (Hk v0).
Qed.
