(* ===== verification/NwkSecurity.v ===== *)
(** * NWK frame security (panweave-nwk/src/security.rs)

    The network keys, the shared outgoing counter, the incoming counters and a
    cache of keyed ciphers, composed into the two handlers that secure outgoing
    and unsecure incoming NWK frames. *)

From S2P Require Import Prelude Codec Heapless FrameCounter AuxHeader Ccm SecFrame Keys.

Module Unsecured.
Record t : Type := mk {
  sender : Z;
  key_sequence : Z;
  frame_counter : Z;
  payload_start : nat;
  payload_end : nat
}.
End Unsecured.

Module NwkSecurity.

Record t (C : Type) (K : nat) : Type := mk {
  keys : NetworkKeys.t;
  incoming : IncomingCounters.t K;
  ciphers : list (option (Z * C))
}.
Arguments mk {C K} _ _ _.
Arguments keys {C K} _.
Arguments incoming {C K} _.
Arguments ciphers {C K} _.

Section security.
Context {C : Type} {K : nat} `{!BlockCipher C} {CT : ConstantTimeEq} {H : Heapless}.
Abbreviation st := (t C K).

Definition new : st := mk NetworkKeys.new (IncomingCounters.new K) [None; None].

Definition install_active_key (s : st) (seq : Z) (key : list Z) : st :=
  mk (NetworkKeys.install_active (keys s) seq key) (incoming s) [None; None].

Definition install_key (s : st) (seq : Z) (key : list Z) : st :=
  mk (NetworkKeys.install (keys s) seq key) (incoming s) [None; None].

Definition switch_key (s : st) (seq : Z) : bool * st :=
  if bool_decide (NetworkKeys.active_sequence (keys s) = Some seq) then (true, s)
  else
    let '(ok, ks) := NetworkKeys.switch_to (keys s) seq in
    if negb ok then (false, mk ks (incoming s) (ciphers s))
    else (true, mk ks (IncomingCounters.reset_all (incoming s)) (ciphers s)).

Definition has_key (s : st) : bool := NetworkKeys.has_active (keys s).
Definition active_sequence (s : st) : option Z := NetworkKeys.active_sequence (keys s).

Definition clear_keys (s : st) : st :=
  mk (NetworkKeys.clear_keys (keys s)) (IncomingCounters.reset_all (incoming s)) [None; None].

Definition cached (seq : Z) (c : option (Z * C)) : bool :=
  match c with Some (s, _) => s =? seq | None => false end.

Definition cipher_for (s : st) (seq : Z) : option C * st :=
  match position (cached seq) (ciphers s) with
  | Some idx => (snd <$> (mjoin (ciphers s !! idx)), s)
  | None =>
      match NetworkKeys.get (keys s) seq with
      | None => (None, s)
      | Some k =>
          let slot := default 1%nat (position (λ c, negb (is_some c)) (ciphers s)) in
          let cs := <[slot := Some (seq, cipher_new (NetworkKeySlot.key k))]> (ciphers s) in
          (snd <$> (mjoin (cs !! slot)), mk (keys s) (incoming s) cs)
      end
  end.

Definition with_outgoing (s : st) (o : OutgoingCounter.t) : st :=
  mk (NetworkKeys.mk (NetworkKeys.slots (keys s)) (NetworkKeys.active_seq (keys s)) o)
     (incoming s) (ciphers s).

Definition start_counter_reservation (s : st) : option Z * st :=
  let '(r, o) := OutgoingCounter.start_reservation (NetworkKeys.outgoing (keys s)) in
  (r, with_outgoing s o).

Definition commit_counter_reservation (s : st) (r : Z) : st :=
  with_outgoing s (OutgoingCounter.commit_reservation (NetworkKeys.outgoing (keys s)) r).

Definition abort_counter_reservation (s : st) : st :=
  with_outgoing s (OutgoingCounter.abort_reservation (NetworkKeys.outgoing (keys s))).

Definition restore_outgoing_counter (s : st) (reserved_until : Z) : st :=
  with_outgoing s (OutgoingCounter.restore reserved_until).

(** The result, the buffer and the state afterwards. *)
Definition secure_outgoing (s : st) (buf : list Z) (header_len payload_len : nat)
    (level : SecurityLevel.t) (local_ieee : Z) : result nat SecurityError * list Z * st :=
  match NetworkKeys.active_sequence (keys s) with
  | None => (Err NoKey, buf, s)
  | Some sequence =>
      let '(r, o) := OutgoingCounter.allocate (NetworkKeys.outgoing (keys s)) in
      let s := with_outgoing s o in
      match r with
      | Err _ => (Err SecFrameCounter, buf, s)
      | Ok counter =>
          let aux := AuxHeader.network level counter local_ieee sequence in
          let '(c, s) := cipher_for s sequence in
          match c with
          | None => (Err NoKey, buf, s)
          | Some cipher =>
              let '(r, buf) := protect_in_place cipher aux local_ieee buf header_len payload_len in
              (r, buf, s)
          end
      end
  end.

Definition aux_header_len : nat := 1 + 4 + 8 + 1.

Definition unsecure_incoming (s : st) (buf : list Z) (header_len : nat)
    (level : SecurityLevel.t) (all_fresh : bool) : result Unsecured.t SecurityError * list Z * st :=
  match peek_aux buf header_len with
  | Err e => (Err e, buf, s)
  | Ok aux =>
      match AuxHeader.key_sequence aux with
      | None => (Err SecMalformed, buf, s)
      | Some sequence =>
          match AuxHeader.source aux with
          | None => (Err SecMalformed, buf, s)
          | Some sender =>
              let fc := AuxHeader.frame_counter aux in
              if fc =? u32_max then (Err BadFrameCounter, buf, s)
              else if negb (IncomingCounters.is_fresh (incoming s) sender fc)
              then (Err BadFrameCounter, buf, s)
              else
                let '(c, s) := cipher_for s sequence in
                match c with
                | None => (Err NoKey, buf, s)
                | Some cipher =>
                    let '(r, buf) := unprotect_in_place cipher level sender buf header_len in
                    match r with
                    | Err e => (Err e, buf, s)
                    | Ok u =>
                        let '(r, inc) := IncomingCounters.check_and_update sender fc all_fresh (incoming s) in
                        let s := mk (keys s) inc (ciphers s) in
                        match r with
                        | Err TableFull => (Err PolicyRejected, buf, s)
                        | Err _ => (Err BadFrameCounter, buf, s)
                        | Ok _ =>
                            (Ok (Unsecured.mk sender sequence fc
                                   (Unprotected.payload_start u) (Unprotected.payload_end u)), buf, s)
                        end
                    end
                end
          end
      end
  end.

(** The cache holds ciphers keyed with installed keys only. *)
Definition coherent (s : st) : Prop :=
  length (ciphers s) = 2%nat ∧
  ∀ i seq c, ciphers s !! i = Some (Some (seq, c)) →
    ∃ k, NetworkKeys.get (keys s) seq = Some k ∧ c = cipher_new (NetworkKeySlot.key k).

Definition wf (s : st) : Prop :=
  NetworkKeys.wf (keys s) ∧ OutgoingCounter.wf (NetworkKeys.outgoing (keys s)) ∧
  IncomingCounters.wf (incoming s) ∧ coherent s.

End security.
End NwkSecurity.

(** Every way the layer changes the security state. *)
Module SecurityOp.
Inductive t : Type :=
  | InstallActive (seq : Z) (key : list Z)
  | Install (seq : Z) (key : list Z)
  | Switch (seq : Z)
  | Clear
  | Start
  | Commit (r : Z)
  | Abort
  | Restore (r : Z)
  | Secure (buf : list Z) (header_len payload_len : nat) (level : SecurityLevel.t) (ieee : Z)
  | Unsecure (buf : list Z) (header_len : nat) (level : SecurityLevel.t) (all_fresh : bool).

(** The arguments are machine values. *)
Definition ok (o : t) : Prop :=
  match o with
  | Commit r | Restore r => uint 32 r
  | Unsecure buf _ _ _ => bytes_ok buf
  | _ => True
  end.

Section exec.
Context {C : Type} {K : nat} `{!BlockCipher C} {CT : ConstantTimeEq} {H : Heapless}.

Definition exec (s : NwkSecurity.t C K) (o : t) : NwkSecurity.t C K :=
  match o with
  | InstallActive seq key => NwkSecurity.install_active_key s seq key
  | Install seq key => NwkSecurity.install_key s seq key
  | Switch seq => snd (NwkSecurity.switch_key s seq)
  | Clear => NwkSecurity.clear_keys s
  | Start => snd (NwkSecurity.start_counter_reservation s)
  | Commit r => NwkSecurity.commit_counter_reservation s r
  | Abort => NwkSecurity.abort_counter_reservation s
  | Restore r => NwkSecurity.restore_outgoing_counter s r
  | Secure buf hl pl level ieee => snd (NwkSecurity.secure_outgoing s buf hl pl level ieee)
  | Unsecure buf hl level af => snd (NwkSecurity.unsecure_incoming s buf hl level af)
  end.
End exec.
End SecurityOp.

Section security_spec.
Context {C : Type} {K : nat} `{!BlockCipher C} {CT : ConstantTimeEq} {H : Heapless}.
Implicit Types s : NwkSecurity.t C K.

(** The cipher a key sequence number stands for. *)
Definition key_cipher s (seq : Z) : option C :=
  (λ k, cipher_new (NetworkKeySlot.key k)) <$> NetworkKeys.get (NwkSecurity.keys s) seq.

Lemma cipher_for_spec s seq :
  NwkSecurity.coherent s →
  let '(c, s') := NwkSecurity.cipher_for s seq in
  c = key_cipher s seq ∧ NwkSecurity.coherent s' ∧
  NwkSecurity.keys s' = NwkSecurity.keys s ∧ NwkSecurity.incoming s' = NwkSecurity.incoming s.
Proof.
  intros [Hl Hc]. unfold NwkSecurity.cipher_for, key_cipher.
  destruct (position (NwkSecurity.cached seq) (NwkSecurity.ciphers s)) as [i|] eqn:E.
  - apply position_Some in E as ([[sq c]|] & Hi & Hcached & _); [|done].
    simpl in Hcached. apply Z.eqb_eq in Hcached as ->. rewrite Hi. simpl.
    destruct (Hc i seq c Hi) as (k & -> & ->). done.
  - destruct (NetworkKeys.get (NwkSecurity.keys s) seq) as [k|] eqn:G; [|done].
    set (slot := default 1%nat _).
    assert (slot < 2)%nat as Hs.
    { subst slot. destruct (position (λ c, negb (is_some c)) (NwkSecurity.ciphers s)) as [j|] eqn:Ej;
        [|apply Nat.lt_1_2].
      apply position_Some in Ej as (x & Hj & _). rewrite <- Hl. by eapply lookup_lt_Some. }
    clearbody slot. rewrite list_lookup_insert_eq by lia. simpl. split_and!; try done.
    split; simpl; [by rewrite length_insert|]. intros i sq c Hi.
    destruct (decide (i = slot)) as [->|Hne].
    + rewrite list_lookup_insert_eq in Hi by lia. injection Hi as <- <-. eauto.
    + rewrite list_lookup_insert_ne in Hi by done. eauto.
Qed.

Lemma coherent_fresh (ks : NetworkKeys.t) (inc : IncomingCounters.t K) :
  NwkSecurity.coherent (NwkSecurity.mk (C:=C) ks inc [None; None]).
Proof. split; [done|]. intros [|[|]] seq c Hi; simplify_eq. Qed.

Lemma reset_all_wf (inc : IncomingCounters.t K) : IncomingCounters.wf (IncomingCounters.reset_all inc).
Proof.
  unfold IncomingCounters.wf, IncomingCounters.reset_all. rewrite vec_clear_spec. simpl.
  split_and!; [constructor|lia|constructor].
Qed.

Lemma with_outgoing_wf s o :
  NwkSecurity.wf s → OutgoingCounter.wf o → NwkSecurity.wf (NwkSecurity.with_outgoing s o).
Proof. by intros (Hk & _ & Hi & Hc) Ho. Qed.

(** A handler that fetches a cipher, then may record a counter. *)
Lemma cipher_for_wf s seq c s' :
  NwkSecurity.wf s → NwkSecurity.cipher_for s seq = (c, s') →
  c = key_cipher s seq ∧ NwkSecurity.wf s' ∧
  NwkSecurity.keys s' = NwkSecurity.keys s ∧ NwkSecurity.incoming s' = NwkSecurity.incoming s.
Proof.
  intros (Hk & Ho & Hi & Hc) E. pose proof (cipher_for_spec s seq Hc) as Hs. rewrite E in Hs.
  destruct Hs as (-> & Hc' & Ek & Ei). split_and!; try done. by split_and!; rewrite ?Ek, ?Ei.
Qed.

Lemma secure_outgoing_wf s buf hl pl level ieee :
  NwkSecurity.wf s → NwkSecurity.wf (NwkSecurity.secure_outgoing s buf hl pl level ieee).2.
Proof.
  intros Hwf. unfold NwkSecurity.secure_outgoing.
  destruct (NetworkKeys.active_sequence _) as [seq|]; [|done].
  destruct (OutgoingCounter.allocate _) as [r o] eqn:Ea.
  assert (NwkSecurity.wf (NwkSecurity.with_outgoing s o)) as Hwf1.
  { apply with_outgoing_wf; [done|]. destruct Hwf as (_ & Ho & _). by eapply allocate_wf. }
  destruct r as [fc|]; [|done].
  destruct (NwkSecurity.cipher_for _ _) as [[c|] s'] eqn:Ec;
    apply cipher_for_wf in Ec as (_ & Hwf' & _); try done.
  by destruct (protect_in_place _ _ _ _ _ _).
Qed.

(** A peeked frame counter is a [u32]. *)
Lemma peek_aux_counter buf hl aux :
  bytes_ok buf → peek_aux buf hl = Ok aux → uint 32 (AuxHeader.frame_counter aux).
Proof. intros Hok (Hwf & _)%peek_aux_inv; [|done]. apply Hwf. Qed.

(** The whole receive path: on every failure keys and counters are as before;
    on success the frame was authentic and fresh. *)
Lemma unsecure_spec s buf hl level af :
  NwkSecurity.wf s → bytes_ok buf →
  let '(r, buf', s') := NwkSecurity.unsecure_incoming s buf hl level af in
  NwkSecurity.wf s' ∧ NwkSecurity.keys s' = NwkSecurity.keys s ∧
  match r with
  | Err _ => NwkSecurity.incoming s' = NwkSecurity.incoming s
  | Ok u =>
      ∃ aux cipher v, peek_aux buf hl = Ok aux ∧
        AuxHeader.source aux = Some (Unsecured.sender u) ∧
        AuxHeader.key_sequence aux = Some (Unsecured.key_sequence u) ∧
        AuxHeader.frame_counter aux = Unsecured.frame_counter u ∧
        key_cipher s (Unsecured.key_sequence u) = Some cipher ∧
        unprotect_in_place cipher level (Unsecured.sender u) buf hl = (Ok v, buf') ∧
        Unprotected.payload_start v = Unsecured.payload_start u ∧
        Unprotected.payload_end v = Unsecured.payload_end u ∧
        IncomingCounters.check_and_update (Unsecured.sender u) (Unsecured.frame_counter u) af
          (NwkSecurity.incoming s) = (Ok tt, NwkSecurity.incoming s')
  end.
Proof.
  intros Hwf Hok. unfold NwkSecurity.unsecure_incoming.
  destruct (peek_aux buf hl) as [aux|] eqn:Hpk; [|done].
  destruct (AuxHeader.key_sequence aux) as [seq|] eqn:Hseq; [|done].
  destruct (AuxHeader.source aux) as [src|] eqn:Hsrc; [|done].
  destruct (AuxHeader.frame_counter aux =? u32_max); [done|].
  destruct (negb _); [done|].
  destruct (NwkSecurity.cipher_for s seq) as [c s1] eqn:Ec.
  apply cipher_for_wf in Ec as (-> & Hwf1 & Ek & Ei); [|done].
  destruct (key_cipher s seq) as [cipher|] eqn:Hc; [|done].
  destruct (unprotect_in_place cipher level src buf hl) as [[v|e] buf'] eqn:Eu; [|done].
  pose proof (peek_aux_counter _ _ _ Hok Hpk) as Hfc. pose proof Hwf1 as (Hk1 & Ho1 & Hi1 & Hc1).
  pose proof (check_and_update_spec (NwkSecurity.incoming s1) src
    (AuxHeader.frame_counter aux) af Hi1 Hfc) as Hcu.
  destruct (IncomingCounters.check_and_update _ _ _ _) as [[[]|e] inc] eqn:Eq.
  - destruct Hcu as (_ & Hinc & _). split_and!; [by split_and!|done|].
    exists aux, cipher, v. simpl. rewrite <- Ei. by rewrite Eq.
  - assert (inc = NwkSecurity.incoming s1) as -> by (destruct e; by destruct Hcu as [-> _]).
    destruct e; (split_and!; [by split_and!|done|done]).
Qed.

Lemma exec_wf s o : NwkSecurity.wf s → SecurityOp.ok o → NwkSecurity.wf (SecurityOp.exec s o).
Proof.
  intros Hwf Hok. pose proof Hwf as (Hk & Ho & Hi & Hc). destruct o; simpl in *.
  - split_and!; [by apply install_active_wf| |done|apply coherent_fresh].
    simpl. by destruct (install_spec _ seq key Hk) as (_ & _ & _ & -> & _).
  - destruct (install_spec _ seq key Hk) as (Hw & _ & _ & Ho' & _).
    split_and!; [done|by rewrite <- Ho' in Ho|done|apply coherent_fresh].
  - unfold NwkSecurity.switch_key. case_bool_decide; [done|].
    destruct (switch_to_spec _ seq Hk) as (Hw & _ & Hs & _).
    destruct (NetworkKeys.switch_to (NwkSecurity.keys s) seq) as [ok ks] eqn:E. simpl in *.
    assert (OutgoingCounter.wf (NetworkKeys.outgoing ks)) as Hok'.
    { unfold NetworkKeys.switch_to in E. destruct (existsb _ _); [|by simplify_eq].
      case_bool_decide; simplify_eq; try done. simpl.
      destruct (OutgoingCounter.on_key_switch _) eqn:Eo. by eapply on_key_switch_wf. }
    assert (∀ inc : IncomingCounters.t K, NwkSecurity.coherent
      (NwkSecurity.mk ks inc (NwkSecurity.ciphers s))) as Hco.
    { intros inc. destruct Hc as [Hl Hc]. split; [done|]. intros i sq c Hic.
      unfold NetworkKeys.get. simpl. rewrite Hs. by apply (Hc i). }
    destruct ok; simpl; (split_and!; [done|done| |apply Hco]); [apply reset_all_wf|done].
  - split_and!; [|done|apply reset_all_wf|apply coherent_fresh].
    unfold NetworkKeys.wf, NetworkKeys.clear_keys. simpl. rewrite vec_clear_spec. simpl.
    split_and!; [constructor|lia|done].
  - unfold NwkSecurity.start_counter_reservation.
    destruct (OutgoingCounter.start_reservation _) eqn:E. simpl. apply with_outgoing_wf; [done|].
    by eapply start_reservation_wf.
  - apply with_outgoing_wf; [done|by apply commit_reservation_wf].
  - apply with_outgoing_wf; [done|by apply abort_reservation_wf].
  - apply with_outgoing_wf; [done|by apply restore_wf].
  - by apply secure_outgoing_wf.
  - pose proof (unsecure_spec s buf header_len level all_fresh Hwf Hok) as Hs.
    destruct (NwkSecurity.unsecure_incoming _ _ _ _ _) as [[r b] s']. by destruct Hs.
Qed.

Lemma new_wf : NwkSecurity.wf (NwkSecurity.new : NwkSecurity.t C K).
Proof.
  split_and!; [|apply restore_wf; done| |apply coherent_fresh].
  - split_and!; simpl; [constructor|lia|done].
  - split_and!; simpl; [constructor|lia|constructor].
Qed.

Lemma run_wf (ops : list SecurityOp.t) :
  Forall SecurityOp.ok ops → NwkSecurity.wf (foldl SecurityOp.exec (NwkSecurity.new : NwkSecurity.t C K) ops).
Proof.
  intros Hops. generalize new_wf. generalize (NwkSecurity.new (C:=C) (K:=K)).
  induction Hops as [|o ops Ho Hops IH]; intros s Hs; simpl; [done|]. by apply IH, exec_wf.
Qed.
End security_spec.

(** C30. The cipher cache never serves a stale key: after any sequence of key
    installations, switches, clears, counter operations and secured or received
    frames, the cipher used for a key sequence number is the one of the key
    currently installed under it, and there is none for a number that is not. *)
Theorem cipher_cache_coherent {C} {K : nat} `{!BlockCipher C} {CT : ConstantTimeEq} {H : Heapless}
    (ops : list SecurityOp.t) (seq : Z) :
  Forall SecurityOp.ok ops →
  let s : NwkSecurity.t C K := foldl SecurityOp.exec NwkSecurity.new ops in
  NwkSecurity.wf s ∧
  (NwkSecurity.cipher_for s seq).1 =
    (λ k, cipher_new (NetworkKeySlot.key k)) <$> NetworkKeys.get (NwkSecurity.keys s) seq.
Proof.
  intros Hops s. assert (NwkSecurity.wf s) as Hwf by by apply run_wf.
  split; [done|]. pose proof (cipher_for_spec s seq (proj2 (proj2 (proj2 Hwf)))) as Hc.
  destruct (NwkSecurity.cipher_for s seq). by destruct Hc as [-> _].
Qed.

Lemma cipher_cache_coherent_witness :
  let s : NwkSecurity.t Z 4 := foldl SecurityOp.exec NwkSecurity.new
    [SecurityOp.InstallActive 0 [5]; SecurityOp.Start; SecurityOp.Commit 1024;
     SecurityOp.Secure (replicate 40 0) 8 3 SecurityLevel.EncMic32 9; SecurityOp.Install 0 [6]] in
  (NwkSecurity.cipher_for s 0).1 = Some 6 ∧
  (NwkSecurity.cipher_for s 0).1 =
    (λ k, cipher_new (NetworkKeySlot.key k)) <$> NetworkKeys.get (NwkSecurity.keys s) 0.
Proof.
  split; [vm_compute; reflexivity|].
  apply (cipher_cache_coherent (C:=Z) (K:=4)
    [SecurityOp.InstallActive 0 [5]; SecurityOp.Start; SecurityOp.Commit 1024;
     SecurityOp.Secure (replicate 40 0) 8 3 SecurityLevel.EncMic32 9; SecurityOp.Install 0 [6]] 0).
  repeat constructor; vm_compute; congruence.
Defined.

(** A received NWK frame that is refused, for whatever reason, leaves keys and
    replay counters as they were.  An accepted one carried a counter that was fresh
    for its sender, and the payload handed out is the one that, protected at the
    level in force under the key installed for its sequence number, gives the
    received octets (up to the untrusted control bits); under [all_fresh] it is
    recorded so that it cannot be accepted again. *)
Lemma unsecure_sound {C} {K : nat} `{!BlockCipher C} {CT : ConstantTimeEq} {H : Heapless}
    (s : NwkSecurity.t C K) (buf : list Z) (hl : nat) (level : SecurityLevel.t) (af : bool) :
  NwkSecurity.wf s → bytes_ok buf →
  let '(r, buf', s') := NwkSecurity.unsecure_incoming s buf hl level af in
  NwkSecurity.keys s' = NwkSecurity.keys s ∧
  match r with
  | Err _ => NwkSecurity.incoming s' = NwkSecurity.incoming s
  | Ok u =>
      IncomingCounters.is_fresh (NwkSecurity.incoming s) (Unsecured.sender u) (Unsecured.frame_counter u) = true ∧
      (af = true →
       IncomingCounters.is_fresh (NwkSecurity.incoming s') (Unsecured.sender u) (Unsecured.frame_counter u) = false) ∧
      ∃ k aux payload, peek_aux buf hl = Ok aux ∧
        AuxHeader.source aux = Some (Unsecured.sender u) ∧
        AuxHeader.key_sequence aux = Some (Unsecured.key_sequence u) ∧
        AuxHeader.frame_counter aux = Unsecured.frame_counter u ∧
        NetworkKeys.get (NwkSecurity.keys s) (Unsecured.key_sequence u) = Some k ∧
        get_range buf' (Unsecured.payload_start u) (Unsecured.payload_end u) = Some payload ∧
        protects_to (cipher_new (NetworkKeySlot.key k)) (received_aux level aux) (Unsecured.sender u) hl payload buf
  end.
Proof.
  intros Hwf Hok. pose proof (unsecure_spec s buf hl level af Hwf Hok) as Hs.
  destruct (NwkSecurity.unsecure_incoming s buf hl level af) as [[[u|e] buf'] s']; [|by destruct Hs as (_ & -> & ->)].
  destruct Hs as (Hwf' & Hk & aux & cipher & v & Hpk & Hsrc & Hseq & Hfc & Hc & Hu & Hps & Hpe & Hcu).
  split; [done|].
  assert (uint 32 (Unsecured.frame_counter u)) as Hu32 by (rewrite <- Hfc; by eapply peek_aux_counter).
  pose proof (check_and_update_spec (NwkSecurity.incoming s) (Unsecured.sender u)
    (Unsecured.frame_counter u) af (proj1 (proj2 (proj2 Hwf))) Hu32) as Hspec.
  rewrite Hcu in Hspec. destruct Hspec as (Hfresh & _ & _ & Hnext).
  split_and!; [done| |].
  - intros ->. destruct Hnext as [Hnext|(_ & [=] & _)].
    unfold IncomingCounters.is_fresh. unfold IncomingCounters.get in Hnext.
    destruct (List.find _ _) as [e|]; simpl in Hnext; [|done]. injection Hnext as ->.
    rewrite (proj2 (Z.leb_gt _ _)), andb_false_r by lia. done.
  - unfold key_cipher in Hc. destruct (NetworkKeys.get _ _) as [k|] eqn:Hg; [|done].
    simpl in Hc. injection Hc as <-.
    destruct (unprotect_protects _ _ _ _ _ _ _ _ Hok Hu Hpk) as (payload & Hr & Hp). rewrite Hps, Hpe in Hr.
    exists k, aux, payload. by split_and!.
Qed.

Section end_to_end.
Context {C : Type} {K : nat} `{!BlockCipher C} {CT : ConstantTimeEq} {H : Heapless}.
Implicit Types s : NwkSecurity.t C K.

(** A fresh counter of a sender that is tracked, or can be, is accepted. *)
Lemma check_and_update_fresh (inc : IncomingCounters.t K) (x v : Z) :
  IncomingCounters.wf inc → uint 32 v → IncomingCounters.is_fresh inc x v = true →
  is_Some (IncomingCounters.get inc x) ∨ (IncomingCounters.len inc < K)%nat →
  ∃ inc', IncomingCounters.check_and_update x v true inc = (Ok tt, inc') ∧
    IncomingCounters.is_fresh inc' x v = false.
Proof.
  intros Hwf Hv Hf Hroom. pose proof (check_and_update_spec inc x v true Hwf Hv) as Hs.
  destruct (IncomingCounters.check_and_update x v true inc) as [[[]|[]] inc'].
  - exists inc'. split; [done|]. destruct Hs as (_ & _ & _ & [Hn|(_ & [=] & _)]).
    unfold IncomingCounters.is_fresh. unfold IncomingCounters.get in Hn.
    destruct (List.find _ _) as [e|]; simpl in Hn; [|done]. injection Hn as ->.
    rewrite (proj2 (Z.leb_gt _ _)), andb_false_r by lia. done.
  - destruct Hs as [_ (n & Hn & Hlt)]. unfold IncomingCounters.is_fresh in Hf.
    unfold IncomingCounters.get in Hn. destruct (List.find _ _) as [e|]; [|done].
    simpl in Hn. injection Hn as <-. lia.
  - destruct Hs as (_ & _ & Hn & Hl). rewrite Hn in Hroom. destruct Hroom as [[? [=]]|]. lia.
  - destruct Hs as [_ ->]. unfold IncomingCounters.is_fresh in Hf. by rewrite Z.eqb_refl in Hf.
Qed.

(** A frame whose counter is not fresh is refused before any cryptography. *)
Lemma unsecure_replay s buf hl level af aux seq src :
  peek_aux buf hl = Ok aux → AuxHeader.key_sequence aux = Some seq → AuxHeader.source aux = Some src →
  IncomingCounters.is_fresh (NwkSecurity.incoming s) src (AuxHeader.frame_counter aux) = false →
  NwkSecurity.unsecure_incoming s buf hl level af = (Err BadFrameCounter, buf, s).
Proof.
  intros Hpk Hseq Hsrc Hf. unfold NwkSecurity.unsecure_incoming. rewrite Hpk, Hseq, Hsrc, Hf.
  by destruct (_ =? _).
Qed.
End end_to_end.

(** Two nodes that share a network key understand each other, once: what the
    sender secures with its active key and next counter value, the receiver
    accepts, attributes to the sender, and recovers exactly; offered a second time
    the same frame is refused.  The sender's header and the octets behind the
    frame are untouched. *)
Lemma secure_unsecure_spec {C} {K K' : nat} `{!BlockCipher C} {CT : ConstantTimeEq} {H : Heapless}
    (tx : NwkSecurity.t C K) (rx : NwkSecurity.t C K') (seq ieee fc : Z) (kt kr : NetworkKeySlot.t)
    (o : OutgoingCounter.t) (level : SecurityLevel.t) (hdr slot P mic rest : list Z) :
  NwkSecurity.wf tx → NwkSecurity.wf rx → uint 8 seq → uint 64 ieee →
  NwkSecurity.active_sequence tx = Some seq →
  NetworkKeys.get (NwkSecurity.keys tx) seq = Some kt →
  NetworkKeys.get (NwkSecurity.keys rx) seq = Some kr →
  NetworkKeySlot.key kt = NetworkKeySlot.key kr →
  OutgoingCounter.allocate (NetworkKeys.outgoing (NwkSecurity.keys tx)) = (Ok fc, o) →
  IncomingCounters.is_fresh (NwkSecurity.incoming rx) ieee fc = true →
  is_Some (IncomingCounters.get (NwkSecurity.incoming rx) ieee)
    ∨ (IncomingCounters.len (NwkSecurity.incoming rx) < K')%nat →
  length slot = NwkSecurity.aux_header_len → length mic = SecurityLevel.mic_len level →
  ccm_fits (AuxHeader.network level fc ieee seq) hdr P →
  let ps := (length hdr + NwkSecurity.aux_header_len)%nat in
  ∃ frame tx' rx' out,
    NwkSecurity.secure_outgoing tx (hdr ++ slot ++ P ++ mic ++ rest) (length hdr) (length P) level ieee
      = (Ok (length frame), frame ++ rest, tx') ∧
    take (length hdr) frame = hdr ∧
    NwkSecurity.unsecure_incoming rx frame (length hdr) level true
      = (Ok (Unsecured.mk ieee seq fc ps (ps + length P)), out, rx') ∧
    take (length P) (drop ps out) = P ∧
    NwkSecurity.unsecure_incoming rx' frame (length hdr) level true = (Err BadFrameCounter, frame, rx').
Proof.
  intros Htx Hrx Hsq Hie Hact Hkt Hkr Hkey Hall Hfr Hroom Hslot Hmic Hfit ps.
  assert (uint 32 fc ∧ fc ≠ u32_max ∧ OutgoingCounter.wf o) as (Hfc & Hmax & Ho).
  { destruct Htx as (_ & Hw & _). pose proof (allocate_wf _ _ _ Hw Hall) as Ho.
    destruct Hw as (Hn & _). unfold OutgoingCounter.allocate in Hall.
    destruct (Z.eqb_spec (OutgoingCounter.next (NetworkKeys.outgoing (NwkSecurity.keys tx))) u32_max); [done|].
    case_match; simplify_eq. done. }
  set (aux := AuxHeader.network level fc ieee seq) in *.
  set (cipher := cipher_new (NetworkKeySlot.key kr)).
  destruct (protect_unprotect cipher aux ieee hdr slot P mic rest (network_wf level fc ieee seq Hfc Hie Hsq)
    Hslot Hmic Hfit) as (total & frame & M' & Hp & -> & Hhdr & Hpk & Hu).
  assert (key_cipher (NwkSecurity.with_outgoing tx o) seq = Some cipher ∧ key_cipher rx seq = Some cipher)
    as [Hct Hcr].
  { unfold key_cipher, cipher. split; [|by rewrite Hkr].
    change (NetworkKeys.get (NwkSecurity.keys (NwkSecurity.with_outgoing tx o)) seq)
      with (NetworkKeys.get (NwkSecurity.keys tx) seq). by rewrite Hkt, <- Hkey. }
  destruct (NwkSecurity.cipher_for (NwkSecurity.with_outgoing tx o) seq) as [ct tx'] eqn:Ect.
  pose proof (cipher_for_wf _ _ _ _ (with_outgoing_wf _ _ Htx Ho) Ect) as (Ect' & _).
  destruct (NwkSecurity.cipher_for rx seq) as [cr rx1] eqn:Ecr.
  pose proof (cipher_for_wf _ _ _ _ Hrx Ecr) as (Ecr' & _ & _ & Hinc).
  destruct (check_and_update_fresh (NwkSecurity.incoming rx) ieee fc (proj1 (proj2 (proj2 Hrx))) Hfc Hfr Hroom)
    as (inc' & Hcu & Hstale).
  exists frame, tx', (NwkSecurity.mk (NwkSecurity.keys rx1) inc' (NwkSecurity.ciphers rx1)),
    (hdr ++ AuxHeader.wire aux ++ P ++ M').
  split_and!; [|done| | |by eapply (unsecure_replay _ frame _ level true (zero_level aux) seq ieee)].
  - unfold NwkSecurity.secure_outgoing. unfold NwkSecurity.active_sequence in Hact.
    rewrite Hact, Hall, Ect, Ect', Hct. fold aux. by rewrite Hp.
  - unfold NwkSecurity.unsecure_incoming. rewrite Hpk.
    cbn [zero_level with_control AuxHeader.key_sequence AuxHeader.source AuxHeader.frame_counter AuxHeader.network aux].
    rewrite (proj2 (Z.eqb_neq _ _) Hmax), Hfr. cbn [negb]. rewrite Ecr, Ecr', Hcr.
    change (SecurityControl.level (AuxHeader.control aux)) with level in Hu. rewrite Hu, Hinc, Hcu. done.
  - rewrite (app_assoc hdr), drop_app_length', take_app_length; [done|].
    rewrite length_app, <- aux_len. done.
Qed.
