(* ===== verification/NwkFrame.v ===== *)
(** * NWK frames (panweave-nwk/src/frame.rs)

    The frame control field, the source route subframe, the header and the frame
    with its payload, each with its wire format. *)

From S2P Require Import Prelude Codec Types.

Definition PROTOCOL_VERSION : Z := 0x02.
Definition MAX_SOURCE_ROUTE_RELAYS : nat := 12.

Module FrameType.
Inductive t : Type := Data | Command | Reserved | InterPan.
#[global] Instance eq_dec : EqDecision t.
Proof. solve_decision. Defined.

Definition from_bits (b : Z) : t :=
  match Z.land b 0x3 with
  | 0 => Data
  | 1 => Command
  | 2 => Reserved
  | _ => InterPan
  end.

Definition bits (t : t) : Z :=
  match t with Data => 0 | Command => 1 | Reserved => 2 | InterPan => 3 end.
End FrameType.

Module DiscoverRoute.
Inductive t : Type := Suppress | Enable | Reserved (v : Z).
#[global] Instance eq_dec : EqDecision t.
Proof. solve_decision. Defined.

Definition from_bits (b : Z) : t :=
  match Z.land b 0x3 with
  | 0 => Suppress
  | 1 => Enable
  | v => Reserved v
  end.

Definition bits (d : t) : Z :=
  match d with Suppress => 0 | Enable => 1 | Reserved v => Z.land v 0x3 end.
End DiscoverRoute.

(** The 16-bit field is its value. *)
Module FrameControl.
Definition MULTICAST : Z := 2 ^ 8.
Definition SECURITY : Z := 2 ^ 9.
Definition SOURCE_ROUTE : Z := 2 ^ 10.
Definition DST_IEEE : Z := 2 ^ 11.
Definition SRC_IEEE : Z := 2 ^ 12.
Definition END_DEVICE_INITIATOR : Z := 2 ^ 13.
Definition RESERVED : Z := 0xC000.

Definition new (ty : FrameType.t) : Z := Z.lor (FrameType.bits ty) (Z.shiftl PROTOCOL_VERSION 2).
Definition frame_type (c : Z) : FrameType.t := FrameType.from_bits c.
Definition protocol_version (c : Z) : Z := Z.land (Z.shiftr c 2) 0xF.
Definition discover_route (c : Z) : DiscoverRoute.t := DiscoverRoute.from_bits (Z.shiftr c 6).
Definition multicast : Z → bool := flag MULTICAST.
Definition security : Z → bool := flag SECURITY.
Definition source_route : Z → bool := flag SOURCE_ROUTE.
Definition dst_ieee : Z → bool := flag DST_IEEE.
Definition src_ieee : Z → bool := flag SRC_IEEE.
Definition end_device_initiator : Z → bool := flag END_DEVICE_INITIATOR.
Definition reserved_clear (c : Z) : bool := Z.land c RESERVED =? 0.
Definition with_discover_route (c : Z) (d : DiscoverRoute.t) : Z :=
  Z.lor (Z.land c (lnot_w 16 (Z.shiftl 0x3 6))) (Z.shiftl (DiscoverRoute.bits d) 6).
Definition with_security (c : Z) (v : bool) : Z := with_bit 16 c SECURITY v.
Definition with_end_device_initiator (c : Z) (v : bool) : Z := with_bit 16 c END_DEVICE_INITIATOR v.
End FrameControl.

(** The relay list is kept as the octets of the subframe. *)
Module SourceRoute.
Record t : Type := mk { relay_index : Z; raw_relays : list Z }.

Definition relay_count (s : t) : nat := length (raw_relays s) / 2.

Definition relay (s : t) (index : nat) : option Z :=
  let off := (index * 2)%nat in
  lo ← raw_relays s !! off;
  hi ← raw_relays s !! (off + 1)%nat;
  mret (from_le [lo; hi]).

Definition relays (s : t) : list Z := omap (relay s) (seq 0 (relay_count s)).
Definition next_relay (s : t) : option Z := relay s (Z.to_nat (relay_index s)).
Definition encoded_len (s : t) : nat := 2 + length (raw_relays s).
End SourceRoute.

Module NwkHeader.

Record t : Type := mk {
  frame_control : Z;
  dst : Z;
  src : Z;
  radius : Z;
  sequence : Z;
  dst_ieee : option Z;
  src_ieee : option Z;
  source_route : option SourceRoute.t
}.

Definition new (ty : FrameType.t) (dst src radius sequence : Z) : t :=
  mk (FrameControl.new ty) dst src radius sequence None None None.

Definition with_control (h : t) (c : Z) : t :=
  mk c (dst h) (src h) (radius h) (sequence h) (dst_ieee h) (src_ieee h) (source_route h).

Definition with_src_ieee (h : t) (a : Z) : t :=
  mk (with_bit 16 (frame_control h) FrameControl.SRC_IEEE true)
     (dst h) (src h) (radius h) (sequence h) (dst_ieee h) (Some a) (source_route h).

Definition with_dst_ieee (h : t) (a : Z) : t :=
  mk (with_bit 16 (frame_control h) FrameControl.DST_IEEE true)
     (dst h) (src h) (radius h) (sequence h) (Some a) (src_ieee h) (source_route h).

Definition with_source_route (h : t) (relay_index : Z) (relays : list Z) : t :=
  mk (with_bit 16 (frame_control h) FrameControl.SOURCE_ROUTE true)
     (dst h) (src h) (radius h) (sequence h) (dst_ieee h) (src_ieee h)
     (Some (SourceRoute.mk relay_index relays)).

Definition secured (h : t) (v : bool) : t :=
  with_control h (FrameControl.with_security (frame_control h) v).
Definition with_discover_route (h : t) (d : DiscoverRoute.t) : t :=
  with_control h (FrameControl.with_discover_route (frame_control h) d).
Definition with_end_device_initiator (h : t) (v : bool) : t :=
  with_control h (FrameControl.with_end_device_initiator (frame_control h) v).

Definition is_broadcast (h : t) : bool := ShortAddress.is_broadcast (dst h).

Definition encoded_len (h : t) : nat :=
  8 + from_option (λ _, 8%nat) 0%nat (dst_ieee h)
    + from_option (λ _, 8%nat) 0%nat (src_ieee h)
    + from_option SourceRoute.encoded_len 0%nat (source_route h).

(** The source route subframe. *)
Definition decode_source_route : SE Reader.t CodecError SourceRoute.t :=
  c ← Reader.u8;
  let count := Z.to_nat c in
  relay_index ← Reader.u8;
  if ((count <=? Z.to_nat relay_index) && negb (count =? 0))%nat
  then fail (InvalidField "relay index" relay_index)
  else relays ← Reader.bytes (count * 2); mret (SourceRoute.mk relay_index relays).

#[global] Instance Decode_t : Decode t :=
  frame_control ← Reader.u16_le;
  dst ← Reader.u16_le;
  src ← Reader.u16_le;
  radius ← Reader.u8;
  sequence ← Reader.u8;
  dst_ieee ← (if FrameControl.dst_ieee frame_control
              then a ← Reader.u64_le; mret (Some a) else mret None);
  src_ieee ← (if FrameControl.src_ieee frame_control
              then a ← Reader.u64_le; mret (Some a) else mret None);
  source_route ← (if FrameControl.source_route frame_control
                  then s ← decode_source_route; mret (Some s) else mret None);
  mret (mk frame_control dst src radius sequence dst_ieee src_ieee source_route).

Definition encode_source_route (sr : SourceRoute.t) : SE Writer.t CodecError unit :=
  (if (255 <? SourceRoute.relay_count sr)%nat then fail (Unrepresentable "relay count") else mret tt);;
  Writer.u8 (Z.of_nat (SourceRoute.relay_count sr));;
  Writer.u8 (SourceRoute.relay_index sr);;
  Writer.bytes (SourceRoute.raw_relays sr).

#[global] Instance Encode_t : Encode t := {
  encoded_len := encoded_len;
  encode h :=
    if negb (eqb (FrameControl.dst_ieee (frame_control h)) (is_some (dst_ieee h)))
       || negb (eqb (FrameControl.src_ieee (frame_control h)) (is_some (src_ieee h)))
       || negb (eqb (FrameControl.source_route (frame_control h)) (is_some (source_route h)))
    then fail (InvalidField "nwk frame control presence flags" (frame_control h))
    else
      Writer.u16_le (frame_control h);;
      Writer.u16_le (dst h);;
      Writer.u16_le (src h);;
      Writer.u8 (radius h);;
      Writer.u8 (sequence h);;
      match dst_ieee h with Some a => Writer.u64_le a | None => mret tt end;;
      match src_ieee h with Some a => Writer.u64_le a | None => mret tt end;;
      match source_route h with Some sr => encode_source_route sr | None => mret tt end;;
      mret tt
}.

Definition decode_prefix (bytes : list Z) : result (t * nat) CodecError :=
  match decode (Reader.new bytes) with
  | (Ok h, r) => Ok (h, Reader.position r)
  | (Err e, _) => Err e
  end.

(** The flags agree with the fields. *)
Definition consistent (h : t) : Prop :=
  FrameControl.dst_ieee (frame_control h) = is_some (dst_ieee h) ∧
  FrameControl.src_ieee (frame_control h) = is_some (src_ieee h) ∧
  FrameControl.source_route (frame_control h) = is_some (source_route h).

End NwkHeader.

Module NwkFrame.
Record t : Type := mk { header : NwkHeader.t; payload : list Z }.

#[global] Instance Decode_t : Decode t :=
  header ← @decode NwkHeader.t _;
  payload ← Reader.take_rest;
  mret (mk header payload).

#[global] Instance Encode_t : Encode t := {
  encoded_len f := (NwkHeader.encoded_len (header f) + length (payload f))%nat;
  encode f := encode (header f);; Writer.bytes (payload f)
}.
End NwkFrame.

(** ** Wire format *)

Definition sr_wf (s : SourceRoute.t) : Prop :=
  uint 8 (SourceRoute.relay_index s) ∧
  ∃ n, length (SourceRoute.raw_relays s) = (n * 2)%nat ∧ (n ≤ 255)%nat ∧
    (n = 0%nat ∨ SourceRoute.relay_index s < Z.of_nat n).

Definition sr_wire (s : SourceRoute.t) : list Z :=
  [Z.of_nat (SourceRoute.relay_count s)] ++ [SourceRoute.relay_index s] ++ SourceRoute.raw_relays s.

Definition nwk_header_wf (h : NwkHeader.t) : Prop :=
  NwkHeader.consistent h ∧
  uint 16 (NwkHeader.frame_control h) ∧ uint 16 (NwkHeader.dst h) ∧ uint 16 (NwkHeader.src h) ∧
  uint 8 (NwkHeader.radius h) ∧ uint 8 (NwkHeader.sequence h) ∧
  from_option (uint 64) True (NwkHeader.dst_ieee h) ∧
  from_option (uint 64) True (NwkHeader.src_ieee h) ∧
  from_option sr_wf True (NwkHeader.source_route h).

Definition nwk_header_wire (h : NwkHeader.t) : list Z :=
  to_le 2 (NwkHeader.frame_control h) ++ to_le 2 (NwkHeader.dst h) ++ to_le 2 (NwkHeader.src h) ++
  [NwkHeader.radius h] ++ [NwkHeader.sequence h] ++
  from_option (to_le 8) [] (NwkHeader.dst_ieee h) ++
  from_option (to_le 8) [] (NwkHeader.src_ieee h) ++
  from_option sr_wire [] (NwkHeader.source_route h).

Section header.
Implicit Types (h : NwkHeader.t) (s : SourceRoute.t).

Lemma sr_count s n : length (SourceRoute.raw_relays s) = (n * 2)%nat → SourceRoute.relay_count s = n.
Proof. unfold SourceRoute.relay_count. intros ->. by apply Nat.div_mul. Qed.

Lemma sr_writes s : sr_wf s → writes (NwkHeader.encode_source_route s) (sr_wire s).
Proof.
  intros (_ & n & Hl & Hn & _). unfold NwkHeader.encode_source_route, sr_wire.
  rewrite (sr_count s n Hl), (proj2 (Nat.ltb_ge _ _)) by lia.
  rewrite <- (app_nil_l (_ ++ _)). apply writes_bind; [apply writes_ret|].
  apply writes_bind; [apply writes_u8|]. apply writes_bind; [apply writes_u8|apply writes_bytes].
Qed.

Lemma sr_decodes s : sr_wf s → decodes NwkHeader.decode_source_route (sr_wire s) s.
Proof.
  destruct s as [i raw]. intros (Hi & n & Hl & Hn & Hrel). unfold sr_wire.
  rewrite (sr_count _ n Hl). cbn [SourceRoute.relay_index SourceRoute.raw_relays] in *.
  eapply decodes_bind; [apply decodes_u8|]. cbv zeta. rewrite Nat2Z.id.
  eapply decodes_bind; [apply decodes_u8|].
  assert (((n <=? Z.to_nat i) && negb (n =? 0))%nat = false) as ->.
  { unfold uint in Hi. destruct (Nat.leb_spec n (Z.to_nat i)), (Nat.eqb_spec n 0); simpl; try done. lia. }
  rewrite <- Hl. apply (decodes_map _ (SourceRoute.mk i)). apply decodes_bytes.
Qed.

Lemma sr_parsed r s r' :
  bytes_ok (Reader.buf r) → NwkHeader.decode_source_route r = (Ok s, r') → parsed r (sr_wire s) r' ∧ sr_wf s.
Proof.
  intros Hok Hd. unfold NwkHeader.decode_source_route in Hd.
  apply se_bind_inv in Hd as (c & r1 & Hc & Hd). cbv zeta in Hd.
  apply se_bind_inv in Hd as (i & r2 & Hi & Hd).
  destruct (_ && _) eqn:Eg; [done|].
  apply se_bind_inv in Hd as (raw & r3 & Hraw & [= <- <-]).
  apply u8_parsed in Hc as [Pc Hc]; [|done]. pose proof (parsed_bytes_ok _ _ _ Pc Hok) as [_ Hok1].
  apply u8_parsed in Hi as [Pi Hi]; [|done].
  apply bytes_parsed in Hraw as [Hl Praw]. unfold uint in Hc, Hi. change (2 ^ 8) with 256 in *.
  split.
  - unfold sr_wire. rewrite (sr_count (SourceRoute.mk i raw) (Z.to_nat c) Hl), Z2Nat.id by lia.
    exact (parsed_trans _ _ _ _ _ Pc (parsed_trans _ _ _ _ _ Pi Praw)).
  - split; [done|]. exists (Z.to_nat c). split_and!; [done|lia|]. simpl.
    destruct (Nat.leb_spec (Z.to_nat c) (Z.to_nat i)), (Nat.eqb_spec (Z.to_nat c) 0); simpl in Eg; try done; lia.
Qed.

Lemma nwk_header_writes h : nwk_header_wf h → writes (encode h) (nwk_header_wire h).
Proof.
  intros ((Hd & Hs & Hr) & _ & _ & _ & _ & _ & _ & _ & Hsr). simpl. rewrite Hd, Hs, Hr, !eqb_reflx. simpl.
  unfold nwk_header_wire. do 3 (apply writes_bind; [apply writes_u16|]).
  do 2 (apply writes_bind; [apply writes_u8|]).
  do 2 (apply writes_bind; [apply writes_opt; intros; apply writes_u64|]).
  apply writes_bind_last; [|apply writes_ret]. apply writes_opt. intros s E. apply sr_writes.
  by rewrite E in Hsr.
Qed.

Lemma nwk_header_decodes h : nwk_header_wf h → decodes decode (nwk_header_wire h) h.
Proof.
  destruct h as [fc dst src rad sq di si sr].
  intros ((Hd & Hs & Hr) & Hfc & Hdst & Hsrc & Hrad & Hsq & Hdi & Hsi & Hsr).
  unfold nwk_header_wire. cbn in Hd, Hs, Hr, Hfc, Hdst, Hsrc, Hrad, Hsq, Hdi, Hsi, Hsr |- *.
  unfold decode, NwkHeader.Decode_t.
  do 3 (eapply decodes_bind; [by apply decodes_u16|]).
  change (rad :: sq :: ?l) with ([rad] ++ [sq] ++ l).
  do 2 (eapply decodes_bind; [apply decodes_u8|]).
  eapply decodes_bind; [apply decodes_opt; [done|]; intros a ->; by apply decodes_u64|].
  eapply decodes_bind; [apply decodes_opt; [done|]; intros a ->; by apply decodes_u64|].
  rewrite <- (app_nil_r (from_option sr_wire [] sr)).
  eapply decodes_bind; [apply decodes_opt; [done|]; intros a ->; by apply sr_decodes|].
  apply decodes_ret.
Qed.

Lemma nwk_header_len h : nwk_header_wf h → NwkHeader.encoded_len h = length (nwk_header_wire h).
Proof.
  intros (_ & _ & _ & _ & _ & _ & _ & _ & Hsr). unfold NwkHeader.encoded_len, nwk_header_wire.
  rewrite !length_app, !length_to_le.
  by destruct (NwkHeader.dst_ieee h), (NwkHeader.src_ieee h), (NwkHeader.source_route h).
Qed.

#[export] Instance nwk_header_Codec : Codec NwkHeader.t := {
  wire_ok := nwk_header_wf;
  wire := nwk_header_wire;
  codec_writes := nwk_header_writes;
  codec_decodes := nwk_header_decodes;
  codec_len := nwk_header_len
}.

Lemma nwk_header_parsed r h r' :
  bytes_ok (Reader.buf r) → decode r = (Ok h, r') → parsed r (nwk_header_wire h) r' ∧ nwk_header_wf h.
Proof.
  intros Hok Hd. unfold decode, NwkHeader.Decode_t in Hd.
  apply se_bind_inv in Hd as (fc & r1 & H1 & Hd).
  apply se_bind_inv in Hd as (dst & r2 & H2 & Hd).
  apply se_bind_inv in Hd as (src & r3 & H3 & Hd).
  apply se_bind_inv in Hd as (rad & r4 & H4 & Hd).
  apply se_bind_inv in Hd as (sq & r5 & H5 & Hd).
  apply se_bind_inv in Hd as (di & r6 & H6 & Hd).
  apply se_bind_inv in Hd as (si & r7 & H7 & Hd).
  apply se_bind_inv in Hd as (sr & r8 & H8 & [= <- <-]).
  apply u16_parsed in H1 as [P1 W1]; [|done]. pose proof (parsed_bytes_ok _ _ _ P1 Hok) as [_ O1].
  apply u16_parsed in H2 as [P2 W2]; [|done]. pose proof (parsed_bytes_ok _ _ _ P2 O1) as [_ O2].
  apply u16_parsed in H3 as [P3 W3]; [|done]. pose proof (parsed_bytes_ok _ _ _ P3 O2) as [_ O3].
  apply u8_parsed in H4 as [P4 W4]; [|done]. pose proof (parsed_bytes_ok _ _ _ P4 O3) as [_ O4].
  apply u8_parsed in H5 as [P5 W5]; [|done]. pose proof (parsed_bytes_ok _ _ _ P5 O4) as [_ O5].
  apply (opt_parsed _ _ (to_le 8) (uint 64)) in H6 as (P6 & E6 & W6); [|intros; by apply u64_parsed].
  pose proof (parsed_bytes_ok _ _ _ P6 O5) as [_ O6].
  apply (opt_parsed _ _ (to_le 8) (uint 64)) in H7 as (P7 & E7 & W7); [|intros; by apply u64_parsed].
  pose proof (parsed_bytes_ok _ _ _ P7 O6) as [_ O7].
  apply (opt_parsed _ _ sr_wire sr_wf) in H8 as (P8 & E8 & W8); [|intros; by apply sr_parsed].
  split; [|by split_and!]. unfold nwk_header_wire. eauto 10 using parsed_trans.
Qed.
End header.

(** ** Building headers *)

Module HeaderOp.
Inductive t : Type :=
  | WithSrcIeee (a : Z)
  | WithDstIeee (a : Z)
  | WithSourceRoute (i : Z) (relays : list Z)
  | Secured (v : bool)
  | WithDiscoverRoute (d : DiscoverRoute.t)
  | WithEndDeviceInitiator (v : bool).

Definition apply (h : NwkHeader.t) (o : t) : NwkHeader.t :=
  match o with
  | WithSrcIeee a => NwkHeader.with_src_ieee h a
  | WithDstIeee a => NwkHeader.with_dst_ieee h a
  | WithSourceRoute i rs => NwkHeader.with_source_route h i rs
  | Secured v => NwkHeader.secured h v
  | WithDiscoverRoute d => NwkHeader.with_discover_route h d
  | WithEndDeviceInitiator v => NwkHeader.with_end_device_initiator h v
  end.
End HeaderOp.

Section builders.
Implicit Types (h : NwkHeader.t) (c : Z).

Lemma flag_with_bit c k j b :
  0 ≤ k < 16 → 0 ≤ j < 16 →
  flag (2 ^ j) (with_bit 16 c (2 ^ k) b) = if decide (j = k) then b else flag (2 ^ j) c.
Proof. intros. rewrite !flag_testbit by lia. by apply testbit_with_bit. Qed.

Lemma flag_with_discover_route c d j :
  8 ≤ j < 16 → flag (2 ^ j) (FrameControl.with_discover_route c d) = flag (2 ^ j) c.
Proof.
  intros Hj. rewrite !flag_testbit by lia. unfold FrameControl.with_discover_route.
  rewrite Z.lor_spec, Z.land_spec, Z.shiftl_spec by lia.
  assert (uint 2 (DiscoverRoute.bits d)) as Hd.
  { destruct d; simpl; [vm_compute; split; congruence..|].
    change 0x3 with (Z.ones 2). rewrite Z.land_ones by lia. by apply uint_wrap. }
  rewrite (uint_testbit 2 (DiscoverRoute.bits d)) by (done || lia). rewrite orb_false_r.
  assert (Z.testbit (lnot_w 16 (Z.shiftl 3 6)) j = true) as ->; [|by rewrite andb_true_r].
  unfold lnot_w. rewrite Z.lxor_spec, Z.ones_spec_low, Z.shiftl_spec by lia.
  rewrite (uint_testbit 2 3); [done|vm_compute; split; congruence|lia].
Qed.

Lemma apply_consistent h o : NwkHeader.consistent h → NwkHeader.consistent (HeaderOp.apply h o).
Proof.
  intros (Hd & Hs & Hr). unfold NwkHeader.consistent, FrameControl.dst_ieee, FrameControl.src_ieee,
    FrameControl.source_route in *.
  destruct o; unfold HeaderOp.apply, NwkHeader.with_src_ieee, NwkHeader.with_dst_ieee,
    NwkHeader.with_source_route, NwkHeader.secured, NwkHeader.with_discover_route,
    NwkHeader.with_end_device_initiator, NwkHeader.with_control;
    cbn [NwkHeader.frame_control NwkHeader.dst_ieee NwkHeader.src_ieee NwkHeader.source_route];
    unfold FrameControl.with_security, FrameControl.with_end_device_initiator,
      FrameControl.SRC_IEEE, FrameControl.DST_IEEE, FrameControl.SOURCE_ROUTE, FrameControl.SECURITY,
      FrameControl.END_DEVICE_INITIATOR in *;
    rewrite ?flag_with_discover_route, ?flag_with_bit by lia; done.
Qed.
End builders.

(** The NWK header survives the wire: a header whose presence flags agree
    with its optional fields is written in exactly [encoded_len] octets and read
    back, source route included, with the rest of the buffer untouched; one whose
    flags disagree is refused and nothing is written. *)
Theorem nwk_header_round_trip (h : NwkHeader.t) (out : list Z) :
  (nwk_header_wf h → (NwkHeader.encoded_len h ≤ length out)%nat →
     ∃ out', encode_to_slice h out = (Ok (NwkHeader.encoded_len h), out') ∧
       NwkHeader.decode_prefix out' = Ok (h, NwkHeader.encoded_len h) ∧
       drop (NwkHeader.encoded_len h) out' = drop (NwkHeader.encoded_len h) out) ∧
  (¬ NwkHeader.consistent h →
     encode_to_slice h out =
       (Err (InvalidField "nwk frame control presence flags" (NwkHeader.frame_control h)), out)).
Proof.
  split.
  - intros Hwf Hlen. pose proof (nwk_header_len h Hwf) as Hl. rewrite Hl in *.
    exists (nwk_header_wire h ++ drop (length (nwk_header_wire h)) out).
    split; [apply writes_to_slice; [by apply nwk_header_writes|done]|].
    split; [|by rewrite drop_app_length].
    pose proof (nwk_header_decodes h Hwf [] (drop (length (nwk_header_wire h)) out)) as Hd.
    unfold NwkHeader.decode_prefix, Reader.new. rewrite app_nil_l in Hd.
    change (length (A:=Z) []) with 0%nat in Hd. by rewrite Hd.
  - intros Hbad. unfold encode_to_slice. simpl.
    destruct (negb _ || _ || _) eqn:E; [done|]. destruct Hbad.
    apply orb_false_iff in E as [[E1%negb_false_iff E2%negb_false_iff]%orb_false_iff E3%negb_false_iff].
    apply eqb_prop in E1, E2, E3. done.
Qed.

Lemma nwk_header_round_trip_witness :
  let h := NwkHeader.with_source_route
    (NwkHeader.with_src_ieee (NwkHeader.new FrameType.Data 0x1234 0 30 7) 0x1122334455667788)
    1 [0x11; 0x22; 0x33; 0x44] in
  ∃ out', encode_to_slice h (replicate 24 0) = (Ok 22%nat, out') ∧
    NwkHeader.decode_prefix out' = Ok (h, 22%nat) ∧ drop 22 out' = [0; 0].
Proof.
  apply (proj1 (nwk_header_round_trip (NwkHeader.with_source_route
    (NwkHeader.with_src_ieee (NwkHeader.new FrameType.Data 0x1234 0 30 7) 0x1122334455667788)
    1 [0x11; 0x22; 0x33; 0x44]) (replicate 24 0))).
  - split_and!; vm_compute; try done. split; [done|]. exists 2%nat. split_and!; [done|lia|by right].
  - vm_compute. lia.
Defined.

(** The fixed fields, where the frame format puts them. *)
Lemma nwk_header_fields (b : list Z) (h : NwkHeader.t) (rest : list Z) :
  nwk_header_wf h → b = nwk_header_wire h ++ rest →
  NwkHeader.frame_control h = from_le (take 2 b) ∧ NwkHeader.dst h = from_le (take 2 (drop 2 b)) ∧
  NwkHeader.src h = from_le (take 2 (drop 4 b)) ∧ b !! 6%nat = Some (NwkHeader.radius h) ∧
  b !! 7%nat = Some (NwkHeader.sequence h).
Proof.
  intros (_ & Hf & Hd & Hs & _) ->. unfold nwk_header_wire.
  pose proof (from_to_le 2 _ Hf) as E1. pose proof (from_to_le 2 _ Hd) as E2. pose proof (from_to_le 2 _ Hs) as E3.
  cbn [to_le app take drop lookup list_lookup] in *. split_and!; by symmetry.
Qed.

(** C31. The NWK header decoder is canonical.  Whatever octets it accepts, the frame
    control, the addresses, the radius and the sequence number are the octets at
    their offsets, the presence flags agree with the optional fields, a relay list
    that is not empty contains the relay index, and [encode] writes the header back
    as exactly the octets consumed, whatever the buffer held: so a relay that
    re-encodes a header sends what it received.  (An empty relay list is accepted
    with any relay index, which is kept and written back.) *)
Theorem nwk_header_decode_canonical (b : list Z) (h : NwkHeader.t) (n : nat) :
  bytes_ok b → NwkHeader.decode_prefix b = Ok (h, n) →
  (n ≤ length b)%nat ∧ n = encoded_len h ∧
  (∀ out, (n ≤ length out)%nat → encode_to_slice h out = (Ok n, take n b ++ drop n out)) ∧
  NwkHeader.frame_control h = from_le (take 2 b) ∧ NwkHeader.dst h = from_le (take 2 (drop 2 b)) ∧
  NwkHeader.src h = from_le (take 2 (drop 4 b)) ∧ b !! 6%nat = Some (NwkHeader.radius h) ∧
  b !! 7%nat = Some (NwkHeader.sequence h) ∧ NwkHeader.consistent h ∧
  (∀ s, NwkHeader.source_route h = Some s →
     length (SourceRoute.raw_relays s) = (2 * SourceRoute.relay_count s)%nat ∧
     (SourceRoute.relay_count s = 0%nat ∨ SourceRoute.relay_index s < Z.of_nat (SourceRoute.relay_count s))).
Proof.
  intros Hb Hd. unfold NwkHeader.decode_prefix in Hd. destruct (decode (Reader.new b)) as [[h0|] r] eqn:Er; [|done].
  injection Hd as <- <-. pose proof Er as (Hp & Hwf)%nwk_header_parsed; [|done].
  apply parsed_new in Hp as (rest & Hbr & Hr). rewrite Hr. pose proof (nwk_header_len h0 Hwf) as Hl.
  assert (take (length (nwk_header_wire h0)) b = nwk_header_wire h0) as Ht by (by rewrite Hbr, take_app_length).
  split; [rewrite Hbr, length_app; lia|]. split; [done|]. split.
  { intros out Ho. rewrite Ht. by apply writes_to_slice; [apply nwk_header_writes|]. }
  destruct (nwk_header_fields b h0 rest Hwf Hbr) as (F1 & F2 & F3 & F4 & F5). do 5 (split; [done|]).
  destruct Hwf as (Hc & _ & _ & _ & _ & _ & _ & _ & Hsr). split; [done|]. intros s Es. rewrite Es in Hsr.
  destruct Hsr as (_ & k & Hk & _ & Hi). rewrite (sr_count s k Hk). split; [lia|exact Hi].
Qed.

Lemma nwk_header_decode_canonical_witness :
  let b := [8; 4; 0x34; 0x12; 0; 0; 30; 7; 2; 1; 0x11; 0x22; 0x33; 0x44; 99] in
  let h := NwkHeader.with_source_route (NwkHeader.new FrameType.Data 0x1234 0 30 7) 1 [0x11; 0x22; 0x33; 0x44] in
  NwkHeader.decode_prefix b = Ok (h, 14%nat) ∧
  encode_to_slice h (replicate 16 0) = (Ok 14%nat, take 14 b ++ [0; 0]).
Proof.
  cbv zeta. split; [vm_compute; reflexivity|].
  refine (proj1 (proj2 (proj2 (nwk_header_decode_canonical [8; 4; 0x34; 0x12; 0; 0; 30; 7; 2; 1; 0x11; 0x22; 0x33; 0x44; 99]
    _ 14 _ _))) (replicate 16 0) _).
  - repeat constructor; vm_compute; congruence.
  - vm_compute. reflexivity.
  - vm_compute. lia.
Defined.

(** Headers built with the header methods always encode: starting from
    [new], any sequence of the builder methods leaves the presence flags in
    agreement with the fields. *)
Theorem header_builders_consistent (ty : FrameType.t) (dst src radius seq : Z) (ops : list HeaderOp.t) :
  NwkHeader.consistent (foldl HeaderOp.apply (NwkHeader.new ty dst src radius seq) ops).
Proof.
  assert (NwkHeader.consistent (NwkHeader.new ty dst src radius seq)) as H0.
  { by destruct ty. }
  revert H0. generalize (NwkHeader.new ty dst src radius seq).
  induction ops as [|o ops IH]; intros h H0; simpl; [done|]. by apply IH, apply_consistent.
Qed.

(** A whole NWK frame round-trips: decoding the octets of an encoded frame
    gives back its header and, as payload, everything behind it. *)
Theorem nwk_frame_round_trip (f : NwkFrame.t) (out : list Z) :
  nwk_header_wf (NwkFrame.header f) → (encoded_len f ≤ length out)%nat →
  ∃ out', encode_to_slice f out = (Ok (encoded_len f), out') ∧
    decode_exact (take (encoded_len f) out') = Ok f.
Proof.
  destruct f as [h p]. cbn [encoded_len NwkFrame.Encode_t NwkFrame.header NwkFrame.payload].
  intros Hwf Hlen. pose proof (nwk_header_len h Hwf) as Hl. rewrite Hl in *.
  assert (writes (encode (NwkFrame.mk h p)) (nwk_header_wire h ++ p)) as Hw.
  { apply (writes_bind (encode h) (λ _, Writer.bytes p)); [by apply nwk_header_writes|apply writes_bytes]. }
  rewrite <- length_app in *.
  eexists. split; [by apply writes_to_slice|]. rewrite take_app_length.
  unfold decode_exact, decode, NwkFrame.Decode_t.
  pose proof (nwk_header_decodes h Hwf [] p) as Hd. rewrite app_nil_l in Hd.
  erewrite se_bind_ok; [|exact Hd]. rewrite Nat.add_0_l.
  unfold mbind, se_bind, Reader.take_rest, mret, se_ret, Reader.peek_rest, get_from.
  cbn [Reader.buf Reader.pos]. rewrite (proj2 (Nat.leb_le _ _)) by (rewrite length_app; lia).
  rewrite drop_app_length. unfold Reader.is_empty, Reader.remaining. simpl. by rewrite Nat.sub_diag.
Qed.

Lemma nwk_frame_round_trip_witness :
  let f := NwkFrame.mk (NwkHeader.new FrameType.Command 0xFFFC 0x10 1 3) [8; 9] in
  ∃ out', encode_to_slice f (replicate 10 0) = (Ok 10%nat, out') ∧ decode_exact (take 10 out') = Ok f.
Proof.
  apply (nwk_frame_round_trip (NwkFrame.mk (NwkHeader.new FrameType.Command 0xFFFC 0x10 1 3) [8; 9]) (replicate 10 0)).
  - split_and!; vm_compute; done.
  - vm_compute. lia.
Defined.
