(* ===== verification/Routing.v ===== *)
(** * Routing tables (panweave-nwk/src/routing.rs)

    The routing table with its eviction rule, the route discovery table and the
    source route table of a concentrator.  A method that returns a reference to
    the entry it stored returns its index. *)

From S2P Require Import Prelude Heapless Types NwkFrame.

Module RouteStatus.
Inductive t : Type := Active | DiscoveryUnderway | DiscoveryFailed | Inactive | ValidationUnderway.
#[global] Instance eq_dec : EqDecision t.
Proof. solve_decision. Defined.

Definition raw (s : t) : Z :=
  match s with
  | Active => 0 | DiscoveryUnderway => 1 | DiscoveryFailed => 2 | Inactive => 3 | ValidationUnderway => 4
  end.
End RouteStatus.

Module RouteEntry.
Record t : Type := mk {
  destination : Z;
  status : RouteStatus.t;
  no_route_cache : bool;
  many_to_one : bool;
  route_record_required : bool;
  expired : bool;
  next_hop : Z;
  sequence : Z;
  sequence_valid : bool;
  path_cost : Z;
  total_usage : Z;
  recent_activity : Z;
  many_to_one_deadline : option Z
}.

Definition new (destination next_hop : Z) (status : RouteStatus.t) (recent_activity : Z) : t :=
  mk destination status false false false false next_hop 0 false 0xFF 0 recent_activity None.

Definition with_activity (e : t) (usage activity : Z) : t :=
  mk (destination e) (status e) (no_route_cache e) (many_to_one e) (route_record_required e)
     (expired e) (next_hop e) (sequence e) (sequence_valid e) (path_cost e) usage activity
     (many_to_one_deadline e).

Definition with_status (e : t) (s : RouteStatus.t) : t :=
  mk (destination e) s (no_route_cache e) (many_to_one e) (route_record_required e)
     (expired e) (next_hop e) (sequence e) (sequence_valid e) (path_cost e) (total_usage e)
     (recent_activity e) (many_to_one_deadline e).

Definition with_expired (e : t) (v : bool) : t :=
  mk (destination e) (status e) (no_route_cache e) (many_to_one e) (route_record_required e)
     v (next_hop e) (sequence e) (sequence_valid e) (path_cost e) (total_usage e)
     (recent_activity e) (many_to_one_deadline e).

Definition touch (e : t) : t :=
  with_activity e (sat_add 32 (total_usage e) 1) (sat_add 8 (recent_activity e) 1).
End RouteEntry.

Module RoutingTable.

Record t (K : nat) : Type := mk { entries : list RouteEntry.t }.
Arguments mk {K} _.
Arguments entries {K} _.

Definition new K : t K := mk [].

Section table.
Context {H : Heapless} {K : nat}.

Definition towards (d : Z) (e : RouteEntry.t) : bool := RouteEntry.destination e =? d.

Definition len (s : t K) : nat := length (entries s).
Definition is_empty (s : t K) : bool := (len s =? 0)%nat.
Definition capacity (s : t K) : nat := K.

Definition get (s : t K) (d : Z) : option RouteEntry.t := List.find (towards d) (entries s).
Definition get_mut (s : t K) (d : Z) (f : RouteEntry.t → RouteEntry.t) : t K :=
  mk (update_first (towards d) f (entries s)).

(** The order of the key [(recent_activity, total_usage)]. *)
Definition less_valuable (a b : RouteEntry.t) : bool :=
  (RouteEntry.recent_activity a <? RouteEntry.recent_activity b) ||
  (RouteEntry.recent_activity a =? RouteEntry.recent_activity b) &&
  (RouteEntry.total_usage a <? RouteEntry.total_usage b).

Definition not_underway (e : RouteEntry.t) : bool :=
  negb (bool_decide (RouteEntry.status e = RouteStatus.DiscoveryUnderway)).

Definition evictable (s : t K) : option nat :=
  fst <$> min_by not_underway less_valuable 0 None (entries s).

Definition has_capacity_for (s : t K) (d : Z) : bool :=
  is_some (get s d) || negb (vec_is_full K (entries s)) || is_some (evictable s).

(** The index of the entry stored, if any, and the table. *)
Definition insert (s : t K) (e : RouteEntry.t) : option nat * t K :=
  match position (towards (RouteEntry.destination e)) (entries s) with
  | Some pos => (Some pos, mk (<[pos := e]> (entries s)))
  | None =>
      let freed :=
        if vec_is_full K (entries s) then
          match evictable s with
          | None => None
          | Some v =>
              match vec_swap_remove (entries s) v with
              | Some (_, es) => Some es
              | None => Some (entries s)
              end
          end
        else Some (entries s) in
      match freed with
      | None => (None, s)
      | Some es =>
          match vec_push K es e with
          | Err _ => (None, mk es)
          | Ok es => (Some (length es - 1)%nat, mk es)
          end
      end
  end.

Definition remove (s : t K) (d : Z) : option RouteEntry.t * t K :=
  match position (towards d) (entries s) with
  | None => (None, s)
  | Some pos =>
      match vec_swap_remove (entries s) pos with
      | Some (e, es) => (Some e, mk es)
      | None => (None, s)
      end
  end.

Definition via (n : Z) (e : RouteEntry.t) : bool :=
  (RouteEntry.next_hop e =? n) && bool_decide (RouteEntry.status e = RouteStatus.Active).

Definition invalidate_via (s : t K) (n : Z) : nat * t K :=
  (length (List.filter (via n) (entries s)),
   mk ((λ e, if via n e then RouteEntry.with_status e RouteStatus.Inactive else e) <$> entries s)).

Definition link_status_tick (s : t K) : t K :=
  mk ((λ e, RouteEntry.with_activity e (RouteEntry.total_usage e)
              (sat_sub (RouteEntry.recent_activity e) 1)) <$> entries s).

Definition expire_many_to_one (s : t K) (now : Z) : t K :=
  mk ((λ e, if RouteEntry.many_to_one e then
              match RouteEntry.many_to_one_deadline e with
              | Some d => if Instant.has_reached now d then RouteEntry.with_expired e true else e
              | None => e
              end
            else e) <$> entries s).

Definition clear (s : t K) : t K := mk (vec_clear (entries s)).

Definition wf (s : t K) : Prop :=
  NoDup (RouteEntry.destination <$> entries s) ∧ (length (entries s) ≤ K)%nat.

End table.
End RoutingTable.

Definition incoming_route_is_suitable (existing : option RouteEntry.t) (advertised_cost : Z) : bool :=
  match existing with
  | None => true
  | Some e =>
      if bool_decide (RouteEntry.status e = RouteStatus.Active)
      then advertised_cost <? RouteEntry.path_cost e
      else true
  end.

(** ** Route discovery *)

Module DiscoveryEntry.
Record t : Type := mk {
  request_id : Z;
  source : Z;
  sender : Z;
  forward_cost : Z;
  residual_cost : Z;
  expires : Z;
  destination : Z;
  local : bool;
  confirmed : bool
}.
Definition id (e : t) : Z * Z := (source e, request_id e).
End DiscoveryEntry.

Module RouteDiscoveryTable.
Record t (K : nat) : Type := mk { entries : list DiscoveryEntry.t }.
Arguments mk {K} _.
Arguments entries {K} _.

Definition new K : t K := mk [].

Section table.
Context {H : Heapless} {K : nat}.

Definition same (p : Z * Z) (e : DiscoveryEntry.t) : bool :=
  (DiscoveryEntry.source e =? p.1) && (DiscoveryEntry.request_id e =? p.2).

Definition get (s : t K) (source request_id : Z) : option DiscoveryEntry.t :=
  List.find (same (source, request_id)) (entries s).
Definition get_mut (s : t K) (source request_id : Z) (f : DiscoveryEntry.t → DiscoveryEntry.t) : t K :=
  mk (update_first (same (source, request_id)) f (entries s)).

Definition insert (s : t K) (e : DiscoveryEntry.t) (now : Z) : option nat * t K :=
  match position (same (DiscoveryEntry.source e, DiscoveryEntry.request_id e)) (entries s) with
  | Some pos => (Some pos, mk (<[pos := e]> (entries s)))
  | None =>
      let freed :=
        if vec_is_full K (entries s) then
          match position (λ e, Instant.has_reached now (DiscoveryEntry.expires e)) (entries s) with
          | None => None
          | Some pos =>
              match vec_swap_remove (entries s) pos with
              | Some (_, es) => Some es
              | None => Some (entries s)
              end
          end
        else Some (entries s) in
      match freed with
      | None => (None, s)
      | Some es =>
          match vec_push K es e with
          | Err _ => (None, mk es)
          | Ok es => (Some (length es - 1)%nat, mk es)
          end
      end
  end.

(** The expired entries, appended to [out] (of capacity [M]) while they fit. *)
Definition expire (M : nat) (s : t K) (now : Z) (out : list DiscoveryEntry.t)
    : list DiscoveryEntry.t * t K :=
  let gone e := Instant.has_reached now (DiscoveryEntry.expires e) in
  (foldl (λ o e, if gone e then match vec_push M o e with Ok o => o | Err _ => o end else o)
     out (entries s),
   mk (vec_retain (entries s) (λ e, negb (gone e)))).

Definition remove (s : t K) (source request_id : Z) : option DiscoveryEntry.t * t K :=
  match position (same (source, request_id)) (entries s) with
  | None => (None, s)
  | Some pos =>
      match vec_swap_remove (entries s) pos with
      | Some (e, es) => (Some e, mk es)
      | None => (None, s)
      end
  end.

Definition any_pending_for (s : t K) (d : Z) : bool :=
  existsb (λ e, DiscoveryEntry.destination e =? d) (entries s).

(** [iter().map(..).min()] *)
Definition next_expiry (s : t K) : option Z :=
  foldl (λ m e, Some (match m with
                      | None => DiscoveryEntry.expires e
                      | Some x => Z.min x (DiscoveryEntry.expires e)
                      end)) None (entries s).

Definition clear (s : t K) : t K := mk (vec_clear (entries s)).
Definition len (s : t K) : nat := length (entries s).
Definition is_empty (s : t K) : bool := (len s =? 0)%nat.

Definition wf (s : t K) : Prop :=
  NoDup (DiscoveryEntry.id <$> entries s) ∧ (length (entries s) ≤ K)%nat.
End table.
End RouteDiscoveryTable.

(** ** Source routes *)

Module SourceRouteEntry.
Record t : Type := mk { destination : Z; relays : list Z }.
End SourceRouteEntry.

Module SourceRouteTable.
Record t (K : nat) : Type := mk { entries : list SourceRouteEntry.t }.
Arguments mk {K} _.
Arguments entries {K} _.

Definition new K : t K := mk [].

Section table.
Context {H : Heapless} {K : nat}.

Definition towards (d : Z) (e : SourceRouteEntry.t) : bool := SourceRouteEntry.destination e =? d.

Definition get (s : t K) (d : Z) : option SourceRouteEntry.t := List.find (towards d) (entries s).

(** Collecting the relays into a vector of [MAX_SOURCE_ROUTE_RELAYS]. *)
Fixpoint collect (acc rs : list Z) : option (list Z) :=
  match rs with
  | [] => Some acc
  | r :: rs =>
      match vec_push MAX_SOURCE_ROUTE_RELAYS acc r with
      | Ok acc => collect acc rs
      | Err _ => None
      end
  end.

Definition store_from_record (s : t K) (d : Z) (record : list Z) : bool * t K :=
  match collect [] record with
  | None => (false, s)
  | Some relays =>
      let e := SourceRouteEntry.mk d relays in
      match position (towards d) (entries s) with
      | Some pos => (true, mk (<[pos := e]> (entries s)))
      | None =>
          let es :=
            if vec_is_full K (entries s) then
              match vec_remove (entries s) 0 with
              | Some (_, es) => es
              | None => entries s
              end
            else entries s in
          match vec_push K es e with
          | Ok es => (true, mk es)
          | Err _ => (false, mk es)
          end
      end
  end.

Definition remove (s : t K) (d : Z) : bool * t K :=
  let es := vec_retain (entries s) (λ e, negb (towards d e)) in
  (negb (length (entries s) =? length es)%nat, mk es).

Definition clear (s : t K) : t K := mk (vec_clear (entries s)).
Definition len (s : t K) : nat := length (entries s).
Definition is_empty (s : t K) : bool := (len s =? 0)%nat.

Definition wf (s : t K) : Prop :=
  NoDup (SourceRouteEntry.destination <$> entries s) ∧ (length (entries s) ≤ K)%nat ∧
  Forall (λ e, (length (SourceRouteEntry.relays e) ≤ MAX_SOURCE_ROUTE_RELAYS)%nat) (entries s).
End table.
End SourceRouteTable.

#[global] Instance route_towards_test : KeyTest RouteEntry.destination RoutingTable.towards.
Proof. intros p e. apply Z.eqb_eq. Qed.
#[global] Instance discovery_same_test : KeyTest DiscoveryEntry.id RouteDiscoveryTable.same.
Proof.
  intros [a b] e. unfold RouteDiscoveryTable.same, DiscoveryEntry.id. simpl.
  rewrite andb_true_iff, !Z.eqb_eq. split; [by intros [-> ->]|by intros [= -> ->]].
Qed.
#[global] Instance source_route_towards_test : KeyTest SourceRouteEntry.destination SourceRouteTable.towards.
Proof. intros p e. apply Z.eqb_eq. Qed.

Section routing.
Context {H : Heapless} {K : nat}.
Implicit Types s : RoutingTable.t K.

Lemma evictable_spec s :
  match RoutingTable.evictable s with
  | None => ∀ e, e ∈ RoutingTable.entries s → RouteEntry.status e = RouteStatus.DiscoveryUnderway
  | Some i => ∃ v, RoutingTable.entries s !! i = Some v ∧
      RouteEntry.status v ≠ RouteStatus.DiscoveryUnderway ∧
      ∀ e, e ∈ RoutingTable.entries s → RouteEntry.status e ≠ RouteStatus.DiscoveryUnderway →
        RoutingTable.less_valuable e v = false
  end.
Proof.
  unfold RoutingTable.evictable.
  assert (is_min RoutingTable.not_underway RoutingTable.less_valuable (RoutingTable.entries s)
    (min_by RoutingTable.not_underway RoutingTable.less_valuable 0 None (RoutingTable.entries s))) as Hm.
  { apply (min_by_spec RoutingTable.not_underway RoutingTable.less_valuable) with (seen := []).
    - unfold RoutingTable.less_valuable. intros. lia.
    - unfold RoutingTable.less_valuable. intros. lia.
    - by intros x ?%not_elem_of_nil. }
  assert (∀ e, RoutingTable.not_underway e = true ↔ RouteEntry.status e ≠ RouteStatus.DiscoveryUnderway) as Hk.
  { intros e. unfold RoutingTable.not_underway. rewrite negb_true_iff. apply bool_decide_eq_false. }
  destruct (min_by _ _ _ _ _) as [[i v]|]; simpl in *.
  - destruct Hm as (Hi & Hv & Hmin). exists v. split_and!; [done|by apply Hk|].
    intros e He Hs. apply Hmin; [done|by apply Hk].
  - intros e He. specialize (Hm e He). unfold RoutingTable.not_underway in Hm.
    apply negb_false_iff, bool_decide_eq_true in Hm. done.
Qed.

(** What an insertion may forget: nothing, or one evictable route. *)
Definition spares s (e : RouteEntry.t) (gone : option RouteEntry.t) : Prop :=
  match gone with
  | None => True
  | Some v =>
      RoutingTable.get s (RouteEntry.destination e) = None ∧ length (RoutingTable.entries s) = K ∧
      v ∈ RoutingTable.entries s ∧ RouteEntry.status v ≠ RouteStatus.DiscoveryUnderway ∧
      ∀ e', e' ∈ RoutingTable.entries s → RouteEntry.status e' ≠ RouteStatus.DiscoveryUnderway →
        RoutingTable.less_valuable e' v = false
  end.

Lemma insert_route_spec s e :
  RoutingTable.wf s →
  match RoutingTable.insert s e with
  | (Some i, s') => RoutingTable.wf s' ∧ RoutingTable.entries s' !! i = Some e ∧
      ∃ gone, spares s e gone ∧
        ∀ d, RoutingTable.get s' d =
          if decide (d = RouteEntry.destination e) then Some e
          else if decide (Some d = RouteEntry.destination <$> gone) then None
          else RoutingTable.get s d
  | (None, s') => s' = s ∧ RoutingTable.get s (RouteEntry.destination e) = None ∧
      length (RoutingTable.entries s) = K ∧
      ∀ e', e' ∈ RoutingTable.entries s → RouteEntry.status e' = RouteStatus.DiscoveryUnderway
  end.
Proof.
  destruct s as [l]. intros [Hnd Hl]. unfold RoutingTable.insert, RoutingTable.wf, RoutingTable.get in *.
  cbn [RoutingTable.entries] in *. set (p := RouteEntry.destination e).
  destruct (position (RoutingTable.towards p) l) as [i|] eqn:Ep.
  - destruct (position_key_insert RouteEntry.destination l i e p Hnd Ep eq_refl) as (Hi & Hnd' & Hf).
    cbn [RoutingTable.entries]. split_and!; [done|by rewrite length_insert|by apply list_lookup_insert_eq|].
    exists None. split; [done|]. intros d. rewrite Hf. repeat case_decide; done.
  - assert (p ∉ RouteEntry.destination <$> l) as Hp.
    { apply (find_key_None RouteEntry.destination (has:=RoutingTable.towards)), find_None.
      by apply position_None. }
    assert (List.find (RoutingTable.towards p) l = None) as Hnone by by apply (find_key_None RouteEntry.destination).
    rewrite vec_is_full_spec. destruct (Nat.eqb_spec (length l) K) as [Ef|Ef].
    + pose proof (evictable_spec (RoutingTable.mk l)) as He. cbn [RoutingTable.entries] in He.
      destruct (RoutingTable.evictable (RoutingTable.mk l)) as [v|]; [|by split_and!].
      destruct He as (x & Hv & Hs & Hmin).
      destruct (replace_victim RouteEntry.destination K l e v x Hnd Ef Hp Hv)
        as (l' & -> & -> & Hnd' & Hl' & Hfe & Hfx & Hfo). cbn [RoutingTable.entries].
      split_and!; [done|lia| |].
      * rewrite length_app. simpl. rewrite Nat.add_sub. apply list_lookup_middle. done.
      * exists (Some x). split.
        { unfold spares, RoutingTable.get. cbn [RoutingTable.entries].
          split_and!; try done. by eapply list_elem_of_lookup_2. }
        intros d. simpl. case_decide as Hd; [by subst|]. case_decide as Hd2.
        -- by injection Hd2 as ->.
        -- apply Hfo; [done|congruence].
    + destruct (push_new_key RouteEntry.destination K l e Hnd ltac:(lia) Hp) as (-> & Hnd' & Hfe & Hfo).
      cbn [RoutingTable.entries].
      split_and!; [done|rewrite length_app; simpl; lia| |].
      * rewrite length_app. simpl. rewrite Nat.add_sub. by apply list_lookup_middle.
      * exists None. split; [done|]. intros d. simpl. case_decide; [by subst|]. by apply Hfo.
Qed.
End routing.

(** Storing a route, on every branch.  The new route is found under its
    destination and every other route is kept, except that a full table gives up
    at most one: never one whose discovery is underway, and among the others the
    least valuable (least recently active, then least used).  The insertion is
    refused, changing nothing, only when the destination is new, the table full
    and every entry under discovery, which is exactly when [has_capacity_for]
    says there is no capacity. *)
Theorem route_insert_evicts_least {H : Heapless} {K : nat} (s : RoutingTable.t K) (e : RouteEntry.t) :
  RoutingTable.wf s →
  is_some (RoutingTable.insert s e).1 = RoutingTable.has_capacity_for s (RouteEntry.destination e) ∧
  match RoutingTable.insert s e with
  | (Some i, s') => RoutingTable.wf s' ∧ RoutingTable.entries s' !! i = Some e ∧
      ∃ gone, spares s e gone ∧
        ∀ d, RoutingTable.get s' d =
          if decide (d = RouteEntry.destination e) then Some e
          else if decide (Some d = RouteEntry.destination <$> gone) then None
          else RoutingTable.get s d
  | (None, s') => s' = s ∧ RoutingTable.get s (RouteEntry.destination e) = None ∧
      length (RoutingTable.entries s) = K ∧
      ∀ e', e' ∈ RoutingTable.entries s → RouteEntry.status e' = RouteStatus.DiscoveryUnderway
  end.
Proof.
  intros Hwf. split; [|by apply insert_route_spec].
  destruct s as [l]. destruct Hwf as [Hnd Hl].
  unfold RoutingTable.insert, RoutingTable.has_capacity_for, RoutingTable.get.
  cbn [RoutingTable.entries] in *. set (p := RouteEntry.destination e).
  assert (is_some (List.find (RoutingTable.towards p) l) = is_some (position (RoutingTable.towards p) l)) as ->.
  { clear. induction l as [|x l IH]; simpl; [done|]. destruct (RoutingTable.towards p x); [done|].
    rewrite IH. by destruct (position _ l). }
  destruct (position (RoutingTable.towards p) l) as [i|]; [done|]. rewrite vec_is_full_spec. simpl.
  destruct (Nat.eqb_spec (length l) K) as [Ef|Ef]; simpl.
  - pose proof (evictable_spec (RoutingTable.mk (K:=K) l)) as He. cbn [RoutingTable.entries] in He.
    destruct (RoutingTable.evictable _) as [v|]; [|done]. destruct He as (x & Hv & _).
    destruct (swap_remove_Permutation l v x Hv) as (l' & -> & Hp).
    apply Permutation_length in Hp. simpl in Hp. by rewrite vec_push_room by lia.
  - by rewrite vec_push_room by lia.
Qed.

Lemma route_insert_evicts_least_witness :
  let r d act use := RouteEntry.with_activity (RouteEntry.new d 9 RouteStatus.Active 0) use act in
  let s : RoutingTable.t 2 := RoutingTable.mk [r 1 3 0; r 2 1 7] in
  RoutingTable.get (RoutingTable.insert s (r 5 0 0)).2 2 = None ∧
  is_some (RoutingTable.insert s (r 5 0 0)).1 = RoutingTable.has_capacity_for s 5.
Proof.
  split; [vm_compute; reflexivity|].
  apply (route_insert_evicts_least (K:=2)
    (RoutingTable.mk [RouteEntry.with_activity (RouteEntry.new 1 9 RouteStatus.Active 0) 0 3;
                      RouteEntry.with_activity (RouteEntry.new 2 9 RouteStatus.Active 0) 7 1])
    (RouteEntry.with_activity (RouteEntry.new 5 9 RouteStatus.Active 0) 0 0)).
  split; [|simpl; lia]. repeat constructor; simpl; rewrite ?elem_of_cons, ?elem_of_nil; intuition congruence.
Defined.

(** Losing a neighbour: after [invalidate_via] no active route goes through
    it, every other route and every other field is unchanged, and the number
    reported is the number of routes that were active through it. *)
Theorem invalidate_via_spec {H : Heapless} {K : nat} (s : RoutingTable.t K) (n : Z) :
  let '(k, s') := RoutingTable.invalidate_via s n in
  (∀ e, e ∈ RoutingTable.entries s' → RouteEntry.next_hop e = n → RouteEntry.status e ≠ RouteStatus.Active) ∧
  (∀ d, RoutingTable.get s' d =
     (λ e, if decide (RouteEntry.next_hop e = n ∧ RouteEntry.status e = RouteStatus.Active)
           then RouteEntry.with_status e RouteStatus.Inactive else e) <$> RoutingTable.get s d) ∧
  k = length (filter (λ e, RouteEntry.next_hop e = n ∧ RouteEntry.status e = RouteStatus.Active)
        (RoutingTable.entries s)).
Proof.
  destruct s as [l]. unfold RoutingTable.invalidate_via, RoutingTable.get. cbn [RoutingTable.entries].
  assert (∀ e, RoutingTable.via n e = bool_decide
    (RouteEntry.next_hop e = n ∧ RouteEntry.status e = RouteStatus.Active)) as Hv.
  { intros e. unfold RoutingTable.via. destruct (Z.eqb_spec (RouteEntry.next_hop e) n); simpl;
      repeat case_bool_decide; naive_solver. }
  split_and!.
  - intros e (e0 & -> & _)%list_elem_of_fmap. rewrite Hv. case_bool_decide as E; simpl; [done|naive_solver].
  - intros d. induction l as [|e l IH]; simpl; [done|].
    assert (RoutingTable.towards d (if RoutingTable.via n e then RouteEntry.with_status e RouteStatus.Inactive else e)
      = RoutingTable.towards d e) as -> by (by destruct (RoutingTable.via n e)).
    destruct (RoutingTable.towards d e); simpl; [|done].
    rewrite Hv. by case_bool_decide; case_decide.
  - induction l as [|e l IH]; simpl; [done|]. rewrite Hv, filter_cons.
    by case_bool_decide; case_decide; simpl; rewrite ?IH.
Qed.

(** Storing a route discovery never forgets one that is still running: the
    entry for a request replaces an earlier one for the same request or joins the
    table; a full table gives up at most one entry, and only an expired one; when
    there is none the new request is refused and nothing changes. *)
Theorem discovery_insert_keeps_running {H : Heapless} {K : nat} (s : RouteDiscoveryTable.t K)
    (e : DiscoveryEntry.t) (now : Z) :
  RouteDiscoveryTable.wf s →
  match RouteDiscoveryTable.insert s e now with
  | (Some i, s') =>
      RouteDiscoveryTable.wf s' ∧ RouteDiscoveryTable.entries s' !! i = Some e ∧
      RouteDiscoveryTable.get s' (DiscoveryEntry.source e) (DiscoveryEntry.request_id e) = Some e ∧
      ∀ src rid, (src, rid) ≠ DiscoveryEntry.id e →
        RouteDiscoveryTable.get s' src rid = RouteDiscoveryTable.get s src rid ∨
        RouteDiscoveryTable.get s' src rid = None ∧
        ∃ x, RouteDiscoveryTable.get s src rid = Some x ∧ DiscoveryEntry.expires x ≤ now ∧
          length (RouteDiscoveryTable.entries s) = K
  | (None, s') => s' = s ∧ length (RouteDiscoveryTable.entries s) = K ∧
      ∀ x, x ∈ RouteDiscoveryTable.entries s → now < DiscoveryEntry.expires x
  end.
Proof.
  destruct s as [l]. intros [Hnd Hl].
  unfold RouteDiscoveryTable.insert, RouteDiscoveryTable.wf, RouteDiscoveryTable.get in *.
  cbn [RouteDiscoveryTable.entries] in *.
  change (DiscoveryEntry.source e, DiscoveryEntry.request_id e) with (DiscoveryEntry.id e).
  destruct (position (RouteDiscoveryTable.same (DiscoveryEntry.id e)) l) as [i|] eqn:Ep.
  - destruct (position_key_insert DiscoveryEntry.id l i e _ Hnd Ep eq_refl) as (Hi & Hnd' & Hf).
    cbn [RouteDiscoveryTable.entries].
    split_and!; [done|by rewrite length_insert|by apply list_lookup_insert_eq|rewrite Hf; by case_decide|].
    intros src rid Hne. left. rewrite Hf. by case_decide.
  - assert (DiscoveryEntry.id e ∉ DiscoveryEntry.id <$> l) as Hp.
    { apply (find_key_None DiscoveryEntry.id (has:=RouteDiscoveryTable.same)), find_None. by apply position_None. }
    rewrite vec_is_full_spec. destruct (Nat.eqb_spec (length l) K) as [Ef|Ef].
    + destruct (position (λ e0, Instant.has_reached now (DiscoveryEntry.expires e0)) l) as [v|] eqn:Ev.
      * apply position_Some in Ev as (x & Hv & Hx & _). unfold Instant.has_reached in Hx.
        destruct (replace_victim DiscoveryEntry.id K l e v x Hnd Ef Hp Hv)
          as (l' & -> & -> & Hnd' & Hl' & Hfe & Hfx & Hfo). cbn [RouteDiscoveryTable.entries].
        split_and!; [done|lia| |done|].
        { rewrite length_app. simpl. rewrite Nat.add_sub. by apply list_lookup_middle. }
        intros src rid Hne. destruct (decide ((src, rid) = DiscoveryEntry.id x)) as [->|Hnx].
        -- right. split; [done|]. exists x. split_and!; [|lia|done].
           apply (find_key_elem DiscoveryEntry.id); [done| |done]. by eapply list_elem_of_lookup_2.
        -- left. by apply Hfo.
      * split_and!; [done..|]. intros x Hx. apply position_None with (x := x) in Ev; [|done].
        unfold Instant.has_reached in Ev. lia.
    + destruct (push_new_key DiscoveryEntry.id K l e Hnd ltac:(lia) Hp) as (-> & Hnd' & Hfe & Hfo).
      cbn [RouteDiscoveryTable.entries]. split_and!; [done|rewrite length_app; simpl; lia| |done|].
      { rewrite length_app. simpl. rewrite Nat.add_sub. by apply list_lookup_middle. }
      intros src rid Hne. left. by apply Hfo.
Qed.

Lemma discovery_insert_keeps_running_witness :
  let d id expires := DiscoveryEntry.mk id 1 2 3 255 expires 7 true false in
  let s : RouteDiscoveryTable.t 1 := RouteDiscoveryTable.mk [d 4 100] in
  RouteDiscoveryTable.insert s (d 5 300) 50 = (None, s) ∧ 50 < DiscoveryEntry.expires (d 4 100).
Proof.
  split; [reflexivity|].
  refine (proj2 (proj2 (discovery_insert_keeps_running (K:=1)
    (RouteDiscoveryTable.mk [DiscoveryEntry.mk 4 1 2 3 255 100 7 true false])
    (DiscoveryEntry.mk 5 1 2 3 255 300 7 true false) 50 _)) _ _).
  - split; simpl; [apply NoDup_singleton|lia].
  - apply list_elem_of_here.
Defined.

(** ** Source routes *)

Section source_routes.
Context {H : Heapless} {K : nat}.

Lemma collect_spec acc rs :
  (length acc ≤ MAX_SOURCE_ROUTE_RELAYS)%nat →
  SourceRouteTable.collect acc rs =
    if (length acc + length rs <=? MAX_SOURCE_ROUTE_RELAYS)%nat then Some (acc ++ rs) else None.
Proof.
  revert acc. induction rs as [|r rs IH]; intros acc Ha; simpl.
  - rewrite Nat.add_0_r, app_nil_r. by rewrite (proj2 (Nat.leb_le _ _)).
  - destruct (vec_push_cases MAX_SOURCE_ROUTE_RELAYS acc r) as [[Hl ->]|[Hl ->]].
    + rewrite IH by (rewrite length_app; simpl; lia). rewrite length_app, <- app_assoc. simpl.
      by replace (length acc + 1 + length rs)%nat with (length acc + S (length rs))%nat by lia.
    + by rewrite (proj2 (Nat.leb_gt _ _)) by lia.
Qed.
End source_routes.

(** A recorded route is used as recorded: a record of at most twelve relays
    is stored, replaces an older route to the same destination, and is what [get]
    returns; a longer record is refused and changes nothing.  Other destinations
    keep their routes, except that a full table drops its oldest entry. *)
Theorem source_route_store {H : Heapless} {K : nat} (s : SourceRouteTable.t K) (d : Z) (record : list Z) :
  (0 < K)%nat → SourceRouteTable.wf s →
  let '(ok, s') := SourceRouteTable.store_from_record s d record in
  SourceRouteTable.wf s' ∧
  ok = (length record <=? MAX_SOURCE_ROUTE_RELAYS)%nat ∧
  if ok then
    SourceRouteTable.get s' d = Some (SourceRouteEntry.mk d record) ∧
    ∀ q, q ≠ d → SourceRouteTable.get s' q = SourceRouteTable.get s q ∨
      SourceRouteTable.get s' q = None ∧ length (SourceRouteTable.entries s) = K ∧
      ∃ x, SourceRouteTable.entries s !! 0%nat = Some x ∧ SourceRouteEntry.destination x = q
  else s' = s.
Proof.
  destruct s as [l]. intros HK (Hnd & Hl & Hr). unfold SourceRouteTable.store_from_record.
  rewrite collect_spec by (simpl; lia). simpl.
  destruct (Nat.leb_spec (length record) MAX_SOURCE_ROUTE_RELAYS) as [Hrec|]; [|by split_and!].
  unfold SourceRouteTable.wf, SourceRouteTable.get in *. cbn [SourceRouteTable.entries] in *.
  set (e := SourceRouteEntry.mk d record). change d with (SourceRouteEntry.destination e).
  destruct (position (SourceRouteTable.towards (SourceRouteEntry.destination e)) l) as [i|] eqn:Ep.
  - destruct (position_key_insert SourceRouteEntry.destination l i e _ Hnd Ep eq_refl) as (Hi & Hnd' & Hf).
    cbn [SourceRouteTable.entries].
    split_and!; [done|by rewrite length_insert|by apply Forall_insert|done|rewrite Hf; by case_decide|].
    intros q Hq. left. rewrite Hf. by case_decide.
  - assert (SourceRouteEntry.destination e ∉ SourceRouteEntry.destination <$> l) as Hp.
    { apply (find_key_None SourceRouteEntry.destination (has:=SourceRouteTable.towards)), find_None. by apply position_None. }
    rewrite vec_is_full_spec. set (es := if (_ =? _)%nat then _ else _).
    assert (NoDup (SourceRouteEntry.destination <$> es) ∧ (length es < K)%nat ∧
      (SourceRouteEntry.destination e ∉ SourceRouteEntry.destination <$> es) ∧
      Forall (λ e, (length (SourceRouteEntry.relays e) ≤ MAX_SOURCE_ROUTE_RELAYS)%nat) es ∧
      ∀ q, List.find (SourceRouteTable.towards q) es = List.find (SourceRouteTable.towards q) l ∨
        List.find (SourceRouteTable.towards q) es = None ∧ length l = K ∧
        ∃ x, l !! 0%nat = Some x ∧ SourceRouteEntry.destination x = q) as (Hnd1 & Hl1 & Hp1 & Hr1 & Hf1).
    { subst es. destruct (Nat.eqb_spec (length l) K) as [Ef|Ef]; [|split_and!; [done|lia|done|done|by left]].
      destruct l as [|x l]; [simpl in Ef; lia|].
      rewrite (vec_remove_spec _ (x :: l) 0 x eq_refl). simpl in *.
      apply NoDup_cons in Hnd as [Hx Hnd]. apply Forall_cons in Hr as [_ Hr].
      split_and!; [done|lia|by intros ?; apply Hp; right|done|]. intros q.
      destruct (SourceRouteTable.towards q x) eqn:Et; [|by left]. right.
      apply (key_test (key:=SourceRouteEntry.destination)) in Et.
      split_and!; [|done|by exists x]. apply (find_key_None SourceRouteEntry.destination). by subst q. }
    destruct (push_new_key SourceRouteEntry.destination K es e Hnd1 Hl1 Hp1) as (-> & Hnd2 & Hfe & Hfo).
    cbn [SourceRouteTable.entries].
    split_and!; [done|rewrite length_app; simpl; lia|apply Forall_app; by rewrite Forall_singleton|done|done|].
    intros q Hq. rewrite Hfo by done. apply Hf1.
Qed.

Lemma source_route_store_witness :
  let s : SourceRouteTable.t 2 := SourceRouteTable.new 2 in
  SourceRouteTable.get (SourceRouteTable.store_from_record s 7 [3; 4]).2 7 = Some (SourceRouteEntry.mk 7 [3; 4]).
Proof.
  refine (proj1 (proj2 (proj2 (source_route_store (K:=2) (SourceRouteTable.new 2) 7 [3; 4] _ _)))).
  - lia.
  - split_and!; simpl; [constructor|lia|constructor].
Defined.
