(* ===== verification/NwkTables.v ===== *)
(** * The address map and the broadcast table
    (panweave-nwk/src/address_map.rs, broadcast.rs) *)

From S2P Require Import Prelude Heapless Types.

(** ** Random numbers (panweave-types/src/rng.rs)

    A generator is a state with a way to fill octets; the 16-bit draw is the
    default method of the trait. *)

Class Rng (R : Type) := {
  fill_bytes : nat → R → list Z * R;
  fill_bytes_ok n r : length (fill_bytes n r).1 = n ∧ bytes_ok (fill_bytes n r).1
}.

Definition next_u16 {R} `{!Rng R} (r : R) : Z * R :=
  let '(b, r) := fill_bytes 2 r in (from_le b, r).

Module AddressMapUpdate.
Inductive t : Type :=
  | Unchanged
  | Added
  | ShortChanged (old : Z)
  | Conflict (other : Z)
  | Full.
End AddressMapUpdate.

Module AddressMap.

(** Pairs (extended address, short address). *)
Record t (K : nat) : Type := mk { entries : list (Z * Z) }.
Arguments mk {K} _.
Arguments entries {K} _.

Definition new K : t K := mk [].

Section map.
Context {H : Heapless} {K : nat}.

Definition of_ext (ext : Z) (e : Z * Z) : bool := e.1 =? ext.
Definition of_short (short : Z) (e : Z * Z) : bool := e.2 =? short.

Definition short_for (s : t K) (ext : Z) : option Z := snd <$> List.find (of_ext ext) (entries s).
Definition extended_for (s : t K) (short : Z) : option Z := fst <$> List.find (of_short short) (entries s).

(** [if let Some(other) = self.extended_for(short) && other != ext]. *)
Definition conflict (s : t K) (ext short : Z) : option Z :=
  match extended_for s short with
  | Some other => if negb (other =? ext) then Some other else None
  | None => None
  end.

Definition record (s : t K) (ext short : Z) : AddressMapUpdate.t * t K :=
  match conflict s ext short with
  | Some other => (AddressMapUpdate.Conflict other, s)
  | None =>
      match List.find (of_ext ext) (entries s) with
      | Some e =>
          if e.2 =? short then (AddressMapUpdate.Unchanged, s)
          else (AddressMapUpdate.ShortChanged e.2,
                mk (update_first (of_ext ext) (λ e, (e.1, short)) (entries s)))
      | None =>
          match vec_push K (entries s) (ext, short) with
          | Ok es => (AddressMapUpdate.Added, mk es)
          | Err _ => (AddressMapUpdate.Full, s)
          end
      end
  end.

Definition remove_extended (s : t K) (ext : Z) : t K :=
  mk (vec_retain (entries s) (λ e, negb (of_ext ext e))).
Definition remove_short (s : t K) (short : Z) : t K :=
  mk (vec_retain (entries s) (λ e, negb (of_short short e))).
Definition contains_short (s : t K) (short : Z) : bool := existsb (of_short short) (entries s).
Definition len (s : t K) : nat := length (entries s).
Definition is_empty (s : t K) : bool := (len s =? 0)%nat.
Definition clear (s : t K) : t K := mk (vec_clear (entries s)).

(** Neither address occurs twice. *)
Definition wf (s : t K) : Prop :=
  NoDup (entries s).*1 ∧ NoDup (entries s).*2 ∧ (length (entries s) ≤ K)%nat.

End map.
End AddressMap.

(** [for _ in 0..n]: the bounded draw of [allocate_stochastic]. *)
Fixpoint draw_address {R} `{!Rng R} (n : nat) (r : R) (in_use : Z → bool) : option Z * R :=
  match n with
  | O => (None, r)
  | S n =>
      let '(candidate, r) := next_u16 r in
      if ShortAddress.is_assignable candidate && negb (in_use candidate)
      then (Some candidate, r)
      else draw_address n r in_use
  end.

Definition allocate_stochastic {R} `{!Rng R} (r : R) (in_use : Z → bool) : option Z * R :=
  draw_address 64 r in_use.

(** ** Broadcasts *)

Definition PASSIVE_ACK_TRACKED : nat := 16.

Module BroadcastRecord.
Record t : Type := mk {
  source : Z;
  sequence : Z;
  expires : Z;
  awaiting : list Z;
  retries : Z;
  next_tx : option Z;
  relay_pending : bool
}.

Section record.
Context {H : Heapless}.
Definition passive_ack (r : t) (neighbor : Z) : t :=
  mk (source r) (sequence r) (expires r) (vec_retain (awaiting r) (λ n, negb (n =? neighbor)))
     (retries r) (next_tx r) (relay_pending r).
Definition fully_acknowledged (r : t) : bool := (length (awaiting r) =? 0)%nat.
End record.
End BroadcastRecord.

Module BroadcastTransactionTable.
Record t (K : nat) : Type := mk { records : list BroadcastRecord.t }.
Arguments mk {K} _.
Arguments records {K} _.

Definition new K : t K := mk [].

Section table.
Context {H : Heapless} {K : nat}.

Definition same (source sequence : Z) (r : BroadcastRecord.t) : bool :=
  (BroadcastRecord.source r =? source) && (BroadcastRecord.sequence r =? sequence).

Definition get (s : t K) (source sequence : Z) : option BroadcastRecord.t :=
  List.find (same source sequence) (records s).
Definition get_mut (s : t K) (source sequence : Z) (f : BroadcastRecord.t → BroadcastRecord.t) : t K :=
  mk (update_first (same source sequence) f (records s)).

Definition over (now : Z) (r : BroadcastRecord.t) : bool :=
  Instant.has_reached now (BroadcastRecord.expires r).

Definition insert (s : t K) (r : BroadcastRecord.t) (now : Z) : option nat * t K :=
  let freed :=
    if vec_is_full K (records s) then
      match position (over now) (records s) with
      | None => None
      | Some pos =>
          match vec_swap_remove (records s) pos with
          | Some (_, rs) => Some rs
          | None => Some (records s)
          end
      end
    else Some (records s) in
  match freed with
  | None => (None, s)
  | Some rs =>
      match vec_push K rs r with
      | Err _ => (None, mk rs)
      | Ok rs => (Some (length rs - 1)%nat, mk rs)
      end
  end.

Definition expire (s : t K) (now : Z) : t K :=
  mk (vec_retain (records s) (λ r, negb (over now r))).

(** [flat_map(once(expires).chain(next_tx)).min()] *)
Definition next_deadline (s : t K) : option Z :=
  foldl (λ m x, Some (match m with None => x | Some y => Z.min y x end)) None
    (records s ≫= λ r, BroadcastRecord.expires r :: option_list (BroadcastRecord.next_tx r)).

Definition len (s : t K) : nat := length (records s).
Definition is_empty (s : t K) : bool := (len s =? 0)%nat.
Definition clear (s : t K) : t K := mk (vec_clear (records s)).

End table.
End BroadcastTransactionTable.

#[global] Instance of_ext_test : KeyTest fst AddressMap.of_ext.
Proof. intros p e. apply Z.eqb_eq. Qed.
#[global] Instance of_short_test : KeyTest snd AddressMap.of_short.
Proof. intros p e. apply Z.eqb_eq. Qed.

Section address_map.
Context {H : Heapless} {K : nat}.
Implicit Types s : AddressMap.t K.

Lemma short_for_elem s e x :
  NoDup (AddressMap.entries s).*1 → AddressMap.short_for s e = Some x ↔ (e, x) ∈ AddressMap.entries s.
Proof.
  intros Hnd. unfold AddressMap.short_for. split.
  - destruct (List.find _ _) as [[a b]|] eqn:E; [|done]. intros [= <-].
    apply (find_key_Some fst) in E as [Hin Ha]. simpl in Ha. by subst.
  - intros Hin. by rewrite (find_key_elem fst e _ (e, x)).
Qed.

Lemma extended_for_elem s e x :
  NoDup (AddressMap.entries s).*2 → AddressMap.extended_for s x = Some e ↔ (e, x) ∈ AddressMap.entries s.
Proof.
  intros Hnd. unfold AddressMap.extended_for. split.
  - destruct (List.find _ _) as [[a b]|] eqn:E; [|done]. intros [= <-].
    apply (find_key_Some snd) in E as [Hin Ha]. simpl in Ha. by subst.
  - intros Hin. by rewrite (find_key_elem snd x _ (e, x)).
Qed.

(** A short address bound to no other device, nor to this one. *)
Lemma unbound_short s ext short :
  AddressMap.wf s → (∀ o, AddressMap.extended_for s short = Some o → o = ext) →
  AddressMap.short_for s ext ≠ Some short → short ∉ (AddressMap.entries s).*2.
Proof.
  intros (Hnd1 & Hnd2 & _) Hno Hs ([e x] & Ex & Hin)%list_elem_of_fmap. simpl in Ex. subst x.
  pose proof Hin as Hin'. apply extended_for_elem in Hin; [|done]. apply Hno in Hin as ->.
  by apply short_for_elem in Hin'.
Qed.

(** Re-addressing a device keeps the short addresses apart. *)
Lemma NoDup_readdress (l : list (Z * Z)) ext short :
  NoDup l.*1 → NoDup l.*2 → short ∉ l.*2 →
  NoDup (update_first (AddressMap.of_ext ext) (λ e, (e.1, short)) l).*2.
Proof.
  induction l as [|[a b] l IH]; simpl; [done|].
  intros [Ha Hl1]%NoDup_cons [Hb Hl2]%NoDup_cons Hs. apply not_elem_of_cons in Hs as [Hsb Hs].
  unfold AddressMap.of_ext at 1. simpl. destruct (Z.eqb_spec a ext) as [->|Hne]; simpl.
  - by apply NoDup_cons.
  - apply NoDup_cons. split; [|by apply IH].
    intros ([a' b'] & E & Hin)%list_elem_of_fmap. simpl in E. subst b'.
    assert (∀ m, (a', b) ∈ update_first (AddressMap.of_ext ext) (λ e, (e.1, short)) m →
      (a', b) ∈ m ∨ b = short) as Hup.
    { intros m. induction m as [|[c d] m IHm]; simpl; [by intros ?%not_elem_of_nil|].
      destruct (AddressMap.of_ext ext (c, d)); intros [E|Hm]%elem_of_cons.
      - injection E as _ ->. by right.
      - left. by right.
      - injection E as -> ->. left. by left.
      - apply IHm in Hm as [Hm|Hm]; [left; by right|by right]. }
    apply Hup in Hin as [Hin| ->]; [|done]. apply Hb. by apply (list_elem_of_fmap_2 snd) in Hin.
Qed.
End address_map.

(** The address map stays one-to-one: whatever pairs are recorded, no
    extended and no short address is ever bound twice, and the two lookups are
    inverse to each other.  Recording reports exactly what happened: a short
    address already bound to another device is a conflict and changes nothing,
    a known device is re-addressed, a new pair is added unless the map is full;
    every other device keeps its short address. *)
Theorem address_map_one_to_one {H : Heapless} {K : nat} (s : AddressMap.t K) (ext short : Z) :
  AddressMap.wf s →
  let '(u, s') := AddressMap.record s ext short in
  AddressMap.wf s' ∧
  (∀ e x, AddressMap.short_for s' e = Some x ↔ AddressMap.extended_for s' x = Some e) ∧
  (∀ e, e ≠ ext → AddressMap.short_for s' e = AddressMap.short_for s e) ∧
  match u with
  | AddressMapUpdate.Unchanged => s' = s ∧ AddressMap.short_for s ext = Some short
  | AddressMapUpdate.Added =>
      AddressMap.short_for s ext = None ∧ AddressMap.short_for s' ext = Some short
  | AddressMapUpdate.ShortChanged old =>
      AddressMap.short_for s ext = Some old ∧ old ≠ short ∧ AddressMap.short_for s' ext = Some short
  | AddressMapUpdate.Conflict other =>
      s' = s ∧ other ≠ ext ∧ AddressMap.extended_for s short = Some other
  | AddressMapUpdate.Full =>
      s' = s ∧ AddressMap.short_for s ext = None ∧ AddressMap.len s = K
  end.
Proof.
  intros Hwf. pose proof Hwf as (Hnd1 & Hnd2 & Hl).
  assert (∀ s' : AddressMap.t K, AddressMap.wf s' →
    ∀ e x, AddressMap.short_for s' e = Some x ↔ AddressMap.extended_for s' x = Some e) as Hinv.
  { intros s' (H1 & H2 & _) e x. by rewrite short_for_elem, extended_for_elem. }
  unfold AddressMap.record. destruct (AddressMap.conflict s ext short) as [other|] eqn:Ec.
  { unfold AddressMap.conflict in Ec. destruct (AddressMap.extended_for s short) as [o|]; [|done].
    destruct (Z.eqb_spec o ext); simplify_eq/=. split_and!; try done. by apply Hinv. }
  assert (∀ o, AddressMap.extended_for s short = Some o → o = ext) as Hno.
  { intros o Ho. unfold AddressMap.conflict in Ec. rewrite Ho in Ec.
    by destruct (Z.eqb_spec o ext). }
  destruct (List.find (AddressMap.of_ext ext) (AddressMap.entries s)) as [[a b]|] eqn:E.
  - assert (AddressMap.short_for s ext = Some b) as Hb by (unfold AddressMap.short_for; by rewrite E).
    simpl. destruct (Z.eqb_spec b short) as [->|Hne]; [split_and!; try done; by apply Hinv|].
    set (s' := AddressMap.mk _ : AddressMap.t K).
    assert (short ∉ (AddressMap.entries s).*2) as Hs by (apply (unbound_short s ext); [done..|congruence]).
    assert (AddressMap.wf s') as Hwf'.
    { unfold s'. split_and!; cbn [AddressMap.entries].
      - by rewrite (keys_update_first fst).
      - by apply NoDup_readdress.
      - by rewrite length_update_first. }
    split_and!; [done|by apply Hinv| |done|done|].
    + intros e He. unfold AddressMap.short_for, s'. cbn [AddressMap.entries].
      by rewrite (find_key_update_ne fst).
    + unfold AddressMap.short_for, s'. cbn [AddressMap.entries]. by rewrite (find_key_update fst), E.
  - assert (AddressMap.short_for s ext = None) as Hb by (unfold AddressMap.short_for; by rewrite E).
    apply (find_key_None fst) in E.
    destruct (vec_push_cases K (AddressMap.entries s) (ext, short)) as [[Hlt ->]|[Hge ->]].
    + assert (short ∉ (AddressMap.entries s).*2) as Hs by (apply (unbound_short s ext); [done..|congruence]).
      set (s' := AddressMap.mk _ : AddressMap.t K).
      assert (AddressMap.wf s') as Hwf'.
      { unfold s'. split_and!; cbn [AddressMap.entries];
          [by apply (NoDup_keys_snoc fst)|by apply (NoDup_keys_snoc snd)|rewrite length_app; simpl; lia]. }
      split_and!; [done|by apply Hinv| |done|].
      * intros e He. unfold AddressMap.short_for, s'. cbn [AddressMap.entries].
        by rewrite (find_key_snoc_ne fst) by (simpl; congruence).
      * unfold AddressMap.short_for, s'. cbn [AddressMap.entries]. by rewrite (find_key_snoc fst).
    + split_and!; try done; [by apply Hinv|]. unfold AddressMap.len. lia.
Qed.

Lemma address_map_one_to_one_witness :
  let s : AddressMap.t 2 := AddressMap.mk [(0xA, 1); (0xB, 2)] in
  AddressMap.record s 0xA 2 = (AddressMapUpdate.Conflict 0xB, s) ∧
  AddressMap.extended_for s 2 = Some 0xB.
Proof.
  split; [reflexivity|].
  refine (proj2 (proj2 (proj2 (proj2 (proj2 (address_map_one_to_one (K:=2)
    (AddressMap.mk [(0xA, 1); (0xB, 2)]) 0xA 2 _)))))).
  split_and!; simpl; [..|lia];
    repeat constructor; rewrite ?elem_of_cons, ?elem_of_nil; intuition congruence.
Defined.

(** ** Stochastic addresses *)

Section stochastic.
Context {R : Type} `{!Rng R} (in_use : Z → bool).

Definition suitable (a : Z) : bool := ShortAddress.is_assignable a && negb (in_use a).

(** The [k]-th draw. *)
Definition nth_draw (k : nat) (r : R) : Z := (next_u16 (Nat.iter k (λ r, (next_u16 r).2) r)).1.

Lemma draw_spec n r :
  match (draw_address n r in_use).1 with
  | Some a => suitable a = true ∧ 0 ≤ a
  | None => ∀ k, (k < n)%nat → suitable (nth_draw k r) = false
  end.
Proof.
  revert r. induction n as [|n IH]; intros r; simpl; [lia|].
  destruct (next_u16 r) as [a r1] eqn:E. fold (suitable a). destruct (suitable a) eqn:Es; simpl.
  - split; [done|]. unfold next_u16 in E. pose proof (fill_bytes_ok 2 r) as [Hl Hb].
    destruct (fill_bytes 2 r) as [b r2]. simpl in *. injection E as <- _.
    pose proof (from_le_bound b Hb) as Hbd. unfold uint in Hbd. lia.
  - specialize (IH r1). destruct (draw_address n r1 in_use).1; [done|].
    intros [|k] Hk; unfold nth_draw; [simpl; by rewrite E|].
    rewrite Nat.iter_succ_r, E. apply IH. lia.
Qed.

Lemma suitable_spec a :
  0 ≤ a → suitable a = true ↔ 0 < a ≤ ShortAddress.MAX_UNICAST ∧ in_use a = false.
Proof.
  intros Ha. unfold suitable, ShortAddress.is_assignable, ShortAddress.is_unicast, ShortAddress.kind,
    ShortAddress.MAX_UNICAST.
  destruct (Z.eqb_spec a 0), (Z.leb_spec a 0xFFF7), (in_use a); simpl; repeat case_match; simpl;
    split; intros; try done; lia.
Qed.
End stochastic.

(** Stochastic address assignment hands out only free unicast addresses, and
    never the coordinator's; it gives up only when none of 64 draws was one. *)
Theorem allocate_stochastic_sound {R} `{!Rng R} (r : R) (in_use : Z → bool) :
  match (allocate_stochastic r in_use).1 with
  | Some a => 0 < a ≤ ShortAddress.MAX_UNICAST ∧ in_use a = false
  | None => ∀ k, (k < 64)%nat →
      ¬ (0 < nth_draw k r ≤ ShortAddress.MAX_UNICAST ∧ in_use (nth_draw k r) = false)
  end.
Proof.
  pose proof (draw_spec in_use 64 r) as Hd. unfold allocate_stochastic.
  destruct (draw_address 64 r in_use).1 as [a|].
  - destruct Hd as [Hs Ha]. by apply (suitable_spec in_use) in Hs.
  - intros k Hk Hs. specialize (Hd k Hk). apply suitable_spec in Hs; [congruence|lia].
Qed.

(** ** The broadcast table *)

Section broadcast.
Context {H : Heapless} {K : nat}.
Implicit Types s : BroadcastTransactionTable.t K.

(** The ways the layer changes the table, at a given time. *)
Inductive bcast_op : Type :=
  | BInsert (r : BroadcastRecord.t)
  | BExpire
  | BAck (source sequence neighbor : Z).

Definition bcast_exec s (o : Z * bcast_op) : BroadcastTransactionTable.t K :=
  let '(now, o) := o in
  match o with
  | BInsert r => (BroadcastTransactionTable.insert s r now).2
  | BExpire => BroadcastTransactionTable.expire s now
  | BAck src sq n => BroadcastTransactionTable.get_mut s src sq (λ r, BroadcastRecord.passive_ack r n)
  end.

(** A broadcast is remembered until [t]. *)
Definition remembered s (src sq t : Z) : Prop :=
  ∃ r, r ∈ BroadcastTransactionTable.records s ∧ BroadcastTransactionTable.same src sq r = true ∧
    BroadcastRecord.expires r = t.

Lemma insert_keeps s r now x :
  x ∈ BroadcastTransactionTable.records s → now < BroadcastRecord.expires x →
  x ∈ BroadcastTransactionTable.records (BroadcastTransactionTable.insert s r now).2.
Proof.
  destruct s as [l]. intros Hx Hlive. unfold BroadcastTransactionTable.insert.
  cbn [BroadcastTransactionTable.records] in *. set (freed := if vec_is_full K l then _ else _).
  assert (match freed with None => True | Some rs => x ∈ rs end) as Hf.
  { subst freed. destruct (vec_is_full K l); [|done].
    destruct (position (BroadcastTransactionTable.over now) l) as [i|] eqn:E; [|done].
    apply position_Some in E as (y & Hi & Hy & _).
    destruct (swap_remove_Permutation l i y Hi) as (l' & -> & Hp).
    rewrite Hp in Hx. apply elem_of_cons in Hx as [->|Hx]; [|done].
    unfold BroadcastTransactionTable.over, Instant.has_reached in Hy. lia. }
  destruct freed as [rs|]; [|done].
  destruct (vec_push_cases K rs r) as [[_ ->]|[_ ->]]; [|done]. apply elem_of_app. by left.
Qed.

Lemma update_first_elem {A} (f : A → bool) (g : A → A) l x :
  x ∈ l → x ∈ update_first f g l ∨ g x ∈ update_first f g l.
Proof.
  induction l as [|y l IH]; simpl; [by intros ?%not_elem_of_nil|].
  intros [->|Hx]%elem_of_cons; destruct (f y); rewrite !elem_of_cons; auto.
  apply IH in Hx as [|]; auto.
Qed.

Lemma exec_remembered s now o src sq t :
  now < t → remembered s src sq t → remembered (bcast_exec s (now, o)) src sq t.
Proof.
  intros Hlive (r & Hr & Hs & Ht). destruct o as [r'| |a b n]; simpl.
  - exists r. split_and!; [|done..]. apply insert_keeps; [done|lia].
  - exists r. split_and!; [|done..]. unfold BroadcastTransactionTable.expire. simpl.
    rewrite vec_retain_spec. apply list_elem_of_In, filter_In. split; [by apply list_elem_of_In|].
    unfold BroadcastTransactionTable.over, Instant.has_reached. lia.
  - apply (update_first_elem (BroadcastTransactionTable.same a b)
      (λ r, BroadcastRecord.passive_ack r n)) in Hr as [Hr|Hr]; [by exists r|].
    by exists (BroadcastRecord.passive_ack r n).
Qed.

Lemma run_remembered ops s src sq t :
  Forall (λ o, o.1 < t) ops → remembered s src sq t → remembered (foldl bcast_exec s ops) src sq t.
Proof.
  intros Hops. revert s. induction Hops as [|[now o] ops Ho Hops IH]; intros s Hs; simpl; [done|].
  by apply IH, exec_remembered.
Qed.

Lemma remembered_get s src sq t :
  remembered s src sq t → is_Some (BroadcastTransactionTable.get s src sq).
Proof.
  intros (r & Hr & Hs & _). unfold BroadcastTransactionTable.get.
  destruct (List.find _ _) eqn:E; [eauto|]. apply find_None with (x := r) in E; [|done]. congruence.
Qed.

(** A record that is new is found as it was inserted. *)
Lemma insert_get s r now i s1 :
  BroadcastTransactionTable.insert s r now = (Some i, s1) →
  BroadcastTransactionTable.get s (BroadcastRecord.source r) (BroadcastRecord.sequence r) = None →
  BroadcastTransactionTable.get s1 (BroadcastRecord.source r) (BroadcastRecord.sequence r) = Some r.
Proof.
  unfold BroadcastTransactionTable.insert, BroadcastTransactionTable.get. cbv zeta.
  set (mine := BroadcastTransactionTable.same _ _). intros Hi Hn.
  set (freed := if vec_is_full K _ then _ else _) in Hi.
  assert (∀ rs, freed = Some rs → List.find mine rs = None) as Hf.
  { intros rs. unfold freed. destruct (vec_is_full K _); [|by intros [= <-]].
    destruct (position _ _) as [pos|] eqn:Ep; [|done]. apply position_Some in Ep as (y & Hy & _).
    destruct (swap_remove_Permutation _ pos y Hy) as (l' & -> & Hp). intros [= <-]. apply find_None. intros x Hx.
    eapply find_None in Hn; [exact Hn|]. rewrite Hp. by right. }
  destruct freed as [rs|]; [|done].
  destruct (vec_push_cases K rs r) as [[_ Hp]|[_ Hp]]; rewrite Hp in Hi; [|done]. injection Hi as <- <-.
  cbn [BroadcastTransactionTable.records]. rewrite find_snoc, (Hf rs eq_refl). unfold mine, BroadcastTransactionTable.same.
  by rewrite !Z.eqb_refl.
Qed.

Lemma get_mut_get s src sq f r :
  (∀ r, BroadcastRecord.source (f r) = BroadcastRecord.source r ∧ BroadcastRecord.sequence (f r) = BroadcastRecord.sequence r) →
  BroadcastTransactionTable.get s src sq = Some r →
  BroadcastTransactionTable.get (BroadcastTransactionTable.get_mut s src sq f) src sq = Some (f r).
Proof.
  intros Hf Hg. unfold BroadcastTransactionTable.get, BroadcastTransactionTable.get_mut in *. cbn [BroadcastTransactionTable.records].
  rewrite find_update_first, Hg; [done|]. intros x. unfold BroadcastTransactionTable.same. by destruct (Hf x) as [-> ->].
Qed.

Lemma insert_remembered s r now i s1 :
  BroadcastTransactionTable.insert s r now = (Some i, s1) →
  remembered s1 (BroadcastRecord.source r) (BroadcastRecord.sequence r) (BroadcastRecord.expires r).
Proof.
  intros Hi. exists r. unfold BroadcastTransactionTable.insert in Hi. cbv zeta in Hi.
  destruct (if vec_is_full K _ then _ else _) as [rs|]; [|done].
  destruct (vec_push_cases K rs r) as [[_ Hp]|[_ Hp]]; rewrite Hp in Hi; [|done]. injection Hi as <- <-.
  split_and!; [|unfold BroadcastTransactionTable.same; by rewrite !Z.eqb_refl|done].
  apply elem_of_app. right. by apply list_elem_of_singleton.
Qed.
End broadcast.

(** No broadcast is processed twice: once its record is in the table it is
    found by every lookup until it expires, whatever other broadcasts arrive,
    expire or are acknowledged in between; a record makes way for another only
    after its time is over. *)
Theorem broadcast_remembered {H : Heapless} {K : nat} (s : BroadcastTransactionTable.t K)
    (r : BroadcastRecord.t) (now : Z) (i : nat) (s1 : BroadcastTransactionTable.t K) (ops : list (Z * bcast_op)) :
  BroadcastTransactionTable.insert s r now = (Some i, s1) →
  Forall (λ o, o.1 < BroadcastRecord.expires r) ops →
  is_Some (BroadcastTransactionTable.get (foldl bcast_exec s1 ops)
    (BroadcastRecord.source r) (BroadcastRecord.sequence r)).
Proof.
  intros Hi Hops. apply (remembered_get _ _ _ (BroadcastRecord.expires r)), run_remembered; [done|].
  by eapply insert_remembered.
Qed.

Lemma broadcast_remembered_witness :
  let r sq t := BroadcastRecord.mk 7 sq t [] 0 None false in
  is_Some (BroadcastTransactionTable.get (K:=2) (foldl bcast_exec (BroadcastTransactionTable.mk [r 1 100])
    [(10, BInsert (r 2 50)); (60, BInsert (r 3 90)); (99, BExpire); (99, BAck 7 1 4)]) 7 1).
Proof.
  apply (broadcast_remembered (K:=2) (BroadcastTransactionTable.new 2)
    (BroadcastRecord.mk 7 1 100 [] 0 None false) 0 0); [reflexivity|].
  repeat constructor; simpl; lia.
Defined.
