(* ===== verification/NwkCommand.v ===== *)
(** * NWK command frames (panweave-nwk/src/command.rs)

    The payloads of the network commands with their decoders and encoders, one
    module per command, and the views that read the lists inside them.  Some
    commands end with octets that take the rest of the buffer, so a command is
    decoded with its whole payload in hand. *)

From S2P Require Import Prelude Types Status Codec Wire Tlv.

(** [chunks_exact(n)]: the groups of [n] octets, a shorter rest left out. *)
Fixpoint chunks_from (fuel n : nat) (l : list Z) : list (list Z) :=
  match fuel with
  | O => []
  | S fuel => if (length l <? n)%nat then [] else take n l :: chunks_from fuel n (drop n l)
  end.
Definition chunks_exact (n : nat) (l : list Z) : list (list Z) := chunks_from (length l) n l.

(** [c[i]] of a chunk. *)
Definition octet (c : list Z) (i : nat) : Z := nth i c 0.

Module NwkCommandId.
Inductive t : Type :=
  | RouteRequest | RouteReply | NetworkStatus | Leave | RouteRecord | RejoinRequest | RejoinResponse
  | LinkStatus | NetworkReport | NetworkUpdate | EndDeviceTimeoutRequest | EndDeviceTimeoutResponse
  | LinkPowerDelta | CommissioningRequest | CommissioningResponse | Unknown (v : Z).

Definition raw (i : t) : Z :=
  match i with
  | RouteRequest => 0x01
  | RouteReply => 0x02
  | NetworkStatus => 0x03
  | Leave => 0x04
  | RouteRecord => 0x05
  | RejoinRequest => 0x06
  | RejoinResponse => 0x07
  | LinkStatus => 0x08
  | NetworkReport => 0x09
  | NetworkUpdate => 0x0A
  | EndDeviceTimeoutRequest => 0x0B
  | EndDeviceTimeoutResponse => 0x0C
  | LinkPowerDelta => 0x0D
  | CommissioningRequest => 0x0E
  | CommissioningResponse => 0x0F
  | Unknown v => v
  end.

Definition from_raw (v : Z) : t :=
  match v with
  | 0x01 => RouteRequest
  | 0x02 => RouteReply
  | 0x03 => NetworkStatus
  | 0x04 => Leave
  | 0x05 => RouteRecord
  | 0x06 => RejoinRequest
  | 0x07 => RejoinResponse
  | 0x08 => LinkStatus
  | 0x09 => NetworkReport
  | 0x0A => NetworkUpdate
  | 0x0B => EndDeviceTimeoutRequest
  | 0x0C => EndDeviceTimeoutResponse
  | 0x0D => LinkPowerDelta
  | 0x0E => CommissioningRequest
  | 0x0F => CommissioningResponse
  | other => Unknown other
  end.

Definition requires_security (i : t) : bool :=
  match i with
  | RouteRecord | RejoinRequest | RejoinResponse | CommissioningRequest | CommissioningResponse
  | Unknown _ => false
  | _ => true
  end.

#[global] Instance eq_dec : EqDecision t.
Proof. solve_decision. Defined.
End NwkCommandId.

(** ** Routes *)

Module ManyToOne.
Inductive t : Type := No | WithRouteCache | NoRouteCache | Reserved.

Definition from_bits (v : Z) : t :=
  match Z.land v 0x3 with
  | 0 => No
  | 1 => WithRouteCache
  | 2 => NoRouteCache
  | _ => Reserved
  end.

Definition bits (m : t) : Z :=
  match m with
  | No => 0
  | WithRouteCache => 1
  | NoRouteCache => 2
  | Reserved => 3
  end.

Definition is_many_to_one (m : t) : bool :=
  match m with WithRouteCache | NoRouteCache => true | _ => false end.

#[global] Instance eq_dec : EqDecision t.
Proof. solve_decision. Defined.
End ManyToOne.

Module RouteRequest.
Record t : Type := mk {
  many_to_one : ManyToOne.t;
  id : Z;
  dst : Z;
  path_cost : Z;
  dst_ieee : option Z;
  tlvs : list Z
}.

#[global] Instance Decode_t : Decode t :=
  options ← Reader.u8;
  let many_to_one := ManyToOne.from_bits (Z.shiftr options 3) in
  id ← Reader.u8;
  dst ← Reader.u16_le;
  path_cost ← Reader.u8;
  dst_ieee ← (if flag 0x20 options then a ← Reader.u64_le; mret (Some a) else mret None);
  tlvs ← Reader.take_rest;
  mret (mk many_to_one id dst path_cost dst_ieee tlvs).

Definition options (c : t) : Z :=
  Z.lor (Z.shiftl (ManyToOne.bits (many_to_one c)) 3) (Z.shiftl (Z_of_bool (is_some (dst_ieee c))) 5).

#[global] Instance Encode_t : Encode t := {
  encoded_len c := (5 + (if is_some (dst_ieee c) then 8 else 0) + length (tlvs c))%nat;
  encode c :=
    Writer.u8 (options c);;
    Writer.u8 (id c);;
    Writer.u16_le (dst c);;
    Writer.u8 (path_cost c);;
    match dst_ieee c with Some a => Writer.u64_le a | None => mret tt end;;
    Writer.bytes (tlvs c)
}.
End RouteRequest.

Module RouteReply.
Record t : Type := mk {
  id : Z;
  originator : Z;
  responder : Z;
  path_cost : Z;
  originator_ieee : option Z;
  responder_ieee : option Z;
  tlvs : list Z
}.

#[global] Instance Decode_t : Decode t :=
  options ← Reader.u8;
  id ← Reader.u8;
  originator ← Reader.u16_le;
  responder ← Reader.u16_le;
  path_cost ← Reader.u8;
  originator_ieee ← (if flag 0x10 options then a ← Reader.u64_le; mret (Some a) else mret None);
  responder_ieee ← (if flag 0x20 options then a ← Reader.u64_le; mret (Some a) else mret None);
  tlvs ← Reader.take_rest;
  mret (mk id originator responder path_cost originator_ieee responder_ieee tlvs).

Definition options (c : t) : Z :=
  Z.lor (Z.shiftl (Z_of_bool (is_some (originator_ieee c))) 4)
        (Z.shiftl (Z_of_bool (is_some (responder_ieee c))) 5).

#[global] Instance Encode_t : Encode t := {
  encoded_len c :=
    (7 + (if is_some (originator_ieee c) then 8 else 0) + (if is_some (responder_ieee c) then 8 else 0)
     + length (tlvs c))%nat;
  encode c :=
    Writer.u8 (options c);;
    Writer.u8 (id c);;
    Writer.u16_le (originator c);;
    Writer.u16_le (responder c);;
    Writer.u8 (path_cost c);;
    match originator_ieee c with Some a => Writer.u64_le a | None => mret tt end;;
    match responder_ieee c with Some a => Writer.u64_le a | None => mret tt end;;
    Writer.bytes (tlvs c)
}.
End RouteReply.

Module NetworkStatusCode.
Inductive t : Type :=
  | LegacyNoRoute | LegacyLinkFailure | LinkFailure | ParentLinkFailure | SourceRouteFailure
  | ManyToOneRouteFailure | AddressConflict | PanIdUpdate | NetworkAddressUpdate | UnknownCommand
  | PanIdConflictReport | Other (v : Z).

Definition raw (s : t) : Z :=
  match s with
  | LegacyNoRoute => 0x00
  | LegacyLinkFailure => 0x01
  | LinkFailure => 0x02
  | ParentLinkFailure => 0x09
  | SourceRouteFailure => 0x0B
  | ManyToOneRouteFailure => 0x0C
  | AddressConflict => 0x0D
  | PanIdUpdate => 0x0F
  | NetworkAddressUpdate => 0x10
  | UnknownCommand => 0x13
  | PanIdConflictReport => 0x14
  | Other v => v
  end.

Definition from_raw (v : Z) : t :=
  match v with
  | 0x00 => LegacyNoRoute
  | 0x01 => LegacyLinkFailure
  | 0x02 => LinkFailure
  | 0x09 => ParentLinkFailure
  | 0x0B => SourceRouteFailure
  | 0x0C => ManyToOneRouteFailure
  | 0x0D => AddressConflict
  | 0x0F => PanIdUpdate
  | 0x10 => NetworkAddressUpdate
  | 0x13 => UnknownCommand
  | 0x14 => PanIdConflictReport
  | other => Other other
  end.

Definition is_link_failure (s : t) : bool :=
  match s with LegacyNoRoute | LegacyLinkFailure | LinkFailure => true | _ => false end.

#[global] Instance eq_dec : EqDecision t.
Proof. solve_decision. Defined.
End NetworkStatusCode.

Module NetworkStatus.
Record t : Type := mk { status : NetworkStatusCode.t; dst : Z; tlvs : list Z }.

#[global] Instance Decode_t : Decode t :=
  v ← Reader.u8;
  dst ← Reader.u16_le;
  tlvs ← Reader.take_rest;
  mret (mk (NetworkStatusCode.from_raw v) dst tlvs).

#[global] Instance Encode_t : Encode t := {
  encoded_len c := (3 + length (tlvs c))%nat;
  encode c :=
    Writer.u8 (NetworkStatusCode.raw (status c));; Writer.u16_le (dst c);; Writer.bytes (tlvs c)
}.
End NetworkStatus.

Module RouteRecord.
Record t : Type := mk { raw_relays : list Z }.

Definition relay_count (c : t) : nat := length (raw_relays c) / 2.
Definition relays (c : t) : list Z := from_le <$> chunks_exact 2 (raw_relays c).

#[global] Instance Decode_t : Decode t :=
  n ← Reader.u8;
  let count := Z.to_nat n in
  relays ← Reader.bytes (count * 2);
  mret (mk relays).

#[global] Instance Encode_t : Encode t := {
  encoded_len c := (1 + length (raw_relays c))%nat;
  encode c :=
    if (255 <? relay_count c)%nat then fail (Unrepresentable "relay count")
    else Writer.u8 (Z.of_nat (relay_count c));; Writer.bytes (raw_relays c)
}.
End RouteRecord.

(** ** Joining and leaving *)

Module Leave.
Record t : Type := mk { rejoin : bool; request : bool; remove_children : bool }.

#[global] Instance Decode_t : Decode t :=
  o ← Reader.u8;
  mret (mk (flag 0x20 o) (flag 0x40 o) (flag 0x80 o)).

Definition octet (c : t) : Z :=
  Z.lor (Z.lor (Z.shiftl (Z_of_bool (rejoin c)) 5) (Z.shiftl (Z_of_bool (request c)) 6))
        (Z.shiftl (Z_of_bool (remove_children c)) 7).

#[global] Instance Encode_t : Encode t := {
  encoded_len _ := 1%nat;
  encode c := Writer.u8 (octet c)
}.
End Leave.

Module RejoinRequest.
(** The capability is its octet. *)
Record t : Type := mk { capability : Z }.

#[global] Instance Decode_t : Decode t := v ← Reader.u8; mret (mk v).
#[global] Instance Encode_t : Encode t := {
  encoded_len _ := 1%nat;
  encode c := Writer.u8 (capability c)
}.
End RejoinRequest.

Module RejoinResponse.
Record t : Type := mk { address : Z; status : MacStatus.t }.

#[global] Instance Decode_t : Decode t :=
  address ← Reader.u16_le;
  s ← Reader.u8;
  mret (mk address (MacStatus.from_raw s)).
#[global] Instance Encode_t : Encode t := {
  encoded_len _ := 3%nat;
  encode c := Writer.u16_le (address c);; Writer.u8 (MacStatus.raw (status c))
}.
End RejoinResponse.

(** ** Link status *)

Module LinkStatusEntry.
Record t : Type := mk { address : Z; incoming_cost : Z; outgoing_cost : Z }.
End LinkStatusEntry.

Module LinkStatus.
Record t : Type := mk { first_frame : bool; last_frame : bool; raw_entries : list Z }.

Definition MAX_ENTRIES : nat := 31.
Definition entry_count (c : t) : nat := length (raw_entries c) / 3.

Definition decode_entry (c : list Z) : LinkStatusEntry.t :=
  LinkStatusEntry.mk (from_le [octet c 0; octet c 1]) (Z.land (octet c 2) 0x7)
    (Z.land (Z.shiftr (octet c 2) 4) 0x7).
Definition entries (c : t) : list LinkStatusEntry.t := decode_entry <$> chunks_exact 3 (raw_entries c).

Definition encode_entry (e : LinkStatusEntry.t) : list Z :=
  to_le 2 (LinkStatusEntry.address e) ++
  [Z.lor (Z.land (LinkStatusEntry.incoming_cost e) 0x7)
         (Z.shiftl (Z.land (LinkStatusEntry.outgoing_cost e) 0x7) 4)].

#[global] Instance Decode_t : Decode t :=
  o ← Reader.u8;
  let count := Z.to_nat (Z.land o 0x1F) in
  entries ← Reader.bytes (count * 3);
  mret (mk (flag 0x20 o) (flag 0x40 o) entries).

Definition octet (c : t) : Z :=
  Z.lor (Z.lor (wrap 8 (Z.of_nat (entry_count c))) (Z.shiftl (Z_of_bool (first_frame c)) 5))
        (Z.shiftl (Z_of_bool (last_frame c)) 6).

#[global] Instance Encode_t : Encode t := {
  encoded_len c := (1 + length (raw_entries c))%nat;
  encode c :=
    if (MAX_ENTRIES <? entry_count c)%nat then fail (Unrepresentable "link status entry count")
    else Writer.u8 (octet c);; Writer.bytes (raw_entries c)
}.
End LinkStatus.

(** ** PAN identifier reports and updates *)

Module NetworkReport.
Record t : Type := mk { report_id : Z; epid : Z; info : list Z }.

Definition PAN_ID_CONFLICT : Z := 0.
Definition pan_ids (c : t) : list Z := from_le <$> chunks_exact 2 (info c).

#[global] Instance Decode_t : Decode t :=
  o ← Reader.u8;
  let count := Z.to_nat (Z.land o 0x1F) in
  let report_id := Z.shiftr o 5 in
  epid ← Reader.u64_le;
  info ← (if report_id =? PAN_ID_CONFLICT then Reader.bytes (count * 2) else Reader.take_rest);
  mret (mk report_id epid info).

Definition count (c : t) : nat := if report_id c =? PAN_ID_CONFLICT then (length (info c) / 2)%nat else 0%nat.
Definition octet (c : t) : Z :=
  Z.lor (wrap 8 (Z.of_nat (count c))) (wrap 8 (Z.shiftl (report_id c) 5)).

#[global] Instance Encode_t : Encode t := {
  encoded_len c := (9 + length (info c))%nat;
  encode c :=
    if (0x1F <? Z.of_nat (count c)) then fail (Unrepresentable "report count")
    else Writer.u8 (octet c);; Writer.u64_le (epid c);; Writer.bytes (info c)
}.
End NetworkReport.

Module NetworkUpdate.
Record t : Type := mk { update_id : Z; epid : Z; nwk_update_id : Z; new_pan_id : Z }.

Definition PAN_ID_UPDATE : Z := 0.

#[global] Instance Decode_t : Decode t :=
  o ← Reader.u8;
  let count := Z.land o 0x1F in
  let update_id := Z.shiftr o 5 in
  epid ← Reader.u64_le;
  nwk_update_id ← Reader.u8;
  if negb (update_id =? PAN_ID_UPDATE) || negb (count =? 1)
  then fail (Unsupported "network update information type")
  else
    new_pan_id ← Reader.u16_le;
    mret (mk update_id epid nwk_update_id new_pan_id).

#[global] Instance Encode_t : Encode t := {
  encoded_len _ := 12%nat;
  encode c :=
    Writer.u8 (Z.lor 1 (wrap 8 (Z.shiftl (update_id c) 5)));;
    Writer.u64_le (epid c);;
    Writer.u8 (nwk_update_id c);;
    Writer.u16_le (new_pan_id c)
}.
End NetworkUpdate.

(** ** End device timeouts *)

Module TimeoutIndex.
Definition MAX : Z := 14.
Definition DEFAULT : Z := 8.

(** [60 * (1u32 << self.0)] *)
Definition seconds (i : Z) : option Z :=
  if i =? 0 then Some 10
  else if (1 <=? i) && (i <=? 14) then Some (60 * Z.shiftl 1 i)
  else None.

Definition is_valid (i : Z) : bool := i <=? MAX.
End TimeoutIndex.

Module EndDeviceTimeoutRequest.
Record t : Type := mk { timeout : Z; configuration : Z }.

#[global] Instance Decode_t : Decode t :=
  timeout ← Reader.u8;
  configuration ← Reader.u8;
  mret (mk timeout configuration).
#[global] Instance Encode_t : Encode t := {
  encoded_len _ := 2%nat;
  encode c := Writer.u8 (timeout c);; Writer.u8 (configuration c)
}.
End EndDeviceTimeoutRequest.

Module TimeoutResponseStatus.
Inductive t : Type := Success | IncorrectValue | UnsupportedFeature | Other (v : Z).

Definition raw (s : t) : Z :=
  match s with
  | Success => 0
  | IncorrectValue => 1
  | UnsupportedFeature => 2
  | Other v => v
  end.

Definition from_raw (v : Z) : t :=
  match v with
  | 0 => Success
  | 1 => IncorrectValue
  | 2 => UnsupportedFeature
  | other => Other other
  end.
End TimeoutResponseStatus.

Module ParentInformation.
Definition MAC_DATA_POLL_KEEPALIVE : Z := 2 ^ 0.
Definition TIMEOUT_REQUEST_KEEPALIVE : Z := 2 ^ 1.
Definition POWER_NEGOTIATION : Z := 2 ^ 2.

Definition mac_data_poll_keepalive : Z → bool := flag MAC_DATA_POLL_KEEPALIVE.
Definition timeout_request_keepalive : Z → bool := flag TIMEOUT_REQUEST_KEEPALIVE.
Definition power_negotiation : Z → bool := flag POWER_NEGOTIATION.
End ParentInformation.

Module EndDeviceTimeoutResponse.
Record t : Type := mk { status : TimeoutResponseStatus.t; parent_info : Z }.

#[global] Instance Decode_t : Decode t :=
  s ← Reader.u8;
  parent_info ← Reader.u8;
  mret (mk (TimeoutResponseStatus.from_raw s) parent_info).
#[global] Instance Encode_t : Encode t := {
  encoded_len _ := 2%nat;
  encode c := Writer.u8 (TimeoutResponseStatus.raw (status c));; Writer.u8 (parent_info c)
}.
End EndDeviceTimeoutResponse.

(** ** Link power *)

Module LinkPowerDeltaType.
Inductive t : Type := Notification | Request | Response | Reserved.

#[global] Instance eq_dec : EqDecision t.
Proof. solve_decision. Defined.
End LinkPowerDeltaType.

Module LinkPowerDelta.
Record t : Type := mk { kind : LinkPowerDeltaType.t; raw_entries : list Z }.

(** [i8::from_le_bytes] *)
Definition to_i8 (b : Z) : Z := if b <? 128 then b else b - 256.
Definition entries (c : t) : list (Z * Z) :=
  (λ c, (from_le [octet c 0; octet c 1], to_i8 (octet c 2))) <$> chunks_exact 3 (raw_entries c).

Definition kind_of (o : Z) : LinkPowerDeltaType.t :=
  match Z.land o 0x3 with
  | 0 => LinkPowerDeltaType.Notification
  | 1 => LinkPowerDeltaType.Request
  | 2 => LinkPowerDeltaType.Response
  | _ => LinkPowerDeltaType.Reserved
  end.
Definition kind_raw (k : LinkPowerDeltaType.t) : Z :=
  match k with
  | LinkPowerDeltaType.Notification => 0
  | LinkPowerDeltaType.Request => 1
  | LinkPowerDeltaType.Response => 2
  | LinkPowerDeltaType.Reserved => 3
  end.

#[global] Instance Decode_t : Decode t :=
  o ← Reader.u8;
  let kind := kind_of o in
  n ← Reader.u8;
  let count := Z.to_nat n in
  entries ← Reader.bytes (count * 3);
  mret (mk kind entries).

Definition entry_count (c : t) : nat := length (raw_entries c) / 3.

#[global] Instance Encode_t : Encode t := {
  encoded_len c := (2 + length (raw_entries c))%nat;
  encode c :=
    if (255 <? entry_count c)%nat then fail (Unrepresentable "power list count")
    else
      Writer.u8 (kind_raw (kind c));;
      Writer.u8 (Z.of_nat (entry_count c));;
      Writer.bytes (raw_entries c)
}.
End LinkPowerDelta.

(** ** Network commissioning *)

Module CommissioningType.
Inductive t : Type := InitialJoin | Rejoin | EstablishTrustedLink | Other (v : Z).

Definition raw (k : t) : Z :=
  match k with
  | InitialJoin => 0
  | Rejoin => 1
  | EstablishTrustedLink => 2
  | Other v => v
  end.

Definition from_raw (v : Z) : t :=
  match v with
  | 0 => InitialJoin
  | 1 => Rejoin
  | 2 => EstablishTrustedLink
  | other => Other other
  end.

#[global] Instance eq_dec : EqDecision t.
Proof. solve_decision. Defined.
End CommissioningType.

Module CommissioningRequest.
Record t : Type := mk { kind : CommissioningType.t; capability : Z; tlvs : list Z }.

Definition tlv_set (c : t) : result TlvSet.t TlvError := TlvSet.validate (tlvs c) (λ _, false).

#[global] Instance Decode_t : Decode t :=
  k ← Reader.u8;
  capability ← Reader.u8;
  tlvs ← Reader.take_rest;
  mret (mk (CommissioningType.from_raw k) capability tlvs).
#[global] Instance Encode_t : Encode t := {
  encoded_len c := (2 + length (tlvs c))%nat;
  encode c :=
    Writer.u8 (CommissioningType.raw (kind c));; Writer.u8 (capability c);; Writer.bytes (tlvs c)
}.
End CommissioningRequest.

Module CommissioningResponse.
Record t : Type := mk { address : Z; status : MacStatus.t; tlvs : list Z }.

Definition STATUS_ADDRESS_CONFLICT : Z := 0xF0.

#[global] Instance Decode_t : Decode t :=
  address ← Reader.u16_le;
  s ← Reader.u8;
  tlvs ← Reader.take_rest;
  mret (mk address (MacStatus.from_raw s) tlvs).
#[global] Instance Encode_t : Encode t := {
  encoded_len c := (3 + length (tlvs c))%nat;
  encode c :=
    Writer.u16_le (address c);; Writer.u8 (MacStatus.raw (status c));; Writer.bytes (tlvs c)
}.
End CommissioningResponse.

(** ** Commands *)

Module NwkCommand.
Inductive t : Type :=
  | RouteRequest (c : RouteRequest.t)
  | RouteReply (c : RouteReply.t)
  | NetworkStatus (c : NetworkStatus.t)
  | Leave (c : Leave.t)
  | RouteRecord (c : RouteRecord.t)
  | RejoinRequest (c : RejoinRequest.t)
  | RejoinResponse (c : RejoinResponse.t)
  | LinkStatus (c : LinkStatus.t)
  | NetworkReport (c : NetworkReport.t)
  | NetworkUpdate (c : NetworkUpdate.t)
  | EndDeviceTimeoutRequest (c : EndDeviceTimeoutRequest.t)
  | EndDeviceTimeoutResponse (c : EndDeviceTimeoutResponse.t)
  | LinkPowerDelta (c : LinkPowerDelta.t)
  | CommissioningRequest (c : CommissioningRequest.t)
  | CommissioningResponse (c : CommissioningResponse.t)
  | Unknown (id : Z) (payload : list Z).

Definition id (c : t) : NwkCommandId.t :=
  match c with
  | RouteRequest _ => NwkCommandId.RouteRequest
  | RouteReply _ => NwkCommandId.RouteReply
  | NetworkStatus _ => NwkCommandId.NetworkStatus
  | Leave _ => NwkCommandId.Leave
  | RouteRecord _ => NwkCommandId.RouteRecord
  | RejoinRequest _ => NwkCommandId.RejoinRequest
  | RejoinResponse _ => NwkCommandId.RejoinResponse
  | LinkStatus _ => NwkCommandId.LinkStatus
  | NetworkReport _ => NwkCommandId.NetworkReport
  | NetworkUpdate _ => NwkCommandId.NetworkUpdate
  | EndDeviceTimeoutRequest _ => NwkCommandId.EndDeviceTimeoutRequest
  | EndDeviceTimeoutResponse _ => NwkCommandId.EndDeviceTimeoutResponse
  | LinkPowerDelta _ => NwkCommandId.LinkPowerDelta
  | CommissioningRequest _ => NwkCommandId.CommissioningRequest
  | CommissioningResponse _ => NwkCommandId.CommissioningResponse
  | Unknown id _ => NwkCommandId.Unknown id
  end.

#[global] Instance Decode_t : Decode t :=
  v ← Reader.u8;
  match NwkCommandId.from_raw v with
  | NwkCommandId.RouteRequest => c ← decode; mret (RouteRequest c)
  | NwkCommandId.RouteReply => c ← decode; mret (RouteReply c)
  | NwkCommandId.NetworkStatus => c ← decode; mret (NetworkStatus c)
  | NwkCommandId.Leave => c ← decode; mret (Leave c)
  | NwkCommandId.RouteRecord => c ← decode; mret (RouteRecord c)
  | NwkCommandId.RejoinRequest => c ← decode; mret (RejoinRequest c)
  | NwkCommandId.RejoinResponse => c ← decode; mret (RejoinResponse c)
  | NwkCommandId.LinkStatus => c ← decode; mret (LinkStatus c)
  | NwkCommandId.NetworkReport => c ← decode; mret (NetworkReport c)
  | NwkCommandId.NetworkUpdate => c ← decode; mret (NetworkUpdate c)
  | NwkCommandId.EndDeviceTimeoutRequest => c ← decode; mret (EndDeviceTimeoutRequest c)
  | NwkCommandId.EndDeviceTimeoutResponse => c ← decode; mret (EndDeviceTimeoutResponse c)
  | NwkCommandId.LinkPowerDelta => c ← decode; mret (LinkPowerDelta c)
  | NwkCommandId.CommissioningRequest => c ← decode; mret (CommissioningRequest c)
  | NwkCommandId.CommissioningResponse => c ← decode; mret (CommissioningResponse c)
  | NwkCommandId.Unknown id => payload ← Reader.take_rest; mret (Unknown id payload)
  end.

#[global] Instance Encode_t : Encode t := {
  encoded_len c :=
    (1 + match c with
         | RouteRequest c => encoded_len c
         | RouteReply c => encoded_len c
         | NetworkStatus c => encoded_len c
         | Leave c => encoded_len c
         | RouteRecord c => encoded_len c
         | RejoinRequest c => encoded_len c
         | RejoinResponse c => encoded_len c
         | LinkStatus c => encoded_len c
         | NetworkReport c => encoded_len c
         | NetworkUpdate c => encoded_len c
         | EndDeviceTimeoutRequest c => encoded_len c
         | EndDeviceTimeoutResponse c => encoded_len c
         | LinkPowerDelta c => encoded_len c
         | CommissioningRequest c => encoded_len c
         | CommissioningResponse c => encoded_len c
         | Unknown _ payload => length payload
         end)%nat;
  encode c :=
    Writer.u8 (NwkCommandId.raw (id c));;
    match c with
    | RouteRequest c => encode c
    | RouteReply c => encode c
    | NetworkStatus c => encode c
    | Leave c => encode c
    | RouteRecord c => encode c
    | RejoinRequest c => encode c
    | RejoinResponse c => encode c
    | LinkStatus c => encode c
    | NetworkReport c => encode c
    | NetworkUpdate c => encode c
    | EndDeviceTimeoutRequest c => encode c
    | EndDeviceTimeoutResponse c => encode c
    | LinkPowerDelta c => encode c
    | CommissioningRequest c => encode c
    | CommissioningResponse c => encode c
    | Unknown _ payload => Writer.bytes payload
    end
}.
End NwkCommand.

(** ** Wire format *)

(** A command the stack could have received: the fields have their widths, an
    enumeration parses back to its constructor, and a list holds whole entries
    of the number its count field can say. *)
Module NwkWf.
Definition rest (tlvs : list Z) : Prop := bytes_ok tlvs.
Definition whole (size most : nat) (l : list Z) : Prop :=
  bytes_ok l ∧ ∃ n, length l = (n * size)%nat ∧ (n ≤ most)%nat.
Definition coded {A} (raw : A → Z) (from_raw : Z → A) (a : A) : Prop :=
  uint 8 (raw a) ∧ from_raw (raw a) = a.

Definition route_request (c : RouteRequest.t) : Prop :=
  uint 8 (RouteRequest.id c) ∧ uint 16 (RouteRequest.dst c) ∧ uint 8 (RouteRequest.path_cost c) ∧
  from_option (uint 64) True (RouteRequest.dst_ieee c) ∧ rest (RouteRequest.tlvs c).

Definition route_reply (c : RouteReply.t) : Prop :=
  uint 8 (RouteReply.id c) ∧ uint 16 (RouteReply.originator c) ∧ uint 16 (RouteReply.responder c) ∧
  uint 8 (RouteReply.path_cost c) ∧ from_option (uint 64) True (RouteReply.originator_ieee c) ∧
  from_option (uint 64) True (RouteReply.responder_ieee c) ∧ rest (RouteReply.tlvs c).

Definition network_report (c : NetworkReport.t) : Prop :=
  uint 3 (NetworkReport.report_id c) ∧ uint 64 (NetworkReport.epid c) ∧
  if NetworkReport.report_id c =? NetworkReport.PAN_ID_CONFLICT then whole 2 31 (NetworkReport.info c)
  else rest (NetworkReport.info c).

Definition command (c : NwkCommand.t) : Prop :=
  match c with
  | NwkCommand.RouteRequest c => route_request c
  | NwkCommand.RouteReply c => route_reply c
  | NwkCommand.NetworkStatus c =>
      coded NetworkStatusCode.raw NetworkStatusCode.from_raw (NetworkStatus.status c) ∧
      uint 16 (NetworkStatus.dst c) ∧ rest (NetworkStatus.tlvs c)
  | NwkCommand.Leave c => True
  | NwkCommand.RouteRecord c => whole 2 255 (RouteRecord.raw_relays c)
  | NwkCommand.RejoinRequest c => uint 8 (RejoinRequest.capability c)
  | NwkCommand.RejoinResponse c =>
      uint 16 (RejoinResponse.address c) ∧
      coded MacStatus.raw MacStatus.from_raw (RejoinResponse.status c)
  | NwkCommand.LinkStatus c => whole 3 31 (LinkStatus.raw_entries c)
  | NwkCommand.NetworkReport c => network_report c
  | NwkCommand.NetworkUpdate c =>
      NetworkUpdate.update_id c = NetworkUpdate.PAN_ID_UPDATE ∧ uint 64 (NetworkUpdate.epid c) ∧
      uint 8 (NetworkUpdate.nwk_update_id c) ∧ uint 16 (NetworkUpdate.new_pan_id c)
  | NwkCommand.EndDeviceTimeoutRequest c =>
      uint 8 (EndDeviceTimeoutRequest.timeout c) ∧ uint 8 (EndDeviceTimeoutRequest.configuration c)
  | NwkCommand.EndDeviceTimeoutResponse c =>
      coded TimeoutResponseStatus.raw TimeoutResponseStatus.from_raw (EndDeviceTimeoutResponse.status c) ∧
      uint 8 (EndDeviceTimeoutResponse.parent_info c)
  | NwkCommand.LinkPowerDelta c => whole 3 255 (LinkPowerDelta.raw_entries c)
  | NwkCommand.CommissioningRequest c =>
      coded CommissioningType.raw CommissioningType.from_raw (CommissioningRequest.kind c) ∧
      uint 8 (CommissioningRequest.capability c) ∧ rest (CommissioningRequest.tlvs c)
  | NwkCommand.CommissioningResponse c =>
      uint 16 (CommissioningResponse.address c) ∧
      coded MacStatus.raw MacStatus.from_raw (CommissioningResponse.status c) ∧
      rest (CommissioningResponse.tlvs c)
  | NwkCommand.Unknown id payload =>
      uint 8 id ∧ NwkCommandId.from_raw id = NwkCommandId.Unknown id ∧ rest payload
  end.
End NwkWf.

Definition nwk_command_body (c : NwkCommand.t) : list Z :=
  match c with
  | NwkCommand.RouteRequest c =>
      [RouteRequest.options c] ++ [RouteRequest.id c] ++ to_le 2 (RouteRequest.dst c) ++
      [RouteRequest.path_cost c] ++ from_option (to_le 8) [] (RouteRequest.dst_ieee c) ++ RouteRequest.tlvs c
  | NwkCommand.RouteReply c =>
      [RouteReply.options c] ++ [RouteReply.id c] ++ to_le 2 (RouteReply.originator c) ++
      to_le 2 (RouteReply.responder c) ++ [RouteReply.path_cost c] ++
      from_option (to_le 8) [] (RouteReply.originator_ieee c) ++
      from_option (to_le 8) [] (RouteReply.responder_ieee c) ++ RouteReply.tlvs c
  | NwkCommand.NetworkStatus c =>
      [NetworkStatusCode.raw (NetworkStatus.status c)] ++ to_le 2 (NetworkStatus.dst c) ++ NetworkStatus.tlvs c
  | NwkCommand.Leave c => [Leave.octet c]
  | NwkCommand.RouteRecord c => [Z.of_nat (RouteRecord.relay_count c)] ++ RouteRecord.raw_relays c
  | NwkCommand.RejoinRequest c => [RejoinRequest.capability c]
  | NwkCommand.RejoinResponse c =>
      to_le 2 (RejoinResponse.address c) ++ [MacStatus.raw (RejoinResponse.status c)]
  | NwkCommand.LinkStatus c => [LinkStatus.octet c] ++ LinkStatus.raw_entries c
  | NwkCommand.NetworkReport c =>
      [NetworkReport.octet c] ++ to_le 8 (NetworkReport.epid c) ++ NetworkReport.info c
  | NwkCommand.NetworkUpdate c =>
      [Z.lor 1 (wrap 8 (Z.shiftl (NetworkUpdate.update_id c) 5))] ++ to_le 8 (NetworkUpdate.epid c) ++
      [NetworkUpdate.nwk_update_id c] ++ to_le 2 (NetworkUpdate.new_pan_id c)
  | NwkCommand.EndDeviceTimeoutRequest c =>
      [EndDeviceTimeoutRequest.timeout c] ++ [EndDeviceTimeoutRequest.configuration c]
  | NwkCommand.EndDeviceTimeoutResponse c =>
      [TimeoutResponseStatus.raw (EndDeviceTimeoutResponse.status c)] ++ [EndDeviceTimeoutResponse.parent_info c]
  | NwkCommand.LinkPowerDelta c =>
      [LinkPowerDelta.kind_raw (LinkPowerDelta.kind c)] ++ [Z.of_nat (LinkPowerDelta.entry_count c)] ++
      LinkPowerDelta.raw_entries c
  | NwkCommand.CommissioningRequest c =>
      [CommissioningType.raw (CommissioningRequest.kind c)] ++ [CommissioningRequest.capability c] ++
      CommissioningRequest.tlvs c
  | NwkCommand.CommissioningResponse c =>
      to_le 2 (CommissioningResponse.address c) ++ [MacStatus.raw (CommissioningResponse.status c)] ++
      CommissioningResponse.tlvs c
  | NwkCommand.Unknown _ payload => payload
  end.

Definition nwk_command_wire (c : NwkCommand.t) : list Z :=
  [NwkCommandId.raw (NwkCommand.id c)] ++ nwk_command_body c.

Section encoding.
Lemma whole_div size most l :
  (0 < size)%nat → NwkWf.whole size most l →
  (length l / size ≤ most)%nat ∧ length l = (length l / size * size)%nat.
Proof. intros Hs (_ & n & Hl & Hn). rewrite Hl, Nat.div_mul by lia. done. Qed.

Lemma report_count c : NwkWf.network_report c → (NetworkReport.count c ≤ 31)%nat.
Proof.
  intros (_ & _ & Hi). unfold NetworkReport.count. destruct (_ =? _); [|lia].
  by apply (whole_div 2) in Hi as [??]; [|lia].
Qed.

Lemma nwk_command_writes c : NwkWf.command c → writes (encode c) (nwk_command_wire c).
Proof.
  intros Hwf. cbn [encode NwkCommand.Encode_t]. unfold nwk_command_wire. write_field.
  destruct c as [c|c|c|c|c|c|c|c|c|c|c|c|c|c|c|i p]; cbn [nwk_command_body encode RouteRequest.Encode_t
    RouteReply.Encode_t NetworkStatus.Encode_t Leave.Encode_t RouteRecord.Encode_t RejoinRequest.Encode_t
    RejoinResponse.Encode_t LinkStatus.Encode_t NetworkReport.Encode_t NetworkUpdate.Encode_t
    EndDeviceTimeoutRequest.Encode_t EndDeviceTimeoutResponse.Encode_t LinkPowerDelta.Encode_t
    CommissioningRequest.Encode_t CommissioningResponse.Encode_t NwkWf.command] in *.
  all: try solve [write_fields].
  - apply (whole_div 2) in Hwf as [Hn _]; [|lia]. unfold RouteRecord.relay_count.
    rewrite (proj2 (Nat.ltb_ge _ _)) by lia. write_fields.
  - apply (whole_div 3) in Hwf as [Hn _]; [|lia]. unfold LinkStatus.entry_count, LinkStatus.MAX_ENTRIES.
    rewrite (proj2 (Nat.ltb_ge _ _)) by lia. write_fields.
  - apply report_count in Hwf. rewrite (proj2 (Z.ltb_ge _ _)) by lia. write_fields.
  - apply (whole_div 3) in Hwf as [Hn _]; [|lia]. unfold LinkPowerDelta.entry_count.
    rewrite (proj2 (Nat.ltb_ge _ _)) by lia. write_fields.
Qed.

Lemma nwk_command_len c : NwkWf.command c → encoded_len c = length (nwk_command_wire c).
Proof.
  intros Hwf. unfold nwk_command_wire. rewrite length_app.
  destruct c as [[]|[]|[]|[]|[]|[]|[]|[]|[]|[]|[]|[]|[]|[]|[]|i p]; cbn [nwk_command_body encoded_len
    NwkCommand.Encode_t RouteRequest.Encode_t
    RouteReply.Encode_t NetworkStatus.Encode_t Leave.Encode_t RouteRecord.Encode_t RejoinRequest.Encode_t
    RejoinResponse.Encode_t LinkStatus.Encode_t NetworkReport.Encode_t NetworkUpdate.Encode_t
    EndDeviceTimeoutRequest.Encode_t EndDeviceTimeoutResponse.Encode_t LinkPowerDelta.Encode_t
    CommissioningRequest.Encode_t CommissioningResponse.Encode_t].
  all: try solve [len].
  all: repeat match goal with o : option Z |- _ => destruct o end; len.
Qed.
End encoding.

(** ** Decoding *)

Section decoding.
(** The octets of flags and counts, read back. *)
Lemma route_request_options c :
  ManyToOne.from_bits (Z.shiftr (RouteRequest.options c) 3) = RouteRequest.many_to_one c ∧
  flag 0x20 (RouteRequest.options c) = is_some (RouteRequest.dst_ieee c).
Proof. destruct c as [[] ? ? ? []]; done. Qed.

Lemma route_reply_options c :
  flag 0x10 (RouteReply.options c) = is_some (RouteReply.originator_ieee c) ∧
  flag 0x20 (RouteReply.options c) = is_some (RouteReply.responder_ieee c).
Proof. destruct c as [? ? ? ? [] []]; done. Qed.

Lemma leave_octet c :
  Leave.mk (flag 0x20 (Leave.octet c)) (flag 0x40 (Leave.octet c)) (flag 0x80 (Leave.octet c)) = c.
Proof. by destruct c as [[] [] []]. Qed.

(** A five-bit count below flags, by enumeration of the counts. *)
Lemma below_32 (P : nat → bool) n : forallb P (seq 0 32) = true → (n ≤ 31)%nat → P n = true.
Proof. intros HP Hn. rewrite forallb_forall in HP. apply HP, in_seq. lia. Qed.

Lemma link_status_octet n f l :
  (n ≤ 31)%nat →
  let o := Z.lor (Z.lor (wrap 8 (Z.of_nat n)) (Z.shiftl (Z_of_bool f) 5)) (Z.shiftl (Z_of_bool l) 6) in
  Z.to_nat (Z.land o 0x1F) = n ∧ flag 0x20 o = f ∧ flag 0x40 o = l.
Proof.
  intros Hn o. pose (P k := let o := Z.lor (Z.lor (wrap 8 (Z.of_nat k)) (Z.shiftl (Z_of_bool f) 5))
    (Z.shiftl (Z_of_bool l) 6) in
    (Z.to_nat (Z.land o 0x1F) =? k)%nat && eqb (flag 0x20 o) f && eqb (flag 0x40 o) l).
  assert (P n = true) as HP by (apply below_32; [destruct f, l; reflexivity|done]).
  apply andb_true_iff in HP as [[Hc%Nat.eqb_eq Hf%eqb_prop]%andb_true_iff Hl%eqb_prop]. done.
Qed.

Lemma network_report_octet n i :
  (n ≤ 31)%nat → uint 3 i →
  let o := Z.lor (wrap 8 (Z.of_nat n)) (wrap 8 (Z.shiftl i 5)) in
  Z.to_nat (Z.land o 0x1F) = n ∧ Z.shiftr o 5 = i.
Proof.
  intros Hn Hi o. pose (P k := let o := Z.lor (wrap 8 (Z.of_nat k)) (wrap 8 (Z.shiftl i 5)) in
    (Z.to_nat (Z.land o 0x1F) =? k)%nat && (Z.shiftr o 5 =? i)).
  assert (P n = true) as HP.
  { apply below_32; [|done]. assert (i = 0 ∨ i = 1 ∨ i = 2 ∨ i = 3 ∨ i = 4 ∨ i = 5 ∨ i = 6 ∨ i = 7) as Hc
      by (unfold uint in Hi; lia). by repeat destruct Hc as [->|Hc]; [..|subst i]. }
  by apply andb_true_iff in HP as [?%Nat.eqb_eq ?%Z.eqb_eq].
Qed.

Lemma kind_raw_of k : LinkPowerDelta.kind_of (LinkPowerDelta.kind_raw k) = k.
Proof. by destruct k. Qed.

Lemma nwk_id_from_raw c :
  NwkWf.command c → NwkCommandId.from_raw (NwkCommandId.raw (NwkCommand.id c)) = NwkCommand.id c.
Proof. destruct c; try done. by intros (_ & ? & _). Qed.

Lemma whole_Field size most l :
  (0 < size)%nat → NwkWf.whole size most l → length l = (length l / size * size)%nat ∧ bytes_ok l.
Proof. intros Hs Hl. split; [by eapply whole_div|by destruct Hl]. Qed.

Lemma route_request_decodes c :
  NwkWf.route_request c → decodes_all decode (nwk_command_body (NwkCommand.RouteRequest c)) c.
Proof.
  intros (? & ? & ? & ? & ?). unfold decode, RouteRequest.Decode_t. cbn [nwk_command_body].
  destruct (route_request_options c) as [Hm Hf]. read_field_end. cbv zeta. rewrite Hm.
  do 3 read_field_end. rewrite Hf. read_field_end; [done|]. read_field_end. destruct c. apply decodes_all_ret.
Qed.

Lemma route_reply_decodes c :
  NwkWf.route_reply c → decodes_all decode (nwk_command_body (NwkCommand.RouteReply c)) c.
Proof.
  intros (? & ? & ? & ? & ? & ? & ?). unfold decode, RouteReply.Decode_t. cbn [nwk_command_body].
  destruct (route_reply_options c) as [Ho Hr]. do 5 read_field_end. rewrite Ho, Hr.
  do 2 (read_field_end; [done|]). read_field_end. destruct c. apply decodes_all_ret.
Qed.

Lemma network_report_decodes c :
  NwkWf.network_report c → decodes_all decode (nwk_command_body (NwkCommand.NetworkReport c)) c.
Proof.
  intros Hwf. pose proof (report_count c Hwf) as Hn. destruct Hwf as (Hi & ? & Hw).
  unfold decode, NetworkReport.Decode_t. cbn [nwk_command_body]. read_field_end. cbv zeta.
  destruct (network_report_octet (NetworkReport.count c) (NetworkReport.report_id c) Hn Hi) as [Hc Hs].
  unfold NetworkReport.octet. rewrite Hc, Hs. read_field_end.
  destruct (NetworkReport.report_id c =? NetworkReport.PAN_ID_CONFLICT) eqn:E.
  - unfold NetworkReport.count. rewrite E. eapply field_last; [apply bytes_Field|done| |by destruct c].
    by eapply whole_Field; [lia|].
  - read_field_end. destruct c. apply decodes_all_ret.
Qed.

(** A record whose enumerated field is read back. *)
Ltac read_back :=
  cbn; match goal with H : _ = ?s |- context[?s] => rewrite H end; apply decodes_all_ret.

Lemma nwk_command_decodes c : NwkWf.command c → decodes_all decode (nwk_command_wire c) c.
Proof.
  intros Hwf. unfold decode, NwkCommand.Decode_t, nwk_command_wire. read_field_end.
  rewrite nwk_id_from_raw by done.
  destruct c as [c|c|c|c|c|c|c|c|c|c|c|c|c|c|c|i p]; cbn [NwkCommand.id].
  16: { cbn [nwk_command_body]. read_field_end. apply decodes_all_ret. }
  all: eapply decodes_all_map;
    try solve [by apply route_request_decodes|by apply route_reply_decodes|by apply network_report_decodes].
  all: destruct c; cbn [NwkWf.command] in Hwf; unfold NwkWf.coded in Hwf; cbn in Hwf; destruct_and?.
  all: unfold decode, NetworkStatus.Decode_t, Leave.Decode_t, RouteRecord.Decode_t, RejoinRequest.Decode_t,
    RejoinResponse.Decode_t, LinkStatus.Decode_t, NetworkUpdate.Decode_t, EndDeviceTimeoutRequest.Decode_t,
    EndDeviceTimeoutResponse.Decode_t, LinkPowerDelta.Decode_t, CommissioningRequest.Decode_t,
    CommissioningResponse.Decode_t; cbn [nwk_command_body]; cbv zeta.
  - do 3 read_field_end. read_back.
  - read_field_end. cbn [Leave.octet]. rewrite leave_octet. apply decodes_all_ret.
  - read_field_end. rewrite Nat2Z.id. eapply field_last; [apply bytes_Field|done| |done].
    by eapply whole_Field; [lia|].
  - read_field_end. apply decodes_all_ret.
  - read_field_end. read_field_end. read_back.
  - pose proof (whole_div 3 31 _ ltac:(lia) Hwf) as [Hn _]. read_field_end.
    destruct (link_status_octet (length raw_entries / 3) first_frame last_frame Hn) as (Hc & Hf & Hl).
    unfold LinkStatus.octet, LinkStatus.entry_count.
    cbn [LinkStatus.raw_entries LinkStatus.first_frame LinkStatus.last_frame]. rewrite Hc.
    eapply field_last; [apply bytes_Field|done| |by rewrite Hf, Hl].
    by eapply whole_Field; [lia|].
  - subst. do 3 read_field_end. read_last.
  - do 2 read_field_end. apply decodes_all_ret.
  - do 2 read_field_end. read_back.
  - do 2 read_field_end. rewrite kind_raw_of, Nat2Z.id. eapply field_last; [apply bytes_Field|done| |done].
    by eapply whole_Field; [lia|].
  - do 3 read_field_end. read_back.
  - do 3 read_field_end. read_back.
Qed.
End decoding.

(** ** The octets on the wire *)

Section octets.
Lemma bytes_ok_one v : uint 8 v → bytes_ok [v].
Proof. intros. constructor; [done|constructor]. Qed.
Lemma bytes_ok_opt o : bytes_ok (from_option (to_le 8) [] o).
Proof. destruct o; [apply to_le_bytes_ok|constructor]. Qed.
Lemma uint_8_nat n : (n ≤ 255)%nat → uint 8 (Z.of_nat n).
Proof. unfold uint. lia. Qed.
Lemma uint_wrap_8 v : uint 8 (wrap 8 v).
Proof. by apply uint_wrap. Qed.
Lemma uint_flag b k : 0 ≤ k < 8 → uint 8 (Z.shiftl (Z_of_bool b) k).
Proof.
  intros Hk. unfold uint. rewrite Z.shiftl_mul_pow2 by lia.
  pose proof (Z.pow_pos_nonneg 2 k). pose proof (Z.pow_lt_mono_r 2 k 8).
  destruct b; cbn [Z_of_bool]; lia.
Qed.
Lemma uint_8_lor a b : uint 8 a → uint 8 b → uint 8 (Z.lor a b).
Proof. by apply uint_lor. Qed.

Create HintDb octets.
#[local] Hint Resolve bytes_ok_one bytes_ok_opt to_le_bytes_ok uint_8_nat uint_wrap_8 uint_8_lor : octets.
#[local] Hint Extern 1 (uint 8 (Z.shiftl (Z_of_bool _) _)) => (apply uint_flag; lia) : octets.

Lemma nwk_wire_bytes c : NwkWf.command c → bytes_ok (nwk_command_wire c).
Proof.
  intros Hwf. unfold nwk_command_wire. apply bytes_ok_app. split.
  { apply bytes_ok_one. destruct c; try by split. by destruct Hwf. }
  destruct c as [c|c|c|c|c|c|c|c|c|c|c|c|c|c|c|i p]; cbn [nwk_command_body NwkWf.command] in *;
    unfold NwkWf.route_request, NwkWf.route_reply, NwkWf.coded, NwkWf.rest in Hwf; destruct_and?;
    repeat (apply bytes_ok_app; split).
  all: unfold RouteReply.options, Leave.octet, LinkStatus.octet, NetworkReport.octet;
    auto 6 with octets.
  - apply bytes_ok_one. by destruct c as [[] ? ? ? [] ?].
  - apply (whole_div 2) in Hwf as [? _]; [|lia]. by apply bytes_ok_one, uint_8_nat.
  - by destruct Hwf.
  - by destruct Hwf.
  - destruct Hwf as (_ & _ & Hi). destruct (_ =? _); [by destruct Hi|done].
  - apply bytes_ok_one, uint_8_lor; [done|apply uint_wrap_8].
  - apply bytes_ok_one. by destruct (LinkPowerDelta.kind c).
  - apply (whole_div 3) in Hwf as [? _]; [|lia]. by apply bytes_ok_one, uint_8_nat.
  - by destruct Hwf.
Qed.
End octets.

#[export] Instance nwk_command_FullCodec : FullCodec NwkCommand.t := {
  full_ok := NwkWf.command;
  full_wire := nwk_command_wire;
  full_writes := nwk_command_writes;
  full_decodes := nwk_command_decodes;
  full_len := nwk_command_len
}.

(** ** What the decoder accepts *)

Section parsing.
Lemma status_code_raw_from_raw v : NetworkStatusCode.raw (NetworkStatusCode.from_raw v) = v.
Proof. unfold NetworkStatusCode.from_raw. by repeat case_match. Qed.
Lemma timeout_status_raw_from_raw v : TimeoutResponseStatus.raw (TimeoutResponseStatus.from_raw v) = v.
Proof. unfold TimeoutResponseStatus.from_raw. by repeat case_match. Qed.
Lemma commissioning_raw_from_raw v : CommissioningType.raw (CommissioningType.from_raw v) = v.
Proof. unfold CommissioningType.from_raw. by repeat case_match. Qed.

Lemma from_raw_Unknown v i : NwkCommandId.from_raw v = NwkCommandId.Unknown i → i = v.
Proof. unfold NwkCommandId.from_raw. by repeat case_match; intros [= <-]. Qed.

Lemma coded_from_raw {A} (raw : A → Z) (from_raw : Z → A) v :
  raw (from_raw v) = v → uint 8 v → NwkWf.coded raw from_raw (from_raw v).
Proof. intros Hv Hu. unfold NwkWf.coded. by rewrite Hv. Qed.

Lemma land_31 o : (Z.to_nat (Z.land o 0x1F) ≤ 31)%nat.
Proof.
  change 0x1F with (Z.ones 5). rewrite Z.land_ones by lia. pose proof (Z.mod_pos_bound o (2 ^ 5)). lia.
Qed.

Lemma whole_bytes size most n l :
  length l = (n * size)%nat ∧ bytes_ok l → (n ≤ most)%nat → NwkWf.whole size most l.
Proof. intros [Hl Hb] Hn. split; [done|by exists n]. Qed.

Lemma rest_ok r p r' :
  bytes_ok (Reader.buf r) → Reader.take_rest r = (Ok p, r') → NwkWf.rest p.
Proof. intros Hok [= <- <-]. by apply peek_rest_bytes_ok. Qed.

Lemma u8_nat v : uint 8 v → (Z.to_nat v ≤ 255)%nat.
Proof. unfold uint. lia. Qed.

(** The octets that end the buffer. *)
Ltac parse_end Hd x :=
  let r1 := fresh "r" in let Hf := fresh "Hf" in
  apply se_bind_inv in Hd as (x & r1 & Hf & Hd); apply rest_ok in Hf; [|assumption].

(** The record is in hand: its fields are what the decoder promised. *)
Ltac parsed_record Hd :=
  injection Hd as <- <-; destruct_and?; unfold NwkWf.route_request, NwkWf.route_reply; cbn;
  repeat match goal with |- _ ∧ _ => split end;
  first [assumption | apply coded_from_raw; [|assumption]; first [apply status_code_raw_from_raw
    | apply mac_status_raw_from_raw | apply timeout_status_raw_from_raw | apply commissioning_raw_from_raw]].

Lemma network_report_parsed r c r' :
  bytes_ok (Reader.buf r) → decode r = (Ok c, r') → NwkWf.network_report c.
Proof.
  intros Hok Hd. unfold decode, NetworkReport.Decode_t in Hd. parse_field Hd o. cbv zeta in Hd.
  parse_field Hd e. unfold NwkWf.network_report.
  assert (uint 3 (Z.shiftr o 5)) as Hu.
  { unfold uint in *. rewrite Z.shiftr_div_pow2 by lia. split; [apply Z.div_pos; lia|].
    apply Z.div_lt_upper_bound; lia. }
  destruct (Z.shiftr o 5 =? NetworkReport.PAN_ID_CONFLICT) eqn:E.
  - parse_field Hd i. injection Hd as <- <-. cbn. rewrite E. split_and!; [done..|].
    eapply whole_bytes; [done|apply land_31].
  - parse_end Hd i. injection Hd as <- <-. cbn. by rewrite E.
Qed.

Lemma nwk_command_parsed bs c : bytes_ok bs → decode_exact bs = Ok c → NwkWf.command c.
Proof.
  intros Hok. unfold decode_exact. destruct (decode (Reader.new bs)) as [[c'|] r] eqn:Hd; [|done].
  destruct (Reader.is_empty r); [|done]. intros [= ->].
  assert (bytes_ok (Reader.buf (Reader.new bs))) as Hok' by done.
  unfold decode, NwkCommand.Decode_t in Hd. parse_field Hd v.
  destruct (NwkCommandId.from_raw v) eqn:Ev; apply se_bind_inv in Hd as (x & r1 & Hx & Hd);
    injection Hd as <- <-; cbn [NwkWf.command].
  - parse_field Hx o. parse_field Hx i. parse_field Hx d. parse_field Hx p. cbv zeta in Hx.
    parse_field Hx a. parse_end Hx t. parsed_record Hx.
  - parse_field Hx o. parse_field Hx i. parse_field Hx s. parse_field Hx d. parse_field Hx p.
    parse_field Hx a. parse_field Hx b. parse_end Hx t. parsed_record Hx.
  - parse_field Hx s. parse_field Hx d. parse_end Hx t. parsed_record Hx.
  - done.
  - parse_field Hx n. cbv zeta in Hx. parse_field Hx l. injection Hx as <- <-.
    eapply whole_bytes; [done|by apply u8_nat].
  - parse_field Hx n. parsed_record Hx.
  - parse_field Hx a. parse_field Hx s. parsed_record Hx.
  - parse_field Hx o. cbv zeta in Hx. parse_field Hx l. injection Hx as <- <-.
    eapply whole_bytes; [done|apply land_31].
  - by apply network_report_parsed in Hx.
  - parse_field Hx o. cbv zeta in Hx. parse_field Hx e. parse_field Hx u.
    destruct (Z.shiftr o 5 =? NetworkUpdate.PAN_ID_UPDATE) eqn:E; [|done].
    destruct (Z.land o 0x1F =? 1); [|done]. apply Z.eqb_eq in E. parse_field Hx p. parsed_record Hx.
  - parse_field Hx a. parse_field Hx s. parsed_record Hx.
  - parse_field Hx a. parse_field Hx s. parsed_record Hx.
  - parse_field Hx o. cbv zeta in Hx. parse_field Hx n. parse_field Hx l. injection Hx as <- <-.
    eapply whole_bytes; [done|by apply u8_nat].
  - parse_field Hx a. parse_field Hx s. parse_end Hx t. parsed_record Hx.
  - parse_field Hx a. parse_field Hx s. parse_end Hx t. parsed_record Hx.
  - pose proof (from_raw_Unknown _ _ Ev) as ->. by apply rest_ok in Hx.
Qed.
End parsing.

(** ** Lists inside commands *)

Section lists.
Lemma chunks_from_concat n (cs : list (list Z)) fuel :
  (0 < n)%nat → Forall (λ c, length c = n) cs → (length (concat cs) ≤ fuel)%nat →
  chunks_from fuel n (concat cs) = cs.
Proof.
  intros Hn Hcs. revert fuel. induction Hcs as [|c cs Hc _ IH]; intros fuel Hf; simpl in *.
  - destruct fuel; simpl; [done|]. by rewrite (proj2 (Nat.ltb_lt _ _) Hn).
  - rewrite length_app in Hf. destruct fuel; [lia|]. simpl.
    rewrite (proj2 (Nat.ltb_ge _ _)) by len. rewrite take_app_length', drop_app_length' by done.
    by rewrite IH by lia.
Qed.

Lemma chunks_exact_concat n (cs : list (list Z)) :
  (0 < n)%nat → Forall (λ c, length c = n) cs → chunks_exact n (concat cs) = cs.
Proof. intros. by apply chunks_from_concat. Qed.

Definition link_entry_ok (e : LinkStatusEntry.t) : Prop :=
  uint 16 (LinkStatusEntry.address e) ∧ uint 3 (LinkStatusEntry.incoming_cost e) ∧
  uint 3 (LinkStatusEntry.outgoing_cost e).

Lemma link_entry_octet i o :
  uint 3 i → uint 3 o →
  let b := Z.lor (Z.land i 0x7) (Z.shiftl (Z.land o 0x7) 4) in
  uint 8 b ∧ Z.land b 0x7 = i ∧ Z.land (Z.shiftr b 4) 0x7 = o.
Proof.
  intros Hi Ho.
  assert (i = 0 ∨ i = 1 ∨ i = 2 ∨ i = 3 ∨ i = 4 ∨ i = 5 ∨ i = 6 ∨ i = 7) as Ci by (unfold uint in Hi; lia).
  assert (o = 0 ∨ o = 1 ∨ o = 2 ∨ o = 3 ∨ o = 4 ∨ o = 5 ∨ o = 6 ∨ o = 7) as Co by (unfold uint in Ho; lia).
  clear Hi Ho. repeat destruct Ci as [->|Ci]; [..|subst i].
  all: repeat destruct Co as [->|Co]; [..|subst o]; split_and!; done.
Qed.

Lemma link_entry_decodes e : link_entry_ok e → LinkStatus.decode_entry (LinkStatus.encode_entry e) = e.
Proof.
  intros (Ha & Hi & Ho). destruct e as [a i o]. unfold LinkStatus.decode_entry, LinkStatus.encode_entry.
  destruct (link_entry_octet i o Hi Ho) as (_ & Ei & Eo). cbn [LinkStatusEntry.address
    LinkStatusEntry.incoming_cost LinkStatusEntry.outgoing_cost] in *.
  pose proof (from_to_le 2 a Ha) as Hf. unfold octet.
  change (to_le 2 a) with [a mod 256; (a / 256) mod 256] in *. cbn [app nth]. by rewrite Ei, Eo, Hf.
Qed.

Lemma link_entries_raw es :
  Forall link_entry_ok es →
  bytes_ok (concat (LinkStatus.encode_entry <$> es)) ∧
  length (concat (LinkStatus.encode_entry <$> es)) = (length es * 3)%nat.
Proof.
  induction 1 as [|e es (Ha & Hi & Ho) _ [IHb IHl]]; [by split; [constructor|]|].
  rewrite fmap_cons. cbn [concat length].
  destruct (link_entry_octet _ _ Hi Ho) as (Hb & _). split; [|rewrite length_app, IHl; unfold LinkStatus.encode_entry; len].
  unfold LinkStatus.encode_entry. apply bytes_ok_app. split; [|done]. apply bytes_ok_app. by split; [apply to_le_bytes_ok|constructor; [|constructor]].
Qed.

Lemma link_entries_read f l es :
  Forall link_entry_ok es →
  LinkStatus.entries (LinkStatus.mk f l (concat (LinkStatus.encode_entry <$> es))) = es.
Proof.
  intros Hes. unfold LinkStatus.entries. cbn [LinkStatus.raw_entries].
  rewrite chunks_exact_concat; [|lia|apply Forall_fmap, Forall_true; done].
  clear f l. induction Hes as [|e es He _ IH]; [done|]. rewrite !fmap_cons, IH. f_equal.
  by apply link_entry_decodes.
Qed.
End lists.

(** ** Theorems *)

(** C32. The well-formed network commands are exactly the ones that can be
    received: an octet string either is refused or decodes to a command whose
    fields have their widths and whose lists hold as many whole entries as their
    count says, and every such command is decoded from its own encoding, of
    exactly [encoded_len] octets, with nothing behind it touched.  So a router
    that re-encodes a command it received passes on the same command. *)
Theorem nwk_command_codec_exact (c : NwkCommand.t) :
  (NwkWf.command c ↔ ∃ bs, bytes_ok bs ∧ decode_exact bs = Ok c) ∧
  (NwkWf.command c → ∀ out, (encoded_len c ≤ length out)%nat →
   ∃ out', encode_to_slice c out = (Ok (encoded_len c), out') ∧
     decode_exact (take (encoded_len c) out') = Ok c ∧
     drop (encoded_len c) out' = drop (encoded_len c) out).
Proof.
  split; [split|].
  - intros Hwf. exists (nwk_command_wire c).
    split; [by apply nwk_wire_bytes|by apply decodes_all_exact, nwk_command_decodes].
  - intros (bs & Hok & Hd). by eapply nwk_command_parsed.
  - intros Hwf out. by apply (full_round_trip (HC:=nwk_command_FullCodec)).
Qed.

(** A conflict report with two PAN identifiers. *)
Lemma nwk_command_codec_exact_witness :
  let c := NwkCommand.NetworkReport (NetworkReport.mk 0 0x1122334455667788 [1; 2; 3; 4]) in
  ∃ out', encode_to_slice c (replicate 20 0) = (Ok (encoded_len c), out') ∧
     decode_exact (take (encoded_len c) out') = Ok c ∧
     drop (encoded_len c) out' = drop (encoded_len c) (replicate 20 0).
Proof.
  apply nwk_command_codec_exact; [|simpl; lia].
  apply nwk_command_codec_exact.
  exists [9; 2; 0x88; 0x77; 0x66; 0x55; 0x44; 0x33; 0x22; 0x11; 1; 2; 3; 4].
  split; [|reflexivity]. repeat constructor; vm_compute; congruence.
Defined.

(** The link costs a router announces are the ones its neighbours read:
    for up to thirty-one entries with three-bit costs the Link Status command
    built from them with [encode_entry] decodes, and its entries are the ones
    announced, in the same order; with more entries than the five-bit count can
    say the encoder refuses instead of announcing fewer. *)
Theorem link_status_announces (f l : bool) (es : list LinkStatusEntry.t) (out : list Z) :
  Forall link_entry_ok es → (2 + 3 * length es ≤ length out)%nat →
  let c := LinkStatus.mk f l (concat (LinkStatus.encode_entry <$> es)) in
  if (length es <=? 31)%nat then
    ∃ out', encode_to_slice (NwkCommand.LinkStatus c) out = (Ok (2 + 3 * length es)%nat, out') ∧
      decode_exact (take (2 + 3 * length es) out') = Ok (NwkCommand.LinkStatus c) ∧
      LinkStatus.entries c = es
  else (encode_to_slice (NwkCommand.LinkStatus c) out).1 = Err (Unrepresentable "link status entry count").
Proof.
  intros Hes Hout c. destruct (link_entries_raw es Hes) as [Hb Hl].
  destruct (Nat.leb_spec (length es) 31) as [Hn|Hn].
  - assert (encoded_len (NwkCommand.LinkStatus c) = (2 + 3 * length es)%nat) as He.
    { cbn [encoded_len NwkCommand.Encode_t LinkStatus.Encode_t LinkStatus.raw_entries c]. lia. }
    destruct (full_round_trip (HC:=nwk_command_FullCodec) (NwkCommand.LinkStatus c) out) as (out' & E1 & E2 & _).
    { by split; [|exists (length es)]. }
    { by rewrite He. }
    rewrite He in E1, E2. exists out'. split_and!; [done..|by apply link_entries_read].
  - unfold encode_to_slice. cbn [encode NwkCommand.Encode_t LinkStatus.Encode_t].
    unfold LinkStatus.entry_count. cbn [LinkStatus.raw_entries c]. rewrite Hl, Nat.div_mul by lia.
    rewrite (proj2 (Nat.ltb_lt _ _)) by done. destruct out; [simpl in Hout; lia|reflexivity].
Qed.

Lemma link_status_announces_witness :
  let es := [LinkStatusEntry.mk 0x1234 1 7; LinkStatusEntry.mk 0 3 0] in
  let c := LinkStatus.mk true false (concat (LinkStatus.encode_entry <$> es)) in
  ∃ out', encode_to_slice (NwkCommand.LinkStatus c) (replicate 8 0) = (Ok 8%nat, out') ∧
    decode_exact (take 8 out') = Ok (NwkCommand.LinkStatus c) ∧ LinkStatus.entries c = es.
Proof.
  apply (link_status_announces true false [LinkStatusEntry.mk 0x1234 1 7; LinkStatusEntry.mk 0 3 0]
    (replicate 8 0)); [|simpl; lia].
  repeat constructor; vm_compute; congruence.
Defined.
