(* ===== verification/NwkNeighbor.v ===== *)
(** * The neighbour table and the joining list
    (panweave-nwk/src/neighbor.rs, joining_list.rs; LogicalDeviceType of
    panweave-types/src/device.rs; the ageing blocks of layer/maint.rs)

    The table says which devices are in radio range and what they are to this
    device: its parent, its children, the routers around it.  Routing costs are
    read from it, and the link status period and the child timers age it.  The
    joining list says which devices may associate. *)

From stdpp Require Import sorting.
From S2P Require Import Prelude Types Heapless FrameCounter Routing NwkTables NwkCommand.

Module LogicalDeviceType.
Inductive t : Type := Coordinator | Router | EndDevice.

Definition descriptor_value (d : t) : Z :=
  match d with Coordinator => 0 | Router => 1 | EndDevice => 2 end.
Definition from_descriptor_value (v : Z) : option t :=
  match v with
  | 0 => Some Coordinator
  | 1 => Some Router
  | 2 => Some EndDevice
  | _ => None
  end.
Definition is_routing_capable (d : t) : bool := match d with EndDevice => false | _ => true end.

#[global] Instance eq_dec : EqDecision t.
Proof. solve_decision. Defined.
End LogicalDeviceType.

Module Relationship.
Inductive t : Type :=
  | Parent | Child | Sibling | None | PreviousChild | UnauthenticatedChild
  | UnauthorizedChildRelayAllowed | LostChild | ChildAddressConflict | BackboneMeshSibling.

Definition raw (r : t) : Z :=
  match r with
  | Parent => 0
  | Child => 1
  | Sibling => 2
  | None => 3
  | PreviousChild => 4
  | UnauthenticatedChild => 5
  | UnauthorizedChildRelayAllowed => 6
  | LostChild => 7
  | ChildAddressConflict => 8
  | BackboneMeshSibling => 9
  end.

Definition is_child (r : t) : bool :=
  match r with
  | Child | UnauthenticatedChild | UnauthorizedChildRelayAllowed | ChildAddressConflict => true
  | _ => false
  end.
Definition is_authenticated_child (r : t) : bool := match r with Child => true | _ => false end.

#[global] Instance eq_dec : EqDecision t.
Proof. solve_decision. Defined.
End Relationship.

Definition link_cost_from_lqa (lqa : Z) : Z :=
  if (193 <=? lqa) && (lqa <=? 255) then 1
  else if (129 <=? lqa) && (lqa <=? 192) then 2
  else if (97 <=? lqa) && (lqa <=? 128) then 3
  else if (65 <=? lqa) && (lqa <=? 96) then 4
  else if (33 <=? lqa) && (lqa <=? 64) then 5
  else if (17 <=? lqa) && (lqa <=? 32) then 6
  else 7.

(** ** The LQA filter *)

Module LqaFilter.
(** [samples] is an array of three. *)
Record t : Type := mk { samples : list Z; count : Z; next : Z }.

Definition new (first : Z) : t := mk [first; 0; 0] 1 1.

Definition push (f : t) (lqa : Z) : t :=
  let idx := Z.to_nat (next f mod 3) in
  mk (<[idx := lqa]> (samples f)) (Z.min (count f + 1) 3) ((next f + 1) mod 3).

Definition sample (f : t) (i : nat) : Z := nth i (samples f) 0.

Definition value (f : t) : Z :=
  match count f with
  | 0 => 0
  | 1 => sample f 0
  | 2 => Z.min (sample f 0) (sample f 1)
  | _ => nth 1 (merge_sort Z.le (samples f)) 0
  end.
End LqaFilter.

(** ** Entries *)

Module NeighborEntry.
Record t : Type := mk {
  extended : Z;
  short : Z;
  device_type : LogicalDeviceType.t;
  rx_on_when_idle : bool;
  end_device_configuration : Z;
  timeout_counter_secs : Z;
  device_timeout_secs : Z;
  relationship : Relationship.t;
  transmit_failure : Z;
  lqa : LqaFilter.t;
  outgoing_cost : Z;
  age : Z;
  keepalive_received : bool;
  router_age : Z;
  security_timer_secs : Z;
  router_connectivity : Z;
  router_neighbor_set_diversity : Z;
  router_outbound_activity : Z;
  router_inbound_activity : Z;
  last_key_sequence : option Z;
  last_rssi_dbm : option Z;
  link : option Z
}.

Definition new (extended short : Z) (device_type : LogicalDeviceType.t) (rx_on_when_idle : bool)
    (relationship : Relationship.t) (lqa : Z) : t :=
  mk extended short device_type rx_on_when_idle 0 0 0 relationship 0 (LqaFilter.new lqa) 0 0 false 0 0 0 0 0 0
    None None None.

Definition incoming_cost (e : t) : Z := link_cost_from_lqa (LqaFilter.value (lqa e)).

Definition path_cost (e : t) : Z :=
  if outgoing_cost e =? 0 then 7 else Z.max (incoming_cost e) (outgoing_cost e).

Definition is_end_device (e : t) : bool :=
  match device_type e with LogicalDeviceType.EndDevice => true | _ => false end.
Definition is_router (e : t) : bool := negb (is_end_device e).

Definition with_timeouts (e : t) (counter timeout security : Z) : t :=
  mk (extended e) (short e) (device_type e) (rx_on_when_idle e) (end_device_configuration e) counter timeout
    (relationship e) (transmit_failure e) (lqa e) (outgoing_cost e) (age e) (keepalive_received e)
    (router_age e) security (router_connectivity e) (router_neighbor_set_diversity e)
    (router_outbound_activity e) (router_inbound_activity e) (last_key_sequence e) (last_rssi_dbm e) (link e).

Definition set_timeout (e : t) (idx : Z) : t :=
  match TimeoutIndex.seconds idx with
  | Some s => with_timeouts e s s (security_timer_secs e)
  | None => e
  end.

(** One link status period of a router entry, before the limit is applied. *)
Definition older (e : t) (cost : Z) : t :=
  mk (extended e) (short e) (device_type e) (rx_on_when_idle e) (end_device_configuration e)
    (timeout_counter_secs e) (device_timeout_secs e) (relationship e) (transmit_failure e) (lqa e) cost
    (sat_add 8 (age e) 1) (keepalive_received e) (sat_add 16 (router_age e) 1) (security_timer_secs e)
    (router_connectivity e) (router_neighbor_set_diversity e) (sat_sub (router_outbound_activity e) 1)
    (sat_sub (router_inbound_activity e) 1) (last_key_sequence e) (last_rssi_dbm e) (link e).
End NeighborEntry.

Module NeighborTableError.
Inductive t : Type := Full.
End NeighborTableError.

(** ** The table *)

Module NeighborTable.
Import NeighborEntry.

Record t (K : nat) : Type := mk {
  entries : list NeighborEntry.t;
  added : Z;
  removed : Z;
  stale : Z
}.
Arguments mk {K} _ _ _ _.
Arguments entries {K} _.
Arguments added {K} _.
Arguments removed {K} _.
Arguments stale {K} _.

Definition new K : t K := mk [] 0 0 0.

(** [u32::try_from(n).unwrap_or(u32::MAX)] *)
Definition to_u32 (n : nat) : Z := Z.min (Z.of_nat n) u32_max.

Section table.
Context {H : Heapless} {K : nat}.
Implicit Types s : t K.

Definition of_extended (addr : Z) (e : NeighborEntry.t) : bool := extended e =? addr.
Definition of_short (addr : Z) (e : NeighborEntry.t) : bool := short e =? addr.

Definition capacity s : nat := K.
Definition len s : nat := length (entries s).
Definition is_empty s : bool := (len s =? 0)%nat.
Definition by_extended s (addr : Z) : option NeighborEntry.t := List.find (of_extended addr) (entries s).
Definition by_extended_mut s (addr : Z) (f : NeighborEntry.t → NeighborEntry.t) : t K :=
  mk (update_first (of_extended addr) f (entries s)) (added s) (removed s) (stale s).
Definition by_short s (addr : Z) : option NeighborEntry.t := List.find (of_short addr) (entries s).
Definition by_short_mut s (addr : Z) (f : NeighborEntry.t → NeighborEntry.t) : t K :=
  mk (update_first (of_short addr) f (entries s)) (added s) (removed s) (stale s).
Definition parent s : option NeighborEntry.t :=
  List.find (λ e, bool_decide (relationship e = Relationship.Parent)) (entries s).

Definition evictable (router_age_limit : Z) (e : NeighborEntry.t) : bool :=
  is_router e && (router_age_limit <? age e)
  && negb (bool_decide (relationship e = Relationship.Parent))
  && negb (Relationship.is_child (relationship e)).

(** The index of the entry stored, or the error, and the table. *)
Definition insert s (entry : NeighborEntry.t) (router_age_limit : Z)
    : result nat NeighborTableError.t * t K :=
  match position (of_extended (extended entry)) (entries s) with
  | Some pos => (Ok pos, mk (<[pos := entry]> (entries s)) (added s) (removed s) (stale s))
  | None =>
      let freed :=
        if vec_is_full K (entries s) then
          match position (evictable router_age_limit) (entries s) with
          | Some v =>
              match vec_swap_remove (entries s) v with
              | Some (_, es) => Some es
              | None => Some (entries s)
              end
          | None => None
          end
        else Some (entries s) in
      match freed with
      | None => (Err NeighborTableError.Full, s)
      | Some es =>
          match vec_push K es entry with
          | Err _ => (Err NeighborTableError.Full, mk es (added s) (removed s) (stale s))
          | Ok es => (Ok (length es - 1)%nat, mk es (sat_add 32 (added s) 1) (removed s) (stale s))
          end
      end
  end.

Definition remove_at s (pos : option nat) : option NeighborEntry.t * t K :=
  match pos with
  | None => (None, s)
  | Some pos =>
      match vec_swap_remove (entries s) pos with
      | Some (e, es) => (Some e, mk es (added s) (sat_add 32 (removed s) 1) (stale s))
      | None => (None, s)
      end
  end.
Definition remove_extended s (addr : Z) : option NeighborEntry.t * t K :=
  remove_at s (position (of_extended addr) (entries s)).
Definition remove_short s (addr : Z) : option NeighborEntry.t * t K :=
  remove_at s (position (of_short addr) (entries s)).

Definition retain s (pred : NeighborEntry.t → bool) : t K :=
  let es := vec_retain (entries s) pred in
  let gone := (length (entries s) - length es)%nat in
  mk es (added s) (sat_add 32 (removed s) (to_u32 gone)) (stale s).

Definition child_count s : nat :=
  length (List.filter (λ e, Relationship.is_child (relationship e)) (entries s)).
Definition router_child_count s : nat :=
  length (List.filter (λ e, Relationship.is_child (relationship e) && is_router e) (entries s)).
Definition end_device_children s : list NeighborEntry.t :=
  List.filter (λ e, Relationship.is_child (relationship e) && is_end_device e) (entries s).
Definition routers s : list NeighborEntry.t := List.filter is_router (entries s).
Definition clear s : t K := mk (vec_clear (entries s)) (added s) (removed s) (stale s).

(** The entries a link status period ages, the ones that become stale in it, and
    the entry after it. *)
Definition ticks (e : NeighborEntry.t) : bool := is_router e && negb (is_some (link e)).
Definition goes_stale (router_age_limit : Z) (e : NeighborEntry.t) : bool :=
  ticks e && (router_age_limit <? sat_add 8 (age e) 1) && negb (outgoing_cost e =? 0).
Definition tick_entry (router_age_limit : Z) (e : NeighborEntry.t) : NeighborEntry.t :=
  if ticks e then older e (if goes_stale router_age_limit e then 0 else outgoing_cost e) else e.

Definition link_status_tick s (router_age_limit : Z) : nat * t K :=
  let newly_stale := length (List.filter (goes_stale router_age_limit) (entries s)) in
  (newly_stale,
   mk (tick_entry router_age_limit <$> entries s) (added s) (removed s)
      (sat_add 32 (stale s) (to_u32 newly_stale))).

(** The closure of [retain]: the entry has run out of time. *)
Definition runs_out (elapsed_secs : Z) (e : NeighborEntry.t) : bool :=
  let secs16 := Z.min elapsed_secs u16_max in
  let unauthenticated :=
    negb (security_timer_secs e =? 0) && (sat_sub (security_timer_secs e) secs16 =? 0)
    && match relationship e with
       | Relationship.UnauthenticatedChild | Relationship.UnauthorizedChildRelayAllowed => true
       | _ => false
       end in
  unauthenticated
  || Relationship.is_authenticated_child (relationship e) && is_end_device e
     && (sat_sub (timeout_counter_secs e) elapsed_secs =? 0) && negb (device_timeout_secs e =? 0).

(** [let _ = expired.push(..)], once per element. *)
Definition push_each {A} (M : nat) (v l : list A) : list A :=
  foldl (λ v x, match vec_push M v x with Ok v' => v' | Err _ => v end) v l.

Definition count_down (elapsed_secs : Z) (e : NeighborEntry.t) : NeighborEntry.t :=
  let secs16 := Z.min elapsed_secs u16_max in
  with_timeouts e
    (if Relationship.is_authenticated_child (relationship e) && is_end_device e
     then sat_sub (timeout_counter_secs e) elapsed_secs else timeout_counter_secs e)
    (device_timeout_secs e)
    (if negb (security_timer_secs e =? 0) then sat_sub (security_timer_secs e) secs16
     else security_timer_secs e).

(** [M] is the capacity of [expired]. *)
Definition age_children (M : nat) s (elapsed_secs : Z) (expired : list Z) : t K * list Z :=
  if elapsed_secs =? 0 then (s, expired)
  else
    let expired := push_each M expired (extended <$> List.filter (runs_out elapsed_secs) (entries s)) in
    let es := vec_retain (entries s) (λ e, negb (runs_out elapsed_secs e)) in
    (mk (count_down elapsed_secs <$> es) (added s)
        (sat_add 32 (removed s) (to_u32 (length expired))) (stale s), expired).

Definition wf s : Prop := NoDup (extended <$> entries s) ∧ (length (entries s) ≤ K)%nat.
End table.
End NeighborTable.

(** ** The ageing blocks of [poll_timers] (layer/maint.rs) *)

Module Maint.
Import NeighborEntry.

Section maint.
Context {H : Heapless} {K KR KA : nat}.

(** The stale next hops, collected into a vector of eight: [None] is the panic of
    [collect]. *)
Definition stale_hops (s : NeighborTable.t K) (router_age_limit : Z) : option (list Z) :=
  vec_collect 8
    (short <$> List.filter (λ n, (outgoing_cost n =? 0) && (router_age_limit <? age n)) (NeighborTable.routers s)).

(** The neighbour and routing tables over one link status period. *)
Definition link_status_period (s : NeighborTable.t K) (routes : RoutingTable.t KR) (router_age_limit : Z)
    : option (NeighborTable.t K * RoutingTable.t KR) :=
  let '(stale, s) := NeighborTable.link_status_tick s router_age_limit in
  let invalidated :=
    if (0 <? stale)%nat then
      hops ← stale_hops s router_age_limit;
      Some (foldl (λ r h, (RoutingTable.invalidate_via r h).2) routes hops)
    else Some routes in
  routes ← invalidated;
  Some (s, RoutingTable.link_status_tick routes).

(** The whole seconds since the last ageing, and the instant kept as the last. *)
Definition age_clock (child_age_last now : Z) : Z * Z :=
  let elapsed := Duration.as_secs (Instant.saturating_duration_since now child_age_last) in
  if 1 <=? elapsed then (elapsed, now) else (0, child_age_last).

(** The children, their addresses and their frame counters over [elapsed]
    seconds; the last component are the devices reported as removed. *)
Definition child_aging {KC} (s : NeighborTable.t K) (map : AddressMap.t KA) (incoming : IncomingCounters.t KC)
    (elapsed : Z) : NeighborTable.t K * AddressMap.t KA * IncomingCounters.t KC * list Z :=
  if 1 <=? elapsed then
    let '(s, expired) := NeighborTable.age_children 8 s (Z.min elapsed u32_max) [] in
    (s, foldl AddressMap.remove_extended map expired,
     foldl (λ c d, IncomingCounters.remove d c) incoming expired, expired)
  else (s, map, incoming, []).
End maint.
End Maint.

(** ** The joining list *)

Module JoiningPolicy.
Inductive t : Type := AllJoin | IeeeListJoin | NoJoin.

Definition raw (p : t) : Z :=
  match p with AllJoin => 0x00 | IeeeListJoin => 0x01 | NoJoin => 0x02 end.
Definition from_raw (v : Z) : option t :=
  match v with
  | 0x00 => Some AllJoin
  | 0x01 => Some IeeeListJoin
  | 0x02 => Some NoJoin
  | _ => None
  end.

#[global] Instance eq_dec : EqDecision t.
Proof. solve_decision. Defined.
End JoiningPolicy.

Module JoiningList.
Record t (K : nat) : Type := mk { policy : JoiningPolicy.t; update_id : Z; list : Datatypes.list Z }.
Arguments mk {K} _ _ _.
Arguments policy {K} _.
Arguments update_id {K} _.
Arguments list {K} _.

Definition new K : t K := mk JoiningPolicy.AllJoin 0 [].

Section joining.
Context {H : Heapless} {K : nat}.
Implicit Types j : t K.

Definition entries j : Datatypes.list Z := list j.
Definition contains (l : Datatypes.list Z) (d : Z) : bool := existsb (λ x, x =? d) l.

Definition allows j (device : Z) : bool :=
  match policy j with
  | JoiningPolicy.AllJoin => true
  | JoiningPolicy.IeeeListJoin => contains (list j) device
  | JoiningPolicy.NoJoin => false
  end.

Definition bump j : t K := mk (policy j) (wrap 8 (update_id j + 1)) (list j).

Definition set_policy j (p : JoiningPolicy.t) : t K :=
  if negb (bool_decide (policy j = p)) then bump (mk p (update_id j) (list j)) else j.

Definition clear j : t K :=
  if negb (length (list j) =? 0)%nat then bump (mk (policy j) (update_id j) (vec_clear (list j))) else j.

(** The loop over [entries], from [index] on: [None] is the early [return false],
    with the list as it is then. *)
Fixpoint apply_entries (l : Datatypes.list Z) (index : nat) (es : Datatypes.list Z) (changed : bool)
    : option bool * Datatypes.list Z :=
  match es with
  | [] => (Some changed, l)
  | e :: es =>
      match l !! index with
      | Some slot =>
          if negb (slot =? e) then apply_entries (<[index := e]> l) (S index) es true
          else apply_entries l (S index) es changed
      | None =>
          if (index =? length l)%nat then
            match vec_push K l e with
            | Err _ => (None, l)
            | Ok l => apply_entries l (S index) es true
            end
          else (None, l)
      end
  end.

Definition apply j (p : JoiningPolicy.t) (total start_index : Z) (es : Datatypes.list Z) : bool * t K :=
  let j := set_policy j p in
  if total =? 0 then (true, clear j)
  else
    match apply_entries (list j) (Z.to_nat start_index) es false with
    | (None, l) => (false, mk (policy j) (update_id j) l)
    | (Some changed, l) =>
        let j := mk (policy j) (update_id j) l in
        (true, if changed then bump j else j)
    end.

Definition add j (device : Z) : bool * t K :=
  if contains (list j) device then (true, j)
  else
    match vec_push K (list j) device with
    | Err _ => (false, j)
    | Ok l => (true, bump (mk (policy j) (update_id j) l))
    end.

Definition remove j (device : Z) : bool * t K :=
  let l := vec_retain (list j) (λ d, negb (d =? device)) in
  if negb (length l =? length (list j))%nat then (true, bump (mk (policy j) (update_id j) l))
  else (false, mk (policy j) (update_id j) l).
End joining.
End JoiningList.

(** ** The filter computes medians *)

Section lqa.
Definition median3 (a b c : Z) : Z := Z.max (Z.min a b) (Z.min (Z.max a b) c).

(** The filtered value of all the samples so far, newest first. *)
Definition filtered (newest : list Z) : Z :=
  match newest with
  | [] => 0
  | [a] => a
  | [b; a] => Z.min a b
  | c :: b :: a :: _ => median3 a b c
  end.

Lemma sort3 a b c : nth 1 (merge_sort Z.le [a; b; c]) 0 = median3 a b c.
Proof.
  unfold median3. cbn. repeat case_decide; cbn; repeat case_decide; cbn; lia.
Qed.

(** The samples after the ones given, newest first: the oldest of the last three
    is the next to be overwritten. *)
Inductive holds : list Z → LqaFilter.t → Prop :=
  | holds_1 a : holds [a] (LqaFilter.mk [a; 0; 0] 1 1)
  | holds_2 a b : holds [b; a] (LqaFilter.mk [a; b; 0] 2 2)
  | holds_0 a b c l : holds (c :: b :: a :: l) (LqaFilter.mk [a; b; c] 3 0)
  | holds_3 a b c l : holds (c :: b :: a :: l) (LqaFilter.mk [c; a; b] 3 1)
  | holds_4 a b c l : holds (c :: b :: a :: l) (LqaFilter.mk [b; c; a] 3 2).

Lemma push_holds l f x : holds l f → holds (x :: l) (LqaFilter.push f x).
Proof. by destruct 1; constructor. Qed.

Lemma holds_value l f : holds l f → LqaFilter.value f = filtered l.
Proof.
  destruct 1; cbn [LqaFilter.value LqaFilter.count LqaFilter.samples filtered]; [done|done|..];
    rewrite sort3; unfold median3; lia.
Qed.

Lemma feed_holds l f xs : holds l f → holds (reverse xs ++ l) (foldl LqaFilter.push f xs).
Proof.
  revert l f. induction xs as [|x xs IH]; intros l f Hf; [done|]. simpl. rewrite reverse_cons, <- app_assoc.
  by apply IH, push_holds.
Qed.

Lemma link_cost_range q : 1 ≤ link_cost_from_lqa q ≤ 7.
Proof. unfold link_cost_from_lqa. repeat case_match; lia. Qed.

End lqa.

(** ** Inserting *)

#[global] Instance of_extended_test : KeyTest NeighborEntry.extended NeighborTable.of_extended.
Proof. intros p e. apply Z.eqb_eq. Qed.

Section insert.
Context {H : Heapless} {K : nat}.
Implicit Types s : NeighborTable.t K.

(** What an insertion may do to a table. *)
Inductive inserted s (e : NeighborEntry.t) (limit : Z) : result nat NeighborTableError.t → NeighborTable.t K → Prop :=
  | inserted_over i s' :
      NeighborEntry.extended e ∈ NeighborEntry.extended <$> NeighborTable.entries s →
      NeighborTable.wf s' → NeighborTable.len s' = NeighborTable.len s →
      NeighborTable.entries s' !! i = Some e →
      (∀ a, NeighborTable.by_extended s' a =
        if decide (a = NeighborEntry.extended e) then Some e else NeighborTable.by_extended s a) →
      inserted s e limit (Ok i) s'
  | inserted_new i s' :
      (NeighborTable.len s < K)%nat → NeighborTable.wf s' → NeighborTable.len s' = S (NeighborTable.len s) →
      NeighborTable.entries s' !! i = Some e →
      (∀ a, NeighborTable.by_extended s' a =
        if decide (a = NeighborEntry.extended e) then Some e else NeighborTable.by_extended s a) →
      inserted s e limit (Ok i) s'
  | inserted_evicting i v s' :
      NeighborTable.len s = K → v ∈ NeighborTable.entries s →
      NeighborTable.evictable limit v = true →
      NeighborTable.wf s' → NeighborTable.len s' = K → NeighborTable.entries s' !! i = Some e →
      NeighborTable.by_extended s' (NeighborEntry.extended v) = None →
      (∀ a, a ≠ NeighborEntry.extended v → NeighborTable.by_extended s' a =
        if decide (a = NeighborEntry.extended e) then Some e else NeighborTable.by_extended s a) →
      inserted s e limit (Ok i) s'
  | inserted_refused :
      NeighborTable.len s = K → NeighborEntry.extended e ∉ NeighborEntry.extended <$> NeighborTable.entries s →
      (∀ v, v ∈ NeighborTable.entries s → NeighborTable.evictable limit v = false) →
      inserted s e limit (Err NeighborTableError.Full) s.

Lemma insert_inserted s e limit :
  NeighborTable.wf s →
  inserted s e limit (NeighborTable.insert s e limit).1 (NeighborTable.insert s e limit).2.
Proof.
  intros [Hnd Hl]. unfold NeighborTable.insert.
  destruct (position (NeighborTable.of_extended (NeighborEntry.extended e)) _) as [i|] eqn:Ep.
  - pose proof (position_Some _ _ _ Ep) as (x & Hi & Hx%(key_test (key:=NeighborEntry.extended)) & _).
    destruct (position_key_insert NeighborEntry.extended _ _ e _ Hnd Ep eq_refl) as (Hlt & Hnd' & Hf).
    apply inserted_over; cbn.
    + rewrite <- Hx. apply list_elem_of_fmap_2. by eapply list_elem_of_lookup_2.
    + split; cbn; [done|by rewrite length_insert].
    + unfold NeighborTable.len. cbn. by rewrite length_insert.
    + by apply list_lookup_insert_eq.
    + done.
  - assert (NeighborEntry.extended e ∉ NeighborEntry.extended <$> NeighborTable.entries s) as Hne.
    { apply (find_key_None NeighborEntry.extended (has:=NeighborTable.of_extended)), find_None. by apply position_None. }
    rewrite vec_is_full_spec. destruct (Nat.eqb_spec (length (NeighborTable.entries s)) K) as [HK|HK].
    + destruct (position (NeighborTable.evictable limit) _) as [v|] eqn:Ev.
      * apply position_Some in Ev as (x & Hv & Hx & _).
        destruct (replace_victim NeighborEntry.extended K _ e v x Hnd HK Hne Hv)
          as (l' & -> & Hp & Hnd' & HK' & Hfe & Hfx & Hfo).
        rewrite Hp. cbn [fst snd]. eapply inserted_evicting; cbn; try done.
        { by eapply list_elem_of_lookup_2. }
        { split; cbn; [done|lia]. }
        { apply list_lookup_middle. rewrite length_app. cbn. lia. }
        intros a Ha. unfold NeighborTable.by_extended. cbn. case_decide as Hd; [by subst a|by apply Hfo].
      * apply inserted_refused; [done..|]. intros v Hv. by eapply position_None.
    + assert (length (NeighborTable.entries s) < K)%nat as Hlt by lia.
      destruct (push_new_key NeighborEntry.extended K _ e Hnd Hlt Hne) as (Hp & Hnd' & Hfe & Hfo).
      rewrite Hp. cbn [fst snd]. apply inserted_new; cbn; try done.
      { split; cbn; [done|rewrite length_app; cbn; lia]. }
      { unfold NeighborTable.len. cbn. rewrite length_app. cbn. lia. }
      { apply list_lookup_middle. rewrite length_app. cbn. lia. }
      intros a. unfold NeighborTable.by_extended. cbn. case_decide as Hd; [by subst a|by apply Hfo].
Qed.

(** No eviction reaches the parent or a child. *)
Lemma neighbor_evictable_spec limit e :
  NeighborTable.evictable limit e = true →
  NeighborEntry.relationship e ≠ Relationship.Parent ∧
  Relationship.is_child (NeighborEntry.relationship e) = false ∧ limit < NeighborEntry.age e.
Proof.
  unfold NeighborTable.evictable. intros [[[_ Ha%Z.ltb_lt]%andb_true_iff Hp]%andb_true_iff Hc]%andb_true_iff.
  apply negb_true_iff, bool_decide_eq_false in Hp. by apply negb_true_iff in Hc.
Qed.
End insert.

(** ** Link status periods *)

Section link_status.
Context {H : Heapless} {K KR : nat}.
Implicit Types (s : NeighborTable.t K) (routes : RoutingTable.t KR).

(** Successive periods in which nothing is heard. *)
Fixpoint silent_periods (n : nat) s routes (limit : Z) : option (NeighborTable.t K * RoutingTable.t KR) :=
  match n with
  | O => Some (s, routes)
  | S n =>
      '(s, routes) ← Maint.link_status_period s routes limit;
      silent_periods n s routes limit
  end.

(** A router last heard [k] periods ago whose cost is still known. *)
Definition silent_for (k : Z) (e : NeighborEntry.t) : bool :=
  NeighborTable.ticks e && (NeighborEntry.age e =? k) && negb (NeighborEntry.outgoing_cost e =? 0).

Definition stale_hop (limit : Z) (e : NeighborEntry.t) : bool :=
  (NeighborEntry.outgoing_cost e =? 0) && (limit <? NeighborEntry.age e).

Lemma length_filter_map {A B} (P : A → bool) (Q : B → bool) (f : A → B) l :
  (∀ x, P x = true → Q (f x) = true) → (length (List.filter P l) ≤ length (List.filter Q (f <$> l)))%nat.
Proof.
  intros HPQ. induction l as [|x l IH]; [done|]. rewrite fmap_cons. cbn [List.filter].
  destruct (P x) eqn:E; [rewrite (HPQ x E); cbn [length]; lia|]. destruct (Q (f x)); cbn [length]; lia.
Qed.

Lemma filter_filter {A} (P Q : A → bool) l :
  List.filter P (List.filter Q l) = List.filter (λ x, Q x && P x) l.
Proof. induction l as [|x l IH]; simpl; [done|]. destruct (Q x); simpl; by rewrite IH. Qed.

Lemma ticks_older e cost : NeighborTable.ticks (NeighborEntry.older e cost) = NeighborTable.ticks e.
Proof. done. Qed.

Lemma silent_ticks k limit e :
  0 ≤ k < limit → limit < 255 → silent_for k e = true →
  silent_for (k + 1) (NeighborTable.tick_entry limit e) = true.
Proof.
  intros Hk Hl [[Ht Ha%Z.eqb_eq]%andb_true_iff Hc]%andb_true_iff.
  unfold NeighborTable.tick_entry, NeighborTable.goes_stale. rewrite Ht, Ha.
  assert (sat_add 8 k 1 = k + 1) as Hs by (unfold sat_add; lia). rewrite Hs.
  rewrite (proj2 (Z.ltb_ge _ _)) by lia. cbn [andb]. unfold silent_for. rewrite ticks_older, Ht. cbn.
  by rewrite Ha, Hs, Z.eqb_refl, Hc.
Qed.

Lemma silent_goes_stale limit e :
  0 ≤ limit < 255 → silent_for limit e = true →
  NeighborTable.goes_stale limit e = true ∧
  (NeighborEntry.is_router (NeighborTable.tick_entry limit e)
    && stale_hop limit (NeighborTable.tick_entry limit e)) = true.
Proof.
  intros Hl [[Ht Ha%Z.eqb_eq]%andb_true_iff Hc]%andb_true_iff.
  assert (sat_add 8 limit 1 = limit + 1) as Hs by (unfold sat_add; lia).
  assert (NeighborTable.goes_stale limit e = true) as Hg.
  { unfold NeighborTable.goes_stale. rewrite Ht, Ha, Hs, Hc, (proj2 (Z.ltb_lt _ _)) by lia. done. }
  split; [done|]. unfold NeighborTable.tick_entry. rewrite Ht, Hg. unfold stale_hop. cbn.
  rewrite Ha, Hs, (proj2 (Z.ltb_lt _ _)) by lia. rewrite andb_true_r. by apply andb_true_iff in Ht as [? _].
Qed.

Lemma period_result s routes limit :
  Maint.link_status_period s routes limit = None ∨
  ∃ routes', Maint.link_status_period s routes limit =
    Some ((NeighborTable.link_status_tick s limit).2, routes').
Proof.
  unfold Maint.link_status_period, NeighborTable.link_status_tick. cbn [snd].
  destruct (0 <? _)%nat; [|right; by eexists]. destruct (Maint.stale_hops _ _); [right; by eexists|by left].
Qed.

Lemma period_panics s routes limit :
  0 ≤ limit < 255 → (8 < length (List.filter (silent_for limit) (NeighborTable.entries s)))%nat →
  Maint.link_status_period s routes limit = None.
Proof.
  intros Hl Hn. unfold Maint.link_status_period, NeighborTable.link_status_tick.
  assert (0 < length (List.filter (NeighborTable.goes_stale limit) (NeighborTable.entries s)))%nat as Hpos.
  { assert (length (List.filter (silent_for limit) (NeighborTable.entries s)) ≤
      length (List.filter (NeighborTable.goes_stale limit) (id <$> NeighborTable.entries s)))%nat as Hle.
    { apply length_filter_map. intros e He. by apply silent_goes_stale. }
    rewrite list_fmap_id in Hle. lia. }
  rewrite (proj2 (Nat.ltb_lt _ _) Hpos). unfold Maint.stale_hops, NeighborTable.routers.
  cbn [NeighborTable.entries]. rewrite vec_collect_spec, length_fmap, filter_filter.
  rewrite (proj2 (Nat.leb_gt _ _)); [done|]. eapply Nat.lt_le_trans; [exact Hn|].
  apply length_filter_map. intros e He. by apply silent_goes_stale.
Qed.

Lemma silent_periods_panic n s routes limit k :
  0 ≤ k → k + Z.of_nat n = limit → limit < 255 →
  (8 < length (List.filter (silent_for k) (NeighborTable.entries s)))%nat →
  silent_periods (S n) s routes limit = None.
Proof.
  revert s routes k. induction n as [|n IH]; intros s routes k Hk Hn Hl Hs.
  - cbn [silent_periods]. rewrite period_panics; [done|lia|]. by replace limit with k by lia.
  - cbn [silent_periods]. destruct (period_result s routes limit) as [-> |[routes' ->]]; [done|]. cbn [mbind option_bind].
    apply (IH _ _ (k + 1)); [lia..|]. cbn. eapply Nat.lt_le_trans; [exact Hs|].
    apply length_filter_map. intros e He. apply silent_ticks; [lia..|done].
Qed.

Lemma few_routers_no_panic s routes limit :
  (length (NeighborTable.routers s) ≤ 8)%nat → is_Some (Maint.link_status_period s routes limit).
Proof.
  intros Hr. unfold Maint.link_status_period, NeighborTable.link_status_tick.
  destruct (0 <? _)%nat; [|by eexists]. unfold Maint.stale_hops. rewrite vec_collect_spec, length_fmap.
  rewrite (proj2 (Nat.leb_le _ _)); [by eexists|]. etrans; [apply filter_length_le|].
  etrans; [|exact Hr]. unfold NeighborTable.routers. cbn.
  rewrite <- (length_fmap (NeighborTable.tick_entry limit) (List.filter _ (NeighborTable.entries s))).
  assert (∀ l, List.filter NeighborEntry.is_router (NeighborTable.tick_entry limit <$> l) =
    NeighborTable.tick_entry limit <$> List.filter NeighborEntry.is_router l) as ->; [|done].
  induction l as [|e l IH]; [done|]. rewrite fmap_cons. cbn [List.filter].
  assert (NeighborEntry.is_router (NeighborTable.tick_entry limit e) = NeighborEntry.is_router e) as ->
    by (unfold NeighborTable.tick_entry; by destruct (NeighborTable.ticks e)).
  destruct (NeighborEntry.is_router e); rewrite IH; done.
Qed.
End link_status.

(** ** Children *)

Section children.
Context {H : Heapless} {K KA KC : nat}.
Implicit Types (s : NeighborTable.t K) (map : AddressMap.t KA).

Lemma push_each_take {A} M (v l : list A) :
  (length v ≤ M)%nat → NeighborTable.push_each M v l = take M (v ++ l).
Proof.
  revert v. induction l as [|x l IH]; intros v Hv; cbn [NeighborTable.push_each foldl].
  - by rewrite app_nil_r, take_ge.
  - change (foldl _ ?a l) with (NeighborTable.push_each M a l).
    destruct (vec_push_cases M v x) as [[Hl ->]|[Hl ->]].
    + rewrite IH by (rewrite length_app; cbn; lia). by rewrite <- app_assoc.
    + rewrite IH by done. rewrite !take_app_le by lia. done.
Qed.

(** Who is left, and how the others aged. *)
Lemma aged_entries M s elapsed expired :
  elapsed ≠ 0 →
  NeighborTable.entries (NeighborTable.age_children M s elapsed expired).1 =
    NeighborTable.count_down elapsed <$>
      List.filter (λ e, negb (NeighborTable.runs_out elapsed e)) (NeighborTable.entries s).
Proof.
  intros He. unfold NeighborTable.age_children. rewrite (proj2 (Z.eqb_neq _ _) He). cbn. by rewrite vec_retain_spec.
Qed.

Lemma remove_all_others map (ds : list Z) d :
  d ∉ ds → AddressMap.short_for (foldl AddressMap.remove_extended map ds) d = AddressMap.short_for map d.
Proof.
  revert map. induction ds as [|x ds IH]; intros map Hd; [done|]. cbn [foldl]. apply not_elem_of_cons in Hd as [Hx Hd].
  rewrite IH by done. unfold AddressMap.short_for, AddressMap.remove_extended. cbn [AddressMap.entries].
  rewrite vec_retain_spec. by rewrite (find_key_filter_keep fst x d).
Qed.

Lemma remove_all_gone map (ds : list Z) d :
  d ∈ ds → AddressMap.short_for (foldl AddressMap.remove_extended map ds) d = None.
Proof.
  assert (∀ ds (m : AddressMap.t KA), AddressMap.short_for m d = None →
    AddressMap.short_for (foldl AddressMap.remove_extended m ds) d = None) as Hkeep.
  { induction ds0 as [|x ds0 IH]; intros m Hm; [done|]. cbn [foldl]. apply IH. revert Hm.
    unfold AddressMap.short_for, AddressMap.remove_extended. cbn [AddressMap.entries]. rewrite vec_retain_spec.
    destruct (decide (x = d)) as [->|Hne]; [by rewrite find_key_filter_drop|].
    by rewrite (find_key_filter_keep fst x d). }
  revert map. induction ds as [|x ds IH]; intros map; [by intros ?%not_elem_of_nil|].
  intros [->|Hd]%elem_of_cons; cbn [foldl]; [|by apply IH]. apply Hkeep.
  unfold AddressMap.short_for, AddressMap.remove_extended. cbn [AddressMap.entries].
  by rewrite vec_retain_spec, find_key_filter_drop.
Qed.

(** The polls of a run: the seconds counted and the instant of the last ageing. *)
Fixpoint polls (last : Z) (times : list Z) : Z * Z :=
  match times with
  | [] => (0, last)
  | now :: times =>
      let '(elapsed, last) := Maint.age_clock last now in
      let '(counted, last) := polls last times in
      (elapsed + counted, last)
  end.

Lemma age_clock_step last now :
  last ≤ now →
  let '(elapsed, last') := Maint.age_clock last now in
  0 ≤ elapsed ∧ last + 1000 * elapsed ≤ last' ≤ last + 1999 * elapsed ∧ last' ≤ now < last' + 1000.
Proof.
  intros Hn. unfold Maint.age_clock, Duration.as_secs, Instant.saturating_duration_since, sat_sub.
  rewrite Z.max_l by lia. pose proof (Z.div_mod (now - last) 1000 ltac:(lia)).
  pose proof (Z.mod_pos_bound (now - last) 1000 ltac:(lia)).
  destruct (Z.leb_spec 1 ((now - last) / 1000)); split_and!; lia.
Qed.

Lemma polls_bounds times start :
  StronglySorted Z.le (start :: times) →
  let '(counted, aged) := polls start times in
  0 ≤ counted ∧ start + 1000 * counted ≤ aged ≤ start + 1999 * counted ∧
  aged ≤ default start (last times) < aged + 1000.
Proof.
  revert start. induction times as [|now times IH]; intros start Hs; cbn [polls].
  - cbn. lia.
  - apply StronglySorted_inv in Hs as [Hs Hl]. apply Forall_cons in Hl as [Hn Hl].
    pose proof (age_clock_step start now Hn) as Hstep. destruct (Maint.age_clock start now) as [e aged1] eqn:E.
    destruct Hstep as (He & Hb & Hn').
    assert (StronglySorted Z.le (aged1 :: times)) as Hs1.
    { apply StronglySorted_inv in Hs as [Hs Hf]. constructor; [done|].
      eapply Forall_impl; [exact Hf|]. cbn. lia. }
    destruct times as [|t times]; [cbn [polls last default]; cbn; lia|]. specialize (IH aged1 Hs1).
    destruct (polls aged1 (t :: times)) as [c aged2]. destruct IH as (Hc & Hb2 & Hn2).
    rewrite last_cons_cons. destruct (last (t :: times)) as [z|] eqn:El; [|by apply last_None in El].
    cbn in Hn2 |- *. split_and!; lia.
Qed.

(** Polls 1999 ms apart count one second each. *)
Lemma polls_drift n start :
  polls start ((λ i, start + 1999 * (Z.of_nat i + 1)) <$> seq 0 n) =
    (Z.of_nat n, start + 1999 * Z.of_nat n).
Proof.
  revert start. induction n as [|n IH]; intros start; [cbn; f_equal; lia|].
  cbn [seq fmap list_fmap polls]. unfold Maint.age_clock, Duration.as_secs, Instant.saturating_duration_since, sat_sub.
  replace (Z.max (start + 1999 * (Z.of_nat 0 + 1) - start) 0) with 1999 by lia.
  change (1 <=? 1999 / 1000) with true. cbv iota.
  rewrite <- fmap_S_seq, <- list_fmap_compose.
  rewrite (list_fmap_ext _ (λ i, start + 1999 * (Z.of_nat 0 + 1) + 1999 * (Z.of_nat i + 1))) by (intros; cbn; lia).
  rewrite IH. change (1999 / 1000) with 1. f_equal; lia.
Qed.
End children.

(** ** The joining list *)

Section joining_list.
Context {H : Heapless} {K : nat}.
Implicit Types j : JoiningList.t K.

(** The operations of the local administration and of the Trust Center. *)
Inductive join_op : Type :=
  | SetPolicy (p : JoiningPolicy.t)
  | Clear
  | Apply (p : JoiningPolicy.t) (total start_index : Z) (es : list Z)
  | Add (d : Z)
  | Remove (d : Z).

Definition run_join (op : join_op) j : bool * JoiningList.t K :=
  match op with
  | SetPolicy p => (true, JoiningList.set_policy j p)
  | Clear => (true, JoiningList.clear j)
  | Apply p total start_index es => JoiningList.apply j p total start_index es
  | Add d => JoiningList.add j d
  | Remove d => JoiningList.remove j d
  end.

(** [n] increments of the update id, none only when nothing changed. *)
Definition bumped (n : Z) j j' : Prop :=
  JoiningList.update_id j' = wrap 8 (JoiningList.update_id j + n) ∧
  (n = 0 → JoiningList.policy j' = JoiningList.policy j ∧ JoiningList.list j' = JoiningList.list j).

Lemma bumped_refl j : uint 8 (JoiningList.update_id j) → bumped 0 j j.
Proof. intros Hu. split; [|done]. by rewrite Z.add_0_r, wrap_small. Qed.

Lemma bumped_one j p l : bumped 1 j (JoiningList.bump (JoiningList.mk p (JoiningList.update_id j) l)).
Proof. done. Qed.

Lemma bumped_trans n m j1 j2 j3 :
  0 ≤ n → 0 ≤ m → bumped n j1 j2 → bumped m j2 j3 → bumped (n + m) j1 j3.
Proof.
  intros Hn Hm [E1 C1] [E2 C2]. split.
  - rewrite E2, E1. unfold wrap. rewrite Z.add_mod_idemp_l by lia. f_equal. lia.
  - intros E. destruct (C1 ltac:(lia)) as [<- <-]. apply C2. lia.
Qed.

Lemma set_policy_bumped j p :
  uint 8 (JoiningList.update_id j) → ∃ n, 0 ≤ n ≤ 1 ∧ bumped n j (JoiningList.set_policy j p).
Proof.
  intros Hu. unfold JoiningList.set_policy. case_match; [exists 1|exists 0]; (split; [lia|]);
    [apply bumped_one|by apply bumped_refl].
Qed.

Lemma clear_bumped j :
  uint 8 (JoiningList.update_id j) → ∃ n, 0 ≤ n ≤ 1 ∧ bumped n j (JoiningList.clear j).
Proof.
  intros Hu. unfold JoiningList.clear. case_match; [exists 1|exists 0]; (split; [lia|]);
    [apply bumped_one|by apply bumped_refl].
Qed.

Lemma apply_entries_unchanged l i es c l' :
  JoiningList.apply_entries (K:=K) l i es c = (Some false, l') → c = false ∧ l' = l.
Proof.
  revert l i c. induction es as [|e es IH]; intros l i c; cbn [JoiningList.apply_entries]; [by intros [= -> ->]|].
  destruct (l !! i) as [x|]; [destruct (x =? e)|]; cbn [negb].
  - apply IH.
  - by intros [[=] _]%IH.
  - destruct (i =? length l)%nat; [|done]. destruct (vec_push K l e); [|done]. by intros [[=] _]%IH.
Qed.

Lemma run_join_bumped op j j' :
  uint 8 (JoiningList.update_id j) → run_join op j = (true, j') → ∃ n, 0 ≤ n ≤ 2 ∧ bumped n j j'.
Proof.
  intros Hu. destruct op as [p| |p total si es|d|d]; cbn [run_join].
  - intros [= <-]. destruct (set_policy_bumped j p Hu) as (n & ? & ?). exists n. split; [lia|done].
  - intros [= <-]. destruct (clear_bumped j Hu) as (n & ? & ?). exists n. split; [lia|done].
  - unfold JoiningList.apply. destruct (set_policy_bumped j p Hu) as (n & Hn & Hb).
    assert (uint 8 (JoiningList.update_id (JoiningList.set_policy j p))) as Hu'.
    { destruct Hb as [-> _]. by apply uint_wrap. }
    destruct (total =? 0).
    + intros [= <-]. destruct (clear_bumped _ Hu') as (m & Hm & Hc). exists (n + m). split; [lia|].
      eapply bumped_trans; [lia..|done|done].
    + destruct (JoiningList.apply_entries _ _ _ _) as [[c|] l] eqn:E; [|done]. intros [= <-]. destruct c.
      * exists (n + 1). split; [lia|]. eapply bumped_trans; [lia..|done|apply bumped_one].
      * apply apply_entries_unchanged in E as [_ ->]. exists n. split; [lia|].
        by destruct (JoiningList.set_policy j p).
  - unfold JoiningList.add. case_match; [intros [= <-]; exists 0; split; [lia|by apply bumped_refl]|].
    destruct (vec_push _ _ _); [|done]. intros [= <-]. exists 1. split; [lia|apply bumped_one].
  - unfold JoiningList.remove. case_match; [|done]. intros [= <-]. exists 1. split; [lia|apply bumped_one].
Qed.

(** A response longer than the list can hold. *)
Lemma apply_entries_overfull l i es c :
  length l = K → (i ≤ K)%nat → (K - i < length es)%nat →
  JoiningList.apply_entries (K:=K) l i es c = (None, take i l ++ take (K - i) es).
Proof.
  revert l i c. induction es as [|e es IH]; intros l i c Hl Hi He; cbn in He; [lia|].
  cbn [JoiningList.apply_entries]. destruct (l !! i) as [x|] eqn:Ex.
  - apply lookup_lt_Some in Ex as Hlt. replace (K - i)%nat with (S (K - S i)) by lia. cbn [take].
    assert (take (S i) (<[i:=e]> l) ++ take (K - S i) es = take i l ++ e :: take (K - S i) es) as Ht.
    { rewrite (take_S_r _ _ e) by (by apply list_lookup_insert_eq). rewrite take_insert_ge by lia.
      by rewrite <- app_assoc. }
    destruct (Z.eqb_spec x e) as [->|Hne]; cbn [negb].
    + rewrite IH by lia. rewrite <- Ht. by rewrite (list_insert_id l i e).
    + rewrite IH; [by rewrite Ht|by rewrite length_insert|lia..].
  - apply lookup_ge_None in Ex. assert (i = K) as -> by lia.
    rewrite (proj2 (Nat.eqb_eq _ _)) by done. rewrite vec_push_full by lia.
    by rewrite Nat.sub_diag, take_0, app_nil_r, take_ge by lia.
Qed.
End joining_list.

(** ** Theorems *)

(** Inserting a neighbour never costs the device its parent or a child: an
    entry for a known extended address replaces it; a new one takes a free slot,
    or, in a full table, the place of one router that has been silent for longer
    than the limit and is neither parent nor child; otherwise the insertion is
    refused and the table is as it was.  Every other neighbour is found as
    before, and no extended address ever appears twice. *)
Theorem neighbor_insert_protects {H : Heapless} {K : nat} (s : NeighborTable.t K)
    (e : NeighborEntry.t) (limit : Z) :
  NeighborTable.wf s →
  let '(r, s') := NeighborTable.insert s e limit in
  NeighborTable.wf s' ∧
  (r = Err NeighborTableError.Full → s' = s ∧ NeighborTable.len s = K) ∧
  (∀ i, r = Ok i → NeighborTable.entries s' !! i = Some e ∧
     NeighborTable.by_extended s' (NeighborEntry.extended e) = Some e) ∧
  ∀ d, d ∈ NeighborTable.entries s → NeighborEntry.extended d ≠ NeighborEntry.extended e →
    NeighborTable.by_extended s' (NeighborEntry.extended d) = Some d ∨
    NeighborTable.by_extended s' (NeighborEntry.extended d) = None ∧ NeighborTable.len s = K ∧
    NeighborEntry.relationship d ≠ Relationship.Parent ∧
    Relationship.is_child (NeighborEntry.relationship d) = false ∧ limit < NeighborEntry.age d.
Proof.
  intros Hwf. pose proof (insert_inserted s e limit Hwf) as Hi.
  destruct (NeighborTable.insert s e limit) as [r s']. cbn [fst snd] in Hi.
  assert (∀ d, d ∈ NeighborTable.entries s → NeighborTable.by_extended s (NeighborEntry.extended d) = Some d) as Hf.
  { intros d Hd. apply (find_key_elem NeighborEntry.extended); [apply Hwf|done..]. }
  destruct Hi as [i s' _ Hwf' _ Hat Hall|i s' _ Hwf' _ Hat Hall|i v s' HK Hv Hev Hwf' _ Hat Hgone Hall|HK _ _].
  1, 2: split_and!; [done|done| |].
  - intros i' [= ->]. split; [done|]. rewrite Hall. by rewrite decide_True.
  - intros d Hd Hne. left. rewrite Hall, decide_False by done. by apply Hf.
  - intros i' [= ->]. split; [done|]. rewrite Hall. by rewrite decide_True.
  - intros d Hd Hne. left. rewrite Hall, decide_False by done. by apply Hf.
  - destruct (decide (NeighborEntry.extended e = NeighborEntry.extended v)) as [Hev'|Hne'].
    { exfalso.
      rewrite <- Hev' in Hgone. destruct Hwf' as [Hnd' _].
      assert (NeighborTable.by_extended s' (NeighborEntry.extended e) = Some e) as E; [|congruence].
      apply (find_key_elem NeighborEntry.extended); [done| |done]. by eapply list_elem_of_lookup_2. }
    split_and!; [done|done| |].
    + intros i' [= ->]. split; [done|]. rewrite Hall by done. by rewrite decide_True.
    + intros d Hd Hne. destruct (decide (NeighborEntry.extended d = NeighborEntry.extended v)) as [E|Hdv].
      * right. assert (d = v) as -> by (pose proof (Hf d Hd) as E1; rewrite E, (Hf v Hv) in E1; congruence).
        split; [done|]. split; [done|]. by apply neighbor_evictable_spec.
      * left. rewrite Hall, decide_False by done. by apply Hf.
  - split_and!; [done|done|done|]. intros d Hd _. left. by apply Hf.
Qed.

(** A full table of two: the silent sibling goes, the silent parent stays. *)
Definition example_entry (n : Z) (r : Relationship.t) (age cost : Z) : NeighborEntry.t :=
  let e := NeighborEntry.new n n LogicalDeviceType.Router true r 200 in
  NeighborEntry.mk n n LogicalDeviceType.Router true 0 0 0 r 0 (NeighborEntry.lqa e) cost age false 0 0 0 0 0 0
    None None None.

Lemma neighbor_insert_protects_witness :
  let s := NeighborTable.mk (K:=2)
    [example_entry 1 Relationship.Parent 9 0; example_entry 2 Relationship.Sibling 9 0] 2 0 0 in
  let e := example_entry 3 Relationship.Sibling 0 1 in
  let '(r, s') := NeighborTable.insert s e 3 in
  NeighborTable.wf s' ∧
  (r = Err NeighborTableError.Full → s' = s ∧ NeighborTable.len s = 2%nat) ∧
  (∀ i, r = Ok i → NeighborTable.entries s' !! i = Some e ∧
     NeighborTable.by_extended s' (NeighborEntry.extended e) = Some e) ∧
  ∀ d, d ∈ NeighborTable.entries s → NeighborEntry.extended d ≠ NeighborEntry.extended e →
    NeighborTable.by_extended s' (NeighborEntry.extended d) = Some d ∨
    NeighborTable.by_extended s' (NeighborEntry.extended d) = None ∧ NeighborTable.len s = 2%nat ∧
    NeighborEntry.relationship d ≠ Relationship.Parent ∧
    Relationship.is_child (NeighborEntry.relationship d) = false ∧ 3 < NeighborEntry.age d.
Proof.
  apply neighbor_insert_protects. split; [|cbn; lia].
  apply (bool_decide_unpack _). by vm_compute.
Defined.

(** The link quality of a neighbour is the median of the last three beacons
    or frames heard from it (the lower one while there are only two, the single
    one before that), so one outlier among three never moves it outside the
    range of the other two; the link cost computed from it is from 1 to 7. *)
Theorem lqa_filter_median (first : Z) (heard : list Z) :
  LqaFilter.value (foldl LqaFilter.push (LqaFilter.new first) heard) = filtered (reverse (first :: heard)) ∧
  (∀ a b c rest, reverse (first :: heard) = c :: b :: a :: rest →
    let v := LqaFilter.value (foldl LqaFilter.push (LqaFilter.new first) heard) in
    (Z.min a b ≤ v ≤ Z.max a b) ∧ (Z.min a c ≤ v ≤ Z.max a c) ∧ (Z.min b c ≤ v ≤ Z.max b c)) ∧
  1 ≤ link_cost_from_lqa (LqaFilter.value (foldl LqaFilter.push (LqaFilter.new first) heard)) ≤ 7.
Proof.
  assert (LqaFilter.value (foldl LqaFilter.push (LqaFilter.new first) heard) =
    filtered (reverse (first :: heard))) as E.
  { rewrite reverse_cons. apply holds_value, feed_holds. constructor. }
  split_and!; [done| |apply link_cost_range..].
  intros a b c rest Hr. cbv zeta. rewrite E, Hr. cbn [filtered]. unfold median3. lia.
Qed.

(** C24. A device that stops hearing its surroundings stops: when nine or more
    routers with a known cost fall silent at the same time, the link status
    period after [nwkRouterAgeLimit] collects their addresses into a vector of
    eight and panics, if it has not panicked before.  With at most eight routers
    in the table no period does. *)
Theorem silent_routers_panic {H : Heapless} {K KR : nat} (s : NeighborTable.t K)
    (routes : RoutingTable.t KR) (limit : Z) :
  0 ≤ limit < 255 →
  ((8 < length (List.filter (silent_for 0) (NeighborTable.entries s)))%nat →
   silent_periods (S (Z.to_nat limit)) s routes limit = None) ∧
  ((length (NeighborTable.routers s) ≤ 8)%nat → is_Some (Maint.link_status_period s routes limit)).
Proof.
  intros Hl. split; [|apply few_routers_no_panic]. intros Hn. apply (silent_periods_panic _ _ _ _ 0); [lia..|done].
Qed.

(** Nine siblings in the default table of sixteen, with the default limit of three. *)
Lemma silent_routers_panic_witness :
  silent_periods 4
    (NeighborTable.mk (K:=16) ((λ n, example_entry (Z.of_nat n) Relationship.Sibling 0 1) <$> seq 1 9) 9 0 0)
    (RoutingTable.new 16) 3 = None.
Proof. apply (silent_routers_panic _ _ 3); [lia|]. vm_compute. lia. Defined.

(** Child ageing removes exactly the children whose time has run out, but
    it reports, and forgets the addresses of, at most eight of them: the others
    leave the neighbour table while the address map still answers for them, and
    no event says they are gone. *)
Theorem child_aging_reports_eight {H : Heapless} {K KA KC : nat} (s : NeighborTable.t K)
    (map : AddressMap.t KA) (incoming : IncomingCounters.t KC) (elapsed : Z) :
  1 ≤ elapsed ≤ u32_max →
  let '(s', map', _, reported) := Maint.child_aging s map incoming elapsed in
  let gone := NeighborEntry.extended <$> List.filter (NeighborTable.runs_out elapsed) (NeighborTable.entries s) in
  NeighborTable.entries s' = NeighborTable.count_down elapsed <$>
    List.filter (λ e, negb (NeighborTable.runs_out elapsed e)) (NeighborTable.entries s) ∧
  reported = take 8 gone ∧
  ∀ d, AddressMap.short_for map' d = if decide (d ∈ take 8 gone) then None else AddressMap.short_for map d.
Proof.
  intros He. unfold Maint.child_aging. rewrite (proj2 (Z.leb_le _ _)) by lia. rewrite Z.min_l by lia.
  pose proof (aged_entries 8 s elapsed [] ltac:(lia)) as Hs. revert Hs.
  unfold NeighborTable.age_children. rewrite (proj2 (Z.eqb_neq _ _)) by lia. rewrite push_each_take by (cbn; lia).
  cbn [fst app]. intros Hs. split_and!; [done|done|]. intros d. case_decide as Hd.
  - by apply remove_all_gone.
  - by apply remove_all_others.
Qed.

(** Nine children that all time out, and the ninth still in the address map. *)
Definition example_child (n : Z) : NeighborEntry.t :=
  NeighborEntry.set_timeout (NeighborEntry.new n n LogicalDeviceType.EndDevice false Relationship.Child 200) 0.

Lemma child_aging_reports_eight_witness :
  let children := (λ n, example_child (Z.of_nat n)) <$> seq 1 9 in
  let '(s', map', _, reported) :=
    Maint.child_aging (NeighborTable.mk (K:=16) children 9 0 0) (AddressMap.mk (K:=16) [(9, 9)])
      (IncomingCounters.new 16) 10 in
  NeighborTable.entries s' = [] ∧ reported = [1; 2; 3; 4; 5; 6; 7; 8] ∧
  AddressMap.short_for map' 9 = Some 9.
Proof.
  pose proof (child_aging_reports_eight
    (NeighborTable.mk (K:=16) ((λ n, example_child (Z.of_nat n)) <$> seq 1 9) 9 0 0)
    (AddressMap.mk (K:=16) [(9, 9)]) (IncomingCounters.new 16) 10 ltac:(vm_compute; split; congruence)) as Hc.
  cbv zeta in Hc |- *. destruct (Maint.child_aging _ _ _ _) as [[[s' map'] c] reported].
  destruct Hc as (Hs & Hr & Hm). rewrite Hs, Hr, (Hm 9). split_and!; by vm_compute.
Defined.

(** The clock of the child timers counts too few seconds, at worst about
    half: it never counts more than has passed, and over any run of polls the
    time up to the last ageing is at most 1.999 seconds per second counted,
    because every ageing restarts the clock and drops the part of a second that
    is left.  Polls 1999 ms apart reach the bound, so a child is kept for almost
    twice its timeout. *)
Theorem child_clock_lags (start : Z) (times : list Z) (n : nat) :
  StronglySorted Z.le (start :: times) →
  (let '(counted, aged) := polls start times in
   start + 1000 * counted ≤ aged ≤ start + 1999 * counted ∧ aged ≤ default start (last times) < aged + 1000) ∧
  (polls start ((λ i, start + 1999 * (Z.of_nat i + 1)) <$> seq 0 n)).1 = Z.of_nat n.
Proof.
  intros Hs. split; [|by rewrite polls_drift]. pose proof (polls_bounds times start Hs) as Hb.
  destruct (polls start times). by destruct Hb as (_ & Hb & Hl).
Qed.

Lemma child_clock_lags_witness :
  (polls 0 ((λ i, 0 + 1999 * (Z.of_nat i + 1)) <$> seq 0 10)).1 = 10.
Proof. apply (child_clock_lags 0 [] 10). repeat constructor. Defined.

(** Whenever an operation on the joining list succeeds and changes the policy
    or the list, the update identifier changes, so whoever caches the list
    notices.  A list response that is refused is different: with more entries
    than the table holds, the entries that fit have replaced the list when the
    operation reports failure, under the old identifier. *)
Theorem joining_list_announces {H : Heapless} {K : nat} (j : JoiningList.t K) :
  uint 8 (JoiningList.update_id j) →
  (∀ op j', run_join op j = (true, j') →
    JoiningList.policy j' ≠ JoiningList.policy j ∨ JoiningList.list j' ≠ JoiningList.list j →
    JoiningList.update_id j' ≠ JoiningList.update_id j) ∧
  (∀ total es, length (JoiningList.list j) = K → (K < length es)%nat → total ≠ 0 →
    JoiningList.apply j (JoiningList.policy j) total 0 es =
      (false, JoiningList.mk (JoiningList.policy j) (JoiningList.update_id j) (take K es))).
Proof.
  intros Hu. split.
  - intros op j' Hr Hc. destruct (run_join_bumped op j j' Hu Hr) as (n & Hn & He & Hsame).
    rewrite He. destruct (decide (n = 0)) as [->|Hne]; [destruct (Hsame eq_refl); naive_solver|].
    unfold wrap, uint in *. intros E.
    assert ((JoiningList.update_id j + n) mod 2 ^ 8 = JoiningList.update_id j mod 2 ^ 8) as E'
      by (rewrite (Z.mod_small (JoiningList.update_id j)) by done; done).
    pose proof (Z.div_mod (JoiningList.update_id j + n) (2 ^ 8) ltac:(lia)).
    rewrite (Z.mod_small (JoiningList.update_id j)) in E' by done. lia.
  - intros total es Hl He Ht. unfold JoiningList.apply, JoiningList.set_policy.
    rewrite bool_decide_true by done. cbn [negb]. rewrite (proj2 (Z.eqb_neq _ _)) by done.
    change (Z.to_nat 0) with 0%nat. rewrite apply_entries_overfull by lia.
    by rewrite take_0, Nat.sub_0_r.
Qed.

(** A list of one, replaced under the identifier it had. *)
Lemma joining_list_announces_witness :
  JoiningList.apply (JoiningList.mk (K:=1) JoiningPolicy.IeeeListJoin 7 [1]) JoiningPolicy.IeeeListJoin 2 0 [2; 3] =
    (false, JoiningList.mk JoiningPolicy.IeeeListJoin 7 [2]).
Proof.
  apply (joining_list_announces (JoiningList.mk (K:=1) JoiningPolicy.IeeeListJoin 7 [1]));
    [split; vm_compute; congruence|done|cbn; lia|done].
Defined.
