(* ===== verification/NwkBeacon.v ===== *)
(** * Global TLVs and beacon payloads (panweave-nwk/src/tlv.rs, beacon.rs)

    The typed TLVs that beacons and network commands carry, one module each, and
    the beacon payload whose appendix holds them.  [GlobalTlv] is what every
    typed TLV promises: the octets it writes parse back to it, also when a later
    revision has appended fields that the parser cannot take for its own. *)

From S2P Require Import Prelude Types Codec Wire Tlv NwkFrame.

Module tag.
Definition MANUFACTURER_SPECIFIC : Z := 64.
Definition SUPPORTED_KEY_NEGOTIATION_METHODS : Z := 65.
Definition PAN_ID_CONFLICT_REPORT : Z := 66.
Definition NEXT_PAN_ID_CHANGE : Z := 67.
Definition NEXT_CHANNEL_CHANGE : Z := 68.
Definition SYMMETRIC_PASSPHRASE : Z := 69.
Definition ROUTER_INFORMATION : Z := 70.
Definition FRAGMENTATION_PARAMETERS : Z := 71.
Definition JOINER_ENCAPSULATION : Z := 72.
Definition BEACON_APPENDIX_ENCAPSULATION : Z := 73.
Definition BDB_ENCAPSULATION : Z := 74.
Definition CONFIGURATION_PARAMETERS : Z := 75.
Definition DEVICE_CAPABILITY_EXTENSION : Z := 76.
End tag.

Definition too_short (t : Tlv) (min : nat) : result unit TlvError :=
  if (length (value t) <? min)%nat then Err (Malformed (Tlv.tag t)) else Ok tt.

(** [too_short(t, min)?; Ok(f(t))] *)
Definition parse_min {A} (min : nat) (f : list Z → A) (t : Tlv) : result A TlvError :=
  match too_short t min with
  | Err e => Err e
  | Ok _ => Ok (f (value t))
  end.

(** [u16::from_le_bytes([v[i], v[i + 1]])] *)
Definition u16_at (v : list Z) (i : nat) : Z := from_le (take 2 (drop i v)).

Module SupportedKeyNegotiationMethods.
Record t : Type := mk { protocols : Z; secrets : Z; source : option Z }.

Definition PROTO_STATIC_KEY_REQUEST : Z := 2 ^ 0.
Definition PROTO_SPEKE_CURVE25519_AES_MMO : Z := 2 ^ 1.
Definition PROTO_SPEKE_CURVE25519_SHA256 : Z := 2 ^ 2.
Definition SECRET_AUTH_TOKEN : Z := 2 ^ 0.
Definition SECRET_INSTALL_CODE : Z := 2 ^ 1.
Definition SECRET_PASSCODE : Z := 2 ^ 2.

Definition parse : Tlv → result t TlvError :=
  parse_min 2 (λ v, mk (nth 0 v 0) (nth 1 v 0) (from_le <$> get_range v 2 10)).
Definition write (m : t) : SE Writer.t CodecError unit :=
  write_tlv_with tag.SUPPORTED_KEY_NEGOTIATION_METHODS (
    Writer.u8 (protocols m);;
    Writer.u8 (secrets m);;
    match source m with Some s => Writer.u64_le s | None => mret tt end).
Definition offers_key_negotiation (m : t) : bool :=
  flag (Z.lor PROTO_SPEKE_CURVE25519_AES_MMO PROTO_SPEKE_CURVE25519_SHA256) (protocols m).
End SupportedKeyNegotiationMethods.

Module PanIdConflictReport.
Record t : Type := mk { count : Z }.
Definition parse : Tlv → result t TlvError := parse_min 2 (λ v, mk (u16_at v 0)).
Definition write (m : t) : SE Writer.t CodecError unit :=
  write_tlv tag.PAN_ID_CONFLICT_REPORT (to_le 2 (count m)).
End PanIdConflictReport.

Module NextPanIdChange.
Record t : Type := mk { pan_id : Z }.
Definition parse : Tlv → result t TlvError := parse_min 2 (λ v, mk (u16_at v 0)).
Definition write (m : t) : SE Writer.t CodecError unit :=
  write_tlv tag.NEXT_PAN_ID_CHANGE (to_le 2 (pan_id m)).
End NextPanIdChange.

Module NextChannelChange.
Record t : Type := mk { mask : Z }.
Definition parse : Tlv → result t TlvError := parse_min 4 (λ v, mk (from_le (take 4 v))).
Definition write (m : t) : SE Writer.t CodecError unit :=
  write_tlv tag.NEXT_CHANNEL_CHANGE (to_le 4 (mask m)).
End NextChannelChange.

Module SymmetricPassphrase.
Record t : Type := mk { value : list Z }.
Definition parse : Tlv → result t TlvError := parse_min 16 (λ v, mk (take 16 v)).
Definition write (m : t) : SE Writer.t CodecError unit := write_tlv tag.SYMMETRIC_PASSPHRASE (value m).
End SymmetricPassphrase.

Module RouterInformation.
Record t : Type := mk { bits : Z }.

Definition HUB_CONNECTIVITY : Z := 2 ^ 0.
Definition LONG_UPTIME : Z := 2 ^ 1.
Definition PREFERRED_PARENT : Z := 2 ^ 2.
Definition BATTERY_BACKUP : Z := 2 ^ 3.
Definition ENHANCED_BEACON_REQUEST : Z := 2 ^ 4.
Definition MAC_DATA_POLL_KEEPALIVE : Z := 2 ^ 5.
Definition END_DEVICE_KEEPALIVE : Z := 2 ^ 6.
Definition POWER_NEGOTIATION : Z := 2 ^ 7.

Definition parse : Tlv → result t TlvError := parse_min 2 (λ v, mk (u16_at v 0)).
Definition write (m : t) : SE Writer.t CodecError unit := write_tlv tag.ROUTER_INFORMATION (to_le 2 (bits m)).
Definition hub_connectivity (m : t) : bool := flag HUB_CONNECTIVITY (bits m).
Definition long_uptime (m : t) : bool := flag LONG_UPTIME (bits m).
Definition preferred_parent (m : t) : bool := flag PREFERRED_PARENT (bits m).
End RouterInformation.

Module FragmentationParameters.
Record t : Type := mk { node : Z; options : Z; max_incoming_transfer_unit : Z }.
Definition parse : Tlv → result t TlvError :=
  parse_min 5 (λ v, mk (u16_at v 0) (nth 2 v 0) (u16_at v 3)).
Definition write (m : t) : SE Writer.t CodecError unit :=
  write_tlv_with tag.FRAGMENTATION_PARAMETERS (
    Writer.u16_le (node m);; Writer.u8 (options m);; Writer.u16_le (max_incoming_transfer_unit m)).
End FragmentationParameters.

Module ConfigurationParameters.
Record t : Type := mk { bits : Z }.
Definition ZDO_RESTRICTED_MODE : Z := 2 ^ 0.
Definition REQUIRE_LINK_KEY_FOR_TRANSPORT_KEY : Z := 2 ^ 1.
Definition LEAVE_REQUEST_ALLOWED : Z := 2 ^ 2.
Definition parse : Tlv → result t TlvError := parse_min 2 (λ v, mk (u16_at v 0)).
Definition write (m : t) : SE Writer.t CodecError unit :=
  write_tlv tag.CONFIGURATION_PARAMETERS (to_le 2 (bits m)).
End ConfigurationParameters.

Module DeviceCapabilityExtension.
Record t : Type := mk { bits : Z }.
Definition ZIGBEE_DIRECT_VIRTUAL_DEVICE : Z := 2 ^ 0.
Definition parse : Tlv → result t TlvError := parse_min 2 (λ v, mk (u16_at v 0)).
Definition write (m : t) : SE Writer.t CodecError unit :=
  write_tlv tag.DEVICE_CAPABILITY_EXTENSION (to_le 2 (bits m)).
End DeviceCapabilityExtension.

Definition write_encapsulation (tg : Z) (body : SE Writer.t CodecError unit) : SE Writer.t CodecError unit :=
  write_tlv_with tg body.

(** ** The accessors of a validated set *)

Module GlobalTlvs.
(** [self.find(tag).and_then(|t| parse(&t).ok())] *)
Definition find_parsed {A} (s : TlvSet.t) (tg : Z) (parse : Tlv → result A TlvError) : option A :=
  t ← TlvSet.find s tg;
  match parse t with Ok v => Some v | Err _ => None end.
Definition find_inner (s : TlvSet.t) (tg : Z) : option TlvSet.t :=
  find_parsed s tg (λ t, TlvSet.validate (value t) (λ _, false)).

Definition key_negotiation_methods (s : TlvSet.t) : option SupportedKeyNegotiationMethods.t :=
  find_parsed s tag.SUPPORTED_KEY_NEGOTIATION_METHODS SupportedKeyNegotiationMethods.parse.
Definition router_information (s : TlvSet.t) : option RouterInformation.t :=
  find_parsed s tag.ROUTER_INFORMATION RouterInformation.parse.
Definition fragmentation_parameters (s : TlvSet.t) : option FragmentationParameters.t :=
  find_parsed s tag.FRAGMENTATION_PARAMETERS FragmentationParameters.parse.
Definition joiner_encapsulation (s : TlvSet.t) : option TlvSet.t := find_inner s tag.JOINER_ENCAPSULATION.
Definition beacon_appendix_encapsulation (s : TlvSet.t) : option TlvSet.t :=
  find_inner s tag.BEACON_APPENDIX_ENCAPSULATION.
Definition symmetric_passphrase (s : TlvSet.t) : option SymmetricPassphrase.t :=
  find_parsed s tag.SYMMETRIC_PASSPHRASE SymmetricPassphrase.parse.
Definition configuration_parameters (s : TlvSet.t) : option ConfigurationParameters.t :=
  find_parsed s tag.CONFIGURATION_PARAMETERS ConfigurationParameters.parse.
Definition device_capability_extension (s : TlvSet.t) : option DeviceCapabilityExtension.t :=
  find_parsed s tag.DEVICE_CAPABILITY_EXTENSION DeviceCapabilityExtension.parse.
End GlobalTlvs.

(** ** Beacon payloads *)

Definition PROTOCOL_ID_ZIGBEE : Z := 0x00.
Definition STACK_PROFILE_PRO : Z := 0x02.
Definition TX_OFFSET_NONE : Z := 0x00FFFFFF.
Definition BEACON_INFO_LEN : nat := 15.

Module BeaconPayload.
Record t : Type := mk {
  protocol_id : Z;
  stack_profile : Z;
  protocol_version : Z;
  router_capacity : bool;
  device_depth : Z;
  end_device_capacity : bool;
  extended_pan_id : Z;
  tx_offset : Z;
  update_id : Z;
  appendix : list Z
}.

Definition new (extended_pan_id : Z) (router_capacity end_device_capacity : bool) (update_id : Z)
    (appendix : list Z) : t :=
  mk PROTOCOL_ID_ZIGBEE STACK_PROFILE_PRO PROTOCOL_VERSION router_capacity 0 end_device_capacity
    extended_pan_id TX_OFFSET_NONE update_id appendix.

Definition is_zigbee_pro (b : t) : bool :=
  (protocol_id b =? PROTOCOL_ID_ZIGBEE) && (protocol_version b =? PROTOCOL_VERSION)
  && (stack_profile b =? STACK_PROFILE_PRO).

Definition appendix_tlvs (b : t) : option TlvSet.t :=
  if (length (appendix b) =? 0)%nat then None
  else match TlvSet.validate (appendix b) (λ _, false) with Ok s => Some s | Err _ => None end.
Definition has_appendix (b : t) : bool := is_some (appendix_tlvs b).

#[global] Instance Decode_t : Decode t :=
  protocol_id ← Reader.u8;
  b1 ← Reader.u8;
  b2 ← Reader.u8;
  extended_pan_id ← Reader.u64_le;
  tx_offset ← Reader.u24_le;
  update_id ← Reader.u8;
  appendix ← Reader.take_rest;
  mret (mk protocol_id (Z.land b1 0x0F) (Z.shiftr b1 4) (flag 0x04 b2) (Z.land (Z.shiftr b2 3) 0x0F)
          (flag 0x80 b2) extended_pan_id tx_offset update_id appendix).

Definition octet1 (b : t) : Z := Z.lor (Z.land (stack_profile b) 0x0F) (wrap 8 (Z.shiftl (protocol_version b) 4)).
Definition octet2 (b : t) : Z :=
  Z.lor (Z.lor (Z.shiftl (Z_of_bool (router_capacity b)) 2) (Z.shiftl (Z.land (device_depth b) 0x0F) 3))
        (Z.shiftl (Z_of_bool (end_device_capacity b)) 7).

#[global] Instance Encode_t : Encode t := {
  encoded_len b := (BEACON_INFO_LEN + length (appendix b))%nat;
  encode b :=
    Writer.u8 (protocol_id b);;
    Writer.u8 (octet1 b);;
    Writer.u8 (octet2 b);;
    Writer.u64_le (extended_pan_id b);;
    Writer.u24_le (tx_offset b);;
    Writer.u8 (update_id b);;
    Writer.bytes (appendix b)
}.
End BeaconPayload.

(** ** What a typed TLV promises *)

Class GlobalTlv (A : Type) := {
  gt_tag : Z;
  gt_parse : Tlv → result A TlvError;
  gt_write : A → SE Writer.t CodecError unit;
  gt_ok : A → Prop;
  gt_value : A → list Z;
  (** The octets a later revision may append without changing the meaning. *)
  gt_follows : A → list Z → Prop;
  gt_tag_ok : uint 8 gt_tag ∧ gt_tag ≠ MANUFACTURER_SPECIFIC_TAG ∧ is_global_encapsulation gt_tag = false;
  gt_value_ok a : gt_ok a → (1 ≤ length (gt_value a) ≤ 16)%nat ∧ bytes_ok (gt_value a);
  gt_writes a : gt_ok a → writes (gt_write a) (tlv_wire (MkTlv gt_tag (gt_value a)));
  gt_parses a ext : gt_ok a → gt_follows a ext → gt_parse (MkTlv gt_tag (gt_value a ++ ext)) = Ok a
}.
Arguments gt_tag A {_}.

Section typed.
Lemma writes_tlv_with tg v body :
  uint 8 tg → (1 ≤ length v ≤ 256)%nat → bytes_ok v → writes body v →
  writes (write_tlv_with tg body) (tlv_wire (MkTlv tg v)).
Proof.
  intros Ht Hl Hv Hb w Hw.
  destruct (writes_write_tlv (MkTlv tg v) (conj Ht (conj Hl Hv)) w Hw) as [Hok _]. cbn [tag value] in Hok.
  split; intros Hr.
  - rewrite write_tlv_with_equiv with (v := v); try done. by apply Hok.
  - assert (writes (Writer.u8 tg;; Writer.u8 0;; body) ([tg] ++ [0] ++ v)) as Hpre.
    { apply writes_bind; [apply writes_u8|]. by apply writes_bind; [apply writes_u8|]. }
    destruct (Hpre w Hw) as [_ Herr]. destruct (Herr Hr) as (n & a & w' & He). exists n, a, w'.
    unfold write_tlv_with. erewrite se_bind_ok by done. cbv beta. revert He. unfold mbind, se_bind.
    destruct (Writer.u8 tg w) as [[]w1]; [|done]. destruct (Writer.u8 0 w1) as [[]w2]; [|done].
    by destruct (body w2) as [[]].
Qed.

Lemma writes_plain tg v :
  uint 8 tg → (1 ≤ length v ≤ 256)%nat → bytes_ok v → writes (write_tlv tg v) (tlv_wire (MkTlv tg v)).
Proof. intros Ht Hl Hv. by apply (writes_write_tlv (MkTlv tg v)). Qed.

Lemma parse_min_ok {A} min (f : list Z → A) tg v a :
  (min ≤ length v)%nat → f v = a → parse_min min f (MkTlv tg v) = Ok a.
Proof.
  intros Hl <-. unfold parse_min, too_short. cbn [value]. by rewrite (proj2 (Nat.ltb_ge _ _)).
Qed.

Lemma u16_at_le v ext : uint 16 v → u16_at (to_le 2 v ++ ext) 0 = v.
Proof. intros Hv. unfold u16_at. rewrite drop_0, take_app_length' by done. by apply from_to_le. Qed.

(** A two-octet value. *)
Lemma parse_u16 {A} (f : Z → A) tg v ext :
  uint 16 v → parse_min 2 (λ b, f (u16_at b 0)) (MkTlv tg (to_le 2 v ++ ext)) = Ok (f v).
Proof. intros Hv. apply parse_min_ok; [len|]. by rewrite u16_at_le. Qed.
End typed.

(** The laws of a TLV that is one 16-bit word. *)
Ltac word_tlv :=
  [> done
   | intros ? _; split; [rewrite length_to_le; lia|apply to_le_bytes_ok]
   | intros ? _; apply writes_plain; [done|rewrite length_to_le; lia|apply to_le_bytes_ok]
   | intros [?] ? ? _; by apply parse_u16].

#[export, refine] Instance pan_id_conflict_report_tlv : GlobalTlv PanIdConflictReport.t := {
  gt_tag := tag.PAN_ID_CONFLICT_REPORT; gt_parse := PanIdConflictReport.parse;
  gt_write := PanIdConflictReport.write; gt_ok m := uint 16 (PanIdConflictReport.count m);
  gt_value m := to_le 2 (PanIdConflictReport.count m); gt_follows _ _ := True
}.
Proof. all: word_tlv. Defined.

#[export, refine] Instance next_pan_id_change_tlv : GlobalTlv NextPanIdChange.t := {
  gt_tag := tag.NEXT_PAN_ID_CHANGE; gt_parse := NextPanIdChange.parse;
  gt_write := NextPanIdChange.write; gt_ok m := uint 16 (NextPanIdChange.pan_id m);
  gt_value m := to_le 2 (NextPanIdChange.pan_id m); gt_follows _ _ := True
}.
Proof. all: word_tlv. Defined.

#[export, refine] Instance router_information_tlv : GlobalTlv RouterInformation.t := {
  gt_tag := tag.ROUTER_INFORMATION; gt_parse := RouterInformation.parse;
  gt_write := RouterInformation.write; gt_ok m := uint 16 (RouterInformation.bits m);
  gt_value m := to_le 2 (RouterInformation.bits m); gt_follows _ _ := True
}.
Proof. all: word_tlv. Defined.

#[export, refine] Instance configuration_parameters_tlv : GlobalTlv ConfigurationParameters.t := {
  gt_tag := tag.CONFIGURATION_PARAMETERS; gt_parse := ConfigurationParameters.parse;
  gt_write := ConfigurationParameters.write; gt_ok m := uint 16 (ConfigurationParameters.bits m);
  gt_value m := to_le 2 (ConfigurationParameters.bits m); gt_follows _ _ := True
}.
Proof. all: word_tlv. Defined.

#[export, refine] Instance device_capability_extension_tlv : GlobalTlv DeviceCapabilityExtension.t := {
  gt_tag := tag.DEVICE_CAPABILITY_EXTENSION; gt_parse := DeviceCapabilityExtension.parse;
  gt_write := DeviceCapabilityExtension.write; gt_ok m := uint 16 (DeviceCapabilityExtension.bits m);
  gt_value m := to_le 2 (DeviceCapabilityExtension.bits m); gt_follows _ _ := True
}.
Proof. all: word_tlv. Defined.

#[export, refine] Instance next_channel_change_tlv : GlobalTlv NextChannelChange.t := {
  gt_tag := tag.NEXT_CHANNEL_CHANGE; gt_parse := NextChannelChange.parse;
  gt_write := NextChannelChange.write; gt_ok m := uint 32 (NextChannelChange.mask m);
  gt_value m := to_le 4 (NextChannelChange.mask m); gt_follows _ _ := True
}.
Proof.
  - done.
  - intros a _. split; [rewrite length_to_le; lia|apply to_le_bytes_ok].
  - intros a _. apply writes_plain; [done|rewrite length_to_le; lia|apply to_le_bytes_ok].
  - intros [m] ext Hm _. apply parse_min_ok; [len|]. cbn in *. rewrite take_app_length' by len.
    by rewrite from_to_le.
Defined.

#[export, refine] Instance symmetric_passphrase_tlv : GlobalTlv SymmetricPassphrase.t := {
  gt_tag := tag.SYMMETRIC_PASSPHRASE; gt_parse := SymmetricPassphrase.parse;
  gt_write := SymmetricPassphrase.write;
  gt_ok m := length (SymmetricPassphrase.value m) = 16%nat ∧ bytes_ok (SymmetricPassphrase.value m);
  gt_value m := SymmetricPassphrase.value m; gt_follows _ _ := True
}.
Proof.
  - done.
  - intros a [Hl Hb]. split; [lia|done].
  - intros a [Hl Hb]. apply writes_plain; [done|lia|done].
  - intros [m] ext [Hm _] _. apply parse_min_ok; [cbn in *; len|]. cbn in *. by rewrite take_app_length' by done.
Defined.

#[export, refine] Instance fragmentation_parameters_tlv : GlobalTlv FragmentationParameters.t := {
  gt_tag := tag.FRAGMENTATION_PARAMETERS; gt_parse := FragmentationParameters.parse;
  gt_write := FragmentationParameters.write;
  gt_ok m := uint 16 (FragmentationParameters.node m) ∧ uint 8 (FragmentationParameters.options m) ∧
    uint 16 (FragmentationParameters.max_incoming_transfer_unit m);
  gt_value m := to_le 2 (FragmentationParameters.node m) ++ [FragmentationParameters.options m] ++
    to_le 2 (FragmentationParameters.max_incoming_transfer_unit m);
  gt_follows _ _ := True
}.
Proof.
  - done.
  - intros a (_ & Ho & _). split; [len|]. repeat (apply bytes_ok_app; split); try apply to_le_bytes_ok.
    constructor; [done|constructor].
  - intros a (_ & Ho & _). apply writes_tlv_with; [done|len| |write_fields].
    repeat (apply bytes_ok_app; split); try apply to_le_bytes_ok. constructor; [done|constructor].
  - intros [n o m] ext (Hn & Ho & Hm) _. cbn in Hn, Ho, Hm. cbn [FragmentationParameters.node
      FragmentationParameters.options FragmentationParameters.max_incoming_transfer_unit].
    rewrite <- !app_assoc. apply parse_min_ok; [len|]. f_equal.
    + by apply u16_at_le.
    + rewrite <- (u16_at_le m ext Hm) at 2. by change (to_le 2 n) with [n mod 256; (n / 256) mod 256].
Defined.

(** Without its source address the list of methods has to end there: eight octets
    that a later revision appends would be read as the address. *)
#[export, refine] Instance key_negotiation_tlv : GlobalTlv SupportedKeyNegotiationMethods.t := {
  gt_tag := tag.SUPPORTED_KEY_NEGOTIATION_METHODS; gt_parse := SupportedKeyNegotiationMethods.parse;
  gt_write := SupportedKeyNegotiationMethods.write;
  gt_ok m := uint 8 (SupportedKeyNegotiationMethods.protocols m) ∧
    uint 8 (SupportedKeyNegotiationMethods.secrets m) ∧
    from_option (uint 64) True (SupportedKeyNegotiationMethods.source m);
  gt_value m := [SupportedKeyNegotiationMethods.protocols m] ++ [SupportedKeyNegotiationMethods.secrets m] ++
    from_option (to_le 8) [] (SupportedKeyNegotiationMethods.source m);
  gt_follows m ext := is_some (SupportedKeyNegotiationMethods.source m) = true ∨ (length ext < 8)%nat
}.
Proof.
  - done.
  - intros [p s src] (Hp & Hs & _). cbn in *. split; [destruct src; len|].
    constructor; [done|]. constructor; [done|]. destruct src; [apply to_le_bytes_ok|constructor].
  - intros [p s src] (Hp & Hs & _). cbn in Hp, Hs. apply writes_tlv_with; [done|destruct src; cbn; len| |write_fields].
    constructor; [done|]. constructor; [done|]. destruct src; [apply to_le_bytes_ok|constructor].
  - intros [p s [src|]] ext (Hp & Hs & Ho) Hext; cbn in *.
    + do 2 f_equal.
      pose proof (get_range_app [p; s] (to_le 8 src) ext) as Hg. rewrite length_to_le in Hg. cbn in Hg |- *.
      rewrite Hg. cbn. by rewrite from_to_le.
    + destruct Hext as [|Hext]; [done|]. do 8 (destruct ext as [|? ext]; [done|]). cbn in Hext. lia.
Defined.

(** ** Reading a set back *)

Lemma tlv_spec_valid ts :
  tlv_spec (λ _, false) ts → TlvSet.validate (tlvs_wire ts) (λ _, false) = Ok (TlvSet.mk (tlvs_wire ts)).
Proof.
  intros Hts. apply validate_accepts; [by apply tlvs_wire_bytes, Hts|]. exists ts.
  split_and!; [done|done|apply iter_wire, Hts].
Qed.

(** What an accessor of a message makes of its TLVs: the one with the tag is read
    as the value whose octets it holds, and without one there is nothing. *)
Definition reads {A} (accessor : TlvSet.t → option A) (tg : Z) (holds : A → list Z → Prop) (ts : list Tlv) : Prop :=
  (∀ a v, MkTlv tg v ∈ ts → holds a v → accessor (TlvSet.mk (tlvs_wire ts)) = Some a) ∧
  ((∀ t, t ∈ ts → Tlv.tag t ≠ tg) → accessor (TlvSet.mk (tlvs_wire ts)) = None).

Section sets.
Context {A : Type} `{!GlobalTlv A}.

(** The accessor of a TLV finds it among any others of a valid message. *)
Lemma find_parsed_reads ts (holds : A → list Z → Prop) :
  tlv_spec (λ _, false) ts →
  (∀ a v, holds a v → ∃ ext, gt_ok a ∧ gt_follows a ext ∧ v = gt_value a ++ ext) →
  reads (λ s, GlobalTlvs.find_parsed s (gt_tag A) gt_parse) (gt_tag A) holds ts.
Proof.
  intros Hts Hholds. pose proof (tlvs_wire_bytes _ (proj1 Hts)) as Hb. pose proof (tlv_spec_valid _ Hts) as Hv.
  assert (∀ t, TlvSet.find (TlvSet.mk (tlvs_wire ts)) (gt_tag A) = Some t ↔ t ∈ ts ∧ Tlv.tag t = gt_tag A) as Hf.
  { intros t. destruct (tlv_find_unique _ _ _ (gt_tag A) t Hb Hv) as [Hf _]; [apply gt_tag_ok|].
    by rewrite iter_wire in Hf by apply Hts. }
  unfold GlobalTlvs.find_parsed. split.
  - intros a v Hin (ext & Ha & Hext & ->)%Hholds. rewrite (proj2 (Hf _) (conj Hin eq_refl)). cbn. by rewrite gt_parses.
  - intros Hno. destruct (TlvSet.find _ _) as [t|]; [|done]. destruct (proj1 (Hf t) eq_refl) as [Hin Ht]. by apply Hno in Ht.
Qed.
End sets.

(** ** Beacons *)

Module BeaconWf.
Definition payload (b : BeaconPayload.t) : Prop :=
  uint 8 (BeaconPayload.protocol_id b) ∧ uint 4 (BeaconPayload.stack_profile b) ∧
  uint 4 (BeaconPayload.protocol_version b) ∧ uint 4 (BeaconPayload.device_depth b) ∧
  uint 64 (BeaconPayload.extended_pan_id b) ∧ uint 24 (BeaconPayload.tx_offset b) ∧
  uint 8 (BeaconPayload.update_id b) ∧ bytes_ok (BeaconPayload.appendix b).
End BeaconWf.

Definition beacon_wire (b : BeaconPayload.t) : list Z :=
  [BeaconPayload.protocol_id b] ++ [BeaconPayload.octet1 b] ++ [BeaconPayload.octet2 b] ++
  to_le 8 (BeaconPayload.extended_pan_id b) ++ take 3 (to_le 4 (BeaconPayload.tx_offset b)) ++
  [BeaconPayload.update_id b] ++ BeaconPayload.appendix b.

Section beacon.
#[export] Instance u24_Field : Field Reader.u24_le (λ v, take 3 (to_le 4 v)) (uint 24).
Proof.
  assert (∀ b, length b = 3%nat → bytes_ok b → uint 24 (from_le (b ++ [0])) ∧
    take 3 (to_le 4 (from_le (b ++ [0]))) = b) as Hback.
  { intros [|x [|y [|z [|]]]] Hl Hb; try done. apply Forall_cons in Hb as [Hx Hb].
    apply Forall_cons in Hb as [Hy Hb]. apply Forall_cons in Hb as [Hz _]. unfold uint in Hx, Hy, Hz.
    assert (from_le ([x; y; z] ++ [0]) = x + 256 * (y + 256 * z)) as Hf by (cbn; lia). rewrite Hf.
    split; [unfold uint; lia|].
    replace (to_le 4 (x + 256 * (y + 256 * z))) with (to_le 4 (from_le [x; y; z; 0])) by (f_equal; cbn; lia).
    change 4%nat with (length [x; y; z; 0]). rewrite to_from_le; [done|].
    do 4 (apply Forall_cons; split; [done|]). constructor. }
  split.
  - intros v Hv.
    assert (from_le (take 3 (to_le 4 v) ++ [0]) = v) as Hr.
    { rewrite <- (from_to_le 4 v) at 2 by (unfold uint in *; lia). f_equal.
      change (to_le 4 v) with [v mod 256; (v / 256) mod 256; (v / 256 / 256) mod 256; (v / 256 / 256 / 256) mod 256].
      cbn [take app]. do 4 f_equal. unfold uint in Hv. rewrite !Z.div_div by lia.
      rewrite Z.div_small by lia. done. }
    rewrite <- Hr at 2. unfold Reader.u24_le. apply (decodes_map _ (λ b, from_le (b ++ [0]))).
    by apply decodes_array.
  - intros r v r' Hok Hd. unfold Reader.u24_le in Hd. parse_field Hd b. injection Hd as <- <-.
    destruct W as [Hl Hb]. destruct (Hback b Hl Hb) as [Hu Ht]. by rewrite Ht.
Qed.

Lemma nibble_cases i : uint 4 i → i ∈ Z.of_nat <$> seq 0 16.
Proof.
  intros Hi. apply list_elem_of_fmap. exists (Z.to_nat i). unfold uint in Hi. split; [lia|].
  apply elem_of_seq. lia.
Qed.

Lemma beacon_octet1 b :
  uint 4 (BeaconPayload.stack_profile b) → uint 4 (BeaconPayload.protocol_version b) →
  Z.land (BeaconPayload.octet1 b) 0x0F = BeaconPayload.stack_profile b ∧
  Z.shiftr (BeaconPayload.octet1 b) 4 = BeaconPayload.protocol_version b.
Proof.
  intros Hs%nibble_cases Hv%nibble_cases. unfold BeaconPayload.octet1.
  assert (Forall (λ s, Forall (λ v, Z.land (Z.lor (Z.land s 0x0F) (wrap 8 (Z.shiftl v 4))) 0x0F = s ∧
    Z.shiftr (Z.lor (Z.land s 0x0F) (wrap 8 (Z.shiftl v 4))) 4 = v)
      (Z.of_nat <$> seq 0 16)) (Z.of_nat <$> seq 0 16)) as Hall by (apply (bool_decide_unpack _); by vm_compute).
  rewrite Forall_forall in Hall. specialize (Hall _ Hs). rewrite Forall_forall in Hall. by apply Hall.
Qed.

Lemma beacon_octet2 b :
  uint 4 (BeaconPayload.device_depth b) →
  flag 0x04 (BeaconPayload.octet2 b) = BeaconPayload.router_capacity b ∧
  Z.land (Z.shiftr (BeaconPayload.octet2 b) 3) 0x0F = BeaconPayload.device_depth b ∧
  flag 0x80 (BeaconPayload.octet2 b) = BeaconPayload.end_device_capacity b.
Proof.
  intros Hd%nibble_cases. unfold BeaconPayload.octet2. revert Hd.
  generalize (BeaconPayload.device_depth b). intros d Hd. revert d Hd. apply Forall_forall.
  destruct (BeaconPayload.router_capacity b), (BeaconPayload.end_device_capacity b);
    (apply (bool_decide_unpack _); by vm_compute).
Qed.

Lemma beacon_writes b : writes (encode b) (beacon_wire b).
Proof. cbn [encode BeaconPayload.Encode_t]. unfold beacon_wire, Writer.u24_le. write_fields. Qed.

Lemma beacon_decodes b : BeaconWf.payload b → decodes_all decode (beacon_wire b) b.
Proof.
  intros (? & Hs & Hv & Hd & ? & ? & ? & ?). unfold decode, BeaconPayload.Decode_t, beacon_wire.
  destruct (beacon_octet1 b Hs Hv) as [E1 E2]. destruct (beacon_octet2 b Hd) as (E3 & E4 & E5).
  do 4 read_field_end. eapply decodes_all_bind; [by apply (field_decodes (Field:=u24_Field))|].
  do 2 read_field_end. rewrite E1, E2, E3, E4, E5. destruct b. apply decodes_all_ret.
Qed.

Lemma beacon_len b : encoded_len b = length (beacon_wire b).
Proof. cbn [encoded_len BeaconPayload.Encode_t]. unfold beacon_wire, BEACON_INFO_LEN. len. Qed.
End beacon.

#[export] Instance beacon_FullCodec : FullCodec BeaconPayload.t := {
  full_ok := BeaconWf.payload;
  full_wire := beacon_wire;
  full_writes b _ := beacon_writes b;
  full_decodes := beacon_decodes;
  full_len b _ := beacon_len b
}.

Section appendix.
Lemma list_elem_not_nil {A} (x : A) l : x ∈ l → l ≠ [].
Proof. by intros Hx ->; apply not_elem_of_nil in Hx. Qed.

Lemma beacon_appendix epid rc ec u ts :
  tlv_spec (λ _, false) ts → ts ≠ [] →
  BeaconPayload.appendix_tlvs (BeaconPayload.new epid rc ec u (tlvs_wire ts)) = Some (TlvSet.mk (tlvs_wire ts)).
Proof.
  intros Hts Hne. unfold BeaconPayload.appendix_tlvs. cbn [BeaconPayload.new BeaconPayload.appendix].
  assert (length (tlvs_wire ts) ≠ 0%nat) as Hl by (by destruct ts).
  rewrite (proj2 (Nat.eqb_neq _ _) Hl).
  by rewrite tlv_spec_valid.
Qed.
End appendix.

(** The octets of the TLVs a joining device looks for, by Annex I.4; octets a later
    revision appends may follow. *)
Module TlvOctets.
Definition router_information (m : RouterInformation.t) (v : list Z) : Prop :=
  uint 16 (RouterInformation.bits m) ∧ ∃ ext, v = to_le 2 (RouterInformation.bits m) ++ ext.
Definition fragmentation (m : FragmentationParameters.t) (v : list Z) : Prop :=
  uint 16 (FragmentationParameters.node m) ∧ uint 8 (FragmentationParameters.options m) ∧
  uint 16 (FragmentationParameters.max_incoming_transfer_unit m) ∧
  ∃ ext, v = (to_le 2 (FragmentationParameters.node m) ++ [FragmentationParameters.options m] ++
    to_le 2 (FragmentationParameters.max_incoming_transfer_unit m)) ++ ext.
(** After a list of methods without a source address fewer than eight. *)
Definition key_negotiation (m : SupportedKeyNegotiationMethods.t) (v : list Z) : Prop :=
  uint 8 (SupportedKeyNegotiationMethods.protocols m) ∧ uint 8 (SupportedKeyNegotiationMethods.secrets m) ∧
  ∃ ext, v = [SupportedKeyNegotiationMethods.protocols m; SupportedKeyNegotiationMethods.secrets m] ++
    from_option (to_le 8) [] (SupportedKeyNegotiationMethods.source m) ++ ext ∧
    match SupportedKeyNegotiationMethods.source m with Some a => uint 64 a | None => (length ext < 8)%nat end.
End TlvOctets.

(** ** Theorems *)

(** C35. A joining device learns what a router advertises: the beacon payload of
    a Zigbee PRO router with any valid, non-empty set of TLVs in its appendix
    survives the wire, is recognised as Zigbee PRO and as carrying an R23 appendix,
    and its router information, fragmentation parameters and key negotiation
    methods are read as the octets of the TLV with their tag, octets appended by a
    later revision being ignored, and as absent when there is no such TLV.  (After
    key negotiation methods without a source address, eight or more appended
    octets would be read as that address: fewer are required.)  What the writers
    of the three put into an appendix is such a TLV. *)
Theorem beacon_advertises (epid : Z) (routers end_devices : bool) (update_id : Z) (ts : list Tlv) (out : list Z) :
  uint 64 epid → uint 8 update_id → tlv_spec (λ _, false) ts → ts ≠ [] →
  let b := BeaconPayload.new epid routers end_devices update_id (tlvs_wire ts) in
  (encoded_len b ≤ length out)%nat →
  (∃ out', encode_to_slice b out = (Ok (encoded_len b), out') ∧ decode_exact (take (encoded_len b) out') = Ok b) ∧
  BeaconPayload.is_zigbee_pro b = true ∧ BeaconPayload.appendix_tlvs b = Some (TlvSet.mk (tlvs_wire ts)) ∧
  (reads GlobalTlvs.router_information 70 TlvOctets.router_information ts ∧
   reads GlobalTlvs.fragmentation_parameters 71 TlvOctets.fragmentation ts ∧
   reads GlobalTlvs.key_negotiation_methods 65 TlvOctets.key_negotiation ts) ∧
  (∀ m v, TlvOctets.router_information m v → length v = 2%nat → writes (RouterInformation.write m) (tlv_wire (MkTlv 70 v))) ∧
  (∀ m v, TlvOctets.fragmentation m v → length v = 5%nat → writes (FragmentationParameters.write m) (tlv_wire (MkTlv 71 v))) ∧
  (∀ m v, TlvOctets.key_negotiation m v →
     length v = match SupportedKeyNegotiationMethods.source m with Some _ => 10 | None => 2 end%nat →
     writes (SupportedKeyNegotiationMethods.write m) (tlv_wire (MkTlv 65 v))).
Proof.
  intros He Hu Hts Hne b Hlen.
  assert (bytes_ok (tlvs_wire ts)) as Hb by (by apply tlvs_wire_bytes, Hts).
  destruct (full_round_trip (HC:=beacon_FullCodec) b out) as (out' & E1 & E2 & _); [|done|].
  { split_and!; try done; unfold uint; cbn; lia. }
  split; [by exists out'|]. split; [done|]. split; [by apply beacon_appendix|]. split; [split; [|split]|split; [|split]].
  - refine (find_parsed_reads (A:=RouterInformation.t) ts TlvOctets.router_information Hts _). intros m v (Hm & ext & ->). by exists ext.
  - refine (find_parsed_reads (A:=FragmentationParameters.t) ts TlvOctets.fragmentation Hts _). intros m v (? & ? & ? & ext & ->). by exists ext.
  - refine (find_parsed_reads (A:=SupportedKeyNegotiationMethods.t) ts TlvOctets.key_negotiation Hts _).
    intros [p s src] v (Hp & Hs & ext & -> & Hsrc). exists ext. cbn in *. by destruct src; split_and!; try done; [left|right].
  - intros m v (Hm & ext & ->) Hl. rewrite length_app, length_to_le in Hl. destruct ext; [|cbn in Hl; lia].
    rewrite app_nil_r. by refine (gt_writes (A:=RouterInformation.t) m _).
  - intros m v (? & ? & ? & ext & ->) Hl. rewrite !length_app, !length_to_le in Hl. destruct ext; [|cbn in Hl; lia].
    rewrite app_nil_r. by refine (gt_writes (A:=FragmentationParameters.t) m _).
  - intros [p s src] v (Hp & Hs & ext & -> & Hsrc) Hl. cbn in Hl, Hsrc, Hp, Hs.
    destruct ext; [|destruct src; cbn in Hl; rewrite ?length_app, ?length_to_le in Hl; cbn in Hl; lia].
    cbn [from_option SupportedKeyNegotiationMethods.source]. rewrite app_nil_r.
    refine (gt_writes (A:=SupportedKeyNegotiationMethods.t) (SupportedKeyNegotiationMethods.mk p s src) _). by destruct src.
Qed.

(** A router with hub connectivity and its fragmentation parameters, the latter
    with an octet this revision does not know, and no key negotiation. *)
Lemma beacon_advertises_witness :
  let ts := [MkTlv 70 [1; 0]; MkTlv 71 [0; 0; 1; 128; 0; 9]] in
  let b := BeaconPayload.new 0x0011223344556677 true false 9 (tlvs_wire ts) in
  (∃ out', encode_to_slice b (replicate 32 0) = (Ok (encoded_len b), out') ∧ decode_exact (take (encoded_len b) out') = Ok b) ∧
  GlobalTlvs.fragmentation_parameters (TlvSet.mk (tlvs_wire ts)) = Some (FragmentationParameters.mk 0 1 128) ∧
  GlobalTlvs.key_negotiation_methods (TlvSet.mk (tlvs_wire ts)) = None.
Proof.
  intros ts b.
  destruct (beacon_advertises 0x0011223344556677 true false 9 ts (replicate 32 0)) as (H1 & _ & _ & (_ & H2 & H3) & _).
  - split; vm_compute; congruence.
  - split; vm_compute; congruence.
  - split_and!.
    + repeat constructor; vm_compute; congruence.
    + apply (bool_decide_unpack _). by vm_compute.
    + repeat constructor; done.
  - done.
  - vm_compute. lia.
  - split; [exact H1|]. split.
    + apply (proj1 H2 _ [0; 0; 1; 128; 0; 9]); [right; left|].
      split_and!; [split; vm_compute; congruence..|]. exists [9]. reflexivity.
    + apply (proj2 H3). intros t [->|[->|[]%not_elem_of_nil]%elem_of_cons]%elem_of_cons; cbn; lia.
Defined.
