(* ===== verification/NwkDiscovery.v ===== *)
(** * Network discovery (panweave-nwk/src/discovery.rs)

    The candidates a scan has found, ranked as parents.  The rank packs the
    criteria into one word, most important first; [ranked] lists the candidates
    that qualify, best first. *)

From stdpp Require Import sorting.
From S2P Require Import Prelude Heapless NwkBeacon.

Definition MAX_APPENDIX : nat := 24.

Module Candidate.
Record t : Type := mk {
  extended_pan_id : Z;
  pan_id : Z;
  page : Z;
  channel : Z;
  short : Z;
  extended : option Z;
  lqa : Z;
  update_id : Z;
  router_capacity : bool;
  end_device_capacity : bool;
  permit_joining : bool;
  pan_coordinator : bool;
  router_info : option RouterInformation.t;
  r23 : bool;
  appendix : list Z;
  attempts : Z
}.

Definition with_attempts (c : t) (attempts : Z) : t :=
  mk (extended_pan_id c) (pan_id c) (page c) (channel c) (short c) (extended c) (lqa c) (update_id c)
    (router_capacity c) (end_device_capacity c) (permit_joining c) (pan_coordinator c) (router_info c) (r23 c)
    (appendix c) attempts.

(** The criteria of the rank. *)
Definition info (c : t) : RouterInformation.t := default (RouterInformation.mk 0) (router_info c).
Definition newest (c : t) (current_update_id : Z) : Z :=
  let delta := wrap 8 (update_id c - current_update_id) in
  if delta <? 0x80 then delta else 0.
Definition is_parent (c : t) (current_parent : option Z) : bool := bool_decide (current_parent = Some (short c)).

Definition rank (c : t) (current_update_id : Z) (current_parent : option Z) : Z :=
  let hub := Z_of_bool (RouterInformation.hub_connectivity (info c)) in
  let preferred := Z_of_bool (RouterInformation.preferred_parent (info c)) in
  let uptime := Z_of_bool (RouterInformation.long_uptime (info c)) in
  Z.lor (Z.lor (Z.lor (Z.lor (Z.lor (Z.shiftl hub 28) (Z.shiftl preferred 27)) (Z.shiftl uptime 26))
    (Z.shiftl (newest c current_update_id) 18)) (Z.shiftl (Z_of_bool (is_parent c current_parent)) 17)) (lqa c).
End Candidate.

Module DiscoveryTable.
Record t (K : nat) : Type := mk { entries : list Candidate.t }.
Arguments mk {K} _.
Arguments entries {K} _.

Definition new K : t K := mk [].

Section table.
Context {H : Heapless} {K : nat}.
Implicit Types s : t K.

Definition same (c e : Candidate.t) : bool :=
  (Candidate.pan_id e =? Candidate.pan_id c) && (Candidate.channel e =? Candidate.channel c)
  && (Candidate.short e =? Candidate.short c).

Definition add s (c : Candidate.t) (current_update_id : Z) (current_parent : option Z) : t K :=
  let rank e := Candidate.rank e current_update_id current_parent in
  match List.find (same c) (entries s) with
  | Some _ =>
      mk (update_first (same c) (λ e, Candidate.with_attempts c (Candidate.attempts e)) (entries s))
  | None =>
      if vec_is_full K (entries s) then
        match min_by (λ _, true) (λ a b, rank a <? rank b) 0 None (entries s) with
        | None => s
        | Some (idx, worst) => if rank worst <? rank c then mk (<[idx := c]> (entries s)) else s
        end
      else
        match vec_push K (entries s) c with
        | Ok es => mk es
        | Err _ => s
        end
  end.

(** The conditions of the [continue]s. *)
Definition qualifies (extended_pan_id : option Z) (as_router require_permit : bool) (good_lqa : Z)
    (good_only : bool) (max_attempts : Z) (c : Candidate.t) : bool :=
  negb (match extended_pan_id with
        | Some e => negb (Candidate.extended_pan_id c =? e)
        | None => false
        end)
  && negb (require_permit && negb (Candidate.permit_joining c))
  && negb (as_router && negb (Candidate.router_capacity c))
  && negb (negb as_router && negb (Candidate.end_device_capacity c))
  && negb (good_only && (Candidate.lqa c <? good_lqa))
  && negb (negb good_only && (good_lqa <=? Candidate.lqa c))
  && negb (max_attempts <=? Candidate.attempts c).

(** [for (i, c) in self.entries.iter().enumerate()], pushing the indices kept. *)
Fixpoint select (keep : Candidate.t → bool) (i : nat) (cs : list Candidate.t) (idx : list nat) : list nat :=
  match cs with
  | [] => idx
  | c :: cs =>
      select keep (S i) cs
        (if keep c then match vec_push K idx i with Ok v => v | Err _ => idx end else idx)
  end.

(** [idx.swap(i, j)] *)
Definition swap (l : list nat) (i j : nat) : list nat :=
  match l !! i, l !! j with
  | Some x, Some y => <[i := y]> (<[j := x]> l)
  | _, _ => l
  end.

(** The inner loop: the element at [j] moves towards the front while it ranks
    higher than the one before it. *)
Fixpoint sink (rank_at : nat → Z) (j : nat) (idx : list nat) : list nat :=
  match j with
  | O => idx
  | S p =>
      let a := rank_at (nth p idx 0%nat) in
      let b := rank_at (nth j idx 0%nat) in
      if a <? b then sink rank_at p (swap idx p j) else idx
  end.

Definition sort_by_rank (rank_at : nat → Z) (idx : list nat) : list nat :=
  foldl (λ idx i, sink rank_at i idx) idx (seq 0 (length idx)).

Definition rank_at s (current_update_id : Z) (current_parent : option Z) (i : nat) : Z :=
  match entries s !! i with
  | Some c => Candidate.rank c current_update_id current_parent
  | None => 0
  end.

(** The new contents of [out]. *)
Definition ranked s (extended_pan_id : option Z) (as_router require_permit : bool) (good_lqa : Z)
    (good_only : bool) (current_update_id : Z) (current_parent : option Z) (max_attempts : Z) : list nat :=
  let idx := select (qualifies extended_pan_id as_router require_permit good_lqa good_only max_attempts)
    0 (entries s) [] in
  let idx := sort_by_rank (rank_at s current_update_id current_parent) idx in
  foldl (λ out i, match vec_push K out i with Ok v => v | Err _ => out end) [] idx.

Definition get s (index : nat) : option Candidate.t := entries s !! index.
Definition get_mut s (index : nat) (f : Candidate.t → Candidate.t) : t K := mk (alter f index (entries s)).

(** The first candidate of every extended PAN identifier. *)
Definition networks s : list Candidate.t :=
  omap (λ i,
    match entries s !! i with
    | Some c =>
        if existsb (λ p, Candidate.extended_pan_id p =? Candidate.extended_pan_id c) (take i (entries s))
        then None else Some c
    | None => None
    end) (seq 0 (length (entries s))).

Definition len s : nat := length (entries s).
Definition is_empty s : bool := (len s =? 0)%nat.
Definition clear s : t K := mk (vec_clear (entries s)).

Definition wf s : Prop := (length (entries s) ≤ K)%nat.
End table.
End DiscoveryTable.

(** ** The rank is the lexicographic order of the criteria *)

Section rank.
Context (u : Z) (p : option Z).
Implicit Types c : Candidate.t.

(** The criteria, most important first. *)
Definition criteria c : list Z :=
  [Z_of_bool (RouterInformation.hub_connectivity (Candidate.info c));
   Z_of_bool (RouterInformation.preferred_parent (Candidate.info c));
   Z_of_bool (RouterInformation.long_uptime (Candidate.info c));
   Candidate.newest c u;
   Z_of_bool (Candidate.is_parent c p);
   Candidate.lqa c].

(** [a] comes before [b] in lexicographic order. *)
Fixpoint lex_lt (a b : list Z) : Prop :=
  match a, b with
  | x :: a, y :: b => x < y ∨ x = y ∧ lex_lt a b
  | _, _ => False
  end.

Lemma lor_high x k v : 0 ≤ k → uint k v → Z.lor (x * 2 ^ k) v = x * 2 ^ k + v.
Proof.
  intros Hk Hv. rewrite Z.lor_comm, <- Z.shiftl_mul_pow2, lor_shiftl_add by done.
  rewrite Z.shiftl_mul_pow2 by done. lia.
Qed.

Lemma newest_range c : 0 ≤ Candidate.newest c u < 128.
Proof.
  unfold Candidate.newest, wrap. pose proof (Z.mod_pos_bound (Candidate.update_id c - u) (2 ^ 8)).
  case_match eqn:E; [apply Z.ltb_lt in E|]; lia.
Qed.

Lemma rank_sum c :
  uint 8 (Candidate.lqa c) →
  Candidate.rank c u p =
    Z_of_bool (RouterInformation.hub_connectivity (Candidate.info c)) * 2 ^ 28 +
    Z_of_bool (RouterInformation.preferred_parent (Candidate.info c)) * 2 ^ 27 +
    Z_of_bool (RouterInformation.long_uptime (Candidate.info c)) * 2 ^ 26 +
    Candidate.newest c u * 2 ^ 18 + Z_of_bool (Candidate.is_parent c p) * 2 ^ 17 + Candidate.lqa c.
Proof.
  intros Hq. unfold Candidate.rank. cbv zeta.
  assert (∀ b, 0 ≤ Z_of_bool b ≤ 1) as Hb by (intros []; cbn; lia).
  pose proof (Hb (RouterInformation.hub_connectivity (Candidate.info c))).
  pose proof (Hb (RouterInformation.preferred_parent (Candidate.info c))).
  pose proof (Hb (RouterInformation.long_uptime (Candidate.info c))).
  pose proof (Hb (Candidate.is_parent c p)). pose proof (newest_range c). clear Hb.
  set (h := Z_of_bool (RouterInformation.hub_connectivity _)) in *.
  set (f := Z_of_bool (RouterInformation.preferred_parent _)) in *.
  set (t := Z_of_bool (RouterInformation.long_uptime _)) in *.
  set (q := Z_of_bool (Candidate.is_parent _ _)) in *.
  rewrite !Z.shiftl_mul_pow2 by lia. unfold uint in Hq.
  rewrite (lor_high h 28 (f * 2 ^ 27)) by (unfold uint; lia).
  replace (h * 2 ^ 28 + f * 2 ^ 27) with ((2 * h + f) * 2 ^ 27) by lia.
  rewrite (lor_high _ 27) by (unfold uint; lia).
  replace ((2 * h + f) * 2 ^ 27 + t * 2 ^ 26) with ((4 * h + 2 * f + t) * 2 ^ 26) by lia.
  rewrite (lor_high _ 26) by (unfold uint; lia).
  replace ((4 * h + 2 * f + t) * 2 ^ 26 + Candidate.newest c u * 2 ^ 18)
    with (((4 * h + 2 * f + t) * 2 ^ 8 + Candidate.newest c u) * 2 ^ 18) by lia.
  rewrite (lor_high _ 18) by (unfold uint; lia).
  replace (((4 * h + 2 * f + t) * 2 ^ 8 + Candidate.newest c u) * 2 ^ 18 + q * 2 ^ 17)
    with ((((4 * h + 2 * f + t) * 2 ^ 8 + Candidate.newest c u) * 2 + q) * 2 ^ 17) by lia.
  rewrite (lor_high _ 17) by (unfold uint; lia). lia.
Qed.

Lemma rank_lex c1 c2 :
  uint 8 (Candidate.lqa c1) → uint 8 (Candidate.lqa c2) →
  Candidate.rank c1 u p < Candidate.rank c2 u p ↔ lex_lt (criteria c1) (criteria c2).
Proof.
  intros H1 H2. rewrite !rank_sum by done. unfold criteria. cbn [lex_lt]. unfold uint in *.
  pose proof (newest_range c1). pose proof (newest_range c2).
  assert (∀ b, 0 ≤ Z_of_bool b ≤ 1) as Hb by (intros []; cbn; lia).
  pose proof (Hb (RouterInformation.hub_connectivity (Candidate.info c1))).
  pose proof (Hb (RouterInformation.preferred_parent (Candidate.info c1))).
  pose proof (Hb (RouterInformation.long_uptime (Candidate.info c1))).
  pose proof (Hb (Candidate.is_parent c1 p)).
  pose proof (Hb (RouterInformation.hub_connectivity (Candidate.info c2))).
  pose proof (Hb (RouterInformation.preferred_parent (Candidate.info c2))).
  pose proof (Hb (RouterInformation.long_uptime (Candidate.info c2))).
  pose proof (Hb (Candidate.is_parent c2 p)). clear Hb. lia.
Qed.
End rank.

(** ** Sorting *)

Section sorting.
Context {H : Heapless} {K : nat} (r : nat → Z).

(** Best first. *)
Definition better (i j : nat) : Prop := r j ≤ r i.

Lemma sorted_snoc l x :
  StronglySorted better l → Forall (λ y, better y x) l → StronglySorted better (l ++ [x]).
Proof.
  induction 1 as [|y l Hs IH Hy]; intros Hx; cbn; [by repeat constructor|].
  apply Forall_cons in Hx as [Hyx Hx]. constructor; [by apply IH|]. apply Forall_app. by split; [|constructor].
Qed.

Lemma sorted_snoc_inv l x :
  StronglySorted better (l ++ [x]) → StronglySorted better l ∧ Forall (λ y, better y x) l.
Proof.
  induction l as [|y l IH]; cbn; [by split; constructor|].
  intros [Hs Hyl]%StronglySorted_inv. apply Forall_app in Hyl as [Hf Hx]. apply Forall_cons in Hx as [Hx _].
  destruct (IH Hs) as [Hl Hlx]. split; constructor; done.
Qed.

Lemma sorted_lookup l :
  StronglySorted better l → ∀ i j x y, (i < j)%nat → l !! i = Some x → l !! j = Some y → better x y.
Proof.
  induction 1 as [|z l Hs IH Hz]; intros i j x y Hij Hi Hj; [done|].
  destruct i as [|i], j as [|j]; try lia; cbn in Hi, Hj.
  - injection Hi as <-. by eapply Forall_lookup_1.
  - by apply (IH i j); [lia|..].
Qed.

Lemma sink_inserts pre x suf :
  StronglySorted better pre →
  ∃ pre', DiscoveryTable.sink r (length pre) (pre ++ x :: suf) = pre' ++ suf ∧
    pre' ≡ₚ pre ++ [x] ∧ StronglySorted better pre'.
Proof.
  revert suf. induction pre as [|y pre IH] using rev_ind; intros suf Hs.
  - exists [x]. split_and!; [done..|by repeat constructor].
  - destruct (sorted_snoc_inv _ _ Hs) as [Hpre Hy].
    rewrite length_app, Nat.add_1_r. cbn [DiscoveryTable.sink].
    rewrite <- app_assoc. cbn [app].
    rewrite (app_nth2 pre), Nat.sub_diag by lia. cbn [nth].
    rewrite (app_nth2 pre) by lia. replace (S (length pre) - length pre)%nat with 1%nat by lia. cbn [nth].
    destruct (Z.ltb_spec (r y) (r x)) as [Hlt|Hge].
    + assert (DiscoveryTable.swap (pre ++ y :: x :: suf) (length pre) (S (length pre)) = pre ++ x :: y :: suf) as ->.
      { unfold DiscoveryTable.swap. rewrite list_lookup_middle by done.
        rewrite lookup_app_r by lia. replace (S (length pre) - length pre)%nat with 1%nat by lia. cbn [lookup list_lookup].
        rewrite insert_app_r_alt by lia. replace (S (length pre) - length pre)%nat with 1%nat by lia.
        rewrite insert_app_r_alt by lia. by rewrite Nat.sub_diag. }
      destruct (IH (y :: suf) Hpre) as (pre' & -> & Hp & Hs'). exists (pre' ++ [y]). split_and!.
      * by rewrite <- app_assoc.
      * rewrite Hp, <- !app_assoc. apply Permutation_app_head, Permutation_swap.
      * apply sorted_snoc; [done|]. rewrite Hp. apply Forall_app. split; [done|]. constructor; [|constructor].
        unfold better. lia.
    + exists ((pre ++ [y]) ++ [x]). split_and!; [by rewrite <- !app_assoc|done|].
      apply sorted_snoc; [done|]. apply Forall_app. split; [|by constructor].
      eapply Forall_impl; [exact Hy|]. unfold better. intros z Hz. lia.
Qed.

Lemma sort_steps n l :
  (n ≤ length l)%nat →
  ∃ pre, foldl (λ idx i, DiscoveryTable.sink r i idx) l (seq 0 n) = pre ++ drop n l ∧
    pre ≡ₚ take n l ∧ StronglySorted better pre.
Proof.
  induction n as [|n IH]; intros Hn.
  - exists []. cbn. rewrite drop_0. split_and!; [done..|constructor].
  - destruct IH as (pre & E & Hp & Hs); [lia|]. rewrite seq_S, foldl_app, E. cbn [foldl].
    destruct (lookup_lt_is_Some_2 l n) as [x Hx]; [lia|].
    rewrite (drop_S l x n Hx).
    assert (length pre = n) as Hl by (rewrite Hp; rewrite length_take; lia).
    replace (0 + n)%nat with (length pre) by lia.
    destruct (sink_inserts pre x (drop (S n) l) Hs) as (pre' & E' & Hp' & Hs').
    exists pre'. rewrite E'. split_and!; [done| |done]. rewrite Hp', Hp. by rewrite (take_S_r l n x Hx).
Qed.

Lemma sort_by_rank_spec l :
  DiscoveryTable.sort_by_rank r l ≡ₚ l ∧ StronglySorted better (DiscoveryTable.sort_by_rank r l).
Proof.
  unfold DiscoveryTable.sort_by_rank. destruct (sort_steps (length l) l) as (pre & -> & Hp & Hs); [done|].
  rewrite drop_all, app_nil_r. rewrite take_ge in Hp by done. done.
Qed.
End sorting.

(** ** Selecting *)

Section selecting.
Context {H : Heapless} {K : nat}.

Lemma push_all {A} (l out : list A) :
  (length out + length l ≤ K)%nat →
  foldl (λ out i, match vec_push K out i with Ok v => v | Err _ => out end) out l = out ++ l.
Proof.
  revert out. induction l as [|x l IH]; intros out Hl; cbn in *; [by rewrite app_nil_r|].
  rewrite vec_push_room by lia. rewrite IH by (rewrite length_app; cbn; lia). by rewrite <- app_assoc.
Qed.

Lemma select_spec keep cs i idx :
  (length idx + length cs ≤ K)%nat →
  ∃ l, DiscoveryTable.select (K:=K) keep i cs idx = idx ++ l ∧ NoDup l ∧ (length l ≤ length cs)%nat ∧
    ∀ k, k ∈ l ↔ ∃ c j, cs !! j = Some c ∧ k = (i + j)%nat ∧ keep c = true.
Proof.
  revert i idx. induction cs as [|c cs IH]; intros i idx Hl; cbn [DiscoveryTable.select length] in *.
  - exists []. rewrite app_nil_r. split_and!; [done|constructor|done|].
    intros k. split; [by intros ?%not_elem_of_nil|by intros (c & j & Hj & _)].
  - destruct (keep c) eqn:Ec.
    + rewrite vec_push_room by lia. destruct (IH (S i) (idx ++ [i])) as (l & -> & Hnd & Hll & Hin).
      { rewrite length_app. cbn. lia. }
      exists (i :: l). rewrite <- app_assoc. split_and!; [done| |cbn; lia|].
      * constructor; [|done]. intros (c' & j & _ & Hij & _)%Hin. lia.
      * intros k. rewrite elem_of_cons, Hin. split.
        { intros [->|(c' & j & Hj & -> & Hk)]; [exists c, 0%nat; split_and!; [done|lia|done]|].
          exists c', (S j). split_and!; [done|lia|done]. }
        intros (c' & [|j] & Hj & -> & Hk); [left; lia|right]. exists c', j. split_and!; [done|lia|done].
    + destruct (IH (S i) idx) as (l & -> & Hnd & Hll & Hin); [lia|]. exists l. split_and!; [done..|lia|].
      intros k. rewrite Hin. split.
      * intros (c' & j & Hj & -> & Hk). exists c', (S j). split_and!; [done|lia|done].
      * intros (c' & [|j] & Hj & -> & Hk); [cbn in Hj; congruence|]. exists c', j. split_and!; [done|lia|done].
Qed.
End selecting.

(** ** Adding *)

Section adding.
Context {H : Heapless} {K : nat} (u : Z) (p : option Z).
Implicit Types (s : DiscoveryTable.t K) (c : Candidate.t).

Lemma worst_spec (l : list Candidate.t) :
  match min_by (λ _, true) (λ a b, Candidate.rank a u p <? Candidate.rank b u p) 0 None l with
  | None => l = []
  | Some (i, w) => l !! i = Some w ∧ ∀ c, c ∈ l → Candidate.rank w u p ≤ Candidate.rank c u p
  end.
Proof.
  pose proof (min_by_spec (λ _, true) (λ a b, Candidate.rank a u p <? Candidate.rank b u p)
    (λ a, Z.ltb_irrefl _) ltac:(intros a b c E1%Z.ltb_lt E2%Z.ltb_lt; apply Z.ltb_lt; lia)
    l [] None ltac:(by intros x ?%not_elem_of_nil)) as Hm.
  cbn [app length] in Hm. destruct (min_by _ _ _ _ _) as [[i w]|]; cbn in Hm.
  - destruct Hm as (Hi & _ & Hmin). split; [done|]. intros c Hc. specialize (Hmin c Hc eq_refl).
    by apply Z.ltb_ge in Hmin.
  - destruct l as [|c l]; [done|]. by specialize (Hm c (list_elem_of_here _ _)).
Qed.

(** What adding a candidate does. *)
Inductive added s c : DiscoveryTable.t K → Prop :=
  | added_known e s' :
      List.find (DiscoveryTable.same c) (DiscoveryTable.entries s) = Some e →
      DiscoveryTable.entries s' = update_first (DiscoveryTable.same c)
        (λ e, Candidate.with_attempts c (Candidate.attempts e)) (DiscoveryTable.entries s) →
      List.find (DiscoveryTable.same c) (DiscoveryTable.entries s') =
        Some (Candidate.with_attempts c (Candidate.attempts e)) →
      added s c s'
  | added_new s' :
      List.find (DiscoveryTable.same c) (DiscoveryTable.entries s) = None →
      (length (DiscoveryTable.entries s) < K)%nat →
      DiscoveryTable.entries s' = DiscoveryTable.entries s ++ [c] → added s c s'
  | added_over i w s' :
      List.find (DiscoveryTable.same c) (DiscoveryTable.entries s) = None →
      length (DiscoveryTable.entries s) = K → DiscoveryTable.entries s !! i = Some w →
      Candidate.rank w u p < Candidate.rank c u p →
      (∀ e, e ∈ DiscoveryTable.entries s → Candidate.rank w u p ≤ Candidate.rank e u p) →
      DiscoveryTable.entries s' = <[i := c]> (DiscoveryTable.entries s) → added s c s'
  | added_not :
      List.find (DiscoveryTable.same c) (DiscoveryTable.entries s) = None →
      length (DiscoveryTable.entries s) = K →
      (∀ e, e ∈ DiscoveryTable.entries s → Candidate.rank c u p ≤ Candidate.rank e u p) → added s c s.

Lemma add_added s c : DiscoveryTable.wf s → added s c (DiscoveryTable.add s c u p).
Proof.
  intros Hwf. unfold DiscoveryTable.add. destruct (List.find _ _) as [e|] eqn:Ef.
  - eapply added_known; [done|done|]. cbn. rewrite find_update_first; [by rewrite Ef|].
    intros x [[Hx1 Hx2]%andb_true_iff Hx3]%andb_true_iff. unfold DiscoveryTable.same. cbn. by rewrite !Z.eqb_refl.
  - rewrite vec_is_full_spec. destruct (Nat.eqb_spec (length (DiscoveryTable.entries s)) K) as [HK|HK].
    + pose proof (worst_spec (DiscoveryTable.entries s)) as Hw.
      destruct (min_by _ _ _ _ _) as [[i w]|].
      * destruct Hw as [Hi Hmin]. destruct (Z.ltb_spec (Candidate.rank w u p) (Candidate.rank c u p)).
        { by eapply added_over. }
        apply added_not; [done..|]. intros e He. specialize (Hmin e He). lia.
      * apply added_not; [done..|]. rewrite Hw. by intros e ?%not_elem_of_nil.
    + unfold DiscoveryTable.wf in Hwf. rewrite vec_push_room by lia. by apply added_new; [|lia|].
Qed.
End adding.

(** ** Theorems *)

(** The list of parents to try is right: it names exactly the candidates that
    meet every condition (network, permission, capacity, quality class,
    attempts left), each once, and a candidate never comes before a better one,
    where better means the first difference in hub connectivity, preferred
    parent, long uptime, newest update identifier, current parent and link
    quality, in this order. *)
Theorem ranked_best_first {H : Heapless} {K : nat} (s : DiscoveryTable.t K) (epid : option Z)
    (as_router require_permit : bool) (good_lqa : Z) (good_only : bool) (u : Z) (p : option Z) (attempts : Z) :
  DiscoveryTable.wf s → Forall (λ c, uint 8 (Candidate.lqa c)) (DiscoveryTable.entries s) →
  let l := DiscoveryTable.ranked s epid as_router require_permit good_lqa good_only u p attempts in
  NoDup l ∧
  (∀ i, i ∈ l ↔ ∃ c, DiscoveryTable.get s i = Some c ∧
    DiscoveryTable.qualifies epid as_router require_permit good_lqa good_only attempts c = true) ∧
  (∀ i j x y, i < j → l !! i = Some x → l !! j = Some y →
    ∃ c d, DiscoveryTable.get s x = Some c ∧ DiscoveryTable.get s y = Some d ∧
      ¬ lex_lt (criteria u p c) (criteria u p d))%nat.
Proof.
  intros Hwf Hq l. unfold DiscoveryTable.ranked in l.
  destruct (select_spec (K:=K)
    (DiscoveryTable.qualifies epid as_router require_permit good_lqa good_only attempts)
    (DiscoveryTable.entries s) 0 [] Hwf) as (idx & E & Hnd & Hlen & Hin).
  subst l. rewrite E, app_nil_l.
  destruct (sort_by_rank_spec (DiscoveryTable.rank_at s u p) idx) as [Hp Hs].
  rewrite push_all, app_nil_l by (rewrite Hp; cbn; unfold DiscoveryTable.wf in Hwf; lia).
  assert (∀ i, i ∈ DiscoveryTable.sort_by_rank (DiscoveryTable.rank_at s u p) idx ↔ ∃ c,
    DiscoveryTable.get s i = Some c ∧
    DiscoveryTable.qualifies epid as_router require_permit good_lqa good_only attempts c = true) as Hin'.
  { intros i. rewrite Hp, Hin. split; [intros (c & j & Hj & -> & Hc); by exists c|]. intros (c & Hc & Hqc).
    by exists c, i. }
  split_and!; [by rewrite Hp|done|]. intros i j x y Hij Hx Hy.
  destruct (proj1 (Hin' x) (list_elem_of_lookup_2 _ _ _ Hx)) as (c & Hc & _).
  destruct (proj1 (Hin' y) (list_elem_of_lookup_2 _ _ _ Hy)) as (d & Hd & _). exists c, d.
  split_and!; [done..|]. rewrite Forall_forall in Hq.
  rewrite <- rank_lex by (apply Hq; by eapply list_elem_of_lookup_2).
  pose proof (sorted_lookup _ _ Hs i j x y Hij Hx Hy) as Hb. unfold better, DiscoveryTable.rank_at in Hb.
  unfold DiscoveryTable.get in Hc, Hd. rewrite Hc, Hd in Hb. lia.
Qed.

(** Three candidates: the hub comes first, then the better link. *)
Definition example_candidate (short lqa bits : Z) : Candidate.t :=
  Candidate.mk 1 1 0 11 short None lqa 0 true true true false (Some (RouterInformation.mk bits)) true [] 0.

Lemma ranked_best_first_witness :
  let s := DiscoveryTable.mk (K:=4) [example_candidate 1 80 0; example_candidate 2 200 0; example_candidate 3 90 1] in
  let l := DiscoveryTable.ranked s (Some 1) true true 75 true 0 None 3 in
  NoDup l ∧
  (∀ i, i ∈ l ↔ ∃ c, DiscoveryTable.get s i = Some c ∧
    DiscoveryTable.qualifies (Some 1) true true 75 true 3 c = true) ∧
  (∀ i j x y, i < j → l !! i = Some x → l !! j = Some y →
    ∃ c d, DiscoveryTable.get s x = Some c ∧ DiscoveryTable.get s y = Some d ∧
      ¬ lex_lt (criteria 0 None c) (criteria 0 None d))%nat.
Proof.
  apply ranked_best_first; [vm_compute; lia|]. repeat constructor; vm_compute; congruence.
Defined.

(** A full discovery table keeps the best candidates: a known neighbour is
    refreshed without forgetting the attempts already made, a new one takes a
    free slot, and when there is none it replaces a candidate of lowest rank,
    and only one that ranks below it. *)
Theorem discovery_keeps_best {H : Heapless} {K : nat} (s : DiscoveryTable.t K) (c : Candidate.t)
    (u : Z) (p : option Z) :
  DiscoveryTable.wf s →
  DiscoveryTable.wf (DiscoveryTable.add s c u p) ∧ added u p s c (DiscoveryTable.add s c u p).
Proof.
  intros Hwf. pose proof (add_added u p s c Hwf) as Ha. split; [|done]. unfold DiscoveryTable.wf in *.
  destruct Ha as [e s' _ -> _|s' _ Hl ->|i w s' _ Hl _ _ _ ->|].
  - by rewrite length_update_first.
  - rewrite length_app. cbn. lia.
  - rewrite length_insert. lia.
  - done.
Qed.
