(* ===== verification/NwkInterface.v ===== *)
(** * The MAC interface table (panweave-nwk/src/interface.rs)

    The radio interfaces and Trusted Links of a device: which channels each
    supports, which is in use, and the counters the application reads. *)

From S2P Require Import Prelude Types Heapless.

Definition MAX_INDEX : Z := 31.
Definition MAX_LINK_COST_SCALAR : Z := 34.

Module InterfaceType.
Inductive t : Type := ZigbeeLink | TrustedLink.
#[global] Instance eq_dec : EqDecision t.
Proof. solve_decision. Defined.
End InterfaceType.

Module ScanType.
Inductive t : Type := Active | EnhancedActive.
#[global] Instance eq_dec : EqDecision t.
Proof. solve_decision. Defined.
End ScanType.

Module DutyCycleThresholds.
Record t : Type := mk { warning : Z; critical : Z; regulated : Z }.
Definition default : t := mk 0 0 0.
End DutyCycleThresholds.

Module InterfaceCounters.
Record t : Type := mk { rx_ucast : Z; tx_ucast_retries : Z; tx_ucast_failures : Z; tx_ucast_total : Z }.
Definition default : t := mk 0 0 0 0.
End InterfaceCounters.

Module MacInterfaceEntry.
Record t : Type := mk {
  index : Z;
  state : bool;
  supported_channels : list Z;
  channel_in_use : option (Z * Z);
  routers_allowed : bool;
  link_power_delta_transmit_rate : Z;
  beacons_supported : bool;
  enhanced_beacons_supported : bool;
  scan_type : ScanType.t;
  link_cost_scalar : Z;
  kind : InterfaceType.t;
  ble_connection_handle : Z;
  power_negotiation_supported : bool;
  duty_cycle : DutyCycleThresholds.t;
  counters : InterfaceCounters.t
}.

Definition set_channel_in_use (v : option (Z * Z)) (e : t) : t :=
  mk (index e) (state e) (supported_channels e) v (routers_allowed e) (link_power_delta_transmit_rate e)
    (beacons_supported e) (enhanced_beacons_supported e) (scan_type e) (link_cost_scalar e) (kind e)
    (ble_connection_handle e) (power_negotiation_supported e) (duty_cycle e) (counters e).
Definition set_counters (v : InterfaceCounters.t) (e : t) : t :=
  mk (index e) (state e) (supported_channels e) (channel_in_use e) (routers_allowed e)
    (link_power_delta_transmit_rate e) (beacons_supported e) (enhanced_beacons_supported e) (scan_type e)
    (link_cost_scalar e) (kind e) (ble_connection_handle e) (power_negotiation_supported e) (duty_cycle e) v.
Definition disabled (e : t) : t :=
  mk (index e) false (supported_channels e) None (routers_allowed e) (link_power_delta_transmit_rate e)
    (beacons_supported e) (enhanced_beacons_supported e) (scan_type e) (link_cost_scalar e) (kind e)
    (ble_connection_handle e) (power_negotiation_supported e) (duty_cycle e) (counters e).

Section entry.
Context {Hv : Heapless}.

Definition radio (index supported : Z) : t :=
  mk index true (match vec_push 4 [] supported with Ok v => v | Err _ => [] end) None true 16 true false
    ScanType.Active 1 InterfaceType.ZigbeeLink 0 false DutyCycleThresholds.default InterfaceCounters.default.

Definition trusted_link (index handle : Z) : t :=
  let r := radio index ChannelMask.EMPTY in
  mk index (state r) [] (channel_in_use r) (routers_allowed r) (link_power_delta_transmit_rate r) false
    (enhanced_beacons_supported r) (scan_type r) (link_cost_scalar r) InterfaceType.TrustedLink handle
    (power_negotiation_supported r) (duty_cycle r) (counters r).
End entry.

(** Some mask of the list is for [page] and selects [channel]. *)
Definition masks_support (masks : list Z) (page channel : Z) : bool :=
  existsb (λ m, (ChannelMask.page m =? page) && ChannelMask.contains m channel) masks.
Definition supports (e : t) (page channel : Z) : bool := masks_support (supported_channels e) page channel.
Definition supported_on (e : t) (page : Z) : Z :=
  from_option ChannelMask.channels_only ChannelMask.EMPTY
    (List.find (λ m, ChannelMask.page m =? page) (supported_channels e)).
Definition is_radio (e : t) : bool := match kind e with InterfaceType.ZigbeeLink => true | _ => false end.
End MacInterfaceEntry.

Module SetInterface.
Record t : Type := mk {
  index : Z;
  state : bool;
  channel_to_use : option (Z * Z);
  supported_channels : option (list Z);
  routers_allowed : bool;
  duty_cycle : DutyCycleThresholds.t;
  link_cost_scalar : Z
}.
End SetInterface.

Module InterfaceError.
Inductive t : Type := UnknownInterface | LastInterface | InvalidChannel | InvalidParameter.
End InterfaceError.

Module MacInterfaceTable.
Record t (K : nat) : Type := mk { entries : list MacInterfaceEntry.t }.
Arguments mk {K} _.
Arguments entries {K} _.

Section table.
Context {K : nat} {Hv : Heapless}.
Abbreviation table := (t K).
Implicit Types s : table.

Definition single (supported : Z) : table :=
  mk (match vec_push K [] (MacInterfaceEntry.radio 0 supported) with Ok v => v | Err _ => [] end).

Definition at_index (i : Z) (e : MacInterfaceEntry.t) : bool := MacInterfaceEntry.index e =? i.
Definition enabled s : list MacInterfaceEntry.t := List.filter MacInterfaceEntry.state (entries s).
Definition get s (i : Z) : option MacInterfaceEntry.t := List.find (at_index i) (entries s).
(** [if let Some(e) = self.get_mut(index) { *e = f(e) }] *)
Definition get_mut s (i : Z) (f : MacInterfaceEntry.t → MacInterfaceEntry.t) : table :=
  mk (update_first (at_index i) f (entries s)).

Definition insert (e : MacInterfaceEntry.t) : SE table InterfaceError.t unit := λ s,
  if MAX_INDEX <? MacInterfaceEntry.index e then (Err InterfaceError.InvalidParameter, s)
  else if is_some (get s (MacInterfaceEntry.index e)) then (Ok tt, get_mut s (MacInterfaceEntry.index e) (λ _, e))
  else
    match vec_push K (entries s) e with
    | Ok es => (Ok tt, mk es)
    | Err _ => (Err InterfaceError.InvalidParameter, s)
    end.

Definition remove s (i : Z) : bool * table :=
  match position (at_index i) (entries s) with
  | Some p => (true, match vec_swap_remove (entries s) p with Some (_, es) => mk es | None => s end)
  | None => (false, s)
  end.

Definition enable (req : SetInterface.t) (supported : list Z) (ch : option (Z * Z)) (e : MacInterfaceEntry.t)
    : MacInterfaceEntry.t :=
  let d := SetInterface.duty_cycle req in
  MacInterfaceEntry.mk (MacInterfaceEntry.index e) true supported ch (SetInterface.routers_allowed req)
    (MacInterfaceEntry.link_power_delta_transmit_rate e) (MacInterfaceEntry.beacons_supported e)
    (MacInterfaceEntry.enhanced_beacons_supported e) (MacInterfaceEntry.scan_type e)
    (SetInterface.link_cost_scalar req) (MacInterfaceEntry.kind e) (MacInterfaceEntry.ble_connection_handle e)
    (MacInterfaceEntry.power_negotiation_supported e)
    (DutyCycleThresholds.mk (sat_mul 16 (DutyCycleThresholds.warning d) 10)
       (sat_mul 16 (DutyCycleThresholds.critical d) 10) (sat_mul 16 (DutyCycleThresholds.regulated d) 10))
    (MacInterfaceEntry.counters e).

Definition set_interface (req : SetInterface.t) : SE table InterfaceError.t unit := λ s,
  match get s (SetInterface.index req) with
  | None => (Err InterfaceError.UnknownInterface, s)
  | Some e =>
      let on f := get_mut s (SetInterface.index req) f in
      if negb (SetInterface.state req) then
        if negb (existsb (λ e, negb (MacInterfaceEntry.index e =? SetInterface.index req)
                               && MacInterfaceEntry.state e) (entries s))
        then (Err InterfaceError.LastInterface, s)
        else (Ok tt, on MacInterfaceEntry.disabled)
      else if negb ((1 <=? SetInterface.link_cost_scalar req)
                    && (SetInterface.link_cost_scalar req <=? MAX_LINK_COST_SCALAR))
      then (Err InterfaceError.InvalidParameter, s)
      else
        let supported := default (MacInterfaceEntry.supported_channels e) (SetInterface.supported_channels req) in
        if MacInterfaceEntry.is_radio e then
          match SetInterface.channel_to_use req with
          | None => (Err InterfaceError.InvalidChannel, s)
          | Some (page, channel) =>
              if negb (MacInterfaceEntry.masks_support supported page channel)
              then (Err InterfaceError.InvalidChannel, s)
              else (Ok tt, on (enable req supported (Some (page, channel))))
          end
        else (Ok tt, on (λ e, enable req supported (MacInterfaceEntry.channel_in_use e) e))
  end.

(** The entry as read, and the table with its counters reset. *)
Definition get_interface (i : Z) : SE table InterfaceError.t MacInterfaceEntry.t := λ s,
  match get s i with
  | None => (Err InterfaceError.UnknownInterface, s)
  | Some e => (Ok e, get_mut s i (MacInterfaceEntry.set_counters InterfaceCounters.default))
  end.

Definition interface_for s (page channel : Z) : option MacInterfaceEntry.t :=
  List.find (λ e, MacInterfaceEntry.is_radio e && MacInterfaceEntry.supports e page channel) (enabled s).

Definition supported_subset s (mask : Z) : Z :=
  let page := ChannelMask.page mask in
  let out := foldl (λ out e,
    if MacInterfaceEntry.is_radio e
    then Z.lor out (Z.land (ChannelMask.channels_only mask) (MacInterfaceEntry.supported_on e page))
    else out) ChannelMask.EMPTY (enabled s) in
  ChannelMask.with_page out page.

Definition scaled_link_cost s (i cost : Z) : Z :=
  let scalar := from_option (λ e, Z.max (MacInterfaceEntry.link_cost_scalar e) 1) 1 (get s i) in
  Z.min (sat_mul 8 cost scalar) 7.

Definition note_tx s (i retries : Z) (failed : bool) : table :=
  get_mut s i (λ e,
    let c := MacInterfaceEntry.counters e in
    MacInterfaceEntry.set_counters (InterfaceCounters.mk (InterfaceCounters.rx_ucast c)
      (sat_add 16 (InterfaceCounters.tx_ucast_retries c) retries)
      (if failed then sat_add 16 (InterfaceCounters.tx_ucast_failures c) 1 else InterfaceCounters.tx_ucast_failures c)
      (sat_add 16 (InterfaceCounters.tx_ucast_total c) 1)) e).

Definition note_rx s (i : Z) : table :=
  get_mut s i (λ e,
    let c := MacInterfaceEntry.counters e in
    MacInterfaceEntry.set_counters (InterfaceCounters.mk (sat_add 16 (InterfaceCounters.rx_ucast c) 1)
      (InterfaceCounters.tx_ucast_retries c) (InterfaceCounters.tx_ucast_failures c)
      (InterfaceCounters.tx_ucast_total c)) e).
End table.
End MacInterfaceTable.

(** ** Invariant *)

Section invariant.
Context {K : nat} {Hv : Heapless}.
Abbreviation table := (MacInterfaceTable.t K).
Implicit Types (s : table) (e : MacInterfaceEntry.t).

(** An entry's channel, if it is a radio's, is one it supports. *)
Definition channel_supported e : Prop :=
  MacInterfaceEntry.is_radio e = true → ∀ page channel, MacInterfaceEntry.channel_in_use e = Some (page, channel) →
  MacInterfaceEntry.supports e page channel = true.

Record interfaces_ok s : Prop := {
  io_distinct : NoDup (MacInterfaceEntry.index <$> MacInterfaceTable.entries s);
  io_channels : Forall channel_supported (MacInterfaceTable.entries s)
}.

#[local] Instance at_index_key : KeyTest MacInterfaceEntry.index MacInterfaceTable.at_index.
Proof. intros i e. unfold MacInterfaceTable.at_index. apply Z.eqb_eq. Qed.

Lemma enabled_exists s :
  MacInterfaceTable.enabled s ≠ [] ↔ ∃ e, e ∈ MacInterfaceTable.entries s ∧ MacInterfaceEntry.state e = true.
Proof.
  unfold MacInterfaceTable.enabled. split.
  - destruct (List.filter _ _) as [|e l] eqn:E; [done|]. intros _. exists e.
    rewrite list_elem_of_In, <- filter_In, E. by left.
  - intros (e & He & Hs) Hn. assert (e ∈ List.filter MacInterfaceEntry.state (MacInterfaceTable.entries s)) as H.
    { by rewrite list_elem_of_In, filter_In, <- list_elem_of_In. }
    rewrite Hn in H. set_solver.
Qed.

(** An update of the entry at an index that keeps the index. *)
Lemma interface_get_mut_ok s i f :
  interfaces_ok s → (∀ e, MacInterfaceEntry.index (f e) = MacInterfaceEntry.index e) →
  (∀ e, e ∈ MacInterfaceTable.entries s → MacInterfaceEntry.index e = i → channel_supported (f e)) →
  interfaces_ok (MacInterfaceTable.get_mut s i f).
Proof.
  intros [Hd Hc] Hi Hf. split.
  - unfold MacInterfaceTable.get_mut. cbn. rewrite (keys_update_first MacInterfaceEntry.index); [done|]. intros e <-. apply Hi.
  - unfold MacInterfaceTable.get_mut. cbn. induction (MacInterfaceTable.entries s) as [|e l IH]; [constructor|].
    inversion Hc; subst. cbn. destruct (MacInterfaceTable.at_index i e) eqn:E.
    + apply key_test in E. constructor; [apply Hf; [left|done]|done].
    + constructor; [done|]. apply IH; [by inversion Hd|done|]. intros. apply Hf; [by right|done].
Qed.

(** An update that keeps the enabled state of the entries keeps one enabled. *)
Lemma get_mut_enabled s i f :
  (∀ e, MacInterfaceEntry.state e = true → MacInterfaceEntry.state (f e) = true) →
  MacInterfaceTable.enabled s ≠ [] → MacInterfaceTable.enabled (MacInterfaceTable.get_mut s i f) ≠ [].
Proof.
  intros Hf. rewrite !enabled_exists. unfold MacInterfaceTable.get_mut. cbn. intros (e & He & Hs).
  induction (MacInterfaceTable.entries s) as [|x l IH]; [set_solver|]. cbn.
  apply elem_of_cons in He as [<-|He]; destruct (MacInterfaceTable.at_index i _).
  - exists (f e). split; [left|auto].
  - exists e. split; [left|done].
  - exists e. split; [by right|done].
  - destruct (IH He) as (e' & ? & ?). exists e'. split; [by right|done].
Qed.

Lemma get_mut_other s i f e :
  e ∈ MacInterfaceTable.entries s → MacInterfaceEntry.index e ≠ i →
  e ∈ MacInterfaceTable.entries (MacInterfaceTable.get_mut s i f).
Proof.
  unfold MacInterfaceTable.get_mut. cbn. intros He Hi.
  induction (MacInterfaceTable.entries s) as [|x l IH]; [done|]. cbn.
  apply elem_of_cons in He as [<-|He].
  - rewrite (proj2 (key_test_ne MacInterfaceEntry.index i e) Hi). left.
  - destruct (MacInterfaceTable.at_index i x); right; auto.
Qed.

Lemma set_interface_ok req s : interfaces_ok s → interfaces_ok (MacInterfaceTable.set_interface req s).2.
Proof.
  intros Hok. unfold MacInterfaceTable.set_interface.
  destruct (MacInterfaceTable.get s (SetInterface.index req)) as [e|] eqn:Eg; [|done].
  apply (find_key_Some MacInterfaceEntry.index) in Eg as [Hin Hidx]. pose proof (io_channels _ Hok) as Hch.
  destruct (SetInterface.state req); cbn [negb].
  - destruct (negb _); [done|]. cbv zeta. destruct (MacInterfaceEntry.is_radio e) eqn:Er.
    + destruct (SetInterface.channel_to_use req) as [[page ch]|]; [|done].
      destruct (MacInterfaceEntry.masks_support _ page ch) eqn:Em; [|done]. cbn [negb snd].
      apply interface_get_mut_ok; [done|done|]. intros e' _ _ _ p c [= -> ->]. done.
    + cbn [snd]. apply interface_get_mut_ok; [done|done|].
      intros e' He' Hi' Hr. assert (e' = e) as ->; [|change (MacInterfaceEntry.is_radio e = true) in Hr; by rewrite Hr in Er].
      pose proof (find_key_elem (has:=MacInterfaceTable.at_index) MacInterfaceEntry.index _ _ e' (io_distinct _ Hok) He' Hi').
      pose proof (find_key_elem (has:=MacInterfaceTable.at_index) MacInterfaceEntry.index _ _ e (io_distinct _ Hok) Hin Hidx).
      congruence.
  - destruct (existsb _ _) eqn:Ex; [|done]. cbn [negb snd]. by apply interface_get_mut_ok.
Qed.

Lemma set_interface_enabled req s :
  MacInterfaceTable.enabled s ≠ [] → MacInterfaceTable.enabled (MacInterfaceTable.set_interface req s).2 ≠ [].
Proof.
  intros Hen. unfold MacInterfaceTable.set_interface. destruct (MacInterfaceTable.get s (SetInterface.index req)) as [e|]; [|done].
  destruct (SetInterface.state req); cbn [negb].
  - destruct (negb _); [done|]. cbv zeta. destruct (MacInterfaceEntry.is_radio e).
    + destruct (SetInterface.channel_to_use req) as [[page ch]|]; [|done]. destruct (negb _); [done|]. by apply get_mut_enabled.
    + by apply get_mut_enabled.
  - destruct (existsb _ _) eqn:Ex; [|done]. cbn [negb snd].
    apply existsb_exists in Ex as (e' & He' & [Hne%negb_true_iff%Z.eqb_neq Hs]%andb_true_iff).
    apply enabled_exists. exists e'. split; [|done]. apply get_mut_other; [by apply list_elem_of_In|done].
Qed.

(** A Trusted Link is added, or takes the place of an entry. *)
Lemma insert_link_ok link handle s :
  interfaces_ok s → interfaces_ok (MacInterfaceTable.insert (MacInterfaceEntry.trusted_link link handle) s).2.
Proof.
  intros Hok. unfold MacInterfaceTable.insert. destruct (MAX_INDEX <? _); [done|].
  set (e := MacInterfaceEntry.trusted_link link handle). destruct (MacInterfaceTable.get s (MacInterfaceEntry.index e)) as [x|] eqn:Eg; cbn [is_some].
  - destruct Hok as [Hd Hc]. split; cbn.
    + rewrite (keys_update_first MacInterfaceEntry.index); done.
    + clear Eg x Hd. induction Hc as [|y l Hy Hl IH]; cbn; [constructor|]. by destruct (MacInterfaceTable.at_index _ _); constructor.
  - destruct (decide (length (MacInterfaceTable.entries s) < K)%nat) as [Hl|Hl];
      [rewrite vec_push_room by done|by rewrite vec_push_full by lia].
    destruct Hok as [Hd Hc]. split; cbn.
    + rewrite fmap_app. apply NoDup_app. split_and!; [done| |apply NoDup_singleton].
      intros i (y & -> & Hy)%list_elem_of_fmap Hi%list_elem_of_singleton. unfold MacInterfaceTable.get in Eg.
      apply list_elem_of_In in Hy. pose proof (List.find_none _ _ Eg y Hy) as Hn. unfold MacInterfaceTable.at_index in Hn.
      by rewrite Hi, Z.eqb_refl in Hn.
    + apply Forall_app. split; [done|]. constructor; [done|constructor].
Qed.

Lemma insert_link_enabled link handle s :
  MacInterfaceTable.enabled s ≠ [] →
  MacInterfaceTable.enabled (MacInterfaceTable.insert (MacInterfaceEntry.trusted_link link handle) s).2 ≠ [].
Proof.
  intros Hen. unfold MacInterfaceTable.insert. destruct (MAX_INDEX <? _); [done|]. destruct (is_some _); [by apply get_mut_enabled|].
  destruct (decide (length (MacInterfaceTable.entries s) < K)%nat) as [Hl|Hl];
    [rewrite vec_push_room by done|by rewrite vec_push_full by lia].
  unfold MacInterfaceTable.enabled in *. cbn. rewrite List.filter_app. by destruct (List.filter _ _).
Qed.

(** What a removal leaves. *)
Lemma remove_link_spec i s :
  interfaces_ok s →
  interfaces_ok (MacInterfaceTable.remove s i).2 ∧
  ∀ e, e ∈ MacInterfaceTable.entries (MacInterfaceTable.remove s i).2 ↔
    e ∈ MacInterfaceTable.entries s ∧ MacInterfaceEntry.index e ≠ i.
Proof.
  intros [Hd Hc]. unfold MacInterfaceTable.remove. destruct (position _ _) as [p|] eqn:Ep.
  - apply position_Some in Ep as (x & Hx & Hk & _). apply (key_test (key:=MacInterfaceEntry.index)) in Hk.
    destruct (swap_remove_Permutation _ _ _ Hx) as (l' & -> & Hp).
    assert (NoDup (MacInterfaceEntry.index x :: (MacInterfaceEntry.index <$> l'))) as Hnd.
    { change (NoDup (MacInterfaceEntry.index <$> x :: l')). by rewrite <- Hp. }
    apply NoDup_cons in Hnd as [Hnx Hnd]. cbn. split; [split; cbn; [done|]|].
    + rewrite Hp in Hc. by inversion Hc.
    + intros e. rewrite Hp, elem_of_cons. split.
      * intros He. split; [by right|]. intros Hi. apply Hnx. rewrite Hk, <- Hi. by apply list_elem_of_fmap_2.
      * by intros [[->|He] Hi].
  - cbn. split; [done|]. intros e. split; [|by intros []]. intros He. split; [done|]. intros Hi.
    pose proof (proj1 (position_None _ _) Ep e He) as Hf. apply (key_test (key:=MacInterfaceEntry.index)) in Hi. congruence.
Qed.

Lemma enabled_elem e s :
  e ∈ MacInterfaceTable.enabled s ↔ e ∈ MacInterfaceTable.entries s ∧ MacInterfaceEntry.state e = true.
Proof. unfold MacInterfaceTable.enabled. by rewrite !list_elem_of_In, filter_In. Qed.

Lemma enabled_distinct s : interfaces_ok s → NoDup (MacInterfaceEntry.index <$> MacInterfaceTable.enabled s).
Proof.
  intros [Hd _]. unfold MacInterfaceTable.enabled. induction (MacInterfaceTable.entries s) as [|e l IH]; [constructor|].
  cbn in Hd. apply NoDup_cons in Hd as [Hn Hd]. cbn. destruct (MacInterfaceEntry.state e); [|by apply IH]. cbn. constructor; [|by apply IH].
  intros (x & Hx & Hin)%list_elem_of_fmap. apply Hn. rewrite Hx. apply list_elem_of_fmap_2.
  apply list_elem_of_In, filter_In in Hin as [Hin _]. by apply list_elem_of_In.
Qed.

Lemma remove_link_disabled i s :
  interfaces_ok s → MacInterfaceTable.enabled s ≠ [] →
  MacInterfaceTable.enabled (MacInterfaceTable.remove s i).2 = [] ↔
  ∃ e, MacInterfaceTable.enabled s = [e] ∧ MacInterfaceEntry.index e = i.
Proof.
  intros Hok Hen. destruct (remove_link_spec i s Hok) as [_ Hr]. pose proof (enabled_distinct s Hok) as Hnd. split.
  - intros Hn. assert (∀ e, e ∈ MacInterfaceTable.enabled s → MacInterfaceEntry.index e = i) as Hall.
    { intros e [He Hs]%enabled_elem. destruct (decide (MacInterfaceEntry.index e = i)) as [|Hi]; [done|exfalso].
      assert (e ∈ MacInterfaceTable.enabled (MacInterfaceTable.remove s i).2) as Hx by (apply enabled_elem; split; [by apply Hr|done]).
      rewrite Hn in Hx. by apply not_elem_of_nil in Hx. }
    destruct (MacInterfaceTable.enabled s) as [|e [|e' l]]; [done| |].
    + exists e. split; [done|]. apply Hall. left.
    + apply NoDup_cons in Hnd as [Hnot _]. destruct Hnot. rewrite (Hall e), <- (Hall e') by set_solver. left.
  - intros (e & He & Hi). destruct (MacInterfaceTable.enabled (MacInterfaceTable.remove s i).2) as [|x l] eqn:Ex; [done|exfalso].
    assert (x ∈ MacInterfaceTable.enabled (MacInterfaceTable.remove s i).2) as Hx by (rewrite Ex; left).
    apply enabled_elem in Hx as [[Hx Hne]%Hr Hs]. assert (x ∈ MacInterfaceTable.enabled s) as Hin by (by apply enabled_elem).
    rewrite He in Hin. apply list_elem_of_singleton in Hin as ->. done.
Qed.

(** The requests of the application, the Trusted Links that come and go, and the
    uses by the layer. *)
Inductive interface_op : Type :=
  | Set_ (req : SetInterface.t)
  | Get (i : Z)
  | AddLink (link handle : Z)
  | RemoveLink (link : Z)
  | NoteTx (i retries : Z) (failed : bool)
  | NoteRx (i : Z).

Definition run_op s (o : interface_op) : table :=
  match o with
  | Set_ req => (MacInterfaceTable.set_interface req s).2
  | Get i => (MacInterfaceTable.get_interface i s).2
  | AddLink link handle => (MacInterfaceTable.insert (MacInterfaceEntry.trusted_link link handle) s).2
  | RemoveLink link => (MacInterfaceTable.remove s link).2
  | NoteTx i r f => MacInterfaceTable.note_tx s i r f
  | NoteRx i => MacInterfaceTable.note_rx s i
  end.

Lemma run_op_ok o s : interfaces_ok s → interfaces_ok (run_op s o).
Proof.
  intros Hok. pose proof (io_channels _ Hok) as Hch. rewrite Forall_forall in Hch.
  destruct o as [req|i|l h|l|i r f|i]; cbn [run_op].
  - by apply set_interface_ok.
  - unfold MacInterfaceTable.get_interface. destruct (MacInterfaceTable.get s i); [|done].
    apply interface_get_mut_ok; [done|done|by intros e He _; apply (Hch e)].
  - by apply insert_link_ok.
  - by apply remove_link_spec.
  - apply interface_get_mut_ok; [done|done|by intros e He _; apply (Hch e)].
  - apply interface_get_mut_ok; [done|done|by intros e He _; apply (Hch e)].
Qed.

Lemma run_op_enabled o s :
  interfaces_ok s → MacInterfaceTable.enabled s ≠ [] →
  MacInterfaceTable.enabled (run_op s o) = [] ↔
  ∃ e, MacInterfaceTable.enabled s = [e] ∧ o = RemoveLink (MacInterfaceEntry.index e).
Proof.
  intros Hok Hen. destruct o as [req|i|l h|l|i r f|i]; cbn [run_op].
  4: { rewrite remove_link_disabled by done. split; intros (e & He & Hi); exists e; by simplify_eq. }
  all: split; [|by intros (? & _ & ?)]; intros Hn; exfalso; revert Hn.
  - by apply set_interface_enabled.
  - unfold MacInterfaceTable.get_interface. destruct (MacInterfaceTable.get s i); [|done]. by apply get_mut_enabled.
  - by apply insert_link_enabled.
  - by apply get_mut_enabled.
  - by apply get_mut_enabled.
Qed.
End invariant.


