(* ===== verification/MacFrame.v ===== *)
(** * MAC frames (panweave-mac/src/frame.rs, constants.rs)

    IEEE 802.15.4 frame control, addressing with PAN identifier compression,
    header information elements, beacons and MAC commands, with their wire
    formats. *)

From S2P Require Import Prelude Types Status Codec Wire.

(** ** Constants *)

Module MacConstants.
Definition SYMBOL_PERIOD_US : Z := 16.
Definition MAX_PHY_PACKET_SIZE : nat := 127.
Definition FCS_LEN : nat := 2.
Definition MAX_MAC_FRAME_SIZE : nat := MAX_PHY_PACKET_SIZE - FCS_LEN.
Definition BASE_SLOT_DURATION_SYMBOLS : Z := 60.
Definition NUM_SUPERFRAME_SLOTS : Z := 16.
Definition BASE_SUPERFRAME_DURATION_SYMBOLS : Z := BASE_SLOT_DURATION_SYMBOLS * NUM_SUPERFRAME_SLOTS.
Definition RESPONSE_WAIT_TIME_MULTIPLIER : Z := 32.
Definition TRANSACTION_PERSISTENCE_TIME_MULTIPLIER : Z := 0x01F4.
Definition ACK_WAIT_DURATION_SYMBOLS : Z := 54.

Definition symbols_to_duration (symbols : Z) : Z :=
  Duration.from_millis (sat_add 64 (sat_mul 64 symbols SYMBOL_PERIOD_US) 999 / 1000).
Definition scan_duration_per_channel (n : Z) : Z :=
  let n := if 14 <? n then 14 else n in
  symbols_to_duration (BASE_SUPERFRAME_DURATION_SYMBOLS * (Z.shiftl 1 n + 1)).
Definition response_wait_time : Z :=
  symbols_to_duration (RESPONSE_WAIT_TIME_MULTIPLIER * BASE_SUPERFRAME_DURATION_SYMBOLS).
Definition transaction_persistence_time : Z :=
  symbols_to_duration (TRANSACTION_PERSISTENCE_TIME_MULTIPLIER * BASE_SUPERFRAME_DURATION_SYMBOLS).
Definition ack_wait_duration : Z := symbols_to_duration ACK_WAIT_DURATION_SYMBOLS.
End MacConstants.

(** ** Frame control *)

Module MacFrameType.
Inductive t : Type := Beacon | Data | Ack | Command | Other (v : Z).

Definition from_bits (b : Z) : t :=
  match Z.land b 0x7 with
  | 0 => Beacon
  | 1 => Data
  | 2 => Ack
  | 3 => Command
  | v => Other v
  end.

Definition bits (ty : t) : Z :=
  match ty with Beacon => 0 | Data => 1 | Ack => 2 | Command => 3 | Other v => Z.land v 0x7 end.

#[global] Instance eq_dec : EqDecision t.
Proof. solve_decision. Defined.
End MacFrameType.

Module FrameVersion.
Inductive t : Type := V2003 | V2006 | V2015 | Reserved.

Definition from_bits (b : Z) : t :=
  match Z.land b 0x3 with 0 => V2003 | 1 => V2006 | 2 => V2015 | _ => Reserved end.
Definition bits (v : t) : Z := match v with V2003 => 0 | V2006 => 1 | V2015 => 2 | Reserved => 3 end.

#[global] Instance eq_dec : EqDecision t.
Proof. solve_decision. Defined.
End FrameVersion.

Module AddressMode.
Inductive t : Type := None | Reserved | Short | Extended.

Definition from_bits (b : Z) : t :=
  match Z.land b 0x3 with 0 => None | 1 => Reserved | 2 => Short | _ => Extended end.
Definition bits (m : t) : Z := match m with None => 0 | Reserved => 1 | Short => 2 | Extended => 3 end.

#[global] Instance eq_dec : EqDecision t.
Proof. solve_decision. Defined.
End AddressMode.

Module MacAddress.
Inductive t : Type := None | Short (s : Z) | Extended (e : Z).

Definition mode (a : t) : AddressMode.t :=
  match a with None => AddressMode.None | Short _ => AddressMode.Short | Extended _ => AddressMode.Extended end.
Definition encoded_len (a : t) : nat := match a with None => 0 | Short _ => 2 | Extended _ => 8 end.
Definition is_broadcast (a : t) : bool := match a with Short s => s =? 0xFFFF | _ => false end.
Definition short (a : t) : option Z := match a with Short s => Some s | _ => Datatypes.None end.
Definition extended (a : t) : option Z := match a with Extended e => Some e | _ => Datatypes.None end.

#[global] Instance eq_dec : EqDecision t.
Proof. solve_decision. Defined.
End MacAddress.

(** The 16-bit field is its value. *)
Module MacFrameControl.
Definition SECURITY_ENABLED : Z := 2 ^ 3.
Definition FRAME_PENDING : Z := 2 ^ 4.
Definition ACK_REQUEST : Z := 2 ^ 5.
Definition PAN_ID_COMPRESSION : Z := 2 ^ 6.
Definition SEQ_SUPPRESSION : Z := 2 ^ 8.
Definition IE_PRESENT : Z := 2 ^ 9.

Definition new (ty : MacFrameType.t) (v : FrameVersion.t) : Z :=
  Z.lor (MacFrameType.bits ty) (Z.shiftl (FrameVersion.bits v) 12).
Definition frame_type (c : Z) : MacFrameType.t := MacFrameType.from_bits c.
Definition version (c : Z) : FrameVersion.t := FrameVersion.from_bits (Z.shiftr c 12).
Definition security_enabled : Z → bool := flag SECURITY_ENABLED.
Definition frame_pending : Z → bool := flag FRAME_PENDING.
Definition ack_request : Z → bool := flag ACK_REQUEST.
Definition pan_id_compression : Z → bool := flag PAN_ID_COMPRESSION.
Definition seq_suppression : Z → bool := flag SEQ_SUPPRESSION.
Definition ie_present : Z → bool := flag IE_PRESENT.
Definition dst_mode (c : Z) : AddressMode.t := AddressMode.from_bits (Z.shiftr c 10).
Definition src_mode (c : Z) : AddressMode.t := AddressMode.from_bits (Z.shiftr c 14).
Definition with_frame_pending (c : Z) (v : bool) : Z := with_bit 16 c FRAME_PENDING v.
Definition with_ack_request (c : Z) (v : bool) : Z := with_bit 16 c ACK_REQUEST v.
Definition with_pan_id_compression (c : Z) (v : bool) : Z := with_bit 16 c PAN_ID_COMPRESSION v.
Definition with_seq_suppression (c : Z) (v : bool) : Z := with_bit 16 c SEQ_SUPPRESSION v.
Definition with_ie_present (c : Z) (v : bool) : Z := with_bit 16 c IE_PRESENT v.
Definition with_dst_mode (c : Z) (m : AddressMode.t) : Z :=
  Z.lor (Z.land c (lnot_w 16 (Z.shiftl 0x3 10))) (Z.shiftl (AddressMode.bits m) 10).
Definition with_src_mode (c : Z) (m : AddressMode.t) : Z :=
  Z.lor (Z.land c (lnot_w 16 (Z.shiftl 0x3 14))) (Z.shiftl (AddressMode.bits m) 14).
End MacFrameControl.

(** ** The header *)

Module MacHeader.
Record t : Type := mk {
  frame_control : Z;
  sequence : option Z;
  dst_pan : option Z;
  dst : MacAddress.t;
  src_pan : option Z;
  src : MacAddress.t;
  header_ies : list Z
}.

Definition new (ty : MacFrameType.t) (sq d_pan : Z) (d : MacAddress.t) (s_pan : Z) (s : MacAddress.t) : t :=
  let fc := MacFrameControl.with_src_mode (MacFrameControl.with_dst_mode
    (MacFrameControl.new ty FrameVersion.V2003) (MacAddress.mode d)) (MacAddress.mode s) in
  let both := negb (bool_decide (MacAddress.mode d = AddressMode.None))
              && negb (bool_decide (MacAddress.mode s = AddressMode.None)) in
  let compress := both && (d_pan =? s_pan) in
  let fc := MacFrameControl.with_pan_id_compression fc compress in
  let '(dp, sp) :=
    match MacAddress.mode d, MacAddress.mode s with
    | AddressMode.None, AddressMode.None => (None, None)
    | _, AddressMode.None => (Some d_pan, None)
    | AddressMode.None, _ => (None, Some s_pan)
    | _, _ => if compress then (Some d_pan, None) else (Some d_pan, Some s_pan)
    end in
  mk fc (Some sq) dp d sp s [].

Definition ack (sq : Z) (pending : bool) : t :=
  mk (MacFrameControl.with_frame_pending (MacFrameControl.new MacFrameType.Ack FrameVersion.V2003) pending)
     (Some sq) None MacAddress.None None MacAddress.None [].

Definition effective_dst_pan (h : t) : option Z := match dst_pan h with Some p => Some p | None => src_pan h end.
Definition effective_src_pan (h : t) : option Z := match src_pan h with Some p => Some p | None => dst_pan h end.

Definition pan_presence_legacy (d s : AddressMode.t) (compression : bool) : bool * bool :=
  match d, s with
  | AddressMode.None, AddressMode.None => (false, false)
  | _, AddressMode.None => (true, false)
  | AddressMode.None, _ => (false, true)
  | _, _ => (true, negb compression)
  end.

Definition pan_presence_v2 (d s : AddressMode.t) (compression : bool) : bool * bool :=
  match d, s, compression with
  | AddressMode.None, AddressMode.None, false => (false, false)
  | AddressMode.None, AddressMode.None, true => (true, false)
  | (AddressMode.Short | AddressMode.Extended), AddressMode.None, false => (true, false)
  | (AddressMode.Short | AddressMode.Extended), AddressMode.None, true => (false, false)
  | AddressMode.None, (AddressMode.Short | AddressMode.Extended), false => (false, true)
  | AddressMode.None, (AddressMode.Short | AddressMode.Extended), true => (false, false)
  | AddressMode.Extended, AddressMode.Extended, false => (true, false)
  | AddressMode.Extended, AddressMode.Extended, true => (false, false)
  | AddressMode.Short, AddressMode.Short, false | AddressMode.Short, AddressMode.Extended, false
  | AddressMode.Extended, AddressMode.Short, false => (true, true)
  | AddressMode.Short, AddressMode.Short, true | AddressMode.Short, AddressMode.Extended, true
  | AddressMode.Extended, AddressMode.Short, true => (true, false)
  | _, _, _ => (false, false)
  end.

Definition pan_presence (fc : Z) : bool * bool :=
  match MacFrameControl.version fc with
  | FrameVersion.V2015 =>
      pan_presence_v2 (MacFrameControl.dst_mode fc) (MacFrameControl.src_mode fc) (MacFrameControl.pan_id_compression fc)
  | _ =>
      pan_presence_legacy (MacFrameControl.dst_mode fc) (MacFrameControl.src_mode fc) (MacFrameControl.pan_id_compression fc)
  end.

Definition decode_address (mode : AddressMode.t) : SE Reader.t CodecError MacAddress.t :=
  match mode with
  | AddressMode.None => mret MacAddress.None
  | AddressMode.Short => s ← Reader.u16_le; mret (MacAddress.Short s)
  | AddressMode.Extended => e ← Reader.u64_le; mret (MacAddress.Extended e)
  | AddressMode.Reserved => fail (InvalidField "mac address mode" 1)
  end.

Definition encode_address (a : MacAddress.t) : SE Writer.t CodecError unit :=
  match a with
  | MacAddress.None => mret tt
  | MacAddress.Short s => Writer.u16_le s
  | MacAddress.Extended e => Writer.u64_le e
  end.

(** Every turn passes at least the two octets of a descriptor. *)
Fixpoint ie_list_loop (fuel pos : nat) (bytes : list Z) : result nat CodecError :=
  match fuel with
  | 0%nat => Err (Truncated 2 (length bytes - pos))
  | S fuel =>
      match bytes !! pos, bytes !! S pos with
      | Some lo, Some hi =>
          let word := from_le [lo; hi] in
          let len := Z.to_nat (Z.land word 0x7F) in
          let id := Z.land (Z.shiftr word 7) 0xFF in
          let next := (pos + 2 + len)%nat in
          if (length bytes <? next)%nat then Err (Truncated len (length bytes - (pos + 2)))
          else if (id =? 0x7E) || (id =? 0x7F) then Ok next
          else ie_list_loop fuel next bytes
      | _, _ => Err (Truncated 2 (length bytes - pos))
      end
  end.
Definition header_ie_list_len (bytes : list Z) : result nat CodecError := ie_list_loop (S (length bytes)) 0 bytes.

Definition encoded_len (h : t) : nat :=
  2 + (if is_some (sequence h) then 1 else 0) + (if is_some (dst_pan h) then 2 else 0)
  + MacAddress.encoded_len (dst h) + (if is_some (src_pan h) then 2 else 0)
  + MacAddress.encoded_len (src h) + length (header_ies h).

Definition is_reserved (m : AddressMode.t) : bool := match m with AddressMode.Reserved => true | _ => false end.
Definition suppressed (fc : Z) : bool :=
  match MacFrameControl.version fc with FrameVersion.V2015 => MacFrameControl.seq_suppression fc | _ => false end.
Definition has_ies (fc : Z) : bool :=
  match MacFrameControl.version fc with FrameVersion.V2015 => MacFrameControl.ie_present fc | _ => false end.

Definition decode_ies (fc : Z) : SE Reader.t CodecError (list Z) :=
  if has_ies fc then
    n ← (λ r, (header_ie_list_len (Reader.peek_rest r), r));
    Reader.bytes n
  else mret [].

#[global] Instance Decode_t : Decode t :=
  fc ← Reader.u16_le;
  if is_reserved (MacFrameControl.dst_mode fc) || is_reserved (MacFrameControl.src_mode fc)
  then fail (InvalidField "mac address mode" 1)
  else
  match MacFrameControl.version fc with
  | FrameVersion.Reserved => fail (InvalidField "mac frame version" 3)
  | _ =>
      sq ← (if negb (suppressed fc) then x ← Reader.u8; mret (Some x) else mret None);
      d_pan ← (if (pan_presence fc).1 then x ← Reader.u16_le; mret (Some x) else mret None);
      d ← decode_address (MacFrameControl.dst_mode fc);
      s_pan ← (if (pan_presence fc).2 then x ← Reader.u16_le; mret (Some x) else mret None);
      s ← decode_address (MacFrameControl.src_mode fc);
      if MacFrameControl.security_enabled fc then fail (Unsupported "MAC security")
      else ies ← decode_ies fc; mret (mk fc sq d_pan d s_pan s ies)
  end.

#[global] Instance Encode_t : Encode t := {
  encoded_len := encoded_len;
  encode h :=
    Writer.u16_le (frame_control h);;
    match sequence h with Some s => Writer.u8 s | None => mret tt end;;
    match dst_pan h with Some p => Writer.u16_le p | None => mret tt end;;
    encode_address (dst h);;
    match src_pan h with Some p => Writer.u16_le p | None => mret tt end;;
    encode_address (src h);;
    Writer.bytes (header_ies h)
}.
End MacHeader.

Module MacFrame.
Record t : Type := mk { header : MacHeader.t; payload : list Z }.

#[global] Instance Decode_t : Decode t :=
  header ← @decode MacHeader.t _;
  payload ← Reader.take_rest;
  mret (mk header payload).

#[global] Instance Encode_t : Encode t := {
  encoded_len f := (MacHeader.encoded_len (header f) + length (payload f))%nat;
  encode f := encode (header f);; Writer.bytes (payload f)
}.
End MacFrame.

(** ** Beacons *)

Module SuperframeSpec.
Record t : Type := mk {
  beacon_order : Z;
  superframe_order : Z;
  final_cap_slot : Z;
  battery_life_extension : bool;
  pan_coordinator : bool;
  association_permit : bool
}.

Definition non_beacon (coordinator permit : bool) : t := mk 15 15 15 false coordinator permit.

Definition to_raw (s : t) : Z :=
  Z.lor (Z.lor (Z.lor (Z.lor (Z.lor (Z.land (beacon_order s) 0xF)
    (Z.shiftl (Z.land (superframe_order s) 0xF) 4))
    (Z.shiftl (Z.land (final_cap_slot s) 0xF) 8))
    (Z.shiftl (Z_of_bool (battery_life_extension s)) 12))
    (Z.shiftl (Z_of_bool (pan_coordinator s)) 14))
    (Z.shiftl (Z_of_bool (association_permit s)) 15).

Definition from_raw (v : Z) : t :=
  let bit k := negb (Z.land (Z.shiftr v k) 1 =? 0) in
  mk (Z.land v 0xF) (Z.land (Z.shiftr v 4) 0xF) (Z.land (Z.shiftr v 8) 0xF) (bit 12) (bit 14) (bit 15).
End SuperframeSpec.

Module Beacon.
Record t : Type := mk {
  superframe : SuperframeSpec.t;
  pending_short : Z;
  pending_extended : Z;
  payload : list Z
}.

Definition non_beacon (coordinator permit : bool) (payload : list Z) : t :=
  mk (SuperframeSpec.non_beacon coordinator permit) 0 0 payload.

#[global] Instance Decode_t : Decode t :=
  v ← Reader.u16_le;
  let superframe := SuperframeSpec.from_raw v in
  gts ← Reader.u8;
  let gts_count := Z.to_nat (Z.land gts 0x7) in
  _ ← (if (0 <? gts_count)%nat then Reader.skip (1 + 3 * gts_count) else mret tt);
  pending ← Reader.u8;
  let pending_short := Z.land pending 0x7 in
  let pending_extended := Z.land (Z.shiftr pending 4) 0x7 in
  _ ← Reader.skip (2 * Z.to_nat pending_short + 8 * Z.to_nat pending_extended);
  payload ← Reader.take_rest;
  mret (mk superframe pending_short pending_extended payload).

#[global] Instance Encode_t : Encode t := {
  encoded_len b := (4 + length (payload b))%nat;
  encode b :=
    if negb (pending_short b =? 0) || negb (pending_extended b =? 0)
    then fail (Unsupported "beacon pending address list")
    else
      Writer.u16_le (SuperframeSpec.to_raw (superframe b));;
      Writer.u8 0;;
      Writer.u8 0;;
      Writer.bytes (payload b)
}.
End Beacon.

(** ** Commands *)

Module MacCommandId.
Inductive t : Type :=
  | AssociationRequest | AssociationResponse | DisassociationNotification | DataRequest
  | PanIdConflictNotification | OrphanNotification | BeaconRequest | CoordinatorRealignment | GtsRequest
  | Other (v : Z).

Definition raw (i : t) : Z :=
  match i with
  | AssociationRequest => 0x01
  | AssociationResponse => 0x02
  | DisassociationNotification => 0x03
  | DataRequest => 0x04
  | PanIdConflictNotification => 0x05
  | OrphanNotification => 0x06
  | BeaconRequest => 0x07
  | CoordinatorRealignment => 0x08
  | GtsRequest => 0x09
  | Other v => v
  end.

Definition from_raw (v : Z) : t :=
  match v with
  | 0x01 => AssociationRequest
  | 0x02 => AssociationResponse
  | 0x03 => DisassociationNotification
  | 0x04 => DataRequest
  | 0x05 => PanIdConflictNotification
  | 0x06 => OrphanNotification
  | 0x07 => BeaconRequest
  | 0x08 => CoordinatorRealignment
  | 0x09 => GtsRequest
  | other => Other other
  end.
End MacCommandId.

Module DisassociationReason.
Inductive t : Type := CoordinatorWishesDeviceToLeave | DeviceWishesToLeave | Other (v : Z).

Definition raw (r : t) : Z :=
  match r with CoordinatorWishesDeviceToLeave => 1 | DeviceWishesToLeave => 2 | Other v => v end.
Definition from_raw (v : Z) : t :=
  match v with 1 => CoordinatorWishesDeviceToLeave | 2 => DeviceWishesToLeave | other => Other other end.
End DisassociationReason.

Module MacCommand.
Inductive t : Type :=
  | AssociationRequest (capability : Z)
  | AssociationResponse (short_address : Z) (status : MacStatus.t)
  | DisassociationNotification (reason : DisassociationReason.t)
  | DataRequest
  | PanIdConflictNotification
  | OrphanNotification
  | BeaconRequest
  | CoordinatorRealignment (pan_id coordinator_short channel short_address : Z) (channel_page : option Z)
  | Other (id : Z) (payload : list Z).

Definition id (c : t) : MacCommandId.t :=
  match c with
  | AssociationRequest _ => MacCommandId.AssociationRequest
  | AssociationResponse _ _ => MacCommandId.AssociationResponse
  | DisassociationNotification _ => MacCommandId.DisassociationNotification
  | DataRequest => MacCommandId.DataRequest
  | PanIdConflictNotification => MacCommandId.PanIdConflictNotification
  | OrphanNotification => MacCommandId.OrphanNotification
  | BeaconRequest => MacCommandId.BeaconRequest
  | CoordinatorRealignment _ _ _ _ _ => MacCommandId.CoordinatorRealignment
  | Other id _ => MacCommandId.Other id
  end.

(** [if r.is_empty() { None } else { Some(r.u8()?) }] *)
Definition page_if_any : SE Reader.t CodecError (option Z) := λ r,
  if Reader.is_empty r then (Ok None, r) else (x ← Reader.u8; mret (Some x)) r.

#[global] Instance Decode_t : Decode t :=
  i ← Reader.u8;
  match MacCommandId.from_raw i with
  | MacCommandId.AssociationRequest => c ← Reader.u8; mret (AssociationRequest c)
  | MacCommandId.AssociationResponse =>
      a ← Reader.u16_le; s ← Reader.u8; mret (AssociationResponse a (MacStatus.from_raw s))
  | MacCommandId.DisassociationNotification =>
      v ← Reader.u8; mret (DisassociationNotification (DisassociationReason.from_raw v))
  | MacCommandId.DataRequest => mret DataRequest
  | MacCommandId.PanIdConflictNotification => mret PanIdConflictNotification
  | MacCommandId.OrphanNotification => mret OrphanNotification
  | MacCommandId.BeaconRequest => mret BeaconRequest
  | MacCommandId.CoordinatorRealignment =>
      p ← Reader.u16_le;
      c ← Reader.u16_le;
      ch ← Reader.u8;
      a ← Reader.u16_le;
      pg ← page_if_any;
      mret (CoordinatorRealignment p c ch a pg)
  | MacCommandId.GtsRequest | MacCommandId.Other _ => payload ← Reader.take_rest; mret (Other i payload)
  end.

#[global] Instance Encode_t : Encode t := {
  encoded_len c :=
    (1 + match c with
         | AssociationRequest _ | DisassociationNotification _ => 1
         | AssociationResponse _ _ => 3
         | DataRequest | PanIdConflictNotification | OrphanNotification | BeaconRequest => 0
         | CoordinatorRealignment _ _ _ _ page => 7 + (if is_some page then 1 else 0)
         | Other _ payload => length payload
         end)%nat;
  encode c :=
    Writer.u8 (MacCommandId.raw (id c));;
    match c with
    | AssociationRequest capability => Writer.u8 capability
    | AssociationResponse a s => Writer.u16_le a;; Writer.u8 (MacStatus.raw s)
    | DisassociationNotification r => Writer.u8 (DisassociationReason.raw r)
    | DataRequest | PanIdConflictNotification | OrphanNotification | BeaconRequest => mret tt
    | CoordinatorRealignment p c ch a page =>
        Writer.u16_le p;;
        Writer.u16_le c;;
        Writer.u8 ch;;
        Writer.u16_le a;;
        match page with Some x => Writer.u8 x | None => mret tt end;;
        mret tt
    | Other _ payload => Writer.bytes payload
    end
}.
End MacCommand.

(** ** Wire format of the header *)

Definition mac_address_wire (a : MacAddress.t) : list Z :=
  match a with
  | MacAddress.None => []
  | MacAddress.Short s => to_le 2 s
  | MacAddress.Extended e => to_le 8 e
  end.

Definition mac_address_ok (a : MacAddress.t) : Prop :=
  match a with
  | MacAddress.None => True
  | MacAddress.Short s => uint 16 s
  | MacAddress.Extended e => uint 64 e
  end.

(** *** As the standard lays the header out

    What follows is stated with the numbers of IEEE 802.15.4 (clauses 7.2.1, 7.2.2
    and 7.4.2), and uses none of the codec's own functions. *)

(** The [n] bits of the control field from bit [lo] on. *)
Definition fc_field (fc lo n : Z) : Z := (fc / 2 ^ lo) mod 2 ^ n.

(** The addressing mode of an address. *)
Definition address_code (a : MacAddress.t) : Z :=
  match a with MacAddress.None => 0 | MacAddress.Short _ => 2 | MacAddress.Extended _ => 3 end.

(** The rows of the PAN identifier compression table of frame version 2:
    destination mode, source mode, compression bit; destination PAN, source PAN. *)
Definition pan_id_rows : list (Z * Z * bool * (bool * bool)) :=
  [ (0, 0, false, (false, false)); (0, 0, true, (true, false));
    (2, 0, false, (true, false)); (3, 0, false, (true, false));
    (2, 0, true, (false, false)); (3, 0, true, (false, false));
    (0, 2, false, (false, true)); (0, 3, false, (false, true));
    (0, 2, true, (false, false)); (0, 3, true, (false, false));
    (3, 3, false, (true, false)); (3, 3, true, (false, false));
    (2, 2, false, (true, true)); (2, 3, false, (true, true)); (3, 2, false, (true, true));
    (2, 3, true, (true, false)); (3, 2, true, (true, false)); (2, 2, true, (true, false)) ].

(** In versions 0 and 1 an identifier goes with its address, and the bit leaves
    out the source's when both addresses are there. *)
Definition pan_ids_present (version d s : Z) (compression : bool) (dp sp : bool) : Prop :=
  if version =? 2 then (d, s, compression, (dp, sp)) ∈ pan_id_rows
  else (dp = true ↔ d ≠ 0) ∧ (sp = true ↔ s ≠ 0 ∧ ¬ (d ≠ 0 ∧ compression = true)).

(** A list of information elements: a descriptor with seven bits of length and
    eight of identifier, its content, and so on up to a termination element. *)
Inductive ie_list : list Z → Prop :=
  | ie_last lo hi body :
      length body = Z.to_nat ((lo + 256 * hi) mod 128) → ((lo + 256 * hi) / 128) mod 256 ∈ [0x7E; 0x7F] →
      ie_list (lo :: hi :: body)
  | ie_more lo hi body rest :
      length body = Z.to_nat ((lo + 256 * hi) mod 128) → ((lo + 256 * hi) / 128) mod 256 ∉ [0x7E; 0x7F] →
      ie_list rest → ie_list (lo :: hi :: body ++ rest).

Record mac_header_wf (h : MacHeader.t) : Prop := {
  std_control : uint 16 (MacHeader.frame_control h);
  std_version : fc_field (MacHeader.frame_control h) 12 2 ≠ 3;
  std_security : Z.testbit (MacHeader.frame_control h) 3 = false;
  std_sequence :
    let without := fc_field (MacHeader.frame_control h) 12 2 = 2 ∧ Z.testbit (MacHeader.frame_control h) 8 = true in
    match MacHeader.sequence h with Some v => uint 8 v ∧ ¬ without | None => without end;
  std_dst : address_code (MacHeader.dst h) = fc_field (MacHeader.frame_control h) 10 2 ∧ mac_address_ok (MacHeader.dst h);
  std_src : address_code (MacHeader.src h) = fc_field (MacHeader.frame_control h) 14 2 ∧ mac_address_ok (MacHeader.src h);
  std_pans : pan_ids_present (fc_field (MacHeader.frame_control h) 12 2) (address_code (MacHeader.dst h))
    (address_code (MacHeader.src h)) (Z.testbit (MacHeader.frame_control h) 6)
    (is_some (MacHeader.dst_pan h)) (is_some (MacHeader.src_pan h));
  std_pan_width : from_option (uint 16) True (MacHeader.dst_pan h) ∧ from_option (uint 16) True (MacHeader.src_pan h);
  std_ies : bytes_ok (MacHeader.header_ies h) ∧
    if decide (fc_field (MacHeader.frame_control h) 12 2 = 2 ∧ Z.testbit (MacHeader.frame_control h) 9 = true)
    then ie_list (MacHeader.header_ies h) else MacHeader.header_ies h = []
}.

(** *** As the codec reads the control field *)

(** The list is as long as the codec takes it to be. *)
Definition ies_ok (fc : Z) (ies : list Z) : Prop :=
  bytes_ok ies ∧ if MacHeader.has_ies fc then MacHeader.header_ie_list_len ies = Ok (length ies) else ies = [].

(** The fields a header has are the ones the codec looks for. *)
Record mac_header_agrees (h : MacHeader.t) : Prop := {
  wf_control : uint 16 (MacHeader.frame_control h);
  wf_version : MacFrameControl.version (MacHeader.frame_control h) ≠ FrameVersion.Reserved;
  wf_security : MacFrameControl.security_enabled (MacHeader.frame_control h) = false;
  wf_sequence : negb (MacHeader.suppressed (MacHeader.frame_control h)) = is_some (MacHeader.sequence h)
    ∧ from_option (uint 8) True (MacHeader.sequence h);
  wf_dst_pan : (MacHeader.pan_presence (MacHeader.frame_control h)).1 = is_some (MacHeader.dst_pan h)
    ∧ from_option (uint 16) True (MacHeader.dst_pan h);
  wf_dst : MacAddress.mode (MacHeader.dst h) = MacFrameControl.dst_mode (MacHeader.frame_control h)
    ∧ mac_address_ok (MacHeader.dst h);
  wf_src_pan : (MacHeader.pan_presence (MacHeader.frame_control h)).2 = is_some (MacHeader.src_pan h)
    ∧ from_option (uint 16) True (MacHeader.src_pan h);
  wf_src : MacAddress.mode (MacHeader.src h) = MacFrameControl.src_mode (MacHeader.frame_control h)
    ∧ mac_address_ok (MacHeader.src h);
  wf_ies : ies_ok (MacHeader.frame_control h) (MacHeader.header_ies h)
}.

Definition mac_header_wire (h : MacHeader.t) : list Z :=
  to_le 2 (MacHeader.frame_control h) ++ from_option (λ v, [v]) [] (MacHeader.sequence h) ++
  from_option (to_le 2) [] (MacHeader.dst_pan h) ++ mac_address_wire (MacHeader.dst h) ++
  from_option (to_le 2) [] (MacHeader.src_pan h) ++ mac_address_wire (MacHeader.src h) ++
  MacHeader.header_ies h.

Section header.
Implicit Types (h : MacHeader.t) (fc : Z).

#[local] Instance mac_address_Field m :
  Field (MacHeader.decode_address m) mac_address_wire (λ a, MacAddress.mode a = m ∧ mac_address_ok a).
Proof.
  split.
  - intros [|s|e] [<- Ha]; cbn [MacAddress.mode MacHeader.decode_address mac_address_wire].
    + apply decodes_ret.
    + by apply decodes_map, decodes_u16.
    + by apply decodes_map, decodes_u64.
  - intros r a r' Hok Hd. destruct m; cbn [MacHeader.decode_address] in Hd; [|done|..].
    + injection Hd as <- <-. split; [apply parsed_nil|done].
    + apply se_bind_inv in Hd as (s & r1 & Hs & [= <- <-]). apply u16_parsed in Hs as [??]; done.
    + apply se_bind_inv in Hd as (s & r1 & Hs & [= <- <-]). apply u64_parsed in Hs as [??]; done.
Qed.

(** The length of a list of information elements does not depend on what follows it. *)
Lemma ie_loop_app fuel fuel' pos l rest n :
  (fuel ≤ fuel')%nat → MacHeader.ie_list_loop fuel pos l = Ok n → MacHeader.ie_list_loop fuel' pos (l ++ rest) = Ok n.
Proof.
  revert fuel' pos. induction fuel as [|fuel IH]; intros fuel' pos Hf; [done|].
  destruct fuel' as [|fuel']; [lia|]. cbn [MacHeader.ie_list_loop].
  destruct (l !! pos) as [lo|] eqn:El; [|done]. destruct (l !! S pos) as [hi|] eqn:Eh; [|done].
  rewrite !(lookup_app_l_Some _ _ _ _ El), (lookup_app_l_Some _ _ _ _ Eh). cbv zeta.
  destruct (Nat.ltb_spec (length l) (pos + 2 + Z.to_nat (Z.land (from_le [lo; hi]) 0x7F))) as [|Hn]; [done|].
  rewrite (proj2 (Nat.ltb_ge _ _)) by (rewrite length_app; lia).
  destruct (_ || _); [done|]. apply IH. lia.
Qed.

Lemma ie_loop_bound fuel pos l n : MacHeader.ie_list_loop fuel pos l = Ok n → (n ≤ length l)%nat.
Proof.
  revert pos. induction fuel as [|fuel IH]; intros pos; [done|]. cbn [MacHeader.ie_list_loop].
  destruct (l !! pos); [|done]. destruct (l !! S pos); [|done]. cbv zeta.
  destruct (Nat.ltb_spec (length l) (pos + 2 + Z.to_nat (Z.land (from_le [z; z0]) 0x7F))); [done|].
  destruct (_ || _); [intros E%(inj Ok); lia|]. apply IH.
Qed.

Lemma ie_loop_ge fuel pos l n : MacHeader.ie_list_loop fuel pos l = Ok n → (pos ≤ n)%nat.
Proof.
  revert pos. induction fuel as [|fuel IH]; intros pos; [done|]. cbn [MacHeader.ie_list_loop].
  destruct (l !! pos); [|done]. destruct (l !! S pos); [|done]. cbv zeta.
  destruct (_ <? _)%nat; [done|]. destruct (_ || _); [intros E%(inj Ok); lia|]. intros E%IH. lia.
Qed.

(** The list found at the front of a buffer is a list by itself. *)
Lemma ie_loop_take fuel pos l n :
  MacHeader.ie_list_loop fuel pos l = Ok n → MacHeader.ie_list_loop fuel pos (take n l) = Ok n.
Proof.
  revert pos. induction fuel as [|fuel IH]; intros pos; [done|]. intros H. pose proof (ie_loop_bound _ _ _ _ H) as Hn.
  cbn [MacHeader.ie_list_loop] in *.
  destruct (l !! pos) as [lo|] eqn:El; [|done]. destruct (l !! S pos) as [hi|] eqn:Eh; [|done]. cbv zeta in *.
  set (next := (pos + 2 + Z.to_nat (Z.land (from_le [lo; hi]) 0x7F))%nat) in *.
  destruct (Nat.ltb_spec (length l) next); [done|].
  assert (next ≤ n)%nat as Hle.
  { destruct (_ || _); [apply (inj Ok) in H; lia|by apply ie_loop_ge in H]. }
  rewrite !lookup_take_lt, El, Eh by lia. rewrite length_take.
  fold next. rewrite (proj2 (Nat.ltb_ge _ _)) by lia. destruct (_ || _); [done|]. by apply IH.
Qed.

Lemma ie_fuel fuel pos l n :
  MacHeader.ie_list_loop fuel pos l = Ok n → (length l ≤ pos + 2 * fuel)%nat →
  ∀ fuel', (length l < pos + fuel')%nat → MacHeader.ie_list_loop fuel' pos l = Ok n.
Proof.
  revert pos. induction fuel as [|fuel IH]; intros pos H Hf fuel' Hf'; [done|].
  destruct fuel' as [|fuel']; [cbn [MacHeader.ie_list_loop] in H; rewrite (lookup_ge_None_2 l pos) in H by lia; done|].
  cbn [MacHeader.ie_list_loop] in *. destruct (l !! pos); [|done]. destruct (l !! S pos); [|done]. cbv zeta in *.
  destruct (_ <? _)%nat; [done|]. destruct (_ || _); [done|]. apply IH; [done|lia|lia].
Qed.

#[local] Instance ies_Field fc : Field (MacHeader.decode_ies fc) (λ l, l) (ies_ok fc).
Proof.
  unfold ies_ok, MacHeader.decode_ies. split.
  - intros ies [Hb Hi]. destruct (MacHeader.has_ies fc); [|subst; apply decodes_ret].
    intros pre suf. unfold mbind, se_bind. unfold Reader.peek_rest, get_from. cbn [Reader.buf Reader.pos].
    rewrite (proj2 (Nat.leb_le _ _)) by (rewrite length_app; lia). cbn [default]. rewrite drop_app_length.
    change (id (ies ++ suf)) with (ies ++ suf).
    assert (MacHeader.header_ie_list_len (ies ++ suf) = Ok (length ies)) as ->.
    { revert Hi. apply ie_loop_app. rewrite length_app. lia. }
    apply decodes_bytes.
  - intros r ies r' Hok Hd. destruct (MacHeader.has_ies fc).
    + unfold mbind, se_bind in Hd. destruct (MacHeader.header_ie_list_len (Reader.peek_rest r)) as [n|] eqn:En; [|done].
      pose proof (bytes_parsed _ _ _ _ Hd) as [Hl Hp]. split; [done|]. split; [by eapply parsed_bytes_ok|].
      assert (take n (Reader.peek_rest r) = ies) as Ht.
      { destruct Hp as (_ & _ & Hrest). revert En. unfold Reader.peek_rest, get_from.
        destruct (_ <=? _)%nat; [|done]. cbn [default]. intros _. unfold id. rewrite Hrest, <- Hl. apply take_app_length. }
      pose proof (ie_loop_bound _ _ _ _ En). apply ie_loop_take in En. rewrite Ht in En.
      eapply ie_fuel; [by rewrite Hl; exact En|lia|lia].
    + injection Hd as <- <-. split; [apply parsed_nil|]. by split; [constructor|].
Qed.

Lemma mac_header_decodes h : mac_header_agrees h → decodes decode (mac_header_wire h) h.
Proof.
  destruct h as [fc sq dp d sp s ies]. intros []. cbn in *. unfold decode, MacHeader.Decode_t, mac_header_wire. cbn.
  read_field.
  assert (MacHeader.is_reserved (MacFrameControl.dst_mode fc) = false) as -> by (destruct wf_dst0 as [<- _]; by destruct d).
  assert (MacHeader.is_reserved (MacFrameControl.src_mode fc) = false) as -> by (destruct wf_src0 as [<- _]; by destruct s).
  cbn [orb]. rewrite wf_security0. destruct (MacFrameControl.version fc) eqn:Ev; [..|done].
  all: do 5 read_field.
  all: apply (decodes_map _ (MacHeader.mk fc sq dp d sp s)); by apply (field_decodes (wr:=λ l, l) (P:=ies_ok fc)).
Qed.

Lemma mac_header_parsed r h r' :
  bytes_ok (Reader.buf r) → decode r = (Ok h, r') → parsed r (mac_header_wire h) r' ∧ mac_header_agrees h.
Proof.
  intros Hok Hd. unfold decode, MacHeader.Decode_t in Hd. parse_field Hd fc.
  destruct (_ || _); [done|]. destruct (MacFrameControl.version fc) eqn:Ev; [..|done].
  all: parse_field Hd sq; parse_field Hd dp; parse_field Hd d; parse_field Hd sp; parse_field Hd s.
  all: destruct (MacFrameControl.security_enabled fc) eqn:Es; [done|]; parse_field Hd ies; injection Hd as <- <-.
  all: split; [unfold mac_header_wire; cbn; parse_done|].
  all: split; cbn; try done; by rewrite Ev.
Qed.

Lemma mac_address_writes a : writes (MacHeader.encode_address a) (mac_address_wire a).
Proof. destruct a; cbn; eauto with codec. Qed.

Lemma mac_header_writes h : writes (encode h) (mac_header_wire h).
Proof.
  cbn [encode MacHeader.Encode_t]. unfold mac_header_wire. write_field.
  do 2 (apply writes_bind; [apply writes_opt; intros; eauto with codec|]).
  apply writes_bind; [apply mac_address_writes|]. apply writes_bind; [apply writes_opt; intros; eauto with codec|].
  apply writes_bind; [apply mac_address_writes|]. eauto with codec.
Qed.

Lemma mac_header_len h : encoded_len h = length (mac_header_wire h).
Proof.
  destruct h as [fc [] [] [] [] [] ies]; unfold mac_header_wire; cbn -[to_le];
    rewrite ?length_app, ?length_to_le; cbn -[to_le]; rewrite ?length_app, ?length_to_le; lia.
Qed.

Lemma mac_header_bytes h : mac_header_agrees h → bytes_ok (mac_header_wire h).
Proof.
  assert (∀ a, bytes_ok (mac_address_wire a)) as Ha by (intros []; cbn; [constructor|apply to_le_bytes_ok..]).
  assert (∀ o, bytes_ok (from_option (to_le 2) [] o)) as Ho by (intros []; cbn; [apply to_le_bytes_ok|constructor]).
  intros []. unfold mac_header_wire. repeat (apply bytes_ok_app; split); auto using to_le_bytes_ok.
  - destruct wf_sequence0 as [_ Hs]. destruct (MacHeader.sequence h); [by constructor|constructor].
  - by destruct wf_ies0.
Qed.
End header.

(** *** The two readings agree *)

Section standard.
Implicit Types (h : MacHeader.t) (fc : Z).

Lemma fc_field_land fc lo n : 0 ≤ lo → 0 ≤ n → Z.land (Z.shiftr fc lo) (Z.ones n) = fc_field fc lo n.
Proof. intros. unfold fc_field. by rewrite Z.shiftr_div_pow2, Z.land_ones by lia. Qed.

Lemma fc_field_2 fc lo : fc_field fc lo 2 = 0 ∨ fc_field fc lo 2 = 1 ∨ fc_field fc lo 2 = 2 ∨ fc_field fc lo 2 = 3.
Proof. unfold fc_field. pose proof (Z.mod_pos_bound (fc / 2 ^ lo) (2 ^ 2)). lia. Qed.

Lemma version_field fc : FrameVersion.bits (MacFrameControl.version fc) = fc_field fc 12 2.
Proof.
  unfold MacFrameControl.version, FrameVersion.from_bits. change 0x3 with (Z.ones 2). rewrite fc_field_land by lia.
  destruct (fc_field_2 fc 12) as [E|[E|[E|E]]]; by rewrite E.
Qed.

Lemma mode_field fc lo : 0 ≤ lo → AddressMode.bits (AddressMode.from_bits (Z.shiftr fc lo)) = fc_field fc lo 2.
Proof.
  intros. unfold AddressMode.from_bits. change 0x3 with (Z.ones 2). rewrite fc_field_land by lia.
  destruct (fc_field_2 fc lo) as [E|[E|[E|E]]]; by rewrite E.
Qed.

Lemma address_code_mode a m : address_code a = AddressMode.bits m ↔ MacAddress.mode a = m.
Proof. by destruct a, m. Qed.

Lemma pan_presence_standard fc d s dp sp :
  MacFrameControl.version fc ≠ FrameVersion.Reserved →
  MacAddress.mode d = MacFrameControl.dst_mode fc → MacAddress.mode s = MacFrameControl.src_mode fc →
  MacHeader.pan_presence fc = (dp, sp) ↔
  pan_ids_present (fc_field fc 12 2) (address_code d) (address_code s) (Z.testbit fc 6) dp sp.
Proof.
  intros Hv Hd Hs. rewrite <- version_field, <- flag_testbit by lia. unfold MacHeader.pan_presence.
  rewrite <- Hd, <- Hs. change (flag (2 ^ 6) fc) with (MacFrameControl.pan_id_compression fc).
  destruct (MacFrameControl.version fc); [..|done]; unfold pan_ids_present; cbn [FrameVersion.bits Z.eqb Pos.eqb].
  3: destruct d, s, (MacFrameControl.pan_id_compression fc), dp, sp; cbn; unfold pan_id_rows; set_solver.
  all: destruct d, s, (MacFrameControl.pan_id_compression fc), dp, sp; cbn; naive_solver lia.
Qed.

Lemma ie_loop_list fuel pos l :
  (pos ≤ length l)%nat → MacHeader.ie_list_loop fuel pos l = Ok (length l) → ie_list (drop pos l).
Proof.
  revert pos. induction fuel as [|fuel IH]; intros pos Hpos; [done|]. cbn [MacHeader.ie_list_loop].
  destruct (l !! pos) as [lo|] eqn:El; [|done]. destruct (l !! S pos) as [hi|] eqn:Eh; [|done]. cbv zeta.
  rewrite (drop_S _ _ _ El), (drop_S _ _ _ Eh). change (Z.land ?x 0x7F) with (Z.land x (Z.ones 7)). change 0xFF with (Z.ones 8).
  rewrite fc_field_land, Z.land_ones by lia. unfold fc_field.
  replace (from_le [lo; hi]) with (lo + 256 * hi) by (cbn; lia). change (2 ^ 7) with 128. change (2 ^ 8) with 256.
  destruct (Nat.ltb_spec (length l) (pos + 2 + Z.to_nat ((lo + 256 * hi) mod 128))) as [|Hn]; [done|].
  destruct (_ || _) eqn:Et.
  - intros En%(inj Ok). apply ie_last; [rewrite length_drop; lia|]. apply orb_true_iff in Et as [->%Z.eqb_eq| ->%Z.eqb_eq]; set_solver.
  - intros Hr%IH; [|lia]. rewrite <- (take_drop (Z.to_nat ((lo + 256 * hi) mod 128)) (drop (S (S pos)) l)), drop_drop.
    apply ie_more; [rewrite length_take, length_drop; lia| |by replace (S (S pos) + _)%nat with (pos + 2 + Z.to_nat ((lo + 256 * hi) mod 128))%nat by lia].
    apply orb_false_iff in Et as [?%Z.eqb_neq ?%Z.eqb_neq]. set_solver.
Qed.

Lemma ie_list_loop_ok l pre fuel :
  ie_list l → (length l < fuel)%nat → MacHeader.ie_list_loop fuel (length pre) (pre ++ l) = Ok (length pre + length l)%nat.
Proof.
  intros Hl. revert pre fuel. induction Hl as [lo hi body Hb Ht|lo hi body rest Hb Ht _ IH]; intros pre [|fuel] Hf; try (cbn in Hf; lia).
  all: cbn [MacHeader.ie_list_loop]; cbv zeta.
  all: rewrite (list_lookup_middle pre _ lo _ eq_refl), (lookup_app_r pre) by lia; replace (S (length pre) - length pre)%nat with 1%nat by lia.
  all: cbn [lookup list_lookup]; change (Z.land ?x 0x7F) with (Z.land x (Z.ones 7)); change 0xFF with (Z.ones 8); rewrite fc_field_land, Z.land_ones by lia; unfold fc_field.
  all: replace (from_le [lo; hi]) with (lo + 256 * hi) by (cbn; lia); change (2 ^ 7) with 128; change (2 ^ 8) with 256.
  all: rewrite <- Hb, (proj2 (Nat.ltb_ge _ _)) by (cbn; rewrite ?length_app; cbn; rewrite ?length_app; lia).
  - assert ((((lo + 256 * hi) / 128) mod 256 =? 0x7E) || (((lo + 256 * hi) / 128) mod 256 =? 0x7F) = true) as ->.
    { apply orb_true_iff. rewrite !Z.eqb_eq. set_solver. }
    f_equal. cbn. lia.
  - assert ((((lo + 256 * hi) / 128) mod 256 =? 0x7E) || (((lo + 256 * hi) / 128) mod 256 =? 0x7F) = false) as ->.
    { apply orb_false_iff. rewrite !Z.eqb_neq. set_solver. }
    specialize (IH (pre ++ lo :: hi :: body) fuel). rewrite !length_app in IH. cbn [length] in IH. rewrite <- app_assoc in IH. cbn [app] in IH.
    replace (length pre + 2 + length body)%nat with (length pre + S (S (length body)))%nat by lia.
    rewrite IH; [f_equal; cbn; rewrite length_app; lia|]. cbn in Hf. rewrite length_app in Hf. lia.
Qed.

Lemma ies_standard l : MacHeader.header_ie_list_len l = Ok (length l) ↔ ie_list l.
Proof.
  split; [intros H; apply (ie_loop_list _ 0 l) in H; [by rewrite drop_0 in H|lia]|].
  intros H. by apply (ie_list_loop_ok l [] _ H); lia.
Qed.

Lemma suppressed_standard fc : MacHeader.suppressed fc = true ↔ fc_field fc 12 2 = 2 ∧ Z.testbit fc 8 = true.
Proof.
  rewrite <- version_field, <- flag_testbit by lia. unfold MacHeader.suppressed.
  by destruct (MacFrameControl.version fc); naive_solver.
Qed.

Lemma has_ies_standard fc : MacHeader.has_ies fc = true ↔ fc_field fc 12 2 = 2 ∧ Z.testbit fc 9 = true.
Proof.
  rewrite <- version_field, <- flag_testbit by lia. unfold MacHeader.has_ies.
  by destruct (MacFrameControl.version fc); naive_solver.
Qed.

Lemma version_standard fc : MacFrameControl.version fc ≠ FrameVersion.Reserved ↔ fc_field fc 12 2 ≠ 3.
Proof. rewrite <- version_field. by destruct (MacFrameControl.version fc). Qed.

Lemma address_standard a fc lo :
  0 ≤ lo → address_code a = fc_field fc lo 2 ↔ MacAddress.mode a = AddressMode.from_bits (Z.shiftr fc lo).
Proof. intros. rewrite <- (mode_field fc lo) by done. apply address_code_mode. Qed.

Lemma sequence_standard fc sq :
  let without := fc_field fc 12 2 = 2 ∧ Z.testbit fc 8 = true in
  negb (MacHeader.suppressed fc) = is_some sq ∧ from_option (uint 8) True sq ↔
  match sq with Some v => uint 8 v ∧ ¬ without | None => without end.
Proof.
  cbv zeta. pose proof (suppressed_standard fc) as Hs. destruct sq, (MacHeader.suppressed fc); cbn; naive_solver.
Qed.

Lemma ies_ok_standard fc ies :
  ies_ok fc ies ↔ bytes_ok ies ∧ if decide (fc_field fc 12 2 = 2 ∧ Z.testbit fc 9 = true) then ie_list ies else ies = [].
Proof.
  unfold ies_ok. pose proof (has_ies_standard fc) as Hh. pose proof (ies_standard ies).
  destruct (MacHeader.has_ies fc), (decide _) as [Hd|Hd]; naive_solver.
Qed.

Lemma mac_header_standard h : mac_header_agrees h ↔ mac_header_wf h.
Proof.
  destruct h as [fc sq dp d sp s ies]. split; intros H; inversion H as [H1 H2 H3 H4 H5 H6 H7 H8 H9]; clear H; cbn [MacHeader.frame_control MacHeader.sequence MacHeader.dst_pan MacHeader.dst MacHeader.src_pan MacHeader.src MacHeader.header_ies] in *.
  - apply version_standard in H2 as H2'. destruct H6 as [Hd ?], H8 as [Hs ?], H5 as [Hdp ?], H7 as [Hsp ?].
    constructor; cbn [MacHeader.frame_control MacHeader.sequence MacHeader.dst_pan MacHeader.dst MacHeader.src_pan MacHeader.src MacHeader.header_ies]; [done|done|by rewrite <- flag_testbit by lia|by apply sequence_standard| | | |done|by apply ies_ok_standard].
    + split; [|done]. by apply address_standard.
    + split; [|done]. by apply address_standard.
    + apply pan_presence_standard; [done..|]. by rewrite <- Hdp, <- Hsp; destruct (MacHeader.pan_presence fc).
  - apply version_standard in H2 as H2'. destruct H5 as [Hd ?], H6 as [Hs ?], H8 as [??].
    apply address_standard in Hd; [|lia]. apply address_standard in Hs; [|lia].
    apply (pan_presence_standard fc d s) in H7; [|done..].
    constructor; cbn [MacHeader.frame_control MacHeader.sequence MacHeader.dst_pan MacHeader.dst MacHeader.src_pan MacHeader.src MacHeader.header_ies]; [done|done|by rewrite <- flag_testbit in H3 by lia|by apply sequence_standard|..].
    1-4: by rewrite ?H7.
    by apply ies_ok_standard.
Qed.
End standard.

Definition mac_frame_wf (f : MacFrame.t) : Prop :=
  mac_header_wf (MacFrame.header f) ∧ bytes_ok (MacFrame.payload f).
Definition mac_frame_wire (f : MacFrame.t) : list Z := mac_header_wire (MacFrame.header f) ++ MacFrame.payload f.

#[export, refine] Instance mac_frame_FullCodec : FullCodec MacFrame.t := {
  full_ok := mac_frame_wf; full_wire := mac_frame_wire
}.
Proof.
  - intros [h p] [Hh Hp]. apply (writes_bind (encode h) (λ _, Writer.bytes p)); [apply mac_header_writes|apply writes_bytes].
  - intros [h p] [Hh Hp]. unfold decode, MacFrame.Decode_t, mac_frame_wire. cbn [MacFrame.header MacFrame.payload].
    eapply decodes_all_bind; [by apply mac_header_decodes, mac_header_standard|]. apply decodes_all_rest, decodes_all_ret.
  - intros [h p] _. unfold mac_frame_wire. cbn [encoded_len MacFrame.Encode_t MacFrame.header MacFrame.payload].
    rewrite length_app. f_equal. apply (mac_header_len h).
Defined.

Section frame.
Lemma mac_frame_parsed bs f :
  bytes_ok bs → decode_exact bs = Ok f → mac_frame_wf f ∧ bs = mac_frame_wire f.
Proof.
  intros Hok. unfold decode_exact. destruct (decode (Reader.new bs)) as [[c'|] r] eqn:Hd; [|done].
  destruct (Reader.is_empty r); [|done]. intros [= ->].
  unfold decode, MacFrame.Decode_t in Hd. apply se_bind_inv in Hd as (h & r1 & Hh & Hd).
  apply mac_header_parsed in Hh as [Ph Wh]; [|done].
  apply se_bind_inv in Hd as (p & r2 & Hp & [= <- <-]). pose proof (parsed_bytes_ok _ _ _ Ph Hok) as [_ Hok1].
  destruct Ph as (Hb & Hpos & Hdr). cbn [Reader.buf Reader.pos Reader.new] in *. rewrite drop_0 in Hdr.
  assert (p = drop (Reader.pos r1) (Reader.buf r1)) as ->.
  { injection Hp as <- _. unfold Reader.peek_rest, get_from. rewrite (proj2 (Nat.leb_le _ _)); [done|].
    rewrite Hb, Hdr, length_app, Hpos. lia. }
  split; [|done]. split; [by apply mac_header_standard|]. by apply bytes_ok_drop.
Qed.
End frame.

(** C33. The MAC frames that can be received are exactly the well-formed ones, and
    the codec is one-to-one on them: an octet string is refused, or it decodes to
    a frame whose optional fields are the ones IEEE 802.15.4 prescribes for its
    control field (sequence number, PAN identifiers by the rows of the compression
    table of version 2 and by the rule of the older versions, addresses, a list of
    information elements that ends with a termination element; no security), and
    [encode] writes that frame back as these octets; and every such frame is
    written in [encoded_len] octets, with nothing behind them touched, and read
    back.  The conditions use none of the codec's own functions. *)
Theorem mac_frame_codec_exact (f : MacFrame.t) :
  (∀ bs, bytes_ok bs → decode_exact bs = Ok f →
   mac_frame_wf f ∧ bs = mac_frame_wire f ∧
   ∀ out, (length bs ≤ length out)%nat → encode_to_slice f out = (Ok (length bs), bs ++ drop (length bs) out)) ∧
  (mac_frame_wf f → ∀ out, (encoded_len f ≤ length out)%nat →
   ∃ out', encode_to_slice f out = (Ok (encoded_len f), out') ∧
     decode_exact (take (encoded_len f) out') = Ok f ∧
     drop (encoded_len f) out' = drop (encoded_len f) out).
Proof.
  split; [|intros Hwf out; by apply (full_round_trip (HC:=mac_frame_FullCodec))].
  intros bs Hb [Hwf ->]%mac_frame_parsed; [|done]. split; [done|]. split; [done|]. intros out Ho.
  apply writes_to_slice; [|done]. by apply (full_writes (FullCodec:=mac_frame_FullCodec)).
Qed.

(** A data frame between two devices of one PAN, and a frame of version 2 with
    an information element. *)
Lemma mac_frame_codec_exact_witness :
  let f := MacFrame.mk (MacHeader.new MacFrameType.Data 7 0x1A62 (MacAddress.Short 0x1234) 0x1A62
    (MacAddress.Short 0)) [1; 2; 3] in
  let g := MacFrame.mk (MacHeader.mk 0xE201 (Some 9) (Some 0x1A62) MacAddress.None None
    (MacAddress.Extended 0x1122334455667788) [0; 0x3F]) [5] in
  (∃ out', encode_to_slice f (replicate 14 0) = (Ok 12%nat, out') ∧ decode_exact (take 12 out') = Ok f) ∧
  (∀ bs, bytes_ok bs → decode_exact bs = Ok g → bs = mac_frame_wire g).
Proof.
  intros f g. split.
  - destruct (proj2 (mac_frame_codec_exact f)) with (out := replicate 14 0) as (out' & E1 & E2 & _); [..|by exists out'].
    + apply (proj1 (mac_frame_codec_exact f) [0x41; 0x88; 7; 0x62; 0x1A; 0x34; 0x12; 0; 0; 1; 2; 3]).
      * repeat constructor; vm_compute; congruence.
      * reflexivity.
    + vm_compute. lia.
  - intros bs Hok Hd. by apply (proj1 (mac_frame_codec_exact g) bs).
Defined.

(** ** Addressing *)

Section addressing.
Implicit Types (d s : MacAddress.t).

(** What [Header::new] puts into the control field, decided by evaluation. *)
Definition control_of (n : Z) (md ms : AddressMode.t) (compress : bool) : Z :=
  MacFrameControl.with_pan_id_compression (MacFrameControl.with_src_mode (MacFrameControl.with_dst_mode
    (Z.lor n (Z.shiftl (FrameVersion.bits FrameVersion.V2003) 12)) md) ms) compress.
Definition control_ok (n : Z) (md ms : AddressMode.t) (compress : bool) : bool :=
  let fc := control_of n md ms compress in
  (0 <=? fc) && (fc <? 2 ^ 16) && bool_decide (MacFrameControl.version fc = FrameVersion.V2003)
  && negb (MacFrameControl.security_enabled fc) && bool_decide (MacFrameControl.dst_mode fc = md)
  && bool_decide (MacFrameControl.src_mode fc = ms) && eqb (MacFrameControl.pan_id_compression fc) compress
  && (MacFrameType.bits (MacFrameControl.frame_type fc) =? n).

Lemma control_ok_spec n md ms compress :
  control_ok n md ms compress = true →
  let fc := control_of n md ms compress in
  uint 16 fc ∧ MacFrameControl.version fc = FrameVersion.V2003 ∧ MacFrameControl.security_enabled fc = false ∧
  MacFrameControl.dst_mode fc = md ∧ MacFrameControl.src_mode fc = ms ∧
  MacFrameControl.pan_id_compression fc = compress ∧ MacFrameType.bits (MacFrameControl.frame_type fc) = n.
Proof.
  unfold control_ok, uint. cbv zeta. rewrite !andb_true_iff, !bool_decide_eq_true, negb_true_iff, Z.leb_le, Z.ltb_lt, Z.eqb_eq.
  intros [[[[[[[??]?]?]?]?]?%eqb_prop]?]. done.
Qed.

Lemma new_control ty d s (compress : bool) :
  let fc := MacFrameControl.with_pan_id_compression (MacFrameControl.with_src_mode (MacFrameControl.with_dst_mode
    (MacFrameControl.new ty FrameVersion.V2003) (MacAddress.mode d)) (MacAddress.mode s)) compress in
  uint 16 fc ∧ MacFrameControl.version fc = FrameVersion.V2003 ∧ MacFrameControl.security_enabled fc = false ∧
  MacFrameControl.dst_mode fc = MacAddress.mode d ∧ MacFrameControl.src_mode fc = MacAddress.mode s ∧
  MacFrameControl.pan_id_compression fc = compress ∧ MacFrameType.bits (MacFrameControl.frame_type fc) = MacFrameType.bits ty.
Proof.
  assert (∃ n, MacFrameType.bits ty = n ∧ (n = 0 ∨ n = 1 ∨ n = 2 ∨ n = 3 ∨ n = 4 ∨ n = 5 ∨ n = 6 ∨ n = 7)) as (n & Hn & Hc).
  { eexists. split; [done|]. destruct ty as [| | | |v]; cbn; [lia..|]. change (Z.land v 7) with (Z.land v (Z.ones 3)). rewrite Z.land_ones by lia.
    pose proof (Z.mod_pos_bound v (2 ^ 3)). lia. }
  cbv zeta. unfold MacFrameControl.new. rewrite Hn. apply control_ok_spec.
  apply (Forall_forall (λ n, control_ok n (MacAddress.mode d) (MacAddress.mode s) compress = true) [0; 1; 2; 3; 4; 5; 6; 7]).
  - destruct d, s, compress; repeat constructor.
  - set_solver.
Qed.

Lemma mac_header_new_wf ty sq d_pan d s_pan s :
  uint 8 sq → uint 16 d_pan → uint 16 s_pan → mac_address_ok d → mac_address_ok s →
  mac_header_wf (MacHeader.new ty sq d_pan d s_pan s).
Proof.
  intros Hq Hdp Hsp Hd Hs. apply mac_header_standard. unfold MacHeader.new.
  set (compress := _ && (d_pan =? s_pan)).
  destruct (new_control ty d s compress) as (Hu & Hv & Hsec & Hdm & Hsm & Hc & _). cbv zeta in *.
  set (fc := MacFrameControl.with_pan_id_compression _ compress) in *. clearbody fc. clearbody compress.
  assert (MacHeader.suppressed fc = false) as Hsup by (unfold MacHeader.suppressed; by rewrite Hv).
  assert (ies_ok fc []) as Hies.
  { split; [constructor|]. unfold MacHeader.has_ies. by rewrite Hv. }
  assert (MacHeader.pan_presence fc = MacHeader.pan_presence_legacy (MacAddress.mode d) (MacAddress.mode s) compress) as Hpp.
  { unfold MacHeader.pan_presence. by rewrite Hv, Hdm, Hsm, Hc. }
  destruct d, s; cbn in Hpp |- *; try destruct compress; split; cbn; rewrite ?Hpp, ?Hsup, ?Hv; done.
Qed.
End addressing.

(** Compression of PAN identifiers loses nothing.  A frame built by
    [Header::new] for any type, addresses and PAN identifiers is written and read
    back, and the receiver computes from it the destination PAN of an addressed
    destination and the source PAN of a source with an address, although the
    frame carries one identifier only when both are equal. *)
Theorem mac_addressing_round_trip (ty : MacFrameType.t) (sq d_pan s_pan : Z) (d s : MacAddress.t) (payload out : list Z) :
  uint 8 sq → uint 16 d_pan → uint 16 s_pan → mac_address_ok d → mac_address_ok s → bytes_ok payload →
  let f := MacFrame.mk (MacHeader.new ty sq d_pan d s_pan s) payload in
  (encoded_len f ≤ length out)%nat →
  ∃ out' g, encode_to_slice f out = (Ok (encoded_len f), out') ∧ decode_exact (take (encoded_len f) out') = Ok g ∧
    MacHeader.dst (MacFrame.header g) = d ∧ MacHeader.src (MacFrame.header g) = s ∧
    MacHeader.sequence (MacFrame.header g) = Some sq ∧ MacFrame.payload g = payload ∧
    MacFrameType.bits (MacFrameControl.frame_type (MacHeader.frame_control (MacFrame.header g))) = MacFrameType.bits ty ∧
    (d ≠ MacAddress.None → MacHeader.effective_dst_pan (MacFrame.header g) = Some d_pan) ∧
    (s ≠ MacAddress.None → MacHeader.effective_src_pan (MacFrame.header g) = Some s_pan).
Proof.
  intros Hq Hdp Hsp Hd Hs Hp f Hout.
  destruct (full_round_trip (HC:=mac_frame_FullCodec) f out) as (out' & E1 & E2 & _); [|done|].
  { split; [by apply mac_header_new_wf|done]. }
  exists out', f. split_and!; try done; unfold f, MacHeader.new; cbn [MacFrame.header].
  1-3: destruct d, s; cbn; try done; by destruct (_ =? _).
  - set (compress := _ && (d_pan =? s_pan)). destruct (new_control ty d s compress) as (_ & _ & _ & _ & _ & _ & Ht).
    destruct d, s; cbn [MacAddress.mode] in *; cbn -[MacFrameControl.with_pan_id_compression MacFrameControl.frame_type compress]; try done; by destruct compress.
  - intros Hne. destruct d, s; cbn; try done; by destruct (_ =? _).
  - intros Hne. destruct d, s; cbn; try done; destruct (Z.eqb_spec d_pan s_pan); by subst.
Qed.

Lemma mac_addressing_round_trip_witness :
  let f := MacFrame.mk (MacHeader.new MacFrameType.Command 3 0x1A62 (MacAddress.Short 0) 0xFFFF
    (MacAddress.Extended 0x1122334455667788)) [1; 0x8E] in
  ∃ out' g, encode_to_slice f (replicate 40 0) = (Ok (encoded_len f), out') ∧
    decode_exact (take (encoded_len f) out') = Ok g ∧
    MacHeader.effective_dst_pan (MacFrame.header g) = Some 0x1A62 ∧
    MacHeader.effective_src_pan (MacFrame.header g) = Some 0xFFFF.
Proof.
  destruct (mac_addressing_round_trip MacFrameType.Command 3 0x1A62 0xFFFF (MacAddress.Short 0)
    (MacAddress.Extended 0x1122334455667788) [1; 0x8E] (replicate 40 0)) as (out' & g & H1 & H2 & _ & _ & _ & _ & _ & H3 & H4);
    [by vm_compute..|repeat constructor; vm_compute; congruence|vm_compute; lia|].
  exists out', g. split_and!; [exact H1|exact H2|by apply H3|by apply H4].
Defined.

(** ** Commands and beacons *)

Definition mac_command_wf (c : MacCommand.t) : Prop :=
  match c with
  | MacCommand.AssociationRequest capability => uint 8 capability
  | MacCommand.AssociationResponse a s =>
      uint 16 a ∧ uint 8 (MacStatus.raw s) ∧ MacStatus.from_raw (MacStatus.raw s) = s
  | MacCommand.DisassociationNotification r =>
      uint 8 (DisassociationReason.raw r) ∧ DisassociationReason.from_raw (DisassociationReason.raw r) = r
  | MacCommand.CoordinatorRealignment p c ch a page =>
      uint 16 p ∧ uint 16 c ∧ uint 8 ch ∧ uint 16 a ∧ from_option (uint 8) True page
  | MacCommand.Other i payload =>
      uint 8 i ∧ bytes_ok payload ∧
      match MacCommandId.from_raw i with MacCommandId.GtsRequest | MacCommandId.Other _ => True | _ => False end
  | _ => True
  end.

Definition mac_command_wire (c : MacCommand.t) : list Z :=
  [MacCommandId.raw (MacCommand.id c)] ++
  match c with
  | MacCommand.AssociationRequest capability => [capability]
  | MacCommand.AssociationResponse a s => to_le 2 a ++ [MacStatus.raw s]
  | MacCommand.DisassociationNotification r => [DisassociationReason.raw r]
  | MacCommand.CoordinatorRealignment p c ch a page =>
      to_le 2 p ++ to_le 2 c ++ [ch] ++ to_le 2 a ++ from_option (λ v, [v]) [] page
  | MacCommand.Other _ payload => payload
  | _ => []
  end.

Section commands.
Lemma page_decodes page : decodes_all MacCommand.page_if_any (from_option (λ v, [v]) [] page) page.
Proof.
  intros pre. unfold MacCommand.page_if_any, Reader.is_empty, Reader.remaining. cbn [Reader.buf Reader.pos].
  destruct page as [v|]; cbn [from_option].
  - rewrite (proj2 (Nat.eqb_neq _ _)) by (rewrite length_app; cbn [length]; lia).
    rewrite (decodes_to_end _ _ _ (decodes_map _ Some _ _ (decodes_u8 v)) pre). done.
  - by rewrite app_nil_r, Nat.sub_diag.
Qed.

Lemma mac_command_writes c : writes (encode c) (mac_command_wire c).
Proof.
  cbn [encode MacCommand.Encode_t]. unfold mac_command_wire. write_field. destruct c; write_fields.
  apply writes_bind_last; [|apply writes_ret]. apply writes_opt. intros. apply writes_u8.
Qed.

Lemma mac_command_decodes c : mac_command_wf c → decodes_all decode (mac_command_wire c) c.
Proof.
  intros Hwf. unfold decode, MacCommand.Decode_t, mac_command_wire.
  destruct c as [a|a s|r| | | | |p c ch a pg|i p]; cbn [mac_command_wf MacCommand.id MacCommandId.raw app] in *;
    read_field_end; cbn [MacCommandId.from_raw].
  - read_last.
  - destruct Hwf as (Ha & Hs & Hr). read_field_end. eapply field_last; [apply _|done|done|]. by rewrite Hr.
  - destruct Hwf as (Hu & Hr). eapply field_last; [apply _|done|done|]. by rewrite Hr.
  - apply decodes_all_ret.
  - apply decodes_all_ret.
  - apply decodes_all_ret.
  - apply decodes_all_ret.
  - destruct Hwf as (Hp & Hc & Hch & Ha & Hpg). do 4 read_field_end.
    apply (decodes_all_map _ (MacCommand.CoordinatorRealignment p c ch a)), page_decodes.
  - destruct Hwf as (Hi & Hp & Hm).
    assert (decodes_all (x ← Reader.take_rest; mret (MacCommand.Other i x)) p (MacCommand.Other i p)) as Hd
      by (apply decodes_all_rest, decodes_all_ret).
    destruct (MacCommandId.from_raw i); done.
Qed.

Lemma mac_command_len c : encoded_len c = length (mac_command_wire c).
Proof.
  unfold mac_command_wire. rewrite length_app. cbn [length].
  destruct c as [a|a s|r| | | | |p c ch a [pg|]|i p]; cbn [encoded_len MacCommand.Encode_t is_some from_option];
    rewrite ?length_app, ?length_to_le; cbn [length]; lia.
Qed.

#[export] Instance mac_command_FullCodec : FullCodec MacCommand.t := {
  full_ok := mac_command_wf;
  full_wire := mac_command_wire;
  full_writes c _ := mac_command_writes c;
  full_decodes := mac_command_decodes;
  full_len c _ := mac_command_len c
}.
End commands.

(** Every MAC command survives the wire: association, polling, realignment with
    and without the channel page. *)
Theorem mac_command_round_trip (c : MacCommand.t) (out : list Z) :
  mac_command_wf c → (encoded_len c ≤ length out)%nat →
  ∃ out', encode_to_slice c out = (Ok (encoded_len c), out') ∧
    decode_exact (take (encoded_len c) out') = Ok c ∧ drop (encoded_len c) out' = drop (encoded_len c) out.
Proof. apply (full_round_trip (HC:=mac_command_FullCodec)). Qed.

(** A beacon of a PAN without beacon order is read back: whether the sender is
    the coordinator, whether it permits association, and its payload. *)
Theorem beacon_round_trip (coordinator permit : bool) (payload out : list Z) :
  let b := Beacon.non_beacon coordinator permit payload in
  (encoded_len b ≤ length out)%nat →
  ∃ out', encode_to_slice b out = (Ok (encoded_len b), out') ∧ decode_exact (take (encoded_len b) out') = Ok b.
Proof.
  intros b Hout.
  set (bs := to_le 2 (SuperframeSpec.to_raw (Beacon.superframe b)) ++ [0] ++ [0] ++ payload).
  assert (writes (encode b) bs) as Hw.
  { unfold bs. cbn [encode Beacon.Encode_t b Beacon.non_beacon Beacon.pending_short Beacon.pending_extended].
    cbn [Z.eqb negb orb]. write_fields. }
  assert (encoded_len b = length bs) as Hl.
  { unfold bs. cbn [encoded_len Beacon.Encode_t b Beacon.non_beacon Beacon.payload].
    rewrite !length_app, length_to_le. cbn [length]. lia. }
  rewrite Hl in *. eexists. split; [by apply writes_to_slice|]. rewrite take_app_length.
  apply decodes_all_exact. unfold bs, decode, Beacon.Decode_t.
  eapply decodes_all_bind.
  { apply decodes_u16. by destruct coordinator, permit. }
  cbv zeta. apply decodes_all_u8. cbn [Z.land Z.to_nat Nat.ltb Nat.leb].
  apply (decodes_all_bind (mret tt) _ [] (0 :: payload) tt); [apply decodes_ret|].
  apply decodes_all_u8. apply (decodes_all_bind (Reader.skip 0) _ [] payload tt).
  { unfold Reader.skip. apply (decodes_map (Reader.bytes 0) (λ _, tt) [] []), (decodes_bytes []). }
  apply decodes_all_rest. unfold b, Beacon.non_beacon. destruct coordinator, permit; apply decodes_all_ret.
Qed.
