(* ===== verification/NwkState.v ===== *)
(** * The network layer: its state (panweave-nwk/src/layer/mod.rs, nib.rs)

    [Nib] holds the scalar attributes, [NwkAction] and [NwkEvent] what the layer
    asks of the MAC and tells the layer above, [PendingTx], [BroadcastBuf] and
    [PendingRreq] the frames it keeps, [ScanState], [FormationState] and
    [JoinState] what it is doing to find or join a network.  [Nwk.t] is the layer
    with all its fields. *)

From S2P Require Import Prelude Types Status Codec Heapless FrameCounter AuxHeader Ccm SecFrame Keys NwkSecurity NwkFrame Routing NwkTables NwkCommand NwkNeighbor NwkDiscovery NwkInterface.

(** ** Constants (nib.rs, layer/mod.rs) *)

Module constants.
Definition PROTOCOL_VERSION : Z := 0x02.
Definition ROUTE_DISCOVERY_TIME : Z := Duration.from_millis 0x2710.
Definition MAX_BROADCAST_JITTER : Z := Duration.from_millis 0x40.
Definition INITIAL_RREQ_RETRIES : Z := 3.
Definition RREQ_RETRIES : Z := 2.
Definition RREQ_RETRY_INTERVAL : Z := Duration.from_millis 0xFE.
Definition MIN_RREQ_JITTER : Z := Duration.from_millis 2.
Definition MAX_RREQ_JITTER : Z := Duration.from_millis 128.
Definition MAX_DEPTH : Z := 15.
Definition UNICAST_RETRIES : Z := 3.
Definition UNICAST_RETRY_DELAY : Z := Duration.from_millis 50.
Definition MIN_ROUTER_BOOTSTRAP_JITTER : Z := Duration.from_millis 500.
Definition MAX_ROUTER_BOOTSTRAP_JITTER : Z := Duration.from_millis 1000.
Definition MAX_BEACON_APPENDIX : nat := 52 - 15.
Definition SECURITY_TIMEOUT : Z := Duration.from_secs 10.
Definition BROADCAST_DELIVERY_TIME : Z := Duration.from_secs 9.
Definition DEFAULT_RADIUS : Z := 2 * MAX_DEPTH.
End constants.

Definition MAX_NPDU : nat := 116.
Definition DISCOVERY_TABLE_SIZE : nat := 6.
Definition MAX_JOINER_TLVS : nat := 64.

(** ** The network information base *)

Module Nib.
Record t : Type := mk {
  sequence_number : Z;
  passive_ack_timeout : Z;
  max_broadcast_retries : Z;
  max_children : Z;
  max_routers : Z;
  network_broadcast_delivery_time : Z;
  capability_information : Z;
  manager_addr : Z;
  max_source_route : Z;
  update_id : Z;
  network_address : Z;
  stack_profile : Z;
  extended_pan_id : Z;
  pan_id : Z;
  channel_page : Z;
  channel : Z;
  is_concentrator : bool;
  concentrator_radius : Z;
  concentrator_discovery_time_secs : Z;
  security_level : SecurityLevel.t;
  all_fresh : bool;
  link_status_period : Z;
  router_age_limit : Z;
  leave_request_allowed : bool;
  leave_request_without_rejoin_allowed : bool;
  parent_information : Z;
  link_power_delta_transmit_rate : Z;
  end_device_timeout_default : Z;
  end_device_timeout : Z;
  ieee_address : Z;
  good_parent_lqa : Z;
  max_initial_join_parent_attempts : Z;
  max_rejoin_parent_attempts : Z;
  hub_connectivity : bool;
  preferred_parent : bool;
  next_pan_id : Z;
  next_channel_change : Z;
  pan_id_conflict_count : Z;
  routing_sequence_number : Z;
  tx_total : Z;
  tx_failures : Z;
  device_type : LogicalDeviceType.t;
  joined : bool;
  authenticated : bool;
  router_started : bool;
  rx_on_when_idle : bool;
  parent_address : Z;
  parent_ieee : Z;
  depth : Z
}.

(** [self.field = v] *)
Definition set_sequence_number (v : Z) (n : t) : t :=
  mk v (passive_ack_timeout n) (max_broadcast_retries n) (max_children n) (max_routers n)
  (network_broadcast_delivery_time n) (capability_information n) (manager_addr n) (max_source_route n)
  (update_id n) (network_address n) (stack_profile n) (extended_pan_id n) (pan_id n) (channel_page n) (channel n)
  (is_concentrator n) (concentrator_radius n) (concentrator_discovery_time_secs n) (security_level n)
  (all_fresh n) (link_status_period n) (router_age_limit n) (leave_request_allowed n)
  (leave_request_without_rejoin_allowed n) (parent_information n) (link_power_delta_transmit_rate n)
  (end_device_timeout_default n) (end_device_timeout n) (ieee_address n) (good_parent_lqa n)
  (max_initial_join_parent_attempts n) (max_rejoin_parent_attempts n) (hub_connectivity n) (preferred_parent n)
  (next_pan_id n) (next_channel_change n) (pan_id_conflict_count n) (routing_sequence_number n) (tx_total n)
  (tx_failures n) (device_type n) (joined n) (authenticated n) (router_started n) (rx_on_when_idle n)
  (parent_address n) (parent_ieee n) (depth n).
Definition set_manager_addr (v : Z) (n : t) : t :=
  mk (sequence_number n) (passive_ack_timeout n) (max_broadcast_retries n) (max_children n) (max_routers n)
  (network_broadcast_delivery_time n) (capability_information n) v (max_source_route n) (update_id n)
  (network_address n) (stack_profile n) (extended_pan_id n) (pan_id n) (channel_page n) (channel n)
  (is_concentrator n) (concentrator_radius n) (concentrator_discovery_time_secs n) (security_level n)
  (all_fresh n) (link_status_period n) (router_age_limit n) (leave_request_allowed n)
  (leave_request_without_rejoin_allowed n) (parent_information n) (link_power_delta_transmit_rate n)
  (end_device_timeout_default n) (end_device_timeout n) (ieee_address n) (good_parent_lqa n)
  (max_initial_join_parent_attempts n) (max_rejoin_parent_attempts n) (hub_connectivity n) (preferred_parent n)
  (next_pan_id n) (next_channel_change n) (pan_id_conflict_count n) (routing_sequence_number n) (tx_total n)
  (tx_failures n) (device_type n) (joined n) (authenticated n) (router_started n) (rx_on_when_idle n)
  (parent_address n) (parent_ieee n) (depth n).
Definition set_capability_information (v : Z) (n : t) : t :=
  mk (sequence_number n) (passive_ack_timeout n) (max_broadcast_retries n) (max_children n) (max_routers n)
  (network_broadcast_delivery_time n) v (manager_addr n) (max_source_route n) (update_id n) (network_address n)
  (stack_profile n) (extended_pan_id n) (pan_id n) (channel_page n) (channel n) (is_concentrator n)
  (concentrator_radius n) (concentrator_discovery_time_secs n) (security_level n) (all_fresh n)
  (link_status_period n) (router_age_limit n) (leave_request_allowed n) (leave_request_without_rejoin_allowed n)
  (parent_information n) (link_power_delta_transmit_rate n) (end_device_timeout_default n) (end_device_timeout n)
  (ieee_address n) (good_parent_lqa n) (max_initial_join_parent_attempts n) (max_rejoin_parent_attempts n)
  (hub_connectivity n) (preferred_parent n) (next_pan_id n) (next_channel_change n) (pan_id_conflict_count n)
  (routing_sequence_number n) (tx_total n) (tx_failures n) (device_type n) (joined n) (authenticated n)
  (router_started n) (rx_on_when_idle n) (parent_address n) (parent_ieee n) (depth n).
Definition set_rx_on_when_idle (v : bool) (n : t) : t :=
  mk (sequence_number n) (passive_ack_timeout n) (max_broadcast_retries n) (max_children n) (max_routers n)
  (network_broadcast_delivery_time n) (capability_information n) (manager_addr n) (max_source_route n)
  (update_id n) (network_address n) (stack_profile n) (extended_pan_id n) (pan_id n) (channel_page n) (channel n)
  (is_concentrator n) (concentrator_radius n) (concentrator_discovery_time_secs n) (security_level n)
  (all_fresh n) (link_status_period n) (router_age_limit n) (leave_request_allowed n)
  (leave_request_without_rejoin_allowed n) (parent_information n) (link_power_delta_transmit_rate n)
  (end_device_timeout_default n) (end_device_timeout n) (ieee_address n) (good_parent_lqa n)
  (max_initial_join_parent_attempts n) (max_rejoin_parent_attempts n) (hub_connectivity n) (preferred_parent n)
  (next_pan_id n) (next_channel_change n) (pan_id_conflict_count n) (routing_sequence_number n) (tx_total n)
  (tx_failures n) (device_type n) (joined n) (authenticated n) (router_started n) v (parent_address n)
  (parent_ieee n) (depth n).
Definition set_channel (v : Z) (n : t) : t :=
  mk (sequence_number n) (passive_ack_timeout n) (max_broadcast_retries n) (max_children n) (max_routers n)
  (network_broadcast_delivery_time n) (capability_information n) (manager_addr n) (max_source_route n)
  (update_id n) (network_address n) (stack_profile n) (extended_pan_id n) (pan_id n) (channel_page n) v
  (is_concentrator n) (concentrator_radius n) (concentrator_discovery_time_secs n) (security_level n)
  (all_fresh n) (link_status_period n) (router_age_limit n) (leave_request_allowed n)
  (leave_request_without_rejoin_allowed n) (parent_information n) (link_power_delta_transmit_rate n)
  (end_device_timeout_default n) (end_device_timeout n) (ieee_address n) (good_parent_lqa n)
  (max_initial_join_parent_attempts n) (max_rejoin_parent_attempts n) (hub_connectivity n) (preferred_parent n)
  (next_pan_id n) (next_channel_change n) (pan_id_conflict_count n) (routing_sequence_number n) (tx_total n)
  (tx_failures n) (device_type n) (joined n) (authenticated n) (router_started n) (rx_on_when_idle n)
  (parent_address n) (parent_ieee n) (depth n).
Definition set_channel_page (v : Z) (n : t) : t :=
  mk (sequence_number n) (passive_ack_timeout n) (max_broadcast_retries n) (max_children n) (max_routers n)
  (network_broadcast_delivery_time n) (capability_information n) (manager_addr n) (max_source_route n)
  (update_id n) (network_address n) (stack_profile n) (extended_pan_id n) (pan_id n) v (channel n)
  (is_concentrator n) (concentrator_radius n) (concentrator_discovery_time_secs n) (security_level n)
  (all_fresh n) (link_status_period n) (router_age_limit n) (leave_request_allowed n)
  (leave_request_without_rejoin_allowed n) (parent_information n) (link_power_delta_transmit_rate n)
  (end_device_timeout_default n) (end_device_timeout n) (ieee_address n) (good_parent_lqa n)
  (max_initial_join_parent_attempts n) (max_rejoin_parent_attempts n) (hub_connectivity n) (preferred_parent n)
  (next_pan_id n) (next_channel_change n) (pan_id_conflict_count n) (routing_sequence_number n) (tx_total n)
  (tx_failures n) (device_type n) (joined n) (authenticated n) (router_started n) (rx_on_when_idle n)
  (parent_address n) (parent_ieee n) (depth n).
Definition set_next_pan_id (v : Z) (n : t) : t :=
  mk (sequence_number n) (passive_ack_timeout n) (max_broadcast_retries n) (max_children n) (max_routers n)
  (network_broadcast_delivery_time n) (capability_information n) (manager_addr n) (max_source_route n)
  (update_id n) (network_address n) (stack_profile n) (extended_pan_id n) (pan_id n) (channel_page n) (channel n)
  (is_concentrator n) (concentrator_radius n) (concentrator_discovery_time_secs n) (security_level n)
  (all_fresh n) (link_status_period n) (router_age_limit n) (leave_request_allowed n)
  (leave_request_without_rejoin_allowed n) (parent_information n) (link_power_delta_transmit_rate n)
  (end_device_timeout_default n) (end_device_timeout n) (ieee_address n) (good_parent_lqa n)
  (max_initial_join_parent_attempts n) (max_rejoin_parent_attempts n) (hub_connectivity n) (preferred_parent n) v
  (next_channel_change n) (pan_id_conflict_count n) (routing_sequence_number n) (tx_total n) (tx_failures n)
  (device_type n) (joined n) (authenticated n) (router_started n) (rx_on_when_idle n) (parent_address n)
  (parent_ieee n) (depth n).
Definition set_next_channel_change (v : Z) (n : t) : t :=
  mk (sequence_number n) (passive_ack_timeout n) (max_broadcast_retries n) (max_children n) (max_routers n)
  (network_broadcast_delivery_time n) (capability_information n) (manager_addr n) (max_source_route n)
  (update_id n) (network_address n) (stack_profile n) (extended_pan_id n) (pan_id n) (channel_page n) (channel n)
  (is_concentrator n) (concentrator_radius n) (concentrator_discovery_time_secs n) (security_level n)
  (all_fresh n) (link_status_period n) (router_age_limit n) (leave_request_allowed n)
  (leave_request_without_rejoin_allowed n) (parent_information n) (link_power_delta_transmit_rate n)
  (end_device_timeout_default n) (end_device_timeout n) (ieee_address n) (good_parent_lqa n)
  (max_initial_join_parent_attempts n) (max_rejoin_parent_attempts n) (hub_connectivity n) (preferred_parent n)
  (next_pan_id n) v (pan_id_conflict_count n) (routing_sequence_number n) (tx_total n) (tx_failures n)
  (device_type n) (joined n) (authenticated n) (router_started n) (rx_on_when_idle n) (parent_address n)
  (parent_ieee n) (depth n).
Definition set_pan_id_conflict_count (v : Z) (n : t) : t :=
  mk (sequence_number n) (passive_ack_timeout n) (max_broadcast_retries n) (max_children n) (max_routers n)
  (network_broadcast_delivery_time n) (capability_information n) (manager_addr n) (max_source_route n)
  (update_id n) (network_address n) (stack_profile n) (extended_pan_id n) (pan_id n) (channel_page n) (channel n)
  (is_concentrator n) (concentrator_radius n) (concentrator_discovery_time_secs n) (security_level n)
  (all_fresh n) (link_status_period n) (router_age_limit n) (leave_request_allowed n)
  (leave_request_without_rejoin_allowed n) (parent_information n) (link_power_delta_transmit_rate n)
  (end_device_timeout_default n) (end_device_timeout n) (ieee_address n) (good_parent_lqa n)
  (max_initial_join_parent_attempts n) (max_rejoin_parent_attempts n) (hub_connectivity n) (preferred_parent n)
  (next_pan_id n) (next_channel_change n) v (routing_sequence_number n) (tx_total n) (tx_failures n)
  (device_type n) (joined n) (authenticated n) (router_started n) (rx_on_when_idle n) (parent_address n)
  (parent_ieee n) (depth n).
Definition set_link_power_delta_transmit_rate (v : Z) (n : t) : t :=
  mk (sequence_number n) (passive_ack_timeout n) (max_broadcast_retries n) (max_children n) (max_routers n)
  (network_broadcast_delivery_time n) (capability_information n) (manager_addr n) (max_source_route n)
  (update_id n) (network_address n) (stack_profile n) (extended_pan_id n) (pan_id n) (channel_page n) (channel n)
  (is_concentrator n) (concentrator_radius n) (concentrator_discovery_time_secs n) (security_level n)
  (all_fresh n) (link_status_period n) (router_age_limit n) (leave_request_allowed n)
  (leave_request_without_rejoin_allowed n) (parent_information n) v (end_device_timeout_default n)
  (end_device_timeout n) (ieee_address n) (good_parent_lqa n) (max_initial_join_parent_attempts n)
  (max_rejoin_parent_attempts n) (hub_connectivity n) (preferred_parent n) (next_pan_id n) (next_channel_change n)
  (pan_id_conflict_count n) (routing_sequence_number n) (tx_total n) (tx_failures n) (device_type n) (joined n)
  (authenticated n) (router_started n) (rx_on_when_idle n) (parent_address n) (parent_ieee n) (depth n).
Definition set_update_id (v : Z) (n : t) : t :=
  mk (sequence_number n) (passive_ack_timeout n) (max_broadcast_retries n) (max_children n) (max_routers n)
  (network_broadcast_delivery_time n) (capability_information n) (manager_addr n) (max_source_route n) v
  (network_address n) (stack_profile n) (extended_pan_id n) (pan_id n) (channel_page n) (channel n)
  (is_concentrator n) (concentrator_radius n) (concentrator_discovery_time_secs n) (security_level n)
  (all_fresh n) (link_status_period n) (router_age_limit n) (leave_request_allowed n)
  (leave_request_without_rejoin_allowed n) (parent_information n) (link_power_delta_transmit_rate n)
  (end_device_timeout_default n) (end_device_timeout n) (ieee_address n) (good_parent_lqa n)
  (max_initial_join_parent_attempts n) (max_rejoin_parent_attempts n) (hub_connectivity n) (preferred_parent n)
  (next_pan_id n) (next_channel_change n) (pan_id_conflict_count n) (routing_sequence_number n) (tx_total n)
  (tx_failures n) (device_type n) (joined n) (authenticated n) (router_started n) (rx_on_when_idle n)
  (parent_address n) (parent_ieee n) (depth n).
Definition set_network_address (v : Z) (n : t) : t :=
  mk (sequence_number n) (passive_ack_timeout n) (max_broadcast_retries n) (max_children n) (max_routers n)
  (network_broadcast_delivery_time n) (capability_information n) (manager_addr n) (max_source_route n)
  (update_id n) v (stack_profile n) (extended_pan_id n) (pan_id n) (channel_page n) (channel n)
  (is_concentrator n) (concentrator_radius n) (concentrator_discovery_time_secs n) (security_level n)
  (all_fresh n) (link_status_period n) (router_age_limit n) (leave_request_allowed n)
  (leave_request_without_rejoin_allowed n) (parent_information n) (link_power_delta_transmit_rate n)
  (end_device_timeout_default n) (end_device_timeout n) (ieee_address n) (good_parent_lqa n)
  (max_initial_join_parent_attempts n) (max_rejoin_parent_attempts n) (hub_connectivity n) (preferred_parent n)
  (next_pan_id n) (next_channel_change n) (pan_id_conflict_count n) (routing_sequence_number n) (tx_total n)
  (tx_failures n) (device_type n) (joined n) (authenticated n) (router_started n) (rx_on_when_idle n)
  (parent_address n) (parent_ieee n) (depth n).
Definition set_extended_pan_id (v : Z) (n : t) : t :=
  mk (sequence_number n) (passive_ack_timeout n) (max_broadcast_retries n) (max_children n) (max_routers n)
  (network_broadcast_delivery_time n) (capability_information n) (manager_addr n) (max_source_route n)
  (update_id n) (network_address n) (stack_profile n) v (pan_id n) (channel_page n) (channel n)
  (is_concentrator n) (concentrator_radius n) (concentrator_discovery_time_secs n) (security_level n)
  (all_fresh n) (link_status_period n) (router_age_limit n) (leave_request_allowed n)
  (leave_request_without_rejoin_allowed n) (parent_information n) (link_power_delta_transmit_rate n)
  (end_device_timeout_default n) (end_device_timeout n) (ieee_address n) (good_parent_lqa n)
  (max_initial_join_parent_attempts n) (max_rejoin_parent_attempts n) (hub_connectivity n) (preferred_parent n)
  (next_pan_id n) (next_channel_change n) (pan_id_conflict_count n) (routing_sequence_number n) (tx_total n)
  (tx_failures n) (device_type n) (joined n) (authenticated n) (router_started n) (rx_on_when_idle n)
  (parent_address n) (parent_ieee n) (depth n).
Definition set_pan_id (v : Z) (n : t) : t :=
  mk (sequence_number n) (passive_ack_timeout n) (max_broadcast_retries n) (max_children n) (max_routers n)
  (network_broadcast_delivery_time n) (capability_information n) (manager_addr n) (max_source_route n)
  (update_id n) (network_address n) (stack_profile n) (extended_pan_id n) v (channel_page n) (channel n)
  (is_concentrator n) (concentrator_radius n) (concentrator_discovery_time_secs n) (security_level n)
  (all_fresh n) (link_status_period n) (router_age_limit n) (leave_request_allowed n)
  (leave_request_without_rejoin_allowed n) (parent_information n) (link_power_delta_transmit_rate n)
  (end_device_timeout_default n) (end_device_timeout n) (ieee_address n) (good_parent_lqa n)
  (max_initial_join_parent_attempts n) (max_rejoin_parent_attempts n) (hub_connectivity n) (preferred_parent n)
  (next_pan_id n) (next_channel_change n) (pan_id_conflict_count n) (routing_sequence_number n) (tx_total n)
  (tx_failures n) (device_type n) (joined n) (authenticated n) (router_started n) (rx_on_when_idle n)
  (parent_address n) (parent_ieee n) (depth n).
Definition set_is_concentrator (v : bool) (n : t) : t :=
  mk (sequence_number n) (passive_ack_timeout n) (max_broadcast_retries n) (max_children n) (max_routers n)
  (network_broadcast_delivery_time n) (capability_information n) (manager_addr n) (max_source_route n)
  (update_id n) (network_address n) (stack_profile n) (extended_pan_id n) (pan_id n) (channel_page n) (channel n)
  v (concentrator_radius n) (concentrator_discovery_time_secs n) (security_level n) (all_fresh n)
  (link_status_period n) (router_age_limit n) (leave_request_allowed n) (leave_request_without_rejoin_allowed n)
  (parent_information n) (link_power_delta_transmit_rate n) (end_device_timeout_default n) (end_device_timeout n)
  (ieee_address n) (good_parent_lqa n) (max_initial_join_parent_attempts n) (max_rejoin_parent_attempts n)
  (hub_connectivity n) (preferred_parent n) (next_pan_id n) (next_channel_change n) (pan_id_conflict_count n)
  (routing_sequence_number n) (tx_total n) (tx_failures n) (device_type n) (joined n) (authenticated n)
  (router_started n) (rx_on_when_idle n) (parent_address n) (parent_ieee n) (depth n).
Definition set_concentrator_radius (v : Z) (n : t) : t :=
  mk (sequence_number n) (passive_ack_timeout n) (max_broadcast_retries n) (max_children n) (max_routers n)
  (network_broadcast_delivery_time n) (capability_information n) (manager_addr n) (max_source_route n)
  (update_id n) (network_address n) (stack_profile n) (extended_pan_id n) (pan_id n) (channel_page n) (channel n)
  (is_concentrator n) v (concentrator_discovery_time_secs n) (security_level n) (all_fresh n)
  (link_status_period n) (router_age_limit n) (leave_request_allowed n) (leave_request_without_rejoin_allowed n)
  (parent_information n) (link_power_delta_transmit_rate n) (end_device_timeout_default n) (end_device_timeout n)
  (ieee_address n) (good_parent_lqa n) (max_initial_join_parent_attempts n) (max_rejoin_parent_attempts n)
  (hub_connectivity n) (preferred_parent n) (next_pan_id n) (next_channel_change n) (pan_id_conflict_count n)
  (routing_sequence_number n) (tx_total n) (tx_failures n) (device_type n) (joined n) (authenticated n)
  (router_started n) (rx_on_when_idle n) (parent_address n) (parent_ieee n) (depth n).
Definition set_concentrator_discovery_time_secs (v : Z) (n : t) : t :=
  mk (sequence_number n) (passive_ack_timeout n) (max_broadcast_retries n) (max_children n) (max_routers n)
  (network_broadcast_delivery_time n) (capability_information n) (manager_addr n) (max_source_route n)
  (update_id n) (network_address n) (stack_profile n) (extended_pan_id n) (pan_id n) (channel_page n) (channel n)
  (is_concentrator n) (concentrator_radius n) v (security_level n) (all_fresh n) (link_status_period n)
  (router_age_limit n) (leave_request_allowed n) (leave_request_without_rejoin_allowed n) (parent_information n)
  (link_power_delta_transmit_rate n) (end_device_timeout_default n) (end_device_timeout n) (ieee_address n)
  (good_parent_lqa n) (max_initial_join_parent_attempts n) (max_rejoin_parent_attempts n) (hub_connectivity n)
  (preferred_parent n) (next_pan_id n) (next_channel_change n) (pan_id_conflict_count n)
  (routing_sequence_number n) (tx_total n) (tx_failures n) (device_type n) (joined n) (authenticated n)
  (router_started n) (rx_on_when_idle n) (parent_address n) (parent_ieee n) (depth n).
Definition set_parent_information (v : Z) (n : t) : t :=
  mk (sequence_number n) (passive_ack_timeout n) (max_broadcast_retries n) (max_children n) (max_routers n)
  (network_broadcast_delivery_time n) (capability_information n) (manager_addr n) (max_source_route n)
  (update_id n) (network_address n) (stack_profile n) (extended_pan_id n) (pan_id n) (channel_page n) (channel n)
  (is_concentrator n) (concentrator_radius n) (concentrator_discovery_time_secs n) (security_level n)
  (all_fresh n) (link_status_period n) (router_age_limit n) (leave_request_allowed n)
  (leave_request_without_rejoin_allowed n) v (link_power_delta_transmit_rate n) (end_device_timeout_default n)
  (end_device_timeout n) (ieee_address n) (good_parent_lqa n) (max_initial_join_parent_attempts n)
  (max_rejoin_parent_attempts n) (hub_connectivity n) (preferred_parent n) (next_pan_id n) (next_channel_change n)
  (pan_id_conflict_count n) (routing_sequence_number n) (tx_total n) (tx_failures n) (device_type n) (joined n)
  (authenticated n) (router_started n) (rx_on_when_idle n) (parent_address n) (parent_ieee n) (depth n).
Definition set_hub_connectivity (v : bool) (n : t) : t :=
  mk (sequence_number n) (passive_ack_timeout n) (max_broadcast_retries n) (max_children n) (max_routers n)
  (network_broadcast_delivery_time n) (capability_information n) (manager_addr n) (max_source_route n)
  (update_id n) (network_address n) (stack_profile n) (extended_pan_id n) (pan_id n) (channel_page n) (channel n)
  (is_concentrator n) (concentrator_radius n) (concentrator_discovery_time_secs n) (security_level n)
  (all_fresh n) (link_status_period n) (router_age_limit n) (leave_request_allowed n)
  (leave_request_without_rejoin_allowed n) (parent_information n) (link_power_delta_transmit_rate n)
  (end_device_timeout_default n) (end_device_timeout n) (ieee_address n) (good_parent_lqa n)
  (max_initial_join_parent_attempts n) (max_rejoin_parent_attempts n) v (preferred_parent n) (next_pan_id n)
  (next_channel_change n) (pan_id_conflict_count n) (routing_sequence_number n) (tx_total n) (tx_failures n)
  (device_type n) (joined n) (authenticated n) (router_started n) (rx_on_when_idle n) (parent_address n)
  (parent_ieee n) (depth n).
Definition set_routing_sequence_number (v : Z) (n : t) : t :=
  mk (sequence_number n) (passive_ack_timeout n) (max_broadcast_retries n) (max_children n) (max_routers n)
  (network_broadcast_delivery_time n) (capability_information n) (manager_addr n) (max_source_route n)
  (update_id n) (network_address n) (stack_profile n) (extended_pan_id n) (pan_id n) (channel_page n) (channel n)
  (is_concentrator n) (concentrator_radius n) (concentrator_discovery_time_secs n) (security_level n)
  (all_fresh n) (link_status_period n) (router_age_limit n) (leave_request_allowed n)
  (leave_request_without_rejoin_allowed n) (parent_information n) (link_power_delta_transmit_rate n)
  (end_device_timeout_default n) (end_device_timeout n) (ieee_address n) (good_parent_lqa n)
  (max_initial_join_parent_attempts n) (max_rejoin_parent_attempts n) (hub_connectivity n) (preferred_parent n)
  (next_pan_id n) (next_channel_change n) (pan_id_conflict_count n) v (tx_total n) (tx_failures n) (device_type n)
  (joined n) (authenticated n) (router_started n) (rx_on_when_idle n) (parent_address n) (parent_ieee n) (depth n).
Definition set_tx_total (v : Z) (n : t) : t :=
  mk (sequence_number n) (passive_ack_timeout n) (max_broadcast_retries n) (max_children n) (max_routers n)
  (network_broadcast_delivery_time n) (capability_information n) (manager_addr n) (max_source_route n)
  (update_id n) (network_address n) (stack_profile n) (extended_pan_id n) (pan_id n) (channel_page n) (channel n)
  (is_concentrator n) (concentrator_radius n) (concentrator_discovery_time_secs n) (security_level n)
  (all_fresh n) (link_status_period n) (router_age_limit n) (leave_request_allowed n)
  (leave_request_without_rejoin_allowed n) (parent_information n) (link_power_delta_transmit_rate n)
  (end_device_timeout_default n) (end_device_timeout n) (ieee_address n) (good_parent_lqa n)
  (max_initial_join_parent_attempts n) (max_rejoin_parent_attempts n) (hub_connectivity n) (preferred_parent n)
  (next_pan_id n) (next_channel_change n) (pan_id_conflict_count n) (routing_sequence_number n) v (tx_failures n)
  (device_type n) (joined n) (authenticated n) (router_started n) (rx_on_when_idle n) (parent_address n)
  (parent_ieee n) (depth n).
Definition set_tx_failures (v : Z) (n : t) : t :=
  mk (sequence_number n) (passive_ack_timeout n) (max_broadcast_retries n) (max_children n) (max_routers n)
  (network_broadcast_delivery_time n) (capability_information n) (manager_addr n) (max_source_route n)
  (update_id n) (network_address n) (stack_profile n) (extended_pan_id n) (pan_id n) (channel_page n) (channel n)
  (is_concentrator n) (concentrator_radius n) (concentrator_discovery_time_secs n) (security_level n)
  (all_fresh n) (link_status_period n) (router_age_limit n) (leave_request_allowed n)
  (leave_request_without_rejoin_allowed n) (parent_information n) (link_power_delta_transmit_rate n)
  (end_device_timeout_default n) (end_device_timeout n) (ieee_address n) (good_parent_lqa n)
  (max_initial_join_parent_attempts n) (max_rejoin_parent_attempts n) (hub_connectivity n) (preferred_parent n)
  (next_pan_id n) (next_channel_change n) (pan_id_conflict_count n) (routing_sequence_number n) (tx_total n) v
  (device_type n) (joined n) (authenticated n) (router_started n) (rx_on_when_idle n) (parent_address n)
  (parent_ieee n) (depth n).
Definition set_joined (v : bool) (n : t) : t :=
  mk (sequence_number n) (passive_ack_timeout n) (max_broadcast_retries n) (max_children n) (max_routers n)
  (network_broadcast_delivery_time n) (capability_information n) (manager_addr n) (max_source_route n)
  (update_id n) (network_address n) (stack_profile n) (extended_pan_id n) (pan_id n) (channel_page n) (channel n)
  (is_concentrator n) (concentrator_radius n) (concentrator_discovery_time_secs n) (security_level n)
  (all_fresh n) (link_status_period n) (router_age_limit n) (leave_request_allowed n)
  (leave_request_without_rejoin_allowed n) (parent_information n) (link_power_delta_transmit_rate n)
  (end_device_timeout_default n) (end_device_timeout n) (ieee_address n) (good_parent_lqa n)
  (max_initial_join_parent_attempts n) (max_rejoin_parent_attempts n) (hub_connectivity n) (preferred_parent n)
  (next_pan_id n) (next_channel_change n) (pan_id_conflict_count n) (routing_sequence_number n) (tx_total n)
  (tx_failures n) (device_type n) v (authenticated n) (router_started n) (rx_on_when_idle n) (parent_address n)
  (parent_ieee n) (depth n).
Definition set_authenticated (v : bool) (n : t) : t :=
  mk (sequence_number n) (passive_ack_timeout n) (max_broadcast_retries n) (max_children n) (max_routers n)
  (network_broadcast_delivery_time n) (capability_information n) (manager_addr n) (max_source_route n)
  (update_id n) (network_address n) (stack_profile n) (extended_pan_id n) (pan_id n) (channel_page n) (channel n)
  (is_concentrator n) (concentrator_radius n) (concentrator_discovery_time_secs n) (security_level n)
  (all_fresh n) (link_status_period n) (router_age_limit n) (leave_request_allowed n)
  (leave_request_without_rejoin_allowed n) (parent_information n) (link_power_delta_transmit_rate n)
  (end_device_timeout_default n) (end_device_timeout n) (ieee_address n) (good_parent_lqa n)
  (max_initial_join_parent_attempts n) (max_rejoin_parent_attempts n) (hub_connectivity n) (preferred_parent n)
  (next_pan_id n) (next_channel_change n) (pan_id_conflict_count n) (routing_sequence_number n) (tx_total n)
  (tx_failures n) (device_type n) (joined n) v (router_started n) (rx_on_when_idle n) (parent_address n)
  (parent_ieee n) (depth n).
Definition set_router_started (v : bool) (n : t) : t :=
  mk (sequence_number n) (passive_ack_timeout n) (max_broadcast_retries n) (max_children n) (max_routers n)
  (network_broadcast_delivery_time n) (capability_information n) (manager_addr n) (max_source_route n)
  (update_id n) (network_address n) (stack_profile n) (extended_pan_id n) (pan_id n) (channel_page n) (channel n)
  (is_concentrator n) (concentrator_radius n) (concentrator_discovery_time_secs n) (security_level n)
  (all_fresh n) (link_status_period n) (router_age_limit n) (leave_request_allowed n)
  (leave_request_without_rejoin_allowed n) (parent_information n) (link_power_delta_transmit_rate n)
  (end_device_timeout_default n) (end_device_timeout n) (ieee_address n) (good_parent_lqa n)
  (max_initial_join_parent_attempts n) (max_rejoin_parent_attempts n) (hub_connectivity n) (preferred_parent n)
  (next_pan_id n) (next_channel_change n) (pan_id_conflict_count n) (routing_sequence_number n) (tx_total n)
  (tx_failures n) (device_type n) (joined n) (authenticated n) v (rx_on_when_idle n) (parent_address n)
  (parent_ieee n) (depth n).
Definition set_parent_address (v : Z) (n : t) : t :=
  mk (sequence_number n) (passive_ack_timeout n) (max_broadcast_retries n) (max_children n) (max_routers n)
  (network_broadcast_delivery_time n) (capability_information n) (manager_addr n) (max_source_route n)
  (update_id n) (network_address n) (stack_profile n) (extended_pan_id n) (pan_id n) (channel_page n) (channel n)
  (is_concentrator n) (concentrator_radius n) (concentrator_discovery_time_secs n) (security_level n)
  (all_fresh n) (link_status_period n) (router_age_limit n) (leave_request_allowed n)
  (leave_request_without_rejoin_allowed n) (parent_information n) (link_power_delta_transmit_rate n)
  (end_device_timeout_default n) (end_device_timeout n) (ieee_address n) (good_parent_lqa n)
  (max_initial_join_parent_attempts n) (max_rejoin_parent_attempts n) (hub_connectivity n) (preferred_parent n)
  (next_pan_id n) (next_channel_change n) (pan_id_conflict_count n) (routing_sequence_number n) (tx_total n)
  (tx_failures n) (device_type n) (joined n) (authenticated n) (router_started n) (rx_on_when_idle n) v
  (parent_ieee n) (depth n).
Definition set_parent_ieee (v : Z) (n : t) : t :=
  mk (sequence_number n) (passive_ack_timeout n) (max_broadcast_retries n) (max_children n) (max_routers n)
  (network_broadcast_delivery_time n) (capability_information n) (manager_addr n) (max_source_route n)
  (update_id n) (network_address n) (stack_profile n) (extended_pan_id n) (pan_id n) (channel_page n) (channel n)
  (is_concentrator n) (concentrator_radius n) (concentrator_discovery_time_secs n) (security_level n)
  (all_fresh n) (link_status_period n) (router_age_limit n) (leave_request_allowed n)
  (leave_request_without_rejoin_allowed n) (parent_information n) (link_power_delta_transmit_rate n)
  (end_device_timeout_default n) (end_device_timeout n) (ieee_address n) (good_parent_lqa n)
  (max_initial_join_parent_attempts n) (max_rejoin_parent_attempts n) (hub_connectivity n) (preferred_parent n)
  (next_pan_id n) (next_channel_change n) (pan_id_conflict_count n) (routing_sequence_number n) (tx_total n)
  (tx_failures n) (device_type n) (joined n) (authenticated n) (router_started n) (rx_on_when_idle n)
  (parent_address n) v (depth n).
Definition set_depth (v : Z) (n : t) : t :=
  mk (sequence_number n) (passive_ack_timeout n) (max_broadcast_retries n) (max_children n) (max_routers n)
  (network_broadcast_delivery_time n) (capability_information n) (manager_addr n) (max_source_route n)
  (update_id n) (network_address n) (stack_profile n) (extended_pan_id n) (pan_id n) (channel_page n) (channel n)
  (is_concentrator n) (concentrator_radius n) (concentrator_discovery_time_secs n) (security_level n)
  (all_fresh n) (link_status_period n) (router_age_limit n) (leave_request_allowed n)
  (leave_request_without_rejoin_allowed n) (parent_information n) (link_power_delta_transmit_rate n)
  (end_device_timeout_default n) (end_device_timeout n) (ieee_address n) (good_parent_lqa n)
  (max_initial_join_parent_attempts n) (max_rejoin_parent_attempts n) (hub_connectivity n) (preferred_parent n)
  (next_pan_id n) (next_channel_change n) (pan_id_conflict_count n) (routing_sequence_number n) (tx_total n)
  (tx_failures n) (device_type n) (joined n) (authenticated n) (router_started n) (rx_on_when_idle n)
  (parent_address n) (parent_ieee n) v.

Definition new (device_type : LogicalDeviceType.t) (ieee_address : Z) : t := {|
  sequence_number := 0;
  passive_ack_timeout := (Duration.from_millis 500);
  max_broadcast_retries := 2;
  max_children := 16;
  max_routers := 16;
  network_broadcast_delivery_time := constants.BROADCAST_DELIVERY_TIME;
  capability_information := (if LogicalDeviceType.is_routing_capable device_type then MacCapability.ROUTER else MacCapability.END_DEVICE_RX_ON);
  manager_addr := ShortAddress.COORDINATOR;
  max_source_route := 12;
  update_id := 0;
  network_address := ShortAddress.NO_SHORT_ADDRESS;
  stack_profile := 2;
  extended_pan_id := 0;
  pan_id := 0xFFFF;
  channel_page := 0;
  channel := 11;
  is_concentrator := false;
  concentrator_radius := 0;
  concentrator_discovery_time_secs := 0;
  security_level := SecurityLevel.EncMic32;
  all_fresh := true;
  link_status_period := (Duration.from_secs 15);
  router_age_limit := 3;
  leave_request_allowed := true;
  leave_request_without_rejoin_allowed := true;
  parent_information := 0;
  link_power_delta_transmit_rate := 16;
  end_device_timeout_default := TimeoutIndex.DEFAULT;
  end_device_timeout := TimeoutIndex.DEFAULT;
  ieee_address := ieee_address;
  good_parent_lqa := 75;
  max_initial_join_parent_attempts := 3;
  max_rejoin_parent_attempts := 3;
  hub_connectivity := false;
  preferred_parent := false;
  next_pan_id := 0xFFFF;
  next_channel_change := 0;
  pan_id_conflict_count := 0;
  routing_sequence_number := 0;
  tx_total := 0;
  tx_failures := 0;
  device_type := device_type;
  joined := false;
  authenticated := false;
  router_started := false;
  rx_on_when_idle := (LogicalDeviceType.is_routing_capable device_type);
  parent_address := ShortAddress.NO_SHORT_ADDRESS;
  parent_ieee := 0;
  depth := 0
|}.

Definition next_sequence (n : t) : Z * t :=
  (sequence_number n, set_sequence_number (wrap 8 (sequence_number n + 1)) n).

Definition next_routing_sequence (n : t) : Z * t :=
  let v := wrap 16 (routing_sequence_number n + 1) in (v, set_routing_sequence_number v n).

Definition is_router_or_coordinator (n : t) : bool := LogicalDeviceType.is_routing_capable (device_type n).
Definition is_coordinator (n : t) : bool :=
  match device_type n with LogicalDeviceType.Coordinator => true | _ => false end.
Definition is_end_device (n : t) : bool :=
  match device_type n with LogicalDeviceType.EndDevice => true | _ => false end.

Definition clear_for_leave (n : t) : t :=
  let n := set_manager_addr ShortAddress.COORDINATOR n in
  let n := set_update_id 0 n in
  let n := set_network_address ShortAddress.NO_SHORT_ADDRESS n in
  let n := set_extended_pan_id 0 n in
  let n := set_is_concentrator false n in
  let n := set_concentrator_radius 0 n in
  let n := set_pan_id 0xFFFF n in
  let n := set_tx_total 0 n in
  let n := set_tx_failures 0 n in
  let n := set_parent_information 0 n in
  let n := set_parent_address ShortAddress.NO_SHORT_ADDRESS n in
  let n := set_parent_ieee 0 n in
  let n := set_joined false n in
  let n := set_authenticated false n in
  let n := set_router_started false n in
  set_depth 0 n.
End Nib.

(** ** Requests, actions and events *)

Module NwkError.
Inductive t : Type :=
  | InvalidRequest
  | InvalidParameter
  | FrameTooLong
  | Busy
  | Security (s : NwkStatus.t)
  | RouteError
  | NotJoined
  | CounterPending.
End NwkError.

Module NwkConfig.
Record t : Type := mk {
  security_enabled : bool;
  passive_ack : bool;
  concentrator : bool;
  concentrator_discovery_time_secs : Z;
  concentrator_radius : Z;
  hub_connectivity : bool;
  keepalive_methods : Z;
  r23_beacon_appendix : bool;
  power_control : bool;
  optimal_rssi_dbm : Z;
  end_device_power_delta_rate_secs : Z;
  enhanced_beacon_requests : bool
}.
Definition default : t := mk true true false 0 0 false 0x03 true false (-65) 16 false.
End NwkConfig.

Module ScanKind.
Inductive t : Type := Active | Energy.
End ScanKind.

Module TxStatus.
Inductive t : Type := Success | NoAck | ChannelAccessFailure | TransactionExpired | RadioError.
End TxStatus.

Module EbFilter.
Record t : Type := mk { permit_joining_on : bool; link_quality : option Z; percent : option Z }.
Definition JOINING : t := mk true None None.
End EbFilter.

Module EnhancedBeaconRequest.
Record t : Type := mk { filter : option EbFilter.t; rejoin : option (Z * Z); tx_power : option Z }.
Definition joining (tx_power : option Z) : t := mk (Some EbFilter.JOINING) None tx_power.
Definition rejoining (extended_pan_id short : Z) (tx_power : option Z) : t :=
  mk None (Some (extended_pan_id, short)) tx_power.
End EnhancedBeaconRequest.

Module JoinMethod.
Inductive t : Type :=
  | MacAssociation
  | RejoinUnsecured
  | RejoinSecured
  | CommissioningJoin
  | CommissioningRejoinUnsecured
  | CommissioningRejoinSecured.

Definition update_device_status (m : t) : Z :=
  match m with
  | MacAssociation | CommissioningJoin => 0x01
  | RejoinUnsecured | CommissioningRejoinUnsecured => 0x03
  | RejoinSecured | CommissioningRejoinSecured => 0x00
  end.
Definition is_secured (m : t) : bool :=
  match m with RejoinSecured | CommissioningRejoinSecured => true | _ => false end.
End JoinMethod.

Module NwkAction.
Inductive t : Type :=
  | MacData (handle dst : Z) (frame : list Z) (ack indirect : bool)
  | TrustedLinkData (handle link : Z) (frame : list Z) (assume_security : bool)
  | MacDataDeferred (handle dst : Z)
  | MacScan (kind : ScanKind.t) (channels duration : Z) (enhanced : option EnhancedBeaconRequest.t)
  | MacAssociate (pan_id coordinator page channel capability : Z)
  | MacAssociateResponse (device short : Z) (status : MacStatus.t)
  | MacStart (pan_id page channel short : Z) (coordinator beacon_capable : bool)
  | MacSetPermit (v : bool)
  | MacSetBeaconPayload (payload : list Z)
  | MacSetShortAddress (short : Z)
  | MacSetPanId (pan_id : Z)
  | MacSetChannel (page channel : Z)
  | MacSetCoordinator (short extended : Z)
  | MacSetRxOnWhenIdle (v : bool)
  | MacPoll
  | MacAdjustTxPower (short extended delta_db rssi_dbm : Z)
  | MacResetTxPower
  | Persist
  | CounterReservation (reserved_until : Z).
End NwkAction.

Module NwkEvent.
Inductive t : Type :=
  | DataConfirm (id : Z) (status : NwkStatus.t)
  | DiscoveryConfirm (status : NwkStatus.t)
  | FormationConfirm (status : NwkStatus.t)
  | JoinConfirm (status : NwkStatus.t) (network_address extended_pan_id : Z) (rejoin secured : bool)
  | TrustCenterLinked (device link : Z)
  | JoinIndication (device network_address capability : Z) (method : JoinMethod.t) (joiner_tlvs : list Z)
  | StartRouterConfirm (status : NwkStatus.t)
  | LeaveIndication (device short : option Z) (child rejoin : bool)
  | LeaveConfirm (device short : option Z) (status : NwkStatus.t)
  | NetworkStatus (address : Z) (code : NetworkStatusCode.t)
  | RouteDiscoveryConfirm (destination : Z) (status : NwkStatus.t)
  | PermitJoining (v : bool)
  | ChildRemoved (device : Z)
  | AuthenticationTimeout
  | LostChild (device : Z)
  | PanIdChanged (pan_id : Z)
  | ParentInformationUpdated
  | LinkPowerDelta (src : Z) (kind : LinkPowerDeltaType.t) (delta_db : option Z)
  | KeySwitched (previous : option Z) (sequence : Z)
  | EnergyScanConfirm (channels : Z) (energy : list Z).
End NwkEvent.

(** ** Frames kept by the layer *)

Module TxKind.
Inductive t : Type :=
  | Data
  | Command
  | Leave (device : option Z)
  | JoinRequest
  | JoinResponse (device : Z) (method : JoinMethod.t)
  | RouteReply (responder : Z)
  | TimeoutRequest.
Definition is_data (k : t) : bool := match k with Data => true | _ => false end.
End TxKind.

Module PendingTx.
Record t : Type := mk {
  id : Z;
  frame : list Z;
  header_len : nat;
  dst : Z;
  next_hop : Z;
  mac_handle : option Z;
  retries_left : Z;
  retry_at : option Z;
  awaiting_route : bool;
  secure : bool;
  indirect : bool;
  relayed_from : option Z;
  source_route : bool;
  kind : TxKind.t;
  created : Z
}.

Definition set_next_hop (v : Z) (p : t) : t :=
  mk (id p) (frame p) (header_len p) (dst p) v (mac_handle p) (retries_left p) (retry_at p) (awaiting_route p)
  (secure p) (indirect p) (relayed_from p) (source_route p) (kind p) (created p).
Definition set_mac_handle (v : option Z) (p : t) : t :=
  mk (id p) (frame p) (header_len p) (dst p) (next_hop p) v (retries_left p) (retry_at p) (awaiting_route p)
  (secure p) (indirect p) (relayed_from p) (source_route p) (kind p) (created p).
Definition set_retries_left (v : Z) (p : t) : t :=
  mk (id p) (frame p) (header_len p) (dst p) (next_hop p) (mac_handle p) v (retry_at p) (awaiting_route p)
  (secure p) (indirect p) (relayed_from p) (source_route p) (kind p) (created p).
Definition set_retry_at (v : option Z) (p : t) : t :=
  mk (id p) (frame p) (header_len p) (dst p) (next_hop p) (mac_handle p) (retries_left p) v (awaiting_route p)
  (secure p) (indirect p) (relayed_from p) (source_route p) (kind p) (created p).
Definition set_awaiting_route (v : bool) (p : t) : t :=
  mk (id p) (frame p) (header_len p) (dst p) (next_hop p) (mac_handle p) (retries_left p) (retry_at p) v
  (secure p) (indirect p) (relayed_from p) (source_route p) (kind p) (created p).
Definition set_indirect (v : bool) (p : t) : t :=
  mk (id p) (frame p) (header_len p) (dst p) (next_hop p) (mac_handle p) (retries_left p) (retry_at p)
  (awaiting_route p) (secure p) v (relayed_from p) (source_route p) (kind p) (created p).
Definition set_frame (v : list Z) (p : t) : t :=
  mk (id p) v (header_len p) (dst p) (next_hop p) (mac_handle p) (retries_left p) (retry_at p) (awaiting_route p)
  (secure p) (indirect p) (relayed_from p) (source_route p) (kind p) (created p).
End PendingTx.

Module BroadcastBuf.
Record t : Type := mk { source : Z; sequence : Z; frame : list Z; plaintext : option (list Z * nat * bool) }.
Definition of_transaction (src sq : Z) (b : t) : bool := (source b =? src) && (sequence b =? sq).
End BroadcastBuf.

Module PendingRreq.
Record t : Type := mk { frame : list Z; due : Z; retries_left : Z; interval : Z }.
End PendingRreq.

Module NwkStats.
Record t : Type := mk {
  malformed : Z;
  security_failures : Z;
  replays : Z;
  relayed : Z;
  broadcasts_relayed : Z;
  route_requests : Z;
  unknown_commands : Z;
  no_route : Z;
  broadcasts_sent : Z;
  broadcasts_received : Z;
  route_discoveries : Z;
  join_indications : Z;
  children_moved : Z;
  pending_full : Z;
  pending_high_water : Z
}.

Definition default : t := mk 0 0 0 0 0 0 0 0 0 0 0 0 0 0 0.

Inductive field : Type :=
  | F_malformed
  | F_security_failures
  | F_replays
  | F_relayed
  | F_broadcasts_relayed
  | F_route_requests
  | F_unknown_commands
  | F_no_route
  | F_broadcasts_sent
  | F_broadcasts_received
  | F_route_discoveries
  | F_join_indications
  | F_children_moved
  | F_pending_full.

(** [self.stats.field = self.stats.field.saturating_add(1)] *)
Definition bump (f : field) (s : t) : t :=
  let on g v := match f, g with
    | F_malformed, F_malformed
    | F_security_failures, F_security_failures
    | F_replays, F_replays
    | F_relayed, F_relayed
    | F_broadcasts_relayed, F_broadcasts_relayed
    | F_route_requests, F_route_requests
    | F_unknown_commands, F_unknown_commands
    | F_no_route, F_no_route
    | F_broadcasts_sent, F_broadcasts_sent
    | F_broadcasts_received, F_broadcasts_received
    | F_route_discoveries, F_route_discoveries
    | F_join_indications, F_join_indications
    | F_children_moved, F_children_moved
    | F_pending_full, F_pending_full => sat_add 32 v 1
    | _, _ => v
    end in
  mk (on F_malformed (malformed s)) (on F_security_failures (security_failures s)) (on F_replays (replays s))
  (on F_relayed (relayed s)) (on F_broadcasts_relayed (broadcasts_relayed s))
  (on F_route_requests (route_requests s)) (on F_unknown_commands (unknown_commands s))
  (on F_no_route (no_route s)) (on F_broadcasts_sent (broadcasts_sent s))
  (on F_broadcasts_received (broadcasts_received s)) (on F_route_discoveries (route_discoveries s))
  (on F_join_indications (join_indications s)) (on F_children_moved (children_moved s))
  (on F_pending_full (pending_full s)) (pending_high_water s).
Definition set_pending_high_water (v : Z) (s : t) : t :=
  mk (malformed s) (security_failures s) (replays s) (relayed s) (broadcasts_relayed s) (route_requests s)
  (unknown_commands s) (no_route s) (broadcasts_sent s) (broadcasts_received s) (route_discoveries s)
  (join_indications s) (children_moved s) (pending_full s) v.
End NwkStats.

Module NwkDims.
Record t : Type := mk {
  Neighbors : nat;
  Routes : nat;
  AddressMap : nat;
  RouteDiscoveries : nat;
  Broadcasts : nat;
  Discovery : nat;
  JoiningList : nat;
  Interfaces : nat;
  Actions : nat;
  Events : nat;
  PendingTx : nat;
  BroadcastBuffers : nat;
  PendingRreq : nat
}.

(** [Dims<NEIGHBORS, ROUTES, RDT, BTT>] and [SleepyEndDevice] *)
Definition Dims (neighbors routes rdt btt : nat) : t := mk neighbors routes routes rdt btt 6 16 4 16 16 4 2 4.
Definition SleepyEndDevice : t := mk 2 0 2 0 4 4 0 1 8 4 2 1 0.
End NwkDims.

(** ** Scans, formation and joining *)

Module SurveyCounts.
Record t : Type := mk {
  total : Z;
  on_network : Z;
  potential_parents : Z;
  other_networks : Z
}.
Definition default : t := mk 0 0 0 0.
Definition set_total (v : Z) (s : t) : t :=
  mk v (on_network s) (potential_parents s) (other_networks s).
Definition set_on_network (v : Z) (s : t) : t :=
  mk (total s) v (potential_parents s) (other_networks s).
Definition set_potential_parents (v : Z) (s : t) : t :=
  mk (total s) (on_network s) v (other_networks s).
Definition set_other_networks (v : Z) (s : t) : t :=
  mk (total s) (on_network s) (potential_parents s) v.
End SurveyCounts.

Module ScanPurpose.
Inductive t : Type := Discovery | FormationEnergy | FormationActive | PanIdConflict | EnergyDetect.
#[global] Instance eq_dec : EqDecision t.
Proof. solve_decision. Defined.
End ScanPurpose.

Module ScanState.
Record t : Type := mk { purpose : ScanPurpose.t; channels : Z; duration : Z; only_permit_join : bool }.
End ScanState.

(** The arrays of 27 octets are lists. *)
Module FormationState.
Record t : Type := mk {
  channels : Z;
  energy : list Z;
  networks_per_channel : list Z;
  seen_pan_ids : list Z;
  distributed : bool;
  pan_id : option Z;
  short : option Z
}.
Definition set_channels (v : Z) (s : t) : t :=
  mk v (energy s) (networks_per_channel s) (seen_pan_ids s) (distributed s) (pan_id s) (short s).
Definition set_energy (v : list Z) (s : t) : t :=
  mk (channels s) v (networks_per_channel s) (seen_pan_ids s) (distributed s) (pan_id s) (short s).
Definition set_networks_per_channel (v : list Z) (s : t) : t :=
  mk (channels s) (energy s) v (seen_pan_ids s) (distributed s) (pan_id s) (short s).
Definition set_seen_pan_ids (v : list Z) (s : t) : t :=
  mk (channels s) (energy s) (networks_per_channel s) v (distributed s) (pan_id s) (short s).
End FormationState.

Module JoinParams.
Record t : Type := mk {
  extended_pan_id : option Z;
  rejoin : bool;
  as_router : bool;
  secure : bool;
  capability : Z;
  require_permit : bool
}.
End JoinParams.

Module JoinPhase.
Inductive t : Type :=
  | SelectParent
  | Associating
  | RequestSent
  | AwaitingResponse (deadline : Z) (polled : bool)
  | AwaitingKey (deadline : Z).
End JoinPhase.

Module ParentSnapshot.
Record t : Type := mk {
  short : Z;
  extended : option Z;
  pan_id : Z;
  extended_pan_id : Z;
  page : Z;
  channel : Z;
  r23 : bool;
  update_id : Z;
  lqa : Z
}.
Definition set_extended (v : option Z) (s : t) : t :=
  mk (short s) v (pan_id s) (extended_pan_id s) (page s) (channel s) (r23 s) (update_id s) (lqa s).
End ParentSnapshot.

Module JoinState.
Record t : Type := mk {
  params : JoinParams.t;
  secure : bool;
  candidates : list nat;
  next : nat;
  pass : Z;
  current : option ParentSnapshot.t;
  phase : JoinPhase.t;
  attempts : Z;
  used_commissioning : bool
}.
Definition set_candidates (v : list nat) (s : t) : t :=
  mk (params s) (secure s) v (next s) (pass s) (current s) (phase s) (attempts s) (used_commissioning s).
Definition set_next (v : nat) (s : t) : t :=
  mk (params s) (secure s) (candidates s) v (pass s) (current s) (phase s) (attempts s) (used_commissioning s).
Definition set_pass (v : Z) (s : t) : t :=
  mk (params s) (secure s) (candidates s) (next s) v (current s) (phase s) (attempts s) (used_commissioning s).
Definition set_current (v : option ParentSnapshot.t) (s : t) : t :=
  mk (params s) (secure s) (candidates s) (next s) (pass s) v (phase s) (attempts s) (used_commissioning s).
Definition set_phase (v : JoinPhase.t) (s : t) : t :=
  mk (params s) (secure s) (candidates s) (next s) (pass s) (current s) v (attempts s) (used_commissioning s).
Definition set_attempts (v : Z) (s : t) : t :=
  mk (params s) (secure s) (candidates s) (next s) (pass s) (current s) (phase s) v (used_commissioning s).
Definition set_used_commissioning (v : bool) (s : t) : t :=
  mk (params s) (secure s) (candidates s) (next s) (pass s) (current s) (phase s) (attempts s) v.
End JoinState.

(** A sleepy end device's outstanding Link Power Delta request (layer/power.rs). *)
Module PendingRequest.
Record t : Type := mk { next_poll : Z; polls_left : Z }.
End PendingRequest.

(** ** The layer *)

Module Nwk.
Record t (C R : Type) (D : NwkDims.t) : Type := mk {
  nib : Nib.t;
  config : NwkConfig.t;
  neighbors : NeighborTable.t (NwkDims.Neighbors D);
  routes : RoutingTable.t (NwkDims.Routes D);
  source_routes : SourceRouteTable.t (NwkDims.Routes D);
  address_map : AddressMap.t (NwkDims.AddressMap D);
  security : NwkSecurity.t C (NwkDims.Neighbors D);
  rdt : RouteDiscoveryTable.t (NwkDims.RouteDiscoveries D);
  btt : BroadcastTransactionTable.t (NwkDims.Broadcasts D);
  discovery : DiscoveryTable.t (NwkDims.Discovery D);
  survey : SurveyCounts.t;
  joining_list : JoiningList.t (NwkDims.JoiningList D);
  interfaces : MacInterfaceTable.t (NwkDims.Interfaces D);
  rng : R;
  actions : list NwkAction.t;
  events : list NwkEvent.t;
  pending : list PendingTx.t;
  bcast_bufs : list BroadcastBuf.t;
  pending_rreq : list PendingRreq.t;
  scan : option ScanState.t;
  formation : option FormationState.t;
  join : option JoinState.t;
  permit_until : option Z;
  network_wide_beacon_appendix : list Z;
  link_status_due : option Z;
  power_delta_due : option Z;
  power_request : option PendingRequest.t;
  child_age_last : Z;
  now : Z;
  rreq_id : Z;
  next_tx_id : Z;
  next_mac_handle : Z;
  operating_since : option Z;
  pan_id_update : option (Z * Z * Z);
  keepalive_due : option Z;
  timeout_request_deadline : option Z;
  pending_joiner_tlvs : option (list Z);
  distributed_network : bool;
  trust_center : option Z;
  rx_link : option (Z * Z * bool * Z);
  virtual_device : bool;
  leaving_rejoin : option bool;
  stats : NwkStats.t
}.
Arguments mk {C R D}.
Arguments nib {C R D}.
Arguments config {C R D}.
Arguments neighbors {C R D}.
Arguments routes {C R D}.
Arguments source_routes {C R D}.
Arguments address_map {C R D}.
Arguments security {C R D}.
Arguments rdt {C R D}.
Arguments btt {C R D}.
Arguments discovery {C R D}.
Arguments survey {C R D}.
Arguments joining_list {C R D}.
Arguments interfaces {C R D}.
Arguments rng {C R D}.
Arguments actions {C R D}.
Arguments events {C R D}.
Arguments pending {C R D}.
Arguments bcast_bufs {C R D}.
Arguments pending_rreq {C R D}.
Arguments scan {C R D}.
Arguments formation {C R D}.
Arguments join {C R D}.
Arguments permit_until {C R D}.
Arguments network_wide_beacon_appendix {C R D}.
Arguments link_status_due {C R D}.
Arguments power_delta_due {C R D}.
Arguments power_request {C R D}.
Arguments child_age_last {C R D}.
Arguments now {C R D}.
Arguments rreq_id {C R D}.
Arguments next_tx_id {C R D}.
Arguments next_mac_handle {C R D}.
Arguments operating_since {C R D}.
Arguments pan_id_update {C R D}.
Arguments keepalive_due {C R D}.
Arguments timeout_request_deadline {C R D}.
Arguments pending_joiner_tlvs {C R D}.
Arguments distributed_network {C R D}.
Arguments trust_center {C R D}.
Arguments rx_link {C R D}.
Arguments virtual_device {C R D}.
Arguments leaving_rejoin {C R D}.
Arguments stats {C R D}.

(** [self.field = v] *)
Section setters.
Context {C R : Type} {D : NwkDims.t}.
Definition set_nib (v : Nib.t) (s : t C R D) : t C R D :=
  mk v (config s) (neighbors s) (routes s) (source_routes s) (address_map s) (security s) (rdt s) (btt s)
  (discovery s) (survey s) (joining_list s) (interfaces s) (rng s) (actions s) (events s) (pending s)
  (bcast_bufs s) (pending_rreq s) (scan s) (formation s) (join s) (permit_until s)
  (network_wide_beacon_appendix s) (link_status_due s) (power_delta_due s) (power_request s) (child_age_last s)
  (now s) (rreq_id s) (next_tx_id s) (next_mac_handle s) (operating_since s) (pan_id_update s) (keepalive_due s)
  (timeout_request_deadline s) (pending_joiner_tlvs s) (distributed_network s) (trust_center s) (rx_link s)
  (virtual_device s) (leaving_rejoin s) (stats s).
Definition set_neighbors (v : NeighborTable.t (NwkDims.Neighbors D)) (s : t C R D) : t C R D :=
  mk (nib s) (config s) v (routes s) (source_routes s) (address_map s) (security s) (rdt s) (btt s) (discovery s)
  (survey s) (joining_list s) (interfaces s) (rng s) (actions s) (events s) (pending s) (bcast_bufs s)
  (pending_rreq s) (scan s) (formation s) (join s) (permit_until s) (network_wide_beacon_appendix s)
  (link_status_due s) (power_delta_due s) (power_request s) (child_age_last s) (now s) (rreq_id s) (next_tx_id s)
  (next_mac_handle s) (operating_since s) (pan_id_update s) (keepalive_due s) (timeout_request_deadline s)
  (pending_joiner_tlvs s) (distributed_network s) (trust_center s) (rx_link s) (virtual_device s)
  (leaving_rejoin s) (stats s).
Definition set_routes (v : RoutingTable.t (NwkDims.Routes D)) (s : t C R D) : t C R D :=
  mk (nib s) (config s) (neighbors s) v (source_routes s) (address_map s) (security s) (rdt s) (btt s)
  (discovery s) (survey s) (joining_list s) (interfaces s) (rng s) (actions s) (events s) (pending s)
  (bcast_bufs s) (pending_rreq s) (scan s) (formation s) (join s) (permit_until s)
  (network_wide_beacon_appendix s) (link_status_due s) (power_delta_due s) (power_request s) (child_age_last s)
  (now s) (rreq_id s) (next_tx_id s) (next_mac_handle s) (operating_since s) (pan_id_update s) (keepalive_due s)
  (timeout_request_deadline s) (pending_joiner_tlvs s) (distributed_network s) (trust_center s) (rx_link s)
  (virtual_device s) (leaving_rejoin s) (stats s).
Definition set_source_routes (v : SourceRouteTable.t (NwkDims.Routes D)) (s : t C R D) : t C R D :=
  mk (nib s) (config s) (neighbors s) (routes s) v (address_map s) (security s) (rdt s) (btt s) (discovery s)
  (survey s) (joining_list s) (interfaces s) (rng s) (actions s) (events s) (pending s) (bcast_bufs s)
  (pending_rreq s) (scan s) (formation s) (join s) (permit_until s) (network_wide_beacon_appendix s)
  (link_status_due s) (power_delta_due s) (power_request s) (child_age_last s) (now s) (rreq_id s) (next_tx_id s)
  (next_mac_handle s) (operating_since s) (pan_id_update s) (keepalive_due s) (timeout_request_deadline s)
  (pending_joiner_tlvs s) (distributed_network s) (trust_center s) (rx_link s) (virtual_device s)
  (leaving_rejoin s) (stats s).
Definition set_address_map (v : AddressMap.t (NwkDims.AddressMap D)) (s : t C R D) : t C R D :=
  mk (nib s) (config s) (neighbors s) (routes s) (source_routes s) v (security s) (rdt s) (btt s) (discovery s)
  (survey s) (joining_list s) (interfaces s) (rng s) (actions s) (events s) (pending s) (bcast_bufs s)
  (pending_rreq s) (scan s) (formation s) (join s) (permit_until s) (network_wide_beacon_appendix s)
  (link_status_due s) (power_delta_due s) (power_request s) (child_age_last s) (now s) (rreq_id s) (next_tx_id s)
  (next_mac_handle s) (operating_since s) (pan_id_update s) (keepalive_due s) (timeout_request_deadline s)
  (pending_joiner_tlvs s) (distributed_network s) (trust_center s) (rx_link s) (virtual_device s)
  (leaving_rejoin s) (stats s).
Definition set_security (v : NwkSecurity.t C (NwkDims.Neighbors D)) (s : t C R D) : t C R D :=
  mk (nib s) (config s) (neighbors s) (routes s) (source_routes s) (address_map s) v (rdt s) (btt s) (discovery s)
  (survey s) (joining_list s) (interfaces s) (rng s) (actions s) (events s) (pending s) (bcast_bufs s)
  (pending_rreq s) (scan s) (formation s) (join s) (permit_until s) (network_wide_beacon_appendix s)
  (link_status_due s) (power_delta_due s) (power_request s) (child_age_last s) (now s) (rreq_id s) (next_tx_id s)
  (next_mac_handle s) (operating_since s) (pan_id_update s) (keepalive_due s) (timeout_request_deadline s)
  (pending_joiner_tlvs s) (distributed_network s) (trust_center s) (rx_link s) (virtual_device s)
  (leaving_rejoin s) (stats s).
Definition set_rdt (v : RouteDiscoveryTable.t (NwkDims.RouteDiscoveries D)) (s : t C R D) : t C R D :=
  mk (nib s) (config s) (neighbors s) (routes s) (source_routes s) (address_map s) (security s) v (btt s)
  (discovery s) (survey s) (joining_list s) (interfaces s) (rng s) (actions s) (events s) (pending s)
  (bcast_bufs s) (pending_rreq s) (scan s) (formation s) (join s) (permit_until s)
  (network_wide_beacon_appendix s) (link_status_due s) (power_delta_due s) (power_request s) (child_age_last s)
  (now s) (rreq_id s) (next_tx_id s) (next_mac_handle s) (operating_since s) (pan_id_update s) (keepalive_due s)
  (timeout_request_deadline s) (pending_joiner_tlvs s) (distributed_network s) (trust_center s) (rx_link s)
  (virtual_device s) (leaving_rejoin s) (stats s).
Definition set_btt (v : BroadcastTransactionTable.t (NwkDims.Broadcasts D)) (s : t C R D) : t C R D :=
  mk (nib s) (config s) (neighbors s) (routes s) (source_routes s) (address_map s) (security s) (rdt s) v
  (discovery s) (survey s) (joining_list s) (interfaces s) (rng s) (actions s) (events s) (pending s)
  (bcast_bufs s) (pending_rreq s) (scan s) (formation s) (join s) (permit_until s)
  (network_wide_beacon_appendix s) (link_status_due s) (power_delta_due s) (power_request s) (child_age_last s)
  (now s) (rreq_id s) (next_tx_id s) (next_mac_handle s) (operating_since s) (pan_id_update s) (keepalive_due s)
  (timeout_request_deadline s) (pending_joiner_tlvs s) (distributed_network s) (trust_center s) (rx_link s)
  (virtual_device s) (leaving_rejoin s) (stats s).
Definition set_discovery (v : DiscoveryTable.t (NwkDims.Discovery D)) (s : t C R D) : t C R D :=
  mk (nib s) (config s) (neighbors s) (routes s) (source_routes s) (address_map s) (security s) (rdt s) (btt s) v
  (survey s) (joining_list s) (interfaces s) (rng s) (actions s) (events s) (pending s) (bcast_bufs s)
  (pending_rreq s) (scan s) (formation s) (join s) (permit_until s) (network_wide_beacon_appendix s)
  (link_status_due s) (power_delta_due s) (power_request s) (child_age_last s) (now s) (rreq_id s) (next_tx_id s)
  (next_mac_handle s) (operating_since s) (pan_id_update s) (keepalive_due s) (timeout_request_deadline s)
  (pending_joiner_tlvs s) (distributed_network s) (trust_center s) (rx_link s) (virtual_device s)
  (leaving_rejoin s) (stats s).
Definition set_survey (v : SurveyCounts.t) (s : t C R D) : t C R D :=
  mk (nib s) (config s) (neighbors s) (routes s) (source_routes s) (address_map s) (security s) (rdt s) (btt s)
  (discovery s) v (joining_list s) (interfaces s) (rng s) (actions s) (events s) (pending s) (bcast_bufs s)
  (pending_rreq s) (scan s) (formation s) (join s) (permit_until s) (network_wide_beacon_appendix s)
  (link_status_due s) (power_delta_due s) (power_request s) (child_age_last s) (now s) (rreq_id s) (next_tx_id s)
  (next_mac_handle s) (operating_since s) (pan_id_update s) (keepalive_due s) (timeout_request_deadline s)
  (pending_joiner_tlvs s) (distributed_network s) (trust_center s) (rx_link s) (virtual_device s)
  (leaving_rejoin s) (stats s).
Definition set_joining_list (v : JoiningList.t (NwkDims.JoiningList D)) (s : t C R D) : t C R D :=
  mk (nib s) (config s) (neighbors s) (routes s) (source_routes s) (address_map s) (security s) (rdt s) (btt s)
  (discovery s) (survey s) v (interfaces s) (rng s) (actions s) (events s) (pending s) (bcast_bufs s)
  (pending_rreq s) (scan s) (formation s) (join s) (permit_until s) (network_wide_beacon_appendix s)
  (link_status_due s) (power_delta_due s) (power_request s) (child_age_last s) (now s) (rreq_id s) (next_tx_id s)
  (next_mac_handle s) (operating_since s) (pan_id_update s) (keepalive_due s) (timeout_request_deadline s)
  (pending_joiner_tlvs s) (distributed_network s) (trust_center s) (rx_link s) (virtual_device s)
  (leaving_rejoin s) (stats s).
Definition set_interfaces (v : MacInterfaceTable.t (NwkDims.Interfaces D)) (s : t C R D) : t C R D :=
  mk (nib s) (config s) (neighbors s) (routes s) (source_routes s) (address_map s) (security s) (rdt s) (btt s)
  (discovery s) (survey s) (joining_list s) v (rng s) (actions s) (events s) (pending s) (bcast_bufs s)
  (pending_rreq s) (scan s) (formation s) (join s) (permit_until s) (network_wide_beacon_appendix s)
  (link_status_due s) (power_delta_due s) (power_request s) (child_age_last s) (now s) (rreq_id s) (next_tx_id s)
  (next_mac_handle s) (operating_since s) (pan_id_update s) (keepalive_due s) (timeout_request_deadline s)
  (pending_joiner_tlvs s) (distributed_network s) (trust_center s) (rx_link s) (virtual_device s)
  (leaving_rejoin s) (stats s).
Definition set_rng (v : R) (s : t C R D) : t C R D :=
  mk (nib s) (config s) (neighbors s) (routes s) (source_routes s) (address_map s) (security s) (rdt s) (btt s)
  (discovery s) (survey s) (joining_list s) (interfaces s) v (actions s) (events s) (pending s) (bcast_bufs s)
  (pending_rreq s) (scan s) (formation s) (join s) (permit_until s) (network_wide_beacon_appendix s)
  (link_status_due s) (power_delta_due s) (power_request s) (child_age_last s) (now s) (rreq_id s) (next_tx_id s)
  (next_mac_handle s) (operating_since s) (pan_id_update s) (keepalive_due s) (timeout_request_deadline s)
  (pending_joiner_tlvs s) (distributed_network s) (trust_center s) (rx_link s) (virtual_device s)
  (leaving_rejoin s) (stats s).
Definition set_actions (v : list NwkAction.t) (s : t C R D) : t C R D :=
  mk (nib s) (config s) (neighbors s) (routes s) (source_routes s) (address_map s) (security s) (rdt s) (btt s)
  (discovery s) (survey s) (joining_list s) (interfaces s) (rng s) v (events s) (pending s) (bcast_bufs s)
  (pending_rreq s) (scan s) (formation s) (join s) (permit_until s) (network_wide_beacon_appendix s)
  (link_status_due s) (power_delta_due s) (power_request s) (child_age_last s) (now s) (rreq_id s) (next_tx_id s)
  (next_mac_handle s) (operating_since s) (pan_id_update s) (keepalive_due s) (timeout_request_deadline s)
  (pending_joiner_tlvs s) (distributed_network s) (trust_center s) (rx_link s) (virtual_device s)
  (leaving_rejoin s) (stats s).
Definition set_events (v : list NwkEvent.t) (s : t C R D) : t C R D :=
  mk (nib s) (config s) (neighbors s) (routes s) (source_routes s) (address_map s) (security s) (rdt s) (btt s)
  (discovery s) (survey s) (joining_list s) (interfaces s) (rng s) (actions s) v (pending s) (bcast_bufs s)
  (pending_rreq s) (scan s) (formation s) (join s) (permit_until s) (network_wide_beacon_appendix s)
  (link_status_due s) (power_delta_due s) (power_request s) (child_age_last s) (now s) (rreq_id s) (next_tx_id s)
  (next_mac_handle s) (operating_since s) (pan_id_update s) (keepalive_due s) (timeout_request_deadline s)
  (pending_joiner_tlvs s) (distributed_network s) (trust_center s) (rx_link s) (virtual_device s)
  (leaving_rejoin s) (stats s).
Definition set_pending (v : list PendingTx.t) (s : t C R D) : t C R D :=
  mk (nib s) (config s) (neighbors s) (routes s) (source_routes s) (address_map s) (security s) (rdt s) (btt s)
  (discovery s) (survey s) (joining_list s) (interfaces s) (rng s) (actions s) (events s) v (bcast_bufs s)
  (pending_rreq s) (scan s) (formation s) (join s) (permit_until s) (network_wide_beacon_appendix s)
  (link_status_due s) (power_delta_due s) (power_request s) (child_age_last s) (now s) (rreq_id s) (next_tx_id s)
  (next_mac_handle s) (operating_since s) (pan_id_update s) (keepalive_due s) (timeout_request_deadline s)
  (pending_joiner_tlvs s) (distributed_network s) (trust_center s) (rx_link s) (virtual_device s)
  (leaving_rejoin s) (stats s).
Definition set_bcast_bufs (v : list BroadcastBuf.t) (s : t C R D) : t C R D :=
  mk (nib s) (config s) (neighbors s) (routes s) (source_routes s) (address_map s) (security s) (rdt s) (btt s)
  (discovery s) (survey s) (joining_list s) (interfaces s) (rng s) (actions s) (events s) (pending s) v
  (pending_rreq s) (scan s) (formation s) (join s) (permit_until s) (network_wide_beacon_appendix s)
  (link_status_due s) (power_delta_due s) (power_request s) (child_age_last s) (now s) (rreq_id s) (next_tx_id s)
  (next_mac_handle s) (operating_since s) (pan_id_update s) (keepalive_due s) (timeout_request_deadline s)
  (pending_joiner_tlvs s) (distributed_network s) (trust_center s) (rx_link s) (virtual_device s)
  (leaving_rejoin s) (stats s).
Definition set_pending_rreq (v : list PendingRreq.t) (s : t C R D) : t C R D :=
  mk (nib s) (config s) (neighbors s) (routes s) (source_routes s) (address_map s) (security s) (rdt s) (btt s)
  (discovery s) (survey s) (joining_list s) (interfaces s) (rng s) (actions s) (events s) (pending s)
  (bcast_bufs s) v (scan s) (formation s) (join s) (permit_until s) (network_wide_beacon_appendix s)
  (link_status_due s) (power_delta_due s) (power_request s) (child_age_last s) (now s) (rreq_id s) (next_tx_id s)
  (next_mac_handle s) (operating_since s) (pan_id_update s) (keepalive_due s) (timeout_request_deadline s)
  (pending_joiner_tlvs s) (distributed_network s) (trust_center s) (rx_link s) (virtual_device s)
  (leaving_rejoin s) (stats s).
Definition set_scan (v : option ScanState.t) (s : t C R D) : t C R D :=
  mk (nib s) (config s) (neighbors s) (routes s) (source_routes s) (address_map s) (security s) (rdt s) (btt s)
  (discovery s) (survey s) (joining_list s) (interfaces s) (rng s) (actions s) (events s) (pending s)
  (bcast_bufs s) (pending_rreq s) v (formation s) (join s) (permit_until s) (network_wide_beacon_appendix s)
  (link_status_due s) (power_delta_due s) (power_request s) (child_age_last s) (now s) (rreq_id s) (next_tx_id s)
  (next_mac_handle s) (operating_since s) (pan_id_update s) (keepalive_due s) (timeout_request_deadline s)
  (pending_joiner_tlvs s) (distributed_network s) (trust_center s) (rx_link s) (virtual_device s)
  (leaving_rejoin s) (stats s).
Definition set_formation (v : option FormationState.t) (s : t C R D) : t C R D :=
  mk (nib s) (config s) (neighbors s) (routes s) (source_routes s) (address_map s) (security s) (rdt s) (btt s)
  (discovery s) (survey s) (joining_list s) (interfaces s) (rng s) (actions s) (events s) (pending s)
  (bcast_bufs s) (pending_rreq s) (scan s) v (join s) (permit_until s) (network_wide_beacon_appendix s)
  (link_status_due s) (power_delta_due s) (power_request s) (child_age_last s) (now s) (rreq_id s) (next_tx_id s)
  (next_mac_handle s) (operating_since s) (pan_id_update s) (keepalive_due s) (timeout_request_deadline s)
  (pending_joiner_tlvs s) (distributed_network s) (trust_center s) (rx_link s) (virtual_device s)
  (leaving_rejoin s) (stats s).
Definition set_join (v : option JoinState.t) (s : t C R D) : t C R D :=
  mk (nib s) (config s) (neighbors s) (routes s) (source_routes s) (address_map s) (security s) (rdt s) (btt s)
  (discovery s) (survey s) (joining_list s) (interfaces s) (rng s) (actions s) (events s) (pending s)
  (bcast_bufs s) (pending_rreq s) (scan s) (formation s) v (permit_until s) (network_wide_beacon_appendix s)
  (link_status_due s) (power_delta_due s) (power_request s) (child_age_last s) (now s) (rreq_id s) (next_tx_id s)
  (next_mac_handle s) (operating_since s) (pan_id_update s) (keepalive_due s) (timeout_request_deadline s)
  (pending_joiner_tlvs s) (distributed_network s) (trust_center s) (rx_link s) (virtual_device s)
  (leaving_rejoin s) (stats s).
Definition set_permit_until (v : option Z) (s : t C R D) : t C R D :=
  mk (nib s) (config s) (neighbors s) (routes s) (source_routes s) (address_map s) (security s) (rdt s) (btt s)
  (discovery s) (survey s) (joining_list s) (interfaces s) (rng s) (actions s) (events s) (pending s)
  (bcast_bufs s) (pending_rreq s) (scan s) (formation s) (join s) v (network_wide_beacon_appendix s)
  (link_status_due s) (power_delta_due s) (power_request s) (child_age_last s) (now s) (rreq_id s) (next_tx_id s)
  (next_mac_handle s) (operating_since s) (pan_id_update s) (keepalive_due s) (timeout_request_deadline s)
  (pending_joiner_tlvs s) (distributed_network s) (trust_center s) (rx_link s) (virtual_device s)
  (leaving_rejoin s) (stats s).
Definition set_network_wide_beacon_appendix (v : list Z) (s : t C R D) : t C R D :=
  mk (nib s) (config s) (neighbors s) (routes s) (source_routes s) (address_map s) (security s) (rdt s) (btt s)
  (discovery s) (survey s) (joining_list s) (interfaces s) (rng s) (actions s) (events s) (pending s)
  (bcast_bufs s) (pending_rreq s) (scan s) (formation s) (join s) (permit_until s) v (link_status_due s)
  (power_delta_due s) (power_request s) (child_age_last s) (now s) (rreq_id s) (next_tx_id s) (next_mac_handle s)
  (operating_since s) (pan_id_update s) (keepalive_due s) (timeout_request_deadline s) (pending_joiner_tlvs s)
  (distributed_network s) (trust_center s) (rx_link s) (virtual_device s) (leaving_rejoin s) (stats s).
Definition set_link_status_due (v : option Z) (s : t C R D) : t C R D :=
  mk (nib s) (config s) (neighbors s) (routes s) (source_routes s) (address_map s) (security s) (rdt s) (btt s)
  (discovery s) (survey s) (joining_list s) (interfaces s) (rng s) (actions s) (events s) (pending s)
  (bcast_bufs s) (pending_rreq s) (scan s) (formation s) (join s) (permit_until s)
  (network_wide_beacon_appendix s) v (power_delta_due s) (power_request s) (child_age_last s) (now s) (rreq_id s)
  (next_tx_id s) (next_mac_handle s) (operating_since s) (pan_id_update s) (keepalive_due s)
  (timeout_request_deadline s) (pending_joiner_tlvs s) (distributed_network s) (trust_center s) (rx_link s)
  (virtual_device s) (leaving_rejoin s) (stats s).
Definition set_power_delta_due (v : option Z) (s : t C R D) : t C R D :=
  mk (nib s) (config s) (neighbors s) (routes s) (source_routes s) (address_map s) (security s) (rdt s) (btt s)
  (discovery s) (survey s) (joining_list s) (interfaces s) (rng s) (actions s) (events s) (pending s)
  (bcast_bufs s) (pending_rreq s) (scan s) (formation s) (join s) (permit_until s)
  (network_wide_beacon_appendix s) (link_status_due s) v (power_request s) (child_age_last s) (now s) (rreq_id s)
  (next_tx_id s) (next_mac_handle s) (operating_since s) (pan_id_update s) (keepalive_due s)
  (timeout_request_deadline s) (pending_joiner_tlvs s) (distributed_network s) (trust_center s) (rx_link s)
  (virtual_device s) (leaving_rejoin s) (stats s).
Definition set_power_request (v : option PendingRequest.t) (s : t C R D) : t C R D :=
  mk (nib s) (config s) (neighbors s) (routes s) (source_routes s) (address_map s) (security s) (rdt s) (btt s)
  (discovery s) (survey s) (joining_list s) (interfaces s) (rng s) (actions s) (events s) (pending s)
  (bcast_bufs s) (pending_rreq s) (scan s) (formation s) (join s) (permit_until s)
  (network_wide_beacon_appendix s) (link_status_due s) (power_delta_due s) v (child_age_last s) (now s)
  (rreq_id s) (next_tx_id s) (next_mac_handle s) (operating_since s) (pan_id_update s) (keepalive_due s)
  (timeout_request_deadline s) (pending_joiner_tlvs s) (distributed_network s) (trust_center s) (rx_link s)
  (virtual_device s) (leaving_rejoin s) (stats s).
Definition set_child_age_last (v : Z) (s : t C R D) : t C R D :=
  mk (nib s) (config s) (neighbors s) (routes s) (source_routes s) (address_map s) (security s) (rdt s) (btt s)
  (discovery s) (survey s) (joining_list s) (interfaces s) (rng s) (actions s) (events s) (pending s)
  (bcast_bufs s) (pending_rreq s) (scan s) (formation s) (join s) (permit_until s)
  (network_wide_beacon_appendix s) (link_status_due s) (power_delta_due s) (power_request s) v (now s) (rreq_id s)
  (next_tx_id s) (next_mac_handle s) (operating_since s) (pan_id_update s) (keepalive_due s)
  (timeout_request_deadline s) (pending_joiner_tlvs s) (distributed_network s) (trust_center s) (rx_link s)
  (virtual_device s) (leaving_rejoin s) (stats s).
Definition set_now (v : Z) (s : t C R D) : t C R D :=
  mk (nib s) (config s) (neighbors s) (routes s) (source_routes s) (address_map s) (security s) (rdt s) (btt s)
  (discovery s) (survey s) (joining_list s) (interfaces s) (rng s) (actions s) (events s) (pending s)
  (bcast_bufs s) (pending_rreq s) (scan s) (formation s) (join s) (permit_until s)
  (network_wide_beacon_appendix s) (link_status_due s) (power_delta_due s) (power_request s) (child_age_last s) v
  (rreq_id s) (next_tx_id s) (next_mac_handle s) (operating_since s) (pan_id_update s) (keepalive_due s)
  (timeout_request_deadline s) (pending_joiner_tlvs s) (distributed_network s) (trust_center s) (rx_link s)
  (virtual_device s) (leaving_rejoin s) (stats s).
Definition set_rreq_id (v : Z) (s : t C R D) : t C R D :=
  mk (nib s) (config s) (neighbors s) (routes s) (source_routes s) (address_map s) (security s) (rdt s) (btt s)
  (discovery s) (survey s) (joining_list s) (interfaces s) (rng s) (actions s) (events s) (pending s)
  (bcast_bufs s) (pending_rreq s) (scan s) (formation s) (join s) (permit_until s)
  (network_wide_beacon_appendix s) (link_status_due s) (power_delta_due s) (power_request s) (child_age_last s)
  (now s) v (next_tx_id s) (next_mac_handle s) (operating_since s) (pan_id_update s) (keepalive_due s)
  (timeout_request_deadline s) (pending_joiner_tlvs s) (distributed_network s) (trust_center s) (rx_link s)
  (virtual_device s) (leaving_rejoin s) (stats s).
Definition set_next_tx_id (v : Z) (s : t C R D) : t C R D :=
  mk (nib s) (config s) (neighbors s) (routes s) (source_routes s) (address_map s) (security s) (rdt s) (btt s)
  (discovery s) (survey s) (joining_list s) (interfaces s) (rng s) (actions s) (events s) (pending s)
  (bcast_bufs s) (pending_rreq s) (scan s) (formation s) (join s) (permit_until s)
  (network_wide_beacon_appendix s) (link_status_due s) (power_delta_due s) (power_request s) (child_age_last s)
  (now s) (rreq_id s) v (next_mac_handle s) (operating_since s) (pan_id_update s) (keepalive_due s)
  (timeout_request_deadline s) (pending_joiner_tlvs s) (distributed_network s) (trust_center s) (rx_link s)
  (virtual_device s) (leaving_rejoin s) (stats s).
Definition set_next_mac_handle (v : Z) (s : t C R D) : t C R D :=
  mk (nib s) (config s) (neighbors s) (routes s) (source_routes s) (address_map s) (security s) (rdt s) (btt s)
  (discovery s) (survey s) (joining_list s) (interfaces s) (rng s) (actions s) (events s) (pending s)
  (bcast_bufs s) (pending_rreq s) (scan s) (formation s) (join s) (permit_until s)
  (network_wide_beacon_appendix s) (link_status_due s) (power_delta_due s) (power_request s) (child_age_last s)
  (now s) (rreq_id s) (next_tx_id s) v (operating_since s) (pan_id_update s) (keepalive_due s)
  (timeout_request_deadline s) (pending_joiner_tlvs s) (distributed_network s) (trust_center s) (rx_link s)
  (virtual_device s) (leaving_rejoin s) (stats s).
Definition set_operating_since (v : option Z) (s : t C R D) : t C R D :=
  mk (nib s) (config s) (neighbors s) (routes s) (source_routes s) (address_map s) (security s) (rdt s) (btt s)
  (discovery s) (survey s) (joining_list s) (interfaces s) (rng s) (actions s) (events s) (pending s)
  (bcast_bufs s) (pending_rreq s) (scan s) (formation s) (join s) (permit_until s)
  (network_wide_beacon_appendix s) (link_status_due s) (power_delta_due s) (power_request s) (child_age_last s)
  (now s) (rreq_id s) (next_tx_id s) (next_mac_handle s) v (pan_id_update s) (keepalive_due s)
  (timeout_request_deadline s) (pending_joiner_tlvs s) (distributed_network s) (trust_center s) (rx_link s)
  (virtual_device s) (leaving_rejoin s) (stats s).
Definition set_pan_id_update (v : option (Z * Z * Z)) (s : t C R D) : t C R D :=
  mk (nib s) (config s) (neighbors s) (routes s) (source_routes s) (address_map s) (security s) (rdt s) (btt s)
  (discovery s) (survey s) (joining_list s) (interfaces s) (rng s) (actions s) (events s) (pending s)
  (bcast_bufs s) (pending_rreq s) (scan s) (formation s) (join s) (permit_until s)
  (network_wide_beacon_appendix s) (link_status_due s) (power_delta_due s) (power_request s) (child_age_last s)
  (now s) (rreq_id s) (next_tx_id s) (next_mac_handle s) (operating_since s) v (keepalive_due s)
  (timeout_request_deadline s) (pending_joiner_tlvs s) (distributed_network s) (trust_center s) (rx_link s)
  (virtual_device s) (leaving_rejoin s) (stats s).
Definition set_keepalive_due (v : option Z) (s : t C R D) : t C R D :=
  mk (nib s) (config s) (neighbors s) (routes s) (source_routes s) (address_map s) (security s) (rdt s) (btt s)
  (discovery s) (survey s) (joining_list s) (interfaces s) (rng s) (actions s) (events s) (pending s)
  (bcast_bufs s) (pending_rreq s) (scan s) (formation s) (join s) (permit_until s)
  (network_wide_beacon_appendix s) (link_status_due s) (power_delta_due s) (power_request s) (child_age_last s)
  (now s) (rreq_id s) (next_tx_id s) (next_mac_handle s) (operating_since s) (pan_id_update s) v
  (timeout_request_deadline s) (pending_joiner_tlvs s) (distributed_network s) (trust_center s) (rx_link s)
  (virtual_device s) (leaving_rejoin s) (stats s).
Definition set_timeout_request_deadline (v : option Z) (s : t C R D) : t C R D :=
  mk (nib s) (config s) (neighbors s) (routes s) (source_routes s) (address_map s) (security s) (rdt s) (btt s)
  (discovery s) (survey s) (joining_list s) (interfaces s) (rng s) (actions s) (events s) (pending s)
  (bcast_bufs s) (pending_rreq s) (scan s) (formation s) (join s) (permit_until s)
  (network_wide_beacon_appendix s) (link_status_due s) (power_delta_due s) (power_request s) (child_age_last s)
  (now s) (rreq_id s) (next_tx_id s) (next_mac_handle s) (operating_since s) (pan_id_update s) (keepalive_due s) v
  (pending_joiner_tlvs s) (distributed_network s) (trust_center s) (rx_link s) (virtual_device s)
  (leaving_rejoin s) (stats s).
Definition set_pending_joiner_tlvs (v : option (list Z)) (s : t C R D) : t C R D :=
  mk (nib s) (config s) (neighbors s) (routes s) (source_routes s) (address_map s) (security s) (rdt s) (btt s)
  (discovery s) (survey s) (joining_list s) (interfaces s) (rng s) (actions s) (events s) (pending s)
  (bcast_bufs s) (pending_rreq s) (scan s) (formation s) (join s) (permit_until s)
  (network_wide_beacon_appendix s) (link_status_due s) (power_delta_due s) (power_request s) (child_age_last s)
  (now s) (rreq_id s) (next_tx_id s) (next_mac_handle s) (operating_since s) (pan_id_update s) (keepalive_due s)
  (timeout_request_deadline s) v (distributed_network s) (trust_center s) (rx_link s) (virtual_device s)
  (leaving_rejoin s) (stats s).
Definition set_distributed_network (v : bool) (s : t C R D) : t C R D :=
  mk (nib s) (config s) (neighbors s) (routes s) (source_routes s) (address_map s) (security s) (rdt s) (btt s)
  (discovery s) (survey s) (joining_list s) (interfaces s) (rng s) (actions s) (events s) (pending s)
  (bcast_bufs s) (pending_rreq s) (scan s) (formation s) (join s) (permit_until s)
  (network_wide_beacon_appendix s) (link_status_due s) (power_delta_due s) (power_request s) (child_age_last s)
  (now s) (rreq_id s) (next_tx_id s) (next_mac_handle s) (operating_since s) (pan_id_update s) (keepalive_due s)
  (timeout_request_deadline s) (pending_joiner_tlvs s) v (trust_center s) (rx_link s) (virtual_device s)
  (leaving_rejoin s) (stats s).
Definition set_trust_center (v : option Z) (s : t C R D) : t C R D :=
  mk (nib s) (config s) (neighbors s) (routes s) (source_routes s) (address_map s) (security s) (rdt s) (btt s)
  (discovery s) (survey s) (joining_list s) (interfaces s) (rng s) (actions s) (events s) (pending s)
  (bcast_bufs s) (pending_rreq s) (scan s) (formation s) (join s) (permit_until s)
  (network_wide_beacon_appendix s) (link_status_due s) (power_delta_due s) (power_request s) (child_age_last s)
  (now s) (rreq_id s) (next_tx_id s) (next_mac_handle s) (operating_since s) (pan_id_update s) (keepalive_due s)
  (timeout_request_deadline s) (pending_joiner_tlvs s) (distributed_network s) v (rx_link s) (virtual_device s)
  (leaving_rejoin s) (stats s).
Definition set_rx_link (v : option (Z * Z * bool * Z)) (s : t C R D) : t C R D :=
  mk (nib s) (config s) (neighbors s) (routes s) (source_routes s) (address_map s) (security s) (rdt s) (btt s)
  (discovery s) (survey s) (joining_list s) (interfaces s) (rng s) (actions s) (events s) (pending s)
  (bcast_bufs s) (pending_rreq s) (scan s) (formation s) (join s) (permit_until s)
  (network_wide_beacon_appendix s) (link_status_due s) (power_delta_due s) (power_request s) (child_age_last s)
  (now s) (rreq_id s) (next_tx_id s) (next_mac_handle s) (operating_since s) (pan_id_update s) (keepalive_due s)
  (timeout_request_deadline s) (pending_joiner_tlvs s) (distributed_network s) (trust_center s) v
  (virtual_device s) (leaving_rejoin s) (stats s).
Definition set_virtual_device (v : bool) (s : t C R D) : t C R D :=
  mk (nib s) (config s) (neighbors s) (routes s) (source_routes s) (address_map s) (security s) (rdt s) (btt s)
  (discovery s) (survey s) (joining_list s) (interfaces s) (rng s) (actions s) (events s) (pending s)
  (bcast_bufs s) (pending_rreq s) (scan s) (formation s) (join s) (permit_until s)
  (network_wide_beacon_appendix s) (link_status_due s) (power_delta_due s) (power_request s) (child_age_last s)
  (now s) (rreq_id s) (next_tx_id s) (next_mac_handle s) (operating_since s) (pan_id_update s) (keepalive_due s)
  (timeout_request_deadline s) (pending_joiner_tlvs s) (distributed_network s) (trust_center s) (rx_link s) v
  (leaving_rejoin s) (stats s).
Definition set_leaving_rejoin (v : option bool) (s : t C R D) : t C R D :=
  mk (nib s) (config s) (neighbors s) (routes s) (source_routes s) (address_map s) (security s) (rdt s) (btt s)
  (discovery s) (survey s) (joining_list s) (interfaces s) (rng s) (actions s) (events s) (pending s)
  (bcast_bufs s) (pending_rreq s) (scan s) (formation s) (join s) (permit_until s)
  (network_wide_beacon_appendix s) (link_status_due s) (power_delta_due s) (power_request s) (child_age_last s)
  (now s) (rreq_id s) (next_tx_id s) (next_mac_handle s) (operating_since s) (pan_id_update s) (keepalive_due s)
  (timeout_request_deadline s) (pending_joiner_tlvs s) (distributed_network s) (trust_center s) (rx_link s)
  (virtual_device s) v (stats s).
Definition set_stats (v : NwkStats.t) (s : t C R D) : t C R D :=
  mk (nib s) (config s) (neighbors s) (routes s) (source_routes s) (address_map s) (security s) (rdt s) (btt s)
  (discovery s) (survey s) (joining_list s) (interfaces s) (rng s) (actions s) (events s) (pending s)
  (bcast_bufs s) (pending_rreq s) (scan s) (formation s) (join s) (permit_until s)
  (network_wide_beacon_appendix s) (link_status_due s) (power_delta_due s) (power_request s) (child_age_last s)
  (now s) (rreq_id s) (next_tx_id s) (next_mac_handle s) (operating_since s) (pan_id_update s) (keepalive_due s)
  (timeout_request_deadline s) (pending_joiner_tlvs s) (distributed_network s) (trust_center s) (rx_link s)
  (virtual_device s) (leaving_rejoin s) v.
End setters.
End Nwk.
