(* ===== verification/NwkTx.v ===== *)
(** * The network layer: transmission (panweave-nwk/src/layer/mod.rs, tx.rs,
    route.rs)

    The construction and protection of a frame, the choice of its next hop, the
    queue of frames that wait for a route, a retry or a confirm, and the route
    requests a discovery sends.  A method that can fail is a computation of
    [SE].  The loops that put frames back into the list they walk take fuel and
    answer [None] while they are still running. *)

From S2P Require Import Prelude Types Status Codec Heapless FrameCounter AuxHeader Ccm SecFrame Keys NwkSecurity NwkFrame Routing NwkTables NwkCommand NwkNeighbor NwkDiscovery NwkInterface NwkState.

(** ** Random numbers (panweave-types/src/rng.rs) *)

Definition next_u8 {R} `{!Rng R} (r : R) : Z * R := let '(b, r) := fill_bytes 1 r in (nth 0 b 0, r).
Definition next_u32 {R} `{!Rng R} (r : R) : Z * R := let '(b, r) := fill_bytes 4 r in (from_le b, r).

(** The draws of [below] until one lies in the zone, [fuel] at most. *)
Fixpoint below_loop {R} `{!Rng R} (fuel : nat) (bound : Z) (r : R) : option (Z * R) :=
  match fuel with
  | 0%nat => None
  | S fuel =>
      let '(v, r) := next_u32 r in
      if v <? u32_max - u32_max mod bound then Some (v mod bound, r) else below_loop fuel bound r
  end.

(** A generator on which the rejection sampling of [below] ends: one of the next
    [draws] values always lies in the zone. *)
Class FairRng (R : Type) `{!Rng R} := {
  draws : nat;
  fair bound r : 0 < bound ≤ u32_max → is_Some (below_loop draws bound r)
}.

Definition below {R} `{FairRng R} (bound : Z) (r : R) : Z * R :=
  if bound =? 0 then (0, r) else default (0, r) (below_loop draws bound r).

(** A generator that counts, modulo 128, meets both classes. *)
#[export, refine] Instance counting_rng : Rng Z := { fill_bytes n r := (to_le n (r mod 128), r + 1) }.
Proof. intros n r. simpl. split; [apply length_to_le|apply to_le_bytes_ok]. Defined.

#[export, refine] Instance counting_rng_fair : FairRng Z := { draws := 1 }.
Proof.
  intros bound r Hb. unfold below_loop, next_u32, fill_bytes, counting_rng.
  rewrite from_to_le by (pose proof (Z.mod_pos_bound r 128); unfold uint; lia).
  rewrite (proj2 (Z.ltb_lt _ _)); [eauto|].
  pose proof (Z.mod_pos_bound r 128). pose proof (Z.mod_pos_bound u32_max bound). unfold u32_max in *.
  destruct (decide (bound ≤ 2 ^ 31)); [lia|].
  assert ((2 ^ 32 - 1) mod bound = 2 ^ 32 - 1 - bound) as -> by (symmetry; apply (Z.mod_unique _ _ 1); lia). lia.
Defined.

(** ** Entries of the tables, as the layer updates them *)

Module NeighborUpdate.
Definition note_outbound (e : NeighborEntry.t) : NeighborEntry.t :=
  NeighborEntry.mk (NeighborEntry.extended e) (NeighborEntry.short e) (NeighborEntry.device_type e)
  (NeighborEntry.rx_on_when_idle e) (NeighborEntry.end_device_configuration e)
  (NeighborEntry.timeout_counter_secs e) (NeighborEntry.device_timeout_secs e) (NeighborEntry.relationship e)
  (NeighborEntry.transmit_failure e) (NeighborEntry.lqa e) (NeighborEntry.outgoing_cost e) (NeighborEntry.age e)
  (NeighborEntry.keepalive_received e) (NeighborEntry.router_age e) (NeighborEntry.security_timer_secs e)
  (NeighborEntry.router_connectivity e) (NeighborEntry.router_neighbor_set_diversity e)
  (sat_add 8 (NeighborEntry.router_outbound_activity e) 1) (NeighborEntry.router_inbound_activity e)
  (NeighborEntry.last_key_sequence e) (NeighborEntry.last_rssi_dbm e) (NeighborEntry.link e).
End NeighborUpdate.

Module RouteUpdate.
Import RouteEntry.
Definition set_record_required (v : bool) (e : t) : t :=
  mk (destination e) (status e) (no_route_cache e) (many_to_one e) v (expired e) (next_hop e) (sequence e)
     (sequence_valid e) (path_cost e) (total_usage e) (recent_activity e) (many_to_one_deadline e).
End RouteUpdate.

Module Tx.
Import Nwk.

Module RouteDecision.
Inductive t : Type := Direct (hop : Z) | NextHop (hop : Z) | Discover | NoRoute.
End RouteDecision.

Definition COUNTER_RETRY_DELAY : Z := Duration.from_millis 2.

Section tx.
Context {C R : Type} {D : NwkDims.t} `{!BlockCipher C} {Hrng : Rng R} {Hfair : FairRng R} {Hv : Heapless}.
Abbreviation st := (Nwk.t C R D).
Implicit Types s : st.

(** [let _ = op;] *)
Definition ignore {E A} (m : SE st E A) s : st := (m s).2.

(** ** layer/mod.rs *)

Definition new (n : Nib.t) (config : NwkConfig.t) (rng : R) : st :=
  let '(sq, rng) := next_u8 rng in
  let n := Nib.set_sequence_number sq n in
  let n := Nib.set_is_concentrator (NwkConfig.concentrator config) n in
  let n := Nib.set_concentrator_radius (NwkConfig.concentrator_radius config) n in
  let n := Nib.set_concentrator_discovery_time_secs (NwkConfig.concentrator_discovery_time_secs config) n in
  let n := Nib.set_hub_connectivity (NwkConfig.hub_connectivity config) n in
  let '(rreq, rng) := next_u8 rng in
  mk n config (NeighborTable.new _) (RoutingTable.new _) (SourceRouteTable.new _) (AddressMap.new _)
     NwkSecurity.new (RouteDiscoveryTable.new _) (BroadcastTransactionTable.new _) (DiscoveryTable.new _)
     SurveyCounts.default (JoiningList.new _) (MacInterfaceTable.single ChannelMask.ALL_2_4GHZ) rng [] [] [] []
     [] None None None None [] None None None Instant.ZERO Instant.ZERO rreq 1 1 None None None None None false None
     None false None NwkStats.default.

Definition next_action s : option NwkAction.t * st :=
  match deque_pop_front (actions s) with Some (a, q) => (Some a, set_actions q s) | None => (None, s) end.
Definition next_event s : option NwkEvent.t * st :=
  match deque_pop_front (events s) with Some (e, q) => (Some e, set_events q s) | None => (None, s) end.
Definition has_output s : bool := negb (length (actions s) =? 0)%nat || negb (length (events s) =? 0)%nat.

(** A full queue gives up its oldest element ([debug_assert!] is not compiled
    into a release build). *)
Definition push_dropping {A} (K : nat) (q : list A) (a : A) : list A :=
  match deque_push_back K q a with
  | Ok q => q
  | Err a =>
      let q := match deque_pop_front q with Some (_, q) => q | None => q end in
      match deque_push_back K q a with Ok q => q | Err _ => q end
  end.

Definition push_action (a : NwkAction.t) s : st := set_actions (push_dropping (NwkDims.Actions D) (actions s) a) s.
Definition push_event (e : NwkEvent.t) s : st := set_events (push_dropping (NwkDims.Events D) (events s) e) s.

Definition bump (f : NwkStats.field) s : st := set_stats (NwkStats.bump f (stats s)) s.

Definition alloc_tx_id s : Z * st :=
  (next_tx_id s, set_next_tx_id (Z.max (wrap 16 (next_tx_id s + 1)) 1) s).
Definition alloc_mac_handle s : Z * st :=
  (next_mac_handle s, set_next_mac_handle (Z.max (wrap 16 (next_mac_handle s + 1)) 1) s).

(** [self.nib.next_sequence()] and [self.nib.next_routing_sequence()] *)
Definition next_sequence s : Z * st :=
  let '(v, n) := Nib.next_sequence (nib s) in (v, set_nib n s).
Definition next_routing_sequence s : st := set_nib (Nib.next_routing_sequence (nib s)).2 s.

Definition jitter (lo hi : Z) s : Z * st :=
  let span := sat_sub hi lo in
  if span =? 0 then (lo, s)
  else let '(off, r) := below (Z.min (span + 1) u32_max) (rng s) in (lo + off, set_rng r s).

Definition commit_counter_reservation (r : Z) s : st :=
  set_security (NwkSecurity.commit_counter_reservation (security s) r) s.
Definition abort_counter_reservation s : st :=
  set_security (NwkSecurity.abort_counter_reservation (security s)) s.

Definition maybe_reserve_counter s : st :=
  let '(r, sec) := NwkSecurity.start_counter_reservation (security s) in
  let s := set_security sec s in
  match r with Some r => push_action (NwkAction.CounterReservation r) s | None => s end.

Definition is_operational s : bool := Nib.joined (nib s) && Nib.authenticated (nib s).

Definition mac_status_to_nwk (s : TxStatus.t) : NwkStatus.t :=
  match s with
  | TxStatus.Success => NwkStatus.Success
  | TxStatus.NoAck => NwkStatus.Unknown 0xE9
  | TxStatus.ChannelAccessFailure => NwkStatus.Unknown 0xE1
  | TxStatus.TransactionExpired => NwkStatus.Unknown 0xF0
  | TxStatus.RadioError => NwkStatus.Unknown 0xE3
  end.

(** ** layer/tx.rs: frames *)

Definition track_pending (entry : PendingTx.t) : SE st NwkError.t unit := λ s,
  let r := vec_push (NwkDims.PendingTx D) (pending s) entry in
  let s := match r with Ok ps => set_pending ps s | Err _ => bump NwkStats.F_pending_full s end in
  let used := Z.min (Z.of_nat (length (pending s))) u32_max in
  let s := set_stats (NwkStats.set_pending_high_water (Z.max (NwkStats.pending_high_water (stats s)) used) (stats s)) s in
  (match r with Ok _ => Ok tt | Err _ => Err NwkError.Busy end, s).

Definition pending_tx s : nat * nat :=
  (length (pending s), length (List.filter PendingTx.indirect (pending s))).
Definition pending_len s : nat := length (pending s).

Definition max_payload (header_len : nat) (secured : bool) : nat :=
  let overhead := if secured then (header_len + NwkSecurity.aux_header_len + 4)%nat else header_len in
  (MAX_NPDU - overhead)%nat.

Definition build_npdu (header : NwkHeader.t) (payload : list Z) : result (list Z * nat) NwkError.t :=
  let header_len := NwkHeader.encoded_len header in
  let total := (header_len + length payload)%nat in
  if (MAX_NPDU <? total)%nat then Err NwkError.FrameTooLong
  else
    match vec_resize MAX_NPDU [] total 0 with
    | None => Err NwkError.FrameTooLong
    | Some buf =>
        match encode header (Writer.new buf) with
        | (Err _, _) => Err NwkError.InvalidParameter
        | (Ok _, w) =>
            match Writer.bytes payload w with
            | (Err _, _) => Err NwkError.FrameTooLong
            | (Ok _, w) => Ok (Writer.buf w, header_len)
            end
        end
    end.

Definition build_command (header : NwkHeader.t) (cmd : NwkCommand.t) : result (list Z * nat) NwkError.t :=
  match encode_to_slice cmd (replicate MAX_NPDU 0) with
  | (Err _, _) => Err NwkError.FrameTooLong
  | (Ok n, payload) => build_npdu header (default [] (get_range payload 0 n))
  end.

(** An octet of the frame rewritten in place, when the frame has it. *)
Definition patch_octet (i : nat) (f : Z → Z) (buf : list Z) : list Z := alter f i buf.

(** [!bit] of an octet *)
Definition clearing (bits : Z) (b : Z) : Z := Z.land b (lnot_w 8 bits).

Definition link_copy (plaintext : list Z) : result (list Z) NwkError.t :=
  match vec_extend_from_slice MAX_NPDU [] plaintext with
  | None => Err NwkError.FrameTooLong
  | Some out => Ok (patch_octet 1 (clearing 0x02) out)
  end.

(** The room of a secured frame: the header and the payload around the gap of
    the auxiliary header, and the octets of the integrity code.  Every frame is
    kept with the length of the header at its front, so the header copied is as
    long as the space for it. *)
Definition secured_room (plaintext : list Z) (header_len aux_len mic_len : nat) : result (list Z) NwkError.t :=
  let payload_len := (length plaintext - header_len)%nat in
  let total := (header_len + aux_len + payload_len + mic_len)%nat in
  if (MAX_NPDU <? total)%nat then Err NwkError.FrameTooLong
  else
    match vec_resize MAX_NPDU [] total 0 with
    | None => Err NwkError.FrameTooLong
    | Some out =>
        let out := splice 0 (take header_len plaintext) out in
        let out := splice (header_len + aux_len) (drop header_len plaintext) out in
        Ok (patch_octet 1 (λ b, Z.lor b 0x02) out)
    end.

Definition finalize_frame (plaintext : list Z) (header_len : nat) (secure : bool)
    : SE st NwkError.t (list Z) := λ s,
  if negb secure then (ok_or (vec_extend_from_slice MAX_NPDU [] plaintext) NwkError.FrameTooLong, s)
  else
    let level := Nib.security_level (nib s) in
    match secured_room plaintext header_len NwkSecurity.aux_header_len (SecurityLevel.mic_len level) with
    | Err e => (Err e, s)
    | Ok out =>
        let '(r, out, sec) :=
          NwkSecurity.secure_outgoing (security s) out header_len (length plaintext - header_len) level
            (Nib.ieee_address (nib s)) in
        let s := set_security sec s in
        match r with
        | Ok n => (Ok (vec_truncate out n), maybe_reserve_counter s)
        | Err SecFrameCounter =>
            let s := maybe_reserve_counter s in
            if OutgoingCounter.peek (NetworkKeys.outgoing (NwkSecurity.keys (security s))) =? u32_max
            then (Err (NwkError.Security NwkStatus.MaxFrameCounter), s)
            else (Err NwkError.CounterPending, s)
        | Err NoKey => (Err (NwkError.Security NwkStatus.NoKey), s)
        | Err _ => (Err (NwkError.Security NwkStatus.BadCcmOutput), s)
        end
    end.

(** ** layer/tx.rs: the next hop *)

Definition usable_router (n : NeighborEntry.t) : bool :=
  NeighborEntry.is_router n && negb (NeighborEntry.outgoing_cost n =? 0) && (NeighborEntry.transmit_failure n <? 3).

Definition route_unicast (dst : Z) (discover : bool) s : RouteDecision.t * st :=
  if Nib.is_end_device (nib s) then
    let parent := Nib.parent_address (nib s) in
    (if parent =? ShortAddress.NO_SHORT_ADDRESS then RouteDecision.NoRoute else RouteDecision.Direct parent, s)
  else if from_option (λ n, Relationship.is_child (NeighborEntry.relationship n)) false
            (NeighborTable.by_short (neighbors s) dst) then (RouteDecision.Direct dst, s)
  else if from_option usable_router false (NeighborTable.by_short (neighbors s) dst)
  then (RouteDecision.Direct dst, s)
  else
    let otherwise :=
      if discover then RouteDecision.Discover
      else if is_some (NeighborTable.by_short (neighbors s) dst) then RouteDecision.Direct dst
      else RouteDecision.NoRoute in
    match RoutingTable.get (routes s) dst with
    | Some e =>
        match RouteEntry.status e with
        | RouteStatus.Active =>
            let hop := RouteEntry.next_hop e in
            let s := set_routes (RoutingTable.get_mut (routes s) dst RouteEntry.touch) s in
            let s := set_neighbors (NeighborTable.by_short_mut (neighbors s) hop NeighborUpdate.note_outbound) s in
            (RouteDecision.NextHop hop, s)
        | RouteStatus.DiscoveryUnderway => (RouteDecision.Discover, s)
        | _ => (otherwise, s)
        end
    | None => (otherwise, s)
    end.

(** The Trusted Link the next hop is behind, if any. *)
Definition link_to s (next_hop : Z) : option Z :=
  match NeighborTable.by_short (neighbors s) next_hop ≫= NeighborEntry.link with
  | Some l => Some l
  | None =>
      match rx_link s with
      | Some (link, _, _, src) => if src =? next_hop then Some link else None
      | None => None
      end
  end.

Definition transmit_pending (entry : PendingTx.t) : SE st NwkError.t unit := λ s,
  match link_to s (PendingTx.next_hop entry) with
  | Some link =>
      match link_copy (PendingTx.frame entry) with
      | Err e => (Err e, s)
      | Ok frame =>
          let '(handle, s) := alloc_mac_handle s in
          let entry := PendingTx.set_indirect false (PendingTx.set_retry_at None
            (PendingTx.set_awaiting_route false (PendingTx.set_mac_handle (Some handle) entry))) in
          match track_pending entry s with
          | (Err e, s) => (Err e, s)
          | (Ok _, s) =>
              (Ok tt, push_action (NwkAction.TrustedLinkData handle link frame (PendingTx.secure entry)) s)
          end
      end
  | None =>
      if PendingTx.indirect entry then
        let '(handle, s) := alloc_mac_handle s in
        let entry := PendingTx.set_retry_at None
          (PendingTx.set_awaiting_route false (PendingTx.set_mac_handle (Some handle) entry)) in
        match track_pending entry s with
        | (Err e, s) => (Err e, s)
        | (Ok _, s) => (Ok tt, push_action (NwkAction.MacDataDeferred handle (PendingTx.next_hop entry)) s)
        end
      else
        match finalize_frame (PendingTx.frame entry) (PendingTx.header_len entry) (PendingTx.secure entry) s with
        | (Err NwkError.CounterPending, s) =>
            let entry := PendingTx.set_retry_at (Some (Instant.saturating_add (now s) COUNTER_RETRY_DELAY))
              (PendingTx.set_mac_handle None entry) in
            track_pending entry s
        | (Err e, s) => (Err e, s)
        | (Ok on_air, s) =>
            let '(handle, s) := alloc_mac_handle s in
            let entry := PendingTx.set_retry_at None
              (PendingTx.set_awaiting_route false (PendingTx.set_mac_handle (Some handle) entry)) in
            match track_pending entry s with
            | (Err e, s) => (Err e, s)
            | (Ok _, s) =>
                let s := set_nib (Nib.set_tx_total (sat_add 16 (Nib.tx_total (nib s)) 1) (nib s)) s in
                (Ok tt, push_action (NwkAction.MacData handle (PendingTx.next_hop entry) on_air true
                   (PendingTx.indirect entry)) s)
            end
        end
  end.

(** A unicast as the layer first queues it. *)
Definition fresh_entry s (id : Z) (frame : list Z) (header_len : nat) (dst next_hop retries : Z)
    (secure indirect : bool) (relayed_from : option Z) (source_route : bool) (kind : TxKind.t) : PendingTx.t := {|
  PendingTx.id := id;
  PendingTx.frame := frame;
  PendingTx.header_len := header_len;
  PendingTx.dst := dst;
  PendingTx.next_hop := next_hop;
  PendingTx.mac_handle := None;
  PendingTx.retries_left := retries;
  PendingTx.retry_at := None;
  PendingTx.awaiting_route := false;
  PendingTx.secure := secure;
  PendingTx.indirect := indirect;
  PendingTx.relayed_from := relayed_from;
  PendingTx.source_route := source_route;
  PendingTx.kind := kind;
  PendingTx.created := now s
|}.

Definition send_command_unicast (header : NwkHeader.t) (cmd : NwkCommand.t) (mac_dst : Z)
    (secure indirect : bool) (kind : TxKind.t) : SE st NwkError.t unit := λ s,
  match build_command header cmd with
  | Err e => (Err e, s)
  | Ok (frame, header_len) =>
      let '(id, s) := alloc_tx_id s in
      transmit_pending (fresh_entry s id frame header_len (NwkHeader.dst header) mac_dst constants.UNICAST_RETRIES
        (secure && NwkConfig.security_enabled (config s)) indirect None false kind) s
  end.

Definition send_command_broadcast_once (header : NwkHeader.t) (cmd : NwkCommand.t) (secure : bool)
    : SE st NwkError.t unit := λ s,
  match build_command header cmd with
  | Err e => (Err e, s)
  | Ok (frame, header_len) =>
      match finalize_frame frame header_len (secure && NwkConfig.security_enabled (config s)) s with
      | (Err NwkError.CounterPending, s) => (Ok tt, s)
      | (Err e, s) => (Err e, s)
      | (Ok on_air, s) =>
          let '(handle, s) := alloc_mac_handle s in
          let mac_dst :=
            if Nib.is_end_device (nib s) then Nib.parent_address (nib s) else ShortAddress.BROADCAST_ALL in
          (Ok tt, push_action (NwkAction.MacData handle mac_dst on_air false false) s)
      end
  end.

(** ** layer/route.rs: route requests *)

(** The header of a command this device sends as itself. *)
Definition command_header s (dst src radius seq : Z) : NwkHeader.t :=
  NwkHeader.secured (NwkHeader.with_src_ieee (NwkHeader.new FrameType.Command dst src radius seq)
    (Nib.ieee_address (nib s))) (NwkConfig.security_enabled (config s)).

Definition set_rreq (i : nat) (p : PendingRreq.t) s : st := set_pending_rreq (<[i := p]> (pending_rreq s)) s.

(** One turn of the loop over the due request [p] at [i]: the index of the next
    request to look at. *)
Definition send_rreq (tnow : Z) (i : nat) (p : PendingRreq.t) s : nat * st :=
  let frame := PendingRreq.frame p in
  let header_len := match NwkHeader.decode_prefix frame with Ok (_, n) => n | Err _ => 0%nat end in
  let after s : nat * st :=
    if 0 <? PendingRreq.retries_left p then
      let p := PendingRreq.mk frame (PendingRreq.due p) (PendingRreq.retries_left p - 1) (PendingRreq.interval p) in
      let s := set_rreq i p s in
      let '(j, s) := jitter constants.MIN_RREQ_JITTER constants.MAX_RREQ_JITTER s in
      let due := Instant.saturating_add (Instant.saturating_add tnow (PendingRreq.interval p)) j in
      (S i, set_rreq i (PendingRreq.mk frame due (PendingRreq.retries_left p) (PendingRreq.interval p)) s)
    else
      (i, match vec_swap_remove (pending_rreq s) i with Some (_, ps) => set_pending_rreq ps s | None => s end) in
  match finalize_frame frame header_len (NwkConfig.security_enabled (config s)) s with
  | (Ok on_air, s) =>
      let '(handle, s) := alloc_mac_handle s in
      after (push_action (NwkAction.MacData handle ShortAddress.BROADCAST_ALL on_air false false) s)
  | (Err NwkError.CounterPending, s) =>
      let due := Instant.saturating_add tnow COUNTER_RETRY_DELAY in
      (S i, set_rreq i (PendingRreq.mk frame due (PendingRreq.retries_left p) (PendingRreq.interval p)) s)
  | (Err _, s) => after s
  end.

Fixpoint rreq_loop (fuel : nat) (tnow : Z) (i : nat) s : st :=
  match fuel with
  | 0%nat => s
  | S fuel =>
      match pending_rreq s !! i with
      | None => s
      | Some p =>
          if Instant.has_reached tnow (PendingRreq.due p) then
            let '(i, s) := send_rreq tnow i p s in rreq_loop fuel tnow i s
          else rreq_loop fuel tnow (S i) s
      end
  end.

(** Every turn leaves one request less in front of the index. *)
Definition service_route_requests (tnow : Z) s : st := rreq_loop (length (pending_rreq s)) tnow 0 s.

Definition queue_rreq (frame : list Z) (retries interval : Z) (immediate : bool) : SE st NwkError.t unit := λ s,
  let '(j, s) := jitter constants.MIN_RREQ_JITTER constants.MAX_RREQ_JITTER s in
  let due := if immediate then now s else Instant.saturating_add (now s) (Duration.from_millis (j * 2)) in
  match vec_push (NwkDims.PendingRreq D) (pending_rreq s) (PendingRreq.mk frame due retries interval) with
  | Err _ => (Err NwkError.Busy, s)
  | Ok ps =>
      let s := set_pending_rreq ps s in
      (Ok tt, if immediate then service_route_requests (now s) s else s)
  end.

(** The routing table entry of a discovery. *)
Definition mark_underway (dst : Z) : SE st NwkError.t unit := λ s,
  match RoutingTable.get (routes s) dst with
  | Some e =>
      match RouteEntry.status e with
      | RouteStatus.Active => (Ok tt, s)
      | _ =>
          (Ok tt, set_routes (RoutingTable.get_mut (routes s) dst
             (λ e, RouteEntry.with_status e RouteStatus.DiscoveryUnderway)) s)
      end
  | None =>
      let '(r, t) := RoutingTable.insert (routes s)
        (RouteEntry.new dst ShortAddress.NO_SHORT_ADDRESS RouteStatus.DiscoveryUnderway
           (Nib.router_age_limit (nib s))) in
      (match r with Some _ => Ok tt | None => Err NwkError.Busy end, set_routes t s)
  end.

(** [self.rreq_id = self.rreq_id.wrapping_add(1)] and the routing sequence *)
Definition next_rreq_id s : Z * st :=
  let id := wrap 8 (rreq_id s + 1) in
  (id, next_routing_sequence (set_rreq_id id s)).

(** The discovery table entry of a request this device makes. *)
Definition own_discovery s (id dst : Z) (confirmed : bool) : DiscoveryEntry.t :=
  DiscoveryEntry.mk id (Nib.network_address (nib s)) (Nib.network_address (nib s)) 0 0xFF
    (Instant.saturating_add (now s) constants.ROUTE_DISCOVERY_TIME) dst true confirmed.

Definition insert_discovery (e : DiscoveryEntry.t) s : option nat * st :=
  let '(r, t) := RouteDiscoveryTable.insert (rdt s) e (now s) in (r, set_rdt t s).

Definition discovery_underway s (dst : Z) : bool :=
  RouteDiscoveryTable.any_pending_for (rdt s) dst &&
  from_option (λ r, match RouteEntry.status r with RouteStatus.DiscoveryUnderway => true | _ => false end) false
    (RoutingTable.get (routes s) dst).

Definition start_route_discovery (dst : Z) (radius : option Z) : SE st NwkError.t unit := λ s,
  if negb (Nib.is_router_or_coordinator (nib s)) then (Err NwkError.InvalidRequest, s)
  else if discovery_underway s dst then (Ok tt, s)
  else
    match mark_underway dst s with
    | (Err e, s) => (Err e, s)
    | (Ok _, s) =>
        let s := bump NwkStats.F_route_discoveries s in
        let '(id, s) := next_rreq_id s in
        let '(r, s) := insert_discovery (own_discovery s id dst false) s in
        match r with
        | None => (Err NwkError.Busy, s)
        | Some _ =>
            let dst_ieee := AddressMap.extended_for (address_map s) dst in
            let '(seq, s) := next_sequence s in
            let header := command_header s ShortAddress.BROADCAST_ROUTERS (Nib.network_address (nib s))
              (default constants.DEFAULT_RADIUS radius) seq in
            let cmd := NwkCommand.RouteRequest (RouteRequest.mk ManyToOne.No id dst 0 dst_ieee []) in
            match build_command header cmd with
            | Err e => (Err e, s)
            | Ok (frame, _) =>
                queue_rreq frame constants.INITIAL_RREQ_RETRIES constants.RREQ_RETRY_INTERVAL true s
            end
        end
    end.

Definition start_many_to_one (radius : option Z) (no_route_cache : bool) : SE st NwkError.t unit := λ s,
  let s := bump NwkStats.F_route_discoveries s in
  let '(id, s) := next_rreq_id s in
  let s := (insert_discovery (own_discovery s id ShortAddress.BROADCAST_ROUTERS true) s).2 in
  let radius :=
    default (if Nib.concentrator_radius (nib s) =? 0 then constants.DEFAULT_RADIUS
             else Nib.concentrator_radius (nib s)) radius in
  let '(seq, s) := next_sequence s in
  let header := command_header s ShortAddress.BROADCAST_ROUTERS (Nib.network_address (nib s)) radius seq in
  let kind := if no_route_cache then ManyToOne.NoRouteCache else ManyToOne.WithRouteCache in
  let cmd := NwkCommand.RouteRequest (RouteRequest.mk kind id ShortAddress.BROADCAST_ROUTERS 0 None []) in
  match build_command header cmd with
  | Err e => (Err e, s)
  | Ok (frame, _) =>
      match queue_rreq frame 0 constants.RREQ_RETRY_INTERVAL true s with
      | (Err e, s) => (Err e, s)
      | (Ok _, s) =>
          (Ok tt, push_event (NwkEvent.RouteDiscoveryConfirm ShortAddress.BROADCAST_ROUTERS NwkStatus.Success) s)
      end
  end.

Definition route_discovery (dst radius : option Z) (no_route_cache : bool) : SE st NwkError.t unit := λ s,
  if negb (Nib.is_router_or_coordinator (nib s)) || negb (Nib.joined (nib s)) then (Err NwkError.InvalidRequest, s)
  else
    match dst with
    | Some d => if ShortAddress.is_broadcast d then (Err NwkError.InvalidRequest, s) else start_route_discovery d radius s
    | None => start_many_to_one radius no_route_cache (set_nib (Nib.set_is_concentrator true (nib s)) s)
    end.

Definition send_route_record (concentrator : Z) (on_behalf_of : option Z) s : st :=
  match RoutingTable.get (routes s) concentrator with
  | None => s
  | Some route =>
      let my := Nib.network_address (nib s) in
      let '(seq, s) := next_sequence s in
      let header := command_header s concentrator (default my on_behalf_of) constants.DEFAULT_RADIUS seq in
      let list := if is_some on_behalf_of then to_le 2 my else [] in
      match send_command_unicast header (NwkCommand.RouteRecord (RouteRecord.mk list)) (RouteEntry.next_hop route)
              true false TxKind.Command s with
      | (Ok _, s) => set_routes (RoutingTable.get_mut (routes s) concentrator (RouteUpdate.set_record_required false)) s
      | (Err _, s) => s
      end
  end.

(** ** layer/tx.rs: the queue of unicasts *)

(** A sleepy end device child. *)
Definition sleepy_child (n : NeighborEntry.t) : bool :=
  Relationship.is_child (NeighborEntry.relationship n) && NeighborEntry.is_end_device n
  && negb (NeighborEntry.rx_on_when_idle n).

Definition record_required s (dst : Z) : bool :=
  from_option (λ r, RouteEntry.many_to_one r && RouteEntry.route_record_required r) false
    (RoutingTable.get (routes s) dst).

Definition for_sleepy s (hop : Z) (entry : PendingTx.t) : PendingTx.t :=
  if from_option sleepy_child false (NeighborTable.by_short (neighbors s) hop)
  then PendingTx.set_indirect true entry else entry.

(** The frame waits for a discovery. *)
Definition await_route (entry : PendingTx.t) : SE st NwkError.t unit :=
  track_pending (PendingTx.set_awaiting_route true entry);;
  start_route_discovery (PendingTx.dst entry) None.

(** The frame goes to the next hop, after a route record where the destination
    wants one. *)
Definition send_via (h : Z) (entry : PendingTx.t) : SE st NwkError.t unit := λ s,
  let entry := for_sleepy s h (PendingTx.set_next_hop h entry) in
  let s :=
    if TxKind.is_data (PendingTx.kind entry) && negb (is_some (PendingTx.relayed_from entry))
       && record_required s (PendingTx.dst entry)
    then send_route_record (PendingTx.dst entry) None s else s in
  transmit_pending entry s.

Definition enqueue_unicast (entry : PendingTx.t) : SE st NwkError.t unit := λ s,
  let discover :=
    from_option (λ b, Z.land (Z.shiftr b 6) 0x3 =? 1) false (PendingTx.frame entry !! 0%nat)
    && TxKind.is_data (PendingTx.kind entry) in
  let '(d, s) := route_unicast (PendingTx.dst entry) discover s in
  match d with
  | RouteDecision.Direct h | RouteDecision.NextHop h => send_via h entry s
  | RouteDecision.Discover => await_route entry s
  | RouteDecision.NoRoute => (Err NwkError.RouteError, bump NwkStats.F_no_route s)
  end.

Definition send_network_status (dst about : Z) (code : NetworkStatusCode.t) s : st :=
  if negb (Nib.joined (nib s)) then s
  else
    let '(seq, s) := next_sequence s in
    let header := command_header s dst (Nib.network_address (nib s)) constants.DEFAULT_RADIUS seq in
    match build_command header (NwkCommand.NetworkStatus (NetworkStatus.mk code about [])) with
    | Err _ => s
    | Ok (frame, header_len) =>
        let '(id, s) := alloc_tx_id s in
        ignore (enqueue_unicast (fresh_entry s id frame header_len dst dst 1 (NwkConfig.security_enabled (config s))
          false None false TxKind.Command)) s
    end.

(** [self.pending.swap_remove(i)] *)
Definition take_pending (i : nat) s : option (PendingTx.t * st) :=
  match vec_swap_remove (pending s) i with
  | Some (e, ps) => Some (e, set_pending ps s)
  | None => None
  end.

Definition due_retry (tnow : Z) (p : PendingTx.t) : bool :=
  from_option (Instant.has_reached tnow) false (PendingTx.retry_at p).
Definition expired_wait (tnow : Z) (p : PendingTx.t) : bool :=
  PendingTx.awaiting_route p
  && Instant.has_reached tnow (Instant.saturating_add (PendingTx.created p) constants.ROUTE_DISCOVERY_TIME).

(** The confirm of a frame of the layer above whose route was not found. *)
Definition own_data (p : PendingTx.t) : bool :=
  TxKind.is_data (PendingTx.kind p) && negb (is_some (PendingTx.relayed_from p)).
Definition route_failed (p : PendingTx.t) s : st :=
  push_event (NwkEvent.DataConfirm (PendingTx.id p) NwkStatus.RouteDiscoveryFailed) s.

(** The loops over the queue: an entry that [step] selects is taken out with
    [swap_remove] and handled, which may put frames back at the end; the index
    moves on past the others.  [None] is a loop that is still running. *)
Fixpoint walk (step : PendingTx.t → option (PendingTx.t → st → st)) (fuel i : nat) s : option st :=
  match fuel with
  | 0%nat => None
  | S fuel =>
      match pending s !! i with
      | None => Some s
      | Some p =>
          match step p with
          | Some handle => '(entry, s) ← take_pending i s; walk step fuel i (handle entry s)
          | None => walk step fuel (S i) s
          end
      end
  end.

Definition service_step (tnow : Z) (p : PendingTx.t) : option (PendingTx.t → st → st) :=
  if due_retry tnow p then Some (λ entry s, ignore (transmit_pending entry) s)
  else if expired_wait tnow p then
    Some (λ entry s,
      let s := bump NwkStats.F_no_route s in if own_data entry then route_failed entry s else s)
  else None.

Definition service_pending (fuel : nat) (tnow : Z) s : option st := walk (service_step tnow) fuel 0 s.

Definition waits_for (dst : Z) (p : PendingTx.t) : bool := PendingTx.awaiting_route p && (PendingTx.dst p =? dst).

Definition release_step (dst : Z) (p : PendingTx.t) : option (PendingTx.t → st → st) :=
  if waits_for dst p then Some (λ entry s, ignore (enqueue_unicast entry) s) else None.

Definition release_waiting (fuel : nat) (dst : Z) s : option st := walk (release_step dst) fuel 0 s.

Definition fail_step (dst : Z) (p : PendingTx.t) : option (PendingTx.t → st → st) :=
  if waits_for dst p then
    Some (λ entry s,
      if own_data entry then route_failed entry s
      else match PendingTx.relayed_from entry with
           | Some src => send_network_status src dst NetworkStatusCode.LinkFailure s
           | None => s
           end)
  else None.

Definition fail_waiting (fuel : nat) (dst : Z) s : option st := walk (fail_step dst) fuel 0 s.

Definition minimum (l : list Z) : option Z :=
  foldl (λ m x, Some (match m with None => x | Some y => Z.min y x end)) None l.

Definition pending_deadline s : option Z :=
  minimum (omap (λ p,
    match PendingTx.retry_at p with
    | Some t => Some t
    | None =>
        if PendingTx.awaiting_route p
        then Some (Instant.saturating_add (PendingTx.created p) constants.ROUTE_DISCOVERY_TIME) else None
    end) (pending s)).

Definition routing_deadline s : option Z :=
  match minimum (PendingRreq.due <$> pending_rreq s), RouteDiscoveryTable.next_expiry (rdt s) with
  | Some x, Some y => Some (Z.min x y)
  | x, None => x
  | None, y => y
  end.

Definition add_route (dst next_hop : Z) s : bool * st :=
  let '(r, t) := RoutingTable.insert (routes s)
    (RouteEntry.new dst next_hop RouteStatus.Active (Nib.router_age_limit (nib s))) in
  (is_some r, set_routes t s).
End tx.
End Tx.
