(* ===== verification/NwkPending.v ===== *)
(** * The queue of unicasts of the network layer

    What the loops over [pending] do: the release of the frames that wait for a
    route ends, and leaves none waiting, as long as the frame counter has a
    reserve for them; without one it puts every frame back where it looks next,
    and never ends.  The timer's pass over the queue always ends. *)

From S2P Require Import Prelude Types Status Codec Heapless FrameCounter AuxHeader Ccm SecFrame Keys NwkSecurity NwkFrame Routing NwkTables NwkCommand NwkNeighbor NwkState NwkTx.
Import Nwk.

#[export] Instance list_filter_Permutation {A} (f : A → bool) : Proper ((≡ₚ) ==> (≡ₚ)) (List.filter f).
Proof.
  intros l1 l2 Hl. induction Hl as [|x l1 l2 _ IH|x y l|l1 l2 l3 _ IH1 _ IH2]; simpl.
  - done.
  - by destruct (f x); [constructor|].
  - destruct (f x), (f y); try done. constructor.
  - by trans (List.filter f l2).
Qed.

(** [swap_remove(i)] leaves the elements in front of [i] alone; those behind are
    the ones that were behind, in some order. *)
Lemma swap_remove_split {Hv : Heapless} {A} (l : list A) (i : nat) (x : A) :
  l !! i = Some x →
  ∃ l', vec_swap_remove l i = Some (x, l') ∧ take i l' = take i l ∧ drop i l' ≡ₚ drop (S i) l.
Proof.
  intros Hi. assert (l ≠ []) as Hne by (intros ->; done).
  destruct (exists_last Hne) as (m & y & ->).
  erewrite vec_swap_remove_spec; [|done|by rewrite last_snoc].
  eexists. split; [done|]. rewrite length_app. simpl.
  replace (length m + 1 - 1)%nat with (length m) by lia. rewrite take_app_length.
  destruct (decide (i < length m)%nat) as [Hlt|Hge].
  - rewrite insert_take_drop by done.
    assert (length (take i m) = i) as Ht by (rewrite length_take; lia).
    rewrite take_app_length', drop_app_length' by done. rewrite take_app_le, drop_app_le by lia.
    split; [done|]. apply Permutation_cons_append.
  - rewrite list_insert_ge by lia. rewrite lookup_app_r in Hi by lia.
    assert (i = length m) as -> by (destruct (i - length m)%nat eqn:?; [lia|done]).
    split; [by rewrite take_app_length, firstn_all|].
    rewrite drop_all, drop_ge; [done|]. rewrite length_app. simpl. lia.
Qed.

Lemma list_sum_bound {A} (w : A → nat) (k : nat) (l : list A) :
  (∀ x, w x ≤ k)%nat → (list_sum (w <$> l) ≤ k * length l)%nat.
Proof.
  intros Hw. induction l as [|x l IH]; [simpl; lia|]. rewrite fmap_cons. cbn [list_sum foldr length].
  change (foldr Nat.add 0%nat ?x) with (list_sum x). specialize (Hw x). lia.
Qed.

Section walk.
Context {C R : Type} {D : NwkDims.t} `{!BlockCipher C} {Hrng : Rng R} {Hfair : FairRng R} {Hv : Heapless}.
Abbreviation st := (Nwk.t C R D).
Implicit Types (s : st) (p : PendingTx.t).

Lemma take_pending_split s i p :
  pending s !! i = Some p →
  ∃ ps, Tx.take_pending i s = Some (p, set_pending ps s) ∧ pending s ≡ₚ p :: ps ∧
    take i ps = take i (pending s) ∧ drop i ps ≡ₚ drop (S i) (pending s).
Proof.
  intros Hi. destruct (swap_remove_split _ _ _ Hi) as (ps & Hr & Ht & Hd). exists ps.
  unfold Tx.take_pending. rewrite Hr. split_and!; [done| |done|done].
  rewrite <- (take_drop i ps), Ht, Hd. rewrite <- (take_drop_middle _ _ _ Hi) at 1. by rewrite Permutation_middle.
Qed.

Variable step : PendingTx.t → option (PendingTx.t → st → st).
Variable Inv : st → Prop.

Section ends.
Variable weight : PendingTx.t → nat.
Hypothesis weight_pos : ∀ p, (0 < weight p)%nat.

(** Every entry the loop handles is replaced by lighter ones. *)
Hypothesis handled : ∀ s p h ps,
  Inv s → pending s ≡ₚ p :: ps → step p = Some h →
  ∃ l, pending (h p (set_pending ps s)) = ps ++ l ∧ (list_sum (weight <$> l) < weight p)%nat ∧
    Inv (h p (set_pending ps s)).

Lemma walk_ends fuel i s :
  Inv s → Forall (λ p, step p = None) (take i (pending s)) →
  (list_sum (weight <$> drop i (pending s)) < fuel)%nat →
  ∃ s', Tx.walk step fuel i s = Some s' ∧ Inv s' ∧ Forall (λ p, step p = None) (pending s').
Proof.
  revert i s. induction fuel as [|fuel IH]; intros i s Hinv Hdone Hfuel; [lia|].
  cbn [Tx.walk]. destruct (pending s !! i) as [p|] eqn:Hi.
  - pose proof (weight_pos p). rewrite (drop_S _ _ _ Hi) in Hfuel. cbn [fmap list_fmap list_sum foldr] in Hfuel.
    change (foldr Nat.add 0%nat ?l) with (list_sum l) in Hfuel. destruct (step p) as [h|] eqn:Hs.
    + destruct (take_pending_split s i p Hi) as (ps & -> & Hp & Ht & Hd). cbn.
      destruct (handled s p h ps Hinv Hp Hs) as (l & Hl & Hw & Hinv').
      assert (i ≤ length ps)%nat as Hlen.
      { apply Permutation_length in Hp. apply lookup_lt_Some in Hi. simpl in Hp. lia. }
      apply IH; [done| |]; rewrite Hl.
      * rewrite take_app_le by done. by rewrite Ht.
      * rewrite drop_app_le, fmap_app, list_sum_app by done. rewrite Hd. lia.
    + apply IH; [done| |]; [|lia]. rewrite (take_S_r _ _ _ Hi). by apply Forall_app_2; [|repeat constructor].
  - exists s. split_and!; [done..|]. apply lookup_ge_None in Hi. by rewrite take_ge in Hdone.
Qed.
End ends.

Section runs.
Variable stuck : PendingTx.t → Prop.
Hypothesis stuck_selected : ∀ p, stuck p → is_Some (step p).

(** A stuck entry that is handled leaves a stuck entry behind. *)
Hypothesis handled : ∀ s p h ps,
  Inv s → pending s ≡ₚ p :: ps → step p = Some h →
  ∃ l, pending (h p (set_pending ps s)) = ps ++ l ∧ (stuck p → Exists stuck l) ∧ Inv (h p (set_pending ps s)).

Lemma walk_runs fuel i s :
  Inv s → Exists stuck (drop i (pending s)) → Tx.walk step fuel i s = None.
Proof.
  revert i s. induction fuel as [|fuel IH]; intros i s Hinv Hex; [done|].
  cbn [Tx.walk]. destruct (pending s !! i) as [p|] eqn:Hi.
  - rewrite (drop_S _ _ _ Hi) in Hex. destruct (step p) as [h|] eqn:Hs.
    + destruct (take_pending_split s i p Hi) as (ps & -> & Hp & Ht & Hd). cbn.
      destruct (handled s p h ps Hinv Hp Hs) as (l & Hl & Hst & Hinv').
      assert (i ≤ length ps)%nat as Hlen.
      { apply Permutation_length in Hp. apply lookup_lt_Some in Hi. simpl in Hp. lia. }
      apply IH; [done|]. rewrite Hl, drop_app_le by done. apply Exists_app.
      apply Exists_cons in Hex as [Hp'|Hex]; [by right; apply Hst|left]. by rewrite Hd.
    + apply IH; [done|]. apply Exists_cons in Hex as [Hp|]; [|done]. apply stuck_selected in Hp as [? ?]. congruence.
  - apply lookup_ge_None in Hi. rewrite drop_ge in Hex by done. by apply Exists_nil in Hex.
Qed.
End runs.
End walk.

(** ** What a transmission leaves alone *)

Section footprint.
Context {C R : Type} {D : NwkDims.t} `{!BlockCipher C} {Hrng : Rng R} {Hfair : FairRng R} {Hv : Heapless}.
Abbreviation st := (Nwk.t C R D).
Implicit Types (s : st) (p : PendingTx.t).

Definition counter s : OutgoingCounter.t := NetworkKeys.outgoing (NwkSecurity.keys (security s)).

(** The values that can still be used before a reservation is committed. *)
Definition reserve s : Z := OutgoingCounter.reserved_until (counter s) - OutgoingCounter.next (counter s).

(** The reserve is used up, but not the counter, and there is a key. *)
Definition stalled s : Prop :=
  is_Some (NetworkKeys.active_sequence (NwkSecurity.keys (security s))) ∧
  OutgoingCounter.next (counter s) ≠ u32_max ∧ reserve s ≤ 0.

Lemma nwk_cipher_for_keys {K} (sec : NwkSecurity.t C K) seq : NwkSecurity.keys (NwkSecurity.cipher_for sec seq).2 = NwkSecurity.keys sec.
Proof. unfold NwkSecurity.cipher_for. by repeat case_match. Qed.

Lemma protect_error cipher aux src buf hl pl : (protect_in_place cipher aux src buf hl pl).1 ≠ Err SecFrameCounter.
Proof.
  unfold protect_in_place. repeat first [case_match | progress cbn [fst] | done];
    intros E; simplify_eq; repeat case_match; simplify_eq; unfold map_err in *; repeat case_match; simplify_eq.
Qed.

(** Securing a frame takes one value of the reserve, or none. *)
Lemma secure_outgoing_counter {K} (sec sec' : NwkSecurity.t C K) buf hl pl level ieee r out :
  NwkSecurity.secure_outgoing sec buf hl pl level ieee = (r, out, sec') →
  let o := NetworkKeys.outgoing (NwkSecurity.keys sec) in
  let o' := NetworkKeys.outgoing (NwkSecurity.keys sec') in
  let low := OutgoingCounter.next o = u32_max ∨ OutgoingCounter.reserved_until o ≤ OutgoingCounter.next o in
  NetworkKeys.active_sequence (NwkSecurity.keys sec') = NetworkKeys.active_sequence (NwkSecurity.keys sec) ∧
  OutgoingCounter.reserved_until o' = OutgoingCounter.reserved_until o ∧
  OutgoingCounter.next o ≤ OutgoingCounter.next o' ≤ OutgoingCounter.next o + 1 ∧
  match r with
  | Err SecFrameCounter => is_Some (NetworkKeys.active_sequence (NwkSecurity.keys sec)) ∧ o' = o ∧ low
  | _ => is_Some (NetworkKeys.active_sequence (NwkSecurity.keys sec)) → ~ low
  end.
Proof.
  unfold NwkSecurity.secure_outgoing. destruct (NetworkKeys.active_sequence _) as [seq|] eqn:Ha.
  2: { intros [= <- <- <-]. rewrite Ha. split_and!; [done..|lia|lia|by intros []]. }
  unfold OutgoingCounter.allocate. set (o := NetworkKeys.outgoing (NwkSecurity.keys sec)).
  destruct (Z.eqb_spec (OutgoingCounter.next o) u32_max) as [Hm|Hm]; [|destruct (Z.leb_spec (OutgoingCounter.reserved_until o) (OutgoingCounter.next o)) as [Hl|Hl]].
  1,2: intros [= <- <- <-]; change (NetworkKeys.active_sequence _) with (NetworkKeys.active_sequence (NwkSecurity.keys sec));
    cbn; fold o; rewrite Ha; split_and!; [done..|lia|lia|by eauto|done|by auto].
  destruct (NwkSecurity.cipher_for _ _) as [c s1] eqn:Ec. pose proof (nwk_cipher_for_keys (NwkSecurity.with_outgoing sec
    (OutgoingCounter.mk (OutgoingCounter.next o + 1) (OutgoingCounter.reserved_until o) (OutgoingCounter.window o)
      (OutgoingCounter.margin o) (OutgoingCounter.in_flight o))) seq) as Hk. rewrite Ec in Hk. simpl in Hk.
  destruct c as [cipher|].
  - destruct (protect_in_place _ _ _ _ _ _) as [r' b'] eqn:Ep. pose proof (protect_error cipher
      (AuxHeader.network level (OutgoingCounter.next o) ieee seq) ieee buf hl pl) as He. rewrite Ep in He. simpl in He.
    intros [= <- <- <-]. rewrite Hk. cbn. fold o. rewrite <- Ha. split_and!; [done..|lia|lia|].
    destruct r' as [|[]]; try done; intros _ [?|?]; lia.
  - intros [= <- <- <-]. rewrite Hk. cbn. fold o. rewrite <- Ha. split_and!; [done..|lia|lia|]. intros _ [?|?]; lia.
Qed.

(** A reservation is only ever asked for. *)
Lemma maybe_reserve_spec s :
  ∃ sec acts, Tx.maybe_reserve_counter s = set_actions acts (set_security sec s) ∧
    NetworkKeys.active_sequence (NwkSecurity.keys sec) = NetworkKeys.active_sequence (NwkSecurity.keys (security s)) ∧
    OutgoingCounter.next (NetworkKeys.outgoing (NwkSecurity.keys sec)) = OutgoingCounter.next (counter s) ∧
    OutgoingCounter.reserved_until (NetworkKeys.outgoing (NwkSecurity.keys sec)) = OutgoingCounter.reserved_until (counter s).
Proof.
  unfold Tx.maybe_reserve_counter, NwkSecurity.start_counter_reservation, OutgoingCounter.start_reservation, counter.
  destruct (OutgoingCounter.needs_reservation _).
  - eexists _, _. split; [reflexivity|]. done.
  - exists (NwkSecurity.with_outgoing (security s) (NetworkKeys.outgoing (NwkSecurity.keys (security s)))), (actions s).
    split; [by destruct s|]. done.
Qed.

(** From [s] to [s'] at most [n] values of the counter were used. *)
Record uses_at_most (n : Z) s s' : Prop := {
  same_key : NetworkKeys.active_sequence (NwkSecurity.keys (security s')) = NetworkKeys.active_sequence (NwkSecurity.keys (security s));
  same_bound : OutgoingCounter.reserved_until (counter s') = OutgoingCounter.reserved_until (counter s);
  used : OutgoingCounter.next (counter s) ≤ OutgoingCounter.next (counter s') ≤ OutgoingCounter.next (counter s) + n
}.

Lemma uses_at_most_refl s n : 0 ≤ n → uses_at_most n s s.
Proof. intros Hn. split; [done..|lia]. Qed.

Lemma uses_at_most_trans m n s1 s2 s3 :
  uses_at_most m s1 s2 → uses_at_most n s2 s3 → uses_at_most (m + n) s1 s3.
Proof. intros [H1 H2 H3] [H4 H5 H6]. split; [congruence|congruence|lia]. Qed.

(** The counter moves with the security material alone. *)
Lemma uses_at_most_security n s1 s2 s3 s4 :
  security s1 = security s3 → security s2 = security s4 → uses_at_most n s1 s2 → uses_at_most n s3 s4.
Proof. intros E1 E2 [H1 H2 H3]. unfold counter in *. rewrite E1, E2 in *. done. Qed.

Lemma uses_none n s s' : 0 ≤ n → security s' = security s → uses_at_most n s s'.
Proof. intros Hn E. eapply uses_at_most_security; [reflexivity|exact (eq_sym E)|by apply uses_at_most_refl]. Qed.

Lemma stalled_kept s s' : stalled s → uses_at_most 1 s s' → OutgoingCounter.next (counter s') = OutgoingCounter.next (counter s) → stalled s'.
Proof. intros (Ha & Hn & Hr) [Hk Hu _] E. split_and!; [by rewrite Hk|congruence|]. unfold reserve in *. lia. Qed.

Lemma room_error f hl al ml e : Tx.secured_room f hl al ml = Err e → e = NwkError.FrameTooLong.
Proof. unfold Tx.secured_room. repeat case_match; congruence. Qed.

Lemma finalize_spec f hl secure s r s' :
  Tx.finalize_frame f hl secure s = (r, s') →
  (∃ sec acts, s' = set_actions acts (set_security sec s)) ∧ uses_at_most 1 s s' ∧
  (r = Err NwkError.CounterPending → reserve s ≤ 0) ∧
  (stalled s → stalled s' ∧
     (secure = true →
      (∃ out, Tx.secured_room f hl NwkSecurity.aux_header_len (SecurityLevel.mic_len (Nib.security_level (nib s))) = Ok out) →
      r = Err NwkError.CounterPending)).
Proof.
  unfold Tx.finalize_frame. destruct secure; cbn [negb].
  2: { intros [= <- <-]. split_and!; [exists (security s), (actions s); by destruct s|by apply uses_at_most_refl| |by auto].
       unfold ok_or. by case_match. }
  destruct (Tx.secured_room _ _ _ _) as [out|e] eqn:Er.
  2: { intros [= <- <-]. apply room_error in Er as ->.
       split_and!; [exists (security s), (actions s); by destruct s|by apply uses_at_most_refl|done|].
       intros Hs. split; [done|]. by intros _ [? [=]]. }
  destruct (NwkSecurity.secure_outgoing _ _ _ _ _ _) as [[r1 out1] sec] eqn:Es.
  apply secure_outgoing_counter in Es as (Ha & Hu & Hn & Hr). fold (counter s) in Hu, Hn, Hr.
  destruct (maybe_reserve_spec (set_security sec s)) as (sec2 & acts & Em & Ha2 & Hn2 & Hu2).
  assert (uses_at_most 1 s (Tx.maybe_reserve_counter (set_security sec s))) as Huse.
  { rewrite Em. split; unfold counter in *; cbn in *; [congruence|congruence|]. rewrite Hn2. exact Hn. }
  destruct r1 as [n|e1]; [|destruct e1].
  2: { destruct Hr as (Hk & Ho & Hlow). rewrite Em. rewrite Em in Huse.
       assert (OutgoingCounter.next (counter (set_actions acts (set_security sec2 (set_security sec s)))) =
         OutgoingCounter.next (counter s)) as Hnx by (unfold counter in *; cbn in *; congruence).
       cbn [security set_actions set_security]. fold (counter (set_security sec2 s)). unfold OutgoingCounter.peek.
       change (OutgoingCounter.next (NetworkKeys.outgoing (NwkSecurity.keys sec2))) with
         (OutgoingCounter.next (counter (set_actions acts (set_security sec2 (set_security sec s))))). rewrite Hnx.
       destruct (Z.eqb_spec (OutgoingCounter.next (counter s)) u32_max) as [Hm|Hm]; intros [= <- <-];
         (split_and!; [by exists sec2, acts|done| |]).
       - done.
       - intros (_ & ? & _). done.
       - intros _. unfold reserve. destruct Hlow; [done|lia].
       - intros Hs. split; [by eapply stalled_kept|done]. }
  all: intros [= <- <-]; (split_and!; [|try exact Huse|done|]).
  all: try (intros (Hk & Hmax & Hres); exfalso; apply Hr; [done|right; unfold reserve in Hres; lia]).
  all: try (rewrite Em; by exists sec2, acts).
  all: try (by exists sec, (actions s)).
  all: unfold counter in *; by split.
Qed.
(** What routing decisions and the broadcast table are. *)
Definition core s := (btt s, neighbors s, routes s, rx_link s, now s, config s, Nib.set_tx_total 0 (nib s)).

Lemma track_pending_spec e s :
  ∃ l w, Tx.track_pending e s =
    (if (length (pending s) <? NwkDims.PendingTx D)%nat then Ok tt else Err NwkError.Busy,
     set_stats w (set_pending (pending s ++ l) s)) ∧
    l = if (length (pending s) <? NwkDims.PendingTx D)%nat then [e] else [].
Proof.
  unfold Tx.track_pending. destruct (Nat.ltb_spec (length (pending s)) (NwkDims.PendingTx D)) as [Hl|Hl].
  - rewrite vec_push_room by done. eexists _, _. split; [|reflexivity]. reflexivity.
  - rewrite vec_push_full by done. eexists _, _. split; [|reflexivity]. by rewrite app_nil_r.
Qed.

(** An entry handed to the MAC, and one that waits for a counter value. *)
Definition sent (e p : PendingTx.t) : Prop :=
  PendingTx.awaiting_route p = false ∧ PendingTx.retry_at p = None ∧ PendingTx.dst p = PendingTx.dst e.
Definition parked (t : Z) (e : PendingTx.t) : PendingTx.t :=
  PendingTx.set_retry_at (Some (Instant.saturating_add t Tx.COUNTER_RETRY_DELAY)) (PendingTx.set_mac_handle None e).

Record transmits (e : PendingTx.t) s s' (l : list PendingTx.t) : Prop := {
  tr_pending : pending s' = pending s ++ l;
  tr_at_most_one : (length l ≤ 1)%nat;
  tr_core : core s' = core s;
  tr_counter : uses_at_most 1 s s';
  tr_stalled : stalled s → stalled s';
  tr_entry : Forall (λ p, sent e p ∨ reserve s ≤ 0 ∧ p = parked (now s) e) l
}.

(** A step that only touches what [transmits] does not mention, then the queue. *)
Lemma transmits_track e e' s s1 r s2 :
  core s1 = core s → uses_at_most 1 s s1 → (stalled s → stalled s1) → pending s1 = pending s →
  sent e e' ∨ reserve s ≤ 0 ∧ e' = parked (now s) e →
  Tx.track_pending e' s1 = (r, s2) →
  ∃ l, transmits e s s2 l ∧ ((length (pending s) < NwkDims.PendingTx D)%nat → l = [e'] ∧ r = Ok tt).
Proof.
  intros Hc Hu Hs Hp He. destruct (track_pending_spec e' s1) as (l & w & -> & Hl). intros [= <- <-].
  exists l. rewrite Hp in Hl. split; [split|].
  - cbn. by rewrite Hp.
  - subst l. destruct (_ <? _)%nat; simpl; lia.
  - by rewrite <- Hc.
  - by eapply uses_at_most_security; [| |exact Hu].
  - exact Hs.
  - subst l. destruct (_ <? _)%nat; [by apply Forall_singleton|constructor].
  - intros Hlt%Nat.ltb_lt. by rewrite Hl, Hp, Hlt.
Qed.

(** The bookkeeping after the queue. *)
Lemma transmits_after e s s1 s2 l :
  transmits e s s1 l → core s2 = core s1 → security s2 = security s1 → pending s2 = pending s1 → transmits e s s2 l.
Proof.
  intros [H1 H2 H3 H4 H5 H6] Hc Hs Hp. split; [congruence|done|congruence| | |done].
  - by eapply uses_at_most_security; [| |exact H4].
  - intros Hst%H5. unfold stalled, reserve, counter in *. by rewrite Hs.
Qed.

Lemma alloc_core s : core (Tx.alloc_mac_handle s).2 = core s.
Proof. reflexivity. Qed.

Lemma transmit_spec e s r s' :
  Tx.transmit_pending e s = (r, s') →
  ∃ l, transmits e s s' l ∧
    (stalled s → (length (pending s) < NwkDims.PendingTx D)%nat → Tx.link_to s (PendingTx.next_hop e) = None →
     PendingTx.indirect e = false → PendingTx.secure e = true →
     (∃ out, Tx.secured_room (PendingTx.frame e) (PendingTx.header_len e) NwkSecurity.aux_header_len
        (SecurityLevel.mic_len (Nib.security_level (nib s))) = Ok out) → l = [parked (now s) e]).
Proof.
  assert (∀ s, transmits e s s []) as Hnone.
  { intros s0. split; [by rewrite app_nil_r|simpl; lia|done|by apply uses_at_most_refl|done|constructor]. }
  unfold Tx.transmit_pending. destruct (Tx.link_to s (PendingTx.next_hop e)) as [link|].
  - destruct (Tx.link_copy _) as [f|]; [|intros [= <- <-]; exists []; split; [apply Hnone|done]].
    cbn [Tx.alloc_mac_handle]. destruct (Tx.track_pending _ _) as [r1 s1] eqn:Et.
    eapply (transmits_track e _ s) in Et as (l & Hl & _); [|done|by apply uses_none|done|done|by left].
    destruct r1; intros [= <- <-]; exists l; (split; [|done]); [by eapply transmits_after|done].
  - destruct (PendingTx.indirect e) eqn:Hind.
    { cbn [Tx.alloc_mac_handle]. destruct (Tx.track_pending _ _) as [r1 s1] eqn:Et.
      eapply (transmits_track e _ s) in Et as (l & Hl & _); [|done|by apply uses_none|done|done|by left].
      destruct r1; intros [= <- <-]; exists l; (split; [|done]); [by eapply transmits_after|done]. }
    destruct (Tx.finalize_frame _ _ _ _) as [r1 s1] eqn:Ef. pose proof Ef as (Hset & Huse & Hcp & Hst)%finalize_spec.
    assert (core s1 = core s ∧ pending s1 = pending s ∧ now s1 = now s) as (Hc & Hp & Hn).
    { destruct Hset as (? & ? & ->). done. }
    destruct r1 as [on_air|err].
    + cbn [Tx.alloc_mac_handle]. destruct (Tx.track_pending _ _) as [r2 s2] eqn:Et.
      eapply (transmits_track e _ s) in Et as (l & Hl & _).
      2: exact Hc. 2: by eapply uses_at_most_security; [| |exact Huse]. 2: by intros [? _]%Hst. 2: done. 2: by left.
      destruct r2; intros [= <- <-]; exists l; (split; [by eapply transmits_after|]);
        intros Hs _ _ _ Hsec Hroom; destruct (Hst Hs) as [_ Hx]; by specialize (Hx Hsec Hroom).
    + assert (err = NwkError.CounterPending ∨ err ≠ NwkError.CounterPending) as [->|Hne] by (destruct err; auto).
      * intros Et. rewrite <- Hn. eapply (transmits_track e _ s) in Et as (l & Hl & Hone).
        2: exact Hc. 2: exact Huse. 2: by intros [? _]%Hst. 2: done. 2: right; split; [by apply Hcp|by rewrite <- Hn].
        exists l. split; [done|]. intros _ Hlt _ _ _ _. by apply Hone.
      * intros Et. assert (s' = s1) as -> by (destruct err; congruence). exists []. split.
        -- split; [by rewrite app_nil_r|simpl; lia|done|done|by intros [? _]%Hst|constructor].
        -- intros Hs _ _ _ Hsec Hroom. destruct (Hst Hs) as [_ Hx]. specialize (Hx Hsec Hroom). congruence.
Qed.
End footprint.

(** ** The release of waiting frames *)

Section release.
Context {C R : Type} {D : NwkDims.t} `{!BlockCipher C} {Hrng : Rng R} {Hfair : FairRng R} {Hv : Heapless}.
Abbreviation st := (Nwk.t C R D).
Implicit Types (s : st) (p : PendingTx.t).

(** The route to [dst] can be used; [record] says whether it wants a route record. *)
Definition routed (dst : Z) (record : bool → Prop) s : Prop :=
  ∃ e, RoutingTable.get (routes s) dst = Some e ∧ RouteEntry.status e = RouteStatus.Active ∧
    record (RouteEntry.many_to_one e && RouteEntry.route_record_required e).

Lemma get_mut_same {K} (t : RoutingTable.t K) dst f :
  (∀ e, RouteEntry.destination (f e) = RouteEntry.destination e) →
  RoutingTable.get (RoutingTable.get_mut t dst f) dst = f <$> RoutingTable.get t dst.
Proof.
  intros Hf. unfold RoutingTable.get, RoutingTable.get_mut. cbn [RoutingTable.entries].
  apply find_update_first. intros x. unfold RoutingTable.towards. by rewrite Hf.
Qed.

Lemma by_short_mut_Forall {K} (P : NeighborEntry.t → Prop) (t : NeighborTable.t K) h f :
  (∀ n, P n → P (f n)) → Forall P (NeighborTable.entries t) →
  Forall P (NeighborTable.entries (NeighborTable.by_short_mut t h f)).
Proof. apply Forall_update_first. Qed.

(** A router uses a route that is active; choosing it changes usage counts only. *)
Lemma route_active dst discover s d s1 record :
  Nib.is_end_device (nib s) = false → routed dst record s →
  Tx.route_unicast dst discover s = (d, s1) →
  ∃ h n t, (d = Tx.RouteDecision.Direct h ∨ d = Tx.RouteDecision.NextHop h) ∧
    s1 = set_neighbors n (set_routes t s) ∧ routed dst record s1 ∧
    ∀ P : NeighborEntry.t → Prop, (∀ x, P x → P (NeighborUpdate.note_outbound x)) →
      Forall P (NeighborTable.entries (neighbors s)) → Forall P (NeighborTable.entries n).
Proof.
  intros Hed Hr. unfold Tx.route_unicast. rewrite Hed.
  assert (∀ h, (Tx.RouteDecision.Direct h, s) = (d, s1) → ∃ h n t,
    (d = Tx.RouteDecision.Direct h ∨ d = Tx.RouteDecision.NextHop h) ∧
    s1 = set_neighbors n (set_routes t s) ∧ routed dst record s1 ∧
    ∀ P : NeighborEntry.t → Prop, (∀ x, P x → P (NeighborUpdate.note_outbound x)) →
      Forall P (NeighborTable.entries (neighbors s)) → Forall P (NeighborTable.entries n)) as Hdirect.
  { intros h [= <- <-]. exists h, (neighbors s), (routes s). split_and!; [by left|by destruct s|done|done]. }
  case_match; [by eapply Hdirect|]. case_match; [by eapply Hdirect|].
  destruct Hr as (e & He & Hst & Hrec). rewrite He, Hst. intros [= <- <-].
  eexists _, _, _. split_and!; [by right|reflexivity| |by intros P HP; apply by_short_mut_Forall].
  exists (RouteEntry.touch e). cbn [routes set_neighbors set_routes]. rewrite get_mut_same, He by done. done.
Qed.

(** ** It ends when the counter has a reserve *)

Definition waiting dst s : nat := length (List.filter (Tx.waits_for dst) (pending s)).

Record releasable dst s : Prop := {
  re_router : Nib.is_end_device (nib s) = false;
  re_route : routed dst (λ _, True) s;
  re_reserve : 2 * Z.of_nat (waiting dst s) ≤ reserve s
}.

(** What a step of the release keeps, and the frames it adds. *)
Record keeps dst s s' (l : list PendingTx.t) : Prop := {
  ke_pending : pending s' = pending s ++ l;
  ke_router : Nib.is_end_device (nib s') = Nib.is_end_device (nib s);
  ke_route : routed dst (λ _, True) s → routed dst (λ _, True) s';
}.

Lemma keeps_nil dst s s' :
  pending s' = pending s → Nib.is_end_device (nib s') = Nib.is_end_device (nib s) → routes s' = routes s →
  keeps dst s s' [].
Proof. intros H1 H2 H3. split; [by rewrite app_nil_r|done|]. unfold routed. by rewrite H3. Qed.

Lemma transmits_keeps dst e s s' l : transmits e s s' l → keeps dst s s' l.
Proof.
  intros T. pose proof (tr_core _ _ _ _ T) as Hc.
  pose proof (f_equal (λ c, c.1.1.1.1.2) Hc : routes s' = routes s) as Hr.
  split; [apply T|exact (f_equal (λ c, Nib.is_end_device c.2) Hc)|unfold routed; by rewrite Hr].
Qed.

Lemma keeps_trans dst s1 s2 s3 l1 l2 : keeps dst s1 s2 l1 → keeps dst s2 s3 l2 → keeps dst s1 s3 (l1 ++ l2).
Proof. intros [H1 H2 H3] [H4 H5 H6]. split; [by rewrite H4, H1, app_assoc|congruence|auto]. Qed.

Definition not_waiting (l : list PendingTx.t) : Prop := Forall (λ p, PendingTx.awaiting_route p = false) l.

Lemma send_route_record_spec dst s :
  ∃ l, keeps dst s (Tx.send_route_record dst None s) l ∧ (length l ≤ 1)%nat ∧ not_waiting l ∧
    uses_at_most 1 s (Tx.send_route_record dst None s).
Proof.
  unfold Tx.send_route_record. destruct (RoutingTable.get (routes s) dst) as [route|] eqn:He.
  2: { exists []. split_and!; [by apply keeps_nil|simpl; lia|constructor|by apply uses_at_most_refl]. }
  destruct (Tx.next_sequence s) as [seq s1] eqn:Es. unfold Tx.next_sequence in Es. injection Es as <- <-.
  unfold Tx.send_command_unicast. destruct (Tx.build_command _ _) as [[f hl]|e].
  2: { exists []. split_and!; [by apply keeps_nil|simpl; lia|constructor|by apply uses_none]. }
  cbn [Tx.alloc_tx_id]. destruct (Tx.transmit_pending _ _) as [r s2] eqn:Et.
  apply transmit_spec in Et as (l & Hl & _). pose proof Hl as [_ Hone _ Huse _ Hent]. exists l.
  assert (not_waiting l) as Hnw.
  { eapply Forall_impl; [exact Hent|]. intros p [(? & _)|[_ ->]]; done. }
  pose proof (transmits_keeps dst _ _ _ _ Hl) as [H1 H2 H3].
  assert (uses_at_most 1 s s2) as Hu by (by eapply uses_at_most_security; [| |exact Huse]).
  destruct r; (split_and!; [|done|done|by eapply uses_at_most_security; [| |exact Hu]]); (split; [exact H1|exact H2|]).
  - intros Hr. apply H3 in Hr as (e & He' & Hst & _). exists (RouteUpdate.set_record_required false e).
    cbn [routes set_routes]. rewrite get_mut_same, He' by done. done.
  - exact H3.
Qed.

(** With two values in reserve a frame leaves, or is dropped, but does not wait. *)
Lemma send_via_spec dst s h p r s' :
  PendingTx.dst p = dst → 2 ≤ reserve s → Tx.send_via h p s = (r, s') →
  ∃ l, keeps dst s s' l ∧ (length l ≤ 2)%nat ∧ not_waiting l ∧ uses_at_most 2 s s'.
Proof.
  intros Hd Hres. unfold Tx.send_via. set (entry := Tx.for_sleepy s h (PendingTx.set_next_hop h p)).
  assert (PendingTx.dst entry = dst) as -> by (unfold entry, Tx.for_sleepy; by case_match).
  match goal with |- Tx.transmit_pending entry ?s' = _ → _ => set (s2 := s') end.
  assert (∃ l, keeps dst s s2 l ∧ (length l ≤ 1)%nat ∧ not_waiting l ∧ uses_at_most 1 s s2) as (l1 & Hk & Hl & Hw & Hu).
  { unfold s2. case_match; [apply send_route_record_spec|]. exists [].
    split_and!; [by apply keeps_nil|simpl; lia|constructor|by apply uses_at_most_refl]. }
  intros (l2 & Ht & _)%transmit_spec. exists (l1 ++ l2). split_and!.
  - by eapply keeps_trans, transmits_keeps.
  - pose proof (tr_at_most_one _ _ _ _ Ht). rewrite length_app. lia.
  - apply Forall_app_2; [done|]. eapply Forall_impl; [exact (tr_entry _ _ _ _ Ht)|].
    intros q [(? & _)|[Hneg _]]; [done|]. destruct Hu as [_ Hb Hn]. unfold reserve in *. lia.
  - exact (uses_at_most_trans 1 1 _ _ _ Hu (tr_counter _ _ _ _ Ht)).
Qed.

Lemma release_handled dst s p :
  Nib.is_end_device (nib s) = false → routed dst (λ _, True) s → Tx.waits_for dst p = true → 2 ≤ reserve s →
  ∃ l, keeps dst s (Tx.ignore (Tx.enqueue_unicast p) s) l ∧ (length l ≤ 2)%nat ∧ not_waiting l ∧
    uses_at_most 2 s (Tx.ignore (Tx.enqueue_unicast p) s).
Proof.
  intros Hed Hr [Ha Hd]%andb_true_iff Hres. apply Z.eqb_eq in Hd.
  unfold Tx.ignore, Tx.enqueue_unicast. rewrite Hd.
  destruct (Tx.route_unicast _ _ _) as [d s1] eqn:Er.
  destruct (route_active _ _ _ _ _ _ Hed Hr Er) as (h & n & t & Hdec & -> & Hr1 & _).
  set (s1 := set_neighbors n (set_routes t s)) in *.
  destruct (Tx.send_via h p s1) as [r s2] eqn:Ev.
  destruct (send_via_spec dst s1 h p r s2 Hd Hres Ev) as (l & [H1 H2 H3] & Hl & Hw & Hu).
  exists l. replace (match d with _ => _ end.2) with s2 by (by destruct Hdec as [->| ->]; rewrite Ev).
  split_and!; [|done|done|by eapply uses_at_most_security; [| |exact Hu]].
  split; [exact H1|exact H2|by auto].
Qed.

Definition release_weight dst p : nat := if Tx.waits_for dst p then 3 else 1.

Lemma not_waiting_weight dst l : not_waiting l → list_sum (release_weight dst <$> l) = length l.
Proof.
  induction 1 as [|p l Hp _ IH]; [done|]. rewrite fmap_cons. cbn [list_sum foldr length].
  change (foldr Nat.add 0%nat ?x) with (list_sum x). rewrite IH. unfold release_weight, Tx.waits_for. by rewrite Hp.
Qed.

Lemma not_waiting_filter dst l : not_waiting l → List.filter (Tx.waits_for dst) l = [].
Proof. unfold Tx.waits_for. induction 1 as [|p l Hp _ IH]; [done|]. simpl. by rewrite Hp. Qed.

Lemma release_step_lighter dst s p h ps :
  releasable dst s → pending s ≡ₚ p :: ps → Tx.release_step dst p = Some h →
  ∃ l, pending (h p (set_pending ps s)) = ps ++ l ∧
    (list_sum (release_weight dst <$> l) < release_weight dst p)%nat ∧ releasable dst (h p (set_pending ps s)).
Proof.
  intros [Hed Hr Hres] Hp. unfold Tx.release_step. destruct (Tx.waits_for dst p) eqn:Hw; [|done]. intros [= <-].
  assert (waiting dst s = S (length (List.filter (Tx.waits_for dst) ps))) as Hcount.
  { unfold waiting. rewrite Hp. simpl. by rewrite Hw. }
  destruct (release_handled dst (set_pending ps s) p Hed Hr Hw) as (l & [H1 H2 H3] & Hl & Hnw & [_ Hb Hn]).
  { change (reserve (set_pending ps s)) with (reserve s). lia. }
  exists l. split_and!; [exact H1| |].
  - rewrite not_waiting_weight by done. unfold release_weight. rewrite Hw. lia.
  - split; [by rewrite H2|by apply H3|]. unfold waiting. rewrite H1, List.filter_app, (not_waiting_filter dst l Hnw), app_nil_r.
    cbn [pending set_pending]. change (counter (set_pending ps s)) with (counter s) in Hb, Hn. unfold reserve in *. lia.
Qed.
End release.

(** C18. When a route becomes active, the frames that wait for it are released: if the
    frame counter has two values in reserve for each of them (one for the frame,
    one for a route record), the loop ends, within three turns per queued frame,
    and no frame waits for that destination any more. *)
Theorem release_waiting_ends {C R : Type} {D : NwkDims.t} `{!BlockCipher C} {Hrng : Rng R} {Hfair : FairRng R}
    {Hv : Heapless} (dst : Z) (s : Nwk.t C R D) :
  Nib.is_end_device (nib s) = false → routed dst (λ _, True) s →
  2 * Z.of_nat (waiting dst s) ≤ reserve s →
  ∃ s', Tx.release_waiting (S (3 * length (pending s))) dst s = Some s' ∧
    Forall (λ p, Tx.waits_for dst p = false) (pending s').
Proof.
  intros Hed Hr Hres.
  destruct (walk_ends (Tx.release_step dst) (releasable dst) (release_weight dst)
    (λ p, ltac:(unfold release_weight; case_match; lia)) (release_step_lighter dst)
    (S (3 * length (pending s))) 0 s) as (s' & Hs' & _ & Hdone); [done|constructor| |].
  - rewrite drop_0. apply Nat.lt_succ_r, list_sum_bound. intros p. unfold release_weight. case_match; lia.
  - exists s'. split; [done|]. eapply Forall_impl; [exact Hdone|]. intros p. unfold Tx.release_step. by case_match.
Qed.

(** ** Without a reserve it never ends *)

Section spin.
Context {C R : Type} {D : NwkDims.t} `{!BlockCipher C} {Hrng : Rng R} {Hfair : FairRng R} {Hv : Heapless}.
Abbreviation st := (Nwk.t C R D).
Implicit Types (s : st) (p : PendingTx.t).

(** A neighbour that is sent frames by radio, at once. *)
Definition plain (n : NeighborEntry.t) : Prop := NeighborEntry.link n = None ∧ Tx.sleepy_child n = false.

(** The frame fits when it is secured. *)
Definition fits_secured (level : SecurityLevel.t) p : Prop :=
  ∃ out, Tx.secured_room (PendingTx.frame p) (PendingTx.header_len p) NwkSecurity.aux_header_len
    (SecurityLevel.mic_len level) = Ok out.

Definition stuck dst level p : Prop :=
  Tx.waits_for dst p = true ∧ PendingTx.secure p = true ∧ PendingTx.indirect p = false ∧ fits_secured level p.

Record spins dst level s : Prop := {
  sp_router : Nib.is_end_device (nib s) = false;
  sp_level : Nib.security_level (nib s) = level;
  sp_stalled : stalled s;
  sp_link : rx_link s = None;
  sp_plain : Forall plain (NeighborTable.entries (neighbors s));
  sp_route : routed dst (λ r, r = false) s;
  sp_room : (length (pending s) ≤ NwkDims.PendingTx D)%nat
}.

Lemma plain_neighbor s a n :
  Forall plain (NeighborTable.entries (neighbors s)) → NeighborTable.by_short (neighbors s) a = Some n → plain n.
Proof. intros Hp [Hn _]%find_some. rewrite List.Forall_forall in Hp. by apply Hp. Qed.

Lemma plain_link s h :
  Forall plain (NeighborTable.entries (neighbors s)) → rx_link s = None → Tx.link_to s h = None.
Proof.
  intros Hp Hl. unfold Tx.link_to. rewrite Hl.
  destruct (NeighborTable.by_short (neighbors s) h) as [n|] eqn:E; [|done]. cbn.
  by destruct (plain_neighbor _ _ _ Hp E) as [-> _].
Qed.

Lemma plain_awake s h p : Forall plain (NeighborTable.entries (neighbors s)) → Tx.for_sleepy s h p = p.
Proof.
  intros Hp. unfold Tx.for_sleepy. destruct (NeighborTable.by_short (neighbors s) h) as [n|] eqn:E; [|done]. cbn.
  by destruct (plain_neighbor _ _ _ Hp E) as [_ ->].
Qed.

Lemma release_step_spins dst level s p h ps :
  spins dst level s → pending s ≡ₚ p :: ps → Tx.release_step dst p = Some h →
  ∃ l, pending (h p (set_pending ps s)) = ps ++ l ∧ (stuck dst level p → Exists (stuck dst level) l) ∧
    spins dst level (h p (set_pending ps s)).
Proof.
  intros [Hed Hlv Hst Hrx Hpl Hr Hroom] Hp. unfold Tx.release_step.
  destruct (Tx.waits_for dst p) eqn:Hw; [|done]. intros [= <-].
  pose proof Hw as [_ Hd%Z.eqb_eq]%andb_true_iff. apply Permutation_length in Hp. simpl in Hp.
  unfold Tx.ignore, Tx.enqueue_unicast. rewrite Hd.
  destruct (Tx.route_unicast _ _ _) as [d s1] eqn:Er.
  destruct (route_active dst _ (set_pending ps s) d s1 (λ r, r = false) Hed Hr Er) as (a & n & t & Hdec & -> & Hr1 & Hn).
  set (s1 := set_neighbors n (set_routes t (set_pending ps s))) in *.
  assert (Forall plain (NeighborTable.entries (neighbors s1))) as Hpl1 by (by apply Hn; [intros x []|]).
  destruct (Tx.send_via a p s1) as [r s2] eqn:Ev.
  replace (match d with _ => _ end.2) with s2 by (by destruct Hdec as [->| ->]; rewrite Ev).
  unfold Tx.send_via in Ev. rewrite plain_awake in Ev by done.
  change (PendingTx.dst (PendingTx.set_next_hop a p)) with (PendingTx.dst p) in Ev.
  assert (Tx.record_required s1 (PendingTx.dst p) = false) as Hrr.
  { rewrite Hd. destruct Hr1 as (e & He & _ & Hrec). unfold Tx.record_required. by rewrite He. }
  rewrite Hrr, andb_false_r in Ev. pose proof Ev as (l & T & Hone)%transmit_spec. exists l.
  pose proof (tr_core _ _ _ _ T) as Hc.
  pose proof (f_equal (λ c, c.1.1.1.1.1.2) Hc : neighbors s2 = neighbors s1) as E1.
  pose proof (f_equal (λ c, c.1.1.1.1.2) Hc : routes s2 = routes s1) as E2.
  split_and!; [exact (tr_pending _ _ _ _ T)| |split].
  - intros (_ & Hsec & Hind & Hfit). rewrite Hone; [|exact Hst|simpl; lia|by apply plain_link|done|done|].
    + by apply Exists_cons_hd.
    + by rewrite <- Hlv in Hfit.
  - exact (eq_trans (f_equal (λ c, Nib.is_end_device c.2) Hc) Hed).
  - exact (eq_trans (f_equal (λ c, Nib.security_level c.2) Hc) Hlv).
  - apply T. exact Hst.
  - exact (eq_trans (f_equal (λ c, c.1.1.1.2) Hc) Hrx).
  - by rewrite E1.
  - unfold routed. by rewrite E2.
  - rewrite (tr_pending _ _ _ _ T), length_app. pose proof (tr_at_most_one _ _ _ _ T). simpl. lia.
Qed.
End spin.

(** C19. The release of waiting frames can run for ever: when a route becomes
    active while the frame counter waits for a reservation to be committed, a
    secured frame is put back at the end of the queue still marked as waiting for
    the route, and the loop takes it up again.  No number of turns ends it, and
    the commit that would cannot be processed meanwhile. *)
Theorem release_waiting_hangs {C R : Type} {D : NwkDims.t} `{!BlockCipher C} {Hrng : Rng R} {Hfair : FairRng R}
    {Hv : Heapless} (dst : Z) (s : Nwk.t C R D) (p : PendingTx.t) (fuel : nat) :
  Nib.is_end_device (nib s) = false → routed dst (λ r, r = false) s → stalled s →
  rx_link s = None → Forall plain (NeighborTable.entries (neighbors s)) →
  (length (pending s) ≤ NwkDims.PendingTx D)%nat →
  p ∈ pending s → stuck dst (Nib.security_level (nib s)) p →
  Tx.release_waiting fuel dst s = None.
Proof.
  intros Hed Hr Hst Hrx Hpl Hroom Hp Hs.
  apply (walk_runs (Tx.release_step dst) (spins dst (Nib.security_level (nib s))) (stuck dst (Nib.security_level (nib s)))).
  - intros q (Hw & _). unfold Tx.release_step. by rewrite Hw.
  - apply release_step_spins.
  - by split.
  - rewrite drop_0. apply Exists_exists. by exists p.
Qed.

(** A router with the network key, a route to 0x2222 and a frame that waits for it. *)
Definition example_router (committed : list Z) : Nwk.t Z Z (NwkDims.Dims 4 4 2 4) :=
  let s : Nwk.t Z Z (NwkDims.Dims 4 4 2 4) :=
    Tx.new (Nib.set_joined true (Nib.set_network_address 0x1111 (Nib.new LogicalDeviceType.Router 0xAA)))
      NwkConfig.default 0 in
  let s := set_security (NwkSecurity.install_active_key NwkSecurity.new 0 [7]) s in
  let s := foldl (λ s r, Tx.commit_counter_reservation r (Tx.maybe_reserve_counter s)) s committed in
  let s := (Tx.add_route 0x2222 0x3333 s).2 in
  let frame := nwk_header_wire (NwkHeader.new FrameType.Data 0x2222 0x1111 30 1) ++ [1; 2; 3] in
  set_pending [PendingTx.set_awaiting_route true
    (Tx.fresh_entry s 1 frame 8 0x2222 0x2222 3 true false None false TxKind.Data)] s.

Lemma release_waiting_ends_witness :
  ∃ s', Tx.release_waiting 4 0x2222 (example_router [1024]) = Some s' ∧
    Forall (λ p, Tx.waits_for 0x2222 p = false) (pending s').
Proof.
  apply (release_waiting_ends 0x2222 (example_router [1024])); [reflexivity| |vm_compute; congruence].
  eexists. split; [reflexivity|]. by split.
Defined.

Lemma release_waiting_hangs_witness : Tx.release_waiting 1000 0x2222 (example_router []) = None.
Proof.
  eapply (release_waiting_hangs 0x2222 (example_router []) (PendingTx.set_awaiting_route true
    (Tx.fresh_entry (example_router []) 1
       (nwk_header_wire (NwkHeader.new FrameType.Data 0x2222 0x1111 30 1) ++ [1; 2; 3]) 8 0x2222 0x2222 3 true false
       None false TxKind.Data))).
  - reflexivity.
  - eexists. split; [reflexivity|]. by split.
  - split; [by eexists|]. split; [by vm_compute|by vm_compute].
  - reflexivity.
  - constructor.
  - simpl. lia.
  - apply list_elem_of_here.
  - split; [reflexivity|]. split; [reflexivity|]. split; [reflexivity|]. eexists. reflexivity.
Defined.

(** ** The timer's pass *)

Section service.
Context {C R : Type} {D : NwkDims.t} `{!BlockCipher C} {Hrng : Rng R} {Hfair : FairRng R} {Hv : Heapless}.
Abbreviation st := (Nwk.t C R D).
Implicit Types (s : st) (p : PendingTx.t).

Definition service_weight (t : Z) p : nat := if Tx.due_retry t p then 2 else 1.

Lemma parked_not_due t p : t < u64_max → Tx.due_retry t (parked t p) = false.
Proof.
  intros Ht. unfold Tx.due_retry, parked. cbn. unfold Instant.has_reached, Instant.saturating_add, sat_add,
    Tx.COUNTER_RETRY_DELAY, Duration.from_millis. unfold u64_max in Ht. lia.
Qed.

Lemma service_step_lighter t s p h ps :
  t < u64_max → now s = t → pending s ≡ₚ p :: ps → Tx.service_step t p = Some h →
  ∃ l, pending (h p (set_pending ps s)) = ps ++ l ∧ (list_sum (service_weight t <$> l) < service_weight t p)%nat ∧
    now (h p (set_pending ps s)) = t.
Proof.
  intros Ht Hnow _. unfold Tx.service_step. destruct (Tx.due_retry t p) eqn:Hdue.
  - intros [= <-]. unfold Tx.ignore. destruct (Tx.transmit_pending p (set_pending ps s)) as [r s'] eqn:E.
    apply transmit_spec in E as (l & T & _). exists l. cbn [snd].
    split_and!; [apply T| |exact (eq_trans (f_equal (λ c, c.1.1.2) (tr_core _ _ _ _ T)) Hnow)].
    unfold service_weight at 2. rewrite Hdue. pose proof (tr_at_most_one _ _ _ _ T) as Hone.
    destruct (tr_entry _ _ _ _ T) as [|q l Hq _]; [simpl; lia|]. destruct l; [|simpl in Hone; lia].
    simpl. unfold service_weight. replace (Tx.due_retry t q) with false; [lia|]. symmetry.
    destruct Hq as [(_ & Hr & _)|[_ ->]].
    + unfold Tx.due_retry. by rewrite Hr.
    + change (now (set_pending ps s)) with (now s). rewrite Hnow. by apply parked_not_due.
  - destruct (Tx.expired_wait t p); [|done]. intros [= <-]. exists []. rewrite app_nil_r.
    unfold service_weight. rewrite Hdue. simpl. split_and!; [by destruct (Tx.own_data p)|lia|by destruct (Tx.own_data p)].
Qed.
End service.

(** C15. The timer's pass over the queue of unicasts ends, within two turns per
    queued frame, and when it ends no frame in the queue is due for a retry and
    none has waited for a route longer than the discovery time: a frame that
    still cannot be secured is scheduled for later. *)
Theorem service_pending_settles {C R : Type} {D : NwkDims.t} `{!BlockCipher C} {Hrng : Rng R} {Hfair : FairRng R}
    {Hv : Heapless} (s : Nwk.t C R D) :
  now s < u64_max →
  ∃ s', Tx.service_pending (S (2 * length (pending s))) (now s) s = Some s' ∧
    Forall (λ p, Tx.due_retry (now s) p = false ∧ Tx.expired_wait (now s) p = false) (pending s').
Proof.
  intros Hnow.
  destruct (walk_ends (Tx.service_step (now s)) (λ s', now s' = now s) (service_weight (now s))
    (λ p, ltac:(unfold service_weight; case_match; lia))
    (λ s' p h ps, service_step_lighter (now s) s' p h ps Hnow)
    (S (2 * length (pending s))) 0 s) as (s' & Hs' & _ & Hdone); [done|constructor| |].
  - rewrite drop_0. apply Nat.lt_succ_r, list_sum_bound. intros p. unfold service_weight. case_match; lia.
  - exists s'. split; [done|]. eapply Forall_impl; [exact Hdone|]. intros p. unfold Tx.service_step. by repeat case_match.
Qed.

Lemma service_pending_settles_witness :
  ∃ s', Tx.service_pending 3 20000 (set_now 20000 (example_router [])) = Some s' ∧
    Forall (λ p, Tx.due_retry 20000 p = false ∧ Tx.expired_wait 20000 p = false) (pending s').
Proof. by apply (service_pending_settles (set_now 20000 (example_router []))). Defined.
