(* ===== verification/NwkBcast.v ===== *)
(** * The network layer: broadcasts and data requests
    (panweave-nwk/src/layer/bcast.rs, tx.rs, join.rs, rx.rs)

    The broadcast transactions: origination, the copies for Trusted Links and
    sleepy children, reception with its duplicate filter and the relay after a
    jitter, and the timer's retransmissions; the conflict of the device's own
    address, which a broadcast can reveal; and the data request of the layer
    above, which sends a broadcast or queues a unicast. *)

From S2P Require Import Prelude Types Status Codec Heapless FrameCounter AuxHeader Ccm SecFrame Keys NwkSecurity NwkFrame Routing NwkTables NwkCommand NwkNeighbor NwkState NwkTx NwkPending.

Module Bcast.
Import Nwk Tx.

(** Octets of a frame, with the value the code falls back to. *)
Definition octet_or (d : Z) (buf : list Z) (i : nat) : Z := default d (buf !! i).
Definition address_or (d : Z) (buf : list Z) (i : nat) : Z := from_le [octet_or d buf i; octet_or d buf (S i)].

(** Updates of a broadcast transaction record. *)
Definition schedule (next_tx : option Z) (relay_pending : bool) (retries : Z) (r : BroadcastRecord.t) : BroadcastRecord.t :=
  BroadcastRecord.mk (BroadcastRecord.source r) (BroadcastRecord.sequence r) (BroadcastRecord.expires r)
    (BroadcastRecord.awaiting r) retries next_tx relay_pending.
Definition set_next_tx (t : option Z) (r : BroadcastRecord.t) : BroadcastRecord.t :=
  schedule t (BroadcastRecord.relay_pending r) (BroadcastRecord.retries r) r.

Section bcast.
Context {C R : Type} {D : NwkDims.t} `{!BlockCipher C} {Hrng : Rng R} {Hfair : FairRng R} {Hv : Heapless}.
Abbreviation st := (Nwk.t C R D).
Implicit Types s : st.

(** ** layer/rx.rs *)

Definition in_broadcast_group (addr : Z) s : bool :=
  match ShortAddress.kind addr with
  | ShortAddress.BroadcastAll => true
  | ShortAddress.BroadcastRxOnWhenIdle => Nib.rx_on_when_idle (nib s)
  | ShortAddress.BroadcastRouters => Nib.is_router_or_coordinator (nib s)
  | _ => false
  end.

(** ** layer/bcast.rs *)

Definition passive_ack_set (exclude : Z) s : list Z :=
  if negb (NwkConfig.passive_ack (config s)) then []
  else NeighborTable.push_each PASSIVE_ACK_TRACKED []
    (NeighborEntry.short <$> List.filter (λ n,
       negb (NeighborEntry.short n =? exclude) && negb (NeighborEntry.outgoing_cost n =? 0)
       && ShortAddress.is_unicast (NeighborEntry.short n)) (NeighborTable.routers (neighbors s))).

Definition store_broadcast_buf (buf : BroadcastBuf.t) s : st :=
  let mine := BroadcastBuf.of_transaction (BroadcastBuf.source buf) (BroadcastBuf.sequence buf) in
  if is_some (List.find mine (bcast_bufs s)) then set_bcast_bufs (update_first mine (λ _, buf) (bcast_bufs s)) s
  else
    let bs :=
      if vec_is_full (NwkDims.BroadcastBuffers D) (bcast_bufs s) then
        match vec_remove (bcast_bufs s) 0 with Some (_, bs) => bs | None => bcast_bufs s end
      else bcast_bufs s in
    set_bcast_bufs (match vec_push (NwkDims.BroadcastBuffers D) bs buf with Ok bs => bs | Err _ => bs end) s.

Definition drop_broadcast_buf (src sq : Z) s : st :=
  set_bcast_bufs (vec_retain (bcast_bufs s) (λ b, negb (BroadcastBuf.of_transaction src sq b))) s.

(** The Trusted Links of the neighbours, once each, four at most. *)
Definition trusted_links (src : Z) s : list Z :=
  foldl (λ links n,
    match NeighborEntry.link n with
    | Some l =>
        if negb (NeighborEntry.short n =? src) && negb (existsb (Z.eqb l) links)
        then match vec_push 4 links l with Ok links => links | Err _ => links end
        else links
    | None => links
    end) [] (NeighborTable.entries (neighbors s)).

Definition copy_to_links (src : Z) (plaintext : list Z) (secure : bool) s : st :=
  foldl (λ s link,
    match link_copy plaintext with
    | Err _ => s
    | Ok frame =>
        let '(handle, s) := alloc_mac_handle s in
        push_action (NwkAction.TrustedLinkData handle link frame secure) s
    end) s (trusted_links src s).

(** The sleepy children a broadcast to all devices is copied to, eight at most. *)
Definition sleepy_children (src dst : Z) (first : bool) s : list Z :=
  if first && match ShortAddress.kind dst with ShortAddress.BroadcastAll => true | _ => false end then
    NeighborTable.push_each 8 []
      (NeighborEntry.short <$> List.filter (λ n,
         negb (NeighborEntry.rx_on_when_idle n) && negb (NeighborEntry.short n =? src))
         (NeighborTable.end_device_children (neighbors s)))
  else [].

Definition copy_to_child (on_air : list Z) (own : option (list Z * nat * bool)) s (child : Z) : st :=
  match own with
  | Some (plaintext, header_len, secure) =>
      let '(id, s) := alloc_tx_id s in
      ignore (transmit_pending
        (fresh_entry s id plaintext header_len child child 0 secure true None false TxKind.Command)) s
  | None =>
      let '(handle, s) := alloc_mac_handle s in
      push_action (NwkAction.MacData handle child on_air true true) s
  end.

Definition transmit_broadcast (src sq : Z) (on_air : list Z) (dst : Z) (first : bool)
    (own : option (list Z * nat * bool)) s : st :=
  let '(handle, s) := alloc_mac_handle s in
  let s := push_action (NwkAction.MacData handle ShortAddress.BROADCAST_ALL on_air false false) s in
  let s :=
    match own with
    | Some (plaintext, _, secure) => if first then copy_to_links src plaintext secure s else s
    | None => s
    end in
  let s := foldl (copy_to_child on_air own) s (sleepy_children src dst first s) in
  let s := set_btt (BroadcastTransactionTable.get_mut (btt s) src sq (λ r,
    set_next_tx
      (if BroadcastRecord.retries r <? Nib.max_broadcast_retries (nib s)
       then Some (Instant.saturating_add (now s) (Nib.passive_ack_timeout (nib s))) else None) r)) s in
  let mine := BroadcastBuf.of_transaction src sq in
  if is_some (List.find mine (bcast_bufs s)) then
    set_bcast_bufs (update_first mine
      (λ b, BroadcastBuf.mk (BroadcastBuf.source b) (BroadcastBuf.sequence b) on_air None) (bcast_bufs s)) s
  else store_broadcast_buf (BroadcastBuf.mk src sq on_air None) s.

(** A transaction record, live for the broadcast delivery time. *)
Definition fresh_record s (src sq : Z) (awaiting : list Z) (next_tx : option Z) (relay_pending : bool)
    : BroadcastRecord.t :=
  BroadcastRecord.mk src sq (Instant.saturating_add (now s) (Nib.network_broadcast_delivery_time (nib s)))
    awaiting 0 next_tx relay_pending.

Definition insert_record (r : BroadcastRecord.t) s : bool * st :=
  let '(i, t) := BroadcastTransactionTable.insert (btt s) r (now s) in (is_some i, set_btt t s).

Definition originate_broadcast (plaintext : list Z) (header_len : nat) (secure : bool)
    : SE st NwkError.t unit := λ s,
  let src := address_or 0 plaintext 4 in
  let s := bump NwkStats.F_broadcasts_sent s in
  let sq := octet_or 0 plaintext 7 in
  let dst := address_or 0xFF plaintext 2 in
  let link :=
    if Nib.is_end_device (nib s)
    then NeighborTable.by_short (neighbors s) (Nib.parent_address (nib s)) ≫= NeighborEntry.link else None in
  match link with
  | Some link =>
      match link_copy plaintext with
      | Err e => (Err e, s)
      | Ok frame =>
          let '(handle, s) := alloc_mac_handle s in
          (Ok tt, push_action (NwkAction.TrustedLinkData handle link frame secure) s)
      end
  | None =>
      match finalize_frame plaintext header_len secure s with
      | (Err NwkError.CounterPending, s) =>
          if Nib.is_end_device (nib s) then (Err NwkError.Busy, s)
          else
            let record := fresh_record s src sq (passive_ack_set ShortAddress.NO_SHORT_ADDRESS s)
              (Some (Instant.saturating_add (now s) COUNTER_RETRY_DELAY)) true in
            let '(inserted, s) := insert_record record s in
            if negb inserted then (Err NwkError.Busy, s)
            else (Ok tt, store_broadcast_buf (BroadcastBuf.mk src sq [] (Some (plaintext, header_len, secure))) s)
      | (Err e, s) => (Err e, s)
      | (Ok on_air, s) =>
          if Nib.is_end_device (nib s) then
            let '(handle, s) := alloc_mac_handle s in
            (Ok tt, push_action (NwkAction.MacData handle (Nib.parent_address (nib s)) on_air true false) s)
          else
            let record := fresh_record s src sq (passive_ack_set ShortAddress.NO_SHORT_ADDRESS s) None true in
            let '(inserted, s) := insert_record record s in
            if negb inserted then (Err NwkError.Busy, s)
            else (Ok tt, transmit_broadcast src sq on_air dst true (Some (plaintext, header_len, secure)) s)
      end
  end.

(** ** layer/join.rs: a conflict of the device's own address *)

Definition allocate_address s : option Z * st :=
  let in_use a :=
    (a =? Nib.network_address (nib s)) || is_some (NeighborTable.by_short (neighbors s) a)
    || AddressMap.contains_short (address_map s) a in
  let '(a, r) := allocate_stochastic (rng s) in_use in (a, set_rng r s).

Definition broadcast_address_conflict (about : Z) s : st :=
  let '(seq, s) := next_sequence s in
  let header := command_header s ShortAddress.BROADCAST_RX_ON (Nib.network_address (nib s))
    constants.DEFAULT_RADIUS seq in
  match build_command header (NwkCommand.NetworkStatus (NetworkStatus.mk NetworkStatusCode.AddressConflict about [])) with
  | Err _ => s
  | Ok (frame, header_len) =>
      ignore (originate_broadcast frame header_len (NwkConfig.security_enabled (config s))) s
  end.

Definition on_local_address_conflict s : st :=
  if Nib.is_coordinator (nib s) || negb (Nib.is_router_or_coordinator (nib s)) then s
  else
    let old := Nib.network_address (nib s) in
    let '(a, s) := allocate_address s in
    match a with
    | None => s
    | Some a =>
        let s := set_nib (Nib.set_network_address a (nib s)) s in
        let s := push_action (NwkAction.MacSetShortAddress a) s in
        let s := push_action NwkAction.Persist s in
        let s := broadcast_address_conflict old s in
        push_event (NwkEvent.NetworkStatus a NetworkStatusCode.NetworkAddressUpdate) s
    end.

(** ** layer/bcast.rs: reception *)

Definition acknowledge (src sq mac_src : Z) s : st :=
  set_btt (BroadcastTransactionTable.get_mut (btt s) src sq (λ r, BroadcastRecord.passive_ack r mac_src)) s.

(** The relay's copy of the frame: the header and the opened payload, one hop
    less, the security and end device initiator bits cleared. *)
Definition relay_copy (buf : list Z) (header_len payload_start payload_end : nat) (radius : Z) : option (list Z) :=
  plaintext ← vec_extend_from_slice MAX_NPDU [] (default [] (get_range buf 0 header_len));
  plaintext ← vec_extend_from_slice MAX_NPDU plaintext (default [] (get_range buf payload_start payload_end));
  Some (patch_octet 1 (clearing 0x22) (patch_octet 6 (λ _, radius - 1) plaintext)).

(** A started router keeps its copy for a relay after a jitter. *)
Definition relay_later (src sq radius : Z) (buf : list Z) (header_len payload_start payload_end : nat)
    (secured : bool) s : st :=
  if Nib.is_router_or_coordinator (nib s) && Nib.router_started (nib s) && (1 <? radius) then
    match relay_copy buf header_len payload_start payload_end radius with
    | None => s
    | Some plaintext =>
        let '(j, s) := jitter 0 constants.MAX_BROADCAST_JITTER s in
        let due := Instant.saturating_add (now s) j in
        let s := set_btt (BroadcastTransactionTable.get_mut (btt s) src sq (schedule (Some due) true 0)) s in
        let s := store_broadcast_buf (BroadcastBuf.mk src sq [] (Some (plaintext, header_len, secured))) s in
        bump NwkStats.F_broadcasts_relayed s
    end
  else s.

Definition on_broadcast_received (src sq dst radius mac_src : Z) (buf : list Z)
    (header_len payload_start payload_end : nat) (secured : bool) s : bool * st :=
  if negb (in_broadcast_group dst s) then (false, s)
  else if src =? Nib.network_address (nib s) then
    if is_some (BroadcastTransactionTable.get (btt s) src sq) then (false, acknowledge src sq mac_src s)
    else
      let operating_long_enough :=
        from_option (λ t, Instant.has_reached (now s)
          (Instant.saturating_add t (Nib.network_broadcast_delivery_time (nib s)))) false (operating_since s) in
      (false,
       if operating_long_enough && secured && Nib.is_router_or_coordinator (nib s)
       then on_local_address_conflict s else s)
  else if is_some (BroadcastTransactionTable.get (btt s) src sq) then (false, acknowledge src sq mac_src s)
  else if Nib.is_end_device (nib s) then (true, s)
  else
    let '(inserted, s) := insert_record (fresh_record s src sq (passive_ack_set mac_src s) None false) s in
    if negb inserted then (false, s)
    else
      let s := bump NwkStats.F_broadcasts_received s in
      (true, relay_later src sq radius buf header_len payload_start payload_end secured s).

(** ** layer/bcast.rs: the timer *)

(** The transmission of a due record. *)
Definition service_record (tnow : Z) s (key : Z * Z) : st :=
  let '(src, sq) := key in
  match BroadcastTransactionTable.get (btt s) src sq with
  | None => s
  | Some rec =>
      let first := BroadcastRecord.relay_pending rec in
      let on f s := set_btt (BroadcastTransactionTable.get_mut (btt s) src sq f) s in
      if negb first && (BroadcastRecord.fully_acknowledged rec
           || (Nib.max_broadcast_retries (nib s) <=? BroadcastRecord.retries rec))
      then drop_broadcast_buf src sq (on (set_next_tx None) s)
      else
        let s := on (λ r, schedule (BroadcastRecord.next_tx r) false
          (if first then BroadcastRecord.retries r else BroadcastRecord.retries r + 1) r) s in
        let mine := BroadcastBuf.of_transaction src sq in
        let own := List.find mine (bcast_bufs s) ≫= BroadcastBuf.plaintext in
        let send s : st :=
          match BroadcastBuf.frame <$> List.find mine (bcast_bufs s) with
          | Some (b :: frame) =>
              transmit_broadcast src sq (b :: frame) (address_or 0xFF (b :: frame) 2) first own s
          | _ => on (set_next_tx None) s
          end in
        match own with
        | None => send s
        | Some (plain, header_len, secure) =>
            match finalize_frame plain header_len secure s with
            | (Ok on_air, s) =>
                send (set_bcast_bufs (update_first mine
                  (λ b, BroadcastBuf.mk (BroadcastBuf.source b) (BroadcastBuf.sequence b) on_air None)
                  (bcast_bufs s)) s)
            | (Err NwkError.CounterPending, s) =>
                on (λ r, schedule (Some (Instant.saturating_add tnow COUNTER_RETRY_DELAY)) true
                  (BroadcastRecord.retries r) r) s
            | (Err _, s) => drop_broadcast_buf src sq s
            end
        end
  end.

Definition due_record (tnow : Z) (r : BroadcastRecord.t) : bool :=
  from_option (Instant.has_reached tnow) false (BroadcastRecord.next_tx r).

Definition service_broadcasts (tnow : Z) s : st :=
  let due := NeighborTable.push_each 8 []
    ((λ r, (BroadcastRecord.source r, BroadcastRecord.sequence r))
       <$> List.filter (due_record tnow) (BroadcastTransactionTable.records (btt s))) in
  let s := foldl (service_record tnow) s due in
  let s := set_btt (BroadcastTransactionTable.expire (btt s) tnow) s in
  set_bcast_bufs (vec_retain (bcast_bufs s)
    (λ b, is_some (BroadcastTransactionTable.get (btt s) (BroadcastBuf.source b) (BroadcastBuf.sequence b)))) s.

(** ** layer/tx.rs: the data request *)

Definition data_header s (dst src radius seq : Z) (discover_route secure aliased : bool) : NwkHeader.t :=
  let header :=
    NwkHeader.with_discover_route (NwkHeader.secured (NwkHeader.new FrameType.Data dst src radius seq) secure)
      (if discover_route && ShortAddress.is_unicast dst then DiscoverRoute.Enable else DiscoverRoute.Suppress) in
  let header :=
    if Nib.is_end_device (nib s) && negb (Nib.parent_information (nib s) =? 0)
    then NwkHeader.with_end_device_initiator header true else header in
  if negb (Nib.authenticated (nib s)) && negb aliased
  then NwkHeader.with_src_ieee header (Nib.ieee_address (nib s)) else header.

(** The relays of a source route to [dst], and its first hop. *)
Definition source_route_to s (dst : Z) (aliased : bool) : option (list Z * Z) :=
  if NwkConfig.concentrator (config s) && negb aliased then
    sr ← SourceRouteTable.get (source_routes s) dst;
    hop ← last (SourceRouteEntry.relays sr);
    Some (foldl (λ raw r, default raw (vec_extend_from_slice (2 * MAX_SOURCE_ROUTE_RELAYS) raw (to_le 2 r))) []
            (SourceRouteEntry.relays sr), hop)
  else None.

Definition data_request_aliased (dst : Z) (payload : list Z) (radius : option Z) (discover_route secure : bool)
    (alias : option (Z * Z)) : SE st NwkError.t Z := λ s,
  if negb (Nib.joined (nib s)) then (Err NwkError.NotJoined, s)
  else if from_option (λ a, negb (ShortAddress.is_unicast a.1)) false alias then (Err NwkError.InvalidParameter, s)
  else if (dst =? ShortAddress.NO_SHORT_ADDRESS)
          || match ShortAddress.kind dst with ShortAddress.Reserved => true | _ => false end
  then (Err NwkError.InvalidParameter, s)
  else
    let secure := secure && NwkConfig.security_enabled (config s) in
    let radius := Z.max (default constants.DEFAULT_RADIUS radius) 1 in
    let '(src, seq, s) :=
      match alias with
      | Some (a, q) => (a, q, s)
      | None => let '(q, s') := next_sequence s in (Nib.network_address (nib s), q, s')
      end in
    let header := data_header s dst src radius seq discover_route secure (is_some alias) in
    if ShortAddress.is_broadcast dst then
      match build_npdu header payload with
      | Err e => (Err e, s)
      | Ok (frame, header_len) =>
          let '(id, s) := alloc_tx_id s in
          match originate_broadcast frame header_len secure s with
          | (Err e, s) => (Err e, s)
          | (Ok _, s) => (Ok id, push_event (NwkEvent.DataConfirm id NwkStatus.Success) s)
          end
      end
    else
      let '(id, s) := alloc_tx_id s in
      let queue (r : result unit NwkError.t * st) : result Z NwkError.t * st :=
        match r with (Ok _, s) => (Ok id, s) | (Err e, s) => (Err e, s) end in
      match source_route_to s dst (is_some alias) with
      | Some (relays, hop) =>
          let index := sat_sub (let n := Z.of_nat (length relays / 2) in if n <=? u8_max then n else 1) 1 in
          match build_npdu (NwkHeader.with_source_route header index relays) payload with
          | Err e => (Err e, s)
          | Ok (frame, header_len) =>
              queue (transmit_pending (fresh_entry s id frame header_len dst hop constants.UNICAST_RETRIES secure
                false None true TxKind.Data) s)
          end
      | None =>
          match build_npdu header payload with
          | Err e => (Err e, s)
          | Ok (frame, header_len) =>
              queue (enqueue_unicast (fresh_entry s id frame header_len dst dst constants.UNICAST_RETRIES secure
                false None false TxKind.Data) s)
          end
      end.

Definition data_request (dst : Z) (payload : list Z) (radius : option Z) (discover_route secure : bool)
    : SE st NwkError.t Z := data_request_aliased dst payload radius discover_route secure None.
End bcast.
End Bcast.

(** ** No broadcast is processed twice *)

Section once.
Context {C R : Type} {D : NwkDims.t} `{!BlockCipher C} {Hrng : Rng R} {Hfair : FairRng R} {Hv : Heapless}.
Abbreviation st := (Nwk.t C R D).
Implicit Types s : st.
Import Nwk.

(** The ways broadcasts reach and leave the layer. *)
Inductive bcast_event : Type :=
  | Receive (src sq dst radius mac_src : Z) (buf : list Z) (header_len payload_start payload_end : nat) (secured : bool)
  | Originate (plaintext : list Z) (header_len : nat) (secure : bool)
  | Timer.

Definition bcast_run s (e : Z * bcast_event) : st :=
  let '(t, e) := e in
  let s := set_now t s in
  match e with
  | Receive src sq dst radius mac_src buf hl ps pe secured =>
      (Bcast.on_broadcast_received src sq dst radius mac_src buf hl ps pe secured s).2
  | Originate plaintext hl secure => Tx.ignore (Bcast.originate_broadcast plaintext hl secure) s
  | Timer => Bcast.service_broadcasts t s
  end.

Section remembers.
Variables (src sq T : Z).

(** The step keeps the record of the broadcast until its time is over. *)
Definition remembers s s' : Prop :=
  now s' = now s ∧ (now s < T → remembered (btt s) src sq T → remembered (btt s') src sq T).

#[local] Instance remembers_preorder : PreOrder remembers.
Proof. split; [done|]. intros s1 s2 s3 [H1 H2] [H3 H4]. split; [congruence|]. rewrite H1 in H4. auto. Qed.

Lemma remembers_same s s' : now s' = now s → btt s' = btt s → remembers s s'.
Proof. intros H1 H2. split; [done|]. by rewrite H2. Qed.

Lemma remembers_insert r s : remembers s (Bcast.insert_record r s).2.
Proof.
  unfold Bcast.insert_record. destruct (BroadcastTransactionTable.insert _ _ _) as [i t] eqn:E.
  split; [done|]. intros Ht Hr. cbn [snd btt set_btt]. replace t with (bcast_exec (btt s) (now s, BInsert r)) by (by simpl; rewrite E).
  by apply exec_remembered.
Qed.

Lemma remembers_get_mut a b f s :
  (∀ r, BroadcastRecord.source (f r) = BroadcastRecord.source r ∧ BroadcastRecord.sequence (f r) = BroadcastRecord.sequence r ∧
     BroadcastRecord.expires (f r) = BroadcastRecord.expires r) →
  remembers s (set_btt (BroadcastTransactionTable.get_mut (btt s) a b f) s).
Proof.
  intros Hf. split; [done|]. intros _ (r & Hr & Hs & HT).
  apply (update_first_elem (BroadcastTransactionTable.same a b) f) in Hr as [Hr|Hr]; [by exists r|]. exists (f r).
  destruct (Hf r) as (H1 & H2 & H3). split_and!; [done| |congruence].
  unfold BroadcastTransactionTable.same in *. by rewrite H1, H2.
Qed.

Lemma remembers_core s s' : core s' = core s → remembers s s'.
Proof.
  intros Hc. apply remembers_same; [exact (f_equal (λ c, c.1.1.2) Hc)|exact (f_equal (λ c, c.1.1.1.1.1.1) Hc)].
Qed.

Lemma remembers_finalize f hl b s : remembers s (Tx.finalize_frame f hl b s).2.
Proof.
  destruct (Tx.finalize_frame f hl b s) as [r s'] eqn:E. apply finalize_spec in E as ((? & ? & ->) & _). by apply remembers_same.
Qed.

Lemma remembers_transmit e s : remembers s (Tx.transmit_pending e s).2.
Proof.
  destruct (Tx.transmit_pending e s) as [r s'] eqn:E. apply transmit_spec in E as (l & Tr & _).
  by apply remembers_core, Tr.
Qed.

Lemma remembers_store b s : remembers s (Bcast.store_broadcast_buf b s).
Proof. apply remembers_same; unfold Bcast.store_broadcast_buf; by case_match. Qed.

Lemma remembers_foldl {A} (f : st → A → st) l s : (∀ s a, remembers s (f s a)) → remembers s (foldl f s l).
Proof. intros Hf. revert s. induction l as [|a l IH]; intros s; simpl; [done|]. etrans; [apply Hf|apply IH]. Qed.

Lemma remembers_links a f b s : remembers s (Bcast.copy_to_links a f b s).
Proof. apply remembers_foldl. intros s' l. case_match; by apply remembers_same. Qed.

Lemma remembers_child on_air own s child : remembers s (Bcast.copy_to_child on_air own s child).
Proof.
  unfold Bcast.copy_to_child. destruct own as [[[f hl] b]|]; [|by apply remembers_same].
  cbn [Tx.alloc_tx_id]. etrans; [|apply remembers_transmit]. by apply remembers_same.
Qed.

Lemma remembers_broadcast a b on_air dst first own s :
  remembers s (Bcast.transmit_broadcast a b on_air dst first own s).
Proof.
  unfold Bcast.transmit_broadcast. cbn [Tx.alloc_mac_handle].
  set (s1 := Tx.push_action _ _). assert (remembers s s1) as H1 by (by apply remembers_same).
  set (s2 := match own with Some _ => _ | None => _ end).
  assert (remembers s1 s2) as H2 by (unfold s2; repeat case_match; [apply remembers_links|done..]).
  set (s3 := foldl _ _ _). assert (remembers s2 s3) as H3 by (apply remembers_foldl; intros; apply remembers_child).
  set (s4 := set_btt _ _). assert (remembers s3 s4) as H4 by (apply remembers_get_mut; by intros []).
  etrans; [exact H1|]. etrans; [exact H2|]. etrans; [exact H3|]. etrans; [exact H4|].
  case_match; [by apply remembers_same|apply remembers_store].
Qed.

Lemma remembers_originate f hl b s : remembers s (Tx.ignore (Bcast.originate_broadcast f hl b) s).
Proof.
  unfold Tx.ignore, Bcast.originate_broadcast.
  set (s0 := Tx.bump _ _). assert (remembers s s0) as H0 by (by apply remembers_same). etrans; [exact H0|].
  match goal with |- context [match ?l with Some _ => _ | None => match Tx.finalize_frame _ _ _ _ with _ => _ end end] => destruct l as [link|] end.
  { destruct (Tx.link_copy f); [by apply remembers_same|done]. }
  pose proof (remembers_finalize f hl b s0) as H1.
  destruct (Tx.finalize_frame f hl b s0) as [r s1]. cbn [snd] in H1.
  destruct r as [on_air|e]; [|destruct e]; try exact H1.
  - etrans; [exact H1|]. destruct (Nib.is_end_device (nib s1)); [by apply remembers_same|].
    pose proof (remembers_insert (Bcast.fresh_record s1 (Bcast.address_or 0 f 4) (Bcast.octet_or 0 f 7)
      (Bcast.passive_ack_set ShortAddress.NO_SHORT_ADDRESS s1) None true) s1) as H2.
    destruct (Bcast.insert_record _ s1) as [i s2]. cbn [snd] in H2. destruct i; [|exact H2].
    etrans; [exact H2|apply remembers_broadcast].
  - etrans; [exact H1|]. destruct (Nib.is_end_device (nib s1)); [done|].
    pose proof (remembers_insert (Bcast.fresh_record s1 (Bcast.address_or 0 f 4) (Bcast.octet_or 0 f 7)
      (Bcast.passive_ack_set ShortAddress.NO_SHORT_ADDRESS s1)
      (Some (Instant.saturating_add (now s1) Tx.COUNTER_RETRY_DELAY)) true) s1) as H2.
    destruct (Bcast.insert_record _ s1) as [i s2]. cbn [snd] in H2. destruct i; [|exact H2].
    etrans; [exact H2|apply remembers_store].
Qed.

Lemma remembers_conflict s : remembers s (Bcast.on_local_address_conflict s).
Proof.
  unfold Bcast.on_local_address_conflict. case_match; [done|].
  destruct (Bcast.allocate_address s) as [a s1] eqn:E.
  assert (remembers s s1) as H1.
  { unfold Bcast.allocate_address in E. destruct (allocate_stochastic _ _). injection E as _ <-. by apply remembers_same. }
  etrans; [exact H1|]. destruct a as [a|]; [|done].
  etrans; [|by apply remembers_same]. unfold Bcast.broadcast_address_conflict.
  destruct (Tx.next_sequence _) as [q s2] eqn:Eq. unfold Tx.next_sequence in Eq. injection Eq as _ <-.
  case_match; [case_match|]; [|by apply remembers_same]. etrans; [|apply remembers_originate]. by apply remembers_same.
Qed.

Lemma remembers_relay a b radius buf hl ps pe secured s :
  remembers s (Bcast.relay_later a b radius buf hl ps pe secured s).
Proof.
  unfold Bcast.relay_later. destruct (_ && _ && _); [|done]. destruct (Bcast.relay_copy _ _ _ _ _) as [plaintext|]; [|done].
  destruct (Tx.jitter _ _ _) as [j s1] eqn:Ej.
  assert (remembers s s1) as H1.
  { unfold Tx.jitter in Ej. cbv zeta in Ej. destruct (_ =? 0); [injection Ej as _ <-; by apply remembers_same|].
    destruct (below _ _). injection Ej as _ <-. by apply remembers_same. }
  etrans; [exact H1|]. set (s2 := set_btt _ s1).
  assert (remembers s1 s2) as H2 by (apply remembers_get_mut; by intros []).
  etrans; [exact H2|]. etrans; [apply remembers_store|]. by apply remembers_same.
Qed.

Lemma remembers_receive a b dst radius mac buf hl ps pe secured s :
  remembers s (Bcast.on_broadcast_received a b dst radius mac buf hl ps pe secured s).2.
Proof.
  unfold Bcast.on_broadcast_received. destruct (Bcast.in_broadcast_group dst s); [|done]. cbn [negb].
  assert (remembers s (Bcast.acknowledge a b mac s)) as Hack by (apply remembers_get_mut; by intros []).
  destruct (a =? _).
  { destruct (is_some _); [exact Hack|]. cbn [snd]. destruct (_ && _ && _); [apply remembers_conflict|done]. }
  destruct (is_some _); [exact Hack|]. destruct (Nib.is_end_device (nib s)); [done|].
  pose proof (remembers_insert (Bcast.fresh_record s a b (Bcast.passive_ack_set mac s) None false) s) as H2.
  destruct (Bcast.insert_record _ s) as [i s2]. cbn [snd] in H2. etrans; [exact H2|].
  destruct i; [|done]. cbn [negb snd]. etrans; [|apply remembers_relay]. by apply remembers_same.
Qed.

Lemma remembers_record t s key : remembers s (Bcast.service_record t s key).
Proof.
  unfold Bcast.service_record. destruct key as [a b]. destruct (BroadcastTransactionTable.get _ _ _) as [rec|]; [|done].
  cbv zeta. destruct (negb _ && _).
  { etrans; [|by apply remembers_same]. apply remembers_get_mut. by intros []. }
  set (s1 := set_btt _ s). assert (remembers s s1) as H1 by (apply remembers_get_mut; by intros []).
  etrans; [exact H1|]. set (own := List.find _ _ ≫= _). clearbody own.
  assert (∀ s', remembers s' (match BroadcastBuf.frame <$> List.find (BroadcastBuf.of_transaction a b) (bcast_bufs s') with
    | Some (x :: frame) => Bcast.transmit_broadcast a b (x :: frame) (Bcast.address_or 0xFF (x :: frame) 2)
        (BroadcastRecord.relay_pending rec) own s'
    | _ => set_btt (BroadcastTransactionTable.get_mut (btt s') a b (Bcast.set_next_tx None)) s' end)) as Hsend.
  { intros s'. destruct (BroadcastBuf.frame <$> _) as [[|x f]|]; [|apply remembers_broadcast|];
      (apply remembers_get_mut; by intros []). }
  destruct own as [[[plain hl] secure]|]; [|apply Hsend].
  pose proof (remembers_finalize plain hl secure s1) as H2. destruct (Tx.finalize_frame _ _ _ _) as [r s2]. cbn [snd] in H2.
  etrans; [exact H2|]. destruct r as [on_air|[]]; try (by apply remembers_same).
  - etrans; [|apply Hsend]. by apply remembers_same.
  - apply remembers_get_mut. by intros [].
Qed.

Lemma remembers_service s : remembers s (Bcast.service_broadcasts (now s) s).
Proof.
  unfold Bcast.service_broadcasts. set (s1 := foldl _ _ _).
  assert (remembers s s1) as H1 by (apply remembers_foldl; intros; apply remembers_record).
  etrans; [exact H1|]. destruct H1 as [Hnow _]. split; [done|]. intros Ht Hr. rewrite <- Hnow.
  exact (exec_remembered (btt s1) (now s1) BExpire src sq T Ht Hr).
Qed.

Lemma remembers_run s t e : t < T → remembered (btt s) src sq T → remembered (btt (bcast_run s (t, e))) src sq T.
Proof.
  intros Ht Hr. destruct e as [a b dst radius mac buf hl ps pe secured|f hl secure|]; cbn [bcast_run].
  - by apply (remembers_receive a b dst radius mac buf hl ps pe secured (set_now t s)).
  - by apply (remembers_originate f hl secure (set_now t s)).
  - by apply (remembers_service (set_now t s)).
Qed.

Lemma remembers_runs es s :
  Forall (λ e, e.1 < T) es → remembered (btt s) src sq T → remembered (btt (foldl bcast_run s es)) src sq T.
Proof.
  intros Hes. revert s. induction Hes as [|[t e] es Ht Hes IH]; intros s Hs; simpl; [done|]. by apply IH, remembers_run.
Qed.
End remembers.

(** A broadcast that is delivered has a record from then on. *)
Lemma delivered_remembered a b dst radius mac buf hl ps pe secured s s' :
  Nib.is_end_device (nib s) = false →
  Bcast.on_broadcast_received a b dst radius mac buf hl ps pe secured s = (true, s') →
  now s < Instant.saturating_add (now s) (Nib.network_broadcast_delivery_time (nib s)) →
  remembered (btt s') a b (Instant.saturating_add (now s) (Nib.network_broadcast_delivery_time (nib s))).
Proof.
  intros Hed. unfold Bcast.on_broadcast_received. rewrite Hed. destruct (Bcast.in_broadcast_group dst s); [|done]. cbn [negb].
  destruct (a =? _); [by destruct (is_some _)|]. destruct (is_some _); [done|].
  set (r := Bcast.fresh_record s a b (Bcast.passive_ack_set mac s) None false).
  unfold Bcast.insert_record. destruct (BroadcastTransactionTable.insert (btt s) r (now s)) as [i t] eqn:Ei.
  destruct i as [i|]; [|done]. intros [= <-] Hlive.
  apply (remembers_relay a b _ a b radius buf hl ps pe secured (Tx.bump NwkStats.F_broadcasts_received (set_btt t s)));
    [exact Hlive|]. by eapply insert_remembered in Ei.
Qed.

(** A broadcast with a record only counts as an acknowledgement. *)
Lemma duplicate_ignored a b dst radius mac buf hl ps pe secured s T :
  remembered (btt s) a b T →
  ∃ t, Bcast.on_broadcast_received a b dst radius mac buf hl ps pe secured s = (false, set_btt t s).
Proof.
  intros [r Hr]%remembered_get. unfold Bcast.on_broadcast_received. rewrite Hr.
  destruct (Bcast.in_broadcast_group dst s); [|exists (btt s); by destruct s].
  cbn [negb is_some]. destruct (a =? _); by eexists.
Qed.
End once.



(** ** What a relay sends *)

Section relay.
Implicit Types (h : NwkHeader.t) (c : Z).

(** The header of the relayed frame. *)
Definition relayed_header h : NwkHeader.t :=
  let h := NwkHeader.with_end_device_initiator (NwkHeader.secured h false) false in
  NwkHeader.mk (NwkHeader.frame_control h) (NwkHeader.dst h) (NwkHeader.src h) (NwkHeader.radius h - 1)
    (NwkHeader.sequence h) (NwkHeader.dst_ieee h) (NwkHeader.src_ieee h) (NwkHeader.source_route h).

Definition cleared c : Z := FrameControl.with_end_device_initiator (FrameControl.with_security c false) false.

Lemma cleared_bit c i : 0 ≤ i < 16 → Z.testbit (cleared c) i = Z.testbit c i && negb ((i =? 9) || (i =? 13)).
Proof.
  intros Hi. unfold cleared, FrameControl.with_end_device_initiator, FrameControl.with_security,
    FrameControl.END_DEVICE_INITIATOR, FrameControl.SECURITY. rewrite !testbit_with_bit by lia.
  destruct (Z.eqb_spec i 9), (Z.eqb_spec i 13); repeat case_decide; try lia; by rewrite ?andb_true_r, ?andb_false_r.
Qed.

Lemma cleared_uint c : uint 16 c → uint 16 (cleared c).
Proof. intros Hc. apply uint_with_bit; [lia|]. by apply uint_with_bit; [lia|]. Qed.

Lemma clearing_bit b i : 0 ≤ i < 8 → Z.testbit (Tx.clearing 0x22 b) i = Z.testbit b i && negb ((i =? 1) || (i =? 5)).
Proof.
  intros Hi. unfold Tx.clearing. rewrite Z.land_spec. f_equal.
  assert (i = 0 ∨ i = 1 ∨ i = 2 ∨ i = 3 ∨ i = 4 ∨ i = 5 ∨ i = 6 ∨ i = 7) as Hi' by lia.
  by repeat destruct Hi' as [->|Hi']; [..|subst i].
Qed.

(** Clearing bits 1 and 5 of the second octet clears the two flags. *)
Lemma cleared_octets c : uint 16 c → to_le 2 (cleared c) = [c mod 256; Tx.clearing 0x22 (c / 256 mod 256)].
Proof.
  intros Hc. pose proof (cleared_uint c Hc) as Hc'. change (to_le 2 ?n) with [n mod 256; n / 256 mod 256].
  change 256 with (2 ^ 8). rewrite <- !Z.land_ones, <- !Z.shiftr_div_pow2 by lia.
  f_equal; [|f_equal]; apply Z.bits_inj'; intros i Hi.
  - rewrite !Z.land_spec. destruct (decide (i < 8)); [|by rewrite !Z.ones_spec_high, !andb_false_r by lia].
    rewrite cleared_bit by lia. replace (_ || _) with false by lia. by rewrite andb_true_r.
  - destruct (decide (i < 8)).
    + rewrite clearing_bit, !Z.land_spec, !Z.shiftr_spec, !Z.ones_spec_low, cleared_bit, !andb_true_r by lia. f_equal. lia.
    + unfold Tx.clearing. rewrite !Z.land_spec, !Z.ones_spec_high by lia. by rewrite !andb_false_r.
Qed.

Lemma relayed_wf h : nwk_header_wf h → 1 < NwkHeader.radius h → nwk_header_wf (relayed_header h).
Proof.
  intros (Hc & Hfc & Hd & Hs & Hr & Hq & Hrest) Hrad. split.
  - apply (apply_consistent _ (HeaderOp.WithEndDeviceInitiator false)), (apply_consistent _ (HeaderOp.Secured false)), Hc.
  - split; [by apply cleared_uint|]. split; [done|]. split; [done|]. split; [|done]. unfold uint in *. simpl. lia.
Qed.

Lemma relayed_wire h :
  nwk_header_wf h →
  Tx.patch_octet 1 (Tx.clearing 0x22) (Tx.patch_octet 6 (λ _, NwkHeader.radius h - 1) (nwk_header_wire h))
  = nwk_header_wire (relayed_header h).
Proof.
  intros (_ & Hfc & _). unfold nwk_header_wire, relayed_header. cbv zeta.
  cbn [NwkHeader.frame_control NwkHeader.dst NwkHeader.src NwkHeader.radius NwkHeader.sequence NwkHeader.dst_ieee
    NwkHeader.src_ieee NwkHeader.source_route NwkHeader.with_end_device_initiator NwkHeader.secured NwkHeader.with_control].
  fold (cleared (NwkHeader.frame_control h)). rewrite cleared_octets by done.
  change (to_le 2 ?n) with [n mod 256; n / 256 mod 256]. done.
Qed.

Lemma patch_octet_app i f (a b : list Z) : (i < length a)%nat → Tx.patch_octet i f (a ++ b) = Tx.patch_octet i f a ++ b.
Proof. intros Hi. unfold Tx.patch_octet. by rewrite alter_app_l. Qed.

Lemma relay_copy_spec {Hv : Heapless} h mid payload tail :
  nwk_header_wf h → (length (nwk_header_wire h) + length payload ≤ MAX_NPDU)%nat →
  let hl := length (nwk_header_wire h) in
  let ps := (hl + length mid)%nat in
  Bcast.relay_copy (nwk_header_wire h ++ mid ++ payload ++ tail) hl ps (ps + length payload) (NwkHeader.radius h)
  = Some (nwk_header_wire (relayed_header h) ++ payload).
Proof.
  intros Hwf Hfit hl ps. unfold Bcast.relay_copy, ps, hl. set (w := nwk_header_wire h) in *.
  assert (8 ≤ length w)%nat as H8.
  { unfold w, nwk_header_wire. rewrite !length_app, !length_to_le. simpl. lia. }
  rewrite (get_range_Some _ 0) by (rewrite !length_app; lia). rewrite drop_0, Nat.sub_0_r, take_app_length. cbn [from_option id].
  rewrite vec_extend_spec, (proj2 (Nat.leb_le _ _)) by (unfold MAX_NPDU in *; cbn [length]; lia). cbn [mbind option_bind app].
  rewrite get_range_Some by (rewrite !length_app; lia). rewrite (app_assoc w), drop_app_length' by (by rewrite length_app).
  rewrite Nat.add_comm, Nat.add_sub, take_app_length. cbn [from_option id].
  rewrite vec_extend_spec, (proj2 (Nat.leb_le _ _)) by lia. cbn [mbind option_bind]. f_equal.
  rewrite patch_octet_app by lia. rewrite patch_octet_app by (unfold Tx.patch_octet; rewrite length_alter; lia).
  by unfold w; rewrite relayed_wire.
Qed.

Lemma decode_relayed h payload :
  nwk_header_wf h → 1 < NwkHeader.radius h →
  NwkHeader.decode_prefix (nwk_header_wire (relayed_header h) ++ payload)
  = Ok (relayed_header h, length (nwk_header_wire h)).
Proof.
  intros Hwf Hr. pose proof (nwk_header_decodes _ (relayed_wf h Hwf Hr) [] payload) as Hd.
  unfold NwkHeader.decode_prefix, Reader.new. rewrite app_nil_l in Hd. change (length (A:=Z) []) with 0%nat in Hd.
  rewrite Hd. unfold Reader.position. cbn [Reader.pos]. do 2 f_equal.
Qed.
End relay.

Section store.
Context {C R : Type} {D : NwkDims.t} `{!BlockCipher C} {Hrng : Rng R} {Hfair : FairRng R} {Hv : Heapless}.
Implicit Types s : Nwk.t C R D.

(** The buffer stored last is found, whatever was evicted for it. *)
Lemma store_find b s :
  (0 < NwkDims.BroadcastBuffers D)%nat → (length (Nwk.bcast_bufs s) ≤ NwkDims.BroadcastBuffers D)%nat →
  List.find (BroadcastBuf.of_transaction (BroadcastBuf.source b) (BroadcastBuf.sequence b))
    (Nwk.bcast_bufs (Bcast.store_broadcast_buf b s)) = Some b.
Proof.
  intros HK Hl. unfold Bcast.store_broadcast_buf. set (mine := BroadcastBuf.of_transaction _ _).
  assert (mine b = true) as Hb by (unfold mine, BroadcastBuf.of_transaction; by rewrite !Z.eqb_refl).
  destruct (List.find mine (Nwk.bcast_bufs s)) as [x|] eqn:E; cbn [is_some Nwk.bcast_bufs Nwk.set_bcast_bufs].
  - by rewrite find_update_first, E.
  - set (bs := if vec_is_full _ _ then _ else _).
    assert ((length bs < NwkDims.BroadcastBuffers D)%nat ∧ List.find mine bs = None) as [Hlen Hnone].
    { unfold bs. rewrite vec_is_full_spec. destruct (Nat.eqb_spec (length (Nwk.bcast_bufs s)) (NwkDims.BroadcastBuffers D)).
      - destruct (Nwk.bcast_bufs s) as [|y l]; [simpl in *; lia|]. rewrite (vec_remove_spec _ _ 0%nat y) by done.
        simpl in *. split; [lia|]. by destruct (mine y).
      - split; [lia|done]. }
    rewrite vec_push_room by done. by rewrite find_snoc, Hnone, Hb.
Qed.
End store.

(** ** What is handed to the driver stays in the queue, unless the queue fills up *)

Section kept.
Context {C R : Type} {D : NwkDims.t} `{!BlockCipher C} {Hrng : Rng R} {Hfair : FairRng R} {Hv : Heapless}.
Implicit Types s : Nwk.t C R D.
Import Nwk.

Definition kept s s' : Prop := (length (actions s') < NwkDims.Actions D)%nat → actions s `prefix_of` actions s'.

#[local] Instance kept_preorder : PreOrder kept.
Proof.
  split; [by intros s _|]. intros s1 s2 s3 H12 H23 Hl. pose proof (H23 Hl) as Hp. etrans; [|exact Hp]. apply H12.
  apply prefix_length in Hp. lia.
Qed.

Lemma kept_same s s' : actions s' = actions s → kept s s'.
Proof. intros E _. by rewrite E. Qed.

Lemma push_dropping_room {A} k (q : list A) a :
  (length (Tx.push_dropping k q a) < k)%nat → Tx.push_dropping k q a = q ++ [a].
Proof.
  unfold Tx.push_dropping. rewrite !deque_push_back_spec. destruct (Nat.ltb_spec (length q) k) as [|Hl]; [done|].
  rewrite deque_pop_front_spec. destruct q as [|x q]; cbn [length] in Hl; [intros Hk; exfalso; revert Hk; case_match; cbn [length app]; lia|].
  rewrite deque_push_back_spec.
  intros Hk. exfalso. revert Hk. destruct (Nat.ltb_spec (length q) k); rewrite ?length_app; cbn [length]; lia.
Qed.

Lemma kept_push a s : kept s (Tx.push_action a s).
Proof. intros Hl. cbn in *. rewrite push_dropping_room by done. by eexists. Qed.

Lemma pushed a s s' : kept (Tx.push_action a s) s' → (length (actions s') < NwkDims.Actions D)%nat → a ∈ actions s'.
Proof.
  intros Hk Hl. specialize (Hk Hl). pose proof (prefix_length _ _ Hk) as Hp. destruct Hk as [l ->].
  apply elem_of_app. left. cbn in *. rewrite push_dropping_room by lia. apply elem_of_app. right. by apply list_elem_of_singleton.
Qed.

Lemma kept_reserve s : kept s (Tx.maybe_reserve_counter s).
Proof.
  unfold Tx.maybe_reserve_counter. destruct (NwkSecurity.start_counter_reservation _) as [[r|] sec]; [|by apply kept_same].
  etrans; [|apply kept_push]. by apply kept_same.
Qed.

Lemma kept_finalize f hl b s : kept s (Tx.finalize_frame f hl b s).2.
Proof.
  unfold Tx.finalize_frame. destruct b; [|done]. cbn [negb]. destruct (Tx.secured_room _ _ _ _) as [out|]; [|done].
  destruct (NwkSecurity.secure_outgoing _ _ _ _ _ _) as [[r out1] sec]. cbv zeta.
  assert (kept s (Tx.maybe_reserve_counter (set_security sec s))) as Hr by (etrans; [|apply kept_reserve]; by apply kept_same).
  destruct r as [n|[]]; try exact Hr; try (by apply kept_same). by destruct (_ =? _).
Qed.

Lemma track_actions e s : actions (Tx.track_pending e s).2 = actions s.
Proof. unfold Tx.track_pending. by destruct (vec_push _ _ _). Qed.

Lemma kept_transmit e s : kept s (Tx.transmit_pending e s).2.
Proof.
  unfold Tx.transmit_pending.
  assert (∀ s0 e0 s1 r, Tx.track_pending e0 s0 = (r, s1) → kept s0 s1) as Ht.
  { intros s0 e0 s1 r E. apply kept_same. pose proof (track_actions e0 s0) as Ha. by rewrite E in Ha. }
  destruct (Tx.link_to _ _) as [link|].
  - destruct (Tx.link_copy _); [|done]. cbn [Tx.alloc_mac_handle]. destruct (Tx.track_pending _ _) as [[] s1] eqn:E; apply Ht in E.
    + etrans; [exact E|]. apply kept_push.
    + exact E.
  - destruct (PendingTx.indirect e).
    + cbn [Tx.alloc_mac_handle]. destruct (Tx.track_pending _ _) as [[] s1] eqn:E; apply Ht in E.
      * etrans; [exact E|]. apply kept_push.
      * exact E.
    + pose proof (kept_finalize (PendingTx.frame e) (PendingTx.header_len e) (PendingTx.secure e) s) as Hf.
      destruct (Tx.finalize_frame _ _ _ _) as [[on_air|err] s1]; cbn [snd] in Hf.
      * cbn [Tx.alloc_mac_handle]. destruct (Tx.track_pending _ _) as [[] s2] eqn:E; apply Ht in E.
        -- etrans; [exact Hf|]. etrans; [exact E|]. apply (kept_push _ (Nwk.set_nib _ s2)).
        -- etrans; [exact Hf|exact E].
      * destruct err; try exact Hf. destruct (Tx.track_pending _ _) as [r s2] eqn:E; apply Ht in E. etrans; [exact Hf|exact E].
Qed.

Lemma kept_foldl {A} (f : Nwk.t C R D → A → Nwk.t C R D) l s : (∀ s a, kept s (f s a)) → kept s (foldl f s l).
Proof. intros Hf. revert s. induction l as [|a l IH]; intros s; simpl; [done|]. etrans; [apply Hf|apply IH]. Qed.

Lemma kept_links a f b s : kept s (Bcast.copy_to_links a f b s).
Proof. apply kept_foldl. intros s' l. case_match; [|done]. cbn [Tx.alloc_mac_handle]. etrans; [|apply kept_push]. by apply kept_same. Qed.

Lemma kept_child on_air own s child : kept s (Bcast.copy_to_child on_air own s child).
Proof.
  unfold Bcast.copy_to_child. destruct own as [[[f hl] b]|].
  - cbn [Tx.alloc_tx_id]. etrans; [|apply kept_transmit]. by apply kept_same.
  - cbn [Tx.alloc_mac_handle]. etrans; [|apply kept_push]. by apply kept_same.
Qed.

(** A broadcast that is transmitted is handed to the driver. *)
Lemma broadcast_handed src sq on_air dst first own s :
  let s' := Bcast.transmit_broadcast src sq on_air dst first own s in
  (length (actions s') < NwkDims.Actions D)%nat →
  ∃ handle, NwkAction.MacData handle ShortAddress.BROADCAST_ALL on_air false false ∈ actions s'.
Proof.
  cbv zeta. unfold Bcast.transmit_broadcast. cbn [Tx.alloc_mac_handle]. set (a := NwkAction.MacData _ _ _ _ _).
  set (s1 := Tx.push_action a _). set (s2 := match own with Some _ => _ | None => _ end).
  assert (kept s1 s2) as H2 by (unfold s2; repeat case_match; [apply kept_links|done..]).
  set (s3 := foldl _ _ _). assert (kept s2 s3) as H3 by (apply kept_foldl; intros; apply kept_child).
  set (s4 := set_btt _ _). set (s5 := if is_some _ then _ else _).
  assert (kept s3 s5) as H5.
  { apply kept_same. unfold s5. case_match; [done|]. unfold Bcast.store_broadcast_buf. by case_match. }
  intros Hl. eexists. refine (pushed a _ s5 _ Hl). etrans; [exact H2|]. etrans; [exact H3|exact H5].
Qed.

(** The frame is built from the security state and the NIB alone. *)
Lemma finalize_btt f hl b t s :
  Tx.finalize_frame f hl b (set_btt t s) = ((Tx.finalize_frame f hl b s).1, set_btt t (Tx.finalize_frame f hl b s).2).
Proof.
  unfold Tx.finalize_frame. destruct b; [|done]. cbn [negb nib security set_btt].
  destruct (Tx.secured_room _ _ _ _) as [out|]; [|done].
  destruct (NwkSecurity.secure_outgoing _ _ _ _ _ _) as [[r out1] sec]. cbv zeta.
  assert (∀ s, Tx.maybe_reserve_counter (set_btt t s) = set_btt t (Tx.maybe_reserve_counter s)) as Hr.
  { intros s0. unfold Tx.maybe_reserve_counter. cbn [security set_btt].
    by destruct (NwkSecurity.start_counter_reservation _) as [[]?]. }
  change (set_security sec (set_btt t s)) with (set_btt t (set_security sec s)). rewrite Hr.
  destruct r as [n|[]]; try done. cbn [security set_btt]. by destruct (_ =? _).
Qed.
End kept.

(** The record of a broadcast whose relay is still to be sent, [within] a time from
    [now]. *)
Definition relay_scheduled (now within : Z) (r : BroadcastRecord.t) : Prop :=
  BroadcastRecord.relay_pending r = true ∧ BroadcastRecord.retries r = 0 ∧
  ∃ j, 0 ≤ j ≤ within ∧ BroadcastRecord.next_tx r = Some (Instant.saturating_add now j).

Lemma below_bounds {R} {Hrng : Rng R} {Hfair : FairRng R} bound (r : R) : 0 < bound → 0 ≤ (below bound r).1 < bound.
Proof.
  intros Hb. unfold below. rewrite (proj2 (Z.eqb_neq _ _)) by lia.
  assert (∀ n r, match below_loop n bound r with Some (v, _) => 0 ≤ v < bound | None => True end) as Hl.
  { intros n. induction n as [|n IH]; intros r0; cbn [below_loop]; [done|]. destruct (next_u32 r0) as [v r1].
    destruct (v <? _); [apply Z.mod_pos_bound; lia|apply IH]. }
  specialize (Hl draws r). destruct (below_loop _ _ _) as [[v r1]|]; cbn; [done|lia].
Qed.

Lemma jitter_spec {C R : Type} {D : NwkDims.t} {Hrng : Rng R} {Hfair : FairRng R} (s s' : Nwk.t C R D) lo hi j :
  lo ≤ hi → Tx.jitter lo hi s = (j, s') → lo ≤ j ≤ hi ∧ ∃ r, s' = Nwk.set_rng r s.
Proof.
  intros Hlh. unfold Tx.jitter, sat_sub. destruct (Z.eqb_spec (Z.max (hi - lo) 0) 0).
  - intros [= <- <-]. split; [lia|]. exists (Nwk.rng s). by destruct s.
  - pose proof (below_bounds (Z.min (Z.max (hi - lo) 0 + 1) u32_max) (Nwk.rng s) ltac:(unfold u32_max; lia)) as Hb.
    destruct (below _ _) as [off r]. cbn [fst] in Hb. intros [= <- <-]. split; [lia|by exists r].
Qed.

(** Serving such a record sends the relay, or tries again when there is no frame
    counter for it yet. *)
Lemma service_relays {C R : Type} {D : NwkDims.t} `{!BlockCipher C} {Hrng : Rng R} {Hfair : FairRng R} {Hv : Heapless}
    (s : Nwk.t C R D) src sq rec f hl secured t :
  BroadcastTransactionTable.get (Nwk.btt s) src sq = Some rec → BroadcastRecord.relay_pending rec = true →
  List.find (BroadcastBuf.of_transaction src sq) (Nwk.bcast_bufs s) = Some (BroadcastBuf.mk src sq [] (Some (f, hl, secured))) →
  let s' := Bcast.service_record t s (src, sq) in
  match (Tx.finalize_frame f hl secured s).1 with
  | Ok [] => True
  | Ok on_air => (length (Nwk.actions s') < NwkDims.Actions D)%nat →
      ∃ handle, NwkAction.MacData handle ShortAddress.BROADCAST_ALL on_air false false ∈ Nwk.actions s'
  | Err NwkError.CounterPending =>
      ∃ r, BroadcastTransactionTable.get (Nwk.btt s') src sq = Some r ∧ BroadcastRecord.relay_pending r = true ∧
        BroadcastRecord.next_tx r = Some (Instant.saturating_add t Tx.COUNTER_RETRY_DELAY)
  | Err _ => List.find (BroadcastBuf.of_transaction src sq) (Nwk.bcast_bufs s') = None
  end.
Proof.
  intros Hg Hp Hb. cbv zeta. unfold Bcast.service_record. rewrite Hg. cbv zeta. rewrite Hp. cbn [negb andb].
  set (s1 := Nwk.set_btt _ s). change (Nwk.bcast_bufs s1) with (Nwk.bcast_bufs s). rewrite Hb. cbn [mbind option_bind BroadcastBuf.plaintext].
  unfold s1. rewrite finalize_btt. destruct (Tx.finalize_frame f hl secured s) as [r s2] eqn:Ef. cbn [fst snd].
  assert (Nwk.bcast_bufs s2 = Nwk.bcast_bufs s ∧ Nwk.btt s2 = Nwk.btt s) as [Hb2 Ht2].
  { apply finalize_spec in Ef as ((? & ? & ->) & _). done. }
  destruct r as [on_air|e].
  - destruct on_air as [|x on_air]; [done|].
    cbn [Nwk.bcast_bufs Nwk.set_bcast_bufs Nwk.set_btt]. rewrite find_update_first, Hb2, Hb by (by intros ?).
    cbn [fmap option_fmap option_map BroadcastBuf.frame]. apply broadcast_handed.
  - destruct e; try (cbn [Nwk.bcast_bufs Bcast.drop_broadcast_buf Nwk.set_bcast_bufs Nwk.set_btt]; rewrite vec_retain_spec;
      apply find_None; intros y Hy; apply list_elem_of_In, filter_In in Hy as [_ Hy]; by apply negb_true_iff in Hy).
    cbn [Nwk.btt Nwk.set_btt]. eexists. split; [apply get_mut_get; [done|]; apply get_mut_get; [done|exact Hg]|done].
Qed.


