(* ===== verification/NwkRoute.v ===== *)
(** * The network layer: routing (panweave-nwk/src/layer/route.rs, tx.rs, rx.rs,
    join.rs)

    The processing of route requests, replies and records, of network status and
    link status commands, the relays of frames for other devices, and the
    bookkeeping of addresses learnt on the way.  What releases waiting frames
    takes the fuel of that loop, and is [None] while it runs. *)

From stdpp Require Import sorting.
From S2P Require Import Prelude Types Status Codec Heapless FrameCounter AuxHeader Ccm SecFrame Keys NwkSecurity NwkFrame Routing NwkTables NwkCommand NwkNeighbor NwkState NwkTx NwkPending NwkBcast.

Module CommandContext.
Record t : Type := mk {
  src : Z;
  dst : Z;
  src_ieee : option Z;
  dst_ieee : option Z;
  mac_src : Z;
  lqi : Z;
  rssi_dbm : Z;
  secured : bool;
  secured_by : option Z;
  radius : Z;
  sequence : Z
}.
End CommandContext.

(** ** Entries of the tables, as routing updates them *)

Module Entries.
Definition set_short (v : Z) (e : NeighborEntry.t) : NeighborEntry.t :=
  NeighborEntry.mk (NeighborEntry.extended e) (v) (NeighborEntry.device_type e) (NeighborEntry.rx_on_when_idle e)
  (NeighborEntry.end_device_configuration e) (NeighborEntry.timeout_counter_secs e)
  (NeighborEntry.device_timeout_secs e) (NeighborEntry.relationship e) (NeighborEntry.transmit_failure e)
  (NeighborEntry.lqa e) (NeighborEntry.outgoing_cost e) (NeighborEntry.age e) (NeighborEntry.keepalive_received e)
  (NeighborEntry.router_age e) (NeighborEntry.security_timer_secs e) (NeighborEntry.router_connectivity e)
  (NeighborEntry.router_neighbor_set_diversity e) (NeighborEntry.router_outbound_activity e)
  (NeighborEntry.router_inbound_activity e) (NeighborEntry.last_key_sequence e) (NeighborEntry.last_rssi_dbm e)
  (NeighborEntry.link e).
Definition set_relationship (v : Relationship.t) (e : NeighborEntry.t) : NeighborEntry.t :=
  NeighborEntry.mk (NeighborEntry.extended e) (NeighborEntry.short e) (NeighborEntry.device_type e)
  (NeighborEntry.rx_on_when_idle e) (NeighborEntry.end_device_configuration e)
  (NeighborEntry.timeout_counter_secs e) (NeighborEntry.device_timeout_secs e) (v)
  (NeighborEntry.transmit_failure e) (NeighborEntry.lqa e) (NeighborEntry.outgoing_cost e) (NeighborEntry.age e)
  (NeighborEntry.keepalive_received e) (NeighborEntry.router_age e) (NeighborEntry.security_timer_secs e)
  (NeighborEntry.router_connectivity e) (NeighborEntry.router_neighbor_set_diversity e)
  (NeighborEntry.router_outbound_activity e) (NeighborEntry.router_inbound_activity e)
  (NeighborEntry.last_key_sequence e) (NeighborEntry.last_rssi_dbm e) (NeighborEntry.link e).
Definition on_link_status (lqi cost : Z) (first : bool) (connectivity : Z) (e : NeighborEntry.t) : NeighborEntry.t :=
  NeighborEntry.mk (NeighborEntry.extended e) (NeighborEntry.short e) (NeighborEntry.device_type e)
  (NeighborEntry.rx_on_when_idle e) (NeighborEntry.end_device_configuration e)
  (NeighborEntry.timeout_counter_secs e) (NeighborEntry.device_timeout_secs e) (NeighborEntry.relationship e)
  (NeighborEntry.transmit_failure e) (LqaFilter.push (NeighborEntry.lqa e) lqi) (cost) (0)
  (NeighborEntry.keepalive_received e)
  (if first then sat_add 16 (NeighborEntry.router_age e) 1 else NeighborEntry.router_age e)
  (NeighborEntry.security_timer_secs e)
  (if first then Z.min connectivity 0xB6 else NeighborEntry.router_connectivity e)
  (NeighborEntry.router_neighbor_set_diversity e) (NeighborEntry.router_outbound_activity e)
  (NeighborEntry.router_inbound_activity e) (NeighborEntry.last_key_sequence e) (NeighborEntry.last_rssi_dbm e)
  (NeighborEntry.link e).
Definition with_activity (outbound inbound : Z) (e : NeighborEntry.t) : NeighborEntry.t :=
  NeighborEntry.mk (NeighborEntry.extended e) (NeighborEntry.short e) (NeighborEntry.device_type e)
  (NeighborEntry.rx_on_when_idle e) (NeighborEntry.end_device_configuration e)
  (NeighborEntry.timeout_counter_secs e) (NeighborEntry.device_timeout_secs e) (NeighborEntry.relationship e)
  (NeighborEntry.transmit_failure e) (NeighborEntry.lqa e) (NeighborEntry.outgoing_cost e) (NeighborEntry.age e)
  (NeighborEntry.keepalive_received e) (NeighborEntry.router_age e) (NeighborEntry.security_timer_secs e)
  (NeighborEntry.router_connectivity e) (NeighborEntry.router_neighbor_set_diversity e) (outbound) (inbound)
  (NeighborEntry.last_key_sequence e) (NeighborEntry.last_rssi_dbm e) (NeighborEntry.link e).

(** [e.forward_cost = cost; e.sender = sender] and [d.residual_cost = cost] *)
Definition set_forward (cost sender : Z) (e : DiscoveryEntry.t) : DiscoveryEntry.t :=
  DiscoveryEntry.mk (DiscoveryEntry.request_id e) (DiscoveryEntry.source e) sender cost
    (DiscoveryEntry.residual_cost e) (DiscoveryEntry.expires e) (DiscoveryEntry.destination e)
    (DiscoveryEntry.local e) (DiscoveryEntry.confirmed e).
Definition set_residual (cost : Z) (e : DiscoveryEntry.t) : DiscoveryEntry.t :=
  DiscoveryEntry.mk (DiscoveryEntry.request_id e) (DiscoveryEntry.source e) (DiscoveryEntry.sender e)
    (DiscoveryEntry.forward_cost e) cost (DiscoveryEntry.expires e) (DiscoveryEntry.destination e)
    (DiscoveryEntry.local e) (DiscoveryEntry.confirmed e).

(** A route that now leads to [hop] at [cost]. *)
Definition activate (hop cost : Z) (e : RouteEntry.t) : RouteEntry.t :=
  RouteEntry.mk (RouteEntry.destination e) RouteStatus.Active (RouteEntry.no_route_cache e) (RouteEntry.many_to_one e)
    (RouteEntry.route_record_required e) (RouteEntry.expired e) hop (RouteEntry.sequence e)
    (RouteEntry.sequence_valid e) cost (RouteEntry.total_usage e) (RouteEntry.recent_activity e)
    (RouteEntry.many_to_one_deadline e).
Definition set_recent (v : Z) (e : RouteEntry.t) : RouteEntry.t := RouteEntry.with_activity e (RouteEntry.total_usage e) v.
Definition concentrate (no_cache record : bool) (deadline : option Z) (e : RouteEntry.t) : RouteEntry.t :=
  RouteEntry.mk (RouteEntry.destination e) (RouteEntry.status e) no_cache true
    (record || RouteEntry.route_record_required e) false (RouteEntry.next_hop e) (RouteEntry.sequence e)
    (RouteEntry.sequence_valid e) (RouteEntry.path_cost e) (RouteEntry.total_usage e) (RouteEntry.recent_activity e)
    deadline.
Definition is_underway (e : RouteEntry.t) : bool :=
  match RouteEntry.status e with RouteStatus.DiscoveryUnderway => true | _ => false end.
Definition is_active (e : RouteEntry.t) : bool :=
  match RouteEntry.status e with RouteStatus.Active => true | _ => false end.
End Entries.

Module Route.
Import Nwk Tx.

Section route.
Context {C R : Type} {D : NwkDims.t} `{!BlockCipher C} {Hrng : Rng R} {Hfair : FairRng R} {Hv : Heapless}.
Abbreviation st := (Nwk.t C R D).
Implicit Types (s : st) (ctx : CommandContext.t).

(** ** Tables *)

Definition insert_route (e : RouteEntry.t) s : bool * st :=
  let '(r, t) := RoutingTable.insert (routes s) e in (is_some r, set_routes t s).
Definition on_route (dst : Z) (f : RouteEntry.t → RouteEntry.t) s : st :=
  set_routes (RoutingTable.get_mut (routes s) dst f) s.
Definition remove_route (dst : Z) s : st := set_routes (RoutingTable.remove (routes s) dst).2 s.
Definition on_discovery (src id : Z) (f : DiscoveryEntry.t → DiscoveryEntry.t) s : st :=
  set_rdt (RouteDiscoveryTable.get_mut (rdt s) src id f) s.

(** An end device child of this router. *)
Definition end_device_child s (a : Z) : bool :=
  from_option (λ n, Relationship.is_child (NeighborEntry.relationship n) && NeighborEntry.is_end_device n) false
    (NeighborTable.by_short (neighbors s) a).

(** The extended address of a neighbour, or of the address map. *)
Definition extended_of s (a : Z) : option Z :=
  match NeighborTable.by_short (neighbors s) a with
  | Some n => Some (NeighborEntry.extended n)
  | None => AddressMap.extended_for (address_map s) a
  end.

(** ** layer/join.rs, rx.rs: addresses *)

Definition reassign_child_address (child : Z) s : st :=
  let '(a, s) := Bcast.allocate_address s in
  match a with
  | None => s
  | Some a =>
      match NeighborTable.by_extended (neighbors s) child with
      | None => s
      | Some n =>
          let old := NeighborEntry.short n in
          let sleepy := negb (NeighborEntry.rx_on_when_idle n) in
          let s := set_neighbors (NeighborTable.by_extended_mut (neighbors s) child (Entries.set_short a)) s in
          let s := set_address_map (AddressMap.record (address_map s) child a).2 s in
          let '(seq, s) := next_sequence s in
          let header := NwkHeader.secured (NwkHeader.with_dst_ieee (NwkHeader.with_src_ieee
            (NwkHeader.new FrameType.Command old (Nib.network_address (nib s)) 1 seq) (Nib.ieee_address (nib s))) child)
            (NwkConfig.security_enabled (config s)) in
          let cmd := NwkCommand.RejoinResponse (RejoinResponse.mk a MacStatus.Success) in
          let s := ignore (send_command_unicast header cmd old true sleepy TxKind.Command) s in
          push_action NwkAction.Persist s
      end
  end.

Definition on_remote_address_conflict (short : Z) s : st :=
  if negb (Nib.is_router_or_coordinator (nib s)) then s
  else if end_device_child s short then
    match NeighborTable.by_short (neighbors s) short with
    | Some n => reassign_child_address (NeighborEntry.extended n) s
    | None => s
    end
  else Bcast.broadcast_address_conflict short s.

Definition on_address_conflict_reported (short : Z) s : st :=
  if short =? Nib.network_address (nib s) then Bcast.on_local_address_conflict s
  else if end_device_child s short then
    match NeighborTable.by_short (neighbors s) short with
    | Some n => reassign_child_address (NeighborEntry.extended n) s
    | None => s
    end
  else s.

Definition record_address (ext short : Z) (secured : bool) s : st :=
  let '(u, t) := AddressMap.record (address_map s) ext short in
  let s := set_address_map t s in
  match u with
  | AddressMapUpdate.Conflict _ => if secured then on_remote_address_conflict short s else s
  | _ => s
  end.

Definition note_address (ext short : Z) (secured : bool) s : st :=
  if negb (ExtendedAddress.is_valid_device_address ext) || negb (ShortAddress.is_unicast short) then s
  else
    match NeighborTable.by_extended (neighbors s) ext with
    | Some n =>
        let s :=
          if negb (NeighborEntry.short n =? short) && secured
          then set_neighbors (NeighborTable.by_extended_mut (neighbors s) ext (Entries.set_short short)) s else s in
        record_address ext short secured s
    | None =>
        match NeighborTable.by_short (neighbors s) short with
        | Some n =>
            if negb (NeighborEntry.extended n =? ext) && ExtendedAddress.is_valid_device_address (NeighborEntry.extended n) && secured
            then on_remote_address_conflict short s
            else record_address ext short secured s
        | None => record_address ext short secured s
        end
    end.

Definition examine_lost_child (src mac_src dst sequence : Z) s : st :=
  match NeighborTable.by_short (neighbors s) src with
  | None => s
  | Some n =>
      if negb (NeighborEntry.is_end_device n) || negb (Relationship.is_child (NeighborEntry.relationship n))
         || (mac_src =? src) then s
      else if ShortAddress.is_broadcast dst && is_some (BroadcastTransactionTable.get (btt s) src sequence) then s
      else
        let s := set_neighbors (NeighborTable.by_short_mut (neighbors s) src (Entries.set_relationship Relationship.LostChild)) s in
        push_event (NwkEvent.LostChild (NeighborEntry.extended n)) (bump NwkStats.F_children_moved s)
  end.

Definition purge_lost_children s : st :=
  let lost n := match NeighborEntry.relationship n with Relationship.LostChild => true | _ => false end in
  let removed := NeighborTable.push_each 8 []
    (NeighborEntry.extended <$> List.filter lost (NeighborTable.entries (neighbors s))) in
  let s := set_neighbors (NeighborTable.retain (neighbors s) (λ n, negb (lost n))) s in
  foldl (λ s d,
    let sec := security s in
    let s := set_security (NwkSecurity.mk (NwkSecurity.keys sec) (IncomingCounters.remove d (NwkSecurity.incoming sec))
      (NwkSecurity.ciphers sec)) s in
    push_event (NwkEvent.ChildRemoved d) s) s removed.

Definition ensure_neighbor (entry : NeighborEntry.t) s : bool * st :=
  let '(r, t) := NeighborTable.insert (neighbors s) entry (Nib.router_age_limit (nib s)) in
  (match r with Ok _ => true | Err _ => false end, set_neighbors t s).

(** ** layer/route.rs: requests and replies *)

Definition cost_from_neighbor (sender lqi : Z) s : option Z :=
  n ← NeighborTable.by_short (neighbors s) sender;
  if NeighborEntry.outgoing_cost n =? 0 then None
  else
    let incoming :=
      Z.max (link_cost_from_lqa (Z.max (LqaFilter.value (NeighborEntry.lqa n)) 1)) (link_cost_from_lqa lqi) in
    Some (Z.max incoming (NeighborEntry.outgoing_cost n)).

Definition send_route_reply (originator id responder next_hop path_cost : Z) s : st :=
  let my := Nib.network_address (nib s) in
  let s := next_routing_sequence s in
  let '(seq, s) := next_sequence s in
  let header := command_header s next_hop my constants.DEFAULT_RADIUS seq in
  let header := match extended_of s next_hop with Some e => NwkHeader.with_dst_ieee header e | None => header end in
  let responder_ieee := if responder =? my then Some (Nib.ieee_address (nib s)) else extended_of s responder in
  let originator_ieee := AddressMap.extended_for (address_map s) originator in
  let cmd := NwkCommand.RouteReply (RouteReply.mk id originator responder path_cost originator_ieee responder_ieee []) in
  ignore (send_command_unicast header cmd next_hop true false (TxKind.RouteReply responder)) s.

(** The discovery table entry of the request: [None] when it is not to be processed. *)
Definition note_request (ctx : CommandContext.t) (rreq : RouteRequest.t) (new_cost : Z) s : bool * st :=
  let src := CommandContext.src ctx in
  let id := RouteRequest.id rreq in
  match RouteDiscoveryTable.get (rdt s) src id with
  | Some e =>
      if DiscoveryEntry.forward_cost e <? new_cost then (false, s)
      else if negb (incoming_route_is_suitable (RoutingTable.get (routes s) src) new_cost)
              && negb (ManyToOne.is_many_to_one (RouteRequest.many_to_one rreq)) then (false, s)
      else (true, on_discovery src id (Entries.set_forward new_cost (CommandContext.mac_src ctx)) s)
  | None =>
      if negb (RoutingTable.has_capacity_for (routes s) src) then (false, s)
      else
        let entry := DiscoveryEntry.mk id src (CommandContext.mac_src ctx) new_cost 0xFF
          (Instant.saturating_add (now s) constants.ROUTE_DISCOVERY_TIME) (RouteRequest.dst rreq) false false in
        let '(r, s) := insert_discovery entry s in (is_some r, s)
  end.

(** The route back to the originator of a request. *)
Definition reverse_route (ctx : CommandContext.t) (rreq : RouteRequest.t) (new_cost : Z) s : RouteEntry.t :=
  let src := CommandContext.src ctx in
  let hop := CommandContext.mac_src ctx in
  let old := RoutingTable.get (routes s) src in
  let reverse :=
    Entries.activate hop new_cost
      (default (RouteEntry.new src hop RouteStatus.Active (Nib.router_age_limit (nib s))) old) in
  if ManyToOne.is_many_to_one (RouteRequest.many_to_one rreq) then
    let no_cache := match RouteRequest.many_to_one rreq with ManyToOne.NoRouteCache => true | _ => false end in
    let changed := from_option (λ o, negb (RouteEntry.next_hop o =? hop)) true old in
    let secs := Nib.concentrator_discovery_time_secs (nib s) in
    let deadline :=
      if 0 <? secs
      then Some (Instant.saturating_add (Instant.saturating_add (now s) (Duration.from_secs secs))
                   constants.ROUTE_DISCOVERY_TIME)
      else None in
    Entries.concentrate no_cache (changed || no_cache) deadline reverse
  else reverse.

Definition forward_request (ctx : CommandContext.t) (rreq : RouteRequest.t) (new_cost : Z) s : st :=
  if CommandContext.radius ctx <=? 1 then s
  else
    let s :=
      if ManyToOne.is_many_to_one (RouteRequest.many_to_one rreq) then s
      else
        match RoutingTable.get (routes s) (RouteRequest.dst rreq) with
        | Some e =>
            if Entries.is_active e then s
            else on_route (RouteRequest.dst rreq) (λ e, RouteEntry.with_status e RouteStatus.DiscoveryUnderway) s
        | None =>
            (insert_route (RouteEntry.new (RouteRequest.dst rreq) ShortAddress.NO_SHORT_ADDRESS
               RouteStatus.DiscoveryUnderway (Nib.router_age_limit (nib s))) s).2
        end in
    let header := NwkHeader.secured (NwkHeader.with_src_ieee
      (NwkHeader.new FrameType.Command ShortAddress.BROADCAST_ROUTERS (CommandContext.src ctx)
         (CommandContext.radius ctx - 1) (CommandContext.sequence ctx))
      (default (Nib.ieee_address (nib s)) (CommandContext.src_ieee ctx))) (NwkConfig.security_enabled (config s)) in
    let cmd := NwkCommand.RouteRequest (RouteRequest.mk (RouteRequest.many_to_one rreq) (RouteRequest.id rreq)
      (RouteRequest.dst rreq) new_cost (RouteRequest.dst_ieee rreq) []) in
    match build_command header cmd with
    | Ok (frame, _) => ignore (queue_rreq frame constants.RREQ_RETRIES constants.RREQ_RETRY_INTERVAL false) s
    | Err _ => s
    end.

Definition on_route_request (fuel : nat) (ctx : CommandContext.t) (rreq : RouteRequest.t) s : option st :=
  let s := bump NwkStats.F_route_requests s in
  if Nib.is_end_device (nib s) || negb (CommandContext.secured ctx) then Some s
  else if match RouteRequest.many_to_one rreq with ManyToOne.Reserved => true | _ => false end then Some s
  else
    match cost_from_neighbor (CommandContext.mac_src ctx) (CommandContext.lqi ctx) s with
    | None => Some s
    | Some link_cost =>
        let my := Nib.network_address (nib s) in
        let many := ManyToOne.is_many_to_one (RouteRequest.many_to_one rreq) in
        let new_cost := sat_add 8 (RouteRequest.path_cost rreq) link_cost in
        let is_destination :=
          negb many && ((RouteRequest.dst rreq =? my) || end_device_child s (RouteRequest.dst rreq)) in
        let '(go, s) := note_request ctx rreq new_cost s in
        if negb go then Some s
        else
          let reverse := reverse_route ctx rreq new_cost s in
          let was_underway :=
            from_option Entries.is_underway false (RoutingTable.get (routes s) (CommandContext.src ctx)) in
          let '(stored, s) := insert_route reverse s in
          if negb stored then Some s
          else
            s ← (if many && was_underway then release_waiting fuel (CommandContext.src ctx) s else Some s);
            if is_destination then
              Some (send_route_reply (CommandContext.src ctx) (RouteRequest.id rreq) (RouteRequest.dst rreq)
                (CommandContext.mac_src ctx) link_cost s)
            else Some (forward_request ctx rreq new_cost s)
    end.

(** The reply to a discovery of this device. *)
Definition own_reply (fuel : nat) (my : Z) (ctx : CommandContext.t) (rrep : RouteReply.t) (cost : Z) s : option st :=
  let id := RouteReply.id rrep in
  match RouteDiscoveryTable.get (rdt s) my id with
  | None => Some s
  | Some d =>
      let dst := DiscoveryEntry.destination d in
      match RoutingTable.get (routes s) dst with
      | None => Some (set_rdt (RouteDiscoveryTable.remove (rdt s) my id).2 s)
      | Some route =>
          if Entries.is_active route && negb (cost <? DiscoveryEntry.residual_cost d) then Some s
          else
            let route := Entries.set_recent (Nib.router_age_limit (nib s))
              (Entries.activate (CommandContext.mac_src ctx) cost route) in
            let s := (insert_route route s).2 in
            let s := on_discovery my id (Entries.set_residual cost) s in
            s ← release_waiting fuel dst s;
            Some (push_event (NwkEvent.RouteDiscoveryConfirm dst NwkStatus.Success) s)
      end
  end.

(** The reply to a discovery of another device, relayed towards it. *)
Definition relay_reply (fuel : nat) (my : Z) (ctx : CommandContext.t) (rrep : RouteReply.t) (cost : Z) s : option st :=
  let id := RouteReply.id rrep in
  let origin := RouteReply.originator rrep in
  match RouteDiscoveryTable.get (rdt s) origin id with
  | None => Some s
  | Some d =>
      if DiscoveryEntry.residual_cost d <? cost then Some s
      else
        let dest := RouteReply.responder rrep in
        let age_limit := Nib.router_age_limit (nib s) in
        let old := RoutingTable.get (routes s) dest in
        if negb (incoming_route_is_suitable old cost) then Some s
        else
          let fwd := Entries.activate (CommandContext.mac_src ctx) cost
            (default (RouteEntry.new dest (CommandContext.mac_src ctx) RouteStatus.Active age_limit) old) in
          let s := (insert_route fwd s).2 in
          let s := on_discovery origin id (Entries.set_residual cost) s in
          s ← release_waiting fuel dest s;
          let next_hop := DiscoveryEntry.sender d in
          let s :=
            if is_some (RoutingTable.get (routes s) origin) then s
            else
              (insert_route (Entries.activate next_hop (DiscoveryEntry.forward_cost d)
                 (RouteEntry.new origin next_hop RouteStatus.Active age_limit)) s).2 in
          let hop_cost := from_option NeighborEntry.path_cost 7 (NeighborTable.by_short (neighbors s) next_hop) in
          let '(seq, s) := next_sequence s in
          let radius := Z.max (CommandContext.radius ctx) 2 - 1 in
          let header := command_header s next_hop my (Z.max radius 1) seq in
          let header :=
            match extended_of s next_hop with Some e => NwkHeader.with_dst_ieee header e | None => header end in
          let cmd := NwkCommand.RouteReply (RouteReply.mk id origin dest (sat_add 8 cost hop_cost)
            (RouteReply.originator_ieee rrep) (RouteReply.responder_ieee rrep) []) in
          Some (ignore (send_command_unicast header cmd next_hop true false (TxKind.RouteReply dest)) s)
  end.

Definition on_route_reply (fuel : nat) (ctx : CommandContext.t) (rrep : RouteReply.t) s : option st :=
  if negb (Nib.is_router_or_coordinator (nib s)) || negb (CommandContext.secured ctx) then Some s
  else
    match cost_from_neighbor (CommandContext.mac_src ctx) (CommandContext.lqi ctx) s with
    | None => Some s
    | Some link_cost =>
        let cost := sat_add 8 (RouteReply.path_cost rrep) link_cost in
        let my := Nib.network_address (nib s) in
        let s := match RouteReply.originator_ieee rrep with
                 | Some e => note_address e (RouteReply.originator rrep) true s | None => s end in
        let s := match RouteReply.responder_ieee rrep with
                 | Some e => note_address e (RouteReply.responder rrep) true s | None => s end in
        if RouteReply.originator rrep =? my then own_reply fuel my ctx rrep cost s
        else relay_reply fuel my ctx rrep cost s
    end.

(** The end of a discovery that found nothing. *)
Definition discovery_over (fuel : nat) (e : DiscoveryEntry.t) s : option st :=
  let dst := DiscoveryEntry.destination e in
  if negb (RouteDiscoveryTable.any_pending_for (rdt s) dst)
     && from_option Entries.is_underway false (RoutingTable.get (routes s) dst)
  then
    let s := remove_route dst s in
    if DiscoveryEntry.local e then
      s ← fail_waiting fuel dst s;
      Some (push_event (NwkEvent.RouteDiscoveryConfirm dst NwkStatus.RouteDiscoveryFailed) s)
    else Some s
  else Some s.

Definition service_route_discovery (fuel : nat) (tnow : Z) s : option st :=
  let '(expired, t) := RouteDiscoveryTable.expire 8 (rdt s) tnow [] in
  s ← foldl (λ r e, s ← r; discovery_over fuel e s) (Some (set_rdt t s)) expired;
  Some (set_routes (RoutingTable.expire_many_to_one (routes s) tnow) s).

(** ** layer/route.rs: route records and network status *)

Definition on_route_record (ctx : CommandContext.t) (rr : RouteRecord.t) s : st :=
  if negb (CommandContext.secured ctx) then s
  else set_source_routes
    (SourceRouteTable.store_from_record (source_routes s) (CommandContext.src ctx) (RouteRecord.relays rr)).2 s.

Definition next_hop_for (dst : Z) s : option Z * st :=
  let '(d, s) := route_unicast dst false s in
  (match d with RouteDecision.Direct h | RouteDecision.NextHop h => Some h | _ => None end, s).

(** [Header { radius: h.radius - 1, source_route: None, ..h }] *)
Definition one_hop_less (h : NwkHeader.t) : NwkHeader.t :=
  NwkHeader.mk (NwkHeader.frame_control h) (NwkHeader.dst h) (NwkHeader.src h) (NwkHeader.radius h - 1)
    (NwkHeader.sequence h) (NwkHeader.dst_ieee h) (NwkHeader.src_ieee h) None.

Definition relay_route_record (buf : list Z) (payload_start payload_end : nat) (secured : bool) s : st :=
  match NwkHeader.decode_prefix buf with
  | Err _ => s
  | Ok (h, _) =>
      if NwkHeader.radius h <=? 1 then s
      else
        match decode_exact (default [] (get_range buf payload_start payload_end)) with
        | Ok (NwkCommand.RouteRecord rr) =>
            match vec_extend_from_slice MAX_NPDU [] (RouteRecord.raw_relays rr) ≫= λ relays,
                  vec_extend_from_slice MAX_NPDU relays (to_le 2 (Nib.network_address (nib s))) with
            | None => s
            | Some relays =>
                let '(hop, s) := next_hop_for (NwkHeader.dst h) s in
                match hop with
                | None => s
                | Some next_hop =>
                    ignore (send_command_unicast (one_hop_less h) (NwkCommand.RouteRecord (RouteRecord.mk relays))
                      next_hop secured false TxKind.Command) s
                end
            end
        | _ => s
        end
  end.

Definition relay_network_status (buf : list Z) (payload_start payload_end : nat) (secured : bool) s : st :=
  match NwkHeader.decode_prefix buf with
  | Err _ => s
  | Ok (h, _) =>
      if NwkHeader.radius h <=? 1 then s
      else
        match decode_exact (default [] (get_range buf payload_start payload_end)) with
        | Ok (NwkCommand.NetworkStatus ns) =>
            let s :=
              if end_device_child s (NwkHeader.dst h) then
                if NetworkStatusCode.is_link_failure (NetworkStatus.status ns) then remove_route (NetworkStatus.dst ns) s
                else
                  match NetworkStatus.status ns with
                  | NetworkStatusCode.SourceRouteFailure =>
                      set_source_routes (SourceRouteTable.remove (source_routes s) (NetworkStatus.dst ns)).2 s
                  | _ => s
                  end
              else s in
            let '(hop, s) := next_hop_for (NwkHeader.dst h) s in
            match hop with
            | None => s
            | Some next_hop =>
                ignore (send_command_unicast (one_hop_less h)
                  (NwkCommand.NetworkStatus (NetworkStatus.mk (NetworkStatus.status ns) (NetworkStatus.dst ns) []))
                  next_hop secured false TxKind.Command) s
            end
        | _ => s
        end
  end.

Definition on_network_status (ctx : CommandContext.t) (ns : NetworkStatus.t) s : st :=
  let status := NetworkStatus.status ns in
  let dst := NetworkStatus.dst ns in
  if negb (CommandContext.secured ctx)
     && match status with NetworkStatusCode.UnknownCommand => false | _ => true end then s
  else
    let s :=
      if NetworkStatusCode.is_link_failure status then remove_route dst s
      else
        match status with
        | NetworkStatusCode.SourceRouteFailure =>
            set_source_routes (SourceRouteTable.remove (source_routes s) dst).2 s
        | NetworkStatusCode.ManyToOneRouteFailure => on_route dst (RouteUpdate.set_record_required true) s
        | NetworkStatusCode.AddressConflict => on_address_conflict_reported dst s
        | _ => s
        end in
    push_event (NwkEvent.NetworkStatus dst status) s.

(** ** layer/route.rs: link status *)

Definition link_status_entry (n : NeighborEntry.t) : LinkStatusEntry.t :=
  LinkStatusEntry.mk (NeighborEntry.short n) (NeighborEntry.incoming_cost n) (NeighborEntry.outgoing_cost n).

Definition by_address (a b : LinkStatusEntry.t) : Prop := LinkStatusEntry.address a ≤ LinkStatusEntry.address b.

#[local] Instance by_address_dec a b : Decision (by_address a b).
Proof. unfold by_address. apply _. Defined.

(** The router neighbours in the order of their addresses ([sort_unstable_by_key];
    the order of equal addresses is not specified, here they keep theirs). *)
Definition link_status_entries s : list LinkStatusEntry.t :=
  merge_sort by_address (NeighborTable.push_each (NwkDims.Neighbors D) []
    (link_status_entry <$> List.filter (λ n, ShortAddress.is_unicast (NeighborEntry.short n))
       (NeighborTable.routers (neighbors s)))).

Definition PER_FRAME : nat := Nat.min LinkStatus.MAX_ENTRIES 28.

Definition send_link_status s : st :=
  if negb (Nib.is_router_or_coordinator (nib s)) || negb (Nib.router_started (nib s)) then s
  else
    let es := link_status_entries s in
    let total := length es in
    let frames := if (total =? 0)%nat then 1%nat else ((total + PER_FRAME - 1) / PER_FRAME)%nat in
    foldl (λ s f,
      let start := (f * PER_FRAME)%nat in
      let end_ := Nat.min (start + PER_FRAME) total in
      let raw := foldl (λ raw e, default raw (vec_extend_from_slice (3 * 32) raw (LinkStatus.encode_entry e))) []
        (default [] (get_range es start end_)) in
      let ls := LinkStatus.mk (f =? 0)%nat (f + 1 =? frames)%nat raw in
      let '(seq, s) := next_sequence s in
      let header := command_header s ShortAddress.BROADCAST_ROUTERS (Nib.network_address (nib s)) 1 seq in
      ignore (send_command_broadcast_once header (NwkCommand.LinkStatus ls) true) s) s (seq 0 frames).

(** A router heard for the first time, and whether the command is processed further. *)
Definition meet_router (ctx : CommandContext.t) (ls : LinkStatus.t) s : bool * st :=
  if is_some (NeighborTable.by_short (neighbors s) (CommandContext.src ctx)) then (true, s)
  else
    match (match CommandContext.src_ieee ctx with Some e => Some e | None => CommandContext.secured_by ctx end) with
    | None => (false, s)
    | Some ext =>
        let age_limit := Nib.router_age_limit (nib s) in
        let e := Entries.with_activity age_limit age_limit
          (NeighborEntry.new ext (CommandContext.src ctx) LogicalDeviceType.Router true Relationship.Sibling
             (CommandContext.lqi ctx)) in
        let '(ok, s) := ensure_neighbor e s in
        if negb ok then (false, s)
        else if (LinkStatus.entry_count ls =? 0)%nat then
          let '(j, s) := jitter constants.MIN_ROUTER_BOOTSTRAP_JITTER constants.MAX_ROUTER_BOOTSTRAP_JITTER s in
          (true, set_link_status_due (Some (Instant.saturating_add (now s) j)) s)
        else (true, s)
    end.

Definition covers_us (ls : LinkStatus.t) (my : Z) : bool :=
  match head (LinkStatus.entries ls), last (LinkStatus.entries ls) with
  | Some f, Some l =>
      (LinkStatus.first_frame ls || (LinkStatusEntry.address f <=? my))
      && (LinkStatus.last_frame ls || (my <=? LinkStatusEntry.address l))
  | _, _ => true
  end.

Definition connectivity (ls : LinkStatus.t) : Z :=
  foldl (λ c e,
    if LinkStatusEntry.outgoing_cost e =? 0 then c
    else c + sat_sub 7 (Z.max (LinkStatusEntry.incoming_cost e) (LinkStatusEntry.outgoing_cost e)))
    0 (LinkStatus.entries ls).

Definition apply_link_status (ctx : CommandContext.t) (ls : LinkStatus.t) s : st :=
  let my := Nib.network_address (nib s) in
  if negb (covers_us ls my) && negb (LinkStatus.entry_count ls =? 0)%nat then s
  else
    let mine := List.find (λ e, LinkStatusEntry.address e =? my) (LinkStatus.entries ls) in
    let cost := from_option LinkStatusEntry.incoming_cost 0 mine in
    match NeighborTable.by_short (neighbors s) (CommandContext.src ctx) with
    | None => s
    | Some n =>
        let s := set_neighbors (NeighborTable.by_short_mut (neighbors s) (CommandContext.src ctx)
          (Entries.on_link_status (CommandContext.lqi ctx) cost (LinkStatus.first_frame ls) (connectivity ls))) s in
        if cost =? 0 then set_routes (RoutingTable.invalidate_via (routes s) (NeighborEntry.short n)).2 s else s
    end.

Definition on_link_status (ctx : CommandContext.t) (ls : LinkStatus.t) s : st :=
  if negb (Nib.is_router_or_coordinator (nib s)) || negb (CommandContext.secured ctx) then s
  else
    let '(go, s) := meet_router ctx ls s in
    if go then apply_link_status ctx ls s else s.

(** ** layer/tx.rs: relays *)

Definition relay_source_routed (entry : PendingTx.t) (relay_index : Z) : SE st NwkError.t unit := λ s,
  match NwkHeader.decode_prefix (PendingTx.frame entry) with
  | Err _ => (Err NwkError.InvalidParameter, s)
  | Ok (h, _) =>
      match NwkHeader.source_route h with
      | None => (Err NwkError.InvalidParameter, s)
      | Some sr =>
          let next :=
            if relay_index =? 0 then Some (PendingTx.set_next_hop (NwkHeader.dst h) entry)
            else if negb (bool_decide (SourceRoute.relay sr (Z.to_nat relay_index) = Some (Nib.network_address (nib s))))
            then None
            else
              hop ← SourceRoute.relay sr (Z.to_nat (relay_index - 1));
              let flag (b : bool) : nat := if b then 8%nat else 0%nat in
              let offset := (8 + flag (FrameControl.dst_ieee (NwkHeader.frame_control h))
                + flag (FrameControl.src_ieee (NwkHeader.frame_control h)) + 1)%nat in
              Some (PendingTx.set_frame (patch_octet offset (λ _, relay_index - 1) (PendingTx.frame entry))
                (PendingTx.set_next_hop hop entry)) in
          match next with
          | None => (Err NwkError.InvalidParameter, s)
          | Some entry =>
              let entry :=
                match NeighborTable.by_short (neighbors s) (NwkHeader.dst h) with
                | Some n =>
                    if Relationship.is_child (NeighborEntry.relationship n)
                    then PendingTx.set_indirect (NeighborEntry.is_end_device n && negb (NeighborEntry.rx_on_when_idle n))
                           (PendingTx.set_next_hop (NwkHeader.dst h) entry)
                    else entry
                | None => entry
                end in
              let s := on_route (NwkHeader.src h)
                (λ r, if RouteEntry.no_route_cache r then r else RouteUpdate.set_record_required false r) s in
              transmit_pending entry s
          end
      end
  end.

Definition relay_unicast (plaintext : list Z) (header : NwkHeader.t) (secure : bool) : SE st NwkError.t unit := λ s,
  let parsed_len := match NwkHeader.decode_prefix plaintext with Ok (_, n) => n | Err _ => 0%nat end in
  match vec_extend_from_slice MAX_NPDU [] plaintext with
  | None => (Err NwkError.FrameTooLong, s)
  | Some frame =>
      let frame := patch_octet 1 (clearing 0x20) (patch_octet 6 (λ r, sat_sub r 1) frame) in
      let src := NwkHeader.src header in
      let from_child := end_device_child s src in
      let '(id, s) := alloc_tx_id s in
      let entry := fresh_entry s id frame parsed_len (NwkHeader.dst header) (NwkHeader.dst header)
        constants.UNICAST_RETRIES secure false (Some src) (is_some (NwkHeader.source_route header)) TxKind.Data in
      let s := bump NwkStats.F_relayed s in
      match NwkHeader.source_route header with
      | Some sr => relay_source_routed entry (SourceRoute.relay_index sr) s
      | None =>
          let discover :=
            match FrameControl.discover_route (NwkHeader.frame_control header) with
            | DiscoverRoute.Enable => from_child | _ => false end in
          let '(d, s) := route_unicast (PendingTx.dst entry) discover s in
          match d with
          | RouteDecision.Direct h | RouteDecision.NextHop h =>
              let entry := for_sleepy s h (PendingTx.set_next_hop h entry) in
              let s :=
                if from_child && record_required s (PendingTx.dst entry)
                then send_route_record (PendingTx.dst entry) (Some src) s else s in
              transmit_pending entry s
          | RouteDecision.Discover => await_route entry s
          | RouteDecision.NoRoute =>
              let s := bump NwkStats.F_no_route s in
              (Err NwkError.RouteError,
               send_network_status src (NwkHeader.dst header) NetworkStatusCode.LinkFailure s)
          end
      end
  end.
End route.
End Route.

(** ** Source-routed commands *)

Section commands.
Context {C R : Type} {D : NwkDims.t} `{!BlockCipher C} {Hrng : Rng R} {Hfair : FairRng R} {Hv : Heapless}.
Implicit Types (s : Nwk.t C R D) (h : NwkHeader.t).
Import Nwk.

(** Removing the source route without its flag leaves a header that cannot be encoded. *)
Lemma one_hop_less_refused h cmd sr :
  nwk_header_wf h → NwkHeader.source_route h = Some sr →
  ∃ e, Tx.build_command (Route.one_hop_less h) cmd = Err e.
Proof.
  intros ((_ & _ & Hf) & _) Hsr. unfold Tx.build_command. destruct (encode_to_slice _ _) as [[n|e] out]; [|by eexists].
  unfold Tx.build_npdu. case_match; [by eexists|]. case_match; [|by eexists].
  assert (∃ w, encode (Route.one_hop_less h) (Writer.new l) =
    (Err (InvalidField "nwk frame control presence flags" (NwkHeader.frame_control h)), w)) as [w ->]; [|by eexists].
  eexists. cbn [encode NwkHeader.Encode_t]. unfold Route.one_hop_less at 1 2 3 4 5 6.
  cbn [NwkHeader.frame_control NwkHeader.source_route]. rewrite Hf, Hsr. cbn [is_some eqb negb].
  rewrite orb_true_r. reflexivity.
Qed.

Lemma route_unicast_outputs dst b s :
  pending (Tx.route_unicast dst b s).2 = pending s ∧ actions (Tx.route_unicast dst b s).2 = actions s.
Proof. unfold Tx.route_unicast. by repeat case_match. Qed.

Lemma refused_not_sent h cmd hop b s :
  (∃ e, Tx.build_command h cmd = Err e) →
  Tx.ignore (Tx.send_command_unicast h cmd hop b false TxKind.Command) s = s.
Proof. intros [e He]. unfold Tx.ignore, Tx.send_command_unicast. by rewrite He. Qed.
End commands.

(** Network status and route record commands that arrive source routed are not
    relayed: the relay takes the source route out of the header but leaves its
    flag, the header is refused by the encoder, and nothing is queued or sent. *)
Theorem source_routed_command_lost {C R : Type} {D : NwkDims.t} `{!BlockCipher C} {Hrng : Rng R} {Hfair : FairRng R}
    {Hv : Heapless} (h : NwkHeader.t) (sr : SourceRoute.t) (rest : list Z) (ps pe : nat) (secured : bool) (s : Nwk.t C R D) :
  nwk_header_wf h → NwkHeader.source_route h = Some sr →
  let buf := nwk_header_wire h ++ rest in
  Nwk.pending (Route.relay_network_status buf ps pe secured s) = Nwk.pending s ∧
  Nwk.actions (Route.relay_network_status buf ps pe secured s) = Nwk.actions s ∧
  Nwk.pending (Route.relay_route_record buf ps pe secured s) = Nwk.pending s ∧
  Nwk.actions (Route.relay_route_record buf ps pe secured s) = Nwk.actions s.
Proof.
  intros Hwf Hsr buf. unfold Route.relay_network_status, Route.relay_route_record, buf.
  pose proof (nwk_header_decodes h Hwf [] rest) as Hd. unfold NwkHeader.decode_prefix, Reader.new.
  rewrite app_nil_l in Hd. change (length (A:=Z) []) with 0%nat in Hd. rewrite Hd. clear Hd.
  destruct (NwkHeader.radius h <=? 1); [done|].
  destruct (decode_exact _) as [cmd|]; [|done].
  assert (∀ (s0 : Nwk.t C R D) c, Nwk.pending s0 = Nwk.pending s → Nwk.actions s0 = Nwk.actions s →
    let '(hop, s1) := Route.next_hop_for (NwkHeader.dst h) s0 in
    let s2 := match hop with None => s1 | Some a => Tx.ignore (Tx.send_command_unicast (Route.one_hop_less h) c a
      secured false TxKind.Command) s1 end in Nwk.pending s2 = Nwk.pending s ∧ Nwk.actions s2 = Nwk.actions s) as Hsend.
  { intros s0 c Hp Ha. unfold Route.next_hop_for. destruct (route_unicast_outputs (NwkHeader.dst h) false s0) as [H1 H2].
    destruct (Tx.route_unicast _ _ _) as [d s1]. cbn [snd] in H1, H2.
    destruct d; cbv zeta; rewrite ?refused_not_sent by (by eapply one_hop_less_refused); split; congruence. }
  destruct cmd; try done.
  - set (s0 := if Route.end_device_child _ _ then _ else _).
    assert (Nwk.pending s0 = Nwk.pending s ∧ Nwk.actions s0 = Nwk.actions s) as [H1 H2] by (unfold s0; by repeat case_match).
    pose proof (Hsend s0 (NwkCommand.NetworkStatus (NetworkStatus.mk (NetworkStatus.status c) (NetworkStatus.dst c) [])) H1 H2) as Hs.
    destruct (Route.next_hop_for _ _) as [hop s1]. split_and!; [apply Hs|apply Hs|done|done].
  - destruct (_ ≫= _) as [relays|]; [|done].
    pose proof (Hsend s (NwkCommand.RouteRecord (RouteRecord.mk relays)) eq_refl eq_refl) as Hs.
    destruct (Route.next_hop_for _ _) as [hop s1]. split_and!; [done|done|apply Hs|apply Hs].
Qed.

Lemma source_routed_command_lost_witness :
  let h := NwkHeader.with_source_route (NwkHeader.new FrameType.Command 0x2222 0 30 7) 1 [0x11; 0x11; 0x33; 0x33] in
  let buf := nwk_header_wire h ++ [3; 0; 0x44; 0x44] in
  let s := example_router [1024] in
  Nwk.actions (Route.relay_network_status buf 14 18 true s) = Nwk.actions s.
Proof.
  intros h buf s. assert (nwk_header_wf h) as Hwf.
  { split_and!; vm_compute; try done. split; [done|]. exists 2%nat. split_and!; [done|lia|by right]. }
  exact (proj1 (proj2 (source_routed_command_lost h (SourceRoute.mk 1 [0x11; 0x11; 0x33; 0x33])
    [3; 0; 0x44; 0x44] 14 18 true s Hwf eq_refl))).
Defined.

(** ** One-way links *)

Section one_way.
Context {C R : Type} {D : NwkDims.t} `{!BlockCipher C} {Hrng : Rng R} {Hfair : FairRng R} {Hv : Heapless}.
Implicit Types s : Nwk.t C R D.
Import Nwk.

(** No route leads through [hop]. *)
Definition unused_hop (hop : Z) s : Prop := Forall (λ e, RoutingTable.via hop e = false) (RoutingTable.entries (routes s)).

Lemma unused_not_chosen hop dst discover s : unused_hop hop s → (Tx.route_unicast dst discover s).1 ≠ Tx.RouteDecision.NextHop hop.
Proof.
  intros Hu. unfold Tx.route_unicast. repeat case_match; cbn [fst]; try done. intros [= Hh].
  match goal with E : RoutingTable.get _ _ = Some ?e |- _ => apply find_some in E as [He _]; rename e into x end.
  unfold unused_hop in Hu. rewrite List.Forall_forall in Hu. apply Hu in He. unfold RoutingTable.via in He.
  rewrite Hh, Z.eqb_refl, bool_decide_true in He by done. done.
Qed.

(** Where a router sends a unicast directly: to a child, to a usable neighbour, or,
    without route discovery, to any neighbour. *)
Lemma direct_only_neighbor dst discover h s :
  Nib.is_end_device (nib s) = false → (Tx.route_unicast dst discover s).1 = Tx.RouteDecision.Direct h →
  h = dst ∧ ∃ n, NeighborTable.by_short (neighbors s) dst = Some n ∧
    (Relationship.is_child (NeighborEntry.relationship n) = true ∨ Tx.usable_router n = true ∨ discover = false).
Proof.
  intros He. unfold Tx.route_unicast. rewrite He. destruct (NeighborTable.by_short (neighbors s) dst) as [n|].
  - cbn [from_option is_some].
    assert (Relationship.is_child (NeighborEntry.relationship n) = true ∨ Tx.usable_router n = true ∨ discover = false →
      Tx.RouteDecision.Direct dst = Tx.RouteDecision.Direct h → h = dst ∧ ∃ m, Some n = Some m ∧
      (Relationship.is_child (NeighborEntry.relationship m) = true ∨ Tx.usable_router m = true ∨ discover = false)) as Hd
      by (intros ? [= <-]; eauto).
    destruct (Relationship.is_child _) eqn:Ec; [apply Hd; auto|].
    destruct (Tx.usable_router n) eqn:Eu; [apply Hd; auto|].
    destruct discover; repeat case_match; try done; apply Hd; auto.
  - cbn [from_option is_some]. by repeat case_match.
Qed.

Lemma invalidated {K} (t : RoutingTable.t K) hop :
  Forall (λ e, RoutingTable.via hop e = false) (RoutingTable.entries (RoutingTable.invalidate_via t hop).2).
Proof.
  cbn. apply Forall_fmap, Forall_true. intros e. cbn. destruct (RoutingTable.via hop e) eqn:E; [|done].
  unfold RoutingTable.via. cbn. by rewrite bool_decide_false, andb_false_r.
Qed.
End one_way.



(** ** A route reply that never returns

    A router with one counter value left sends data to a destination it has no
    route to: the route request takes the value and a reservation is asked for.
    The reply that completes the discovery arrives before the reservation is
    committed. *)
Definition example_discovery : Nwk.t Z Z (NwkDims.Dims 4 4 2 4) :=
  let s := Nwk.set_routes (RoutingTable.new _) (Nwk.set_pending [] (example_router [])) in
  let s := Nwk.set_security (NwkSecurity.with_outgoing (Nwk.security s) (OutgoingCounter.mk 1023 1024 1024 64 None)) s in
  let s := Nwk.set_neighbors (NeighborTable.mk [Entries.on_link_status 200 3 true 0
    (NeighborEntry.new 0xBB 0x3333 LogicalDeviceType.Router true Relationship.Sibling 200)] 1 0 0) s in
  (Bcast.data_request 0x2222 [1; 2; 3] None true true s).2.

Lemma example_discovery_sent :
  length (Nwk.actions example_discovery) = 2%nat ∧
  (Tx.waits_for 0x2222 <$> Nwk.pending example_discovery) = [true] ∧ reserve example_discovery = 0.
Proof. vm_compute. done. Qed.

Lemma example_reply_hangs :
  Route.on_route_reply 1000 (CommandContext.mk 0x3333 0x1111 (Some 0xBB) None 0x3333 200 0 true (Some 0xBB) 1 1)
    (RouteReply.mk (Nwk.rreq_id example_discovery) 0x1111 0x2222 1 (Some 0xAA) (Some 0xCC) []) example_discovery = None.
Proof. vm_compute. reflexivity. Qed.
