(* ===== verification/NwkPower.v ===== *)
(** * The network layer: power negotiation (panweave-nwk/src/layer/power.rs)

    The Link Power Delta commands a device sends to its neighbours, the poll of a
    sleepy end device for the answer to its request, and what a received command
    changes. *)

From S2P Require Import Prelude Types Status Codec Heapless FrameCounter AuxHeader Ccm SecFrame Keys NwkSecurity NwkFrame Routing NwkTables NwkCommand NwkNeighbor NwkDiscovery NwkInterface MacFrame NwkState NwkTx NwkBcast NwkRoute.

(** [entry.field = v] of a neighbour *)
Module NeighborField.
Import NeighborEntry.
Definition set_device_type (v : LogicalDeviceType.t) (e : t) : t :=
  mk (extended e) (short e) v (rx_on_when_idle e) (end_device_configuration e) (timeout_counter_secs e)
  (device_timeout_secs e) (relationship e) (transmit_failure e) (lqa e) (outgoing_cost e) (age e)
  (keepalive_received e) (router_age e) (security_timer_secs e) (router_connectivity e)
  (router_neighbor_set_diversity e) (router_outbound_activity e) (router_inbound_activity e) (last_key_sequence e)
  (last_rssi_dbm e) (link e).
Definition set_rx_on_when_idle (v : bool) (e : t) : t :=
  mk (extended e) (short e) (device_type e) v (end_device_configuration e) (timeout_counter_secs e)
  (device_timeout_secs e) (relationship e) (transmit_failure e) (lqa e) (outgoing_cost e) (age e)
  (keepalive_received e) (router_age e) (security_timer_secs e) (router_connectivity e)
  (router_neighbor_set_diversity e) (router_outbound_activity e) (router_inbound_activity e) (last_key_sequence e)
  (last_rssi_dbm e) (link e).
Definition set_end_device_configuration (v : Z) (e : t) : t :=
  mk (extended e) (short e) (device_type e) (rx_on_when_idle e) v (timeout_counter_secs e) (device_timeout_secs e)
  (relationship e) (transmit_failure e) (lqa e) (outgoing_cost e) (age e) (keepalive_received e) (router_age e)
  (security_timer_secs e) (router_connectivity e) (router_neighbor_set_diversity e) (router_outbound_activity e)
  (router_inbound_activity e) (last_key_sequence e) (last_rssi_dbm e) (link e).
Definition set_timeout_counter_secs (v : Z) (e : t) : t :=
  mk (extended e) (short e) (device_type e) (rx_on_when_idle e) (end_device_configuration e) v
  (device_timeout_secs e) (relationship e) (transmit_failure e) (lqa e) (outgoing_cost e) (age e)
  (keepalive_received e) (router_age e) (security_timer_secs e) (router_connectivity e)
  (router_neighbor_set_diversity e) (router_outbound_activity e) (router_inbound_activity e) (last_key_sequence e)
  (last_rssi_dbm e) (link e).
Definition set_relationship (v : Relationship.t) (e : t) : t :=
  mk (extended e) (short e) (device_type e) (rx_on_when_idle e) (end_device_configuration e)
  (timeout_counter_secs e) (device_timeout_secs e) v (transmit_failure e) (lqa e) (outgoing_cost e) (age e)
  (keepalive_received e) (router_age e) (security_timer_secs e) (router_connectivity e)
  (router_neighbor_set_diversity e) (router_outbound_activity e) (router_inbound_activity e) (last_key_sequence e)
  (last_rssi_dbm e) (link e).
Definition set_keepalive_received (v : bool) (e : t) : t :=
  mk (extended e) (short e) (device_type e) (rx_on_when_idle e) (end_device_configuration e)
  (timeout_counter_secs e) (device_timeout_secs e) (relationship e) (transmit_failure e) (lqa e) (outgoing_cost e)
  (age e) v (router_age e) (security_timer_secs e) (router_connectivity e) (router_neighbor_set_diversity e)
  (router_outbound_activity e) (router_inbound_activity e) (last_key_sequence e) (last_rssi_dbm e) (link e).
Definition set_security_timer_secs (v : Z) (e : t) : t :=
  mk (extended e) (short e) (device_type e) (rx_on_when_idle e) (end_device_configuration e)
  (timeout_counter_secs e) (device_timeout_secs e) (relationship e) (transmit_failure e) (lqa e) (outgoing_cost e)
  (age e) (keepalive_received e) (router_age e) v (router_connectivity e) (router_neighbor_set_diversity e)
  (router_outbound_activity e) (router_inbound_activity e) (last_key_sequence e) (last_rssi_dbm e) (link e).
Definition set_transmit_failure (v : Z) (e : t) : t :=
  mk (extended e) (short e) (device_type e) (rx_on_when_idle e) (end_device_configuration e)
  (timeout_counter_secs e) (device_timeout_secs e) (relationship e) v (lqa e) (outgoing_cost e) (age e)
  (keepalive_received e) (router_age e) (security_timer_secs e) (router_connectivity e)
  (router_neighbor_set_diversity e) (router_outbound_activity e) (router_inbound_activity e) (last_key_sequence e)
  (last_rssi_dbm e) (link e).
Definition set_lqa (v : LqaFilter.t) (e : t) : t :=
  mk (extended e) (short e) (device_type e) (rx_on_when_idle e) (end_device_configuration e)
  (timeout_counter_secs e) (device_timeout_secs e) (relationship e) (transmit_failure e) v (outgoing_cost e)
  (age e) (keepalive_received e) (router_age e) (security_timer_secs e) (router_connectivity e)
  (router_neighbor_set_diversity e) (router_outbound_activity e) (router_inbound_activity e) (last_key_sequence e)
  (last_rssi_dbm e) (link e).
Definition set_age (v : Z) (e : t) : t :=
  mk (extended e) (short e) (device_type e) (rx_on_when_idle e) (end_device_configuration e)
  (timeout_counter_secs e) (device_timeout_secs e) (relationship e) (transmit_failure e) (lqa e) (outgoing_cost e)
  v (keepalive_received e) (router_age e) (security_timer_secs e) (router_connectivity e)
  (router_neighbor_set_diversity e) (router_outbound_activity e) (router_inbound_activity e) (last_key_sequence e)
  (last_rssi_dbm e) (link e).
Definition set_last_rssi_dbm (v : option Z) (e : t) : t :=
  mk (extended e) (short e) (device_type e) (rx_on_when_idle e) (end_device_configuration e)
  (timeout_counter_secs e) (device_timeout_secs e) (relationship e) (transmit_failure e) (lqa e) (outgoing_cost e)
  (age e) (keepalive_received e) (router_age e) (security_timer_secs e) (router_connectivity e)
  (router_neighbor_set_diversity e) (router_outbound_activity e) (router_inbound_activity e) (last_key_sequence e)
  v (link e).
Definition set_link (v : option Z) (e : t) : t :=
  mk (extended e) (short e) (device_type e) (rx_on_when_idle e) (end_device_configuration e)
  (timeout_counter_secs e) (device_timeout_secs e) (relationship e) (transmit_failure e) (lqa e) (outgoing_cost e)
  (age e) (keepalive_received e) (router_age e) (security_timer_secs e) (router_connectivity e)
  (router_neighbor_set_diversity e) (router_outbound_activity e) (router_inbound_activity e) (last_key_sequence e)
  (last_rssi_dbm e) v.
Definition set_last_key_sequence (v : option Z) (e : t) : t :=
  mk (extended e) (short e) (device_type e) (rx_on_when_idle e) (end_device_configuration e)
  (timeout_counter_secs e) (device_timeout_secs e) (relationship e) (transmit_failure e) (lqa e) (outgoing_cost e)
  (age e) (keepalive_received e) (router_age e) (security_timer_secs e) (router_connectivity e)
  (router_neighbor_set_diversity e) (router_outbound_activity e) (router_inbound_activity e) v (last_rssi_dbm e)
  (link e).
Definition set_short (v : Z) (e : t) : t :=
  mk (extended e) v (device_type e) (rx_on_when_idle e) (end_device_configuration e) (timeout_counter_secs e)
  (device_timeout_secs e) (relationship e) (transmit_failure e) (lqa e) (outgoing_cost e) (age e)
  (keepalive_received e) (router_age e) (security_timer_secs e) (router_connectivity e)
  (router_neighbor_set_diversity e) (router_outbound_activity e) (router_inbound_activity e) (last_key_sequence e)
  (last_rssi_dbm e) (link e).
Definition set_router_age (v : Z) (e : t) : t :=
  mk (extended e) (short e) (device_type e) (rx_on_when_idle e) (end_device_configuration e)
  (timeout_counter_secs e) (device_timeout_secs e) (relationship e) (transmit_failure e) (lqa e) (outgoing_cost e)
  (age e) (keepalive_received e) v (security_timer_secs e) (router_connectivity e)
  (router_neighbor_set_diversity e) (router_outbound_activity e) (router_inbound_activity e) (last_key_sequence e)
  (last_rssi_dbm e) (link e).
Definition set_outgoing_cost (v : Z) (e : t) : t :=
  mk (extended e) (short e) (device_type e) (rx_on_when_idle e) (end_device_configuration e)
  (timeout_counter_secs e) (device_timeout_secs e) (relationship e) (transmit_failure e) (lqa e) v (age e)
  (keepalive_received e) (router_age e) (security_timer_secs e) (router_connectivity e)
  (router_neighbor_set_diversity e) (router_outbound_activity e) (router_inbound_activity e) (last_key_sequence e)
  (last_rssi_dbm e) (link e).
Definition set_router_inbound_activity (v : Z) (e : t) : t :=
  mk (extended e) (short e) (device_type e) (rx_on_when_idle e) (end_device_configuration e)
  (timeout_counter_secs e) (device_timeout_secs e) (relationship e) (transmit_failure e) (lqa e) (outgoing_cost e)
  (age e) (keepalive_received e) (router_age e) (security_timer_secs e) (router_connectivity e)
  (router_neighbor_set_diversity e) (router_outbound_activity e) v (last_key_sequence e) (last_rssi_dbm e)
  (link e).
End NeighborField.

Module Power.
Import Nwk Tx.

Definition ENTRIES_PER_FRAME : nat := 24.
Definition MAX_JITTER : Z := Duration.from_secs 10.
Definition REQUEST_POLLS : Z := 3.

(** [i8::saturating_sub] *)
Definition i8_saturating_sub (a b : Z) : Z := Z.max (-128) (Z.min 127 (a - b)).

Definition entry (address delta_db : Z) : list Z := to_le 2 address ++ to_le 1 (wrap 8 delta_db).

(** [slice.chunks(n)], at most one chunk an element *)
Fixpoint chunks {A} (fuel n : nat) (l : list A) : list (list A) :=
  match fuel, l with
  | S fuel, _ :: _ => take n l :: chunks fuel n (drop n l)
  | _, _ => []
  end.

Section power.
Context {C R : Type} {D : NwkDims.t} `{!BlockCipher C} {Hrng : Rng R} {Hfair : FairRng R} {Hv : Heapless}.
Abbreviation st := (Nwk.t C R D).
Implicit Types s : st.

Definition power_delta_active s : bool :=
  NwkConfig.power_control (config s) && Nib.joined (nib s) && Nib.authenticated (nib s)
  && negb (Nib.link_power_delta_transmit_rate (nib s) =? 0)
  && (if Nib.is_end_device (nib s) then ParentInformation.power_negotiation (Nib.parent_information (nib s))
      else Nib.router_started (nib s)).

Definition schedule_power_delta s : st :=
  let rate := Duration.from_secs (Nib.link_power_delta_transmit_rate (nib s)) in
  let '(j, s) := jitter 0 MAX_JITTER s in
  set_power_delta_due (Some (Instant.saturating_add (Instant.saturating_add (now s) rate) j)) s.

Definition refresh_power_delta_schedule s : st :=
  if negb (power_delta_active s) then set_power_request None (set_power_delta_due None s)
  else match power_delta_due s with None => schedule_power_delta s | Some _ => s end.

Definition power_delta_for (rssi_dbm : Z) s : Z := i8_saturating_sub (NwkConfig.optimal_rssi_dbm (config s)) rssi_dbm.

(** The next poll of a sleepy end device for its response. *)
Definition poll_after (t polls : Z) : PendingRequest.t :=
  PendingRequest.mk (Instant.saturating_add t MacConstants.response_wait_time) polls.

(** The header of a command to a neighbour, with its extended address when known. *)
Definition neighbor_header s (dst ext seq : Z) : NwkHeader.t :=
  let header := command_header s dst (Nib.network_address (nib s)) 1 seq in
  if ext =? ExtendedAddress.ZERO then header else NwkHeader.with_dst_ieee header ext.

Definition send_power_delta s : st :=
  if Nib.is_end_device (nib s) then
    let parent := Nib.parent_address (nib s) in
    match NeighborTable.parent (neighbors s) ≫= NeighborEntry.last_rssi_dbm with
    | None => s
    | Some rssi =>
        let delta := power_delta_for rssi s in
        let kind := if Nib.rx_on_when_idle (nib s) then LinkPowerDeltaType.Notification else LinkPowerDeltaType.Request in
        let cmd := LinkPowerDelta.mk kind (entry parent delta) in
        let '(seq, s) := next_sequence s in
        let header := neighbor_header s parent (Nib.parent_ieee (nib s)) seq in
        let '(r, s) := send_command_unicast header (NwkCommand.LinkPowerDelta cmd) parent true false TxKind.Command s in
        if is_ok r && bool_decide (kind = LinkPowerDeltaType.Request)
        then set_power_request (Some (poll_after (now s) REQUEST_POLLS)) s else s
    end
  else
    let listed n := if negb (NeighborEntry.rx_on_when_idle n) || negb (ShortAddress.is_unicast (NeighborEntry.short n)) then None
      else rssi ← NeighborEntry.last_rssi_dbm n; Some (NeighborEntry.short n, power_delta_for rssi s) in
    let es := NeighborTable.push_each (NwkDims.Neighbors D) [] (omap listed (NeighborTable.entries (neighbors s))) in
    foldl (λ s chunk,
      let raw := foldl (λ raw '(a, d), default raw (vec_extend_from_slice (3 * ENTRIES_PER_FRAME) raw (entry a d))) [] chunk in
      let cmd := LinkPowerDelta.mk LinkPowerDeltaType.Notification raw in
      let '(seq, s) := next_sequence s in
      let header := command_header s ShortAddress.BROADCAST_RX_ON (Nib.network_address (nib s)) 1 seq in
      ignore (send_command_broadcast_once header (NwkCommand.LinkPowerDelta cmd) true) s)
      s (chunks (length es) ENTRIES_PER_FRAME es).

Definition service_power_delta (tnow : Z) s : st :=
  let s :=
    match power_delta_due s with
    | Some t =>
        if Instant.has_reached tnow t then
          if power_delta_active s then schedule_power_delta (send_power_delta s) else set_power_delta_due None s
        else s
    | None => s
    end in
  match power_request s with
  | Some r =>
      if Instant.has_reached tnow (PendingRequest.next_poll r) then
        if PendingRequest.polls_left r =? 0
        then push_action NwkAction.MacResetTxPower (set_power_request None s)
        else push_action NwkAction.MacPoll
               (set_power_request (Some (poll_after tnow (PendingRequest.polls_left r - 1))) s)
      else s
  | None => s
  end.

Definition power_deadline s : option Z :=
  match power_delta_due s, PendingRequest.next_poll <$> power_request s with
  | Some a, Some b => Some (Z.min a b)
  | Some a, None => Some a
  | None, b => b
  end.

Definition on_link_power_delta (ctx : CommandContext.t) (cmd : LinkPowerDelta.t) s : st :=
  let kind := LinkPowerDelta.kind cmd in
  let src := CommandContext.src ctx in
  if negb (NwkConfig.power_control (config s)) || negb (CommandContext.secured ctx)
     || bool_decide (kind = LinkPowerDeltaType.Reserved) then s
  else if bool_decide (kind ≠ LinkPowerDeltaType.Notification) && ShortAddress.is_broadcast (CommandContext.dst ctx) then s
  else
    match NeighborTable.by_short (neighbors s) src with
    | None => s
    | Some n =>
        let extended := default (NeighborEntry.extended n) (CommandContext.src_ieee ctx) in
        let from_end_device := NeighborEntry.is_end_device n in
        let sender_rx_on := NeighborEntry.rx_on_when_idle n in
        let mine := snd <$> List.find (λ '(a, _), a =? Nib.network_address (nib s)) (LinkPowerDelta.entries cmd) in
        let end_device := Nib.is_end_device (nib s) in
        if negb (is_some mine) && end_device then s
        else
          let s := set_neighbors (NeighborTable.by_short_mut (neighbors s) src
            (NeighborField.set_last_rssi_dbm (Some (CommandContext.rssi_dbm ctx)))) s in
          let apply := negb (end_device && negb (Nib.rx_on_when_idle (nib s))
            && bool_decide (kind ≠ LinkPowerDeltaType.Response)) in
          let s :=
            match mine with
            | Some delta =>
                if apply then push_action (NwkAction.MacAdjustTxPower src extended delta (CommandContext.rssi_dbm ctx)) s else s
            | None => s
            end in
          let s := if bool_decide (kind = LinkPowerDeltaType.Response) then set_power_request None s else s in
          let s := push_event (NwkEvent.LinkPowerDelta src kind mine) s in
          if end_device then s
          else if negb from_end_device || bool_decide (kind = LinkPowerDeltaType.Response) then s
          else
            let delta := power_delta_for (CommandContext.rssi_dbm ctx) s in
            let rsp := LinkPowerDelta.mk LinkPowerDeltaType.Response (entry src delta) in
            let '(seq, s) := next_sequence s in
            let header := neighbor_header s src extended seq in
            ignore (send_command_unicast header (NwkCommand.LinkPowerDelta rsp) src true (negb sender_rx_on) TxKind.Command) s
    end.
End power.
End Power.
