(* ===== verification/NwkScan.v ===== *)
(** * The network layer: scans, formation and the network's identity
    (panweave-nwk/src/layer/join.rs)

    The discovery and energy scans, what a beacon changes, the formation of a
    network, the beacon payload, permit joining, and the change of the PAN
    identifier.  [sort_unstable_by_key] leaves the order of equal keys open, so
    the sort is an argument with its documented laws. *)

From stdpp Require Import sorting.
From S2P Require Import Prelude Types Status Codec Tlv Heapless FrameCounter AuxHeader Ccm SecFrame Keys NwkSecurity NwkFrame Routing NwkTables NwkCommand NwkNeighbor NwkBeacon NwkDiscovery NwkInterface MacFrame NwkState NwkTx NwkBcast NwkRoute NwkPower.

Definition next_u64 {R} `{!Rng R} (r : R) : Z * R := let '(b, r) := fill_bytes 8 r in (from_le b, r).

(** [slice::sort_unstable_by_key] of the standard library: a permutation in the
    order of the keys, the order of equal keys unspecified. *)
Class UnstableSort := {
  sort_unstable_by_key {A} (key : A → Z) (l : list A) : list A;
  sort_permutes {A} (key : A → Z) (l : list A) : Permutation (sort_unstable_by_key key l) l;
  sort_orders {A} (key : A → Z) (l : list A) : StronglySorted (λ a b, key a ≤ key b) (sort_unstable_by_key key l)
}.

Module Scan.
Import Nwk Tx.

Definition sat_succ (w v : Z) : Z := sat_add w v 1.

Section scan.
Context {C R : Type} {D : NwkDims.t} `{!BlockCipher C} {Hrng : Rng R} {Hfair : FairRng R} {Hv : Heapless} {Hsort : UnstableSort}.
Abbreviation st := (Nwk.t C R D).
Implicit Types s : st.

Definition on_nib (f : Nib.t → Nib.t) s : st := set_nib (f (nib s)) s.

(** ** The beacon payload *)

(** The Router Information this device reports of itself. *)
Definition router_bits s : Z :=
  let bits := 0 in
  let bits := if Nib.hub_connectivity (nib s) then Z.lor bits RouterInformation.HUB_CONNECTIVITY else bits in
  let bits := if Nib.preferred_parent (nib s) then Z.lor bits RouterInformation.PREFERRED_PARENT else bits in
  let bits :=
    if from_option (λ t, Instant.has_reached (now s) (Instant.saturating_add t (Duration.from_secs (24 * 3600))))
         false (operating_since s)
    then Z.lor bits RouterInformation.LONG_UPTIME else bits in
  let methods := NwkConfig.keepalive_methods (config s) in
  let bits := if flag 0x01 methods then Z.lor bits RouterInformation.MAC_DATA_POLL_KEEPALIVE else bits in
  if flag 0x02 methods then Z.lor bits RouterInformation.END_DEVICE_KEEPALIVE else bits.

Definition has_router_info s : bool :=
  match TlvSet.validate (network_wide_beacon_appendix s) (λ _, false) with
  | Ok set => is_some (TlvSet.find set tag.ROUTER_INFORMATION)
  | Err _ => false
  end.

(** The octets of the appendix: those written by the time the writer stops. *)
Definition beacon_appendix s : list Z :=
  let w := Writer.new (replicate constants.MAX_BEACON_APPENDIX 0) in
  let w := (Writer.bytes (network_wide_beacon_appendix s) w).2 in
  let w :=
    if NwkConfig.r23_beacon_appendix (config s) && negb (has_router_info s)
    then (RouterInformation.write (RouterInformation.mk (router_bits s)) w).2 else w in
  default [] (get_range (Writer.buf w) 0 (Writer.position w)).

Definition update_beacon_payload s : st :=
  if negb (Nib.is_router_or_coordinator (nib s)) then s
  else
    let max_children := Z.to_nat (Nib.max_children (nib s)) in
    let room := (NeighborTable.len (neighbors s) <? NeighborTable.capacity (neighbors s))%nat in
    let router_capacity :=
      (NeighborTable.router_child_count (neighbors s) <? Z.to_nat (Nib.max_routers (nib s)))%nat
      && (NeighborTable.child_count (neighbors s) <? max_children)%nat && room in
    let end_device_capacity := (NeighborTable.child_count (neighbors s) <? max_children)%nat && room in
    let payload := BeaconPayload.new (Nib.extended_pan_id (nib s)) router_capacity end_device_capacity
      (Nib.update_id (nib s)) (beacon_appendix s) in
    match encode_to_slice payload (replicate 52 0) with
    | (Err _, _) => s
    | (Ok n, buf) =>
        let v := default [] (vec_extend_from_slice 52 [] (default [] (get_range buf 0 n))) in
        push_action (NwkAction.MacSetBeaconPayload v) s
    end.

(** [for t in set.iter()] of the appendix, until a write fails. *)
Fixpoint write_global (ts : list Tlv) (w : Writer.t) : Writer.t :=
  match ts with
  | [] => w
  | t :: ts =>
      if negb (is_global_tag (Tlv.tag t)) then write_global ts w
      else match write_tlv (Tlv.tag t) (Tlv.value t) w with (Err _, w) => w | (Ok _, w) => write_global ts w end
  end.

Definition set_network_wide_beacon_appendix (tlvs : list Z) s : st :=
  let v := vec_clear (network_wide_beacon_appendix s) in
  let v :=
    match TlvSet.validate tlvs (λ _, false) with
    | Ok set =>
        let w := write_global (TlvSet.iter set) (Writer.new (replicate constants.MAX_BEACON_APPENDIX 0)) in
        default v (vec_extend_from_slice constants.MAX_BEACON_APPENDIX v
          (default [] (get_range (Writer.buf w) 0 (Writer.position w))))
    | Err _ => v
    end in
  update_beacon_payload (Nwk.set_network_wide_beacon_appendix v s).

(** ** Channels *)

Definition note_channel_in_use s : st :=
  let page := Nib.channel_page (nib s) in
  let channel := Nib.channel (nib s) in
  match MacInterfaceTable.interface_for (interfaces s) page channel with
  | None => s
  | Some e =>
      set_interfaces (MacInterfaceTable.get_mut (interfaces s) (MacInterfaceEntry.index e)
        (MacInterfaceEntry.set_channel_in_use (Some (page, channel)))) s
  end.

Definition change_channel (channel update_id : Z) s : st :=
  let s := on_nib (Nib.set_channel channel) s in
  let s := note_channel_in_use s in
  let s := on_nib (Nib.set_update_id update_id) s in
  let s := on_nib (Nib.set_next_channel_change ChannelMask.EMPTY) s in
  let s := push_action (NwkAction.MacSetChannel (Nib.channel_page (nib s)) channel) s in
  let s := push_action NwkAction.MacResetTxPower s in
  let s := if Nib.is_router_or_coordinator (nib s) then update_beacon_payload s else s in
  push_action NwkAction.Persist s.

(** ** Scans *)

Definition network_discovery_with (channels duration : Z) (only_permit_join : bool) (enhanced_scan : option bool)
    : SE st NwkError.t unit := λ s,
  if is_some (scan s) then (Err NwkError.Busy, s)
  else
    let channels := MacInterfaceTable.supported_subset (interfaces s) channels in
    if ChannelMask.is_empty channels then (Err NwkError.InvalidParameter, s)
    else
      let s := set_discovery (DiscoveryTable.clear (discovery s)) s in
      let s := set_survey SurveyCounts.default s in
      let s := push_action NwkAction.MacResetTxPower s in
      let s := set_scan (Some (ScanState.mk ScanPurpose.Discovery channels duration only_permit_join)) s in
      let enhanced_scan := default (NwkConfig.enhanced_beacon_requests (config s)
        || existsb (λ i, match MacInterfaceEntry.scan_type i with ScanType.EnhancedActive => true | _ => false end)
             (MacInterfaceTable.enabled (interfaces s))) enhanced_scan in
      let enhanced :=
        if negb enhanced_scan then None
        else if negb (Nib.extended_pan_id (nib s) =? ExtendedAddress.ZERO) && negb only_permit_join
        then Some (EnhancedBeaconRequest.rejoining (Nib.extended_pan_id (nib s)) (Nib.network_address (nib s)) None)
        else Some (EnhancedBeaconRequest.joining None) in
      (Ok tt, push_action (NwkAction.MacScan ScanKind.Active channels duration enhanced) s).

Definition network_discovery (channels duration : Z) (only_permit_join : bool) : SE st NwkError.t unit :=
  network_discovery_with channels duration only_permit_join None.

Definition energy_scan (channels duration : Z) : SE st NwkError.t unit := λ s,
  if is_some (scan s) then (Err NwkError.Busy, s)
  else
    let channels := MacInterfaceTable.supported_subset (interfaces s) channels in
    if ChannelMask.is_empty channels || (5 <? duration) then (Err NwkError.InvalidParameter, s)
    else
      let s := set_scan (Some (ScanState.mk ScanPurpose.EnergyDetect channels duration false)) s in
      (Ok tt, push_action (NwkAction.MacScan ScanKind.Energy channels duration None) s).

Definition report_pan_id_conflict s : st :=
  if negb (Nib.joined (nib s)) || negb (Nib.is_router_or_coordinator (nib s)) then s
  else on_nib (λ n, Nib.set_pan_id_conflict_count (sat_succ 16 (Nib.pan_id_conflict_count n)) n) s.

(** [self.survey.field = self.survey.field.saturating_add(1)], while surveying *)
Definition survey_total (v : SurveyCounts.t) : SurveyCounts.t := SurveyCounts.set_total (sat_succ 8 (SurveyCounts.total v)) v.
Definition survey_other (v : SurveyCounts.t) : SurveyCounts.t :=
  SurveyCounts.set_other_networks (sat_succ 8 (SurveyCounts.other_networks v)) v.
Definition survey_own (parent : bool) (v : SurveyCounts.t) : SurveyCounts.t :=
  let v := SurveyCounts.set_on_network (sat_succ 8 (SurveyCounts.on_network v)) v in
  if parent then SurveyCounts.set_potential_parents (sat_succ 8 (SurveyCounts.potential_parents v)) v else v.
Definition surveying s (f : SurveyCounts.t → SurveyCounts.t) : st :=
  match scan s with
  | Some (ScanState.mk ScanPurpose.Discovery _ _ _) => set_survey (f (survey s)) s
  | _ => s
  end.

(** The candidate a beacon describes. *)
Definition candidate_of (src_pan short : Z) (beacon : Beacon.t) (payload : BeaconPayload.t) (channel page lqi : Z) : Candidate.t :=
  let appendix := BeaconPayload.appendix_tlvs payload in
  let router_info := appendix ≫= GlobalTlvs.router_information in
  let octets := BeaconPayload.appendix payload in
  let app := default [] (vec_extend_from_slice MAX_APPENDIX []
    (default [] (get_range octets 0 (Nat.min (length octets) MAX_APPENDIX)))) in
  Candidate.mk (BeaconPayload.extended_pan_id payload) src_pan page channel short None lqi
    (BeaconPayload.update_id payload) (BeaconPayload.router_capacity payload) (BeaconPayload.end_device_capacity payload)
    (SuperframeSpec.association_permit (Beacon.superframe beacon)) (SuperframeSpec.pan_coordinator (Beacon.superframe beacon))
    router_info (is_some appendix && is_some router_info) app 0.

Definition discovered (src_pan : Z) (src : MacAddress.t) (beacon : Beacon.t) (payload : BeaconPayload.t)
    (channel page lqi : Z) (only_permit : bool) s : st :=
  if only_permit && negb (SuperframeSpec.association_permit (Beacon.superframe beacon)) then s
  else if negb (Nib.extended_pan_id (nib s) =? ExtendedAddress.ZERO)
          && negb (BeaconPayload.extended_pan_id payload =? Nib.extended_pan_id (nib s)) then s
  else
    match MacAddress.short src with
    | None => s
    | Some short =>
        let c := candidate_of src_pan short beacon payload channel page lqi in
        let parent := if Nib.is_end_device (nib s) then Some (Nib.parent_address (nib s)) else None in
        set_discovery (DiscoveryTable.add (discovery s) c (Nib.update_id (nib s)) parent) s
    end.

(** What a formation remembers of a beacon. *)
Definition network_seen (src_pan channel : Z) (f : FormationState.t) : FormationState.t :=
  let f := FormationState.set_networks_per_channel
    (alter (sat_succ 8) (Z.to_nat channel) (FormationState.networks_per_channel f)) f in
  if bool_decide (src_pan ∈ FormationState.seen_pan_ids f) then f
  else match vec_push 16 (FormationState.seen_pan_ids f) src_pan with
       | Ok l => FormationState.set_seen_pan_ids l f
       | Err _ => f
       end.

(** A beacon of another network under this network's PAN identifier. *)
Definition other_network s (src_pan : Z) (payload : BeaconPayload.t) : bool :=
  (src_pan =? Nib.pan_id (nib s)) && negb (BeaconPayload.extended_pan_id payload =? Nib.extended_pan_id (nib s)).

Definition on_mac_beacon (src_pan : Z) (src : MacAddress.t) (beacon : Beacon.t) (channel page lqi : Z) s : st :=
  let s := surveying s survey_total in
  match decode_exact (A := BeaconPayload.t) (Beacon.payload beacon) with
  | Err _ => surveying s survey_other
  | Ok payload =>
      if (length (Beacon.payload beacon) =? 0)%nat || negb (BeaconPayload.is_zigbee_pro payload)
      then surveying s survey_other
      else
        let own := Nib.joined (nib s) && (BeaconPayload.extended_pan_id payload =? Nib.extended_pan_id (nib s)) in
        let s := surveying s (if own then survey_own (BeaconPayload.end_device_capacity payload) else survey_other) in
        match scan s with
        | Some sc =>
            match ScanState.purpose sc with
            | ScanPurpose.Discovery => discovered src_pan src beacon payload channel page lqi (ScanState.only_permit_join sc) s
            | ScanPurpose.FormationActive | ScanPurpose.PanIdConflict =>
                let s := match formation s with
                         | Some f => set_formation (Some (network_seen src_pan channel f)) s
                         | None => s
                         end in
                if bool_decide (ScanState.purpose sc = ScanPurpose.PanIdConflict) && other_network s src_pan payload
                then report_pan_id_conflict s else s
            | ScanPurpose.FormationEnergy | ScanPurpose.EnergyDetect =>
                if Nib.joined (nib s) && other_network s src_pan payload && Nib.is_router_or_coordinator (nib s)
                then report_pan_id_conflict s else s
            end
        | None =>
            if Nib.joined (nib s) && other_network s src_pan payload && Nib.is_router_or_coordinator (nib s)
            then report_pan_id_conflict s else s
        end
  end.

(** ** Formation *)

Definition network_formation_with (channels duration : Z) (distributed : bool) (pan_id short : option Z)
    : SE st NwkError.t unit := λ s,
  if from_option (λ p, negb (PanId.is_valid_for_formation p)) false pan_id then (Err NwkError.InvalidParameter, s)
  else if from_option (λ a, negb (ShortAddress.is_unicast a)) false short then (Err NwkError.InvalidParameter, s)
  else if Nib.joined (nib s) || is_some (scan s) then (Err NwkError.InvalidRequest, s)
  else
    let channels := MacInterfaceTable.supported_subset (interfaces s) channels in
    if ChannelMask.is_empty channels then (Err NwkError.InvalidParameter, s)
    else if negb distributed && negb (Nib.is_coordinator (nib s)) then (Err NwkError.InvalidRequest, s)
    else if distributed && negb (Nib.is_router_or_coordinator (nib s)) then (Err NwkError.InvalidRequest, s)
    else
      let s := set_formation (Some (FormationState.mk channels (replicate 27 0) (replicate 27 0) [] distributed pan_id short)) s in
      let single := (ChannelMask.len channels =? 1)%nat in
      let purpose := if single then ScanPurpose.FormationActive else ScanPurpose.FormationEnergy in
      let s := set_scan (Some (ScanState.mk purpose channels duration false)) s in
      (Ok tt, push_action (NwkAction.MacScan (if single then ScanKind.Active else ScanKind.Energy) channels duration None) s).

Definition network_formation (channels duration : Z) (distributed : bool) : SE st NwkError.t unit :=
  network_formation_with channels duration distributed None None.

(** The quieter half of the channels scanned, one at least. *)
Definition quieter_half (channels : Z) (energy : list Z) : Z :=
  let chans := NeighborTable.push_each 27 [] ((λ c, (nth (Z.to_nat c) energy 0, c)) <$> ChannelMask.iter channels) in
  let chans := sort_unstable_by_key fst chans in
  let keep := Nat.max ((length chans + 1) / 2) 1 in
  foldl (λ mask '(_, c), ChannelMask.with_channel mask c) ChannelMask.EMPTY (take keep chans).

(** The channel with the fewest networks, the lowest energy among those. *)
Definition best_channel (f : FormationState.t) : option (Z * Z * Z) :=
  foldl (λ best c,
    let n := nth (Z.to_nat c) (FormationState.networks_per_channel f) 0 in
    let e := nth (Z.to_nat c) (FormationState.energy f) 0 in
    match best with
    | None => Some (c, n, e)
    | Some (_, bn, be) => if (n <? bn) || ((n =? bn) && (e <? be)) then Some (c, n, e) else best
    end) None (ChannelMask.iter (FormationState.channels f)).

(** [for _ in 0..n]: a random identifier that is free. *)
Fixpoint draw_pan_id (n : nat) (free : Z → bool) (r : R) : option Z * R :=
  match n with
  | O => (None, r)
  | S n =>
      let '(p, r) := next_u16 r in
      if PanId.is_valid_for_formation p && free p then (Some p, r) else draw_pan_id n free r
  end.

Definition on_rng {A} (f : R → A * R) s : A * st := let '(a, r) := f (rng s) in (a, set_rng r s).

Definition formation_failed s : st := push_event (NwkEvent.FormationConfirm NwkStatus.StartupFailure) s.

Definition choose_pan_id (f : FormationState.t) s : option Z * st :=
  match FormationState.pan_id f with
  | Some p => (Some p, s)
  | None => on_rng (draw_pan_id 16 (λ p, negb (bool_decide (p ∈ FormationState.seen_pan_ids f)))) s
  end.

Definition choose_short (f : FormationState.t) s : Z * st :=
  if FormationState.distributed f then
    match FormationState.short f with
    | Some a => (a, s)
    | None => let '(a, s) := on_rng (λ r, allocate_stochastic r (λ _, false)) s in (default 0x0001 a, s)
    end
  else (ShortAddress.COORDINATOR, s).

Definition choose_extended (f : FormationState.t) s : st :=
  if Nib.extended_pan_id (nib s) =? ExtendedAddress.ZERO then
    if FormationState.distributed f then
      let '(v, s) := on_rng next_u64 s in on_nib (Nib.set_extended_pan_id (Z.lor v 1)) s
    else on_nib (Nib.set_extended_pan_id (Nib.ieee_address (nib s))) s
  else s.

(** The identity of the new network. *)
Definition adopt_network (pan_id channel short : Z) s : st :=
  let s := on_nib (λ n, Nib.set_channel channel (Nib.set_pan_id pan_id n)) s in
  let s := note_channel_in_use s in
  on_nib (λ n, Nib.set_depth 0 (Nib.set_router_started true (Nib.set_authenticated true
    (Nib.set_joined true (Nib.set_network_address short n))))) s.

(** The network operates. *)
Definition network_formed (f : FormationState.t) (pan_id channel short : Z) s : st :=
  let s := adopt_network pan_id channel short s in
  let s := set_operating_since (Some (now s)) s in
  let s := set_link_status_due (Some (Instant.saturating_add (now s) (Nib.link_status_period (nib s)))) s in
  let s := Power.refresh_power_delta_schedule s in
  let s := set_child_age_last (now s) s in
  let s := push_action (NwkAction.MacStart pan_id (Nib.channel_page (nib s)) channel short
    (negb (FormationState.distributed f)) true) s in
  let s := update_beacon_payload s in
  let s := push_action NwkAction.Persist s in
  push_event (NwkEvent.FormationConfirm NwkStatus.Success) s.

Definition finish_formation s : st :=
  match formation s with
  | None => s
  | Some f =>
      let s := set_formation None s in
      match best_channel f with
      | None => formation_failed s
      | Some (channel, _, _) =>
          let '(p, s) := choose_pan_id f s in
          match p with
          | None => formation_failed s
          | Some pan_id =>
              let '(short, s) := choose_short f s in
              network_formed f pan_id channel short (choose_extended f s)
          end
      end
  end.

(** ** Permit joining *)

Definition permit_joining_active s : bool := from_option (λ t, now s <? t) false (permit_until s).
Definition is_permitting_joins s : bool := from_option (λ t, negb (Instant.has_reached (now s) t)) false (permit_until s).

Definition permit_joining (duration_secs : Z) : SE st NwkError.t unit := λ s,
  if negb (Nib.is_router_or_coordinator (nib s)) then (Err NwkError.InvalidRequest, s)
  else
    let permit v until s := push_event (NwkEvent.PermitJoining v)
      (push_action (NwkAction.MacSetPermit v) (set_permit_until until s)) in
    (Ok tt,
     match duration_secs with
     | 0 => permit false None s
     | 255 => permit true (Some Instant.FAR_FUTURE) s
     | n => permit true (Some (Instant.saturating_add (now s) (Duration.from_secs n))) s
     end).

(** ** The PAN identifier *)

Definition on_network_report (ctx : CommandContext.t) (report : NetworkReport.t) s : st :=
  if negb (CommandContext.secured ctx) || negb (NetworkReport.epid report =? Nib.extended_pan_id (nib s)) then s
  else if negb (Nib.manager_addr (nib s) =? Nib.network_address (nib s)) then s
  else if negb (NetworkReport.report_id report =? NetworkReport.PAN_ID_CONFLICT) then s
  else push_event (NwkEvent.NetworkStatus (CommandContext.src ctx) NetworkStatusCode.PanIdConflictReport) s.

Definition change_pan_id : SE st NwkError.t unit := λ s,
  if negb (Nib.joined (nib s)) || negb (Nib.manager_addr (nib s) =? Nib.network_address (nib s))
  then (Err NwkError.InvalidRequest, s)
  else if is_some (pan_id_update s) then (Err NwkError.Busy, s)
  else
    let staged := Nib.next_pan_id (nib s) in
    let '(new, s) :=
      if negb (staged =? PanId.BROADCAST) && negb (staged =? Nib.pan_id (nib s)) then (Some staged, s)
      else on_rng (draw_pan_id 16 (λ p, negb (p =? Nib.pan_id (nib s)))) s in
    match new with
    | None => (Err NwkError.Busy, s)
    | Some new_pan =>
        let update_id := wrap 8 (Nib.update_id (nib s) + 1) in
        let '(seq, s) := next_sequence s in
        let header := command_header s ShortAddress.BROADCAST_ALL (Nib.network_address (nib s)) constants.DEFAULT_RADIUS seq in
        let cmd := NwkCommand.NetworkUpdate (NetworkUpdate.mk NetworkUpdate.PAN_ID_UPDATE
          (Nib.extended_pan_id (nib s)) update_id new_pan) in
        let s :=
          match build_command header cmd with
          | Ok (frame, header_len) =>
              ignore (Bcast.originate_broadcast frame header_len (NwkConfig.security_enabled (config s))) s
          | Err _ => s
          end in
        let s := on_nib (Nib.set_next_pan_id new_pan) s in
        (Ok tt, set_pan_id_update (Some (new_pan, update_id,
           Instant.saturating_add (now s) (Nib.network_broadcast_delivery_time (nib s)))) s)
    end.

Definition on_network_update (ctx : CommandContext.t) (upd : NetworkUpdate.t) s : st :=
  let n := nib s in
  if negb (CommandContext.secured ctx) || negb (NetworkUpdate.epid upd =? Nib.extended_pan_id n) then s
  else if negb (CommandContext.src ctx =? Nib.manager_addr n) then s
  else if negb (Nib.next_pan_id n =? PanId.BROADCAST) && negb (Nib.next_pan_id n =? NetworkUpdate.new_pan_id upd) then s
  else if (0x80 <=? wrap 8 (NetworkUpdate.nwk_update_id upd - Nib.update_id n))
          || (NetworkUpdate.nwk_update_id upd =? Nib.update_id n) then s
  else
    let s := on_nib (Nib.set_next_pan_id (NetworkUpdate.new_pan_id upd)) s in
    set_pan_id_update (Some (NetworkUpdate.new_pan_id upd, NetworkUpdate.nwk_update_id upd,
      Instant.saturating_add (now s) (Nib.network_broadcast_delivery_time (nib s)))) s.

Definition service_pan_id_update (tnow : Z) s : st :=
  match pan_id_update s with
  | Some (pan, uid, at_) =>
      if Instant.has_reached tnow at_ then
        let s := set_pan_id_update None s in
        let s := on_nib (Nib.set_pan_id pan) s in
        let s := on_nib (Nib.set_update_id uid) s in
        let s := on_nib (Nib.set_next_pan_id PanId.BROADCAST) s in
        let s := push_action (NwkAction.MacSetPanId pan) s in
        let s := update_beacon_payload s in
        let s := push_action NwkAction.Persist s in
        let s := push_event (NwkEvent.PanIdChanged pan) s in
        push_event (NwkEvent.NetworkStatus (Nib.network_address (nib s)) NetworkStatusCode.PanIdUpdate) s
      else s
  | None => s
  end.

(** ** Children *)

Definition has_child_capacity (router : bool) s : bool :=
  if (NeighborTable.capacity (neighbors s) <=? NeighborTable.len (neighbors s))%nat then false
  else if router && negb (from_option MacInterfaceEntry.routers_allowed true
            (MacInterfaceTable.interface_for (interfaces s) (Nib.channel_page (nib s)) (Nib.channel (nib s)))) then false
  else if (Z.to_nat (Nib.max_children (nib s)) <=? NeighborTable.child_count (neighbors s))%nat then false
  else if router && (Z.to_nat (Nib.max_routers (nib s)) <=? NeighborTable.router_child_count (neighbors s))%nat then false
  else true.

Definition address_conflicts (short ext : Z) s : bool :=
  if short =? Nib.network_address (nib s) then true
  else if from_option (λ n, negb (NeighborEntry.extended n =? ext)) false (NeighborTable.by_short (neighbors s) short) then true
  else from_option (λ e, negb (e =? ext)) false (AddressMap.extended_for (address_map s) short).
End scan.
End Scan.

(** The merge sort is such a sort. *)
Section stable.
Context {A : Type} (key : A → Z).
Definition by_key (a b : A) : Prop := key a ≤ key b.
#[local] Instance by_key_dec a b : Decision (by_key a b) := decide (key a ≤ key b).
#[local] Instance by_key_total : Total by_key.
Proof. intros a b. unfold by_key. lia. Qed.
#[local] Instance by_key_trans : Transitive by_key.
Proof. intros a b c. unfold by_key. lia. Qed.
Definition stable_sort (l : list A) : list A := merge_sort by_key l.

Lemma stable_sort_sorted l : StronglySorted by_key (stable_sort l).
Proof. apply StronglySorted_merge_sort; apply _. Qed.

Lemma stable_sort_permutes l : Permutation (stable_sort l) l.
Proof. apply merge_sort_Permutation. Qed.
End stable.

#[export] Instance merge_unstable_sort : UnstableSort := {
  sort_unstable_by_key A key l := stable_sort key l;
  sort_permutes A key l := stable_sort_permutes key l;
  sort_orders A key l := stable_sort_sorted key l
}.
