(* ===== verification/NwkLeave.v ===== *)
(** * The network layer: leaving, and the end device timeout
    (panweave-nwk/src/layer/join.rs, maint.rs)

    The leave of this device and of its children, on request and on a received
    command, and the timeout an end device agrees with its parent, with its
    keepalives. *)

From S2P Require Import Prelude Types Status Codec Tlv Heapless FrameCounter AuxHeader Ccm SecFrame Keys NwkSecurity NwkFrame Routing NwkTables NwkCommand NwkNeighbor NwkBeacon NwkDiscovery NwkInterface MacFrame NwkState NwkTx NwkBcast NwkRoute NwkPower NwkScan.

Module Leaving.
Import Nwk Tx Scan.

Definition is_parent (n : NeighborEntry.t) : bool :=
  match NeighborEntry.relationship n with Relationship.Parent => true | _ => false end.

Section leaving.
Context {C R : Type} {D : NwkDims.t} `{!BlockCipher C} {Hrng : Rng R} {Hfair : FairRng R} {Hv : Heapless}.
Abbreviation st := (Nwk.t C R D).
Implicit Types s : st.

Definition on_neighbors (f : NeighborTable.t (NwkDims.Neighbors D) → NeighborTable.t (NwkDims.Neighbors D)) s : st :=
  set_neighbors (f (neighbors s)) s.

(** [neighbors.iter_mut().find(p)] and [for n in neighbors.iter_mut()] *)
Definition on_first (p : NeighborEntry.t → bool) (f : NeighborEntry.t → NeighborEntry.t) s : st :=
  on_neighbors (λ t, NeighborTable.mk (update_first p f (NeighborTable.entries t)) (NeighborTable.added t)
    (NeighborTable.removed t) (NeighborTable.stale t)) s.
Definition on_every (f : NeighborEntry.t → NeighborEntry.t) s : st :=
  on_neighbors (λ t, NeighborTable.mk (f <$> NeighborTable.entries t) (NeighborTable.added t)
    (NeighborTable.removed t) (NeighborTable.stale t)) s.

(** [self.security.incoming.remove(d)] *)
Definition forget_counter (d : Z) s : st :=
  let sec := security s in
  set_security (NwkSecurity.mk (NwkSecurity.keys sec) (IncomingCounters.remove d (NwkSecurity.incoming sec))
    (NwkSecurity.ciphers sec)) s.

Definition remove_child (child : Z) s : st :=
  let '(n, t) := NeighborTable.remove_extended (neighbors s) child in
  let s := set_neighbors t s in
  match n with
  | None => s
  | Some n =>
      let s := Route.remove_route (NeighborEntry.short n) s in
      let s := set_address_map (AddressMap.remove_extended (address_map s) child) s in
      let s := forget_counter child s in
      let s := update_beacon_payload s in
      let s := push_action NwkAction.Persist s in
      push_event (NwkEvent.ChildRemoved child) s
  end.

(** What is dropped in any case. *)
Definition forget_traffic s : st :=
  let s := set_join None s in
  let s := set_pending (vec_clear (pending s)) s in
  let s := set_bcast_bufs (vec_clear (bcast_bufs s)) s in
  let s := set_pending_rreq (vec_clear (pending_rreq s)) s in
  let s := set_rdt (RouteDiscoveryTable.clear (rdt s)) s in
  let s := set_btt (BroadcastTransactionTable.clear (btt s)) s in
  let s := set_routes (RoutingTable.clear (routes s)) s in
  let s := set_source_routes (SourceRouteTable.clear (source_routes s)) s in
  let s := set_permit_until None s in
  let s := set_link_status_due None s in
  let s := set_power_delta_due None s in
  let s := set_power_request None s in
  let s := set_operating_since None s in
  set_keepalive_due None s.

Definition local_leave (rejoin : bool) s : st :=
  let s := forget_traffic s in
  let s :=
    if rejoin then
      let s := on_nib (Nib.set_joined false) s in
      let s := on_nib (Nib.set_authenticated false) s in
      let s := on_nib (Nib.set_router_started false) s in
      on_neighbors (λ t, NeighborTable.retain t is_parent) s
    else
      let s := on_neighbors NeighborTable.clear s in
      let s := set_address_map (AddressMap.clear (address_map s)) s in
      let s := set_security (NwkSecurity.clear_keys (security s)) s in
      let s := on_nib Nib.clear_for_leave s in
      let s := push_action (NwkAction.MacSetPanId PanId.BROADCAST) s in
      push_action (NwkAction.MacSetShortAddress ShortAddress.NO_SHORT_ADDRESS) s in
  let s := push_action (NwkAction.MacSetPermit false) s in
  push_action NwkAction.Persist s.

Definition on_leave_sent (device : option Z) (status : NwkStatus.t) s : st :=
  match device with
  | None =>
      let rejoin := default false (leaving_rejoin s) in
      let s := set_leaving_rejoin None s in
      let s := push_event (NwkEvent.LeaveConfirm None None status) s in
      local_leave rejoin s
  | Some child =>
      let short := NeighborEntry.short <$> NeighborTable.by_extended (neighbors s) child in
      let s := remove_child child s in
      push_event (NwkEvent.LeaveConfirm (Some child) short status) s
  end.

(** The two halves of [leave]: this device, or a child. *)
Definition leave_self (rejoin remove_children : bool) s : st :=
  let '(seq, s) := next_sequence s in
  let end_device := Nib.is_end_device (nib s) in
  let dst := if end_device then Nib.parent_address (nib s) else ShortAddress.BROADCAST_ALL in
  let header := command_header s dst (Nib.network_address (nib s)) 1 seq in
  let cmd := NwkCommand.Leave (Leave.mk rejoin false (remove_children && negb end_device)) in
  let s := set_leaving_rejoin (Some rejoin) s in
  if end_device then
    match send_command_unicast header cmd dst true false (TxKind.Leave None) s with
    | (Err _, s) => on_leave_sent None NwkStatus.Success s
    | (Ok _, s) => s
    end
  else on_leave_sent None NwkStatus.Success (ignore (send_command_broadcast_once header cmd true) s).

Definition leave_child (child : Z) (rejoin remove_children : bool) : SE st NwkError.t unit := λ s,
  if negb (Nib.is_router_or_coordinator (nib s)) then (Err NwkError.InvalidRequest, s)
  else
    match NeighborTable.by_extended (neighbors s) child with
    | None => (Err NwkError.InvalidParameter, s)
    | Some n =>
        if negb (Relationship.is_child (NeighborEntry.relationship n)) then (Err NwkError.InvalidParameter, s)
        else
          match NeighborEntry.relationship n with
          | Relationship.UnauthenticatedChild =>
              let s := remove_child child s in
              (Ok tt, push_event (NwkEvent.LeaveConfirm (Some child) (Some (NeighborEntry.short n)) NwkStatus.Success) s)
          | _ =>
              let short := NeighborEntry.short n in
              let indirect := NeighborEntry.is_end_device n && negb (NeighborEntry.rx_on_when_idle n) in
              let '(seq, s) := next_sequence s in
              let header := NwkHeader.with_dst_ieee (command_header s short (Nib.network_address (nib s)) 1 seq) child in
              let cmd := NwkCommand.Leave (Leave.mk rejoin true remove_children) in
              send_command_unicast header cmd short true indirect (TxKind.Leave (Some child)) s
          end
    end.

Definition leave (device : option Z) (rejoin remove_children : bool) : SE st NwkError.t unit := λ s,
  if negb (Nib.joined (nib s)) then (Err NwkError.InvalidRequest, s)
  else
    match device with
    | Some child =>
        if child =? Nib.ieee_address (nib s) then (Ok tt, leave_self rejoin remove_children s)
        else leave_child child rejoin remove_children s
    | None => (Ok tt, leave_self rejoin remove_children s)
    end.

(** A device says that it leaves. *)
Definition on_leave_announced (ctx : CommandContext.t) (l : Leave.t) s : st :=
  match CommandContext.src_ieee ctx with
  | None => s
  | Some src_ieee =>
      let n := NeighborTable.by_extended (neighbors s) src_ieee in
      let gone child s := push_event (NwkEvent.LeaveIndication (Some src_ieee) (Some (CommandContext.src ctx)) child (Leave.rejoin l)) s in
      if from_option is_parent false n && Leave.remove_children l then
        let s := gone false s in
        if Nib.is_router_or_coordinator (nib s) then ignore (leave None (Leave.rejoin l) (Leave.remove_children l)) s
        else local_leave (Leave.rejoin l) (push_event (NwkEvent.LeaveIndication None None false (Leave.rejoin l)) s)
      else
        let child := from_option (λ n, Relationship.is_child (NeighborEntry.relationship n)) false n in
        let s := gone child s in
        if child then remove_child src_ieee s
        else
          let s := set_neighbors (NeighborTable.remove_extended (neighbors s) src_ieee).2 s in
          set_address_map (AddressMap.remove_extended (address_map s) src_ieee) s
  end.

Definition on_leave_command (ctx : CommandContext.t) (l : Leave.t) s : st :=
  let asked := push_event (NwkEvent.LeaveIndication None None false (Leave.rejoin l)) in
  if negb (CommandContext.secured ctx) then s
  else if negb (Leave.request l) then on_leave_announced ctx l s
  else if Nib.is_coordinator (nib s) || ShortAddress.is_broadcast (CommandContext.dst ctx) then s
  else if Nib.is_router_or_coordinator (nib s) then
    if negb (Nib.leave_request_allowed (nib s)) then s
    else if negb (Leave.rejoin l) && negb (Nib.leave_request_without_rejoin_allowed (nib s)) then s
    else ignore (leave None (Leave.rejoin l) (Leave.remove_children l)) (asked s)
  else
    let from_parent := from_option is_parent false (NeighborTable.by_short (neighbors s) (CommandContext.mac_src ctx)) in
    if negb from_parent then s else local_leave (Leave.rejoin l) (asked s).

(** A Leave request, with rejoin, to a device that takes this one for its parent. *)
Definition tell_to_rejoin (target : Z) (indirect : bool) s : st :=
  let '(seq, s) := next_sequence s in
  let header := command_header s target (Nib.network_address (nib s)) 1 seq in
  ignore (send_command_unicast header (NwkCommand.Leave (Leave.mk true true false)) target true indirect TxKind.Command) s.

Definition send_leave_to_unknown_child (target : Z) s : st := tell_to_rejoin target false s.
End leaving.
End Leaving.

(** ** The end device timeout (layer/maint.rs) *)

Module EndDevice.
Import Nwk Tx Scan Leaving.

Section end_device.
Context {C R : Type} {D : NwkDims.t} `{!BlockCipher C} {Hrng : Rng R} {Hfair : FairRng R} {Hv : Heapless}.
Abbreviation st := (Nwk.t C R D).
Implicit Types s : st.

Definition parent_link_failure s : st :=
  push_event (NwkEvent.NetworkStatus (Nib.parent_address (nib s)) NetworkStatusCode.ParentLinkFailure) s.

Definition send_end_device_timeout_request s : st :=
  if negb (Nib.is_end_device (nib s)) || negb (Nib.joined (nib s)) then s
  else
    let parent := Nib.parent_address (nib s) in
    let '(seq, s) := next_sequence s in
    let header := NwkHeader.with_dst_ieee (command_header s parent (Nib.network_address (nib s)) 1 seq) (Nib.parent_ieee (nib s)) in
    let cmd := NwkCommand.EndDeviceTimeoutRequest (EndDeviceTimeoutRequest.mk (Nib.end_device_timeout (nib s)) 0) in
    ignore (send_command_unicast header cmd parent true false TxKind.TimeoutRequest) s.

Definition on_timeout_request_sent (ok : bool) s : st :=
  if ok then
    let s := set_timeout_request_deadline (Some (Instant.saturating_add (now s) MacConstants.response_wait_time)) s in
    if negb (Nib.rx_on_when_idle (nib s)) then push_action NwkAction.MacPoll s else s
  else if ParentInformation.timeout_request_keepalive (Nib.parent_information (nib s)) then parent_link_failure s
  else s.

(** The child's entry after an acceptable request. *)
Definition accept_timeout (req : EndDeviceTimeoutRequest.t) (n : NeighborEntry.t) : NeighborEntry.t :=
  let n := NeighborEntry.set_timeout n (EndDeviceTimeoutRequest.timeout req) in
  let n := NeighborField.set_end_device_configuration (EndDeviceTimeoutRequest.configuration req) n in
  let n := NeighborField.set_keepalive_received true n in
  match NeighborEntry.relationship n with
  | Relationship.UnauthenticatedChild =>
      NeighborField.set_security_timer_secs 0 (NeighborField.set_relationship Relationship.Child n)
  | _ => n
  end.

Definition on_end_device_timeout_request (ctx : CommandContext.t) (req : EndDeviceTimeoutRequest.t) s : st :=
  let src := CommandContext.src ctx in
  if negb (Nib.is_router_or_coordinator (nib s)) || negb (CommandContext.secured ctx) then s
  else
    match NeighborTable.by_short (neighbors s) src with
    | None => s
    | Some n =>
        if negb (NeighborEntry.is_end_device n) || negb (Relationship.is_child (NeighborEntry.relationship n)) then s
        else
          let device := NeighborEntry.extended n in
          let status :=
            if negb (TimeoutIndex.is_valid (EndDeviceTimeoutRequest.timeout req)) then TimeoutResponseStatus.IncorrectValue
            else if negb (EndDeviceTimeoutRequest.configuration req =? 0) then TimeoutResponseStatus.UnsupportedFeature
            else TimeoutResponseStatus.Success in
          let s :=
            match status with
            | TimeoutResponseStatus.Success => on_neighbors (λ t, NeighborTable.by_short_mut t src (accept_timeout req)) s
            | _ => s
            end in
          let power := if NwkConfig.power_control (config s) then ParentInformation.POWER_NEGOTIATION else 0 in
          let parent_info := Z.lor (Z.land (NwkConfig.keepalive_methods (config s)) 0x03) power in
          let '(seq, s) := next_sequence s in
          let header := NwkHeader.with_dst_ieee (command_header s src (Nib.network_address (nib s)) 1 seq) device in
          let cmd := NwkCommand.EndDeviceTimeoutResponse (EndDeviceTimeoutResponse.mk status parent_info) in
          let sleepy := from_option (λ n, negb (NeighborEntry.rx_on_when_idle n)) false (NeighborTable.by_short (neighbors s) src) in
          let s := ignore (send_command_unicast header cmd src true sleepy TxKind.Command) s in
          push_action NwkAction.Persist s
    end.

(** The seconds of the timeout, and a third of them between keepalives. *)
Definition timeout_secs s : Z := default (256 * 60) (TimeoutIndex.seconds (Nib.end_device_timeout (nib s))).
Definition keepalive_period s : Z := Duration.from_secs (Z.max (timeout_secs s / 3) 1).

Definition set_timeouts (counter timeout : Z) (n : NeighborEntry.t) : NeighborEntry.t :=
  NeighborEntry.with_timeouts n counter timeout (NeighborEntry.security_timer_secs n).

Definition on_end_device_timeout_response (ctx : CommandContext.t) (rsp : EndDeviceTimeoutResponse.t) s : st :=
  if negb (Nib.is_end_device (nib s)) || negb (CommandContext.secured ctx)
     || negb (CommandContext.src ctx =? Nib.parent_address (nib s)) then s
  else
    let s := set_timeout_request_deadline None s in
    match EndDeviceTimeoutResponse.status rsp with
    | TimeoutResponseStatus.Success =>
        let info := EndDeviceTimeoutResponse.parent_info rsp in
        let s := on_nib (Nib.set_parent_information info) s in
        let s :=
          if negb (ParentInformation.power_negotiation info) then on_nib (Nib.set_link_power_delta_transmit_rate 0) s
          else if Nib.link_power_delta_transmit_rate (nib s) =? 0
          then on_nib (Nib.set_link_power_delta_transmit_rate (NwkConfig.end_device_power_delta_rate_secs (config s))) s
          else s in
        let s := Power.refresh_power_delta_schedule s in
        let secs := timeout_secs s in
        let s := on_first is_parent (set_timeouts secs secs) s in
        let s := set_keepalive_due (Some (Instant.saturating_add (now s) (keepalive_period s))) s in
        let s := push_action NwkAction.Persist s in
        push_event NwkEvent.ParentInformationUpdated s
    | _ => on_nib (Nib.set_parent_information 0) s
    end.

Definition send_keepalive s : st :=
  let s := set_keepalive_due (Some (Instant.saturating_add (now s) (keepalive_period s))) s in
  let info := Nib.parent_information (nib s) in
  let s :=
    if ParentInformation.mac_data_poll_keepalive info then push_action NwkAction.MacPoll s
    else if ParentInformation.timeout_request_keepalive info then send_end_device_timeout_request s
    else s in
  on_first is_parent (λ p, NeighborField.set_timeout_counter_secs (NeighborEntry.device_timeout_secs p) p) s.

Definition poll_entry (n : NeighborEntry.t) : NeighborEntry.t :=
  NeighborField.set_keepalive_received true (NeighborField.set_timeout_counter_secs (NeighborEntry.device_timeout_secs n) n).

(** The entry of the device that polled, and how it is updated in place. *)
Definition on_mac_poll_indication (device : MacAddress.t) s : st :=
  if negb (Nib.is_router_or_coordinator (nib s)) then s
  else
    let entry :=
      match device with
      | MacAddress.Short a => NeighborTable.by_short (neighbors s) a
      | MacAddress.Extended e => NeighborTable.by_extended (neighbors s) e
      | MacAddress.None => None
      end in
    match entry with
    | Some n =>
        if Relationship.is_child (NeighborEntry.relationship n) && flag 0x01 (NwkConfig.keepalive_methods (config s)) then
          match device with
          | MacAddress.Short a => on_neighbors (λ t, NeighborTable.by_short_mut t a poll_entry) s
          | MacAddress.Extended e => on_neighbors (λ t, NeighborTable.by_extended_mut t e poll_entry) s
          | MacAddress.None => s
          end
        else s
    | None =>
        match device with
        | MacAddress.Short a => if Nib.joined (nib s) then tell_to_rejoin a true s else s
        | _ => s
        end
    end.

Definition on_mac_poll_confirm (success frame_pending : bool) s : st :=
  if negb success && Nib.is_end_device (nib s) && Nib.joined (nib s) then parent_link_failure s else s.
End end_device.
End EndDevice.
