(* ===== verification/NwkJoin.v ===== *)
(** * The network layer: joining, the child's side (panweave-nwk/src/layer/join.rs)

    The choice of a parent, the three ways to attach to it, the response, the wait
    for the network key, and the start of a router.

    [try_next_parent] and the requests it sends call each other: a request that
    cannot be sent goes on to the next parent.  Every turn but the last takes one
    of the attempts, so one turn more than the attempts allowed is enough fuel. *)

From S2P Require Import Prelude Types Status Codec Tlv Heapless FrameCounter AuxHeader Ccm SecFrame Keys NwkSecurity NwkFrame Routing NwkTables NwkCommand NwkNeighbor NwkBeacon NwkDiscovery NwkInterface MacFrame NwkState NwkTx NwkBcast NwkRoute NwkPower NwkScan NwkLeave.

Module Joining.
Import Nwk Tx Scan Leaving.

Section joining.
Context {C R : Type} {D : NwkDims.t} `{!BlockCipher C} {Hrng : Rng R} {Hfair : FairRng R} {Hv : Heapless}.
Abbreviation st := (Nwk.t C R D).
Implicit Types s : st.

(** [if let Some(j) = &mut self.join] *)
Definition on_join (f : JoinState.t → JoinState.t) s : st := set_join (f <$> join s) s.

(** ** Keys and authentication *)

Definition after_authenticated s : st :=
  let s := set_child_age_last (now s) s in
  let s := if Nib.is_end_device (nib s) then EndDevice.send_end_device_timeout_request s else s in
  Power.refresh_power_delta_schedule s.

Definition awaiting_key (j : JoinState.t) : bool :=
  match JoinState.phase j with JoinPhase.AwaitingKey _ => true | _ => false end.

Definition mark_authenticated s : st :=
  let s := on_nib (Nib.set_authenticated true) s in
  let s := on_first is_parent (NeighborField.set_security_timer_secs 0) s in
  let s :=
    if from_option awaiting_key false (join s)
    then set_discovery (DiscoveryTable.clear (discovery s)) (set_join None s) else s in
  after_authenticated s.

Definition authorize_without_network_key s : st :=
  if Nib.joined (nib s) && negb (Nib.authenticated (nib s)) then mark_authenticated s else s.

Definition set_network_key (sequence : Z) (key : list Z) (active : bool) s : st :=
  if active then
    let s := set_security (NwkSecurity.install_active_key (security s) sequence key) s in
    let s := maybe_reserve_counter s in
    let s := push_action NwkAction.Persist s in
    if Nib.joined (nib s) && negb (Nib.authenticated (nib s)) then mark_authenticated s else s
  else
    let s := set_security (NwkSecurity.install_key (security s) sequence key) s in
    let s := push_action NwkAction.Persist s in
    maybe_reserve_counter s.

Definition switch_network_key (sequence : Z) s : bool * st :=
  let previous := NetworkKeySlot.sequence <$> NetworkKeys.active (NwkSecurity.keys (security s)) in
  let '(ok, sec) := NwkSecurity.switch_key (security s) sequence in
  let s := set_security sec s in
  if ok then
    let s := maybe_reserve_counter s in
    let s := push_action NwkAction.Persist s in
    (true, push_event (NwkEvent.KeySwitched (p ← previous; if p =? sequence then None else Some p) sequence) s)
  else (false, s).

Definition start_router : SE st NwkError.t unit := λ s,
  if negb (Nib.is_router_or_coordinator (nib s)) || negb (Nib.joined (nib s)) || negb (Nib.authenticated (nib s))
  then (Err NwkError.InvalidRequest, s)
  else
    let s := on_nib (Nib.set_router_started true) s in
    let s := push_action (NwkAction.MacStart (Nib.pan_id (nib s)) (Nib.channel_page (nib s)) (Nib.channel (nib s))
      (Nib.network_address (nib s)) (Nib.is_coordinator (nib s)) true) s in
    let s := update_beacon_payload s in
    let s := on_every (λ n, if is_parent n then NeighborField.set_relationship Relationship.Sibling n else n) s in
    let '(j, s) := jitter constants.MIN_ROUTER_BOOTSTRAP_JITTER constants.MAX_ROUTER_BOOTSTRAP_JITTER s in
    let s := set_link_status_due (Some (Instant.saturating_add (now s) j)) s in
    let s := Power.refresh_power_delta_schedule s in
    (Ok tt, push_event (NwkEvent.StartRouterConfirm NwkStatus.Success) s).

(** ** The end of a join *)

Definition join_confirm (status : NwkStatus.t) (rejoin secured : bool) s : st :=
  push_event (NwkEvent.JoinConfirm status (Nib.network_address (nib s)) (Nib.extended_pan_id (nib s)) rejoin secured) s.

Definition finish_join_success (rejoin secured : bool) s : st :=
  let s := set_join None s in
  let s := set_discovery (DiscoveryTable.clear (discovery s)) s in
  let s := set_child_age_last (now s) s in
  let s := push_action NwkAction.Persist s in
  let s := join_confirm NwkStatus.Success rejoin secured s in
  after_authenticated s.

Definition finish_join (status : NwkStatus.t) s : st :=
  let rejoin := from_option (λ j, JoinParams.rejoin (JoinState.params j)) false (join s) in
  let s := set_join None s in
  let s :=
    if negb rejoin then
      let s := on_nib (Nib.set_pan_id PanId.BROADCAST) s in
      let s := on_nib (Nib.set_network_address ShortAddress.NO_SHORT_ADDRESS) s in
      push_action (NwkAction.MacSetPanId PanId.BROADCAST) s
    else s in
  join_confirm status rejoin false s.

Definition parent_type (short : Z) : LogicalDeviceType.t :=
  if short =? ShortAddress.COORDINATOR then LogicalDeviceType.Coordinator else LogicalDeviceType.Router.

(** [NeighborEntry { outgoing_cost: 1, .. }] *)
Definition parent_entry (ext short lqa : Z) (security_timer : Z) (link : option Z) : NeighborEntry.t :=
  let e := NeighborEntry.new ext short (parent_type short) true Relationship.Parent lqa in
  let e := NeighborField.set_outgoing_cost 1 e in
  NeighborField.set_link link (NeighborField.set_security_timer_secs security_timer e).

Definition keeps_beside_parent (parent_ext parent_short : Z) (n : NeighborEntry.t) : bool :=
  negb (is_parent n)
  && ((parent_ext =? ExtendedAddress.ZERO) || negb (NeighborEntry.short n =? parent_short)
      || (NeighborEntry.extended n =? parent_ext)).

Definition complete_join (p : ParentSnapshot.t) (short : Z) (secured : bool) s : st :=
  match join s with
  | None => s
  | Some j =>
      let rejoin := JoinParams.rejoin (JoinState.params j) in
      let s := on_nib (Nib.set_network_address short) s in
      let s := on_nib (Nib.set_pan_id (ParentSnapshot.pan_id p)) s in
      let s := on_nib (Nib.set_extended_pan_id (ParentSnapshot.extended_pan_id p)) s in
      let s := on_nib (Nib.set_update_id (ParentSnapshot.update_id p)) s in
      let s := on_nib (Nib.set_channel (ParentSnapshot.channel p)) s in
      let s := on_nib (Nib.set_channel_page (ParentSnapshot.page p)) s in
      let s := note_channel_in_use s in
      let s := on_nib (Nib.set_parent_address (ParentSnapshot.short p)) s in
      let parent_ext := default ExtendedAddress.ZERO (ParentSnapshot.extended p) in
      let s := on_nib (Nib.set_parent_ieee parent_ext) s in
      let s := on_nib (Nib.set_joined true) s in
      let s := on_nib (Nib.set_authenticated secured) s in
      let s := on_nib (Nib.set_router_started false) s in
      let s := set_operating_since (Some (now s)) s in
      let timer := if secured then 0 else Duration.as_secs constants.SECURITY_TIMEOUT in
      let e := parent_entry parent_ext (ParentSnapshot.short p) (ParentSnapshot.lqa p) timer None in
      let s := on_neighbors (λ t, NeighborTable.retain t (keeps_beside_parent parent_ext (ParentSnapshot.short p))) s in
      let s := (Route.ensure_neighbor e s).2 in
      let s := push_action (NwkAction.MacSetPanId (ParentSnapshot.pan_id p)) s in
      let s := push_action (NwkAction.MacSetShortAddress short) s in
      let s := push_action (NwkAction.MacSetCoordinator (ParentSnapshot.short p) parent_ext) s in
      let s := push_action (NwkAction.MacSetRxOnWhenIdle (Nib.rx_on_when_idle (nib s))) s in
      let s := set_power_delta_due None s in
      let s := set_power_request None s in
      if secured then finish_join_success rejoin true s
      else
        let s := on_join (JoinState.set_phase
          (JoinPhase.AwaitingKey (Instant.saturating_add (now s) constants.SECURITY_TIMEOUT))) s in
        let s := push_action NwkAction.Persist s in
        push_event (NwkEvent.JoinConfirm NwkStatus.Success short (ParentSnapshot.extended_pan_id p) rejoin false) s
  end.

(** ** The choice of a parent *)

Definition max_attempts s (j : JoinState.t) : Z :=
  if JoinParams.rejoin (JoinState.params j) then Nib.max_rejoin_parent_attempts (nib s)
  else Nib.max_initial_join_parent_attempts (nib s).

Definition rank_candidates (good_only : bool) s : st :=
  match join s with
  | None => s
  | Some j =>
      let p := JoinState.params j in
      let parent := if Nib.is_end_device (nib s) && JoinParams.rejoin p then Some (Nib.parent_address (nib s)) else None in
      let out := DiscoveryTable.ranked (discovery s) (JoinParams.extended_pan_id p) (JoinParams.as_router p)
        (JoinParams.require_permit p) (Nib.good_parent_lqa (nib s)) good_only (Nib.update_id (nib s)) parent
        (max_attempts s j) in
      set_join (Some (JoinState.set_next 0 (JoinState.set_candidates (take DISCOVERY_TABLE_SIZE out) j))) s
  end.

Definition exhausted (j : JoinState.t) : bool := (length (JoinState.candidates j) <=? JoinState.next j)%nat.

(** The list of candidates refilled: first the good ones, then the others. *)
Definition refill s : st :=
  match join s with
  | None => s
  | Some j =>
      if (JoinState.pass j =? 0) && exhausted j then
        let s := if (JoinState.next j =? 0)%nat && (length (JoinState.candidates j) =? 0)%nat then rank_candidates true s else s in
        if from_option exhausted false (join s) then rank_candidates false (on_join (JoinState.set_pass 1) s) else s
      else s
  end.

Definition ensure_self_address s : Z * st :=
  let a := Nib.network_address (nib s) in
  if ShortAddress.is_unicast a && negb (a =? 0) then (a, s)
  else
    let '(a, s) := on_rng (λ r, allocate_stochastic r (λ _, false)) s in
    let a := default 0x1000 a in (a, on_nib (Nib.set_network_address a) s).

Definition request_sent (j : JoinState.t) : bool :=
  match JoinState.phase j with JoinPhase.RequestSent => true | _ => false end.

(** The outcome of a request that [try_next_parent] sent; [retry] is
    [try_next_parent]. *)
Definition on_join_request_sent_with (retry : st → option st) (ok : bool) s : option st :=
  match join s with
  | None => Some s
  | Some j =>
      if negb (request_sent j) then Some s
      else if negb ok then retry s
      else
        let deadline := Instant.saturating_add (now s) MacConstants.response_wait_time in
        let s := set_join (Some (JoinState.set_phase (JoinPhase.AwaitingResponse deadline false) j)) s in
        let needs_poll := negb (MacCapability.rx_on_when_idle (JoinParams.capability (JoinState.params j))) in
        let parent_short := from_option ParentSnapshot.short ShortAddress.NO_SHORT_ADDRESS (JoinState.current j) in
        let parent_ext := default ExtendedAddress.ZERO (JoinState.current j ≫= ParentSnapshot.extended) in
        Some (if needs_poll
              then push_action NwkAction.MacPoll (push_action (NwkAction.MacSetCoordinator parent_short parent_ext) s)
              else s)
  end.

(** The header of a request to the prospective parent. *)
Definition attach_header s (p : ParentSnapshot.t) (my seq : Z) (secure : bool) : NwkHeader.t :=
  let header := NwkHeader.secured (NwkHeader.with_src_ieee
    (NwkHeader.new FrameType.Command (ParentSnapshot.short p) my 1 seq) (Nib.ieee_address (nib s)))
    (secure && NwkConfig.security_enabled (config s)) in
  match ParentSnapshot.extended p with Some e => NwkHeader.with_dst_ieee header e | None => header end.

(** The part the two requests share: the address, the MAC, the frame. *)
Definition send_attach_request (retry : st → option st) (p : ParentSnapshot.t) (secure : bool)
    (command : st → Z → NwkCommand.t) s : option st :=
  let '(my, s) := ensure_self_address s in
  let s := on_nib (Nib.set_pan_id (ParentSnapshot.pan_id p)) s in
  let s := push_action (NwkAction.MacSetPanId (ParentSnapshot.pan_id p)) s in
  let s := push_action (NwkAction.MacSetShortAddress my) s in
  let '(seq, s) := next_sequence s in
  let header := attach_header s p my seq secure in
  let cmd := command s my in
  let s := on_join (JoinState.set_phase JoinPhase.RequestSent) s in
  match send_command_unicast header cmd (ParentSnapshot.short p) secure false TxKind.JoinRequest s with
  | (Err _, s) => on_join_request_sent_with retry false s
  | (Ok _, s) => Some s
  end.

Definition send_rejoin_request (retry : st → option st) (p : ParentSnapshot.t) (secure : bool) (capability : Z) s : option st :=
  send_attach_request retry p secure (λ _ _, NwkCommand.RejoinRequest (RejoinRequest.mk capability)) s.

(** The Joiner Encapsulation of a commissioning request. *)
Definition joiner_tlvs (my ieee : Z) (rejoin virtual : bool) : list Z :=
  let body : SE Writer.t CodecError unit :=
    FragmentationParameters.write (FragmentationParameters.mk my 0 0x80);;
    (if negb rejoin || virtual then
       SupportedKeyNegotiationMethods.write (SupportedKeyNegotiationMethods.mk
         (Z.lor SupportedKeyNegotiationMethods.PROTO_STATIC_KEY_REQUEST SupportedKeyNegotiationMethods.PROTO_SPEKE_CURVE25519_AES_MMO)
         SupportedKeyNegotiationMethods.SECRET_INSTALL_CODE (Some ieee))
     else mret tt);;
    (if virtual then
       DeviceCapabilityExtension.write (DeviceCapabilityExtension.mk DeviceCapabilityExtension.ZIGBEE_DIRECT_VIRTUAL_DEVICE)
     else mret tt) in
  let w := (write_encapsulation tag.JOINER_ENCAPSULATION body (Writer.new (replicate 40 0))).2 in
  default [] (get_range (Writer.buf w) 0 (Writer.position w)).

Definition send_commissioning_request (retry : st → option st) (p : ParentSnapshot.t) (rejoin secure : bool) (capability : Z) s : option st :=
  send_attach_request retry p (rejoin && secure) (λ s my,
    NwkCommand.CommissioningRequest (CommissioningRequest.mk
      (if rejoin then CommissioningType.Rejoin else CommissioningType.InitialJoin) capability
      (joiner_tlvs my (Nib.ieee_address (nib s)) rejoin (virtual_device s)))) s.

Definition snapshot (c : Candidate.t) : ParentSnapshot.t :=
  ParentSnapshot.mk (Candidate.short c) (Candidate.extended c) (Candidate.pan_id c) (Candidate.extended_pan_id c)
    (Candidate.page c) (Candidate.channel c) (Candidate.r23 c) (Candidate.update_id c) (Candidate.lqa c).

(** One attempt: the candidate at [next], by the mechanism it supports. *)
Definition attempt (retry : st → option st) (j : JoinState.t) s : option st :=
  let idx := nth (JoinState.next j) (JoinState.candidates j) 0%nat in
  let j := JoinState.set_attempts (JoinState.attempts j + 1) (JoinState.set_next (S (JoinState.next j)) j) in
  let s := set_join (Some j) s in
  match DiscoveryTable.get (discovery s) idx with
  | None => Some s
  | Some c =>
      let s := set_discovery (DiscoveryTable.get_mut (discovery s) idx
        (λ c, Candidate.with_attempts c (sat_add 8 (Candidate.attempts c) 1))) s in
      let snap := snapshot c in
      let s := on_join (JoinState.set_current (Some snap)) s in
      let rejoin := JoinParams.rejoin (JoinState.params j) in
      let capability := JoinParams.capability (JoinState.params j) in
      let s := push_action (NwkAction.MacSetChannel (ParentSnapshot.page snap) (ParentSnapshot.channel snap)) s in
      let s := on_nib (Nib.set_channel (ParentSnapshot.channel snap)) s in
      let s := on_nib (Nib.set_channel_page (ParentSnapshot.page snap)) s in
      if ParentSnapshot.r23 snap then
        let s := on_join (JoinState.set_used_commissioning true) s in
        send_commissioning_request retry snap rejoin (JoinState.secure j) capability s
      else if rejoin then send_rejoin_request retry snap (JoinState.secure j) capability s
      else
        let s := on_join (JoinState.set_phase JoinPhase.Associating) s in
        let s := on_nib (Nib.set_pan_id (ParentSnapshot.pan_id snap)) s in
        let s := push_action (NwkAction.MacSetPanId (ParentSnapshot.pan_id snap)) s in
        Some (push_action (NwkAction.MacAssociate (ParentSnapshot.pan_id snap) (ParentSnapshot.short snap)
          (ParentSnapshot.page snap) (ParentSnapshot.channel snap) capability) s)
  end.

Definition no_parent s : st :=
  finish_join (if DiscoveryTable.is_empty (discovery s) then NwkStatus.NoNetworks else NwkStatus.NotPermitted) s.

Fixpoint try_next (fuel : nat) s : option st :=
  match fuel with
  | O => None
  | S fuel =>
      match join s with
      | None => Some s
      | Some j =>
          if max_attempts s j <=? JoinState.attempts j then Some (finish_join NwkStatus.NoNetworks s)
          else
            let s := if exhausted j then refill s else s in
            match join s with
            | None => Some s
            | Some j => if exhausted j then Some (no_parent s) else attempt (try_next fuel) j s
            end
      end
  end.

(** The attempts are an octet. *)
Definition try_next_parent s : st := default s (try_next 257 s).
Definition on_join_request_sent (ok : bool) s : st := default s (on_join_request_sent_with (try_next 257) ok s).

(** ** Requests of the higher layer *)

Definition fresh_join (params : JoinParams.t) (secure : bool) (current : option ParentSnapshot.t) (commissioning : bool) : JoinState.t :=
  JoinState.mk params secure [] 0 0 current JoinPhase.SelectParent 0 commissioning.

(** [Nwk::join] *)
Definition request_join (params : JoinParams.t) : SE st NwkError.t unit := λ s,
  if is_some (join s) then (Err NwkError.Busy, s)
  else if negb (JoinParams.rejoin params) && Nib.joined (nib s) then (Err NwkError.InvalidRequest, s)
  else if JoinParams.rejoin params && JoinParams.secure params && negb (NwkSecurity.has_key (security s))
  then (Err NwkError.InvalidRequest, s)
  else
    let s := on_nib (Nib.set_capability_information (JoinParams.capability params)) s in
    let s := on_nib (Nib.set_rx_on_when_idle (MacCapability.rx_on_when_idle (JoinParams.capability params))) s in
    let s := on_nib (Nib.set_parent_information 0) s in
    let s := set_join (Some (fresh_join params (JoinParams.rejoin params && JoinParams.secure params) None false)) s in
    (Ok tt, if is_some (scan s) then s else try_next_parent s).

Definition join_via_trusted_link (link parent parent_short pan_id extended_pan_id : Z) (params : JoinParams.t)
    : SE st NwkError.t unit := λ s,
  if is_some (join s) || is_some (scan s) then (Err NwkError.InvalidRequest, s)
  else if negb (JoinParams.rejoin params) && Nib.joined (nib s) then (Err NwkError.InvalidRequest, s)
  else
    let e := parent_entry parent parent_short 255 0 (Some link) in
    let s := on_neighbors (λ t, NeighborTable.retain t
      (λ n, negb (is_parent n) && negb (NeighborEntry.extended n =? parent))) s in
    let '(ok, s) := Route.ensure_neighbor e s in
    if negb ok then (Err NwkError.Busy, s)
    else
      let s := on_nib (Nib.set_extended_pan_id extended_pan_id) s in
      let snap := ParentSnapshot.mk parent_short (Some parent) pan_id extended_pan_id (Nib.channel_page (nib s))
        (Nib.channel (nib s)) true (Nib.update_id (nib s)) 255 in
      let s := set_join (Some (fresh_join params (JoinParams.secure params) (Some snap) true)) s in
      let s := set_virtual_device true s in
      (Ok tt, default s (send_commissioning_request (try_next 257) snap (JoinParams.rejoin params)
         (JoinParams.secure params) (JoinParams.capability params) s)).

Definition is_joining s : bool := is_some (join s).

(** ** Confirms, responses and timers *)

Definition on_mac_associate_confirm (short : Z) (status : MacStatus.t) s : st :=
  match join s with
  | Some j =>
      match JoinState.phase j, JoinState.current j with
      | JoinPhase.Associating, Some p =>
          if bool_decide (status = MacStatus.Success) && ShortAddress.is_unicast short then complete_join p short false s
          else try_next_parent s
      | _, _ => s
      end
  | None => s
  end.

Definition on_mac_scan_confirm {Hsort : UnstableSort} (kind : ScanKind.t) (energy : list Z) s : st :=
  match scan s with
  | None => s
  | Some sc =>
      let s := set_scan None s in
      match ScanState.purpose sc, kind with
      | ScanPurpose.Discovery, ScanKind.Active =>
          let status := if DiscoveryTable.is_empty (discovery s) then NwkStatus.NoNetworks else NwkStatus.Success in
          let s := push_event (NwkEvent.DiscoveryConfirm status) s in
          let selecting j := match JoinState.phase j with JoinPhase.SelectParent => true | _ => false end in
          if from_option selecting false (join s) then try_next_parent s else s
      | ScanPurpose.FormationEnergy, ScanKind.Energy =>
          match formation s with
          | None => s
          | Some f =>
              let mask := quieter_half (ScanState.channels sc) energy in
              let s := set_formation (Some (FormationState.set_channels mask (FormationState.set_energy energy f))) s in
              let s := set_scan (Some (ScanState.mk ScanPurpose.FormationActive mask (ScanState.duration sc) false)) s in
              push_action (NwkAction.MacScan ScanKind.Active mask (ScanState.duration sc) None) s
          end
      | ScanPurpose.FormationActive, ScanKind.Active => finish_formation s
      | ScanPurpose.PanIdConflict, ScanKind.Active => set_formation None s
      | ScanPurpose.EnergyDetect, ScanKind.Energy =>
          push_event (NwkEvent.EnergyScanConfirm (ScanState.channels sc) energy) s
      | _, _ => s
      end
  end.

Definition service_join (tnow : Z) s : st :=
  match join s with
  | None => s
  | Some j =>
      match JoinState.phase j with
      | JoinPhase.AwaitingResponse deadline polled =>
          if Instant.has_reached tnow deadline then try_next_parent s
          else if negb polled && negb (MacCapability.rx_on_when_idle (JoinParams.capability (JoinState.params j)))
                  && (Instant.saturating_duration_until tnow deadline <=? Duration.div MacConstants.response_wait_time 2) then
            push_action NwkAction.MacPoll
              (set_join (Some (JoinState.set_phase (JoinPhase.AwaitingResponse deadline true) j)) s)
          else s
      | JoinPhase.AwaitingKey deadline =>
          if Instant.has_reached tnow deadline then
            let s := set_join None s in
            let s := push_event NwkEvent.AuthenticationTimeout s in
            let s := join_confirm NwkStatus.NoKey false false s in
            local_leave false s
          else s
      | _ => s
      end
  end.

Definition join_deadline s : option Z :=
  j ← join s;
  match JoinState.phase j with
  | JoinPhase.AwaitingResponse deadline _ | JoinPhase.AwaitingKey deadline => Some deadline
  | _ => None
  end.

Definition awaiting_response (j : JoinState.t) : bool :=
  match JoinState.phase j with JoinPhase.AwaitingResponse _ _ => true | _ => false end.

Definition accept_join_response (ctx : CommandContext.t) (address : Z) (status : MacStatus.t) s : st :=
  match join s with
  | None => s
  | Some j =>
      match JoinState.current j with
      | None => s
      | Some p =>
          if negb (awaiting_response j) then s
          else if from_option (λ d, negb (d =? Nib.ieee_address (nib s))) false (CommandContext.dst_ieee ctx) then s
          else if match ParentSnapshot.extended p, CommandContext.src_ieee ctx with
                  | Some expected, Some got => negb (expected =? got)
                  | _, _ => false
                  end then s
          else if negb (CommandContext.src ctx =? ParentSnapshot.short p) then s
          else if negb (CommandContext.secured ctx) && JoinState.secure j then s
          else
            match status with
            | MacStatus.Success =>
                let p := match ParentSnapshot.extended p with
                         | None => ParentSnapshot.set_extended (CommandContext.src_ieee ctx) p
                         | Some _ => p
                         end in
                complete_join p address (CommandContext.secured ctx) s
            | status =>
                if MacStatus.raw status =? CommissioningResponse.STATUS_ADDRESS_CONFLICT then
                  let s := on_nib (Nib.set_network_address address) s in
                  let s := on_join (λ j, JoinState.set_next (JoinState.next j - 1) j) s in
                  try_next_parent s
                else try_next_parent s
            end
      end
  end.

Definition on_rejoin_response (ctx : CommandContext.t) (rsp : RejoinResponse.t) s : st :=
  let a := RejoinResponse.address rsp in
  if is_some (join s) then accept_join_response ctx a (RejoinResponse.status rsp) s
  else if negb (CommandContext.secured ctx) || negb (CommandContext.src ctx =? Nib.parent_address (nib s))
          || negb (Nib.is_end_device (nib s)) then s
  else if bool_decide (RejoinResponse.status rsp = MacStatus.Success) && ShortAddress.is_unicast a
          && negb (a =? Nib.network_address (nib s)) then
    let s := on_nib (Nib.set_network_address a) s in
    let s := push_action (NwkAction.MacSetShortAddress a) s in
    let s := push_action NwkAction.Persist s in
    push_event (NwkEvent.NetworkStatus a NetworkStatusCode.NetworkAddressUpdate) s
  else s.

Definition on_commissioning_response (ctx : CommandContext.t) (rsp : CommissioningResponse.t) s : st :=
  if is_some (join s) then accept_join_response ctx (CommissioningResponse.address rsp) (CommissioningResponse.status rsp) s
  else s.
End joining.
End Joining.
