(* ===== verification/NwkParent.v ===== *)
(** * The network layer: joining, the parent's side (panweave-nwk/src/layer/join.rs)

    The MAC association, the rejoin and commissioning requests of a child and
    their responses, the authentication of a child, the Trusted Link of a Trust
    Center, and the announcement of a device. *)

From S2P Require Import Prelude Types Status Codec Tlv Heapless FrameCounter AuxHeader Ccm SecFrame Keys NwkSecurity NwkFrame Routing NwkTables NwkCommand NwkNeighbor NwkBeacon NwkDiscovery NwkInterface MacFrame NwkState NwkTx NwkBcast NwkRoute NwkPower NwkScan NwkLeave NwkJoin.

Module Parent.
Import Nwk Tx Scan Leaving.

Definition security_timeout_secs : Z := Duration.as_secs constants.SECURITY_TIMEOUT.

Definition child_type (capability : Z) : LogicalDeviceType.t :=
  if MacCapability.is_full_function_device capability then LogicalDeviceType.Router else LogicalDeviceType.EndDevice.

(** The capability a neighbour entry stands for. *)
Definition capability_of (n : NeighborEntry.t) : Z :=
  Z.lor (Z.lor (Z.lor (Z.shiftl (Z_of_bool (NeighborEntry.is_router n)) 1)
    (Z.shiftl (Z_of_bool (NeighborEntry.rx_on_when_idle n)) 3))
    (Z.shiftl (Z_of_bool (NeighborEntry.rx_on_when_idle n)) 2)) 0x80.

Definition unauthenticated (n : NeighborEntry.t) : bool :=
  match NeighborEntry.relationship n with Relationship.UnauthenticatedChild => true | _ => false end.

Section parent.
Context {C R : Type} {D : NwkDims.t} `{!BlockCipher C} {Hrng : Rng R} {Hfair : FairRng R} {Hv : Heapless}.
Abbreviation st := (Nwk.t C R D).
Implicit Types s : st.

(** [let _ = self.address_map.record(device, short)] *)
Definition map_address (device short : Z) s : st :=
  set_address_map (AddressMap.record (address_map s) device short).2 s.

(** ** Association *)

Definition add_unauthenticated_child (device short capability lqi : Z) s : st :=
  let e := NeighborEntry.new device short (child_type capability) (MacCapability.rx_on_when_idle capability)
    Relationship.UnauthenticatedChild lqi in
  let e := NeighborField.set_security_timer_secs security_timeout_secs e in
  let e := NeighborEntry.set_timeout e (Nib.end_device_timeout_default (nib s)) in
  let e := NeighborField.set_outgoing_cost 1 e in
  let s := (Route.ensure_neighbor e s).2 in
  let s := Route.remove_route short s in
  let s := forget_counter device s in
  map_address device short s.

Definition on_mac_associate_indication (device capability lqi : Z) s : st :=
  let refuse status := push_action (NwkAction.MacAssociateResponse device ShortAddress.NO_SHORT_ADDRESS status) in
  let accept short s := push_action (NwkAction.MacAssociateResponse device short MacStatus.Success)
    (add_unauthenticated_child device short capability lqi s) in
  if negb (Nib.is_router_or_coordinator (nib s)) || negb (Nib.router_started (nib s)) then s
  else if negb (is_permitting_joins s) || negb (JoiningList.allows (joining_list s) device)
  then refuse MacStatus.PanAccessDenied s
  else
    match NeighborTable.by_extended (neighbors s) device with
    | Some n => accept (NeighborEntry.short n) s
    | None =>
        if negb (has_child_capacity (MacCapability.is_full_function_device capability) s)
        then refuse MacStatus.PanAtCapacity s
        else
          let '(a, s) := Bcast.allocate_address s in
          match a with
          | Some a => accept a s
          | None => refuse MacStatus.PanAtCapacity s
          end
    end.

Definition on_join_response_delivered_inner (device : Z) (ok : bool) (method : JoinMethod.t) s : st :=
  match NeighborTable.by_extended (neighbors s) device with
  | None => s
  | Some n =>
      if negb (Relationship.is_child (NeighborEntry.relationship n)) then s
      else if negb ok then
        if unauthenticated n then
          let s := set_neighbors (NeighborTable.remove_extended (neighbors s) device).2 s in
          set_address_map (AddressMap.remove_extended (address_map s) device) s
        else s
      else
        let tlvs := default [] (pending_joiner_tlvs s) in
        let s := set_pending_joiner_tlvs None s in
        let s := update_beacon_payload s in
        let s := push_action NwkAction.Persist s in
        let s := bump NwkStats.F_join_indications s in
        push_event (NwkEvent.JoinIndication device (NeighborEntry.short n) (capability_of n) method tlvs) s
  end.

Definition on_join_response_delivered (device : Z) (ok : bool) (method : JoinMethod.t) s : st :=
  on_join_response_delivered_inner device ok method s.
Definition on_mac_comm_status (device : Z) (status : TxStatus.t) s : st :=
  on_join_response_delivered_inner device
    (match status with TxStatus.Success => true | _ => false end) JoinMethod.MacAssociation s.

(** ** Responses *)

Definition attach_response_header (ctx : CommandContext.t) (device : Z) s : NwkHeader.t * st :=
  let '(seq, s) := next_sequence s in
  (NwkHeader.secured (NwkHeader.with_dst_ieee (NwkHeader.with_src_ieee
     (NwkHeader.new FrameType.Command (CommandContext.src ctx) (Nib.network_address (nib s)) 1 seq)
     (Nib.ieee_address (nib s))) device)
     (CommandContext.secured ctx && NwkConfig.security_enabled (config s)), s).

(** What the two responses share: the header, the delivery and what follows it. *)
Definition send_response (ctx : CommandContext.t) (device : Z) (cmd : NwkCommand.t) (status : MacStatus.t)
    (method : option JoinMethod.t) s : st :=
  let '(header, s) := attach_response_header ctx device s in
  let indirect := negb (from_option NeighborEntry.rx_on_when_idle false (NeighborTable.by_extended (neighbors s) device)) in
  let kind :=
    match method with
    | Some method => if bool_decide (status = MacStatus.Success) then TxKind.JoinResponse device method else TxKind.Command
    | None => TxKind.Command
    end in
  ignore (send_command_unicast header cmd (CommandContext.src ctx) (CommandContext.secured ctx) indirect kind) s.

Definition send_rejoin_response (ctx : CommandContext.t) (device address : Z) (status : MacStatus.t)
    (method : option JoinMethod.t) s : st :=
  send_response ctx device (NwkCommand.RejoinResponse (RejoinResponse.mk address status)) status method s.

Definition send_commissioning_response (ctx : CommandContext.t) (device address : Z) (status : MacStatus.t)
    (method : option JoinMethod.t) s : st :=
  send_response ctx device (NwkCommand.CommissioningResponse (CommissioningResponse.mk address status [])) status method s.

Definition send_attach_response (ctx : CommandContext.t) (device address : Z) (status : MacStatus.t)
    (commissioning : bool) s : st :=
  if commissioning then send_commissioning_response ctx device address status None s
  else send_rejoin_response ctx device address status None s.

Definition send_attach_success (ctx : CommandContext.t) (device address : Z) (method : JoinMethod.t) s : st :=
  match method with
  | JoinMethod.CommissioningJoin | JoinMethod.CommissioningRejoinSecured | JoinMethod.CommissioningRejoinUnsecured =>
      send_commissioning_response ctx device address MacStatus.Success (Some method) s
  | _ => send_rejoin_response ctx device address MacStatus.Success (Some method) s
  end.

(** ** Requests *)

Definition attach_method (commissioning initial secured : bool) : JoinMethod.t :=
  match commissioning, initial, secured with
  | true, true, _ => JoinMethod.CommissioningJoin
  | true, false, true => JoinMethod.CommissioningRejoinSecured
  | true, false, false => JoinMethod.CommissioningRejoinUnsecured
  | false, _, true => JoinMethod.RejoinSecured
  | false, _, false => JoinMethod.RejoinUnsecured
  end.

(** Whether a request describes the neighbour differently from its entry. *)
Definition entry_differs (e : NeighborEntry.t) (requested capability : Z) : bool :=
  negb (NeighborEntry.short e =? requested)
  || negb (Bool.eqb (NeighborEntry.is_router e) (MacCapability.is_full_function_device capability))
  || negb (Bool.eqb (NeighborEntry.rx_on_when_idle e) (MacCapability.rx_on_when_idle capability)).

(** The entry of an accepted child. *)
Definition attached_entry (ctx : CommandContext.t) (device assigned capability : Z) (secured : bool)
    (existing : option NeighborEntry.t) s : NeighborEntry.t :=
  let e := NeighborEntry.new device assigned (child_type capability) (MacCapability.rx_on_when_idle capability)
    (if secured then Relationship.Child else Relationship.UnauthenticatedChild) (CommandContext.lqi ctx) in
  let e :=
    match existing with
    | Some old =>
        NeighborField.set_end_device_configuration (NeighborEntry.end_device_configuration old)
          (NeighborEntry.with_timeouts e (NeighborEntry.device_timeout_secs old) (NeighborEntry.device_timeout_secs old)
             (NeighborEntry.security_timer_secs e))
    | None => e
    end in
  let e := if NeighborEntry.device_timeout_secs e =? 0
           then NeighborEntry.set_timeout e (Nib.end_device_timeout_default (nib s)) else e in
  let e := if negb secured then NeighborField.set_security_timer_secs security_timeout_secs e else e in
  let e := NeighborField.set_outgoing_cost 1 e in
  NeighborField.set_link ((λ '(link, _, _, _), link) <$> rx_link s) e.

(** The entry, the tables and the response of a request that is granted. *)
Definition attach (ctx : CommandContext.t) (device assigned capability : Z) (commissioning secured : bool)
    (existing : option NeighborEntry.t) (info : option (bool * list Z)) (method : JoinMethod.t) s : st :=
  let '(ok, s) := Route.ensure_neighbor (attached_entry ctx device assigned capability secured existing s) s in
  if negb ok then send_attach_response ctx device (CommandContext.src ctx) MacStatus.PanAtCapacity commissioning s
  else
    let s := Route.remove_route assigned s in
    let s := map_address device assigned s in
    let s := match info with Some (_, tlvs) => set_pending_joiner_tlvs (Some tlvs) s | None => s end in
    send_attach_success ctx device assigned method s.

Definition handle_attach_request (ctx : CommandContext.t) (device capability : Z) (commissioning secured : bool)
    (info : option (bool * list Z)) s : st :=
  let initial := from_option fst false info in
  let method := attach_method commissioning initial secured in
  let requested := CommandContext.src ctx in
  let router := MacCapability.is_full_function_device capability in
  let refuse status s := send_attach_response ctx device requested status commissioning s in
  if negb secured && negb initial && distributed_network s then refuse MacStatus.PanAccessDenied s
  else
    let existing := NeighborTable.by_extended (neighbors s) device in
    let refused :=
      match existing with
      | Some e =>
          if negb secured && entry_differs e requested capability && Relationship.is_child (NeighborEntry.relationship e)
          then Some MacStatus.PanAccessDenied else None
      | None => if negb (has_child_capacity router s) then Some MacStatus.PanAtCapacity else None
      end in
    match refused with
    | Some status => refuse status s
    | None =>
        if negb (ShortAddress.is_assignable requested) || address_conflicts requested device s then
          let '(a, s) := Bcast.allocate_address s in
          match a with
          | None => refuse MacStatus.PanAtCapacity s
          | Some assigned =>
              if commissioning
              then send_commissioning_response ctx device assigned
                     (MacStatus.from_raw CommissioningResponse.STATUS_ADDRESS_CONFLICT) None s
              else attach ctx device assigned capability commissioning secured existing info method s
          end
        else attach ctx device requested capability commissioning secured existing info method s
    end.

Definition on_rejoin_request (ctx : CommandContext.t) (req : RejoinRequest.t) s : st :=
  if negb (Nib.is_router_or_coordinator (nib s)) || negb (Nib.router_started (nib s)) then s
  else
    match CommandContext.src_ieee ctx with
    | None => s
    | Some device =>
        if negb (CommandContext.dst ctx =? Nib.network_address (nib s)) then s
        else handle_attach_request ctx device (RejoinRequest.capability req) false (CommandContext.secured ctx) None s
    end.

Definition on_establish_trusted_link (ctx : CommandContext.t) (device : Z) s : st :=
  match rx_link s with
  | None => s
  | Some (link, _, _, _) =>
      if negb (CommandContext.secured ctx) then s
      else if negb (CommandContext.src ctx =? ShortAddress.COORDINATOR) || negb (bool_decide (trust_center s = Some device))
      then send_commissioning_response ctx device (CommandContext.src ctx) MacStatus.PanAccessDenied None s
      else
        let e := NeighborEntry.new device ShortAddress.COORDINATOR LogicalDeviceType.Router true Relationship.Sibling
          (CommandContext.lqi ctx) in
        let e := NeighborField.set_link (Some link) (NeighborField.set_outgoing_cost 1 e) in
        let s := set_neighbors (NeighborTable.remove_extended (neighbors s) device).2 s in
        let '(ok, s) := Route.ensure_neighbor e s in
        if negb ok then send_commissioning_response ctx device (CommandContext.src ctx) MacStatus.PanAtCapacity None s
        else
          let s := Route.remove_route ShortAddress.COORDINATOR s in
          let s := map_address device ShortAddress.COORDINATOR s in
          let s := send_commissioning_response ctx device ShortAddress.COORDINATOR MacStatus.Success None s in
          push_event (NwkEvent.TrustCenterLinked device link) s
  end.

(** The joiner's TLVs, as many octets as are kept. *)
Definition joiner_octets (set : TlvSet.t) : list Z :=
  let joiner := from_option TlvSet.as_bytes [] (GlobalTlvs.joiner_encapsulation set) in
  default [] (vec_extend_from_slice MAX_JOINER_TLVS []
    (default [] (get_range joiner 0 (Nat.min (length joiner) MAX_JOINER_TLVS)))).

Definition commissioned (ctx : CommandContext.t) (device : Z) (req : CommissioningRequest.t) (initial : bool) s : st :=
  if initial && CommandContext.secured ctx then s
  else if initial && (negb (is_permitting_joins s) || negb (JoiningList.allows (joining_list s) device))
  then send_commissioning_response ctx device (CommandContext.src ctx) MacStatus.PanAccessDenied None s
  else
    match CommissioningRequest.tlv_set req with
    | Err _ => s
    | Ok set =>
        handle_attach_request ctx device (CommissioningRequest.capability req) true (CommandContext.secured ctx)
          (Some (initial, joiner_octets set)) s
    end.

Definition on_commissioning_request (ctx : CommandContext.t) (req : CommissioningRequest.t) s : st :=
  if negb (Nib.is_router_or_coordinator (nib s)) || negb (Nib.router_started (nib s)) then s
  else
    match CommandContext.src_ieee ctx with
    | None => s
    | Some device =>
        if negb (CommandContext.dst ctx =? Nib.network_address (nib s)) then s
        else
          match CommissioningRequest.kind req with
          | CommissioningType.InitialJoin => commissioned ctx device req true s
          | CommissioningType.Rejoin => commissioned ctx device req false s
          | CommissioningType.EstablishTrustedLink => on_establish_trusted_link ctx device s
          | CommissioningType.Other _ => s
          end
    end.

(** ** Children and announcements *)

Definition unproven (n : NeighborEntry.t) : bool :=
  match NeighborEntry.relationship n with
  | Relationship.UnauthenticatedChild | Relationship.UnauthorizedChildRelayAllowed => true
  | _ => false
  end.

Definition authenticate_child (device : Z) s : st :=
  if from_option unproven false (NeighborTable.by_extended (neighbors s) device) then
    let s := on_neighbors (λ t, NeighborTable.by_extended_mut t device
      (λ n, NeighborField.set_security_timer_secs 0 (NeighborField.set_relationship Relationship.Child n))) s in
    push_action NwkAction.Persist s
  else s.

Definition refresh_child_security_timer (device : Z) s : st :=
  if from_option unauthenticated false (NeighborTable.by_extended (neighbors s) device)
  then on_neighbors (λ t, NeighborTable.by_extended_mut t device (NeighborField.set_security_timer_secs security_timeout_secs)) s
  else s.

Definition set_security_model (distributed : bool) (tc : option Z) s : st :=
  let s := set_distributed_network distributed s in
  set_trust_center (if distributed then None else tc) s.

Definition on_device_announce (ieee short : Z) s : st :=
  if negb (ExtendedAddress.is_valid_device_address ieee) || negb (ShortAddress.is_unicast short)
     || (ieee =? Nib.ieee_address (nib s)) then s
  else
    let lost n := match NeighborEntry.relationship n with Relationship.LostChild => true | _ => false end in
    if Nib.is_router_or_coordinator (nib s)
       && from_option (λ n, negb (NeighborEntry.short n =? short) && lost n) false (NeighborTable.by_extended (neighbors s) ieee)
    then Route.reassign_child_address ieee s
    else Route.note_address ieee short true s.
End parent.
End Parent.
