(* ===== verification/NwkReceive.v ===== *)
(** * The network layer: confirms, reception and timers
    (panweave-nwk/src/layer/tx.rs, rx.rs, maint.rs, mod.rs)

    The MAC's answers to a transmission, the path of a received frame through
    security, address bookkeeping, delivery and relaying, the dispatch of the
    commands, and the timer loop.  The loops over the queue of pending frames take
    fuel; [None] is a loop that has not ended within it, or the panic of a
    [collect] into a vector that is too short. *)

From S2P Require Import Prelude Types Status Codec Tlv Heapless FrameCounter AuxHeader Ccm SecFrame Keys NwkSecurity NwkFrame Routing NwkTables NwkCommand NwkNeighbor NwkBeacon NwkDiscovery NwkInterface MacFrame NwkState NwkTx NwkBcast NwkRoute NwkPower NwkScan NwkLeave NwkJoin NwkParent.

(** ** layer/tx.rs: confirms *)

Module Confirm.
Import Nwk Tx Scan Leaving.

Section confirm.
Context {C R : Type} {D : NwkDims.t} `{!BlockCipher C} {Hrng : Rng R} {Hfair : FairRng R} {Hv : Heapless}.
Abbreviation st := (Nwk.t C R D).
Implicit Types s : st.

(** [self.pending.iter().position(|p| p.mac_handle == Some(handle))] *)
Definition of_handle (handle : Z) (p : PendingTx.t) : bool := bool_decide (PendingTx.mac_handle p = Some handle).
Definition position s (handle : Z) : option nat := fst <$> list_find (λ p, of_handle handle p = true) (pending s).

(** The index of the interface in use. *)
Definition interface_in_use s : option Z :=
  MacInterfaceEntry.index <$> MacInterfaceTable.interface_for (interfaces s) (Nib.channel_page (nib s)) (Nib.channel (nib s)).

Definition on_unicast_delivered (entry : PendingTx.t) s : st :=
  match PendingTx.kind entry with
  | TxKind.Data => push_event (NwkEvent.DataConfirm (PendingTx.id entry) NwkStatus.Success) s
  | TxKind.Leave device => on_leave_sent device NwkStatus.Success s
  | TxKind.JoinRequest => Joining.on_join_request_sent true s
  | TxKind.JoinResponse device method => Parent.on_join_response_delivered device true method s
  | TxKind.TimeoutRequest => EndDevice.on_timeout_request_sent true s
  | TxKind.Command | TxKind.RouteReply _ => s
  end.

Definition link_failure (status : TxStatus.t) : bool :=
  match status with TxStatus.NoAck | TxStatus.ChannelAccessFailure => true | _ => false end.

(** Why a relayed frame failed. *)
Definition failure_code (entry : PendingTx.t) s : NetworkStatusCode.t :=
  if PendingTx.source_route entry then NetworkStatusCode.SourceRouteFailure
  else if from_option (λ r, RouteEntry.many_to_one r && negb (RouteEntry.expired r)) false
            (RoutingTable.get (routes s) (PendingTx.dst entry)) then NetworkStatusCode.ManyToOneRouteFailure
  else NetworkStatusCode.LinkFailure.

Definition on_data_failed (entry : PendingTx.t) (status : TxStatus.t) s : st :=
  let hop := PendingTx.next_hop entry in
  match PendingTx.relayed_from entry with
  | Some src => send_network_status src (PendingTx.dst entry) (failure_code entry s) s
  | None =>
      let nwk_status := if link_failure status then NwkStatus.RouteError else mac_status_to_nwk status in
      let s := push_event (NwkEvent.DataConfirm (PendingTx.id entry) nwk_status) s in
      if Nib.is_end_device (nib s) && (hop =? Nib.parent_address (nib s)) && link_failure status
      then push_event (NwkEvent.NetworkStatus hop NetworkStatusCode.ParentLinkFailure) s
      else push_event (NwkEvent.NetworkStatus (PendingTx.dst entry) NetworkStatusCode.LinkFailure) s
  end.

Definition on_unicast_failed (entry : PendingTx.t) (status : TxStatus.t) s : st :=
  let hop := PendingTx.next_hop entry in
  let s :=
    if link_failure status && Nib.is_router_or_coordinator (nib s) then
      let '(invalidated, t) := RoutingTable.invalidate_via (routes s) hop in
      let s := set_routes t s in
      if (0 <? invalidated)%nat then bump NwkStats.F_no_route s else s
    else s in
  match PendingTx.kind entry with
  | TxKind.Data => on_data_failed entry status s
  | TxKind.Leave device => on_leave_sent device (mac_status_to_nwk status) s
  | TxKind.JoinRequest => Joining.on_join_request_sent false s
  | TxKind.JoinResponse device method => Parent.on_join_response_delivered device false method s
  | TxKind.TimeoutRequest => EndDevice.on_timeout_request_sent false s
  | TxKind.RouteReply responder =>
      if link_failure status then send_network_status responder (PendingTx.dst entry) NetworkStatusCode.LinkFailure s else s
  | TxKind.Command => s
  end.

Definition on_mac_indirect_ready (handle : Z) s : st :=
  match position s handle with
  | None => s
  | Some pos =>
      match pending s !! pos with
      | None => s
      | Some p =>
          match finalize_frame (PendingTx.frame p) (PendingTx.header_len p) (PendingTx.secure p) s with
          | (Ok on_air, s) =>
              let s := on_nib (λ n, Nib.set_tx_total (sat_add 16 (Nib.tx_total n) 1) n) s in
              push_action (NwkAction.MacData handle (PendingTx.next_hop p) on_air true false) s
          | (Err NwkError.CounterPending, s) =>
              match take_pending pos s with
              | Some (entry, s) =>
                  ignore (track_pending (PendingTx.set_retry_at (Some (Instant.saturating_add (now s) COUNTER_RETRY_DELAY))
                    (PendingTx.set_mac_handle None entry))) s
              | None => s
              end
          | (Err _, s) =>
              match take_pending pos s with
              | Some (entry, s) => on_unicast_failed entry TxStatus.RadioError s
              | None => s
              end
          end
      end
  end.

Definition fails_more (n : NeighborEntry.t) : NeighborEntry.t :=
  NeighborField.set_transmit_failure (sat_add 8 (NeighborEntry.transmit_failure n) 1) n.

Definition on_mac_data_confirm (handle : Z) (status : TxStatus.t) s : st :=
  match position s handle ≫= λ pos, take_pending pos s with
  | None => s
  | Some (entry, s) =>
      let success := match status with TxStatus.Success => true | _ => false end in
      let s :=
        match interface_in_use s with
        | Some i => set_interfaces (MacInterfaceTable.note_tx (interfaces s) i 0 (negb success)) s
        | None => s
        end in
      let on_hop f s := on_neighbors (λ t, NeighborTable.by_short_mut t (PendingTx.next_hop entry) f) s in
      match status with
      | TxStatus.Success => on_unicast_delivered entry (on_hop (NeighborField.set_transmit_failure 0) s)
      | TxStatus.NoAck | TxStatus.ChannelAccessFailure | TxStatus.RadioError =>
          let s := on_nib (λ n, Nib.set_tx_failures (sat_add 16 (Nib.tx_failures n) 1) n) s in
          let s := on_hop fails_more s in
          if (0 <? PendingTx.retries_left entry) && negb (PendingTx.indirect entry) then
            let entry := PendingTx.set_retry_at (Some (Instant.saturating_add (now s) constants.UNICAST_RETRY_DELAY))
              (PendingTx.set_mac_handle None (PendingTx.set_retries_left (PendingTx.retries_left entry - 1) entry)) in
            ignore (track_pending entry) s
          else on_unicast_failed entry status s
      | TxStatus.TransactionExpired => on_unicast_failed entry status s
      end
  end.
End confirm.
End Confirm.

(** ** layer/rx.rs *)

Module RxOutcome.
Inductive t : Type :=
  | None
  | Data (src dst : Z) (src_ieee secured_by : option Z) (secured : bool) (lqi : Z) (payload : list Z)
  | InterPan (payload : list Z) (lqi : Z).
End RxOutcome.

Module Receive.
Import Nwk Tx Scan Leaving.

Section receive.
Context {C R : Type} {D : NwkDims.t} `{!BlockCipher C} {Hrng : Rng R} {Hfair : FairRng R} {Hv : Heapless} {CT : ConstantTimeEq}.
Abbreviation st := (Nwk.t C R D).
Implicit Types s : st.

Definition unsecured_frame_allowed (is_command for_me : bool) (src : Z) (buf : list Z) (header_len : nat) s : bool :=
  let cmd_id := if is_command then NwkCommandId.from_raw <$> buf !! header_len else None in
  let aps_fc := default 0 (buf !! header_len) in
  let aps_command := Z.land aps_fc 0x03 =? 0x01 in
  let aps_secured := flag 0x20 aps_fc in
  let unsecured_join := from_option (λ j, negb (JoinState.secure j)) false (join s) in
  let response :=
    match cmd_id with
    | Some NwkCommandId.RejoinResponse | Some NwkCommandId.CommissioningResponse => true
    | _ => false
    end in
  if is_command && unsecured_join && for_me && response then true
  else if Nib.joined (nib s) && Nib.authenticated (nib s) then
    if is_command then
      match cmd_id with
      | Some NwkCommandId.RejoinRequest | Some NwkCommandId.CommissioningRequest => for_me
      | _ => false
      end
    else
      for_me && aps_command
      && from_option Parent.unauthenticated false (NeighborTable.by_short (neighbors s) src)
  else
    match cmd_id with
    | Some NwkCommandId.RejoinResponse | Some NwkCommandId.CommissioningResponse => unsecured_join
    | Some _ => false
    | None =>
        for_me && (aps_command || aps_secured || (Nib.joined (nib s) && (src =? Nib.parent_address (nib s))))
    end.

Definition context_of (header : NwkHeader.t) (mac_src lqi rssi_dbm : Z) (secured : bool) (secured_by : option Z) : CommandContext.t :=
  CommandContext.mk (NwkHeader.src header) (NwkHeader.dst header) (NwkHeader.src_ieee header) (NwkHeader.dst_ieee header)
    mac_src lqi rssi_dbm secured secured_by (NwkHeader.radius header) (NwkHeader.sequence header).

Definition run_command (fuel : nat) (ctx : CommandContext.t) (cmd : NwkCommand.t) s : option st :=
  match cmd with
  | NwkCommand.RouteRequest c => Route.on_route_request fuel ctx c s
  | NwkCommand.RouteReply c => Route.on_route_reply fuel ctx c s
  | NwkCommand.NetworkStatus c => Some (Route.on_network_status ctx c s)
  | NwkCommand.Leave c => Some (on_leave_command ctx c s)
  | NwkCommand.RouteRecord c => Some (Route.on_route_record ctx c s)
  | NwkCommand.RejoinRequest c => Some (Parent.on_rejoin_request ctx c s)
  | NwkCommand.RejoinResponse c => Some (Joining.on_rejoin_response ctx c s)
  | NwkCommand.LinkStatus c => Some (Route.on_link_status ctx c s)
  | NwkCommand.NetworkReport c => Some (on_network_report ctx c s)
  | NwkCommand.NetworkUpdate c => Some (on_network_update ctx c s)
  | NwkCommand.EndDeviceTimeoutRequest c => Some (EndDevice.on_end_device_timeout_request ctx c s)
  | NwkCommand.EndDeviceTimeoutResponse c => Some (EndDevice.on_end_device_timeout_response ctx c s)
  | NwkCommand.CommissioningRequest c => Some (Parent.on_commissioning_request ctx c s)
  | NwkCommand.CommissioningResponse c => Some (Joining.on_commissioning_response ctx c s)
  | NwkCommand.LinkPowerDelta c => Some (Power.on_link_power_delta ctx c s)
  | NwkCommand.Unknown _ _ =>
      let s := bump NwkStats.F_unknown_commands s in
      Some (if (CommandContext.dst ctx =? Nib.network_address (nib s)) && CommandContext.secured ctx
            then send_network_status (CommandContext.src ctx) (CommandContext.src ctx) NetworkStatusCode.UnknownCommand s
            else s)
  end.

Definition dispatch_command (fuel : nat) (buf : list Z) (payload_start payload_end : nat) (mac_src lqi rssi_dbm : Z)
    (secured : bool) (secured_by : option Z) s : option st :=
  match NwkHeader.decode_prefix buf with
  | Err _ => Some s
  | Ok (header, _) =>
      let payload := default [] (get_range buf payload_start payload_end) in
      match decode (A := NwkCommand.t) (Reader.new payload) with
      | (Err _, _) => Some (bump NwkStats.F_malformed s)
      | (Ok cmd, _) => run_command fuel (context_of header mac_src lqi rssi_dbm secured secured_by) cmd s
      end
  end.

(** The security of a frame: who secured it, where its payload lies, and the
    buffer decrypted in place; [None] is a frame that is dropped. *)
Definition check_security (h : NwkHeader.t) (header_len : nat) (buf : list Z) s
    : option (option Z * nat * nat) * list Z * st :=
  let fc := NwkHeader.frame_control h in
  let assumed :=
    match rx_link s with
    | Some (_, peer, assume, _) => if assume && negb (FrameControl.security fc) then Some peer else None
    | None => None
    end in
  match assumed with
  | Some peer =>
      if negb (NwkConfig.security_enabled (config s)) then (None, buf, s)
      else (Some (Some peer, header_len, length buf), buf, s)
  | None =>
      if FrameControl.security fc then
        if negb (NwkConfig.security_enabled (config s)) then (None, buf, s)
        else
          let '(r, buf, sec) := NwkSecurity.unsecure_incoming (security s) buf header_len
            (Nib.security_level (nib s)) (Nib.all_fresh (nib s)) in
          let s := set_security sec s in
          match r with
          | Ok u =>
              let s :=
                if Nib.is_end_device (nib s) && negb (Nib.rx_on_when_idle (nib s))
                   && negb (bool_decide (NwkSecurity.active_sequence (security s) = Some (Unsecured.key_sequence u)))
                   && (NwkHeader.src h =? Nib.parent_address (nib s))
                then (Joining.switch_network_key (Unsecured.key_sequence u) s).2 else s in
              (Some (Some (Unsecured.sender u), Unsecured.payload_start u, Unsecured.payload_end u), buf, s)
          | Err BadFrameCounter => (None, buf, bump NwkStats.F_replays s)
          | Err _ => (None, buf, bump NwkStats.F_security_failures s)
          end
      else
        let is_command := match FrameControl.frame_type fc with FrameType.Command => true | _ => false end in
        let for_me := (NwkHeader.dst h =? Nib.network_address (nib s)) || ShortAddress.is_broadcast (NwkHeader.dst h) in
        if NwkConfig.security_enabled (config s)
           && negb (unsecured_frame_allowed is_command for_me (NwkHeader.src h) buf header_len s)
        then (None, buf, bump NwkStats.F_security_failures s)
        else (Some (None, header_len, length buf), buf, s)
  end.

(** What the previous hop's frame says of its link. *)
Definition heard (lqi rssi_dbm : Z) (n : NeighborEntry.t) : NeighborEntry.t :=
  NeighborField.set_last_rssi_dbm (Some rssi_dbm) (NeighborField.set_lqa (LqaFilter.push (NeighborEntry.lqa n) lqi) n).
Definition heard_from (mac_src lqi rssi_dbm : Z) (n : NeighborEntry.t) : NeighborEntry.t :=
  let n := heard lqi rssi_dbm n in
  if negb (NeighborEntry.short n =? mac_src) && ShortAddress.is_unicast mac_src then NeighborField.set_short mac_src n else n.
Definition inbound (n : NeighborEntry.t) : NeighborEntry.t :=
  if NeighborEntry.is_router n
  then NeighborField.set_router_inbound_activity (sat_add 8 (NeighborEntry.router_inbound_activity n) 1) n else n.

(** Addresses, link qualities and activity, and a conflict of this device's address. *)
Definition bookkeeping (h : NwkHeader.t) (my_short mac_src lqi rssi_dbm : Z) (secured : bool) (secured_by : option Z) s : st :=
  let src := NwkHeader.src h in
  let dst := NwkHeader.dst h in
  let s :=
    match NwkHeader.src_ieee h, secured_by with
    | Some e, _ => Route.note_address e src secured s
    | None, Some sb => if src =? mac_src then Route.note_address sb src true s else s
    | None, None => s
    end in
  let s :=
    match secured_by with
    | Some sb => on_neighbors (λ t, NeighborTable.by_extended_mut t sb (heard_from mac_src lqi rssi_dbm)) s
    | None => on_neighbors (λ t, NeighborTable.by_short_mut t mac_src (heard lqi rssi_dbm)) s
    end in
  let s := if ShortAddress.is_unicast dst then on_neighbors (λ t, NeighborTable.by_short_mut t mac_src inbound) s else s in
  if secured && (dst =? my_short)
     && from_option (λ di, negb (di =? Nib.ieee_address (nib s))) false (NwkHeader.dst_ieee h)
     && Nib.is_router_or_coordinator (nib s)
  then Bcast.on_local_address_conflict s else s.

(** An end device that is not known here is told to rejoin: whether the frame is
    processed further. *)
Definition initiator_ok (h : NwkHeader.t) (secured : bool) s : bool * st :=
  if FrameControl.end_device_initiator (NwkHeader.frame_control h) then
    if Nib.is_end_device (nib s) then (false, s)
    else if from_option NeighborEntry.is_end_device false (NeighborTable.by_short (neighbors s) (NwkHeader.src h)) then (true, s)
    else (false, if secured then send_leave_to_unknown_child (NwkHeader.src h) s else s)
  else (true, s).

Definition data_outcome (h : NwkHeader.t) (buf : list Z) (lqi : Z) (secured : bool) (secured_by : option Z) (ps pe : nat) : RxOutcome.t :=
  RxOutcome.Data (NwkHeader.src h) (NwkHeader.dst h) (NwkHeader.src_ieee h) secured_by secured lqi
    (default [] (get_range buf ps pe)).

(** The frame for another device. *)
Definition relay_frame (h : NwkHeader.t) (my_short : Z) (buf : list Z) (header_len ps pe : nat) (is_command secured : bool) s : st :=
  if negb (Nib.is_router_or_coordinator (nib s)) || negb (Nib.router_started (nib s)) then s
  else if is_command then
    match NwkCommandId.from_raw <$> buf !! ps with
    | Some NwkCommandId.NetworkStatus => Route.relay_network_status buf ps pe secured s
    | Some NwkCommandId.RouteRecord => Route.relay_route_record buf ps pe secured s
    | _ => s
    end
  else if NwkHeader.radius h <=? 1 then s
  else
    let not_the_relay :=
      match NwkHeader.source_route h with
      | Some sr =>
          negb (SourceRoute.relay_index sr =? 0)
          && match NwkHeader.decode_prefix buf with
             | Err _ => true
             | Ok (h, _) => negb (bool_decide ((NwkHeader.source_route h ≫= SourceRoute.next_relay) = Some my_short))
             end
      | None => false
      end in
    if not_the_relay then s
    else
      match vec_extend_from_slice MAX_NPDU [] (default [] (get_range buf 0 header_len)) ≫= λ v,
            vec_extend_from_slice MAX_NPDU v (default [] (get_range buf ps pe)) with
      | None => s
      | Some plaintext =>
          let plaintext := patch_octet 1 (clearing 0x02) plaintext in
          match NwkHeader.decode_prefix plaintext with
          | Err _ => s
          | Ok (h', _) =>
              let h := NwkHeader.mk (NwkHeader.frame_control h') (NwkHeader.dst h) (NwkHeader.src h) (NwkHeader.radius h)
                (NwkHeader.sequence h) (NwkHeader.dst_ieee h) (NwkHeader.src_ieee h) (NwkHeader.source_route h') in
              ignore (Route.relay_unicast plaintext h secured) s
          end
      end.

(** A frame that passed the checks: broadcast, for this device, or to be relayed. *)
Definition deliver (fuel : nat) (h : NwkHeader.t) (my_short : Z) (buf : list Z) (header_len ps pe : nat)
    (mac_src lqi rssi_dbm : Z) (secured : bool) (secured_by : option Z) s : option (RxOutcome.t * st) :=
  let is_command := match FrameControl.frame_type (NwkHeader.frame_control h) with FrameType.Command => true | _ => false end in
  let data := data_outcome h buf lqi secured secured_by ps pe in
  let hand_up s :=
    if is_command
    then s ← dispatch_command fuel buf ps pe mac_src lqi rssi_dbm secured secured_by s; Some (RxOutcome.None, s)
    else Some (data, s) in
  if ShortAddress.is_broadcast (NwkHeader.dst h) then
    let '(ok, s) := Bcast.on_broadcast_received (NwkHeader.src h) (NwkHeader.sequence h) (NwkHeader.dst h)
      (NwkHeader.radius h) mac_src buf header_len ps pe secured s in
    if negb ok then Some (RxOutcome.None, s) else hand_up s
  else
    let mine := NwkHeader.dst h =? my_short in
    let s :=
      if mine then
        match Confirm.interface_in_use s with
        | Some i => set_interfaces (MacInterfaceTable.note_rx (interfaces s) i) s
        | None => s
        end
      else s in
    let passing :=
      from_option (λ sr, negb (SourceRoute.relay_index sr =? 0)) false (NwkHeader.source_route h)
      && Nib.is_router_or_coordinator (nib s) in
    if mine && negb passing then hand_up s
    else Some (RxOutcome.None, relay_frame h my_short buf header_len ps pe is_command secured s).

Definition on_mac_data (fuel : nat) (buf : list Z) (mac_src lqi rssi_dbm : Z) s : option (RxOutcome.t * st) :=
  match NwkHeader.decode_prefix buf with
  | Err _ => Some (RxOutcome.None, bump NwkStats.F_malformed s)
  | Ok (h, header_len) =>
      let fc := NwkHeader.frame_control h in
      match FrameControl.frame_type fc with
      | FrameType.InterPan => Some (RxOutcome.InterPan (default [] (get_from buf 2)) lqi, s)
      | ft =>
          if negb (FrameControl.protocol_version fc =? PROTOCOL_VERSION)
             || match ft with FrameType.Reserved => true | _ => false end
          then Some (RxOutcome.None, bump NwkStats.F_malformed s)
          else if negb (Nib.joined (nib s)) && negb (is_some (join s)) then Some (RxOutcome.None, s)
          else
            let my_short := Nib.network_address (nib s) in
            let '(checked, buf, s') := check_security h header_len buf s in
            match checked with
            | None => Some (RxOutcome.None, s')
            | Some (secured_by, ps, pe) =>
                let secured := is_some secured_by in
                let s := bookkeeping h my_short mac_src lqi rssi_dbm secured secured_by s' in
                let '(go_on, s) := initiator_ok h secured s in
                if negb go_on then Some (RxOutcome.None, s)
                else
                  let s :=
                    if Nib.is_router_or_coordinator (nib s) && secured
                    then Route.examine_lost_child (NwkHeader.src h) mac_src (NwkHeader.dst h) (NwkHeader.sequence h) s
                    else s in
                  deliver fuel h my_short buf header_len ps pe mac_src lqi rssi_dbm secured secured_by s
            end
      end
  end.

Definition on_trusted_link_data (fuel : nat) (link peer : Z) (buf : list Z) (assume_security : bool) s : option (RxOutcome.t * st) :=
  match NwkHeader.decode_prefix buf with
  | Err _ => Some (RxOutcome.None, bump NwkStats.F_malformed s)
  | Ok (h, _) =>
      if FrameControl.security (NwkHeader.frame_control h) then Some (RxOutcome.None, bump NwkStats.F_malformed s)
      else
        let src := NwkHeader.src h in
        let s := set_rx_link (Some (link, peer, assume_security, src)) s in
        '(out, s) ← on_mac_data fuel buf src u8_max 0 s;
        let s := set_rx_link None s in
        Some (out, on_neighbors (λ t, NeighborTable.by_extended_mut t peer (NeighborField.set_link (Some link))) s)
  end.
End receive.
End Receive.

(** ** layer/maint.rs, mod.rs: timers and the warm start *)

Module Timers.
Import Nwk Tx Scan Leaving.

Section timers.
Context {C R : Type} {D : NwkDims.t} `{!BlockCipher C} {Hrng : Rng R} {Hfair : FairRng R} {Hv : Heapless}.
Abbreviation st := (Nwk.t C R D).
Implicit Types s : st.

Definition permit_expiry (tnow : Z) s : st :=
  match permit_until s with
  | Some t =>
      if Instant.has_reached tnow t
      then push_event (NwkEvent.PermitJoining false) (push_action (NwkAction.MacSetPermit false) (set_permit_until None s))
      else s
  | None => s
  end.

Definition link_status_timer (tnow : Z) s : option st :=
  match link_status_due s with
  | Some t =>
      if Instant.has_reached tnow t then
        let s := Route.send_link_status s in
        '(n, r) ← Maint.link_status_period (neighbors s) (routes s) (Nib.router_age_limit (nib s));
        let s := set_routes r (set_neighbors n s) in
        let '(j, s) := jitter 0 (Duration.from_millis 1000) s in
        let s := set_link_status_due (Some (Instant.saturating_add
          (Instant.saturating_add tnow (Nib.link_status_period (nib s))) j)) s in
        Some (update_beacon_payload s)
      else Some s
  | None => Some s
  end.

(** The parent's entry of an end device over [elapsed] seconds, and whether the
    parent is taken to have dropped the device. *)
Definition age_parent (elapsed : Z) (p : NeighborEntry.t) : bool * NeighborEntry.t :=
  let p := NeighborField.set_timeout_counter_secs (sat_sub (NeighborEntry.timeout_counter_secs p) elapsed) p in
  if (NeighborEntry.timeout_counter_secs p =? 0) && negb (NeighborEntry.device_timeout_secs p =? 0)
  then (true, NeighborField.set_timeout_counter_secs (NeighborEntry.device_timeout_secs p) p) else (false, p).

Definition age_timer (tnow : Z) s : st :=
  let '(elapsed, last) := Maint.age_clock (child_age_last s) tnow in
  if 1 <=? elapsed then
    let s := set_child_age_last last s in
    let sec := security s in
    let '(n, map, inc, expired) := Maint.child_aging (neighbors s) (address_map s) (NwkSecurity.incoming sec) elapsed in
    let s := set_security (NwkSecurity.mk (NwkSecurity.keys sec) inc (NwkSecurity.ciphers sec))
      (set_address_map map (set_neighbors n s)) in
    let s := foldl (λ s d, push_event (NwkEvent.ChildRemoved d) s) s expired in
    if Nib.is_end_device (nib s) && Nib.joined (nib s) then
      let elapsed32 := Z.min elapsed u32_max in
      let aged_out := from_option (λ p, (age_parent elapsed32 p).1) false (NeighborTable.parent (neighbors s)) in
      let s := on_first is_parent (λ p, (age_parent elapsed32 p).2) s in
      if aged_out then EndDevice.parent_link_failure s else s
    else s
  else s.

Definition keepalive_timer (tnow : Z) s : st :=
  match keepalive_due s with
  | Some t =>
      if Nib.is_end_device (nib s) && Nib.authenticated (nib s) && Instant.has_reached tnow t
      then EndDevice.send_keepalive s else s
  | None => s
  end.

Definition timeout_timer (tnow : Z) s : st :=
  match timeout_request_deadline s with
  | Some t =>
      if Instant.has_reached tnow t then
        let s := set_timeout_request_deadline None s in
        if ParentInformation.timeout_request_keepalive (Nib.parent_information (nib s))
        then EndDevice.parent_link_failure s else s
      else s
  | None => s
  end.

Definition poll_timers (fuel : nat) (tnow : Z) s : option st :=
  if tnow <? now s then Some s
  else
    let s := set_now tnow s in
    let s := permit_expiry tnow s in
    s ← link_status_timer tnow s;
    let s := timeout_timer tnow (keepalive_timer tnow (age_timer tnow s)) in
    let s := Joining.service_join tnow s in
    s ← service_pending fuel tnow s;
    let s := service_route_requests tnow s in
    s ← Route.service_route_discovery fuel tnow s;
    let s := Bcast.service_broadcasts tnow s in
    let s := service_pan_id_update tnow s in
    Some (Power.service_power_delta tnow s).

Definition next_deadline s : option Z :=
  let age :=
    if Nib.joined (nib s) && ((0 <? NeighborTable.child_count (neighbors s))%nat || Nib.is_end_device (nib s))
    then Some (Instant.saturating_add (child_age_last s) (Duration.from_secs 1)) else None in
  minimum (omap id [
    (t ← permit_until s; if t =? Instant.FAR_FUTURE then None else Some t);
    link_status_due s;
    age;
    keepalive_due s;
    timeout_request_deadline s;
    Power.power_deadline s;
    Joining.join_deadline s;
    pending_deadline s;
    routing_deadline s;
    BroadcastTransactionTable.next_deadline (btt s);
    (λ '(_, _, t), t) <$> pan_id_update s]).

(** [Nwk::request] has one request. *)
Definition request_poll s : st := push_action NwkAction.MacPoll s.

Definition full_timeout (e : NeighborEntry.t) : NeighborEntry.t :=
  if Relationship.is_child (NeighborEntry.relationship e) && NeighborEntry.is_end_device e
  then NeighborField.set_keepalive_received false
         (NeighborField.set_timeout_counter_secs (NeighborEntry.device_timeout_secs e) e)
  else e.

Definition warm_start s : st :=
  let s :=
    if negb (Nib.network_address (nib s) =? ShortAddress.NO_SHORT_ADDRESS)
       && negb (Nib.pan_id (nib s) =? PanId.BROADCAST) && NwkSecurity.has_key (security s)
    then on_nib (Nib.set_authenticated true) (on_nib (Nib.set_joined true) s) else s in
  on_every full_timeout s.
End timers.
End Timers.
