(* ===== verification/NwkDelivery.v ===== *)
(** * The network layer: what is delivered is what was sent

    The path of a frame through [on_mac_data]: what reaches the higher layer was
    protected under a network key or comes from a child that has none yet, what
    fails the check changes nothing but a counter and a cache, and what a data
    request of one device sends another one hands up. *)

From S2P Require Import Prelude Types Status Codec Tlv Heapless FrameCounter AuxHeader Ccm SecFrame Keys NwkSecurity NwkFrame Routing NwkTables NwkCommand NwkNeighbor NwkBeacon NwkDiscovery NwkInterface MacFrame NwkState NwkTx NwkPending NwkBcast NwkRoute NwkPower NwkScan NwkLeave NwkJoin NwkParent NwkReceive.

Section reception.
Context {C R : Type} {D : NwkDims.t} `{!BlockCipher C} {Hrng : Rng R} {Hfair : FairRng R} {Hv : Heapless} {CT : ConstantTimeEq}.
Abbreviation st := (Nwk.t C R D).
Implicit Types s : st.
Import Nwk Tx.

(** A data frame goes up only as what the check let through. *)
Lemma deliver_data fuel h my buf hl ps pe mac lqi rssi secured sb s src dst ie sb' sec l p s' :
  Receive.deliver fuel h my buf hl ps pe mac lqi rssi secured sb s = Some (RxOutcome.Data src dst ie sb' sec l p, s') →
  src = NwkHeader.src h ∧ dst = NwkHeader.dst h ∧ sb' = sb ∧ sec = secured ∧ p = default [] (get_range buf ps pe) ∧
  (dst = my ∨ ShortAddress.is_broadcast dst = true) ∧
  FrameControl.frame_type (NwkHeader.frame_control h) ≠ FrameType.Command.
Proof.
  unfold Receive.deliver, Receive.data_outcome.
  set (cmd := match FrameControl.frame_type _ with FrameType.Command => true | _ => false end).
  assert (cmd = false → FrameControl.frame_type (NwkHeader.frame_control h) ≠ FrameType.Command) as Hc
    by (subst cmd; by case_match).
  destruct (ShortAddress.is_broadcast (NwkHeader.dst h)) eqn:Eb.
  - destruct (Bcast.on_broadcast_received _ _ _ _ _ _ _ _ _ _ _) as [[] s1]; cbn [negb]; [|done].
    destruct cmd; [by destruct (Receive.dispatch_command _ _ _ _ _ _ _ _ _ _)|]. intros [= <- <- <- <- <- <- <- <-]. eauto 10.
  - destruct (Z.eqb_spec (NwkHeader.dst h) my) as [Hd|Hd]; [|done].
    match goal with |- context [if true && negb ?x then _ else _] => destruct x end; cbn [andb negb]; [done|].
    destruct cmd; [by destruct (Receive.dispatch_command _ _ _ _ _ _ _ _ _ _)|]. intros [= <- <- <- <- <- <- <- <-]. eauto 10.
Qed.

(** A data frame that went up passed the security check. *)
Lemma data_checked fuel buf mac lqi rssi s src dst ie sb sec l p s' :
  Receive.on_mac_data fuel buf mac lqi rssi s = Some (RxOutcome.Data src dst ie sb sec l p, s') →
  ∃ h hl buf' ps pe s1, NwkHeader.decode_prefix buf = Ok (h, hl) ∧
    Receive.check_security h hl buf s = (Some (sb, ps, pe), buf', s1) ∧ sec = is_some sb ∧
    src = NwkHeader.src h ∧ dst = NwkHeader.dst h ∧ p = default [] (get_range buf' ps pe) ∧
    (dst = Nib.network_address (nib s) ∨ ShortAddress.is_broadcast dst = true) ∧
    FrameControl.frame_type (NwkHeader.frame_control h) ≠ FrameType.Command.
Proof.
  unfold Receive.on_mac_data. destruct (NwkHeader.decode_prefix buf) as [[h hl]|] eqn:Ed; [|done].
  destruct (FrameControl.frame_type (NwkHeader.frame_control h)) eqn:Ef; try done.
  all: destruct (_ || _); [done|]; destruct (negb _ && negb _); [done|].
  all: destruct (Receive.check_security h hl buf s) as [[[[[sb0 ps] pe]|] buf'] s1] eqn:Ec; [|done].
  all: destruct (Receive.initiator_ok _ _ _) as [[] s2]; cbn [negb]; [|done].
  all: intros (-> & -> & -> & -> & -> & Hd & Hc)%deliver_data; exists h, hl, buf', ps, pe, s1; by split_and!.
Qed.

(** [payload] is what [sender] sent: the auxiliary header behind the [hl] octets of
    the header names the sender, a key that is held and a counter that is fresh for
    it, and protecting [payload] under that key at [level], behind that header, gives
    the octets of [buf]. *)
Record authentic (sec : NwkSecurity.t C (NwkDims.Neighbors D)) (level : SecurityLevel.t) (buf : list Z) (hl : nat)
    (sender : Z) (payload : list Z) : Prop := {
  au_proof : ∃ aux seq k, peek_aux buf hl = Ok aux ∧ AuxHeader.source aux = Some sender ∧
    AuxHeader.key_sequence aux = Some seq ∧ NetworkKeys.get (NwkSecurity.keys sec) seq = Some k ∧
    IncomingCounters.is_fresh (NwkSecurity.incoming sec) sender (AuxHeader.frame_counter aux) = true ∧
    protects_to (cipher_new (NetworkKeySlot.key k)) (received_aux level aux) sender hl payload buf
}.

(** The security check, with no Trusted Link and security enabled. *)
Lemma check_secured h hl buf s o buf' s1 :
  NwkSecurity.wf (security s) → bytes_ok buf → NwkConfig.security_enabled (config s) = true → rx_link s = None →
  FrameControl.security (NwkHeader.frame_control h) = true →
  Receive.check_security h hl buf s = (o, buf', s1) →
  match o with
  | None =>
      ∃ f sec, s1 = bump f (set_security sec s) ∧ NwkSecurity.keys sec = NwkSecurity.keys (security s) ∧
        NwkSecurity.incoming sec = NwkSecurity.incoming (security s)
  | Some (sb, ps, pe) =>
      ∃ sender, sb = Some sender ∧
        authentic (security s) (Nib.security_level (nib s)) buf hl sender (default [] (get_range buf' ps pe))
  end.
Proof.
  intros Hwf Hb He Hl Hs. unfold Receive.check_security. rewrite Hl, Hs, He. cbn [negb].
  pose proof (unsecure_sound (security s) buf hl (Nib.security_level (nib s)) (Nib.all_fresh (nib s)) Hwf Hb) as Hu.
  destruct (NwkSecurity.unsecure_incoming _ _ _ _ _) as [[[u|e] out] sec].
  - intros [= <- <- _]. destruct Hu as (_ & Hf & _ & k & aux & payload & Hpk & Hsrc & Hseq & Hfc & Hg & Hr & Hp).
    exists (Unsecured.sender u). split; [done|]. rewrite Hr. constructor. exists aux, (Unsecured.key_sequence u), k. by rewrite Hfc.
  - destruct Hu as [Hk Hi].
    destruct e; intros [= <- _ <-]; eauto.
Qed.

(** An unsecured frame on an operating device, with no join of its own. *)
Lemma check_unsecured h hl buf s o buf' s1 :
  NwkConfig.security_enabled (config s) = true → rx_link s = None → is_operational s = true →
  FrameControl.security (NwkHeader.frame_control h) = false →
  FrameControl.frame_type (NwkHeader.frame_control h) ≠ FrameType.Command →
  Receive.check_security h hl buf s = (o, buf', s1) →
  match o with
  | None => s1 = bump NwkStats.F_security_failures s
  | Some (sb, ps, pe) =>
      sb = None ∧ buf' = buf ∧ ps = hl ∧ pe = length buf ∧ Z.land (default 0 (buf !! hl)) 0x03 = 0x01 ∧
      ∃ n, NeighborTable.by_short (neighbors s) (NwkHeader.src h) = Some n ∧
        NeighborEntry.relationship n = Relationship.UnauthenticatedChild
  end.
Proof.
  intros He Hl Ho Hs Hc. unfold Receive.check_security. rewrite Hl, Hs, He. cbn [andb].
  assert (match FrameControl.frame_type (NwkHeader.frame_control h) with FrameType.Command => true | _ => false end = false)
    as -> by (by case_match).
  unfold is_operational in Ho. set (me := _ || _). unfold Receive.unsecured_frame_allowed. cbn [andb]. rewrite Ho.
  destruct (me && _ && _) eqn:Ea; cbn [negb]; [|by intros [= <- _ <-]].
  intros [= <- <- _]. apply andb_prop in Ea as [[_ Hc']%andb_prop Hn]. apply Z.eqb_eq in Hc'.
  split_and!; try done. destruct (NeighborTable.by_short _ _) as [n|]; [|done]. exists n. split; [done|].
  cbn in Hn. unfold Parent.unauthenticated in Hn. by destruct (NeighborEntry.relationship n).
Qed.
End reception.

(** C2. What reaches the higher layer is authentic.  On an operating device with
    security enabled, a data frame that [on_mac_data] hands up, and that did not
    come over a Trusted Link, was addressed to this device or broadcast and either
    the payload handed up is the one that, protected behind the received header
    with the received auxiliary header, at the security level of the NIB and under
    the network key that header names, gives the received octets (up to the control
    bits the receiver ignores), the sender reported is the one in that header and
    its counter was fresh for it; or the frame is an unsecured APS command of a
    child that has no network key yet, handed up as it came. *)
Theorem delivered_data_authentic {C R : Type} {D : NwkDims.t} `{!BlockCipher C} {Hrng : Rng R} {Hfair : FairRng R}
    {Hv : Heapless} {CT : ConstantTimeEq} (s s' : Nwk.t C R D) (fuel : nat) (buf : list Z)
    (mac_src lqi rssi src dst : Z) (src_ieee sb : option Z) (secured : bool) (l : Z) (payload : list Z) :
  NwkSecurity.wf (Nwk.security s) → bytes_ok buf → NwkConfig.security_enabled (Nwk.config s) = true →
  Nwk.rx_link s = None → Tx.is_operational s = true →
  Receive.on_mac_data fuel buf mac_src lqi rssi s =
    Some (RxOutcome.Data src dst src_ieee sb secured l payload, s') →
  ∃ h hl, NwkHeader.decode_prefix buf = Ok (h, hl) ∧ src = NwkHeader.src h ∧ dst = NwkHeader.dst h ∧
    (dst = Nib.network_address (Nwk.nib s) ∨ ShortAddress.is_broadcast dst = true) ∧
    if secured then ∃ sender, sb = Some sender ∧ authentic (Nwk.security s) (Nib.security_level (Nwk.nib s)) buf hl sender payload
    else sb = None ∧ payload = default [] (get_range buf hl (length buf)) ∧
      Z.land (default 0 (buf !! hl)) 0x03 = 0x01 ∧
      ∃ n, NeighborTable.by_short (Nwk.neighbors s) src = Some n ∧
        NeighborEntry.relationship n = Relationship.UnauthenticatedChild.
Proof.
  intros Hwf Hb He Hl Ho (h & hl & buf' & ps & pe & s1 & Ed & Ec & -> & -> & -> & -> & Hd & Hc)%data_checked.
  exists h, hl. split_and!; try done.
  destruct (FrameControl.security (NwkHeader.frame_control h)) eqn:Hs.
  - apply check_secured in Ec as (sender & -> & Hau); try done. cbn [is_some]. eauto.
  - apply check_unsecured in Ec as (-> & -> & -> & -> & Hx & Hn); try done.
Qed.

(** C4. A forged frame changes nothing.  On an operating device with security
    enabled, a well-formed frame, not of the inter-PAN kind and not over a Trusted
    Link, that claims NWK security and fails the check, whatever the reason, ends without an outcome; the state
    afterwards is the state before, but for one statistics counter and the cache of
    expanded keys: no action, no event, no table entry, no replay counter. *)
Theorem forged_frame_inert {C R : Type} {D : NwkDims.t} `{!BlockCipher C} {Hrng : Rng R} {Hfair : FairRng R}
    {Hv : Heapless} {CT : ConstantTimeEq} (s : Nwk.t C R D) (fuel : nat) (buf : list Z) (mac_src lqi rssi : Z)
    (h : NwkHeader.t) (hl : nat) (e : SecurityError) :
  NwkSecurity.wf (Nwk.security s) → bytes_ok buf → NwkConfig.security_enabled (Nwk.config s) = true →
  Nwk.rx_link s = None → Tx.is_operational s = true →
  NwkHeader.decode_prefix buf = Ok (h, hl) → FrameControl.security (NwkHeader.frame_control h) = true →
  FrameControl.frame_type (NwkHeader.frame_control h) ≠ FrameType.InterPan →
  (NwkSecurity.unsecure_incoming (Nwk.security s) buf hl (Nib.security_level (Nwk.nib s)) (Nib.all_fresh (Nwk.nib s))).1.1 = Err e →
  ∃ stats sec, Receive.on_mac_data fuel buf mac_src lqi rssi s =
      Some (RxOutcome.None, Nwk.set_stats stats (Nwk.set_security sec s)) ∧
    NwkSecurity.keys sec = NwkSecurity.keys (Nwk.security s) ∧
    NwkSecurity.incoming sec = NwkSecurity.incoming (Nwk.security s).
Proof.
  intros Hwf Hb He Hl Ho Ed Hs Hf Hu. unfold Receive.on_mac_data. rewrite Ed.
  assert (∃ f sec buf', Receive.check_security h hl buf s = (None, buf', Tx.bump f (Nwk.set_security sec s)) ∧
    NwkSecurity.keys sec = NwkSecurity.keys (Nwk.security s) ∧
    NwkSecurity.incoming sec = NwkSecurity.incoming (Nwk.security s)) as (f & sec & buf' & Ec & Hk & Hi).
  { pose proof (check_secured h hl buf s) as Hck. destruct (Receive.check_security h hl buf s) as [[o b1] s1] eqn:Ec.
    destruct o as [[[sb ps] pe]|].
    - exfalso. unfold Receive.check_security in Ec. rewrite Hl, Hs, He in Ec. cbn [negb] in Ec.
      destruct (NwkSecurity.unsecure_incoming _ _ _ _ _) as [[[u|[]] out] sec]; done.
    - destruct (Hck None b1 s1 Hwf Hb He Hl Hs eq_refl) as (f & sec & -> & ?). eauto 6. }
  assert (Nib.joined (Nwk.nib s) = true) as -> by (by apply andb_prop in Ho as [? _]).
  assert (∀ g, ∃ stats sec, Some (RxOutcome.None, Tx.bump g s) = Some (RxOutcome.None, Nwk.set_stats stats (Nwk.set_security sec s)) ∧
    NwkSecurity.keys sec = NwkSecurity.keys (Nwk.security s) ∧
    NwkSecurity.incoming sec = NwkSecurity.incoming (Nwk.security s)) as Hm.
  { intros g. exists (NwkStats.bump g (Nwk.stats s)), (Nwk.security s). split_and!; [by destruct s|done|done]. }
  destruct (FrameControl.frame_type (NwkHeader.frame_control h)) eqn:Eft; try done.
  all: destruct (_ || _); [by apply Hm|]; cbn [negb andb]; rewrite Ec.
  all: by exists (NwkStats.bump f (Nwk.stats s)), sec.
Qed.

(** ** From one device to the next *)

Lemma splice_front {A} (old src suf : list A) : length old = length src → splice 0 src (old ++ suf) = src ++ suf.
Proof. apply (splice_app_exact []). Qed.

Lemma lor_bit1 b : Z.testbit b 1 = true → Z.lor b 0x02 = b.
Proof.
  intros Hb. apply Z.bits_inj'. intros i Hi. rewrite Z.lor_spec.
  destruct (decide (i = 1)) as [->|Hn]; [by rewrite Hb|].
  change 0x02 with (2 ^ 1). rewrite Z.pow2_bits_false by lia. by rewrite orb_false_r.
Qed.

Section frames.
Context {Hv : Heapless}.

(** The frame of a header and a payload that fit. *)
Lemma build_npdu_spec h P :
  nwk_header_wf h → (length (nwk_header_wire h) + length P ≤ MAX_NPDU)%nat →
  Tx.build_npdu h P = Ok (nwk_header_wire h ++ P, length (nwk_header_wire h)).
Proof.
  intros Hwf Hl. unfold Tx.build_npdu. rewrite (nwk_header_len h Hwf).
  set (w := nwk_header_wire h) in *. rewrite (proj2 (Nat.ltb_ge _ _)) by lia.
  rewrite vec_resize_spec, (proj2 (Nat.leb_le _ _)) by lia. rewrite resize_nil.
  destruct (nwk_header_writes h Hwf (Writer.new (replicate (length w + length P) 0))) as [Hw _].
  { unfold Writer.wf. simpl. lia. }
  rewrite Hw by (unfold Writer.remaining; simpl; rewrite length_replicate; fold w; lia). fold w. clear Hw. clearbody w.
  unfold advance. cbn [Writer.pos Writer.buf Writer.new]. rewrite Nat.add_0_l, replicate_add.
  rewrite splice_front by (by rewrite length_replicate).
  destruct (writes_bytes P (Writer.mk (w ++ replicate (length P) 0) (length w))) as [Hp _].
  { unfold Writer.wf. cbn [Writer.pos Writer.buf]. rewrite length_app, length_replicate. lia. }
  rewrite Hp by (unfold Writer.remaining; simpl; rewrite length_app, length_replicate; lia).
  unfold advance. cbn [Writer.pos Writer.buf].
  pose proof (splice_app_exact w (replicate (length P) 0) P []) as Hs. rewrite !app_nil_r in Hs.
  by rewrite Hs by (by rewrite length_replicate).
Qed.

(** The room around a header that has the security flag, and a payload. *)
Lemma secured_room_spec w b tl P al ml :
  w = b :: tl → from_option (λ c, Z.testbit c 1) false (tl !! 0%nat) = true →
  (length w + al + length P + ml ≤ MAX_NPDU)%nat →
  Tx.secured_room (w ++ P) (length w) al ml = Ok (w ++ replicate al 0 ++ P ++ replicate ml 0).
Proof.
  intros Hw Hb Hl. unfold Tx.secured_room. rewrite length_app. replace (length w + length P - length w)%nat with (length P) by lia.
  rewrite (proj2 (Nat.ltb_ge _ _)) by lia. rewrite vec_resize_spec, (proj2 (Nat.leb_le _ _)) by lia.
  rewrite resize_nil, take_app_length, drop_app_length.
  replace (length w + al + length P + ml)%nat with (length w + (al + (length P + ml)))%nat by lia.
  rewrite !replicate_add.
  rewrite splice_front by (by rewrite length_replicate).
  rewrite (app_assoc w). replace (length w + al)%nat with (length (w ++ replicate al 0)) by (rewrite length_app, length_replicate; done).
  rewrite splice_app_exact by (by rewrite length_replicate). rewrite <- app_assoc. f_equal.
  unfold Tx.patch_octet. subst w. destruct tl as [|c tl]; [done|]. cbn in Hb. cbn. by rewrite lor_bit1.
Qed.
End frames.

(** A device that reaches [dst] in one hop over the radio. *)
Record sends_directly {C R : Type} {D : NwkDims.t} (s : Nwk.t C R D) (dst : Z) : Prop := {
  sd_member : Tx.is_operational s = true;
  sd_router : Nib.is_end_device (Nwk.nib s) = false;
  sd_config : NwkConfig.security_enabled (Nwk.config s) = true ∧ NwkConfig.concentrator (Nwk.config s) = false;
  sd_dst : uint 16 dst ∧ ShortAddress.is_unicast dst = true;
  sd_own : uint 16 (Nib.network_address (Nwk.nib s)) ∧ uint 8 (Nib.sequence_number (Nwk.nib s));
  sd_link : Nwk.rx_link s = None;
  sd_hop : ∃ n, NeighborTable.by_short (Nwk.neighbors s) dst = Some n ∧
    (Relationship.is_child (NeighborEntry.relationship n) = true ∨ Tx.usable_router n = true) ∧
    Tx.sleepy_child n = false ∧ NeighborEntry.link n = None;
  sd_record : Tx.record_required s dst = false;
  sd_room : (length (Nwk.pending s) < NwkDims.PendingTx D)%nat ∧ (0 < NwkDims.Actions D)%nat ∧
    (length (Nwk.actions s) ≤ NwkDims.Actions D)%nat
}.

Section sender.
Context {C R : Type} {D : NwkDims.t} `{!BlockCipher C} {Hrng : Rng R} {Hfair : FairRng R} {Hv : Heapless}.
Implicit Types s : Nwk.t C R D.

Definition data_control (discover : bool) : Z :=
  FrameControl.with_discover_route (FrameControl.with_security (FrameControl.new FrameType.Data) true)
    (if discover then DiscoverRoute.Enable else DiscoverRoute.Suppress).

(** The header of a secured data frame of such a device. *)
Definition direct_header s (dst : Z) (radius : option Z) (discover : bool) : NwkHeader.t :=
  NwkHeader.mk (data_control discover) dst (Nib.network_address (Nwk.nib s))
    (Z.max (default constants.DEFAULT_RADIUS radius) 1) (Nib.sequence_number (Nwk.nib s)) None None None.

Lemma direct_header_wf s dst radius discover :
  sends_directly s dst → from_option (uint 8) True radius → nwk_header_wf (direct_header s dst radius discover).
Proof.
  intros [_ _ _ [Hd _] [Ha Hq] _ _ _ _] Hr. unfold nwk_header_wf, direct_header.
  cbn [NwkHeader.frame_control NwkHeader.dst NwkHeader.src NwkHeader.radius NwkHeader.sequence NwkHeader.dst_ieee
       NwkHeader.src_ieee NwkHeader.source_route from_option].
  split; [by destruct discover|]. split; [destruct discover; split; vm_compute; congruence|].
  assert (uint 8 (Z.max (default constants.DEFAULT_RADIUS radius) 1)) as Hm.
  { destruct radius as [r|]; [|done]. cbn in Hr |- *. unfold uint in *. lia. }
  by repeat (split; [done|]).
Qed.

Lemma push_dropping_spec {A} (k : nat) (q : list A) (a : A) :
  (0 < k)%nat → (length q ≤ k)%nat →
  last (Tx.push_dropping k q a) = Some a ∧ (length (Tx.push_dropping k q a) ≤ k)%nat.
Proof.
  intros Hk Hq. unfold Tx.push_dropping. rewrite !deque_push_back_spec.
  destruct (Nat.ltb_spec (length q) k) as [Hl|Hl]; [rewrite last_snoc, length_app; simpl; split; [done|lia]|].
  rewrite deque_pop_front_spec. destruct q as [|x q]; [simpl in Hl; lia|].
  rewrite deque_push_back_spec. cbn [length] in *. rewrite (proj2 (Nat.ltb_lt _ _)) by lia.
  rewrite last_snoc, length_app. simpl. split; [done|lia].
Qed.

(** A frame that is secured leaves as the frame [secure_outgoing] makes of it. *)
Lemma transmit_direct e w P s frame sec :
  PendingTx.frame e = w ++ P → PendingTx.header_len e = length w → PendingTx.secure e = true →
  PendingTx.indirect e = false → Tx.link_to s (PendingTx.next_hop e) = None →
  (∃ b tl, w = b :: tl ∧ from_option (λ c, Z.testbit c 1) false (tl !! 0%nat) = true) →
  let level := Nib.security_level (Nwk.nib s) in
  (length w + NwkSecurity.aux_header_len + length P + SecurityLevel.mic_len level ≤ MAX_NPDU)%nat →
  NwkSecurity.secure_outgoing (Nwk.security s)
    (w ++ replicate NwkSecurity.aux_header_len 0 ++ P ++ replicate (SecurityLevel.mic_len level) 0 ++ [])
    (length w) (length P) level (Nib.ieee_address (Nwk.nib s)) = (Ok (length frame), frame ++ [], sec) →
  (length (Nwk.pending s) < NwkDims.PendingTx D)%nat → (0 < NwkDims.Actions D)%nat →
  (length (Nwk.actions s) ≤ NwkDims.Actions D)%nat →
  ∃ s' handle, Tx.transmit_pending e s = (Ok tt, s') ∧
    last (Nwk.actions s') = Some (NwkAction.MacData handle (PendingTx.next_hop e) frame true false).
Proof.
  intros Hf Hh Hsec Hind Hlink (b & tl & Hw & Hb) level Hfit Hout Hroom Ha0 Ha.
  unfold Tx.transmit_pending. rewrite Hlink, Hind, Hsec, Hf, Hh. unfold Tx.finalize_frame. cbn [negb]. fold level.
  rewrite (secured_room_spec w b tl P) by done. rewrite length_app.
  replace (length w + length P - length w)%nat with (length P) by lia.
  rewrite app_nil_r in Hout. rewrite Hout. rewrite vec_truncate_spec, app_nil_r, take_ge by done.
  destruct (maybe_reserve_spec (Nwk.set_security sec s)) as (sec2 & acts & Em & _).
  assert (length acts ≤ NwkDims.Actions D)%nat as Hacts.
  { assert (acts = Nwk.actions (Tx.maybe_reserve_counter (Nwk.set_security sec s))) as -> by (by rewrite Em).
    unfold Tx.maybe_reserve_counter. destruct (NwkSecurity.start_counter_reservation _) as [[r|] sec3]; [|done].
    by apply push_dropping_spec. }
  rewrite Em. cbn [Tx.alloc_mac_handle]. set (s1 := Nwk.set_next_mac_handle _ _).
  set (e' := PendingTx.set_retry_at None _). destruct (track_pending_spec e' s1) as (l & st & -> & _).
  change (Nwk.pending s1) with (Nwk.pending s). rewrite (proj2 (Nat.ltb_lt _ _)) by done.
  eexists _, _. split; [reflexivity|]. change (PendingTx.next_hop e') with (PendingTx.next_hop e).
  change (PendingTx.indirect e') with (PendingTx.indirect e). rewrite Hind.
  by apply (push_dropping_spec (NwkDims.Actions D) acts).
Qed.

(** The request of a device that reaches the destination directly. *)
Lemma data_request_direct dst P radius discover s frame sec :
  sends_directly s dst → from_option (uint 8) True radius →
  let w := nwk_header_wire (direct_header s dst radius discover) in
  let level := Nib.security_level (Nwk.nib s) in
  (length w + NwkSecurity.aux_header_len + length P + SecurityLevel.mic_len level ≤ MAX_NPDU)%nat →
  NwkSecurity.secure_outgoing (Nwk.security s)
    (w ++ replicate NwkSecurity.aux_header_len 0 ++ P ++ replicate (SecurityLevel.mic_len level) 0 ++ [])
    (length w) (length P) level (Nib.ieee_address (Nwk.nib s)) = (Ok (length frame), frame ++ [], sec) →
  ∃ id s' handle, Bcast.data_request dst P radius discover true s = (Ok id, s') ∧
    last (Nwk.actions s') = Some (NwkAction.MacData handle dst frame true false).
Proof.
  intros Hd Hr w level Hfit Hout. pose proof (direct_header_wf s dst radius discover Hd Hr) as Hwf.
  destruct Hd as [Hm Hed [Hse Hco] [_ Hu] _ Hlk (n & Hn & Hk & Hsl & Hnl) Hrec (Hp & Ha0 & Ha)].
  apply andb_prop in Hm as [Hj Hau].
  unfold Bcast.data_request, Bcast.data_request_aliased. rewrite Hj, Hse. cbn [negb from_option andb].
  assert ((dst =? ShortAddress.NO_SHORT_ADDRESS)
          || match ShortAddress.kind dst with ShortAddress.Reserved => true | _ => false end = false) as ->.
  { unfold ShortAddress.is_unicast in Hu. destruct (ShortAddress.kind dst) eqn:Ek; try done;
      rewrite orb_false_r; apply Z.eqb_neq; intros ->; done. }
  assert (ShortAddress.is_broadcast dst = false) as Hbc.
  { unfold ShortAddress.is_unicast in Hu. unfold ShortAddress.is_broadcast. by destruct (ShortAddress.kind dst). }
  cbn [Tx.next_sequence Nib.next_sequence]. rewrite Hbc.
  assert (∀ s0 : Nwk.t C R D, Nwk.nib s0 = Nib.set_sequence_number (wrap 8 (Nib.sequence_number (Nwk.nib s) + 1)) (Nwk.nib s) →
    Bcast.data_header s0 dst (Nib.network_address (Nwk.nib s)) (Z.max (default constants.DEFAULT_RADIUS radius) 1)
      (Nib.sequence_number (Nwk.nib s)) discover true false = direct_header s dst radius discover) as Hh.
  { intros s0 Hs0. unfold Bcast.data_header. rewrite Hs0. unfold Nib.is_end_device in *.
    cbn [Nib.device_type Nib.authenticated Nib.set_sequence_number]. rewrite Hed, Hau, Hu. cbn [negb andb]. rewrite andb_true_r.
    by destruct discover. }
  rewrite Hh by reflexivity. cbn [Tx.alloc_tx_id]. unfold Bcast.source_route_to.
  cbn [Nwk.config Nwk.set_next_tx_id Nwk.set_nib]. rewrite Hco. cbn [andb].
  rewrite build_npdu_spec by (done || (fold w; lia)). fold w.
  unfold Tx.enqueue_unicast, Tx.route_unicast. cbn [PendingTx.dst Tx.fresh_entry PendingTx.frame PendingTx.kind].
  set (s1 := Nwk.set_next_tx_id _ _).
  assert (Nib.is_end_device (Nwk.nib s1) = false) as -> by exact Hed.
  change (Nwk.neighbors s1) with (Nwk.neighbors s). rewrite Hn. cbn [from_option].
  set (e := Tx.fresh_entry _ _ _ _ _ _ _ _ _ _ _ _).
  destruct (transmit_direct (PendingTx.set_next_hop dst e) w P s1 frame sec) as (s2 & handle & Ht & Hlast); try done.
  { unfold Tx.link_to. change (Nwk.neighbors s1) with (Nwk.neighbors s). change (Nwk.rx_link s1) with (Nwk.rx_link s).
    cbn [PendingTx.next_hop PendingTx.set_next_hop]. rewrite Hn, Hlk. cbn. by rewrite Hnl. }
  { unfold w, direct_header, nwk_header_wire. cbn [NwkHeader.frame_control].
    eexists _, _. split; [reflexivity|]. by destruct discover. }
  assert (Tx.send_via dst e s1 = (Ok tt, s2)) as Hsend.
  { unfold Tx.send_via, Tx.for_sleepy. change (Nwk.neighbors s1) with (Nwk.neighbors s). rewrite Hn. cbn [from_option]. rewrite Hsl.
    change (Tx.record_required s1 _) with (Tx.record_required s dst). rewrite Hrec, andb_false_r. exact Ht. }
  exists (Nwk.next_tx_id s), s2, handle. split; [|done].
  destruct (Relationship.is_child _) eqn:Ec; [by rewrite Hsend|]. destruct Hk as [|Hk]; [done|]. rewrite Hk. by rewrite Hsend.
Qed.
End sender.

Section receiver.
Context {C R : Type} {D : NwkDims.t} `{!BlockCipher C} {Hrng : Rng R} {Hfair : FairRng R} {Hv : Heapless} {CT : ConstantTimeEq}.
Implicit Types s : Nwk.t C R D.

Lemma get_range_taken (l P : list Z) (a : nat) : take (length P) (drop a l) = P → default [] (get_range l a (a + length P)) = P.
Proof.
  intros Ht. destruct P as [|x P].
  { unfold get_range. case_match; [|done]. cbn [default length]. by replace (a + 0 - a)%nat with 0%nat by lia. }
  assert (length (take (length (x :: P)) (drop a l)) = length (x :: P)) as Hl by (by rewrite Ht).
  rewrite length_take, length_drop in Hl. cbn [length] in *. rewrite get_range_Some by lia. cbn [default].
  by replace (a + S (length P) - a)%nat with (S (length P)) by lia.
Qed.

(** A secured data frame for this device that opens is handed up. *)
Lemma receive_data s fuel h tail mac lqi rssi u out sec :
  let frame := nwk_header_wire h ++ tail in
  nwk_header_wf h → FrameControl.frame_type (NwkHeader.frame_control h) = FrameType.Data →
  FrameControl.protocol_version (NwkHeader.frame_control h) = PROTOCOL_VERSION →
  FrameControl.security (NwkHeader.frame_control h) = true →
  FrameControl.end_device_initiator (NwkHeader.frame_control h) = false →
  NwkHeader.source_route h = None → NwkHeader.dst h = Nib.network_address (Nwk.nib s) →
  ShortAddress.is_broadcast (NwkHeader.dst h) = false →
  Nib.joined (Nwk.nib s) = true → NwkConfig.security_enabled (Nwk.config s) = true → Nwk.rx_link s = None →
  NwkSecurity.unsecure_incoming (Nwk.security s) frame (length (nwk_header_wire h)) (Nib.security_level (Nwk.nib s))
    (Nib.all_fresh (Nwk.nib s)) = (Ok u, out, sec) →
  ∃ s', Receive.on_mac_data fuel frame mac lqi rssi s =
    Some (RxOutcome.Data (NwkHeader.src h) (NwkHeader.dst h) (NwkHeader.src_ieee h) (Some (Unsecured.sender u)) true lqi
      (default [] (get_range out (Unsecured.payload_start u) (Unsecured.payload_end u))), s').
Proof.
  intros frame Hwf Hft Hpv Hs Hei Hsr Hd Hb Hj He Hl Hu. unfold Receive.on_mac_data, frame.
  pose proof (nwk_header_decodes h Hwf [] tail) as Hdec. unfold NwkHeader.decode_prefix, Reader.new.
  rewrite app_nil_l in Hdec. change (length (A:=Z) []) with 0%nat in Hdec. rewrite Hdec. clear Hdec. cbn [Reader.position Reader.pos].
  rewrite Hft, Hpv, Hj. cbn [negb orb andb Z.eqb]. rewrite Z.eqb_refl. cbn [negb orb].
  unfold Receive.check_security. rewrite Hl, Hs, He. cbn [negb]. fold frame. rewrite Nat.add_0_l, Hu.
  set (s2 := Receive.bookkeeping _ _ _ _ _ _ _ _).
  unfold Receive.initiator_ok. rewrite Hei. cbn [negb is_some].
  unfold Receive.deliver. rewrite Hb, Hft, Hsr. cbn [from_option andb negb is_some]. rewrite Hd, Z.eqb_refl. cbn [andb].
  unfold Receive.data_outcome. rewrite Hd. eexists. reflexivity.
Qed.
End receiver.

(** Two devices that share a network key: the sender's next counter value is
    fresh at the receiver, which tracks the sender or has room for it. *)
Record shares_key {C R R' : Type} {D D' : NwkDims.t} `{!BlockCipher C} {Hv : Heapless}
    (tx : Nwk.t C R D) (rx : Nwk.t C R' D') : Prop := {
  sk_wf : NwkSecurity.wf (Nwk.security tx) ∧ NwkSecurity.wf (Nwk.security rx);
  sk_level : Nib.security_level (Nwk.nib rx) = Nib.security_level (Nwk.nib tx) ∧ Nib.all_fresh (Nwk.nib rx) = true;
  sk_ieee : uint 64 (Nib.ieee_address (Nwk.nib tx));
  sk_key : ∃ seq kt kr, NwkSecurity.active_sequence (Nwk.security tx) = Some seq ∧ uint 8 seq ∧
    NetworkKeys.get (NwkSecurity.keys (Nwk.security tx)) seq = Some kt ∧
    NetworkKeys.get (NwkSecurity.keys (Nwk.security rx)) seq = Some kr ∧
    NetworkKeySlot.key kt = NetworkKeySlot.key kr;
  sk_counter : ∃ fc o, OutgoingCounter.allocate (NetworkKeys.outgoing (NwkSecurity.keys (Nwk.security tx))) = (Ok fc, o) ∧
    IncomingCounters.is_fresh (NwkSecurity.incoming (Nwk.security rx)) (Nib.ieee_address (Nwk.nib tx)) fc = true;
  sk_room : is_Some (IncomingCounters.get (NwkSecurity.incoming (Nwk.security rx)) (Nib.ieee_address (Nwk.nib tx)))
    ∨ (IncomingCounters.len (NwkSecurity.incoming (Nwk.security rx)) < NwkDims.Neighbors D')%nat
}.

(** A device on the network that hears frames over the radio. *)
Record listens {C R : Type} {D : NwkDims.t} (s : Nwk.t C R D) (short : Z) : Prop := {
  li_joined : Nib.joined (Nwk.nib s) = true;
  li_short : Nib.network_address (Nwk.nib s) = short;
  li_secure : NwkConfig.security_enabled (Nwk.config s) = true;
  li_link : Nwk.rx_link s = None
}.

(** C3. What one device sends, the next one receives.  A data request of an
    operating router for a neighbour it reaches directly hands the MAC one frame,
    and whatever device has that address, listens, and shares the network key (the
    sender's counter value is fresh there, the payload fits one frame) hands up
    exactly the payload, as secured data of the sender, authenticated with the
    sender's extended address. *)
Theorem unicast_delivered {C R R' : Type} {D D' : NwkDims.t} `{!BlockCipher C} {Hrng : Rng R} {Hfair : FairRng R}
    {Hrng' : Rng R'} {Hfair' : FairRng R'} {Hv : Heapless} {CT : ConstantTimeEq}
    (tx : Nwk.t C R D) (rx : Nwk.t C R' D') (dst : Z) (payload : list Z) (radius : option Z) (discover : bool)
    (fuel : nat) (lqi rssi : Z) :
  sends_directly tx dst → listens rx dst → shares_key tx rx → from_option (uint 8) True radius →
  (8 + NwkSecurity.aux_header_len + length payload + SecurityLevel.mic_len (Nib.security_level (Nwk.nib tx)) ≤ MAX_NPDU)%nat →
  ∃ id tx' handle frame rx',
    Bcast.data_request dst payload radius discover true tx = (Ok id, tx') ∧
    last (Nwk.actions tx') = Some (NwkAction.MacData handle dst frame true false) ∧
    Receive.on_mac_data fuel frame (Nib.network_address (Nwk.nib tx)) lqi rssi rx =
      Some (RxOutcome.Data (Nib.network_address (Nwk.nib tx)) dst None (Some (Nib.ieee_address (Nwk.nib tx))) true lqi
              payload, rx').
Proof.
  intros Hd [Hj Hsh Hse Hlk] [[Hwt Hwr] [Hlv Hfr] Hie (seq & kt & kr & Hact & Hsq & Hkt & Hkr & Hkey)
    (fc & o & Hall & Hfresh) Hroom] Hr Hfit.
  set (h := direct_header tx dst radius discover). pose proof (direct_header_wf tx dst radius discover Hd Hr) as Hwf. fold h in Hwf.
  set (w := nwk_header_wire h). assert (length w = 8%nat) as Hw.
  { unfold w, nwk_header_wire. rewrite !length_app, !length_to_le. reflexivity. }
  set (level := Nib.security_level (Nwk.nib tx)) in *.
  assert (length w + NwkSecurity.aux_header_len + length payload + SecurityLevel.mic_len level ≤ MAX_NPDU)%nat as Hfit' by (by rewrite Hw).
  destruct (secure_unsecure_spec (Nwk.security tx) (Nwk.security rx) seq (Nib.ieee_address (Nwk.nib tx)) fc kt kr o level
    w (replicate NwkSecurity.aux_header_len 0) payload (replicate (SecurityLevel.mic_len level) 0) [])
    as (frame & sec & sec' & out & Hout & Hhdr & Hin & Hpay & _); try done; [by rewrite length_replicate..| |].
  { unfold ccm_fits. change (SecurityControl.level _) with level.
    change (AuxHeader.encoded_len (AuxHeader.network level fc (Nib.ieee_address (Nwk.nib tx)) seq)) with NwkSecurity.aux_header_len.
    unfold MAX_NPDU, NwkSecurity.aux_header_len in *. destruct (SecurityLevel.encrypts level); lia. }
  destruct (data_request_direct dst payload radius discover tx frame sec Hd Hr) as (id & tx' & handle & Hreq & Hlast);
    [exact Hfit'|exact Hout|].
  assert (frame = w ++ drop (length w) frame) as Hframe by (rewrite <- Hhdr at 1; by rewrite take_drop).
  destruct Hd as [_ _ _ [_ Hu] _ _ _ _ _].
  assert (ShortAddress.is_broadcast dst = false) as Hbc.
  { unfold ShortAddress.is_unicast in Hu. unfold ShortAddress.is_broadcast. by destruct (ShortAddress.kind dst). }
  destruct (receive_data rx fuel h (drop (length w) frame) (Nib.network_address (Nwk.nib tx)) lqi rssi
    (Unsecured.mk (Nib.ieee_address (Nwk.nib tx)) seq fc (length w + NwkSecurity.aux_header_len)
       (length w + NwkSecurity.aux_header_len + length payload)) out sec') as (rx' & Hrx); try done.
  1-4: by destruct discover.
  { fold w. rewrite <- Hframe, Hlv, Hfr. exact Hin. }
  exists id, tx', handle, frame, rx'. split_and!; [done|done|].
  fold w in Hrx. rewrite <- Hframe in Hrx. rewrite Hrx. cbn [Unsecured.payload_start Unsecured.payload_end Unsecured.sender].
  by rewrite get_range_taken.
Qed.

(** ** Two devices *)

(** An operating router with the network key [7] and the router [peer] next to it. *)
Definition example_device (short ieee peer peer_ieee : Z) : Nwk.t Z Z (NwkDims.Dims 4 4 2 4) :=
  let nib := Nib.set_router_started true (Nib.set_authenticated true (Nib.set_joined true
    (Nib.set_network_address short (Nib.new LogicalDeviceType.Router ieee)))) in
  let s := Tx.new nib NwkConfig.default 0 in
  let s := Nwk.set_security (foldl SecurityOp.exec NwkSecurity.new
    [SecurityOp.InstallActive 0 [7]; SecurityOp.Start; SecurityOp.Commit 1024]) s in
  let e := NeighborField.set_outgoing_cost 1
    (NeighborEntry.new peer_ieee peer LogicalDeviceType.Router true Relationship.Sibling 200) in
  (Route.ensure_neighbor e s).2.

Lemma example_security_wf short ieee peer peer_ieee : NwkSecurity.wf (Nwk.security (example_device short ieee peer peer_ieee)).
Proof.
  change (Nwk.security _) with (foldl SecurityOp.exec NwkSecurity.new
    [SecurityOp.InstallActive 0 [7]; SecurityOp.Start; SecurityOp.Commit 1024] : NwkSecurity.t Z 4).
  apply run_wf. repeat constructor; vm_compute; congruence.
Qed.

Lemma unicast_delivered_witness :
  ∃ id tx' handle frame rx',
    Bcast.data_request 0x2222 [1; 2; 3] None false true (example_device 0x1111 0xAA 0x2222 0xBB) = (Ok id, tx') ∧
    last (Nwk.actions tx') = Some (NwkAction.MacData handle 0x2222 frame true false) ∧
    Receive.on_mac_data 1 frame 0x1111 200 (-40) (example_device 0x2222 0xBB 0x1111 0xAA) =
      Some (RxOutcome.Data 0x1111 0x2222 None (Some 0xAA) true 200 [1; 2; 3], rx').
Proof.
  apply (unicast_delivered (example_device 0x1111 0xAA 0x2222 0xBB) (example_device 0x2222 0xBB 0x1111 0xAA)).
  - split; try (vm_compute; (reflexivity || (split; reflexivity) || (repeat split; congruence))).
    + eexists. split; [reflexivity|]. vm_compute. auto.
    + vm_compute. lia.
  - by split.
  - split; [split; apply example_security_wf|done|vm_compute; split; congruence| | |].
    + exists 0, (NetworkKeySlot.mk 0 [7]), (NetworkKeySlot.mk 0 [7]). vm_compute. split_and!; try done.
    + eexists _, _. split; vm_compute; reflexivity.
    + right. vm_compute. lia.
  - done.
  - vm_compute. lia.
Defined.

(** A frame of 0x1111 as the second device receives it. *)
Definition example_frame : list Z := Eval vm_compute in
  match last (Nwk.actions (Bcast.data_request 0x2222 [1; 2; 3] None false true (example_device 0x1111 0xAA 0x2222 0xBB)).2) with
  | Some (NwkAction.MacData _ _ frame _ _) => frame
  | _ => []
  end.

Lemma delivered_data_authentic_witness :
  ∃ s', Receive.on_mac_data 1 example_frame 0x1111 200 (-40) (example_device 0x2222 0xBB 0x1111 0xAA) =
    Some (RxOutcome.Data 0x1111 0x2222 None (Some 0xAA) true 200 [1; 2; 3], s') ∧
    ∃ h hl, NwkHeader.decode_prefix example_frame = Ok (h, hl) ∧ 0x1111 = NwkHeader.src h ∧ 0x2222 = NwkHeader.dst h ∧
      (0x2222 = 0x2222 ∨ ShortAddress.is_broadcast 0x2222 = true) ∧
      ∃ sender, Some 0xAA = Some sender ∧
        authentic (Nwk.security (example_device 0x2222 0xBB 0x1111 0xAA)) SecurityLevel.EncMic32 example_frame hl sender [1; 2; 3].
Proof.
  destruct (Receive.on_mac_data 1 example_frame 0x1111 200 (-40) (example_device 0x2222 0xBB 0x1111 0xAA))
    as [[o s']|] eqn:E; [|exfalso; revert E; vm_compute; congruence].
  assert (o = RxOutcome.Data 0x1111 0x2222 None (Some 0xAA) true 200 [1; 2; 3]) as ->.
  { assert (fst <$> Receive.on_mac_data 1 example_frame 0x1111 200 (-40) (example_device 0x2222 0xBB 0x1111 0xAA) = Some o) as Ho
      by (by rewrite E). revert Ho. vm_compute. congruence. }
  exists s'. split; [reflexivity|].
  apply (delivered_data_authentic (example_device 0x2222 0xBB 0x1111 0xAA) s' 1 example_frame 0x1111 200 (-40)
    0x1111 0x2222 None (Some 0xAA) true 200 [1; 2; 3]);
    [apply example_security_wf|vm_compute; repeat constructor; congruence|reflexivity..|exact E].
Defined.

Lemma forged_frame_inert_witness :
  let s := example_device 0x2222 0xBB 0x1111 0xAA in
  let forged := <[23%nat := 99]> example_frame in
  ∃ stats sec, Receive.on_mac_data 1 forged 0x1111 200 (-40) s =
      Some (RxOutcome.None, Nwk.set_stats stats (Nwk.set_security sec s)) ∧
    NwkSecurity.keys sec = NwkSecurity.keys (Nwk.security s) ∧
    NwkSecurity.incoming sec = NwkSecurity.incoming (Nwk.security s).
Proof.
  cbv zeta.
  eapply (forged_frame_inert (example_device 0x2222 0xBB 0x1111 0xAA) 1 (<[23%nat := 99]> example_frame) 0x1111 200 (-40));
    [apply example_security_wf|vm_compute; repeat constructor; congruence|reflexivity..| | |].
  - vm_compute. reflexivity.
  - vm_compute. congruence.
  - vm_compute. reflexivity.
Defined.
