(* ===== verification/NwkMembership.v ===== *)
(** * The network layer: who is on the network

    A join tries no more parents than it may and ends; a formation takes the best
    of the channels it scanned; a device that leaves forgets what it knew and hears
    nothing more of the network; an unsecured request makes nobody an authenticated child. *)

From S2P Require Import Prelude Types Status Codec Tlv Heapless FrameCounter AuxHeader Ccm SecFrame Keys NwkSecurity NwkFrame Routing NwkTables NwkCommand NwkNeighbor NwkBeacon NwkDiscovery NwkInterface MacFrame NwkState NwkTx NwkPending NwkBcast NwkRoute NwkPower NwkScan NwkLeave NwkJoin NwkParent NwkReceive NwkDelivery.

(** ** Joining ends *)

Section join.
Context {C R : Type} {D : NwkDims.t} `{!BlockCipher C} {Hrng : Rng R} {Hfair : FairRng R} {Hv : Heapless}.
Abbreviation st := (Nwk.t C R D).
Implicit Types s : st.
Import Nwk.

(** What the search for a parent reads of the layer. *)
Definition join_view s := (join s, discovery s, Nib.max_rejoin_parent_attempts (nib s), Nib.max_initial_join_parent_attempts (nib s)).

Definition view_of (n : Nib.t) : Z * Z := (Nib.max_rejoin_parent_attempts n, Nib.max_initial_join_parent_attempts n).

Lemma core_view s s' : core s' = core s → join s' = join s → discovery s' = discovery s → join_view s' = join_view s.
Proof.
  intros Hc Hj Hd. apply (f_equal (λ x, view_of (snd x))) in Hc. cbn in Hc. unfold view_of in Hc. cbn in Hc.
  unfold join_view. rewrite Hj, Hd. by injection Hc as -> ->.
Qed.

Lemma track_view e s : join (Tx.track_pending e s).2 = join s ∧ discovery (Tx.track_pending e s).2 = discovery s.
Proof. destruct (track_pending_spec e s) as (l & w & -> & _). done. Qed.

Lemma transmit_view e s : join_view (Tx.transmit_pending e s).2 = join_view s.
Proof.
  assert (join (Tx.transmit_pending e s).2 = join s ∧ discovery (Tx.transmit_pending e s).2 = discovery s) as [Hj Hd].
  { unfold Tx.transmit_pending. cbn [Tx.alloc_mac_handle].
    assert (∀ e' s1 (f : Nwk.t C R D → Nwk.t C R D), join s1 = join s ∧ discovery s1 = discovery s →
      (∀ s2, join (f s2) = join s2 ∧ discovery (f s2) = discovery s2) →
      join (match Tx.track_pending e' s1 with (Ok _, s2) => (Ok tt, f s2) | (Err x, s2) => (Err x, s2) end).2 = join s ∧
      discovery (match Tx.track_pending e' s1 with (Ok _, s2) => (Ok tt, f s2) | (Err x, s2) => (Err x, s2) end).2 = discovery s) as Ht.
    { intros e' s1 f [H1 H2] Hf. destruct (track_view e' s1) as [H3 H4]. destruct (Tx.track_pending e' s1) as [[]];
        cbn [snd] in *; rewrite ?(proj1 (Hf _)), ?(proj2 (Hf _)); split; congruence. }
    destruct (Tx.link_to s _) as [link|]; [destruct (Tx.link_copy _); [by apply Ht|done]|].
    destruct (PendingTx.indirect e); [by apply Ht|].
    destruct (Tx.finalize_frame _ _ _ _) as [r1 s1] eqn:Ef. apply finalize_spec in Ef as ((sec & acts & ->) & _).
    destruct r1 as [on_air|[]]; try done; [by apply Ht|].
    match goal with |- context [Tx.track_pending ?e' ?s'] => by destruct (track_view e' s') as [-> ->] end. }
  destruct (Tx.transmit_pending e s) as [r s'] eqn:E. pose proof E as (l & Htr & _)%transmit_spec.
  cbn [snd] in *. by apply core_view; [apply Htr|..].
Qed.

Lemma command_view h cmd dst b1 b2 k s : join_view (Tx.send_command_unicast h cmd dst b1 b2 k s).2 = join_view s.
Proof.
  unfold Tx.send_command_unicast. destruct (Tx.build_command _ _) as [[f hl]|]; [|done]. cbn [Tx.alloc_tx_id].
  by rewrite transmit_view.
Qed.

(** The join underway: its parameters and the attempts it has made. *)
Definition joining_at s (p : JoinParams.t) (a : Z) : Prop :=
  ∃ j, join s = Some j ∧ JoinState.params j = p ∧ JoinState.attempts j = a.

Definition limit s (p : JoinParams.t) : Z :=
  if JoinParams.rejoin p then Nib.max_rejoin_parent_attempts (nib s) else Nib.max_initial_join_parent_attempts (nib s).

Lemma limit_view s s' p : view_of (nib s') = view_of (nib s) → limit s' p = limit s p.
Proof. unfold view_of, limit. intros Hv'. injection Hv' as -> ->. done. Qed.

Lemma command_joining h cmd dst b1 b2 k s p a :
  joining_at s p a → joining_at (Tx.send_command_unicast h cmd dst b1 b2 k s).2 p a ∧
  view_of (nib (Tx.send_command_unicast h cmd dst b1 b2 k s).2) = view_of (nib s) ∧
  join (Tx.send_command_unicast h cmd dst b1 b2 k s).2 = join s.
Proof.
  intros Hj. pose proof (command_view h cmd dst b1 b2 k s) as Hw. unfold join_view in Hw.
  apply pair_equal_spec in Hw as [[[H1 H2]%pair_equal_spec H3]%pair_equal_spec H4].
  unfold joining_at, view_of. by rewrite H1, H3, H4.
Qed.

(** A request: either it is out, or the search goes on from a state with the same
    join and limits. *)
Lemma attach_request_joins retry p0 secure command s p a :
  joining_at s p a →
  ∃ s', joining_at s' p a ∧ view_of (nib s') = view_of (nib s) ∧
    (Joining.send_attach_request retry p0 secure command s = Some s' ∨
     Joining.send_attach_request retry p0 secure command s = retry s').
Proof.
  intros (j & Hj & Hp & Ha). unfold Joining.send_attach_request.
  destruct (Joining.ensure_self_address s) as [my s1] eqn:E1.
  assert (join s1 = Some j ∧ view_of (nib s1) = view_of (nib s)) as [Hj1 Hv1].
  { revert E1. unfold Joining.ensure_self_address. destruct (_ && _); [by intros [= _ <-]|].
    unfold Scan.on_rng. destruct (allocate_stochastic _ _) as [a0 r]. by intros [= _ <-]. }
  cbn [Tx.next_sequence Nib.next_sequence].
  match goal with |- context [Tx.send_command_unicast ?h ?c ?d ?b1 ?b2 ?k ?s2] =>
    assert (joining_at s2 p a) as Hj2;
    [|pose proof (command_joining h c d b1 b2 k s2 p a Hj2) as (Hj3 & Hv3 & Hj4);
      assert (view_of (nib s2) = view_of (nib s1)) as Hv2 by done;
      assert (join s2 = Some (JoinState.set_phase JoinPhase.RequestSent j)) as Hj5
        by (cbn; unfold Joining.on_join; cbn; by rewrite Hj1);
      destruct (Tx.send_command_unicast h c d b1 b2 k s2) as [[u|e] s3]]
  end.
  { unfold joining_at, Joining.on_join. cbn. rewrite Hj1. eexists. split; [reflexivity|done]. }
  - exists s3. split; [exact Hj3|]. split; [cbn [snd] in Hv3; by rewrite Hv3, Hv2|]. by left.
  - exists s3. split; [exact Hj3|]. split; [cbn [snd] in Hv3; by rewrite Hv3, Hv2|]. right. unfold Joining.on_join_request_sent_with.
    cbn [snd] in Hj4. rewrite Hj4, Hj5. done.
Qed.

(** One attempt: the same, with one attempt more. *)
Lemma attempt_joins retry j s :
  ∃ s', joining_at s' (JoinState.params j) (JoinState.attempts j + 1) ∧ view_of (nib s') = view_of (nib s) ∧
    (Joining.attempt retry j s = Some s' ∨ Joining.attempt retry j s = retry s').
Proof.
  unfold Joining.attempt. set (j1 := JoinState.set_attempts _ _).
  assert (∀ s1 : Nwk.t C R D, (∃ j2, join s1 = Some j2 ∧ JoinState.params j2 = JoinState.params j1 ∧
    JoinState.attempts j2 = JoinState.attempts j1) → joining_at s1 (JoinState.params j) (JoinState.attempts j + 1)) as Hat by done.
  destruct (DiscoveryTable.get _ _) as [c|].
  2: { exists (set_join (Some j1) s). split; [apply Hat; by exists j1|]. split; [done|by left]. }
  cbv zeta.
  match goal with |- context [Joining.send_commissioning_request retry ?sn ?r ?sec ?cap ?s1] =>
    set (sr := s1); set (snap := sn) end.
  assert (joining_at sr (JoinState.params j) (JoinState.attempts j + 1)) as Hsr.
  { apply Hat. unfold sr, Joining.on_join. cbn. eexists. split; [reflexivity|done]. }
  assert (view_of (nib sr) = view_of (nib s)) as Hvr by done.
  destruct (ParentSnapshot.r23 snap).
  { destruct (attach_request_joins retry snap (JoinParams.rejoin (JoinState.params j1) && JoinState.secure j1)
      (λ s my, NwkCommand.CommissioningRequest (CommissioningRequest.mk
        (if JoinParams.rejoin (JoinState.params j1) then CommissioningType.Rejoin else CommissioningType.InitialJoin)
        (JoinParams.capability (JoinState.params j1))
        (Joining.joiner_tlvs my (Nib.ieee_address (nib s)) (JoinParams.rejoin (JoinState.params j1)) (virtual_device s))))
      sr _ _ Hsr) as (s' & H1 & H2 & H3). exists s'. split; [done|]. split; [by rewrite H2|exact H3]. }
  clear Hsr Hvr sr.
  match goal with |- context [Joining.send_rejoin_request retry snap ?sec ?cap ?s1] => set (sr := s1) end.
  assert (joining_at sr (JoinState.params j) (JoinState.attempts j + 1)) as Hsr.
  { apply Hat. unfold sr, Joining.on_join. cbn. eexists. split; [reflexivity|done]. }
  destruct (JoinParams.rejoin (JoinState.params j1)).
  { destruct (attach_request_joins retry snap (JoinState.secure j1)
      (λ _ _, NwkCommand.RejoinRequest (RejoinRequest.mk (JoinParams.capability (JoinState.params j1)))) sr _ _ Hsr)
      as (s' & H1 & H2 & H3). exists s'. split; [done|]. split; [by rewrite H2|exact H3]. }
  eexists. split; [|split; [|left; reflexivity]]; [|done].
  apply Hat. cbn. unfold Joining.on_join. cbn. eexists. split; [reflexivity|done].
Qed.

(** Refilling the candidates keeps the join. *)
Lemma refill_joins s p a : joining_at s p a → joining_at (Joining.refill s) p a ∧ view_of (nib (Joining.refill s)) = view_of (nib s).
Proof.
  assert (∀ b s, joining_at s p a → joining_at (Joining.rank_candidates b s) p a ∧
    view_of (nib (Joining.rank_candidates b s)) = view_of (nib s)) as Hr.
  { intros b s0 (j & Hj & Hp & Ha). unfold Joining.rank_candidates. rewrite Hj. split; [|done].
    unfold joining_at. cbn. eexists. split; [reflexivity|done]. }
  intros Hs. pose proof Hs as (j & Hj & Hp & Ha). unfold Joining.refill. rewrite Hj.
  destruct (_ && _); [|done].
  set (s1 := if _ : bool then Joining.rank_candidates true s else s).
  assert (joining_at s1 p a ∧ view_of (nib s1) = view_of (nib s)) as [Hs1 Hv1]
    by (unfold s1; destruct (_ && _); [by apply Hr|done]).
  destruct (from_option _ _ _); [|done].
  destruct (Hr false (Joining.on_join (JoinState.set_pass 1) s1)) as [H1 H2].
  { destruct Hs1 as (j1 & Hj1 & Hp1 & Ha1). unfold joining_at, Joining.on_join. cbn. rewrite Hj1. eexists. split; [reflexivity|done]. }
  split; [done|]. rewrite H2. exact Hv1.
Qed.

(** The search ends; if the join goes on, an attempt has been made. *)
Lemma search_ends fuel s p a :
  joining_at s p a → (0 < fuel)%nat → limit s p - a < Z.of_nat fuel →
  ∃ s', Joining.try_next fuel s = Some s' ∧
    (join s' = None ∨ ∃ a', joining_at s' p a' ∧ a < a' ≤ limit s p).
Proof.
  revert s a. induction fuel as [|fuel IH]; intros s a Hs Hf0 Hf; [lia|].
  cbn [Joining.try_next]. pose proof Hs as (j & Hj & Hp & Ha). rewrite Hj.
  assert (Joining.max_attempts s j = limit s p) as -> by (unfold Joining.max_attempts, limit; by rewrite Hp).
  destruct (Z.leb_spec (limit s p) (JoinState.attempts j)) as [Hle|Hlt].
  { eexists. split; [reflexivity|]. left. unfold Joining.finish_join. by destruct (negb _). }
  set (s1 := if Joining.exhausted j then Joining.refill s else s).
  assert (joining_at s1 p a ∧ view_of (nib s1) = view_of (nib s)) as [(j1 & Hj1 & Hp1 & Ha1) Hv1]
    by (unfold s1; destruct (Joining.exhausted j); [by apply refill_joins|done]).
  rewrite Hj1. destruct (Joining.exhausted j1).
  { eexists. split; [reflexivity|]. left. unfold Joining.no_parent, Joining.finish_join. by destruct (negb _). }
  destruct (attempt_joins (Joining.try_next fuel) j1 s1) as (s2 & Hs2 & Hv2 & He). rewrite Hp1, Ha1 in Hs2.
  assert (limit s2 p = limit s p) as Hl by (apply limit_view; by rewrite Hv2).
  rewrite Ha in Hlt. destruct He as [->| ->].
  - exists s2. split; [done|]. right. exists (a + 1). split; [done|lia].
  - destruct (IH s2 (a + 1) Hs2) as (s3 & -> & Hs3); [lia|lia|]. exists s3. split; [done|].
    destruct Hs3 as [Hn|(a' & Ha' & Hb)]; [by left|right]. exists a'. split; [done|lia].
Qed.
End join.

(** C11. A join ends.  Whatever the discovery table holds and whichever requests
    cannot be sent, the search for the next parent returns; afterwards the join is
    over, or it has made at least one attempt more and no more than the limit
    allows.  A join therefore tries at most that many parents. *)
Theorem join_search_ends {C R : Type} {D : NwkDims.t} `{!BlockCipher C} {Hrng : Rng R} {Hfair : FairRng R} {Hv : Heapless}
    (s : Nwk.t C R D) (j : JoinState.t) :
  Nwk.join s = Some j → uint 8 (JoinState.attempts j) → Joining.max_attempts s j ≤ u8_max →
  Joining.try_next 257 s = Some (Joining.try_next_parent s) ∧
  match Nwk.join (Joining.try_next_parent s) with
  | None => True
  | Some j' =>
      JoinState.params j' = JoinState.params j ∧ JoinState.attempts j < JoinState.attempts j' ≤ Joining.max_attempts s j
  end.
Proof.
  intros Hj [Ha _] Hm. unfold u8_max in Hm.
  destruct (search_ends 257 s (JoinState.params j) (JoinState.attempts j)) as (s' & Hs & Hd).
  - by exists j.
  - lia.
  - unfold limit. unfold Joining.max_attempts in Hm. lia.
  - unfold Joining.try_next_parent. rewrite Hs. change (default s (Some s')) with s'. split; [done|].
    destruct Hd as [->|(a' & (j' & -> & Hp & <-) & Hb)]; [done|]. split; [done|]. exact Hb.
Qed.

(** A device that has not joined, with one candidate to join. *)
Definition example_joiner : Nwk.t Z Z (NwkDims.Dims 4 4 2 4) :=
  let s : Nwk.t Z Z (NwkDims.Dims 4 4 2 4) := Tx.new (Nib.new LogicalDeviceType.EndDevice 0xCC) NwkConfig.default 0 in
  let s := Nwk.set_discovery (DiscoveryTable.mk [example_candidate 0x1111 200 0]) s in
  Nwk.set_join (Some (Joining.fresh_join (JoinParams.mk None false false false 0x80 false) false None false)) s.

Lemma join_search_ends_witness :
  Joining.try_next 257 example_joiner = Some (Joining.try_next_parent example_joiner) ∧
  match Nwk.join (Joining.try_next_parent example_joiner) with
  | None => True
  | Some j' => JoinState.params j' = JoinParams.mk None false false false 0x80 false ∧ 0 < JoinState.attempts j' ≤ 3
  end.
Proof.
  apply (join_search_ends example_joiner
    (Joining.fresh_join (JoinParams.mk None false false false 0x80 false) false None false));
    [reflexivity|vm_compute; split; congruence|vm_compute; congruence].
Defined.

(** ** Formation *)

(** What happens to the NIB: the operations that leave it alone. *)
Section nib.
Context {C R : Type} {D : NwkDims.t} `{!BlockCipher C} {Hrng : Rng R} {Hfair : FairRng R} {Hv : Heapless}.
Implicit Types s : Nwk.t C R D.

Lemma nib_push_action a s : Nwk.nib (Tx.push_action a s) = Nwk.nib s.
Proof. done. Qed.
Lemma nib_push_event e s : Nwk.nib (Tx.push_event e s) = Nwk.nib s.
Proof. done. Qed.
Lemma nib_note_channel s : Nwk.nib (Scan.note_channel_in_use s) = Nwk.nib s.
Proof. unfold Scan.note_channel_in_use. by case_match. Qed.
Lemma nib_beacon s : Nwk.nib (Scan.update_beacon_payload s) = Nwk.nib s.
Proof. unfold Scan.update_beacon_payload. destruct (negb _); [done|]. by destruct (encode_to_slice _ _) as [[] ?]. Qed.
Lemma nib_jitter lo hi s : Nwk.nib (Tx.jitter lo hi s).2 = Nwk.nib s.
Proof. unfold Tx.jitter. destruct (_ =? 0); [done|]. by destruct (below _ _). Qed.
Lemma nib_refresh s : Nwk.nib (Power.refresh_power_delta_schedule s) = Nwk.nib s.
Proof.
  unfold Power.refresh_power_delta_schedule, Power.schedule_power_delta. destruct (negb _); [done|]. case_match; [done|].
  pose proof (nib_jitter 0 Power.MAX_JITTER s). by destruct (Tx.jitter _ _ s).
Qed.
End nib.

Create Rewrite HintDb nwk_nib.
#[export] Hint Rewrite @nib_push_action @nib_push_event @nib_note_channel @nib_beacon @nib_refresh : nwk_nib.

Section best.
Context (n e : Z → Z).

(** [c] is no worse than [d]: fewer networks, or as many and no more energy. *)
Definition no_worse (c d : Z) : Prop := n c < n d ∨ n c = n d ∧ e c ≤ e d.

Definition pick (best : option (Z * Z * Z)) (c : Z) : option (Z * Z * Z) :=
  match best with
  | None => Some (c, n c, e c)
  | Some (_, bn, be) => if (n c <? bn) || ((n c =? bn) && (e c <? be)) then Some (c, n c, e c) else best
  end.

Lemma pick_spec l b :
  match foldl pick (Some (b, n b, e b)) l with
  | Some (c, cn, ce) => (c = b ∨ c ∈ l) ∧ cn = n c ∧ ce = e c ∧ no_worse c b ∧ (∀ d, d ∈ l → no_worse c d)
  | None => False
  end.
Proof.
  revert b. induction l as [|x l IH]; intros b; [cbn; split_and!; [by left|done|done|right; lia|set_solver]|].
  cbn [foldl pick].
  destruct ((n x <? n b) || ((n x =? n b) && (e x <? e b))) eqn:E.
  - specialize (IH x). destruct (foldl pick _ l) as [[[c cn] ce]|]; [|done].
    destruct IH as (Hin & -> & -> & Hx & Hl). unfold no_worse in *. split_and!; try done.
    + right. set_solver.
    + apply orb_prop in E as [E|[E1 E2]%andb_prop]; lia.
    + intros d [->|Hd]%elem_of_cons; [done|by apply Hl].
  - specialize (IH b). destruct (foldl pick _ l) as [[[c cn] ce]|]; [|done].
    destruct IH as (Hin & -> & -> & Hx & Hl). unfold no_worse in *. split_and!; try done.
    + destruct Hin; [by left|right; set_solver].
    + intros d [->|Hd]%elem_of_cons; [|by apply Hl]. apply orb_false_elim in E as [E1 E2]. lia.
Qed.

Lemma pick_best l c cn ce :
  foldl pick None l = Some (c, cn, ce) → c ∈ l ∧ ∀ d, d ∈ l → no_worse c d.
Proof.
  destruct l as [|x l]; [done|]. cbn [foldl pick]. intros E. pose proof (pick_spec l x) as Hs. rewrite E in Hs.
  destruct Hs as (Hin & _ & _ & Hx & Hl). split; [set_solver|]. intros d [->|Hd]%elem_of_cons; [done|by apply Hl].
Qed.
End best.

Section formation.
Context {C R : Type} {D : NwkDims.t} `{!BlockCipher C} {Hrng : Rng R} {Hfair : FairRng R} {Hv : Heapless}.
Implicit Types s : Nwk.t C R D.

Definition networks_on (f : FormationState.t) (c : Z) : Z := nth (Z.to_nat c) (FormationState.networks_per_channel f) 0.
Definition energy_on (f : FormationState.t) (c : Z) : Z := nth (Z.to_nat c) (FormationState.energy f) 0.

Lemma best_channel_spec f c cn ce :
  Scan.best_channel f = Some (c, cn, ce) →
  c ∈ ChannelMask.iter (FormationState.channels f) ∧
  ∀ d, d ∈ ChannelMask.iter (FormationState.channels f) → no_worse (networks_on f) (energy_on f) c d.
Proof. apply (pick_best (networks_on f) (energy_on f)). Qed.

(** The first [n] numbers of the generator. *)
Fixpoint u16_draws (n : nat) (r : R) : list Z :=
  match n with O => [] | S n => let '(v, r) := next_u16 r in v :: u16_draws n r end.

(** A PAN id that may be used: not the broadcast one, and none that was heard. *)
Definition usable_pan_id (f : FormationState.t) (p : Z) : bool :=
  negb (p =? 0xFFFF) && negb (bool_decide (p ∈ FormationState.seen_pan_ids f)).

(** The PAN id asked for, or the first of sixteen numbers drawn that may be used. *)
Definition pan_id_for (f : FormationState.t) s : option Z :=
  match FormationState.pan_id f with
  | Some p => Some p
  | None => List.find (usable_pan_id f) (u16_draws 16 (Nwk.rng s))
  end.

Lemma draw_pan_id_find k free (r : R) :
  (Scan.draw_pan_id k free r).1 = List.find (λ p, negb (p =? 0xFFFF) && free p) (u16_draws k r).
Proof.
  revert r. induction k as [|k IH]; intros r; [done|]. cbn [Scan.draw_pan_id u16_draws].
  destruct (next_u16 r) as [v r1]. cbn [List.find]. unfold PanId.is_valid_for_formation. by destruct (_ && _).
Qed.

Lemma choose_pan_id_spec f s :
  (Scan.choose_pan_id f s).1 = pan_id_for f s ∧ Nwk.nib (Scan.choose_pan_id f s).2 = Nwk.nib s.
Proof.
  unfold Scan.choose_pan_id, pan_id_for. destruct (FormationState.pan_id f) as [q|]; [done|].
  unfold Scan.on_rng, usable_pan_id. rewrite <- (draw_pan_id_find 16 (λ p, negb (bool_decide (p ∈ FormationState.seen_pan_ids f)))).
  by destruct (Scan.draw_pan_id _ _ _) as [o r].
Qed.

Lemma choose_short_nib f s : Nwk.nib (Scan.choose_short f s).2 = Nwk.nib s.
Proof.
  unfold Scan.choose_short. destruct (FormationState.distributed f); [|done]. destruct (FormationState.short f); [done|].
  unfold Scan.on_rng. by destruct (allocate_stochastic _ _).
Qed.

(** The NIB of the network formed. *)
Definition formed_nib (pan channel short : Z) (n : Nib.t) : Nib.t :=
  Nib.set_depth 0 (Nib.set_router_started true (Nib.set_authenticated true (Nib.set_joined true
    (Nib.set_network_address short (Nib.set_channel channel (Nib.set_pan_id pan n)))))).

Lemma adopt_nib pan channel short s : Nwk.nib (Scan.adopt_network pan channel short s) = formed_nib pan channel short (Nwk.nib s).
Proof. unfold Scan.adopt_network, Scan.on_nib. cbn [Nwk.nib Nwk.set_nib]. by rewrite nib_note_channel. Qed.

Lemma network_formed_nib f pan channel short s :
  Nwk.nib (Scan.network_formed f pan channel short s) = formed_nib pan channel short (Nwk.nib s).
Proof.
  unfold Scan.network_formed. rewrite <- adopt_nib. generalize (Scan.adopt_network pan channel short s). intros s1.
  cbv zeta. rewrite nib_push_event, nib_push_action, nib_beacon, nib_push_action.
  change (Nwk.nib (Nwk.set_child_age_last ?a ?b)) with (Nwk.nib b). by rewrite nib_refresh.
Qed.

(** The extended PAN id of the network formed: the one configured, or this
    device's address, or, in a distributed network, an odd number drawn. *)
Definition extended_chosen (distributed : bool) (before after : Nib.t) : Prop :=
  if Nib.extended_pan_id before =? ExtendedAddress.ZERO
  then if distributed then Z.odd (Nib.extended_pan_id after) = true else Nib.extended_pan_id after = Nib.ieee_address before
  else Nib.extended_pan_id after = Nib.extended_pan_id before.

Lemma choose_extended_spec f s pan channel short :
  extended_chosen (FormationState.distributed f) (Nwk.nib s) (formed_nib pan channel short (Nwk.nib (Scan.choose_extended f s))).
Proof.
  unfold extended_chosen, Scan.choose_extended. destruct (_ =? _); [|done].
  destruct (FormationState.distributed f); [|done]. unfold Scan.on_rng. destruct (next_u64 _) as [v r].
  cbn [formed_nib Nwk.nib Nwk.set_nib Scan.on_nib Nib.extended_pan_id Nib.set_extended_pan_id].
  change (Z.odd (Z.lor v 1) = true). rewrite <- Z.bit0_odd, Z.lor_spec. apply orb_true_r.
Qed.

(** What a formation did: the network it formed, or why there is none. *)
Definition formed (f : FormationState.t) s (after : Nib.t) : Prop :=
  let channels := ChannelMask.iter (FormationState.channels f) in
  Nib.channel after ∈ channels ∧
  (∀ d, d ∈ channels → no_worse (networks_on f) (energy_on f) (Nib.channel after) d) ∧
  pan_id_for f s = Some (Nib.pan_id after) ∧
  (FormationState.distributed f = false → Nib.network_address after = ShortAddress.COORDINATOR) ∧
  (FormationState.distributed f = true → ∀ a, FormationState.short f = Some a → Nib.network_address after = a) ∧
  extended_chosen (FormationState.distributed f) (Nwk.nib s) after ∧
  (Nib.joined after && Nib.authenticated after && Nib.router_started after) = true.

Definition not_formed (f : FormationState.t) s (after : Nib.t) : Prop :=
  after = Nwk.nib s ∧ (ChannelMask.iter (FormationState.channels f) = [] ∨ pan_id_for f s = None).

Lemma best_channel_none f : Scan.best_channel f = None → ChannelMask.iter (FormationState.channels f) = [].
Proof.
  change (Scan.best_channel f) with (foldl (pick (networks_on f) (energy_on f)) None (ChannelMask.iter (FormationState.channels f))).
  destruct (ChannelMask.iter _) as [|x l]; [done|]. cbn [foldl pick]. intros E.
  pose proof (pick_spec (networks_on f) (energy_on f) l x) as Hs. by rewrite E in Hs.
Qed.
End formation.


(** A founder that has scanned two channels: the second has fewer networks. *)
Definition example_formation : FormationState.t :=
  FormationState.mk 0x1800 (replicate 27 0) (<[11%nat := 2]> (replicate 27 0)) [0x1234] false None None.

Definition example_founder : Nwk.t Z Z (NwkDims.Dims 4 4 2 4) :=
  let s : Nwk.t Z Z (NwkDims.Dims 4 4 2 4) := Tx.new (Nib.new LogicalDeviceType.Coordinator 0xAA) NwkConfig.default 0 in
  Nwk.set_formation (Some example_formation) s.


(** ** Leaving *)

Section leave.
Context {C R : Type} {D : NwkDims.t} `{!BlockCipher C} {Hrng : Rng R} {Hfair : FairRng R} {Hv : Heapless} {CT : ConstantTimeEq}.
Implicit Types s : Nwk.t C R D.

(** Nothing of a network: no table has an entry, no frame waits, there is no key,
    and the NIB has no address. *)
Definition forgotten s : Prop :=
  NeighborTable.entries (Nwk.neighbors s) = [] ∧ AddressMap.entries (Nwk.address_map s) = [] ∧
  RoutingTable.entries (Nwk.routes s) = [] ∧ SourceRouteTable.entries (Nwk.source_routes s) = [] ∧
  RouteDiscoveryTable.entries (Nwk.rdt s) = [] ∧ BroadcastTransactionTable.records (Nwk.btt s) = [] ∧
  Nwk.pending s = [] ∧ Nwk.bcast_bufs s = [] ∧ Nwk.pending_rreq s = [] ∧
  (∀ seq, NetworkKeys.get (NwkSecurity.keys (Nwk.security s)) seq = None) ∧
  IncomingCounters.entries (NwkSecurity.incoming (Nwk.security s)) = [] ∧
  Nib.network_address (Nwk.nib s) = ShortAddress.NO_SHORT_ADDRESS ∧ Nib.pan_id (Nwk.nib s) = PanId.BROADCAST ∧
  Nib.extended_pan_id (Nwk.nib s) = 0.

(** Received octets change the statistics and nothing else; nothing is delivered
    but the rest of an inter-PAN frame, which belongs to no network; what the layer
    is asked to send, it refuses. *)
Definition deaf s : Prop :=
  (∀ fuel buf mac lqi rssi, ∃ out st,
    Receive.on_mac_data fuel buf mac lqi rssi s = Some (out, Nwk.set_stats st s) ∧
    (out = RxOutcome.None ∨
     (∃ h hl, NwkHeader.decode_prefix buf = Ok (h, hl) ∧ FrameControl.frame_type (NwkHeader.frame_control h) = FrameType.InterPan) ∧
     out = RxOutcome.InterPan (default [] (get_from buf 2)) lqi)) ∧
  (∀ dst payload radius discover secure,
    Bcast.data_request dst payload radius discover secure s = (Err NwkError.NotJoined, s)).

Lemma set_stats_same s : Nwk.set_stats (Nwk.stats s) s = s.
Proof. by destruct s. Qed.

Lemma off_network_deaf s : Nib.joined (Nwk.nib s) = false → Nwk.join s = None → deaf s.
Proof.
  intros Hj Hn. split.
  2: { intros. unfold Bcast.data_request, Bcast.data_request_aliased. by rewrite Hj. }
  intros fuel buf mac lqi rssi. unfold Receive.on_mac_data.
  destruct (NwkHeader.decode_prefix buf) as [[h hl]|] eqn:Ed; [|eexists _, _; by split; [|left]].
  assert (∀ (P : RxOutcome.t → Prop) (b : bool), P RxOutcome.None →
    ∃ out st, (if b then Some (RxOutcome.None, Tx.bump NwkStats.F_malformed s) else
    if negb (Nib.joined (Nwk.nib s)) && negb (is_some (Nwk.join s)) then Some (RxOutcome.None, s) else None)
    = Some (out, Nwk.set_stats st s) ∧ P out) as Hb.
  { intros P b HP. exists RxOutcome.None. destruct b; [by eexists|]. rewrite Hj, Hn. exists (Nwk.stats s). by rewrite set_stats_same. }
  rewrite Hj, Hn in *. cbn [negb andb is_some] in *.
  destruct (FrameControl.frame_type (NwkHeader.frame_control h)) eqn:Ef; try (apply Hb; by left).
  exists (RxOutcome.InterPan (default [] (get_from buf 2)) lqi), (Nwk.stats s). rewrite set_stats_same. split; [done|right]. eauto.
Qed.
End leave.


(** ** What survives a leave, and what a rejoin leaves behind *)

(** What the operations of a join do to the announced change and to the PAN id. *)
Section pan_id.
Context {C R : Type} {D : NwkDims.t} `{!BlockCipher C} {Hrng : Rng R} {Hfair : FairRng R} {Hv : Heapless}.
Implicit Types s : Nwk.t C R D.

Definition pan_view s : option (Z * Z * Z) * Z := (Nwk.pan_id_update s, Nib.pan_id (Nwk.nib s)).

Lemma pan_action a s : pan_view (Tx.push_action a s) = pan_view s.
Proof. done. Qed.
Lemma pan_event e s : pan_view (Tx.push_event e s) = pan_view s.
Proof. done. Qed.
Lemma pan_power_due o s : pan_view (Nwk.set_power_delta_due o s) = pan_view s.
Proof. done. Qed.
Lemma pan_power_request o s : pan_view (Nwk.set_power_request o s) = pan_view s.
Proof. done. Qed.
Lemma pan_operating o s : pan_view (Nwk.set_operating_since o s) = pan_view s.
Proof. done. Qed.
Lemma pan_join f s : pan_view (Joining.on_join f s) = pan_view s.
Proof. done. Qed.
Lemma pan_neighbors f s : pan_view (Leaving.on_neighbors f s) = pan_view s.
Proof. done. Qed.
Lemma pan_ensure e s : pan_view (Route.ensure_neighbor e s).2 = pan_view s.
Proof. unfold Route.ensure_neighbor. by destruct (NeighborTable.insert _ _ _). Qed.
Lemma pan_note_channel s : pan_view (Scan.note_channel_in_use s) = pan_view s.
Proof. unfold Scan.note_channel_in_use. by case_match. Qed.
Lemma pan_nib f s : (∀ n, Nib.pan_id (f n) = Nib.pan_id n) → pan_view (Scan.on_nib f s) = pan_view s.
Proof. unfold pan_view. intros Hf. cbn. by rewrite Hf. Qed.
Lemma pan_set v s : pan_view (Scan.on_nib (Nib.set_pan_id v) s) = (Nwk.pan_id_update s, v).
Proof. done. Qed.

(** The change at its time, whatever the network the device is in by then. *)
Lemma pan_id_change s pan uid at_ t :
  Nwk.pan_id_update s = Some (pan, uid, at_) → at_ ≤ t →
  Nib.pan_id (Nwk.nib (Scan.service_pan_id_update t s)) = pan ∧
  Nib.update_id (Nwk.nib (Scan.service_pan_id_update t s)) = uid.
Proof.
  intros Hp Ht. unfold Scan.service_pan_id_update. rewrite Hp. unfold Instant.has_reached. rewrite (proj2 (Z.leb_le _ _) Ht).
  cbv zeta. by rewrite !nib_push_event, nib_push_action, nib_beacon, nib_push_action.
Qed.
End pan_id.

Create Rewrite HintDb nwk_pan.
#[export] Hint Rewrite @pan_action @pan_event @pan_power_due @pan_power_request @pan_operating @pan_join
  @pan_neighbors @pan_ensure @pan_note_channel @pan_set : nwk_pan.

Lemma unsecured_join_pan {C R : Type} {D : NwkDims.t} `{!BlockCipher C} {Hrng : Rng R} {Hfair : FairRng R} {Hv : Heapless}
    (s : Nwk.t C R D) (j : JoinState.t) (p : ParentSnapshot.t) (short : Z) :
  Nwk.join s = Some j →
  pan_view (Joining.complete_join p short false s) = (Nwk.pan_id_update s, ParentSnapshot.pan_id p).
Proof.
  intros Hj. unfold Joining.complete_join. rewrite Hj. cbv zeta. cbn iota.
  do 10 (autorewrite with nwk_pan; rewrite ?pan_nib by done). done.
Qed.

(** C21. A PAN id change that was announced is carried out after the device has
    left.  Leaving does not forget it, so at its time the device, which then has no
    PAN id, takes the PAN id and the update id of the network it left; and a device
    that joins (unsecured, as one that is new to a network) while such a change is
    pending has the PAN id of its new parent only until then: completing the join
    does not forget the change either. *)
Theorem pan_id_survives_leave {C R : Type} {D : NwkDims.t} `{!BlockCipher C} {Hrng : Rng R} {Hfair : FairRng R} {Hv : Heapless}
    (s : Nwk.t C R D) (pan uid at_ t : Z) :
  Nwk.pan_id_update s = Some (pan, uid, at_) → at_ ≤ t →
  (let left := Leaving.local_leave false s in
   Nib.pan_id (Nwk.nib left) = PanId.BROADCAST ∧ Nwk.pan_id_update left = Some (pan, uid, at_) ∧
   Nib.pan_id (Nwk.nib (Scan.service_pan_id_update t left)) = pan ∧
   Nib.update_id (Nwk.nib (Scan.service_pan_id_update t left)) = uid) ∧
  (∀ j parent short, Nwk.join s = Some j →
   let joined := Joining.complete_join parent short false s in
   Nib.pan_id (Nwk.nib joined) = ParentSnapshot.pan_id parent ∧
   Nib.pan_id (Nwk.nib (Scan.service_pan_id_update t joined)) = pan ∧
   Nib.update_id (Nwk.nib (Scan.service_pan_id_update t joined)) = uid).
Proof.
  intros Hp Ht. split.
  - intros left. assert (Nwk.pan_id_update left = Some (pan, uid, at_)) as Hp' by done.
    do 2 (split; [done|]). by apply (pan_id_change _ _ _ at_).
  - intros j parent short Hj joined. pose proof (unsecured_join_pan s j parent short Hj) as Hv'. fold joined in Hv'.
    clearbody joined. rewrite Hp in Hv'. apply pair_equal_spec in Hv' as [Hp' Hn].
    split; [done|]. by apply (pan_id_change _ _ _ at_).
Qed.

Lemma pan_id_survives_leave_witness :
  let s := Nwk.set_pan_id_update (Some (0x5555, 7, 1000)) example_joiner in
  Nib.pan_id (Nwk.nib (Leaving.local_leave false s)) = PanId.BROADCAST ∧
  Nib.pan_id (Nwk.nib (Scan.service_pan_id_update 2000 (Leaving.local_leave false s))) = 0x5555 ∧
  let joined := Joining.complete_join (ParentSnapshot.mk 0x1111 (Some 0xBB) 0x1234 0x99 0 15 false 0 200) 0x4444 false s in
  Nib.pan_id (Nwk.nib joined) = 0x1234 ∧
  Nib.pan_id (Nwk.nib (Scan.service_pan_id_update 2000 joined)) = 0x5555.
Proof.
  cbv zeta.
  destruct (pan_id_survives_leave (Nwk.set_pan_id_update (Some (0x5555, 7, 1000)) example_joiner) 0x5555 7 1000 2000
    ltac:(reflexivity) ltac:(lia)) as [(H1 & _ & H2 & _) H3].
  split; [exact H1|]. split; [exact H2|].
  destruct (H3 (Joining.fresh_join (JoinParams.mk None false false false 0x80 false) false None false)
    (ParentSnapshot.mk 0x1111 (Some 0xBB) 0x1234 0x99 0 15 false 0 200) 0x4444 ltac:(reflexivity)) as (H4 & H5 & _).
  split; [exact H4|exact H5].
Defined.

(** The least of a list is no more than any of its elements. *)
Lemma minimum_from l m : ∃ d, foldl (λ m x, Some (match m with None => x | Some y => Z.min y x end)) (Some m) l = Some d ∧
  d ≤ m ∧ ∀ x, x ∈ l → d ≤ x.
Proof.
  revert m. induction l as [|y l IH]; intros m; cbn [foldl]; [exists m; split_and!; [done|lia|set_solver]|].
  destruct (IH (Z.min m y)) as (d & -> & Hd & Hl). exists d. split_and!; [done|lia|].
  intros x [->|Hx]%elem_of_cons; [lia|by apply Hl].
Qed.

Lemma minimum_le l x : x ∈ l → ∃ d, Tx.minimum l = Some d ∧ d ≤ x.
Proof.
  destruct l as [|y l]; [by intros ?%elem_of_nil|]. intros Hx. unfold Tx.minimum. cbn [foldl].
  destruct (minimum_from l y) as (d & -> & Hd & Hl). exists d. split; [done|].
  apply elem_of_cons in Hx as [->|Hx]; [done|by apply Hl].
Qed.

(** What the operations of a join do to the time of the keepalive and to the
    authentication. *)
Section keepalive.
Context {C R : Type} {D : NwkDims.t} `{!BlockCipher C} {Hrng : Rng R} {Hfair : FairRng R} {Hv : Heapless}.
Implicit Types s : Nwk.t C R D.

Definition sleep_view s : option Z * bool := (Nwk.keepalive_due s, Nib.authenticated (Nwk.nib s)).

Lemma sleep_action a s : sleep_view (Tx.push_action a s) = sleep_view s.
Proof. done. Qed.
Lemma sleep_event e s : sleep_view (Tx.push_event e s) = sleep_view s.
Proof. done. Qed.
Lemma sleep_power_due o s : sleep_view (Nwk.set_power_delta_due o s) = sleep_view s.
Proof. done. Qed.
Lemma sleep_power_request o s : sleep_view (Nwk.set_power_request o s) = sleep_view s.
Proof. done. Qed.
Lemma sleep_operating o s : sleep_view (Nwk.set_operating_since o s) = sleep_view s.
Proof. done. Qed.
Lemma sleep_join f s : sleep_view (Joining.on_join f s) = sleep_view s.
Proof. done. Qed.
Lemma sleep_neighbors f s : sleep_view (Leaving.on_neighbors f s) = sleep_view s.
Proof. done. Qed.
Lemma sleep_ensure e s : sleep_view (Route.ensure_neighbor e s).2 = sleep_view s.
Proof. unfold Route.ensure_neighbor. by destruct (NeighborTable.insert _ _ _). Qed.
Lemma sleep_authenticated b s : sleep_view (Scan.on_nib (Nib.set_authenticated b) s) = (Nwk.keepalive_due s, b).
Proof. done. Qed.
Lemma sleep_nib f s :
  (∀ n, Nib.authenticated (f n) = Nib.authenticated n) → sleep_view (Scan.on_nib f s) = sleep_view s.
Proof. unfold sleep_view. intros Hf. cbn. by rewrite Hf. Qed.
Lemma sleep_due f s : Nwk.keepalive_due (Scan.on_nib f s) = Nwk.keepalive_due s.
Proof. done. Qed.
Lemma sleep_note_channel s : Nwk.keepalive_due (Scan.note_channel_in_use s) = Nwk.keepalive_due s.
Proof. unfold Scan.note_channel_in_use. by case_match. Qed.
End keepalive.

Create Rewrite HintDb nwk_sleep.
#[export] Hint Rewrite @sleep_action @sleep_event @sleep_power_due @sleep_power_request @sleep_operating @sleep_join
  @sleep_neighbors @sleep_ensure @sleep_authenticated @sleep_due @sleep_note_channel : nwk_sleep.

Lemma unsecured_join_sleep {C R : Type} {D : NwkDims.t} `{!BlockCipher C} {Hrng : Rng R} {Hfair : FairRng R} {Hv : Heapless}
    (s : Nwk.t C R D) (j : JoinState.t) (p : ParentSnapshot.t) (short : Z) :
  Nwk.join s = Some j → sleep_view (Joining.complete_join p short false s) = (Nwk.keepalive_due s, false).
Proof.
  intros Hj. unfold Joining.complete_join. rewrite Hj. cbv zeta. cbn iota.
  autorewrite with nwk_sleep. rewrite sleep_nib by done. by autorewrite with nwk_sleep.
Qed.

Lemma deadline_keepalive {C R : Type} {D : NwkDims.t} `{!BlockCipher C} {Hrng : Rng R} {Hfair : FairRng R} {Hv : Heapless}
    (s : Nwk.t C R D) (due : Z) : Nwk.keepalive_due s = Some due → ∃ d, Timers.next_deadline s = Some d ∧ d ≤ due.
Proof.
  intros Hk. unfold Timers.next_deadline. cbv zeta. apply minimum_le, list_elem_of_omap.
  exists (Some due). rewrite Hk. split; [|done]. do 3 (apply list_elem_of_further). apply list_elem_of_here.
Qed.

(** C22. An end device that rejoins without security keeps the time of its next
    keepalive.  Until it has the key it is not authenticated and sends none, so the
    time passes and stays: the layer asks to be polled at an instant that is over,
    and the timer does nothing when it is. *)
Theorem keepalive_left_due {C R : Type} {D : NwkDims.t} `{!BlockCipher C} {Hrng : Rng R} {Hfair : FairRng R} {Hv : Heapless}
    (s : Nwk.t C R D) (j : JoinState.t) (p : ParentSnapshot.t) (short due t : Z) :
  Nwk.join s = Some j → Nwk.keepalive_due s = Some due → due ≤ t →
  let s' := Joining.complete_join p short false s in
  Nib.authenticated (Nwk.nib s') = false ∧
  Timers.keepalive_timer t s' = s' ∧
  ∃ d, Timers.next_deadline s' = Some d ∧ d ≤ t.
Proof.
  intros Hj Hk Ht s'.
  pose proof (unsecured_join_sleep s j p short Hj) as Hv'. rewrite Hk in Hv'. fold s' in Hv'. clearbody s'.
  apply pair_equal_spec in Hv' as [Hk' Ha].
  split; [done|]. split.
  - unfold Timers.keepalive_timer. rewrite Hk', Ha. by rewrite andb_false_r.
  - destruct (deadline_keepalive s' due Hk') as (d & Hd & Hle). exists d. split; [done|lia].
Qed.

(** An end device with a keepalive due that rejoins through a router. *)
Definition example_rejoiner : Nwk.t Z Z (NwkDims.Dims 4 4 2 4) :=
  Nwk.set_keepalive_due (Some 1000) example_joiner.

Lemma keepalive_left_due_witness :
  let s' := Joining.complete_join (ParentSnapshot.mk 0x1111 (Some 0xBB) 0x1234 0x99 0 15 false 0 200) 0x4444 false example_rejoiner in
  Nib.authenticated (Nwk.nib s') = false ∧ Timers.keepalive_timer 2000 s' = s' ∧
  ∃ d, Timers.next_deadline s' = Some d ∧ d ≤ 2000.
Proof.
  apply (keepalive_left_due example_rejoiner
    (Joining.fresh_join (JoinParams.mk None false false false 0x80 false) false None false) _ _ 1000);
    [reflexivity|reflexivity|lia].
Defined.

(** ** Attaching without security *)

Section attach.
Context {C R : Type} {D : NwkDims.t} `{!BlockCipher C} {Hrng : Rng R} {Hfair : FairRng R} {Hv : Heapless}.
Implicit Types s : Nwk.t C R D.

Lemma command_neighbors h cmd dst b1 b2 k s :
  Nwk.neighbors (Tx.ignore (Tx.send_command_unicast h cmd dst b1 b2 k) s) = Nwk.neighbors s.
Proof.
  unfold Tx.ignore, Tx.send_command_unicast. destruct (Tx.build_command _ _) as [[f hl]|]; [|done]. cbn [Tx.alloc_tx_id].
  destruct (Tx.transmit_pending _ _) as [r s'] eqn:E. apply transmit_spec in E as (l & Htr & _).
  pose proof (tr_core _ _ _ _ Htr) as Hc. unfold core in Hc. cbn [snd]. by injection Hc.
Qed.

Lemma response_neighbors ctx device cmd status m s : Nwk.neighbors (Parent.send_response ctx device cmd status m s) = Nwk.neighbors s.
Proof. unfold Parent.send_response. cbn [Parent.attach_response_header Tx.next_sequence Nib.next_sequence]. by rewrite command_neighbors. Qed.

Lemma refusal_neighbors ctx device a status b s : Nwk.neighbors (Parent.send_attach_response ctx device a status b s) = Nwk.neighbors s.
Proof. unfold Parent.send_attach_response. destruct b; apply response_neighbors. Qed.

Lemma success_neighbors ctx device a m s : Nwk.neighbors (Parent.send_attach_success ctx device a m s) = Nwk.neighbors s.
Proof. unfold Parent.send_attach_success. destruct m; apply response_neighbors. Qed.

Lemma allocate_neighbors s : Nwk.neighbors (Bcast.allocate_address s).2 = Nwk.neighbors s.
Proof. unfold Bcast.allocate_address. by destruct (allocate_stochastic _ _). Qed.

(** A granted request stores its entry. *)
Lemma attach_neighbors ctx device a cap b1 secured old info m s :
  Nwk.neighbors (Parent.attach ctx device a cap b1 secured old info m s) =
  (NeighborTable.insert (Nwk.neighbors s) (Parent.attached_entry ctx device a cap secured old s)
     (Nib.router_age_limit (Nwk.nib s))).2.
Proof.
  unfold Parent.attach, Route.ensure_neighbor. destruct (NeighborTable.insert _ _ _) as [[pos|e] t].
  - cbn [negb]. rewrite success_neighbors. by destruct info as [[]|].
  - cbn [negb]. by rewrite refusal_neighbors.
Qed.

Lemma insert_elements {K} (t : NeighborTable.t K) e limit n :
  n ∈ NeighborTable.entries (NeighborTable.insert t e limit).2 → n = e ∨ n ∈ NeighborTable.entries t.
Proof.
  unfold NeighborTable.insert. destruct (position _ _) as [pos|].
  { cbn. intros [i Hi]%list_elem_of_lookup. apply list_lookup_insert_Some in Hi as [(_ & <- & _)|[_ Hi]]; [by left|right].
    by eapply list_elem_of_lookup_2. }
  set (freed := if vec_is_full _ _ then _ else _).
  assert (∀ es, freed = Some es → ∀ x, x ∈ es → x ∈ NeighborTable.entries t) as Hf.
  { unfold freed. intros es. destruct (vec_is_full _ _); [|by intros [= ->]].
    destruct (position (NeighborTable.evictable _) _) as [v|] eqn:Ep; [|done].
    apply position_Some in Ep as (x & Hx & _). destruct (swap_remove_Permutation _ _ _ Hx) as (l' & -> & Hl).
    intros [= <-] y Hy. rewrite Hl. by right. }
  destruct freed as [es|]; [specialize (Hf es eq_refl)|by right].
  destruct (Nat.ltb_spec (length es) K).
  - rewrite vec_push_room by done. cbn. intros [?|?%list_elem_of_singleton]%elem_of_app; auto.
  - rewrite vec_push_full by done. cbn. auto.
Qed.

Lemma insert_over {K} (t : NeighborTable.t K) e limit n :
  NeighborTable.wf t → NeighborTable.by_extended t (NeighborEntry.extended e) = Some n →
  NeighborTable.by_extended (NeighborTable.insert t e limit).2 (NeighborEntry.extended e) = Some e.
Proof.
  intros [Hnd _] Hn. unfold NeighborTable.insert. destruct (position _ _) as [i|] eqn:Ep.
  - destruct (position_key_insert NeighborEntry.extended _ _ e _ Hnd Ep eq_refl) as (_ & _ & Hf). cbn.
    unfold NeighborTable.by_extended. cbn. rewrite Hf. by rewrite decide_True.
  - exfalso. apply List.find_some in Hn as [Hin Hof]. rewrite position_None in Ep. rewrite Ep in Hof; [done|]. by apply list_elem_of_In.
Qed.

(** An entry that proves nothing: it is given up after the security timeout. *)
Definition unproven_entry (device : Z) (n : NeighborEntry.t) : Prop :=
  NeighborEntry.extended n = device ∧ NeighborEntry.relationship n = Relationship.UnauthenticatedChild ∧
  NeighborEntry.security_timer_secs n = Parent.security_timeout_secs.

Lemma attached_unproven ctx device a cap old s : unproven_entry device (Parent.attached_entry ctx device a cap false old s).
Proof.
  unfold Parent.attached_entry. cbn [negb]. destruct old as [o|]; cbv zeta; unfold NeighborEntry.set_timeout.
  all: repeat case_match; split_and!; done.
Qed.

(** What an unsecured request may do to the neighbours. *)
Definition only_unproven (device : Z) s s' : Prop :=
  ∀ n, n ∈ NeighborTable.entries (Nwk.neighbors s') → n ∈ NeighborTable.entries (Nwk.neighbors s) ∨ unproven_entry device n.

Lemma only_unproven_same device s s' : Nwk.neighbors s' = Nwk.neighbors s → only_unproven device s s'.
Proof. intros He n. rewrite He. auto. Qed.

Lemma attach_unproven ctx device a cap b1 old info m s s0 :
  Nwk.neighbors s = Nwk.neighbors s0 → only_unproven device s0 (Parent.attach ctx device a cap b1 false old info m s).
Proof.
  intros He n. rewrite attach_neighbors, He. intros [->|Hn]%insert_elements; [right|by left]. apply attached_unproven.
Qed.

Lemma attach_request_unproven ctx device cap b1 info s :
  only_unproven device s (Parent.handle_attach_request ctx device cap b1 false info s).
Proof.
  unfold Parent.handle_attach_request.
  assert (∀ st s1, Nwk.neighbors s1 = Nwk.neighbors s →
    only_unproven device s (Parent.send_attach_response ctx device (CommandContext.src ctx) st b1 s1)) as Hr
    by (intros; apply only_unproven_same; by rewrite refusal_neighbors).
  destruct (_ && _); [by apply Hr|]. cbv zeta. destruct (match NeighborTable.by_extended _ _ with Some _ => _ | None => _ end); [by apply Hr|].
  destruct (_ || _); [|by apply attach_unproven].
  pose proof (allocate_neighbors s) as Ha. destruct (Bcast.allocate_address s) as [[a|] s1]; cbn [snd] in Ha; [|by apply Hr].
  destruct b1; [|by apply attach_unproven]. apply only_unproven_same.
  unfold Parent.send_commissioning_response. by rewrite response_neighbors.
Qed.
End attach.

(** C13. Nobody becomes an authenticated child without security.  Whatever the
    state, a rejoin or commissioning request that came unsecured adds to the
    neighbour table at most an entry of the device it names, marked unauthenticated
    and with the security timeout running; every other entry was there before. *)
Theorem unsecured_attach_authenticates_nobody {C R : Type} {D : NwkDims.t} `{!BlockCipher C} {Hrng : Rng R} {Hfair : FairRng R}
    {Hv : Heapless} (s : Nwk.t C R D) (ctx : CommandContext.t) (device : Z) :
  CommandContext.secured ctx = false → CommandContext.src_ieee ctx = Some device →
  (∀ req, only_unproven device s (Parent.on_rejoin_request ctx req s)) ∧
  (∀ req, only_unproven device s (Parent.on_commissioning_request ctx req s)).
Proof.
  intros Hs Hd. split; intros req.
  - unfold Parent.on_rejoin_request. destruct (_ || _); [by apply only_unproven_same|]. rewrite Hd, Hs.
    destruct (negb _); [by apply only_unproven_same|]. apply attach_request_unproven.
  - unfold Parent.on_commissioning_request. destruct (_ || _); [by apply only_unproven_same|]. rewrite Hd.
    destruct (negb _); [by apply only_unproven_same|].
    assert (∀ initial, only_unproven device s (Parent.commissioned ctx device req initial s)) as Hc.
    { intros initial. unfold Parent.commissioned. rewrite Hs.
      destruct (_ && false); [by apply only_unproven_same|].
      destruct (_ && _); [apply only_unproven_same, response_neighbors|].
      destruct (CommissioningRequest.tlv_set req); [apply attach_request_unproven|by apply only_unproven_same]. }
    destruct (CommissioningRequest.kind req); [apply Hc..| |by apply only_unproven_same].
    unfold Parent.on_establish_trusted_link. rewrite Hs. by destruct (Nwk.rx_link s) as [[[[]]]|]; apply only_unproven_same.
Qed.

(** An unsecured rejoin request at a router whose neighbour 0xBB is a sibling. *)
Definition example_request (src ieee : Z) : CommandContext.t :=
  CommandContext.mk src 0x1111 (Some ieee) None src 200 (-40) false None 1 9.

Lemma unsecured_attach_authenticates_nobody_witness :
  (∀ req, only_unproven 0xCC (example_device 0x1111 0xAA 0x2222 0xBB)
    (Parent.on_rejoin_request (example_request 0x3333 0xCC) req (example_device 0x1111 0xAA 0x2222 0xBB))) ∧
  (∀ req, only_unproven 0xCC (example_device 0x1111 0xAA 0x2222 0xBB)
    (Parent.on_commissioning_request (example_request 0x3333 0xCC) req (example_device 0x1111 0xAA 0x2222 0xBB))).
Proof. apply (unsecured_attach_authenticates_nobody (example_device 0x1111 0xAA 0x2222 0xBB)); reflexivity. Defined.

(** The request is granted: the entry is there. *)
Lemma example_attached :
  NeighborEntry.relationship <$> NeighborTable.entries (Nwk.neighbors
    (Parent.on_rejoin_request (example_request 0x3333 0xCC) (RejoinRequest.mk 0x8E) (example_device 0x1111 0xAA 0x2222 0xBB)))
  = [Relationship.Sibling; Relationship.UnauthenticatedChild].
Proof. vm_compute. reflexivity. Qed.

(** An attempt from an address nobody else uses, in a network with a Trust Center,
    for a device that is known but no child. *)
Lemma attach_rewrites {C R : Type} {D : NwkDims.t} `{!BlockCipher C} {Hrng : Rng R} {Hfair : FairRng R} {Hv : Heapless}
    (s : Nwk.t C R D) ctx device capability commissioning info n :
  NeighborTable.wf (Nwk.neighbors s) → NeighborTable.by_extended (Nwk.neighbors s) device = Some n →
  Relationship.is_child (NeighborEntry.relationship n) = false → Nwk.distributed_network s = false →
  ShortAddress.is_assignable (CommandContext.src ctx) = true → Scan.address_conflicts (CommandContext.src ctx) device s = false →
  ∃ n', NeighborTable.by_extended (Nwk.neighbors
      (Parent.handle_attach_request ctx device capability commissioning false info s)) device = Some n' ∧ unproven_entry device n'.
Proof.
  intros Hwf Hn Hc Hd Ha Hx. unfold Parent.handle_attach_request. rewrite Hd, Hn, Hc, Ha, Hx. cbv zeta.
  rewrite !andb_false_r. cbn [negb orb]. rewrite attach_neighbors.
  set (e := Parent.attached_entry _ _ _ _ _ _ _). pose proof (attached_unproven ctx device (CommandContext.src ctx) capability (Some n) s) as He.
  fold e in He. clearbody e. exists e. split; [|done]. destruct He as [<- _]. by eapply insert_over.
Qed.

(** C20. What an unsecured request may overwrite.  The guard that keeps unsecured
    attempts from rewriting a neighbour's data looks at children only.  On a router
    that has started, in a network with a Trust Center, an unsecured rejoin request,
    or an unsecured commissioning request to rejoin, in the name of the parent or of
    any other neighbour that is no child, from an address nobody else uses, replaces
    the neighbour's entry by one of an unauthenticated child, whatever the entry
    said and whether or not there is room for a child; so does a commissioning
    request to join while joining is permitted to that device. *)
Theorem unsecured_attach_rewrites_neighbor {C R : Type} {D : NwkDims.t} `{!BlockCipher C} {Hrng : Rng R} {Hfair : FairRng R}
    {Hv : Heapless} (s : Nwk.t C R D) (ctx : CommandContext.t) (device : Z) (n : NeighborEntry.t) :
  NeighborTable.wf (Nwk.neighbors s) → NeighborTable.by_extended (Nwk.neighbors s) device = Some n →
  Relationship.is_child (NeighborEntry.relationship n) = false →
  Nib.is_router_or_coordinator (Nwk.nib s) = true → Nib.router_started (Nwk.nib s) = true → Nwk.distributed_network s = false →
  CommandContext.secured ctx = false → CommandContext.src_ieee ctx = Some device →
  CommandContext.dst ctx = Nib.network_address (Nwk.nib s) →
  ShortAddress.is_assignable (CommandContext.src ctx) = true → Scan.address_conflicts (CommandContext.src ctx) device s = false →
  let rewritten s' := ∃ n', NeighborTable.by_extended (Nwk.neighbors s') device = Some n' ∧ unproven_entry device n' in
  (∀ req, rewritten (Parent.on_rejoin_request ctx req s)) ∧
  (∀ req set, CommissioningRequest.tlv_set req = Ok set →
     CommissioningRequest.kind req = CommissioningType.Rejoin ∨
     (CommissioningRequest.kind req = CommissioningType.InitialJoin ∧ Scan.is_permitting_joins s = true ∧
      JoiningList.allows (Nwk.joining_list s) device = true) →
     rewritten (Parent.on_commissioning_request ctx req s)).
Proof.
  intros Hwf Hn Hc Hr Hst Hd Hs Hi Hdst Ha Hx rewritten. split.
  - intros req. unfold Parent.on_rejoin_request. rewrite Hr, Hst, Hi, Hdst, Z.eqb_refl, Hs. cbn [negb orb]. by eapply attach_rewrites.
  - intros req set Hset Hk. unfold Parent.on_commissioning_request. rewrite Hr, Hst, Hi, Hdst, Z.eqb_refl. cbn [negb orb].
    destruct Hk as [->|(-> & Hp & Hl)]; unfold Parent.commissioned; rewrite Hs, Hset, ?Hp, ?Hl; by eapply attach_rewrites.
Qed.

(** The sibling 0xBB of the example router. *)
Definition example_sibling : NeighborEntry.t := Eval vm_compute in
  default (NeighborEntry.new 0 0 LogicalDeviceType.Router true Relationship.Sibling 0)
    (NeighborTable.by_extended (Nwk.neighbors (example_device 0x1111 0xAA 0x2222 0xBB)) 0xBB).

Lemma unsecured_attach_rewrites_neighbor_witness :
  ∃ n', NeighborTable.by_extended (Nwk.neighbors (Parent.on_rejoin_request (example_request 0x5555 0xBB) (RejoinRequest.mk 0x8E)
    (example_device 0x1111 0xAA 0x2222 0xBB))) 0xBB = Some n' ∧ unproven_entry 0xBB n'.
Proof.
  assert (NeighborTable.wf (Nwk.neighbors (example_device 0x1111 0xAA 0x2222 0xBB))) as Hwf
    by (split; [vm_compute; repeat constructor; set_solver|vm_compute; lia]).
  exact (proj1 (unsecured_attach_rewrites_neighbor (example_device 0x1111 0xAA 0x2222 0xBB) (example_request 0x5555 0xBB) 0xBB
    example_sibling Hwf ltac:(vm_compute; reflexivity) ltac:(vm_compute; reflexivity) ltac:(vm_compute; reflexivity)
    ltac:(vm_compute; reflexivity) ltac:(vm_compute; reflexivity) ltac:(vm_compute; reflexivity) ltac:(vm_compute; reflexivity)
    ltac:(vm_compute; reflexivity) ltac:(vm_compute; reflexivity) ltac:(vm_compute; reflexivity)) (RejoinRequest.mk 0x8E)).
Defined.
