(* ===== verification/ApsTables.v ===== *)
(** * The tables of the application support layer
    (panweave-aps/src/tables.rs; endpoints from panweave-types/src/ids.rs)

    The binding table, the group table with its endpoint bitmaps, and the
    duplicate rejection table. *)

From S2P Require Import Prelude Heapless Types Status.

Module Endpoint.
Definition ZDO : Z := 0.
Definition GREEN_POWER : Z := 242.
Definition BROADCAST : Z := 255.
Definition is_application (e : Z) : bool := (1 <=? e) && (e <=? 240).
Definition is_registrable (e : Z) : bool := is_application e || (e =? 242).
Definition is_reserved (e : Z) : bool := (241 <=? e) && (e <=? 254) && negb (e =? 242).
End Endpoint.

(** ** Bindings *)

Module BindingDestination.
Inductive t : Type :=
  | Unicast (address endpoint : Z)
  | Group (group : Z).

#[global] Instance t_eq_dec : EqDecision t.
Proof. solve_decision. Defined.
End BindingDestination.

Module BindingEntry.
Record t : Type := mk {
  src_endpoint : Z;
  cluster : Z;
  destination : BindingDestination.t
}.

#[global] Instance t_eq_dec : EqDecision t.
Proof. solve_decision. Defined.
End BindingEntry.

Module BindingTable.
Record t (K : nat) : Type := mk { entries : list BindingEntry.t }.
Arguments mk {K} _.
Arguments entries {K} _.

Definition new K : t K := mk [].

Section table.
Context {H : Heapless} {K : nat}.

(** Neither the ZDO endpoint nor the broadcast endpoint can be bound. *)
Definition unbindable (ep : Z) : bool := (ep =? Endpoint.ZDO) || (ep =? Endpoint.BROADCAST).

Definition illegal_destination (d : BindingDestination.t) : bool :=
  match d with
  | BindingDestination.Unicast _ endpoint => unbindable endpoint
  | BindingDestination.Group _ => false
  end.

Definition bind (s : t K) (entry : BindingEntry.t) : result unit ApsStatus.t * t K :=
  if unbindable (BindingEntry.src_endpoint entry) then (Err ApsStatus.IllegalRequest, s)
  else if illegal_destination (BindingEntry.destination entry) then (Err ApsStatus.IllegalRequest, s)
  else if bool_decide (entry ∈ entries s) then (Ok tt, s)
  else
    match vec_push K (entries s) entry with
    | Ok es => (Ok tt, mk es)
    | Err _ => (Err ApsStatus.TableFull, s)
    end.

Definition unbind (s : t K) (entry : BindingEntry.t) : result unit ApsStatus.t * t K :=
  match position (λ e, bool_decide (e = entry)) (entries s) with
  | Some i =>
      (Ok tt, match vec_swap_remove (entries s) i with Some (_, es) => mk es | None => s end)
  | None => (Err ApsStatus.InvalidBinding, s)
  end.

Definition destinations (s : t K) (src_endpoint cluster : Z) : list BindingDestination.t :=
  BindingEntry.destination <$>
    List.filter (λ e, (BindingEntry.src_endpoint e =? src_endpoint) &&
                      (BindingEntry.cluster e =? cluster)) (entries s).

Definition targets (address : Z) (e : BindingEntry.t) : bool :=
  match BindingEntry.destination e with
  | BindingDestination.Unicast a _ => a =? address
  | BindingDestination.Group _ => false
  end.

Definition remove_device (s : t K) (address : Z) : nat * t K :=
  let es := vec_retain (entries s) (λ e, negb (targets address e)) in
  ((length (entries s) - length es)%nat, mk es).

Definition len (s : t K) : nat := length (entries s).
Definition is_empty (s : t K) : bool := (len s =? 0)%nat.
Definition capacity (s : t K) : nat := K.
Definition clear (s : t K) : t K := mk (vec_clear (entries s)).
End table.
End BindingTable.

(** ** Groups *)

(** The bitmap [[u32; 8]]: one bit per endpoint. *)
Module EndpointSet.
Abbreviation t := (list Z).

Definition EMPTY : t := replicate 8 0.

Definition slot (ep : Z) : nat * Z := (Z.to_nat (ep / 32), Z.shiftl 1 (ep mod 32)).

Definition contains (s : t) (ep : Z) : bool :=
  let '(i, bit) := slot ep in
  match s !! i with Some w => flag bit w | None => false end.

(** [if let Some(w) = self.0.get_mut(i)]: [alter] leaves the words alone when
    the index is out of range. *)
Definition insert (s : t) (ep : Z) : t :=
  let '(i, bit) := slot ep in alter (λ w, Z.lor w bit) i s.

Definition remove (s : t) (ep : Z) : t :=
  let '(i, bit) := slot ep in alter (λ w, Z.land w (lnot_w 32 bit)) i s.

Definition is_empty (s : t) : bool := forallb (λ w, w =? 0) s.

Definition iter (s : t) : list Z := List.filter (contains s) (seqZ 0 256).
End EndpointSet.

Module GroupEntry.
Record t : Type := mk { group : Z; endpoints : EndpointSet.t }.
End GroupEntry.

Module GroupTable.
Record t (K : nat) : Type := mk { entries : list GroupEntry.t }.
Arguments mk {K} _.
Arguments entries {K} _.

Definition new K : t K := mk [].

Section table.
Context {H : Heapless} {K : nat}.

Definition of_group (g : Z) (e : GroupEntry.t) : bool := GroupEntry.group e =? g.

Definition on_endpoints (f : EndpointSet.t → EndpointSet.t) (e : GroupEntry.t) : GroupEntry.t :=
  GroupEntry.mk (GroupEntry.group e) (f (GroupEntry.endpoints e)).

Definition add (s : t K) (group endpoint : Z) : result unit ApsStatus.t * t K :=
  if (endpoint =? Endpoint.ZDO) || (endpoint =? Endpoint.BROADCAST) then (Err ApsStatus.InvalidParameter, s)
  else
    match List.find (of_group group) (entries s) with
    | Some _ =>
        (Ok tt, mk (update_first (of_group group)
          (on_endpoints (λ es, EndpointSet.insert es endpoint)) (entries s)))
    | None =>
        let endpoints := EndpointSet.insert EndpointSet.EMPTY endpoint in
        match vec_push K (entries s) (GroupEntry.mk group endpoints) with
        | Ok es => (Ok tt, mk es)
        | Err _ => (Err ApsStatus.TableFull, s)
        end
    end.

Definition remove (s : t K) (group endpoint : Z) : result unit ApsStatus.t * t K :=
  match position (of_group group) (entries s) with
  | None => (Err ApsStatus.InvalidGroup, s)
  | Some i =>
      match entries s !! i with
      | None => (Err ApsStatus.InvalidGroup, s)
      | Some entry =>
          if negb (EndpointSet.contains (GroupEntry.endpoints entry) endpoint)
          then (Err ApsStatus.InvalidGroup, s)
          else
            let entry := on_endpoints (λ es, EndpointSet.remove es endpoint) entry in
            let es := <[i:=entry]> (entries s) in
            if EndpointSet.is_empty (GroupEntry.endpoints entry)
            then (Ok tt, match vec_swap_remove es i with Some (_, es) => mk es | None => mk es end)
            else (Ok tt, mk es)
      end
  end.

Definition remove_all (s : t K) (endpoint : Z) : t K :=
  let es := on_endpoints (λ es, EndpointSet.remove es endpoint) <$> entries s in
  mk (vec_retain es (λ e, negb (EndpointSet.is_empty (GroupEntry.endpoints e)))).

Definition endpoints (s : t K) (group : Z) : EndpointSet.t :=
  match List.find (of_group group) (entries s) with
  | Some e => GroupEntry.endpoints e
  | None => EndpointSet.EMPTY
  end.

Definition is_member (s : t K) (group : Z) : bool := existsb (of_group group) (entries s).
Definition contains (s : t K) (group endpoint : Z) : bool :=
  EndpointSet.contains (endpoints s group) endpoint.
Definition len (s : t K) : nat := length (entries s).
Definition is_empty (s : t K) : bool := (len s =? 0)%nat.
Definition clear (s : t K) : t K := mk (vec_clear (entries s)).
End table.
End GroupTable.

(** ** Duplicate rejection *)

Module DuplicateRecord.
Record t : Type := mk { src : Z; counter : Z; expires : Z }.
End DuplicateRecord.

Module DuplicateRejectionTable.
Record t (K : nat) : Type := mk { entries : list DuplicateRecord.t }.
Arguments mk {K} _.
Arguments entries {K} _.

Definition new K : t K := mk [].

Section table.
Context {H : Heapless} {K : nat}.

Definition same (p : Z * Z) (e : DuplicateRecord.t) : bool :=
  (DuplicateRecord.src e =? p.1) && (DuplicateRecord.counter e =? p.2).

Definition sooner (a b : DuplicateRecord.t) : bool :=
  DuplicateRecord.expires a <? DuplicateRecord.expires b.

Definition live (now : Z) (e : DuplicateRecord.t) : bool :=
  negb (Instant.has_reached now (DuplicateRecord.expires e)).

Definition check_and_record (s : t K) (src counter now lifetime : Z) : bool * t K :=
  let es := vec_retain (entries s) (live now) in
  let expires := Instant.saturating_add now lifetime in
  match List.find (same (src, counter)) es with
  | Some _ =>
      (true, mk (update_first (same (src, counter))
        (λ e, DuplicateRecord.mk (DuplicateRecord.src e) (DuplicateRecord.counter e) expires) es))
  | None =>
      let rec := DuplicateRecord.mk src counter expires in
      match vec_push K es rec with
      | Ok es => (false, mk es)
      | Err _ =>
          let es :=
            match min_by (λ _, true) sooner 0 None es with
            | Some (i, _) => match vec_swap_remove es i with Some (_, es) => es | None => es end
            | None => es
            end in
          (false, match vec_push K es rec with Ok es => mk es | Err _ => mk es end)
      end
  end.

Definition len (s : t K) : nat := length (entries s).
Definition is_empty (s : t K) : bool := (len s =? 0)%nat.
Definition clear (s : t K) : t K := mk (vec_clear (entries s)).
End table.
End DuplicateRejectionTable.

(** ** The binding table is a bounded set of links *)

#[global] Instance binding_destination_countable : Countable BindingDestination.t.
Proof.
  refine (inj_countable'
    (λ d, match d with BindingDestination.Unicast a e => inl (a, e) | BindingDestination.Group g => inr g end)
    (λ x, match x with inl (a, e) => BindingDestination.Unicast a e | inr g => BindingDestination.Group g end) _).
  by intros [].
Defined.

#[global] Instance binding_entry_countable : Countable BindingEntry.t.
Proof.
  refine (inj_countable'
    (λ e, (BindingEntry.src_endpoint e, BindingEntry.cluster e, BindingEntry.destination e))
    (λ x, BindingEntry.mk x.1.1 x.1.2 x.2) _).
  by intros [].
Defined.

Inductive binding_op : Type :=
  | OBind (e : BindingEntry.t)
  | OUnbind (e : BindingEntry.t)
  | ORemoveDevice (address : Z).

Section binding.
Context {H : Heapless} {K : nat}.
Implicit Types (s : BindingTable.t K) (e : BindingEntry.t) (m : gset BindingEntry.t).

Definition binding_exec s (o : binding_op) : result unit ApsStatus.t * BindingTable.t K :=
  match o with
  | OBind e => BindingTable.bind s e
  | OUnbind e => BindingTable.unbind s e
  | ORemoveDevice a => (Ok tt, (BindingTable.remove_device s a).2)
  end.

(** A link that joins application endpoints. *)
Definition legal_link e : bool :=
  negb (BindingTable.unbindable (BindingEntry.src_endpoint e)) &&
  negb (BindingTable.illegal_destination (BindingEntry.destination e)).

(** The contract: a set of at most [K] links. *)
Definition binding_spec m (o : binding_op) : result unit ApsStatus.t * gset BindingEntry.t :=
  match o with
  | OBind e =>
      if negb (legal_link e) then (Err ApsStatus.IllegalRequest, m)
      else if decide (e ∈ m ∨ (size m < K)%nat) then (Ok tt, {[e]} ∪ m)
      else (Err ApsStatus.TableFull, m)
  | OUnbind e => if decide (e ∈ m) then (Ok tt, m ∖ {[e]}) else (Err ApsStatus.InvalidBinding, m)
  | ORemoveDevice a => (Ok tt, filter (λ e, BindingTable.targets a e = false) m)
  end.

Definition links s : gset BindingEntry.t := list_to_set (BindingTable.entries s).

Definition binding_wf s : Prop :=
  NoDup (BindingTable.entries s) ∧ (BindingTable.len s ≤ K)%nat.

Lemma size_links s : binding_wf s → size (links s) = BindingTable.len s.
Proof. intros [Hnd _]. by apply size_list_to_set. Qed.

Lemma elem_links s e : e ∈ links s ↔ e ∈ BindingTable.entries s.
Proof. apply elem_of_list_to_set. Qed.

Lemma bind_refines s e :
  binding_wf s →
  let '(r, s') := BindingTable.bind s e in
  binding_wf s' ∧ (r, links s') = binding_spec (links s) (OBind e).
Proof.
  intros Hwf. pose proof (size_links s Hwf) as Hsz. unfold binding_spec, legal_link, BindingTable.bind.
  destruct (BindingTable.unbindable _); simpl; [done|].
  destruct (BindingTable.illegal_destination _); simpl; [done|].
  case_bool_decide as Hin; simpl.
  { apply elem_links in Hin. rewrite decide_True by auto. split; [done|]. f_equal. set_solver. }
  destruct Hwf as [Hnd Hl]. unfold BindingTable.len in *.
  destruct (vec_push_cases K (BindingTable.entries s) e) as [[Hlt ->]|[Hge ->]].
  - rewrite decide_True by (right; lia). split.
    + split; unfold BindingTable.len; simpl; [|len].
      apply NoDup_app. split_and!; [done| |apply NoDup_singleton].
      intros x Hx ->%list_elem_of_singleton. done.
    + f_equal. unfold links. simpl. rewrite list_to_set_app_L. set_solver.
  - rewrite decide_False; [by split|]. rewrite elem_links. intros [|]; [done|lia].
Qed.

Lemma unbind_refines s e :
  binding_wf s →
  let '(r, s') := BindingTable.unbind s e in
  binding_wf s' ∧ (r, links s') = binding_spec (links s) (OUnbind e).
Proof.
  intros Hwf. unfold binding_spec, BindingTable.unbind.
  destruct (position _ _) as [i|] eqn:E.
  - apply position_Some in E as (x & Hi & Hx%bool_decide_eq_true & _). subst x.
    destruct (swap_remove_Permutation (BindingTable.entries s) i e Hi) as (l' & -> & Hp).
    rewrite decide_True by (apply elem_links; by eapply list_elem_of_lookup_2).
    destruct Hwf as [Hnd Hl]. pose proof Hnd as Hnd'. rewrite Hp in Hnd'. apply NoDup_cons in Hnd' as [He Hnd'].
    split; [split; [done|]|].
    + unfold BindingTable.len in *. simpl. rewrite Hp in Hl. simpl in Hl. lia.
    + f_equal. unfold links. simpl. rewrite Hp. simpl. set_solver.
  - rewrite decide_False; [done|]. rewrite elem_links. intros Hin.
    apply position_None with (x := e) in E; [|done]. by rewrite bool_decide_eq_false in E.
Qed.

Lemma remove_device_refines s a :
  binding_wf s →
  let s' := (BindingTable.remove_device s a).2 in
  binding_wf s' ∧ links s' = filter (λ e, BindingTable.targets a e = false) (links s).
Proof.
  intros [Hnd Hl]. unfold BindingTable.remove_device, binding_wf, BindingTable.len, links in *. simpl.
  rewrite vec_retain_spec. split_and!.
  - rewrite <- (list_fmap_id (List.filter _ _)). apply NoDup_keys_filter. by rewrite list_fmap_id.
  - etrans; [|exact Hl]. apply List.filter_length_le.
  - apply set_eq. intros e. rewrite elem_of_filter, !elem_of_list_to_set, !list_elem_of_In, filter_In.
    rewrite negb_true_iff. tauto.
Qed.

Lemma binding_step_refines s o :
  binding_wf s →
  binding_wf (binding_exec s o).2 ∧
  binding_spec (links s) o = ((binding_exec s o).1, links (binding_exec s o).2).
Proof.
  intros Hwf. destruct o as [e|e|a]; cbn [binding_exec].
  - pose proof (bind_refines s e Hwf) as Hb. destruct (BindingTable.bind s e) as [r s'].
    by destruct Hb as [Hw <-].
  - pose proof (unbind_refines s e Hwf) as Hb. destruct (BindingTable.unbind s e) as [r s'].
    by destruct Hb as [Hw <-].
  - destruct (remove_device_refines s a Hwf) as [Hw He]. split; [done|]. simpl in He |- *. by rewrite He.
Qed.

(** The destinations of a link source: each once, and exactly those bound. *)
Lemma destinations_spec s ep c :
  binding_wf s →
  NoDup (BindingTable.destinations s ep c) ∧
  ∀ d, d ∈ BindingTable.destinations s ep c ↔ BindingEntry.mk ep c d ∈ links s.
Proof.
  intros [Hnd _]. unfold BindingTable.destinations, links. split.
  - clear -Hnd. induction Hnd as [|[a b d] l Hx Hnd IH]; simpl; [constructor|].
    destruct (Z.eqb_spec a ep), (Z.eqb_spec b c); simpl; try done. subst. constructor; [|done].
    intros ([a b d'] & -> & [Hin Hk]%list_elem_of_In%filter_In)%list_elem_of_fmap.
    simpl in *. apply andb_true_iff in Hk as [->%Z.eqb_eq ->%Z.eqb_eq]. by apply Hx, list_elem_of_In.
  - intros d. rewrite elem_of_list_to_set, list_elem_of_fmap. split.
    + intros ([a b d'] & -> & [Hin Hk]%list_elem_of_In%filter_In).
      simpl in *. apply andb_true_iff in Hk as [->%Z.eqb_eq ->%Z.eqb_eq]. by apply list_elem_of_In.
    + intros Hin. eexists. split; [|apply list_elem_of_In, filter_In; split; [by apply list_elem_of_In|]]; [done|].
      simpl. by rewrite !Z.eqb_refl.
Qed.
End binding.

(** The binding table is a bounded set of links: every sequence of bind,
    unbind and remove-device requests on a fresh table gets the answers of a
    set of at most [K] links (illegal endpoints refused, a repeated link
    accepted without change, a full table refused, an unknown link not
    removed), and afterwards the destinations of an endpoint and cluster are
    exactly the links of the set, each once. *)
Theorem binding_table_refines {H : Heapless} (K : nat) (ops : list binding_op) (ep c : Z) :
  let '(rs, s) := run binding_exec (BindingTable.new K) ops in
  let '(rs', m) := run (binding_spec (K:=K)) ∅ ops in
  rs = rs' ∧ size m = BindingTable.len s ∧ (BindingTable.len s ≤ K)%nat ∧
  NoDup (BindingTable.destinations s ep c) ∧
  ∀ d, d ∈ BindingTable.destinations s ep c ↔ BindingEntry.mk ep c d ∈ m.
Proof.
  destruct (run_simulates binding_wf links (λ _, True) binding_exec (binding_spec (K:=K))
    (λ s o Hs _, binding_step_refines s o Hs) ops (BindingTable.new K)) as [Hs Hr].
  { split; [constructor|]. unfold BindingTable.len. simpl. lia. }
  { by apply Forall_true. }
  change (links (BindingTable.new K)) with (∅ : gset BindingEntry.t) in Hr. rewrite Hr.
  destruct (run binding_exec _ ops) as [rs s]. simpl in *.
  pose proof (destinations_spec s ep c Hs) as [Hnd Hd].
  split_and!; [done|by apply size_links|by destruct Hs|done|done].
Qed.

(** ** The endpoint bitmap is a set of endpoints *)

Section endpoint_set.
Implicit Types s : EndpointSet.t.

Definition bitmap_ok s : Prop := length s = 8%nat ∧ Forall (uint 32) s.

Lemma contains_testbit s ep w :
  s !! Z.to_nat (ep / 32) = Some w → EndpointSet.contains s ep = Z.testbit w (ep mod 32).
Proof.
  intros Hw. unfold EndpointSet.contains, EndpointSet.slot. rewrite Hw, Z.shiftl_1_l.
  apply flag_testbit. apply Z.mod_pos_bound. lia.
Qed.

Lemma bitmap_lookup s ep :
  bitmap_ok s → uint 8 ep → ∃ w, s !! Z.to_nat (ep / 32) = Some w ∧ uint 32 w.
Proof.
  intros [Hl Hw] Hep. unfold uint in Hep.
  assert (ep / 32 < 8) by (apply Z.div_lt_upper_bound; lia).
  destruct (lookup_lt_is_Some_2 s (Z.to_nat (ep / 32))) as [w Hs]; [lia|].
  exists w. split; [done|]. by eapply Forall_lookup_1.
Qed.

(** Two endpoints share a word and a bit only when they are equal. *)
Lemma slot_inj a b :
  uint 8 a → uint 8 b → Z.to_nat (a / 32) = Z.to_nat (b / 32) → a mod 32 = b mod 32 → a = b.
Proof.
  intros [Ha _] [Hb _] Hd Hm. pose proof (Z.div_pos a 32 Ha). pose proof (Z.div_pos b 32 Hb).
  rewrite (Z.div_mod a 32), (Z.div_mod b 32) by lia. lia.
Qed.

(** An update of the word of [a] that sets its bit to [v] and no other. *)
Lemma contains_alter s a b f v :
  bitmap_ok s → uint 8 a → uint 8 b →
  (∀ w i, uint 32 w → 0 ≤ i < 32 →
    Z.testbit (f w) i = if decide (i = a mod 32) then v else Z.testbit w i) →
  EndpointSet.contains (alter f (Z.to_nat (a / 32)) s) b =
    if decide (b = a) then v else EndpointSet.contains s b.
Proof.
  intros Hs Ha Hb Hf. destruct (bitmap_lookup s b Hs Hb) as (w & Hw & Hu).
  assert (0 ≤ b mod 32 < 32) as Hm by (apply Z.mod_pos_bound; lia).
  destruct (decide (Z.to_nat (a / 32) = Z.to_nat (b / 32))) as [E|E].
  - rewrite (contains_testbit _ b (f w)) by (by rewrite E, list_lookup_alter_eq, Hw).
    rewrite Hf, (contains_testbit s b w Hw) by done.
    destruct (decide (b mod 32 = a mod 32)) as [E'|E'].
    + rewrite decide_True; [done|]. by apply slot_inj.
    + rewrite decide_False; [done|]. by intros ->.
  - rewrite (contains_testbit _ b w) by (by rewrite list_lookup_alter_ne).
    rewrite (contains_testbit s b w Hw), decide_False; [done|]. by intros ->.
Qed.

Lemma alter_ok s i f : bitmap_ok s → (∀ w, uint 32 w → uint 32 (f w)) → bitmap_ok (alter f i s).
Proof.
  intros [Hl Hs] Hf. split; [by rewrite length_alter|].
  apply Forall_lookup. intros j w. rewrite list_lookup_alter. case_decide; [|by eapply Forall_lookup_1].
  destruct (s !! i) as [x|] eqn:Hx; simpl; [|done]. intros [= <-]. apply Hf. by eapply Forall_lookup_1.
Qed.

Lemma insert_ok s a : bitmap_ok s → uint 8 a → bitmap_ok (EndpointSet.insert s a).
Proof.
  intros Hs Ha. apply alter_ok; [done|]. intros w Hw.
  rewrite Z.shiftl_1_l. apply (uint_with_bit 32 w _ true); [|done]. apply Z.mod_pos_bound. lia.
Qed.

Lemma remove_ok s a : bitmap_ok s → bitmap_ok (EndpointSet.remove s a).
Proof. intros Hs. apply alter_ok; [done|]. intros w Hw. by apply uint_land. Qed.

Lemma contains_insert s a b :
  bitmap_ok s → uint 8 a → uint 8 b →
  EndpointSet.contains (EndpointSet.insert s a) b = bool_decide (b = a) || EndpointSet.contains s b.
Proof.
  intros Hs Ha Hb. unfold EndpointSet.insert, EndpointSet.slot.
  rewrite (contains_alter s a b _ true); [by case_bool_decide; case_decide|done..|].
  intros w i Hw Hi. rewrite Z.shiftl_1_l.
  apply (testbit_with_bit 32 w (a mod 32) true); [|done]. apply Z.mod_pos_bound. lia.
Qed.

Lemma contains_remove s a b :
  bitmap_ok s → uint 8 a → uint 8 b →
  EndpointSet.contains (EndpointSet.remove s a) b = negb (bool_decide (b = a)) && EndpointSet.contains s b.
Proof.
  intros Hs Ha Hb. unfold EndpointSet.remove, EndpointSet.slot.
  rewrite (contains_alter s a b _ false); [by case_bool_decide; case_decide|done..|].
  intros w i Hw Hi. rewrite Z.shiftl_1_l.
  apply (testbit_with_bit 32 w (a mod 32) false); [|done]. apply Z.mod_pos_bound. lia.
Qed.

Lemma contains_empty ep : EndpointSet.contains EndpointSet.EMPTY ep = false.
Proof.
  unfold EndpointSet.contains, EndpointSet.slot, EndpointSet.EMPTY.
  destruct (replicate 8 0 !! _) as [w|] eqn:E; [|done]. apply lookup_replicate in E as [-> _]. done.
Qed.

Lemma EMPTY_ok : bitmap_ok EndpointSet.EMPTY.
Proof. split; [done|]. apply Forall_replicate. by apply uint_0. Qed.

Lemma is_empty_spec s :
  bitmap_ok s →
  EndpointSet.is_empty s = true ↔ ∀ ep, uint 8 ep → EndpointSet.contains s ep = false.
Proof.
  intros Hs. pose proof Hs as [Hl Hu]. unfold EndpointSet.is_empty. rewrite forallb_forall. split.
  - intros Hz ep Hep. destruct (bitmap_lookup s ep Hs Hep) as (w & Hw & _).
    rewrite (contains_testbit s ep w Hw). rewrite (proj1 (Z.eqb_eq w 0)); [apply Z.bits_0|].
    apply Hz, list_elem_of_In. by eapply list_elem_of_lookup_2.
  - intros He w [i Hw]%list_elem_of_In%list_elem_of_lookup. apply Z.eqb_eq, Z.bits_inj'. intros k Hk.
    rewrite Z.bits_0. destruct (decide (k < 32)) as [Hlt|Hge].
    2: { apply (uint_testbit 32); [|lia]. by eapply Forall_lookup_1. }
    pose proof (lookup_lt_Some _ _ _ Hw) as Hi. rewrite Hl in Hi.
    assert ((Z.of_nat i * 32 + k) / 32 = Z.of_nat i) as Ed
      by (rewrite Z.add_comm, Z.div_add, Z.div_small by lia; lia).
    assert ((Z.of_nat i * 32 + k) mod 32 = k) as Em
      by (rewrite Z.add_comm, Z.mod_add, Z.mod_small by lia; lia).
    rewrite <- Em, <- (contains_testbit s (Z.of_nat i * 32 + k) w).
    + apply He. unfold uint. lia.
    + by rewrite Ed, Nat2Z.id.
Qed.

(** The members of a bitmap. *)
Definition members s : gset Z := list_to_set (EndpointSet.iter s).

Lemma elem_iter s ep : ep ∈ EndpointSet.iter s ↔ ep ∈ members s.
Proof. unfold members. by rewrite elem_of_list_to_set. Qed.

Lemma elem_members s ep : ep ∈ members s ↔ uint 8 ep ∧ EndpointSet.contains s ep = true.
Proof.
  unfold members, EndpointSet.iter. rewrite elem_of_list_to_set, list_elem_of_In, filter_In.
  rewrite <- list_elem_of_In, elem_of_seqZ. unfold uint. change (2 ^ 8) with 256. intuition lia.
Qed.

Lemma members_insert s ep :
  bitmap_ok s → uint 8 ep → members (EndpointSet.insert s ep) = {[ep]} ∪ members s.
Proof.
  intros Hs Hep. apply set_eq. intros x. rewrite elem_of_union, elem_of_singleton, !elem_members.
  destruct (decide (uint 8 x)) as [Hx|Hx].
  - rewrite contains_insert, orb_true_iff, bool_decide_eq_true by done. tauto.
  - split; [tauto|]. intros [->|]; tauto.
Qed.

Lemma members_remove s ep :
  bitmap_ok s → uint 8 ep → members (EndpointSet.remove s ep) = members s ∖ {[ep]}.
Proof.
  intros Hs Hep. apply set_eq. intros x. rewrite elem_of_difference, elem_of_singleton, !elem_members.
  destruct (decide (uint 8 x)) as [Hx|Hx]; [|tauto].
  rewrite contains_remove, andb_true_iff, negb_true_iff, bool_decide_eq_false by done. tauto.
Qed.

Lemma members_is_empty s : bitmap_ok s → EndpointSet.is_empty s = true ↔ members s = ∅.
Proof.
  intros Hs. rewrite is_empty_spec by done. split.
  - intros He. apply set_eq. intros x. rewrite elem_members. split; [|set_solver].
    intros [Hx Hc]. by rewrite He in Hc.
  - intros He ep Hep. destruct (EndpointSet.contains s ep) eqn:E; [|done].
    assert (ep ∈ members s) as Hin by (by apply elem_members). rewrite He in Hin. set_solver.
Qed.

Lemma members_empty : members EndpointSet.EMPTY = ∅.
Proof. apply members_is_empty; [apply EMPTY_ok|done]. Qed.
End endpoint_set.

(** ** The group table is a bounded relation of groups and endpoints *)

#[global] Instance of_group_test : KeyTest GroupEntry.group GroupTable.of_group.
Proof. intros p e. apply Z.eqb_eq. Qed.

Inductive group_op : Type :=
  | OAdd (group endpoint : Z)
  | ORemove (group endpoint : Z)
  | ORemoveAll (endpoint : Z).

(** The endpoint of a request is an octet. *)
Definition group_op_ok (o : group_op) : Prop :=
  match o with OAdd _ ep | ORemove _ ep | ORemoveAll ep => uint 8 ep end.

Section group.
Context {H : Heapless} {K : nat}.
Implicit Types (s : GroupTable.t K) (m : gset (Z * Z)).

Definition group_exec s (o : group_op) : result unit ApsStatus.t * GroupTable.t K :=
  match o with
  | OAdd g ep => GroupTable.add s g ep
  | ORemove g ep => GroupTable.remove s g ep
  | ORemoveAll ep => (Ok tt, GroupTable.remove_all s ep)
  end.

Definition groups m : gset Z := set_map fst m.

(** The contract: a set of memberships in at most [K] groups. *)
Definition group_spec m (o : group_op) : result unit ApsStatus.t * gset (Z * Z) :=
  match o with
  | OAdd g ep =>
      if (ep =? Endpoint.ZDO) || (ep =? Endpoint.BROADCAST) then (Err ApsStatus.InvalidParameter, m)
      else if decide (g ∈ groups m ∨ (size (groups m) < K)%nat) then (Ok tt, {[(g, ep)]} ∪ m)
      else (Err ApsStatus.TableFull, m)
  | ORemove g ep =>
      if decide ((g, ep) ∈ m) then (Ok tt, m ∖ {[(g, ep)]}) else (Err ApsStatus.InvalidGroup, m)
  | ORemoveAll ep => (Ok tt, filter (λ p, p.2 ≠ ep) m)
  end.

(** One entry per group, none of them empty. *)
Definition group_entry_ok (e : GroupEntry.t) : Prop :=
  bitmap_ok (GroupEntry.endpoints e) ∧ EndpointSet.is_empty (GroupEntry.endpoints e) = false.

Definition group_wf s : Prop :=
  NoDup (GroupEntry.group <$> GroupTable.entries s) ∧ (GroupTable.len s ≤ K)%nat ∧
  Forall group_entry_ok (GroupTable.entries s).

Definition memberships s : gset (Z * Z) :=
  list_to_set (GroupTable.entries s ≫= λ e,
    pair (GroupEntry.group e) <$> EndpointSet.iter (GroupEntry.endpoints e)).

Lemma elem_memberships s g ep :
  (g, ep) ∈ memberships s ↔
  ∃ e, e ∈ GroupTable.entries s ∧ GroupEntry.group e = g ∧ ep ∈ members (GroupEntry.endpoints e).
Proof.
  unfold memberships. rewrite elem_of_list_to_set, list_elem_of_bind. split.
  - intros (e & (x & [= -> ->] & Hx)%list_elem_of_fmap & He). exists e. split_and!; [done..|].
    by apply elem_iter.
  - intros (e & He & <- & Hx%elem_iter). exists e. split; [|done]. by apply list_elem_of_fmap_2.
Qed.

Lemma elem_endpoints s g ep :
  group_wf s → (g, ep) ∈ memberships s ↔ ep ∈ members (GroupTable.endpoints s g).
Proof.
  intros (Hnd & _). rewrite elem_memberships. unfold GroupTable.endpoints. split.
  - intros (e & He & Hg & Hep). by rewrite (find_key_elem GroupEntry.group g _ e).
  - destruct (List.find _ _) as [e|] eqn:E; [|rewrite members_empty; set_solver].
    apply (find_key_Some GroupEntry.group) in E as [He Hg]. eauto.
Qed.

Lemma elem_groups s g : group_wf s → g ∈ groups (memberships s) ↔ g ∈ GroupEntry.group <$> GroupTable.entries s.
Proof.
  intros (_ & _ & Hok). unfold groups. rewrite elem_of_map. split.
  - intros ([g' ep] & -> & (e & He & <- & _)%elem_memberships).
    by apply (list_elem_of_fmap_2 GroupEntry.group).
  - intros (e & -> & He)%list_elem_of_fmap. rewrite Forall_forall in Hok. destruct (Hok e He) as [Hb Hne].
    destruct (set_choose_or_empty (members (GroupEntry.endpoints e))) as [[ep Hep]|Hem].
    + exists (GroupEntry.group e, ep). split; [done|]. apply elem_memberships. eauto.
    + apply leibniz_equiv, members_is_empty in Hem; [congruence|done].
Qed.

Lemma size_groups s : group_wf s → size (groups (memberships s)) = GroupTable.len s.
Proof.
  intros Hwf. replace (groups (memberships s)) with
    (list_to_set (GroupEntry.group <$> GroupTable.entries s) : gset Z).
  - rewrite size_list_to_set by apply Hwf. unfold GroupTable.len. by rewrite length_fmap.
  - apply set_eq. intros g. by rewrite elem_of_list_to_set, elem_groups.
Qed.

Lemma memberships_ext s m :
  group_wf s →
  (∀ g ep, (g, ep) ∈ m ↔ ep ∈ members (GroupTable.endpoints s g)) → memberships s = m.
Proof. intros Hwf Hm. apply set_eq. intros [g ep]. by rewrite Hm, elem_endpoints. Qed.

Lemma endpoints_ok s g : group_wf s → bitmap_ok (GroupTable.endpoints s g).
Proof.
  intros (_ & _ & Hok). unfold GroupTable.endpoints. destruct (List.find _ _) as [e|] eqn:E; [|apply EMPTY_ok].
  apply (find_key_Some GroupEntry.group) in E as [He _]. rewrite Forall_forall in Hok. by apply Hok.
Qed.

Lemma insert_entry_ok g es ep :
  bitmap_ok es → uint 8 ep → group_entry_ok (GroupEntry.mk g (EndpointSet.insert es ep)).
Proof.
  intros Hes Hep. pose proof (insert_ok es ep Hes Hep) as Hok. split; [done|]. simpl.
  apply not_true_iff_false. rewrite members_is_empty, members_insert by done. set_solver.
Qed.

(** Whatever happens to the endpoints of one group leaves the others alone. *)
Lemma endpoints_update s g f :
  let s' : GroupTable.t K := GroupTable.mk (update_first (GroupTable.of_group g) (GroupTable.on_endpoints f)
    (GroupTable.entries s)) in
  (∀ g', g' ≠ g → GroupTable.endpoints s' g' = GroupTable.endpoints s g') ∧
  (is_Some (List.find (GroupTable.of_group g) (GroupTable.entries s)) →
   GroupTable.endpoints s' g = f (GroupTable.endpoints s g)).
Proof.
  unfold GroupTable.endpoints. simpl. split.
  - intros g' Hne. by rewrite (find_key_update_ne GroupEntry.group).
  - intros [e He]. by rewrite (find_key_update GroupEntry.group), He.
Qed.

Lemma add_refines s g ep :
  group_wf s → uint 8 ep →
  group_wf (GroupTable.add s g ep).2 ∧
  group_spec (memberships s) (OAdd g ep) =
    ((GroupTable.add s g ep).1, memberships (GroupTable.add s g ep).2).
Proof.
  intros Hwf Hep. pose proof Hwf as (Hnd & Hl & Hok). unfold group_spec, GroupTable.add.
  destruct ((ep =? Endpoint.ZDO) || (ep =? Endpoint.BROADCAST)); [done|].
  destruct (List.find _ _) as [e|] eqn:E; cbn [fst snd].
  - destruct (endpoints_update s g (λ es, EndpointSet.insert es ep)) as [Ho Hg]. rewrite E in Hg.
    set (s' := GroupTable.mk _ : GroupTable.t K) in *.
    assert (group_wf s') as Hwf'.
    { unfold s', group_wf, GroupTable.len. cbn [GroupTable.entries].
      rewrite length_update_first, (keys_update_first GroupEntry.group) by done. split_and!; [done..|].
      apply Forall_update_first; [|done]. intros x [Hx _]. by apply insert_entry_ok. }
    rewrite decide_True. 2: { left. apply elem_groups; [done|].
      apply (find_key_Some GroupEntry.group) in E as [He <-]. by apply list_elem_of_fmap_2. }
    split; [done|]. f_equal. symmetry. apply memberships_ext; [done|]. intros g' x.
    rewrite elem_of_union, elem_of_singleton, elem_endpoints by done.
    destruct (decide (g' = g)) as [->|Hne].
    + rewrite Hg, members_insert by (eauto using endpoints_ok). set_solver.
    + rewrite Ho by done. set_solver.
  - apply (find_key_None GroupEntry.group) in E.
    destruct (vec_push_cases K (GroupTable.entries s)
      (GroupEntry.mk g (EndpointSet.insert EndpointSet.EMPTY ep))) as [[Hlt ->]|[Hge ->]]; cbn [fst snd].
    + rewrite decide_True by (right; rewrite size_groups by done; done).
      set (s' := GroupTable.mk _ : GroupTable.t K).
      assert (group_wf s') as Hwf'.
      { unfold s', group_wf, GroupTable.len. cbn [GroupTable.entries]. split_and!; [by apply NoDup_keys_snoc|len|].
        apply Forall_app. split; [done|]. apply Forall_singleton, insert_entry_ok; [apply EMPTY_ok|done]. }
      split; [done|]. f_equal. symmetry. apply memberships_ext; [done|]. intros g' x.
      rewrite elem_of_union, elem_of_singleton, elem_endpoints by done.
      unfold GroupTable.endpoints, s'. cbn [GroupTable.entries]. destruct (decide (g' = g)) as [->|Hne].
      * rewrite (find_key_snoc GroupEntry.group), (proj2 (find_key_None GroupEntry.group g _)) by done.
        cbn [GroupEntry.endpoints]. rewrite members_insert by (done || apply EMPTY_ok). set_solver.
      * rewrite (find_key_snoc_ne GroupEntry.group) by done. set_solver.
    + rewrite decide_False; [done|]. rewrite size_groups, elem_groups by done.
      unfold GroupTable.len. intros [|]; [done|lia].
Qed.

(** Removing a membership, with or without the entry of the group. *)
Lemma remove_refines s g ep :
  group_wf s → uint 8 ep →
  group_wf (GroupTable.remove s g ep).2 ∧
  group_spec (memberships s) (ORemove g ep) =
    ((GroupTable.remove s g ep).1, memberships (GroupTable.remove s g ep).2).
Proof.
  intros Hwf Hep. pose proof Hwf as (Hnd & Hl & Hok). unfold group_spec, GroupTable.remove.
  assert ((g, ep) ∈ memberships s ↔ EndpointSet.contains (GroupTable.endpoints s g) ep = true) as Hin.
  { rewrite elem_endpoints, elem_members by done. tauto. }
  destruct (position _ _) as [i|] eqn:Ei.
  2: { rewrite decide_False; [done|]. rewrite Hin. unfold GroupTable.endpoints.
    rewrite (proj2 (find_None _ _) (proj1 (position_None _ _) Ei)), contains_empty. done. }
  pose proof Ei as (e & Hi & Hg%key_test & _)%position_Some. rewrite Hi.
  assert (GroupTable.endpoints s g = GroupEntry.endpoints e) as Ee.
  { unfold GroupTable.endpoints. rewrite (find_key_elem GroupEntry.group g _ e); [done|done| |done].
    by eapply list_elem_of_lookup_2. }
  rewrite Ee in Hin. pose proof (Forall_lookup_1 _ _ _ _ Hok Hi) as [Hbo Hne].
  destruct (EndpointSet.contains (GroupEntry.endpoints e) ep) eqn:Ec; cbn [negb].
  2: { rewrite decide_False; [done|]. rewrite Hin. done. }
  rewrite decide_True by (by apply Hin).
  set (e' := GroupTable.on_endpoints _ e).
  destruct (position_key_insert GroupEntry.group (GroupTable.entries s) i e' g Hnd Ei) as (Hil & Hnd' & Hf); [done|].
  assert (bitmap_ok (GroupEntry.endpoints e')) as Hbo' by (by apply remove_ok).
  assert (∀ s', group_wf s' →
    (∀ g', g' ≠ g → GroupTable.endpoints s' g' = GroupTable.endpoints s g') →
    members (GroupTable.endpoints s' g) = members (GroupEntry.endpoints e') →
    memberships s ∖ {[(g, ep)]} = memberships s') as Hgoal.
  { intros s' Hwf' Ho Hs'. symmetry. apply memberships_ext; [done|]. intros g' x.
    rewrite elem_of_difference, elem_of_singleton, elem_endpoints by done.
    destruct (decide (g' = g)) as [->|Hg']; [|rewrite Ho by done; set_solver].
    rewrite Hs', Ee. unfold e'. simpl. rewrite members_remove by done. set_solver. }
  destruct (EndpointSet.is_empty (GroupEntry.endpoints e')) eqn:Em; cbn [fst snd].
  - assert (<[i:=e']> (GroupTable.entries s) !! i = Some e') as Hi' by (by apply list_lookup_insert_eq).
    destruct (swap_remove_Permutation _ i e' Hi') as (l' & Hr & Hp). rewrite Hr.
    destruct (swap_remove_keyed GroupEntry.group _ i e' l' Hnd' Hi' Hr) as (Hnd2 & Hl2 & Hx & Hf2).
    set (s' := GroupTable.mk l' : GroupTable.t K).
    assert (group_wf s') as Hwf'.
    { unfold s', group_wf, GroupTable.len in *. cbn [GroupTable.entries].
      rewrite length_insert in Hl2. split_and!; [done|lia|].
      apply Forall_forall. intros x Hx'. assert (x ∈ <[i:=e']> (GroupTable.entries s)) as Hx2.
      { rewrite Hp. by right. }
      apply list_elem_of_insert_inv in Hx2 as [->|Hx2].
      - destruct Hx. by apply list_elem_of_fmap_2.
      - rewrite Forall_forall in Hok. by apply Hok. }
    split; [done|]. f_equal. apply Hgoal; [done| |]; unfold GroupTable.endpoints, s'; cbn [GroupTable.entries].
    + intros g' Hg'. rewrite Hf2, Hf, decide_False by (simpl; congruence). done.
    + rewrite (proj2 (find_key_None GroupEntry.group g l')) by (by rewrite <- Hg).
      rewrite members_empty. symmetry. by apply members_is_empty.
  - set (s' := GroupTable.mk _ : GroupTable.t K).
    assert (group_wf s') as Hwf'.
    { unfold s', group_wf, GroupTable.len in *. cbn [GroupTable.entries].
      rewrite length_insert. split_and!; [done..|]. by apply Forall_insert. }
    split; [done|]. f_equal. apply Hgoal; [done| |]; unfold GroupTable.endpoints, s'; cbn [GroupTable.entries].
    + intros g' Hg'. by rewrite Hf, decide_False.
    + by rewrite Hf, decide_True.
Qed.

Lemma remove_all_refines s ep :
  group_wf s → uint 8 ep →
  group_wf (GroupTable.remove_all s ep) ∧
  memberships (GroupTable.remove_all s ep) = filter (λ p, p.2 ≠ ep) (memberships s).
Proof.
  intros (Hnd & Hl & Hok) Hep. unfold GroupTable.remove_all, group_wf, GroupTable.len in *. cbn [GroupTable.entries].
  rewrite vec_retain_spec. set (strip := GroupTable.on_endpoints _). rewrite Forall_forall in Hok.
  assert (∀ e, e ∈ GroupTable.entries s →
    members (GroupEntry.endpoints (strip e)) = members (GroupEntry.endpoints e) ∖ {[ep]}) as Hm.
  { intros e He. apply members_remove; [by apply Hok|done]. }
  assert (∀ e, e ∈ strip <$> GroupTable.entries s → bitmap_ok (GroupEntry.endpoints e)) as Hb.
  { intros e (e0 & -> & He)%list_elem_of_fmap. by apply remove_ok, Hok. }
  split_and!.
  - apply NoDup_keys_filter. rewrite <- list_fmap_compose. done.
  - etrans; [apply List.filter_length_le|]. by rewrite length_fmap.
  - apply Forall_forall. intros e [He%list_elem_of_In Hne]%list_elem_of_In%filter_In.
    split; [by apply Hb|]. by apply negb_true_iff.
  - apply set_eq. intros [g x]. rewrite elem_of_filter, !elem_memberships. cbn [GroupTable.entries snd]. split.
    + intros (e & [(e0 & -> & He)%list_elem_of_In%list_elem_of_fmap _]%list_elem_of_In%filter_In & <- & Hx).
      rewrite Hm in Hx by done. split; [set_solver|]. exists e0. set_solver.
    + intros [Hne (e & He & <- & Hx)]. exists (strip e).
      assert (x ∈ members (GroupEntry.endpoints (strip e))) as Hx' by (rewrite Hm by done; set_solver).
      split_and!; [|done|done]. apply list_elem_of_In, filter_In. split.
      * apply list_elem_of_In. by apply list_elem_of_fmap_2.
      * apply negb_true_iff, not_true_iff_false. rewrite members_is_empty by (by apply Hb, list_elem_of_fmap_2).
        set_solver.
Qed.

Lemma group_step_refines s o :
  group_wf s → group_op_ok o →
  group_wf (group_exec s o).2 ∧
  group_spec (memberships s) o = ((group_exec s o).1, memberships (group_exec s o).2).
Proof.
  intros Hwf Ho. destruct o as [g ep|g ep|ep]; cbn [group_exec] in *.
  - by apply add_refines.
  - by apply remove_refines.
  - destruct (remove_all_refines s ep Hwf Ho) as [Hw He]. split; [done|]. simpl. by rewrite He.
Qed.

Lemma is_member_spec s g : group_wf s → GroupTable.is_member s g = true ↔ g ∈ groups (memberships s).
Proof.
  intros Hwf. rewrite elem_groups, list_elem_of_fmap by done. unfold GroupTable.is_member.
  rewrite existsb_exists. split.
  - intros (e & He%list_elem_of_In & Hg%key_test). by exists e.
  - intros (e & -> & He). exists e. split; [by apply list_elem_of_In|]. by apply key_test.
Qed.
End group.

(** The group table is a bounded relation of groups and endpoints: every
    sequence of add, remove and remove-all requests on a fresh table gets the
    answers of a set of memberships in at most [K] groups, and afterwards the
    table's membership tests are those of the set: the bitmaps never lose,
    invent or confuse an endpoint, and no empty group occupies an entry. *)
Theorem group_table_refines {H : Heapless} (K : nat) (ops : list group_op) :
  Forall group_op_ok ops →
  let '(rs, s) := run group_exec (GroupTable.new K) ops in
  let '(rs', m) := run (group_spec (K:=K)) ∅ ops in
  rs = rs' ∧ size (groups m) = GroupTable.len s ∧ (GroupTable.len s ≤ K)%nat ∧
  (∀ g ep, uint 8 ep → GroupTable.contains s g ep = bool_decide ((g, ep) ∈ m)) ∧
  (∀ g, GroupTable.is_member s g = bool_decide (g ∈ groups m)).
Proof.
  intros Hops. destruct (run_simulates group_wf memberships group_op_ok group_exec (group_spec (K:=K))
    group_step_refines ops (GroupTable.new K)) as [Hs Hr]; [|done|].
  { split_and!; [constructor| |constructor]. unfold GroupTable.len. simpl. lia. }
  change (memberships (GroupTable.new K)) with (∅ : gset (Z * Z)) in Hr. rewrite Hr.
  destruct (run group_exec _ ops) as [rs s]. cbn [fst snd] in *.
  split_and!; [done|by apply size_groups|apply Hs| |].
  - intros g ep Hep. unfold GroupTable.contains. apply eq_bool_prop_intro.
    rewrite bool_decide_spec, elem_endpoints, elem_members by done. rewrite Is_true_true. tauto.
  - intros g. apply eq_bool_prop_intro. by rewrite bool_decide_spec, Is_true_true, is_member_spec.
Qed.

Lemma group_table_refines_witness :
  let ops := [OAdd 7 1; OAdd 7 200; OAdd 9 3; OAdd 8 4; ORemove 7 1; ORemoveAll 3; OAdd 8 0] in
  let '(rs, s) := run group_exec (GroupTable.new 2) ops in
  rs = [Ok tt; Ok tt; Ok tt; Err ApsStatus.TableFull; Ok tt; Ok tt; Err ApsStatus.InvalidParameter] ∧
  (GroupTable.len s ≤ 2)%nat ∧ GroupTable.contains s 7 200 = true.
Proof.
  split_and!; [reflexivity| |reflexivity].
  refine (proj1 (proj2 (proj2 (group_table_refines 2
    [OAdd 7 1; OAdd 7 200; OAdd 9 3; OAdd 8 4; ORemove 7 1; ORemoveAll 3; OAdd 8 0] _)))).
  repeat constructor; simpl; unfold uint; lia.
Defined.

(** ** Duplicate rejection *)

Definition dup_key (e : DuplicateRecord.t) : Z * Z := (DuplicateRecord.src e, DuplicateRecord.counter e).

#[global] Instance dup_same_test : KeyTest dup_key DuplicateRejectionTable.same.
Proof.
  intros [a b] e. unfold DuplicateRejectionTable.same, dup_key. simpl.
  rewrite andb_true_iff, !Z.eqb_eq. split; [by intros [-> ->]|by intros [= -> ->]].
Qed.

Section duplicates.
Context {H : Heapless} {K : nat} (lifetime : Z).
Implicit Types (s : DuplicateRejectionTable.t K) (p q : Z * Z) (e : DuplicateRecord.t).

(** A frame: its source and counter, and when it arrived. *)
Definition arrival : Type := (Z * Z) * Z.

Definition dup_exec s (a : arrival) : bool * DuplicateRejectionTable.t K :=
  DuplicateRejectionTable.check_and_record s a.1.1 a.1.2 a.2 lifetime.

Definition expiry (a : arrival) : Z := Instant.saturating_add a.2 lifetime.

(** Every record stems from an arrival. *)
Definition dup_inv s (h : list arrival) : Prop :=
  NoDup (dup_key <$> DuplicateRejectionTable.entries s) ∧
  (length (DuplicateRejectionTable.entries s) ≤ K)%nat ∧
  ∀ e, e ∈ DuplicateRejectionTable.entries s →
    ∃ a, a ∈ h ∧ a.1 = dup_key e ∧ expiry a = DuplicateRecord.expires e.

(** The record that expires first. *)
Lemma soonest_spec (l : list DuplicateRecord.t) :
  match min_by (λ _, true) DuplicateRejectionTable.sooner 0 None l with
  | None => l = []
  | Some (i, v) => l !! i = Some v ∧ ∀ e, e ∈ l → DuplicateRecord.expires v ≤ DuplicateRecord.expires e
  end.
Proof.
  assert (is_min (λ _, true) DuplicateRejectionTable.sooner l
    (min_by (λ _, true) DuplicateRejectionTable.sooner 0 None l)) as Hm.
  { apply (min_by_spec (λ _, true) DuplicateRejectionTable.sooner) with (seen := []).
    - unfold DuplicateRejectionTable.sooner. intros. lia.
    - unfold DuplicateRejectionTable.sooner. intros. lia.
    - by intros x ?%not_elem_of_nil. }
  destruct (min_by _ _ _ _ _) as [[i v]|]; simpl in Hm.
  - destruct Hm as (Hi & _ & Hmin). split; [done|]. intros e He. specialize (Hmin e He eq_refl).
    unfold DuplicateRejectionTable.sooner in Hmin. lia.
  - destruct l as [|x l]; [done|]. discriminate (Hm x (list_elem_of_here _ _)).
Qed.

(** What a check does, given the records still live: refresh the record of the
    frame, add one, or replace the one that expires first. *)
Lemma check_cases s (a : arrival) :
  (0 < K)%nat → NoDup (dup_key <$> DuplicateRejectionTable.entries s) →
  (length (DuplicateRejectionTable.entries s) ≤ K)%nat →
  let es := List.filter (DuplicateRejectionTable.live a.2) (DuplicateRejectionTable.entries s) in
  let r := DuplicateRecord.mk a.1.1 a.1.2 (expiry a) in
  ∃ b es', dup_exec s a = (b, DuplicateRejectionTable.mk es') ∧
    NoDup (dup_key <$> es') ∧ (length es' ≤ K)%nat ∧ (b = true ↔ a.1 ∈ dup_key <$> es) ∧
    List.find (DuplicateRejectionTable.same a.1) es' = Some r ∧
    ∃ gone : option DuplicateRecord.t,
      (∀ q, q ≠ a.1 → Some q ≠ (dup_key <$> gone) →
        List.find (DuplicateRejectionTable.same q) es' = List.find (DuplicateRejectionTable.same q) es) ∧
      (∀ q e, q ≠ a.1 → List.find (DuplicateRejectionTable.same q) es' = Some e →
        List.find (DuplicateRejectionTable.same q) es = Some e) ∧
      match gone with
      | None => True
      | Some v => b = false ∧ v ∈ es ∧ length es = K ∧
          ∀ e, e ∈ es → DuplicateRecord.expires v ≤ DuplicateRecord.expires e
      end.
Proof.
  intros HK Hnd Hl es r. destruct a as [[src c] now]. unfold expiry in *. simpl in *.
  assert (NoDup (dup_key <$> es)) as Hnd' by (by apply NoDup_keys_filter).
  assert (length es ≤ K)%nat as Hl' by (etrans; [apply List.filter_length_le|done]).
  unfold dup_exec, DuplicateRejectionTable.check_and_record. cbn [fst snd].
  rewrite !vec_retain_spec. fold es. fold r.
  destruct (List.find (DuplicateRejectionTable.same (src, c)) es) as [x|] eqn:E.
  - eexists _, _. split; [done|]. rewrite (keys_update_first dup_key), length_update_first by done.
    split_and!; [done|done| |rewrite (find_key_update dup_key), E by done|exists None; split_and!].
    + split; [|done]. intros _. apply (find_key_Some dup_key) in E as [Hx <-]. by apply list_elem_of_fmap_2.
    + apply (find_key_Some dup_key) in E as [_ Hx]. simpl. unfold r. unfold dup_key in Hx. congruence.
    + intros q Hq _. by rewrite (find_key_update_ne dup_key).
    + intros q e Hq. by rewrite (find_key_update_ne dup_key).
    + done.
  - apply (find_key_None dup_key) in E.
    destruct (vec_push_cases K es r) as [[Hlt Hpush]|[Hge Hpush]]; rewrite Hpush.
    + destruct (push_new_key dup_key K es r Hnd' Hlt E) as (_ & Hnd2 & Hf & Ho).
      eexists _, _. split; [done|].
      split_and!; [done|len|split; [done|naive_solver]|exact Hf|exists None; split_and!].
      * intros q Hq _. by apply Ho.
      * intros q e Hq. by rewrite Ho.
      * done.
    + pose proof (soonest_spec es) as Hs. destruct (min_by _ _ _ _ _) as [[i v]|].
      2: { rewrite Hs in Hge. simpl in Hge. lia. }
      destruct Hs as [Hi Hmin].
      destruct (replace_victim dup_key K es r i v Hnd' ltac:(lia) E Hi)
        as (l' & -> & Hpush' & Hnd2 & Hl2 & Hf & Hv & Ho). rewrite Hpush'.
      eexists _, _. split; [done|].
      split_and!; [done|by apply Nat.eq_le_incl|split; [done|naive_solver]|exact Hf|exists (Some v); split_and!].
      * intros q Hq Hqv. apply Ho; [done|]. simpl in Hqv. congruence.
      * intros q e Hq. destruct (decide (q = dup_key v)) as [->|Hqv]; [by rewrite Hv|]. by rewrite Ho.
      * done.
      * by eapply list_elem_of_lookup_2.
      * lia.
      * done.
Qed.

Abbreviation entries := DuplicateRejectionTable.entries.
Abbreviation find_dup q l := (List.find (DuplicateRejectionTable.same q) l).

Lemma live_elem now l e :
  e ∈ List.filter (DuplicateRejectionTable.live now) l ↔ e ∈ l ∧ now < DuplicateRecord.expires e.
Proof.
  rewrite list_elem_of_In, filter_In, <- list_elem_of_In.
  unfold DuplicateRejectionTable.live, Instant.has_reached. rewrite negb_true_iff, Z.leb_gt. done.
Qed.

(** The records after a check: the one of the frame, and live ones from before. *)
Lemma check_elem es es' (a : arrival) r e :
  NoDup (dup_key <$> es') → find_dup a.1 es' = Some r →
  (∀ q e, q ≠ a.1 → find_dup q es' = Some e → find_dup q es = Some e) →
  e ∈ es' → (e = r ∧ dup_key e = a.1) ∨ (dup_key e ≠ a.1 ∧ e ∈ es).
Proof.
  intros Hnd Hr Hold He. destruct (decide (dup_key e = a.1)) as [Hk|Hk].
  - left. split; [|done]. rewrite (find_key_elem dup_key (a.1) es' e Hnd He Hk) in Hr. congruence.
  - right. split; [done|]. apply (find_key_Some dup_key (dup_key e)), Hold; [done|].
    by apply (find_key_elem dup_key).
Qed.

Lemma dup_exec_inv s h a :
  (0 < K)%nat → dup_inv s h → dup_inv (dup_exec s a).2 (h ++ [a]).
Proof.
  intros HK (Hnd & Hl & Hh). destruct (check_cases s a HK Hnd Hl)
    as (b & es' & -> & Hnd' & Hl' & _ & Hr & gone & _ & Hold & _). simpl.
  split_and!; [done..|]. intros e He.
  destruct (check_elem _ _ a _ e Hnd' Hr Hold He) as [[-> Hk]|[_ [He' _]%live_elem]].
  - exists a. split_and!; [|by rewrite Hk|done]. apply elem_of_app. right. by apply list_elem_of_singleton.
  - destruct (Hh e He') as (a' & Ha' & Hk' & Hx'). exists a'. split_and!; [|done..]. apply elem_of_app. by left.
Qed.

Lemma run_dup_inv h s h0 :
  (0 < K)%nat → dup_inv s h0 → dup_inv (run dup_exec s h).2 (h0 ++ h).
Proof.
  intros HK. revert s h0. induction h as [|a h IH]; intros s h0 Hs; simpl; [by rewrite app_nil_r|].
  pose proof (dup_exec_inv s h0 a HK Hs) as Ha. destruct (dup_exec s a) as [b s1]. simpl in Ha.
  specialize (IH s1 _ Ha). rewrite <- app_assoc in IH. by destruct (run dup_exec s1 h).
Qed.

(** A record of [p] outlives every moment before [E] while fewer than [K] other
    frames hold records that expire no sooner. *)
Definition guarded s p (E : Z) (D : gset (Z * Z)) : Prop :=
  NoDup (dup_key <$> entries s) ∧ (length (entries s) ≤ K)%nat ∧
  (∃ e, e ∈ entries s ∧ dup_key e = p ∧ E ≤ DuplicateRecord.expires e) ∧
  ∀ e, e ∈ entries s → dup_key e ≠ p → E ≤ DuplicateRecord.expires e → dup_key e ∈ D.

(** A full table of records that expire no sooner has [K - 1] other frames. *)
Lemma crowded (es : list DuplicateRecord.t) p q (D : gset (Z * Z)) :
  NoDup (dup_key <$> es) → length es = K → q ∉ dup_key <$> es → q ∈ D →
  (∀ e, e ∈ es → dup_key e ≠ p → dup_key e ∈ D) → (K ≤ size D)%nat.
Proof.
  intros Hnd Hl Hq HqD Hin.
  assert ({[q]} ∪ list_to_set (dup_key <$> es) ⊆ {[p]} ∪ D) as Hsub.
  { intros k [->%elem_of_singleton|Hk%elem_of_list_to_set]%elem_of_union; [set_solver|].
    apply list_elem_of_fmap in Hk as (e & -> & He). destruct (decide (dup_key e = p)); set_solver. }
  apply subseteq_size in Hsub. rewrite size_union, size_singleton in Hsub.
  2: { intros k ->%elem_of_singleton Hk%elem_of_list_to_set. done. }
  rewrite size_list_to_set, length_fmap in Hsub by done.
  pose proof (size_union_alt {[p]} D) as Hu. rewrite size_singleton in Hu.
  pose proof (subseteq_size (D ∖ {[p]}) D ltac:(set_solver)). lia.
Qed.

Lemma dup_exec_guarded s p E D a :
  (size D < K)%nat → guarded s p E D → a.2 < E → E ≤ expiry a → (a.1 = p ∨ a.1 ∈ D) →
  guarded (dup_exec s a).2 p E D ∧ (a.1 = p → (dup_exec s a).1 = true).
Proof.
  intros HD (Hnd & Hl & (e & He & Hk & Hx) & HinD) Ha HEa Hpa.
  destruct (check_cases s a ltac:(lia) Hnd Hl)
    as (b & es' & -> & Hnd' & Hl' & Hb & Hr & gone & Hkeep & Hold & Hgone). cbn [fst snd].
  set (es := List.filter _ _) in *. assert (e ∈ es) as Hes by (apply live_elem; split; [done|lia]).
  assert (∀ e, e ∈ es → e ∈ entries s) as Hsub by (by intros x [? _]%live_elem).
  assert (NoDup (dup_key <$> es)) as Hnes by (by apply NoDup_keys_filter).
  split. 2: { intros <-. apply Hb. rewrite <- Hk. by apply list_elem_of_fmap_2. }
  split_and!; [done|done| |].
  - destruct (decide (a.1 = p)) as [Ep|Ep].
    + rewrite Ep in Hr. apply (find_key_Some dup_key) in Hr as [Hin Hrk]. eexists. split_and!; [done..|]. done.
    + exists e. split_and!; [|done..].
      apply (find_key_Some dup_key p). rewrite Hkeep; [by apply (find_key_elem dup_key)|done|].
      destruct gone as [v|]; [|done]. destruct Hgone as (-> & Hv & HlK & Hmin). intros [= Ev].
      destruct Hpa as [?|HaD]; [done|]. apply Nat.lt_nge in HD. apply HD.
      apply (crowded es p a.1); [done|done| |done|].
      * intros Hin. by apply Hb in Hin.
      * intros x Hxe Hxp. apply HinD; [by apply Hsub|done|]. specialize (Hmin x Hxe).
        assert (v = e) as ->; [|lia].
        apply (inj Some). rewrite <- (find_key_elem dup_key p es v), <- (find_key_elem dup_key p es e); done.
  - intros x Hxe Hxp HxE. destruct (check_elem es es' a _ x Hnd' Hr Hold Hxe) as [[_ Hxa]|[_ Hxo]].
    + rewrite Hxa in *. by destruct Hpa.
    + apply HinD; [by apply Hsub|done|done].
Qed.

Lemma run_guarded h s p E D :
  (size D < K)%nat → guarded s p E D →
  Forall (λ a : arrival, a.2 < E ∧ E ≤ expiry a ∧ (a.1 = p ∨ a.1 ∈ D)) h →
  guarded (run dup_exec s h).2 p E D.
Proof.
  intros HD Hs Hh. revert s Hs. induction Hh as [|a h (Ha & HE & Hp) Hh IH]; intros s Hs; simpl; [done|].
  destruct (dup_exec_guarded s p E D a HD Hs Ha HE Hp) as [Hg _].
  destruct (dup_exec s a) as [b s1]. specialize (IH s1 Hg). by destruct (run dup_exec s1 h).
Qed.

(** The other frames of a history whose records expire no sooner than [E]. *)
Definition rivals p (E : Z) (h : list arrival) : gset (Z * Z) :=
  list_to_set (fst <$> filter (λ a : arrival, a.1 ≠ p ∧ E ≤ expiry a) h).

Lemma elem_rivals p E h q :
  q ∈ rivals p E h ↔ q ≠ p ∧ ∃ a, a ∈ h ∧ a.1 = q ∧ E ≤ expiry a.
Proof.
  unfold rivals. rewrite elem_of_list_to_set, list_elem_of_fmap. split.
  - intros (a & -> & [[Hp HE] Ha]%list_elem_of_filter). eauto.
  - intros [Hp (a & Ha & <- & HE)]. exists a. by rewrite list_elem_of_filter.
Qed.

Lemma recorded_guarded s h p t :
  (0 < K)%nat → dup_inv s h →
  guarded (dup_exec s (p, t)).2 p (expiry (p, t)) (rivals p (expiry (p, t)) h).
Proof.
  intros HK (Hnd & Hl & Hh). destruct (check_cases s (p, t) HK Hnd Hl)
    as (b & es' & -> & Hnd' & Hl' & _ & Hr & gone & _ & Hold & _). simpl.
  split_and!; [done|done| |].
  - apply (find_key_Some dup_key) in Hr as [Hin Hk]. eexists. split_and!; [done..|]. simpl. lia.
  - intros e He Hk Hx. apply elem_rivals. split; [done|].
    destruct (check_elem _ _ (p, t) _ e Hnd' Hr Hold He) as [[_ ?]|[_ [He' _]%live_elem]]; [done|].
    destruct (Hh e He') as (a & Ha & Hka & Hxa). exists a. split_and!; [done..|lia].
Qed.

Lemma guarded_weaken s p E D D' : D ⊆ D' → guarded s p E D → guarded s p E D'.
Proof. intros HD (H1 & H2 & H3 & H4). split_and!; [done..|]. intros. by apply HD, H4. Qed.

Lemma expiry_mono t t' p q : t ≤ t' → expiry (p, t) ≤ expiry (q, t').
Proof. unfold expiry, Instant.saturating_add, sat_add. simpl. lia. Qed.
End duplicates.

(** Duplicate rejection, over any history of frames: a frame is rejected only
    when its source and counter did arrive within the lifetime before; and a
    frame that arrived at [t0] is rejected at every later moment of its lifetime,
    whatever arrives in between, as long as fewer than [K] other frames hold
    records that expire no sooner (a full table gives up the record closest to
    its expiry). *)
Theorem duplicates_rejected {H : Heapless} (K : nat) (lifetime : Z) (h : list arrival) (a : arrival) :
  (0 < K)%nat →
  let s := (run (dup_exec (K:=K) lifetime) (DuplicateRejectionTable.new K) h).2 in
  let dup := (dup_exec lifetime s a).1 in
  (dup = true → ∃ a', a' ∈ h ∧ a'.1 = a.1 ∧ a.2 < expiry lifetime a') ∧
  (∀ h1 t0 h2, h = h1 ++ (a.1, t0) :: h2 →
    Forall (λ x, t0 ≤ x.2 < expiry lifetime (a.1, t0)) h2 → t0 ≤ a.2 < expiry lifetime (a.1, t0) →
    (size (rivals lifetime a.1 (expiry lifetime (a.1, t0)) (h1 ++ h2)) < K)%nat →
    dup = true).
Proof.
  intros HK s dup.
  assert (∀ g, dup_inv lifetime (run (dup_exec (K:=K) lifetime) (DuplicateRejectionTable.new K) g).2 g) as Hinv.
  { intros g. apply (run_dup_inv lifetime g (DuplicateRejectionTable.new K) [] HK).
    split_and!; simpl; [constructor|lia|]. by intros e ?%not_elem_of_nil. }
  split.
  - subst dup. destruct (Hinv h) as (Hnd & Hl & Hh). fold s in Hnd, Hl, Hh.
    destruct (check_cases lifetime s a HK Hnd Hl) as (b & es' & -> & _ & _ & Hb & _). simpl. intros ->.
    pose proof (proj1 Hb eq_refl) as (e & Hk & [He Hx]%live_elem)%list_elem_of_fmap.
    destruct (Hh e He) as (a' & Ha' & Hk' & Hx'). exists a'. split_and!; [done|congruence|lia].
  - intros h1 t0 h2 -> Hh2 Ha HD. subst dup s. set (E := expiry lifetime (a.1, t0)) in *.
    set (D := rivals _ _ _ _) in HD. rewrite run_app. cbn [run].
    pose proof (recorded_guarded lifetime _ h1 a.1 t0 HK (Hinv h1)) as Hg. fold E in Hg.
    apply (guarded_weaken _ _ _ _ D) in Hg.
    2: { intros q [Hq (x & Hx & Hx')]%elem_rivals. apply elem_rivals. split; [done|]. exists x.
      split; [|done]. apply elem_of_app. by left. }
    destruct (dup_exec lifetime _ (a.1, t0)) as [b s1]. cbn [snd] in Hg.
    apply (run_guarded lifetime h2) in Hg; [|done|].
    + destruct (run (dup_exec lifetime) s1 h2) as [bs s2]. cbn [snd] in *.
      apply (dup_exec_guarded lifetime s2 a.1 E D a); [done|done|lia| |by left|done].
      destruct a as [p t]. apply expiry_mono. simpl in *. lia.
    + apply Forall_forall. intros x Hx. rewrite Forall_forall in Hh2. specialize (Hh2 x Hx).
      split_and!; [lia|destruct x; apply expiry_mono; simpl in *; lia|].
      destruct (decide (x.1 = a.1)); [by left|right]. apply elem_rivals. split; [done|].
      exists x. split_and!; [apply elem_of_app; by right|done|]. destruct x; apply expiry_mono; simpl in *; lia.
Qed.

Lemma duplicates_rejected_witness :
  (dup_exec 100 (run (dup_exec (K:=2) 100) (DuplicateRejectionTable.new 2)
    [((1, 5), 0); ((2, 9), 10); ((3, 4), 20); ((2, 9), 50)]).2 ((2, 9), 149)).1 = true.
Proof.
  refine (proj2 (duplicates_rejected 2 100 [((1, 5), 0); ((2, 9), 10); ((3, 4), 20); ((2, 9), 50)]
    ((2, 9), 149) _) [((1, 5), 0); ((2, 9), 10); ((3, 4), 20)] 50 [] eq_refl _ _ _).
  - lia.
  - constructor.
  - vm_compute. split; congruence.
  - vm_compute. lia.
Defined.
