(* ===== verification/ApsFrame.v ===== *)
(** * APS frames (panweave-aps/src/frame.rs)

    The frame control octet, the extended header of fragmented transmissions and
    the APS header, with their wire format. *)

From S2P Require Import Prelude Codec Wire Types.

Module ApsFrameType.
Inductive t : Type := Data | Command | Ack | InterPan.
#[global] Instance eq_dec : EqDecision t.
Proof. solve_decision. Defined.

Definition from_bits (b : Z) : t :=
  match Z.land b 0x3 with
  | 0 => Data
  | 1 => Command
  | 2 => Ack
  | _ => InterPan
  end.

Definition bits (t : t) : Z :=
  match t with Data => 0 | Command => 1 | Ack => 2 | InterPan => 3 end.
End ApsFrameType.

Module DeliveryMode.
Inductive t : Type := Unicast | Reserved | Broadcast | Group.
#[global] Instance eq_dec : EqDecision t.
Proof. solve_decision. Defined.

Definition from_bits (b : Z) : t :=
  match Z.land b 0x3 with
  | 0 => Unicast
  | 1 => Reserved
  | 2 => Broadcast
  | _ => Group
  end.

Definition bits (t : t) : Z :=
  match t with Unicast => 0 | Reserved => 1 | Broadcast => 2 | Group => 3 end.
End DeliveryMode.

Module ApsFrameControl.
Record t : Type := mk {
  frame_type : ApsFrameType.t;
  delivery_mode : DeliveryMode.t;
  ack_format : bool;
  security : bool;
  ack_request : bool;
  extended_header : bool
}.
#[global] Instance eq_dec : EqDecision t.
Proof. solve_decision. Defined.

Definition from_raw (v : Z) : t :=
  mk (ApsFrameType.from_bits v) (DeliveryMode.from_bits (Z.shiftr v 2))
     (flag 0x10 v) (flag 0x20 v) (flag 0x40 v) (flag 0x80 v).

Definition raw (c : t) : Z :=
  Z.lor (Z.lor (Z.lor (Z.lor (Z.lor
    (ApsFrameType.bits (frame_type c))
    (Z.shiftl (DeliveryMode.bits (delivery_mode c)) 2))
    (Z.shiftl (Z_of_bool (ack_format c)) 4))
    (Z.shiftl (Z_of_bool (security c)) 5))
    (Z.shiftl (Z_of_bool (ack_request c)) 6))
    (Z.shiftl (Z_of_bool (extended_header c)) 7).

(** Assignments to single fields. *)
Definition set_delivery_mode (c : t) (m : DeliveryMode.t) : t :=
  mk (frame_type c) m (ack_format c) (security c) (ack_request c) (extended_header c).
Definition set_security (c : t) (v : bool) : t :=
  mk (frame_type c) (delivery_mode c) (ack_format c) v (ack_request c) (extended_header c).
Definition set_ack_request (c : t) (v : bool) : t :=
  mk (frame_type c) (delivery_mode c) (ack_format c) (security c) v (extended_header c).
Definition set_extended_header (c : t) (v : bool) : t :=
  mk (frame_type c) (delivery_mode c) (ack_format c) (security c) (ack_request c) v.
End ApsFrameControl.

Module Fragmentation.
Inductive t : Type := None | First | Part.
#[global] Instance eq_dec : EqDecision t.
Proof. solve_decision. Defined.

(** The sub-field as [encode] writes it. *)
Definition bits (f : t) : Z := match f with None => 0 | First => 1 | Part => 2 end.
End Fragmentation.

Module ExtendedHeader.
Record t : Type := mk {
  fragmentation : Fragmentation.t;
  block_number : Z;
  ack_bitfield : option Z
}.
#[global] Instance eq_dec : EqDecision t.
Proof. solve_decision. Defined.

Definition NOT_FRAGMENTED : t := mk Fragmentation.None 0 None.

Definition encoded_len (e : t) : nat :=
  match fragmentation e with
  | Fragmentation.None => 1
  | _ => (1 + 1 + if is_some (ack_bitfield e) then 1 else 0)%nat
  end.

Definition decode (is_ack : bool) : SE Reader.t CodecError t :=
  ctrl ← Reader.u8;
  fragmentation ← match Z.land ctrl 0x3 with
                  | 0 => mret Fragmentation.None
                  | 1 => mret Fragmentation.First
                  | 2 => mret Fragmentation.Part
                  | v => fail (InvalidField "fragmentation" v)
                  end;
  if bool_decide (fragmentation = Fragmentation.None) then mret NOT_FRAGMENTED
  else
    block_number ← Reader.u8;
    ack_bitfield ← (if is_ack then b ← Reader.u8; mret (Some b) else mret None);
    mret (mk fragmentation block_number ack_bitfield).

Definition encode (e : t) : SE Writer.t CodecError unit :=
  Writer.u8 (Fragmentation.bits (fragmentation e));;
  if negb (bool_decide (fragmentation e = Fragmentation.None)) then
    Writer.u8 (block_number e);;
    match ack_bitfield e with Some b => Writer.u8 b | None => mret tt end
  else mret tt.
End ExtendedHeader.

Module Addressing.
Inductive t : Type := Endpoint (ep : Z) | Group (g : Z).
#[global] Instance eq_dec : EqDecision t.
Proof. solve_decision. Defined.
End Addressing.

Module ApsHeader.
Record t : Type := mk {
  control : ApsFrameControl.t;
  destination : option Addressing.t;
  cluster : option Z;
  profile : option Z;
  src_endpoint : option Z;
  counter : Z;
  extended : option ExtendedHeader.t
}.
#[global] Instance eq_dec : EqDecision t.
Proof. solve_decision. Defined.

Definition data (destination : Addressing.t) (cluster profile src_endpoint counter : Z) : t :=
  let delivery_mode :=
    match destination with
    | Addressing.Endpoint _ => DeliveryMode.Unicast
    | Addressing.Group _ => DeliveryMode.Group
    end in
  mk (ApsFrameControl.mk ApsFrameType.Data delivery_mode false false false false)
     (Some destination) (Some cluster) (Some profile) (Some src_endpoint) counter None.

Definition command (counter : Z) (broadcast : bool) : t :=
  mk (ApsFrameControl.mk ApsFrameType.Command
        (if broadcast then DeliveryMode.Broadcast else DeliveryMode.Unicast) false false false false)
     None None None None counter None.

Definition ack_for (fr : t) (extended : option ExtendedHeader.t) : t :=
  let is_command := bool_decide (ApsFrameControl.frame_type (control fr) = ApsFrameType.Command) in
  let dst :=
    match src_endpoint fr, is_command with
    | Some ep, false => Some (Addressing.Endpoint ep)
    | _, _ => None
    end in
  let src :=
    match destination fr, is_command with
    | Some (Addressing.Endpoint ep), false => Some ep
    | Some (Addressing.Group _), false => Some 0
    | _, _ => None
    end in
  mk (ApsFrameControl.mk ApsFrameType.Ack DeliveryMode.Unicast is_command false false (is_some extended))
     dst (if is_command then None else cluster fr) (if is_command then None else profile fr)
     src (counter fr) extended.

Definition with_control (h : t) (c : ApsFrameControl.t) : t :=
  mk c (destination h) (cluster h) (profile h) (src_endpoint h) (counter h) (extended h).

Definition broadcast (h : t) : t :=
  with_control h (ApsFrameControl.set_delivery_mode (control h) DeliveryMode.Broadcast).
Definition with_ack_request (h : t) (ack : bool) : t :=
  with_control h (ApsFrameControl.set_ack_request (control h) ack).
Definition secured (h : t) (s : bool) : t := with_control h (ApsFrameControl.set_security (control h) s).
Definition with_extended (h : t) (ext : ExtendedHeader.t) : t :=
  mk (ApsFrameControl.set_extended_header (control h) true) (destination h) (cluster h) (profile h)
     (src_endpoint h) (counter h) (Some ext).

Definition is_command (h : t) : bool :=
  match ApsFrameControl.frame_type (control h) with ApsFrameType.Command => true | _ => false end.
Definition dst_endpoint (h : t) : option Z :=
  match destination h with Some (Addressing.Endpoint ep) => Some ep | _ => None end.
Definition group (h : t) : option Z :=
  match destination h with Some (Addressing.Group g) => Some g | _ => None end.
Definition fragmentation (h : t) : Fragmentation.t :=
  match extended h with Some e => ExtendedHeader.fragmentation e | None => Fragmentation.None end.

Definition has_addressing (c : ApsFrameControl.t) : bool :=
  match ApsFrameControl.frame_type c with
  | ApsFrameType.Data | ApsFrameType.InterPan => true
  | ApsFrameType.Ack => negb (ApsFrameControl.ack_format c)
  | ApsFrameType.Command => false
  end.

(** The addressing fields of [decode]. *)
Definition decode_addressing (c : ApsFrameControl.t)
    : SE Reader.t CodecError (option Addressing.t * option Z * option Z * option Z) :=
  if has_addressing c then
    destination ← match ApsFrameControl.delivery_mode c with
                  | DeliveryMode.Group => g ← Reader.u16_le; mret (Addressing.Group g)
                  | _ => ep ← Reader.u8; mret (Addressing.Endpoint ep)
                  end;
    cluster ← Reader.u16_le;
    profile ← Reader.u16_le;
    src ← Reader.u8;
    mret (Some destination, Some cluster, Some profile, Some src)
  else mret (None, None, None, None).

#[global] Instance Decode_t : Decode t :=
  v ← Reader.u8;
  let control := ApsFrameControl.from_raw v in
  if bool_decide (ApsFrameControl.delivery_mode control = DeliveryMode.Reserved)
  then fail (InvalidField "delivery mode" 1)
  else
    a ← decode_addressing control;
    let '(destination, cluster, profile, src_endpoint) := a in
    counter ← Reader.u8;
    extended ← (if ApsFrameControl.extended_header control
                then e ← ExtendedHeader.decode
                       (bool_decide (ApsFrameControl.frame_type control = ApsFrameType.Ack));
                     mret (Some e)
                else mret None);
    mret (mk control destination cluster profile src_endpoint counter extended).

Definition encoded_len (h : t) : nat :=
  (1 + (if has_addressing (control h) then
          match destination h with Some (Addressing.Group _) => 2 | _ => 1 end + (2 + 2 + 1)
        else 0) + 1 +
   match extended h with Some e => ExtendedHeader.encoded_len e | None => 0 end)%nat.

(** The addressing fields of [encode]. *)
Definition encode_addressing (h : t) : SE Writer.t CodecError unit :=
  match destination h with
  | Some (Addressing.Group g) => Writer.u16_le g
  | Some (Addressing.Endpoint ep) => Writer.u8 ep
  | None => fail (Unrepresentable "destination")
  end;;
  c ← lift (ok_or (cluster h) (Unrepresentable "cluster")); Writer.u16_le c;;
  p ← lift (ok_or (profile h) (Unrepresentable "profile")); Writer.u16_le p;;
  s ← lift (ok_or (src_endpoint h) (Unrepresentable "source endpoint")); Writer.u8 s.

#[global] Instance Encode_t : Encode t := {
  encoded_len := encoded_len;
  encode h :=
    let control := ApsFrameControl.set_extended_header (control h) (is_some (extended h)) in
    Writer.u8 (ApsFrameControl.raw control);;
    (if has_addressing control then encode_addressing h else mret tt);;
    Writer.u8 (counter h);;
    match extended h with Some e => ExtendedHeader.encode e | None => mret tt end
}.

Definition decode_prefix (bytes : list Z) : result (t * nat) CodecError :=
  match decode (Reader.new bytes) with
  | (Ok h, r) => Ok (h, Reader.position r)
  | (Err e, _) => Err e
  end.
End ApsHeader.

(** ** Wire format *)

Section control.
Implicit Types c : ApsFrameControl.t.

Lemma raw_from_raw v : uint 8 v → ApsFrameControl.raw (ApsFrameControl.from_raw v) = v.
Proof.
  intros Hv. apply Z.eqb_eq.
  apply (byte_forall (λ v, ApsFrameControl.raw (ApsFrameControl.from_raw v) =? v)); [|done].
  vm_compute. reflexivity.
Qed.

Lemma from_raw_raw c : ApsFrameControl.from_raw (ApsFrameControl.raw c) = c.
Proof. by destruct c as [[] [] [] [] [] []]. Qed.

Lemma raw_uint c : uint 8 (ApsFrameControl.raw c).
Proof. destruct c as [[] [] [] [] [] []]; vm_compute; split; congruence. Qed.
End control.

(** The extended header of an acknowledgement carries the bitfield exactly when
    it acknowledges a block. *)
Definition ext_wf (is_ack : bool) (e : ExtendedHeader.t) : Prop :=
  match ExtendedHeader.fragmentation e with
  | Fragmentation.None => e = ExtendedHeader.NOT_FRAGMENTED
  | _ =>
      uint 8 (ExtendedHeader.block_number e) ∧
      is_ack = is_some (ExtendedHeader.ack_bitfield e) ∧
      from_option (uint 8) True (ExtendedHeader.ack_bitfield e)
  end.

(** The image with [ctrl] as extended frame control. *)
Definition ext_wire (ctrl : Z) (e : ExtendedHeader.t) : list Z :=
  [ctrl] ++
  if bool_decide (ExtendedHeader.fragmentation e = Fragmentation.None) then []
  else [ExtendedHeader.block_number e] ++ from_option (λ b, [b]) [] (ExtendedHeader.ack_bitfield e).

Definition ext_bits (e : ExtendedHeader.t) : Z := Fragmentation.bits (ExtendedHeader.fragmentation e).

(** The addressing fields are there when the frame type says so, and the
    destination has the form the delivery mode announces. *)
Definition addressing_wf (h : ApsHeader.t) : Prop :=
  if ApsHeader.has_addressing (ApsHeader.control h) then
    from_option (λ d, match d with
      | Addressing.Group g =>
          ApsFrameControl.delivery_mode (ApsHeader.control h) = DeliveryMode.Group ∧ uint 16 g
      | Addressing.Endpoint ep =>
          ApsFrameControl.delivery_mode (ApsHeader.control h) ≠ DeliveryMode.Group ∧ uint 8 ep
      end) False (ApsHeader.destination h) ∧
    from_option (uint 16) False (ApsHeader.cluster h) ∧
    from_option (uint 16) False (ApsHeader.profile h) ∧
    from_option (uint 8) False (ApsHeader.src_endpoint h)
  else
    ApsHeader.destination h = None ∧ ApsHeader.cluster h = None ∧
    ApsHeader.profile h = None ∧ ApsHeader.src_endpoint h = None.

Definition is_ack (h : ApsHeader.t) : bool :=
  bool_decide (ApsFrameControl.frame_type (ApsHeader.control h) = ApsFrameType.Ack).

Definition aps_header_wf (h : ApsHeader.t) : Prop :=
  ApsFrameControl.delivery_mode (ApsHeader.control h) ≠ DeliveryMode.Reserved ∧
  ApsFrameControl.extended_header (ApsHeader.control h) = is_some (ApsHeader.extended h) ∧
  addressing_wf h ∧ uint 8 (ApsHeader.counter h) ∧
  from_option (ext_wf (is_ack h)) True (ApsHeader.extended h).

Definition destination_wire (d : Addressing.t) : list Z :=
  match d with Addressing.Group g => to_le 2 g | Addressing.Endpoint ep => [ep] end.

Definition addressing_wire (h : ApsHeader.t) : list Z :=
  from_option destination_wire [] (ApsHeader.destination h) ++
  from_option (to_le 2) [] (ApsHeader.cluster h) ++
  from_option (to_le 2) [] (ApsHeader.profile h) ++
  from_option (λ s, [s]) [] (ApsHeader.src_endpoint h).

(** The image of a header whose extended frame control is [ctrl]. *)
Definition aps_header_image (ctrl : Z) (h : ApsHeader.t) : list Z :=
  [ApsFrameControl.raw (ApsHeader.control h)] ++ addressing_wire h ++ [ApsHeader.counter h] ++
  from_option (ext_wire ctrl) [] (ApsHeader.extended h).

Definition ext_ctrl (h : ApsHeader.t) : Z := from_option ext_bits 0 (ApsHeader.extended h).

Definition aps_header_wire (h : ApsHeader.t) : list Z := aps_header_image (ext_ctrl h) h.

Section header.
Implicit Types (h : ApsHeader.t) (e : ExtendedHeader.t).

Lemma ext_writes a e : ext_wf a e → writes (ExtendedHeader.encode e) (ext_wire (ext_bits e) e).
Proof.
  intros Hwf. unfold ExtendedHeader.encode, ext_wire, ext_bits.
  apply writes_bind; [apply writes_u8|]. case_bool_decide; simpl; [apply writes_ret|].
  refine (writes_bind (Writer.u8 _) _ [_] _ (writes_u8 _) _).
  apply (writes_opt _ Writer.u8 (λ b, [b])). intros b _. apply writes_u8.
Qed.

Lemma ext_len a e : ext_wf a e → ExtendedHeader.encoded_len e = length (ext_wire (ext_bits e) e).
Proof. destruct e as [[] b [k|]]; done. Qed.

(** The decoder accepts any extended frame control with the fragmentation bits. *)
Lemma ext_decodes a e c :
  ext_wf a e → Z.land c 0x3 = ext_bits e → decodes (ExtendedHeader.decode a) (ext_wire c e) e.
Proof.
  intros Hwf Hc. unfold ExtendedHeader.decode, ext_wire.
  eapply decodes_bind; [apply decodes_u8|]. cbv beta. rewrite Hc.
  refine (decodes_bind _ _ [] _ (ExtendedHeader.fragmentation e) _ _ _).
  { unfold ext_bits. destruct (ExtendedHeader.fragmentation e); apply decodes_ret. }
  cbv beta. unfold ext_wf in Hwf. case_bool_decide as Hf.
  - rewrite Hf in Hwf. rewrite Hwf. apply decodes_ret.
  - assert (uint 8 (ExtendedHeader.block_number e) ∧ a = is_some (ExtendedHeader.ack_bitfield e) ∧
      from_option (uint 8) True (ExtendedHeader.ack_bitfield e)) as (Hb & Ha & Hk).
    { by destruct (ExtendedHeader.fragmentation e). }
    destruct e as [f b k]. cbn [ExtendedHeader.fragmentation ExtendedHeader.block_number
      ExtendedHeader.ack_bitfield] in *. read_field.
    apply (decodes_map _ (ExtendedHeader.mk f b)). by apply (field_decodes (A:=option Z)).
Qed.

Lemma ext_parsed a r e r' :
  bytes_ok (Reader.buf r) → ExtendedHeader.decode a r = (Ok e, r') →
  ∃ c, parsed r (ext_wire c e) r' ∧ Z.land c 0x3 = ext_bits e ∧ uint 8 c ∧ ext_wf a e.
Proof.
  intros Hok Hd. unfold ExtendedHeader.decode in Hd. parse_field Hd c. exists c.
  apply se_bind_inv in Hd as (f & r1 & Hf & Hd).
  assert (r1 = r0 ∧ Z.land c 0x3 = Fragmentation.bits f) as [-> Hc].
  { destruct (Z.land c 3) as [|[[]|[]|]|]; try done; by injection Hf as <- <-. }
  rewrite Hc. unfold ext_wire, ext_wf, ext_bits. case_bool_decide as Ef.
  - injection Hd as <- <-. subst f. simpl. split_and!; [done|done| |done]. apply W.
  - parse_field Hd b. parse_field Hd k. injection Hd as <- <-. cbn [ExtendedHeader.fragmentation
      ExtendedHeader.block_number ExtendedHeader.ack_bitfield]. rewrite bool_decide_false by done.
    split_and!; [parse_done|done|done|]. by destruct f.
Qed.

Lemma addressing_writes h :
  addressing_wf h →
  writes (if ApsHeader.has_addressing (ApsHeader.control h) then ApsHeader.encode_addressing h else mret tt)
    (addressing_wire h).
Proof.
  unfold addressing_wf, addressing_wire, ApsHeader.encode_addressing.
  destruct (ApsHeader.has_addressing _).
  - intros (Hd & Hc & Hp & Hs).
    destruct (ApsHeader.destination h) as [d|]; [|done]. destruct (ApsHeader.cluster h) as [c|]; [|done].
    destruct (ApsHeader.profile h) as [p|]; [|done]. destruct (ApsHeader.src_endpoint h) as [s|]; [|done]. simpl.
    apply writes_bind; [destruct d; eauto with codec|]. exact (writes_bind _ _ _ _ (writes_u16 c)
      (writes_bind _ _ _ _ (writes_u16 p) (writes_u8 s))).
  - intros (-> & -> & -> & ->). apply writes_ret.
Qed.

Lemma addressing_decodes h :
  addressing_wf h →
  decodes (ApsHeader.decode_addressing (ApsHeader.control h)) (addressing_wire h)
    (ApsHeader.destination h, ApsHeader.cluster h, ApsHeader.profile h, ApsHeader.src_endpoint h).
Proof.
  unfold addressing_wf, addressing_wire, ApsHeader.decode_addressing.
  destruct (ApsHeader.has_addressing _).
  - intros (Hd & Hc & Hp & Hs).
    destruct (ApsHeader.destination h) as [d|]; [|done]. destruct (ApsHeader.cluster h) as [c|]; [|done].
    destruct (ApsHeader.profile h) as [p|]; [|done]. destruct (ApsHeader.src_endpoint h) as [s|]; [|done].
    cbn [from_option] in *. apply (decodes_bind _ _ _ _ d).
    + destruct d as [ep|g]; destruct Hd as [Hm Hd]; simpl.
      * destruct (ApsFrameControl.delivery_mode _); try done;
          apply (decodes_map _ Addressing.Endpoint); read_one.
      * rewrite Hm. apply (decodes_map _ Addressing.Group). read_one.
    + cbv beta. read_field. read_field. apply (decodes_map _ (λ s, (Some d, Some c, Some p, Some s))). read_one.
  - intros (-> & -> & -> & ->). apply decodes_ret.
Qed.

Lemma addressing_parsed h r r' :
  bytes_ok (Reader.buf r) →
  ApsHeader.decode_addressing (ApsHeader.control h) r =
    (Ok (ApsHeader.destination h, ApsHeader.cluster h, ApsHeader.profile h, ApsHeader.src_endpoint h), r') →
  parsed r (addressing_wire h) r' ∧ addressing_wf h.
Proof.
  unfold addressing_wf, addressing_wire, ApsHeader.decode_addressing. intros Hok.
  destruct (ApsHeader.has_addressing _).
  - intros Hd. apply se_bind_inv in Hd as (d & r1 & Hf & Hd).
    assert (parsed r (destination_wire d) r1 ∧ match d with
      | Addressing.Group g => ApsFrameControl.delivery_mode (ApsHeader.control h) = DeliveryMode.Group ∧ uint 16 g
      | Addressing.Endpoint ep => ApsFrameControl.delivery_mode (ApsHeader.control h) ≠ DeliveryMode.Group ∧ uint 8 ep
      end) as [P0 Hdw].
    { destruct (ApsFrameControl.delivery_mode _); parse_field Hf x; injection Hf as <- <-; done. }
    pose proof (proj2 (parsed_bytes_ok _ _ _ P0 Hok)) as Hok1.
    parse_field Hd c. parse_field Hd p. parse_field Hd s. apply pair_equal_spec in Hd as [Hd <-].
    injection Hd as <- <- <- <-. cbn [from_option]. split; [parse_done|done].
  - intros [= <- <- <- <- <-]. split; [apply parsed_nil|done].
Qed.

Lemma aps_header_writes h : aps_header_wf h → writes (encode h) (aps_header_wire h).
Proof.
  intros (_ & Hx & Ha & _ & He). cbn [encode ApsHeader.Encode_t]. rewrite <- Hx.
  replace (ApsFrameControl.set_extended_header _ _) with (ApsHeader.control h)
    by (by destruct (ApsHeader.control h)).
  unfold aps_header_wire, aps_header_image. cbv zeta.
  apply writes_bind; [apply writes_u8|]. apply writes_bind; [by apply addressing_writes|].
  apply writes_bind; [apply writes_u8|]. unfold ext_ctrl.
  destruct (ApsHeader.extended h) as [e|]; simpl in *; [by eapply ext_writes|apply writes_ret].
Qed.

(** The decoder reads back the header behind any image of it. *)
Lemma aps_header_image_decodes h c :
  aps_header_wf h → (∀ e, ApsHeader.extended h = Some e → Z.land c 0x3 = ext_bits e) →
  decodes decode (aps_header_image c h) h.
Proof.
  intros (Hm & Hx & Ha & Hc & He) Hctrl. unfold decode, ApsHeader.Decode_t, aps_header_image.
  eapply decodes_bind; [apply decodes_u8|]. cbv zeta. rewrite from_raw_raw.
  rewrite bool_decide_false by done.
  eapply decodes_bind; [by apply addressing_decodes|]. cbv beta iota.
  read_field. rewrite <- (app_nil_r (from_option _ _ _)). eapply decodes_bind.
  - apply decodes_opt; [done|]. intros e Ee. apply ext_decodes; [by rewrite Ee in He|by apply Hctrl].
  - destruct h. apply decodes_ret.
Qed.

Lemma aps_header_decodes h : aps_header_wf h → decodes decode (aps_header_wire h) h.
Proof.
  intros Hwf. apply aps_header_image_decodes; [done|]. intros e He. unfold ext_ctrl. rewrite He.
  by destruct e as [[] ? ?].
Qed.

Lemma aps_header_len h : aps_header_wf h → ApsHeader.encoded_len h = length (aps_header_wire h).
Proof.
  intros (_ & _ & Ha & _ & He). unfold aps_header_wire, aps_header_image, ApsHeader.encoded_len, ext_ctrl.
  assert (length (addressing_wire h) = if ApsHeader.has_addressing (ApsHeader.control h) then
      match ApsHeader.destination h with Some (Addressing.Group _) => 2 | _ => 1 end + (2 + 2 + 1)
    else 0)%nat as Hl.
  { unfold addressing_wf, addressing_wire in *. destruct (ApsHeader.has_addressing _).
    - destruct Ha as (Hd & Hc & Hp & Hs).
      destruct (ApsHeader.destination h) as [[]|]; [..|done]; destruct (ApsHeader.cluster h); [|done| |done];
      destruct (ApsHeader.profile h); [|done| |done]; by destruct (ApsHeader.src_endpoint h).
    - by destruct Ha as (-> & -> & -> & ->). }
  rewrite !length_app, Hl. destruct (ApsHeader.extended h) as [e|]; cbn [from_option length] in *; [|lia].
  rewrite <- (ext_len (is_ack h)) by done. lia.
Qed.

#[export] Instance aps_header_Codec : Codec ApsHeader.t := {
  wire_ok := aps_header_wf;
  wire := aps_header_wire;
  codec_writes := aps_header_writes;
  codec_decodes := aps_header_decodes;
  codec_len := aps_header_len
}.

Lemma aps_header_parsed r h r' :
  bytes_ok (Reader.buf r) → decode r = (Ok h, r') →
  ∃ c, parsed r (aps_header_image c h) r' ∧ aps_header_wf h ∧
    ∀ e, ApsHeader.extended h = Some e → Z.land c 0x3 = ext_bits e.
Proof.
  intros Hok Hd. unfold decode, ApsHeader.Decode_t in Hd. parse_field Hd v. cbv zeta in Hd.
  case_bool_decide as Hm; [done|].
  apply se_bind_inv in Hd as ([[[d cl] p] s] & r2 & Ha & Hd). cbv beta iota in Hd.
  set (h0 := ApsHeader.mk (ApsFrameControl.from_raw v) d cl p s).
  apply (addressing_parsed (h0 0 None)) in Ha as [Pa Wa]; [|done].
  pose proof (proj2 (parsed_bytes_ok _ _ _ Pa ltac:(assumption))) as Oa.
  parse_field Hd n. apply se_bind_inv in Hd as (x & r4 & Hx & Hd). injection Hd as <- <-.
  unfold aps_header_wf, aps_header_image. cbn [ApsHeader.control ApsHeader.counter ApsHeader.extended].
  rewrite raw_from_raw by done. destruct (ApsFrameControl.extended_header _) eqn:Ex.
  - apply se_bind_inv in Hx as (e & r5 & He & Hx). injection Hx as <- <-.
    apply ext_parsed in He as (c & Pe & Hc & _ & We); [|done]. exists c.
    split_and!; [parse_done|done|done|done|done|done|]. by intros ? [= <-].
  - injection Hx as <- <-. exists 0. split_and!; [parse_done|done..].
Qed.
End header.

(** A header that lacks an addressing field its frame type needs is refused. *)
Definition incomplete (h : ApsHeader.t) : Prop :=
  ApsHeader.has_addressing (ApsHeader.control h) = true ∧
  (ApsHeader.destination h = None ∨ ApsHeader.cluster h = None ∨
   ApsHeader.profile h = None ∨ ApsHeader.src_endpoint h = None).

Lemma incomplete_refused (h : ApsHeader.t) w w' : incomplete h → encode h w ≠ (Ok tt, w').
Proof.
  intros [Ha Hn]. cbn [encode ApsHeader.Encode_t]. cbv zeta.
  replace (ApsHeader.has_addressing (ApsFrameControl.set_extended_header _ _)) with true by (by rewrite <- Ha).
  intros ([] & w1 & _ & ([] & w2 & Hd & _)%se_bind_inv)%se_bind_inv.
  unfold ApsHeader.encode_addressing in Hd.
  apply se_bind_inv in Hd as ([] & w3 & Hd & (c & w4 & Hc & Hr)%se_bind_inv).
  apply se_bind_inv in Hr as ([] & w5 & _ & (p & w6 & Hp & Hr)%se_bind_inv).
  apply se_bind_inv in Hr as ([] & w7 & _ & (s & w8 & Hs & _)%se_bind_inv).
  destruct Hn as [E|[E|[E|E]]]; rewrite E in *; done.
Qed.

(** The acknowledgement of a data or command frame is well-formed. *)
Lemma ack_for_wf (h : ApsHeader.t) ext :
  aps_header_wf h → from_option (ext_wf true) True ext →
  ApsFrameControl.frame_type (ApsHeader.control h) = ApsFrameType.Data ∨
  ApsFrameControl.frame_type (ApsHeader.control h) = ApsFrameType.Command →
  aps_header_wf (ApsHeader.ack_for h ext).
Proof.
  intros (_ & _ & Ha & Hc & _) He Ht. unfold aps_header_wf, ApsHeader.ack_for, addressing_wf, is_ack,
    ApsHeader.has_addressing in *. destruct Ht as [Ht|Ht]; rewrite Ht in *; cbn in *.
  - change (bool_decide (ApsFrameType.Data = ApsFrameType.Command)) with false.
    destruct Ha as (Hd & Hcl & Hp & Hs).
    destruct (ApsHeader.destination h) as [d|]; [|done]. destruct (ApsHeader.cluster h) as [c|]; [|done].
    destruct (ApsHeader.profile h) as [p|]; [|done]. destruct (ApsHeader.src_endpoint h) as [s|]; [|done].
    cbn in *. split_and!; try done. destruct d; [apply Hd|by apply uint_0].
  - change (bool_decide (ApsFrameType.Command = ApsFrameType.Command)) with true. cbn. split_and!; try done; by destruct (ApsHeader.src_endpoint h), (ApsHeader.destination h) as [[]|].
Qed.

(** The APS header survives the wire: every well-formed header (data,
    command, acknowledgement or inter-PAN, with or without extended header) is
    written in exactly [encoded_len] octets and read back, the rest of the buffer
    untouched; a header without an addressing field its frame type calls for is
    refused. *)
Theorem aps_header_round_trip (h : ApsHeader.t) (out : list Z) :
  (aps_header_wf h → (ApsHeader.encoded_len h ≤ length out)%nat →
     ∃ out', encode_to_slice h out = (Ok (ApsHeader.encoded_len h), out') ∧
       ApsHeader.decode_prefix out' = Ok (h, ApsHeader.encoded_len h) ∧
       drop (ApsHeader.encoded_len h) out' = drop (ApsHeader.encoded_len h) out) ∧
  (incomplete h → is_ok (encode_to_slice h out).1 = false).
Proof.
  split.
  - intros Hwf Hlen. pose proof (aps_header_len h Hwf) as Hl. rewrite Hl in *.
    exists (aps_header_wire h ++ drop (length (aps_header_wire h)) out).
    split; [apply writes_to_slice; [by apply aps_header_writes|done]|].
    split; [|by rewrite drop_app_length].
    pose proof (aps_header_decodes h Hwf [] (drop (length (aps_header_wire h)) out)) as Hd.
    unfold ApsHeader.decode_prefix, Reader.new. rewrite app_nil_l in Hd.
    change (length (A:=Z) []) with 0%nat in Hd. by rewrite Hd.
  - intros Hi. unfold encode_to_slice. destruct (encode h (Writer.new out)) as [[[]|e] w] eqn:E; [|done].
    by apply incomplete_refused in E.
Qed.

Lemma aps_header_round_trip_witness :
  let h := ApsHeader.with_extended (ApsHeader.data (Addressing.Endpoint 1) 0x0006 0x0104 2 0x5A)
    (ExtendedHeader.mk Fragmentation.First 3 None) in
  ∃ out', encode_to_slice h (replicate 12 0) = (Ok 10%nat, out') ∧
    ApsHeader.decode_prefix out' = Ok (h, 10%nat) ∧ drop 10 out' = [0; 0].
Proof.
  apply (proj1 (aps_header_round_trip (ApsHeader.with_extended
    (ApsHeader.data (Addressing.Endpoint 1) 0x0006 0x0104 2 0x5A)
    (ExtendedHeader.mk Fragmentation.First 3 None)) (replicate 12 0))).
  - split_and!; try done; vm_compute; split; congruence.
  - vm_compute. lia.
Defined.

(** Whatever octets the APS decoder accepts, it yields a well-formed header,
    and the octets are those of the header's encoding but for the six bits of the
    extended frame control it does not look at; so the header it yields
    re-encodes, and decodes to itself. *)
Theorem aps_header_decode_sound (r r' : Reader.t) (h : ApsHeader.t) :
  bytes_ok (Reader.buf r) → decode r = (Ok h, r') →
  aps_header_wf h ∧ ∃ c, parsed r (aps_header_image c h) r' ∧
    (∀ e, ApsHeader.extended h = Some e → Z.land c 0x3 = ext_bits e) ∧
    (ApsHeader.extended h = None → parsed r (aps_header_wire h) r').
Proof.
  intros Hok Hd. apply aps_header_parsed in Hd as (c & Hp & Hwf & Hc); [|done].
  split; [done|]. exists c. split_and!; [done|done|]. intros He.
  unfold aps_header_wire, aps_header_image in *. by rewrite He in *.
Qed.

Lemma aps_header_decode_sound_witness :
  let b := [0x80; 1; 6; 0; 4; 1; 2; 0x5A; 0xFD; 3; 99] in
  ∃ c, parsed (Reader.new b) (aps_header_image c (ApsHeader.with_extended
      (ApsHeader.data (Addressing.Endpoint 1) 6 0x0104 2 0x5A)
      (ExtendedHeader.mk Fragmentation.First 3 None))) (Reader.mk b 10).
Proof.
  destruct (aps_header_decode_sound (Reader.new [0x80; 1; 6; 0; 4; 1; 2; 0x5A; 0xFD; 3; 99])
    (Reader.mk [0x80; 1; 6; 0; 4; 1; 2; 0x5A; 0xFD; 3; 99] 10)
    (ApsHeader.with_extended (ApsHeader.data (Addressing.Endpoint 1) 6 0x0104 2 0x5A)
      (ExtendedHeader.mk Fragmentation.First 3 None))) as [_ (c & Hc & _)].
  - repeat constructor; vm_compute; congruence.
  - vm_compute. reflexivity.
  - exists c. exact Hc.
Defined.
