(* ===== verification/ApsCommand.v ===== *)
(** * APS command frames (panweave-aps/src/command.rs)

    The payloads of the APS commands with their decoders and encoders, one
    module per command.  A command is decoded with the whole payload in hand
    ([decode_exact]), because several commands end with octets that take the
    rest of the buffer. *)

From S2P Require Import Prelude Types Status Codec Wire Tlv Heapless Keys.

Module ApsCommandId.
Inductive t : Type :=
  | TransportKey | UpdateDevice | RemoveDevice | RequestKey | SwitchKey | Tunnel | VerifyKey
  | ConfirmKey | RelayMessageDownstream | RelayMessageUpstream | Unknown (v : Z).

Definition from_raw (v : Z) : t :=
  match v with
  | 0x05 => TransportKey
  | 0x06 => UpdateDevice
  | 0x07 => RemoveDevice
  | 0x08 => RequestKey
  | 0x09 => SwitchKey
  | 0x0E => Tunnel
  | 0x0F => VerifyKey
  | 0x10 => ConfirmKey
  | 0x11 => RelayMessageDownstream
  | 0x12 => RelayMessageUpstream
  | other => Unknown other
  end.

Definition raw (i : t) : Z :=
  match i with
  | TransportKey => 0x05
  | UpdateDevice => 0x06
  | RemoveDevice => 0x07
  | RequestKey => 0x08
  | SwitchKey => 0x09
  | Tunnel => 0x0E
  | VerifyKey => 0x0F
  | ConfirmKey => 0x10
  | RelayMessageDownstream => 0x11
  | RelayMessageUpstream => 0x12
  | Unknown v => v
  end.

#[global] Instance eq_dec : EqDecision t.
Proof. solve_decision. Defined.
End ApsCommandId.

Definition TLV_LINK_KEY_FEATURES : Z := 0x00.
Definition TLV_RELAY_MESSAGE : Z := 0x00.
Definition LINK_KEY_FEATURE_FRAME_COUNTER_SYNC : Z := 0x01.

(** [if !tlvs.is_empty() { TlvSet::validate(tlvs, |_| false)?; }] *)
Definition check_tlvs (tlvs : list Z) : SE Reader.t CodecError unit :=
  if negb (length tlvs =? 0)%nat
  then _ ← lift (map_err Codec.Tlv (TlvSet.validate tlvs (λ _, false))); mret tt
  else mret tt.

(** ** Transport Key *)

Module KeyDescriptor.
Inductive t : Type :=
  | TrustCenterLinkKey (key : list Z) (destination source : Z) (tlvs : list Z)
  | NetworkKey (key : list Z) (sequence destination source : Z)
  | ApplicationLinkKey (key : list Z) (partner : Z) (initiator : bool) (tlvs : list Z)
  | BasicAuthorizationKey (key : list Z) (sequence destination source : Z)
  | EphemeralAuthorization (global : bool).
End KeyDescriptor.

Module TransportKey.
Record t : Type := mk { descriptor : KeyDescriptor.t }.

Definition key_type (tk : t) : KeyType.t :=
  match descriptor tk with
  | KeyDescriptor.TrustCenterLinkKey _ _ _ _ => KeyType.TrustCenterLinkKey
  | KeyDescriptor.NetworkKey _ _ _ _ => KeyType.StandardNetworkKey
  | KeyDescriptor.ApplicationLinkKey _ _ _ _ => KeyType.ApplicationLinkKey
  | KeyDescriptor.BasicAuthorizationKey _ _ _ _ => KeyType.BasicAuthorization
  | KeyDescriptor.EphemeralAuthorization true => KeyType.EphemeralGlobal
  | KeyDescriptor.EphemeralAuthorization false => KeyType.EphemeralUnique
  end.

#[global] Instance Decode_t : Decode t :=
  v ← Reader.u8;
  let key_type := KeyType.from_raw v in
  match key_type with
  | KeyType.EphemeralGlobal | KeyType.EphemeralUnique =>
      mret (mk (KeyDescriptor.EphemeralAuthorization (bool_decide (key_type = KeyType.EphemeralGlobal))))
  | _ =>
      key ← Reader.array 16;
      match key_type with
      | KeyType.TrustCenterLinkKey =>
          destination ← Reader.u64_le;
          source ← Reader.u64_le;
          tlvs ← Reader.take_rest;
          check_tlvs tlvs;;
          mret (mk (KeyDescriptor.TrustCenterLinkKey key destination source tlvs))
      | KeyType.StandardNetworkKey =>
          sequence ← Reader.u8;
          destination ← Reader.u64_le;
          source ← Reader.u64_le;
          mret (mk (KeyDescriptor.NetworkKey key sequence destination source))
      | KeyType.BasicAuthorization =>
          sequence ← Reader.u8;
          destination ← Reader.u64_le;
          source ← Reader.u64_le;
          mret (mk (KeyDescriptor.BasicAuthorizationKey key sequence destination source))
      | KeyType.ApplicationLinkKey =>
          partner ← Reader.u64_le;
          i ← Reader.u8;
          let initiator := negb (Z.land i 0x01 =? 0) in
          tlvs ← Reader.take_rest;
          check_tlvs tlvs;;
          mret (mk (KeyDescriptor.ApplicationLinkKey key partner initiator tlvs))
      | _ => fail (Unsupported "transport key type")
      end
  end.

#[global] Instance Encode_t : Encode t := {
  encoded_len tk :=
    (1 + match descriptor tk with
         | KeyDescriptor.TrustCenterLinkKey _ _ _ tlvs => 16 + 8 + 8 + length tlvs
         | KeyDescriptor.NetworkKey _ _ _ _ | KeyDescriptor.BasicAuthorizationKey _ _ _ _ => 16 + 1 + 8 + 8
         | KeyDescriptor.ApplicationLinkKey _ _ _ tlvs => 16 + 8 + 1 + length tlvs
         | KeyDescriptor.EphemeralAuthorization _ => 0
         end)%nat;
  encode tk :=
    Writer.u8 (KeyType.raw (key_type tk));;
    match descriptor tk with
    | KeyDescriptor.TrustCenterLinkKey key destination source tlvs =>
        Writer.bytes key;; Writer.u64_le destination;; Writer.u64_le source;; Writer.bytes tlvs
    | KeyDescriptor.NetworkKey key sequence destination source
    | KeyDescriptor.BasicAuthorizationKey key sequence destination source =>
        Writer.bytes key;; Writer.u8 sequence;; Writer.u64_le destination;; Writer.u64_le source
    | KeyDescriptor.ApplicationLinkKey key partner initiator tlvs =>
        Writer.bytes key;; Writer.u64_le partner;; Writer.u8 (Z_of_bool initiator);; Writer.bytes tlvs
    | KeyDescriptor.EphemeralAuthorization _ => mret tt
    end
}.
End TransportKey.

Definition write_link_key_features (features : Z) : SE Writer.t CodecError unit :=
  write_tlv TLV_LINK_KEY_FEATURES [features].

(** ** Update Device and Remove Device *)

Module UpdateDeviceStatus.
Inductive t : Type :=
  | SecuredRejoin | UnsecuredJoin | DeviceLeft | TrustCenterRejoin | Reserved (v : Z).

Definition from_raw (v : Z) : t :=
  match v with
  | 0x00 => SecuredRejoin
  | 0x01 => UnsecuredJoin
  | 0x02 => DeviceLeft
  | 0x03 => TrustCenterRejoin
  | other => Reserved other
  end.

Definition raw (s : t) : Z :=
  match s with
  | SecuredRejoin => 0x00
  | UnsecuredJoin => 0x01
  | DeviceLeft => 0x02
  | TrustCenterRejoin => 0x03
  | Reserved v => v
  end.
End UpdateDeviceStatus.

Module UpdateDevice.
Record t : Type := mk { device : Z; short : Z; status : UpdateDeviceStatus.t; joiner_tlvs : list Z }.

#[global] Instance Decode_t : Decode t :=
  device ← Reader.u64_le;
  short ← Reader.u16_le;
  v ← Reader.u8;
  let status := UpdateDeviceStatus.from_raw v in
  joiner_tlvs ← Reader.take_rest;
  check_tlvs joiner_tlvs;;
  mret (mk device short status joiner_tlvs).

#[global] Instance Encode_t : Encode t := {
  encoded_len u := (8 + 2 + 1 + length (joiner_tlvs u))%nat;
  encode u :=
    Writer.u64_le (device u);;
    Writer.u16_le (short u);;
    Writer.u8 (UpdateDeviceStatus.raw (status u));;
    Writer.bytes (joiner_tlvs u)
}.
End UpdateDevice.

Module RemoveDevice.
Record t : Type := mk { target : Z }.

#[global] Instance Decode_t : Decode t := target ← Reader.u64_le; mret (mk target).
#[global] Instance Encode_t : Encode t := {
  encoded_len _ := 8%nat;
  encode r := Writer.u64_le (target r)
}.
End RemoveDevice.

(** ** Request Key and Switch Key *)

Module RequestKeyType.
Inductive t : Type := ApplicationLinkKey | TrustCenterLinkKey | Unknown (v : Z).

Definition from_raw (v : Z) : t :=
  match v with
  | 0x02 => ApplicationLinkKey
  | 0x04 => TrustCenterLinkKey
  | other => Unknown other
  end.

Definition raw (k : t) : Z :=
  match k with
  | ApplicationLinkKey => 0x02
  | TrustCenterLinkKey => 0x04
  | Unknown v => v
  end.

#[global] Instance eq_dec : EqDecision t.
Proof. solve_decision. Defined.
End RequestKeyType.

Module RequestKey.
Record t : Type := mk { key_type : RequestKeyType.t; partner : option Z }.

#[global] Instance Decode_t : Decode t :=
  v ← Reader.u8;
  let key_type := RequestKeyType.from_raw v in
  partner ← match key_type with
            | RequestKeyType.ApplicationLinkKey => p ← Reader.u64_le; mret (Some p)
            | _ =>
                n ← gets Reader.remaining;
                if (8 <=? n)%nat then p ← Reader.u64_le; mret (Some p) else mret None
            end;
  mret (mk key_type partner).

Definition is_application (k : RequestKeyType.t) : bool :=
  bool_decide (k = RequestKeyType.ApplicationLinkKey).

#[global] Instance Encode_t : Encode t := {
  encoded_len r := (1 + if is_application (key_type r) then 8 else 0)%nat;
  encode r :=
    Writer.u8 (RequestKeyType.raw (key_type r));;
    if is_application (key_type r)
    then p ← lift (ok_or (partner r) (Unrepresentable "partner")); Writer.u64_le p
    else mret tt
}.
End RequestKey.

Module SwitchKey.
Record t : Type := mk { sequence : Z }.

#[global] Instance Decode_t : Decode t := sequence ← Reader.u8; mret (mk sequence).
#[global] Instance Encode_t : Encode t := {
  encoded_len _ := 1%nat;
  encode s := Writer.u8 (sequence s)
}.
End SwitchKey.

(** ** Tunnel *)

Module Tunnel.
Record t : Type := mk { destination : Z; tunneled : list Z }.

#[global] Instance Decode_t : Decode t :=
  destination ← Reader.u64_le;
  tunneled ← Reader.take_rest;
  if (length tunneled <? 2 + 5)%nat then fail (Truncated (2 + 5) (length tunneled))
  else mret (mk destination tunneled).

#[global] Instance Encode_t : Encode t := {
  encoded_len u := (8 + length (tunneled u))%nat;
  encode u := Writer.u64_le (destination u);; Writer.bytes (tunneled u)
}.
End Tunnel.

(** ** Verify Key and Confirm Key *)

Module VerifyKey.
Record t : Type := mk { key_type : KeyType.t; source : Z; hash : list Z }.

#[global] Instance Decode_t : Decode t :=
  v ← Reader.u8;
  source ← Reader.u64_le;
  hash ← Reader.array 16;
  mret (mk (KeyType.from_raw v) source hash).

#[global] Instance Encode_t : Encode t := {
  encoded_len _ := (1 + 8 + 16)%nat;
  encode u :=
    Writer.u8 (KeyType.raw (key_type u));; Writer.u64_le (source u);; Writer.bytes (hash u)
}.
End VerifyKey.

Module ConfirmKey.
Record t : Type := mk { status : ApsStatus.t; key_type : KeyType.t; destination : Z }.

#[global] Instance Decode_t : Decode t :=
  s ← Reader.u8;
  k ← Reader.u8;
  destination ← Reader.u64_le;
  mret (mk (ApsStatus.from_raw s) (KeyType.from_raw k) destination).

#[global] Instance Encode_t : Encode t := {
  encoded_len _ := (1 + 1 + 8)%nat;
  encode u :=
    Writer.u8 (ApsStatus.raw (status u));;
    Writer.u8 (KeyType.raw (key_type u));;
    Writer.u64_le (destination u)
}.
End ConfirmKey.

(** ** Relay Message *)

Module RelayMessage.
Record t : Type := mk { joiner : Z; message : list Z }.

#[global] Instance Decode_t : Decode t :=
  bytes ← Reader.take_rest;
  set ← lift (map_err Codec.Tlv (TlvSet.validate bytes (λ _, false)));
  relay ← lift (map_err Codec.Tlv (TlvSet.require set TLV_RELAY_MESSAGE));
  match Reader.u64_le (Reader.new (value relay)) with
  | (Err e, _) => fail e
  | (Ok joiner, rr) =>
      let message := Reader.peek_rest rr in
      if (length message <? 2)%nat then fail (Truncated 2 (length message))
      else mret (mk joiner message)
  end.

#[global] Instance Encode_t : Encode t := {
  encoded_len m := (2 + 8 + length (message m))%nat;
  encode m :=
    let len := (8 + length (message m))%nat in
    if ((len =? 0) || (256 <? len))%nat then fail (Unrepresentable "relay message")
    else
      Writer.u8 TLV_RELAY_MESSAGE;;
      Writer.u8 (wrap 8 (Z.of_nat (len - 1)));;
      Writer.u64_le (joiner m);;
      Writer.bytes (message m)
}.
End RelayMessage.

(** ** Commands *)

Module ApsCommand.
Inductive t : Type :=
  | TransportKey (c : TransportKey.t)
  | UpdateDevice (c : UpdateDevice.t)
  | RemoveDevice (c : RemoveDevice.t)
  | RequestKey (c : RequestKey.t)
  | SwitchKey (c : SwitchKey.t)
  | Tunnel (c : Tunnel.t)
  | VerifyKey (c : VerifyKey.t)
  | ConfirmKey (c : ConfirmKey.t)
  | RelayDownstream (c : RelayMessage.t)
  | RelayUpstream (c : RelayMessage.t).

Definition id (c : t) : ApsCommandId.t :=
  match c with
  | TransportKey _ => ApsCommandId.TransportKey
  | UpdateDevice _ => ApsCommandId.UpdateDevice
  | RemoveDevice _ => ApsCommandId.RemoveDevice
  | RequestKey _ => ApsCommandId.RequestKey
  | SwitchKey _ => ApsCommandId.SwitchKey
  | Tunnel _ => ApsCommandId.Tunnel
  | VerifyKey _ => ApsCommandId.VerifyKey
  | ConfirmKey _ => ApsCommandId.ConfirmKey
  | RelayDownstream _ => ApsCommandId.RelayMessageDownstream
  | RelayUpstream _ => ApsCommandId.RelayMessageUpstream
  end.

#[global] Instance Decode_t : Decode t :=
  v ← Reader.u8;
  match ApsCommandId.from_raw v with
  | ApsCommandId.TransportKey => c ← decode; mret (TransportKey c)
  | ApsCommandId.UpdateDevice => c ← decode; mret (UpdateDevice c)
  | ApsCommandId.RemoveDevice => c ← decode; mret (RemoveDevice c)
  | ApsCommandId.RequestKey => c ← decode; mret (RequestKey c)
  | ApsCommandId.SwitchKey => c ← decode; mret (SwitchKey c)
  | ApsCommandId.Tunnel => c ← decode; mret (Tunnel c)
  | ApsCommandId.VerifyKey => c ← decode; mret (VerifyKey c)
  | ApsCommandId.ConfirmKey => c ← decode; mret (ConfirmKey c)
  | ApsCommandId.RelayMessageDownstream => c ← decode; mret (RelayDownstream c)
  | ApsCommandId.RelayMessageUpstream => c ← decode; mret (RelayUpstream c)
  | ApsCommandId.Unknown _ => fail (Unsupported "APS command")
  end.

#[global] Instance Encode_t : Encode t := {
  encoded_len c :=
    (1 + match c with
         | TransportKey c => encoded_len c
         | UpdateDevice c => encoded_len c
         | RemoveDevice c => encoded_len c
         | RequestKey c => encoded_len c
         | SwitchKey c => encoded_len c
         | Tunnel c => encoded_len c
         | VerifyKey c => encoded_len c
         | ConfirmKey c => encoded_len c
         | RelayDownstream c | RelayUpstream c => encoded_len c
         end)%nat;
  encode c :=
    Writer.u8 (ApsCommandId.raw (id c));;
    match c with
    | TransportKey c => encode c
    | UpdateDevice c => encode c
    | RemoveDevice c => encode c
    | RequestKey c => encode c
    | SwitchKey c => encode c
    | Tunnel c => encode c
    | VerifyKey c => encode c
    | ConfirmKey c => encode c
    | RelayDownstream c | RelayUpstream c => encode c
    end
}.
End ApsCommand.

(** ** Wire format *)

(** A key of sixteen octets; a list of TLVs by the rules of Annex I. *)
Definition key_ok (k : list Z) : Prop := length k = 16%nat ∧ bytes_ok k.
Definition tlvs_ok (tlvs : list Z) : Prop :=
  bytes_ok tlvs ∧ ∃ ts, tlvs = tlvs_wire ts ∧ tlv_spec (λ _, false) ts.

(** A wire value that parses back to the constructor. *)
Definition kt_ok (k : KeyType.t) : Prop := uint 8 (KeyType.raw k) ∧ KeyType.from_raw (KeyType.raw k) = k.

Module Wf.
Definition descriptor (d : KeyDescriptor.t) : Prop :=
  match d with
  | KeyDescriptor.TrustCenterLinkKey key destination source tlvs =>
      key_ok key ∧ uint 64 destination ∧ uint 64 source ∧ tlvs_ok tlvs
  | KeyDescriptor.NetworkKey key sequence destination source
  | KeyDescriptor.BasicAuthorizationKey key sequence destination source =>
      key_ok key ∧ uint 8 sequence ∧ uint 64 destination ∧ uint 64 source
  | KeyDescriptor.ApplicationLinkKey key partner _ tlvs => key_ok key ∧ uint 64 partner ∧ tlvs_ok tlvs
  | KeyDescriptor.EphemeralAuthorization _ => True
  end.

Definition update (u : UpdateDevice.t) : Prop :=
  uint 64 (UpdateDevice.device u) ∧ uint 16 (UpdateDevice.short u) ∧
  uint 8 (UpdateDeviceStatus.raw (UpdateDevice.status u)) ∧
  UpdateDeviceStatus.from_raw (UpdateDeviceStatus.raw (UpdateDevice.status u)) = UpdateDevice.status u ∧
  tlvs_ok (UpdateDevice.joiner_tlvs u).

(** A partner is sent with an application link key request, and only then. *)
Definition request (r : RequestKey.t) : Prop :=
  uint 8 (RequestKeyType.raw (RequestKey.key_type r)) ∧
  RequestKeyType.from_raw (RequestKeyType.raw (RequestKey.key_type r)) = RequestKey.key_type r ∧
  RequestKey.is_application (RequestKey.key_type r) = is_some (RequestKey.partner r) ∧
  from_option (uint 64) True (RequestKey.partner r).

Definition verify (v : VerifyKey.t) : Prop :=
  kt_ok (VerifyKey.key_type v) ∧ uint 64 (VerifyKey.source v) ∧ key_ok (VerifyKey.hash v).

Definition confirm (c : ConfirmKey.t) : Prop :=
  uint 8 (ApsStatus.raw (ConfirmKey.status c)) ∧
  ApsStatus.from_raw (ApsStatus.raw (ConfirmKey.status c)) = ConfirmKey.status c ∧
  kt_ok (ConfirmKey.key_type c) ∧ uint 64 (ConfirmKey.destination c).

Definition tunnel (u : Tunnel.t) : Prop :=
  uint 64 (Tunnel.destination u) ∧ bytes_ok (Tunnel.tunneled u) ∧ (7 ≤ length (Tunnel.tunneled u))%nat.

Definition relay (m : RelayMessage.t) : Prop :=
  uint 64 (RelayMessage.joiner m) ∧ bytes_ok (RelayMessage.message m) ∧
  (2 ≤ length (RelayMessage.message m) ≤ 248)%nat.

Definition command (c : ApsCommand.t) : Prop :=
  match c with
  | ApsCommand.TransportKey c => descriptor (TransportKey.descriptor c)
  | ApsCommand.UpdateDevice c => update c
  | ApsCommand.RemoveDevice c => uint 64 (RemoveDevice.target c)
  | ApsCommand.RequestKey c => request c
  | ApsCommand.SwitchKey c => uint 8 (SwitchKey.sequence c)
  | ApsCommand.Tunnel c => tunnel c
  | ApsCommand.VerifyKey c => verify c
  | ApsCommand.ConfirmKey c => confirm c
  | ApsCommand.RelayDownstream c | ApsCommand.RelayUpstream c => relay c
  end.

(** What can be received: a partner address may come with any request. *)
Definition received (c : ApsCommand.t) : Prop :=
  match c with
  | ApsCommand.RequestKey r =>
      uint 8 (RequestKeyType.raw (RequestKey.key_type r)) ∧
      RequestKeyType.from_raw (RequestKeyType.raw (RequestKey.key_type r)) = RequestKey.key_type r ∧
      (RequestKey.key_type r = RequestKeyType.ApplicationLinkKey → RequestKey.partner r ≠ None) ∧
      from_option (uint 64) True (RequestKey.partner r)
  | _ => command c
  end.
End Wf.

(** The octets that announce a command, and a key. *)
Definition command_code (c : ApsCommand.t) : Z :=
  match c with
  | ApsCommand.TransportKey _ => 0x05
  | ApsCommand.UpdateDevice _ => 0x06
  | ApsCommand.RemoveDevice _ => 0x07
  | ApsCommand.RequestKey _ => 0x08
  | ApsCommand.SwitchKey _ => 0x09
  | ApsCommand.Tunnel _ => 0x0E
  | ApsCommand.VerifyKey _ => 0x0F
  | ApsCommand.ConfirmKey _ => 0x10
  | ApsCommand.RelayDownstream _ => 0x11
  | ApsCommand.RelayUpstream _ => 0x12
  end.

Definition descriptor_code (d : KeyDescriptor.t) : Z :=
  match d with
  | KeyDescriptor.NetworkKey _ _ _ _ => 0x01
  | KeyDescriptor.ApplicationLinkKey _ _ _ _ => 0x03
  | KeyDescriptor.TrustCenterLinkKey _ _ _ _ => 0x04
  | KeyDescriptor.EphemeralAuthorization global => if global then 0xB0 else 0xB1
  | KeyDescriptor.BasicAuthorizationKey _ _ _ _ => 0xB2
  end.

Definition descriptor_wire (d : KeyDescriptor.t) : list Z :=
  match d with
  | KeyDescriptor.TrustCenterLinkKey key destination source tlvs =>
      key ++ to_le 8 destination ++ to_le 8 source ++ tlvs
  | KeyDescriptor.NetworkKey key sequence destination source
  | KeyDescriptor.BasicAuthorizationKey key sequence destination source =>
      key ++ [sequence] ++ to_le 8 destination ++ to_le 8 source
  | KeyDescriptor.ApplicationLinkKey key partner initiator tlvs =>
      key ++ to_le 8 partner ++ [Z_of_bool initiator] ++ tlvs
  | KeyDescriptor.EphemeralAuthorization _ => []
  end.

(** The one TLV a relay message consists of. *)
Definition relay_tlv (m : RelayMessage.t) : Tlv.Tlv :=
  MkTlv TLV_RELAY_MESSAGE (to_le 8 (RelayMessage.joiner m) ++ RelayMessage.message m).

Definition command_body (c : ApsCommand.t) : list Z :=
  match c with
  | ApsCommand.TransportKey c =>
      [descriptor_code (TransportKey.descriptor c)] ++ descriptor_wire (TransportKey.descriptor c)
  | ApsCommand.UpdateDevice c =>
      to_le 8 (UpdateDevice.device c) ++ to_le 2 (UpdateDevice.short c) ++
      [UpdateDeviceStatus.raw (UpdateDevice.status c)] ++ UpdateDevice.joiner_tlvs c
  | ApsCommand.RemoveDevice c => to_le 8 (RemoveDevice.target c)
  | ApsCommand.RequestKey c =>
      [RequestKeyType.raw (RequestKey.key_type c)] ++ from_option (to_le 8) [] (RequestKey.partner c)
  | ApsCommand.SwitchKey c => [SwitchKey.sequence c]
  | ApsCommand.Tunnel c => to_le 8 (Tunnel.destination c) ++ Tunnel.tunneled c
  | ApsCommand.VerifyKey c =>
      [KeyType.raw (VerifyKey.key_type c)] ++ to_le 8 (VerifyKey.source c) ++ VerifyKey.hash c
  | ApsCommand.ConfirmKey c =>
      [ApsStatus.raw (ConfirmKey.status c)] ++ [KeyType.raw (ConfirmKey.key_type c)] ++
      to_le 8 (ConfirmKey.destination c)
  | ApsCommand.RelayDownstream c | ApsCommand.RelayUpstream c => tlv_wire (relay_tlv c)
  end.

Definition command_wire (c : ApsCommand.t) : list Z := [command_code c] ++ command_body c.

(** The octets of a received command.  Three things are read and not kept: the
    upper bits of the octet that names the initiator, and the other TLVs of a
    relay message; and a partner address may follow a request of another type,
    which is kept and not sent on. *)
Definition received_body (c : ApsCommand.t) (bs : list Z) : Prop :=
  match c with
  | ApsCommand.TransportKey (TransportKey.mk (KeyDescriptor.ApplicationLinkKey key partner initiator tlvs)) =>
      ∃ v, uint 8 v ∧ Z.odd v = initiator ∧ bs = [0x03] ++ key ++ to_le 8 partner ++ [v] ++ tlvs
  | ApsCommand.RelayDownstream m | ApsCommand.RelayUpstream m =>
      ∃ ts, tlv_spec (λ _, false) ts ∧ relay_tlv m ∈ ts ∧ bs = tlvs_wire ts
  | _ => bs = command_body c
  end.

Section encoding.
Lemma relay_tlv_ok m : Wf.relay m → tlv_ok (relay_tlv m).
Proof.
  intros (_ & Hb & Hl). unfold tlv_ok, relay_tlv. cbn [tag value].
  split_and!; [split; vm_compute; congruence|len|len|]. apply bytes_ok_app. by split; [apply to_le_bytes_ok|].
Qed.

Lemma relay_writes m : Wf.relay m → writes (encode m) (tlv_wire (relay_tlv m)).
Proof.
  intros (_ & _ & Hl). cbn [encode RelayMessage.Encode_t]. cbv zeta.
  rewrite (proj2 (Nat.eqb_neq _ _)), (proj2 (Nat.ltb_ge _ _)) by lia. cbn [orb].
  unfold tlv_wire, relay_tlv. cbn [tag value]. rewrite wrap_small by (unfold uint; lia).
  replace (length (to_le 8 (RelayMessage.joiner m) ++ RelayMessage.message m) - 1)%nat
    with (8 + length (RelayMessage.message m) - 1)%nat by len.
  change (?a :: ?b :: ?c) with ([a] ++ [b] ++ c). write_fields.
Qed.

Lemma command_writes c : Wf.command c → writes (encode c) (command_wire c).
Proof.
  intros Hwf. cbn [encode ApsCommand.Encode_t]. unfold command_wire.
  replace (ApsCommandId.raw (ApsCommand.id c)) with (command_code c) by (by destruct c). write_field.
  destruct c as [[[| | | |[]]]|u|r|[k p]|s|u|v|f|m|m]; cbn [command_body encode TransportKey.Encode_t
    TransportKey.descriptor descriptor_wire UpdateDevice.Encode_t RemoveDevice.Encode_t
    RequestKey.Encode_t SwitchKey.Encode_t Tunnel.Encode_t VerifyKey.Encode_t ConfirmKey.Encode_t].
  all: try solve [write_fields]; try by apply relay_writes.
  - destruct Hwf as (_ & _ & Hp & _). write_field. simpl in *. rewrite Hp.
    destruct p; [apply (writes_u64 z)|apply writes_ret].
Qed.

Lemma command_len c : Wf.command c → encoded_len c = length (command_wire c).
Proof.
  intros Hwf. unfold command_wire. rewrite length_app.
  destruct c as [[[]]|u|r|[k p]|s|u|v|f|m|m]; cbn [command_body encoded_len ApsCommand.Encode_t
    TransportKey.Encode_t TransportKey.descriptor descriptor_wire UpdateDevice.Encode_t
    RemoveDevice.Encode_t RequestKey.Encode_t SwitchKey.Encode_t Tunnel.Encode_t VerifyKey.Encode_t
    ConfirmKey.Encode_t RelayMessage.Encode_t] in *; unfold tlv_wire; cbn [relay_tlv value tag length].
  all: try solve [cbn in Hwf; unfold Wf.verify, key_ok in Hwf; destruct_and?; len].
  destruct Hwf as (_ & _ & Hx & _). cbn [RequestKey.partner RequestKey.key_type] in Hx |- *. rewrite Hx. by destruct p.
Qed.
End encoding.

(** ** Decoding *)

Section decoding.
Lemma tlvs_ok_valid tlvs : tlvs_ok tlvs → TlvSet.validate tlvs (λ _, false) = Ok (TlvSet.mk tlvs).
Proof.
  intros (Hb & ts & -> & Hs). apply validate_accepts; [done|]. exists ts. split_and!; [done..|].
  apply iter_wire, Hs.
Qed.

Lemma decodes_all_check {B} tlvs (f : unit → SE Reader.t CodecError B) bs b :
  tlvs_ok tlvs → decodes_all (f tt) bs b → decodes_all (check_tlvs tlvs ≫= f) bs b.
Proof.
  intros Ht Hf. refine (decodes_all_bind _ _ [] bs tt b _ Hf). unfold check_tlvs. rewrite (tlvs_ok_valid _ Ht).
  case_match; apply decodes_ret.
Qed.

Lemma relay_decodes m ts :
  Wf.relay m → tlv_spec (λ _, false) ts → relay_tlv m ∈ ts → decodes_all decode (tlvs_wire ts) m.
Proof.
  intros (Hj & Hb & Hl) Hts Hin. pose proof (tlvs_wire_bytes ts (proj1 Hts)) as Hok. unfold decode, RelayMessage.Decode_t. apply decodes_all_rest.
  assert (TlvSet.validate (tlvs_wire ts) (λ _, false) = Ok (TlvSet.mk (tlvs_wire ts))) as Hv
    by (apply tlvs_ok_valid; split; [done|by exists ts]).
  destruct (tlv_find_unique _ _ _ TLV_RELAY_MESSAGE (relay_tlv m) Hok Hv) as [[_ Hf] _]; [done|].
  rewrite iter_wire in Hf by apply Hts. specialize (Hf (conj Hin eq_refl)). rewrite Hv.
  intros pre. unfold mbind, se_bind, lift. cbn [map_err]. unfold TlvSet.require. rewrite Hf. cbn [ok_or map_err].
  pose proof (decodes_u64 (RelayMessage.joiner m) Hj [] (RelayMessage.message m)) as Hd.
  cbn [app length] in Hd. unfold Reader.new. cbn [relay_tlv value]. rewrite Hd. unfold Reader.peek_rest, get_from. cbn [Reader.buf Reader.pos].
  rewrite (proj2 (Nat.leb_le _ _)) by len. cbn [default]. rewrite (drop_app_length' _ _ (0 + 8)) by len.
  cbv [id]. rewrite (proj2 (Nat.ltb_ge _ _)) by lia. rewrite app_nil_r. by destruct m.
Qed.

Lemma relay_body m : Wf.relay m → received_body (ApsCommand.RelayUpstream m) (tlv_wire (relay_tlv m)).
Proof.
  intros Ht%relay_tlv_ok. exists [relay_tlv m]. split_and!; [|by left|symmetry; apply app_nil_r].
  split_and!; [by constructor|simpl; constructor; [apply not_elem_of_nil|constructor]|].
  constructor; [done|constructor].
Qed.

Lemma id_from_code c : ApsCommandId.from_raw (command_code c) = ApsCommand.id c.
Proof. by destruct c. Qed.

Lemma request_decodes q :
  Wf.received (ApsCommand.RequestKey q) → decodes_all decode (command_body (ApsCommand.RequestKey q)) q.
Proof.
  destruct q as [k p]. cbn [Wf.received command_body RequestKey.key_type RequestKey.partner].
  intros (_ & Hk & Hp & Hu). unfold decode, RequestKey.Decode_t. read_field_end. cbv zeta. rewrite Hk.
  apply (decodes_all_map _ (RequestKey.mk k)).
  destruct p as [p|]; cbn [from_option] in *.
  - pose proof (decodes_all_map Reader.u64_le Some _ _ (decodes_to_end _ _ _ (decodes_u64 p Hu))) as Hd.
    destruct k; [exact Hd|..]; intros pre; specialize (Hd pre); unfold mbind at 1, se_bind at 1, gets, Reader.remaining;
      cbn [Reader.buf Reader.pos]; rewrite (proj2 (Nat.leb_le _ _)) by (rewrite length_app, length_to_le; lia); exact Hd.
  - destruct k; [by destruct (Hp eq_refl)|..].
    all: intros pre; unfold mbind, se_bind, gets, Reader.remaining; cbn; rewrite app_nil_r, Nat.sub_diag; done.
Qed.

Lemma initiator_bit v : negb (Z.land v 0x01 =? 0) = Z.odd v.
Proof.
  change 0x01 with (Z.ones 1). rewrite Z.land_ones by lia. change (2 ^ 1) with 2. rewrite Zmod_odd. by destruct (Z.odd v).
Qed.

Lemma descriptor_decodes d bs :
  Wf.descriptor d → received_body (ApsCommand.TransportKey (TransportKey.mk d)) bs → decodes_all decode bs (TransportKey.mk d).
Proof.
  intros Hd Hb. unfold decode, TransportKey.Decode_t.
  destruct d as [key dst src tlvs|key sq dst src|key p i tlvs|key sq dst src|[]]; cbn [received_body] in Hb;
    [|  |destruct Hb as (v & Hv & Hi & Hb)|..]; subst bs; cbn in Hd;
    destruct_and?; cbn [command_body TransportKey.descriptor descriptor_code app descriptor_wire];
    apply decodes_all_u8; cbn; try apply decodes_all_ret;
    (eapply (decodes_all_bind (Reader.array 16)); [apply decodes_array; match goal with H : key_ok _ |- _ => apply H end|]);
    repeat first [read_field_end | eapply decodes_all_check; [eassumption|]].
  all: try apply decodes_all_ret.
  all: try read_last. rewrite (initiator_bit v), Hi. apply decodes_all_ret.
Qed.

Lemma command_decodes c bs :
  Wf.received c → received_body c bs → decodes_all decode (command_code c :: bs) c.
Proof.
  intros Hwf Hb. unfold decode, ApsCommand.Decode_t. apply decodes_all_u8. rewrite id_from_code.
  destruct c as [[d]|[]|[t]|q|[s]|[]|[]|[]|m|m]; cbn [ApsCommand.id] in *.
  all: eapply decodes_all_map.
  1: by apply descriptor_decodes.
  3: cbn [received_body] in Hb; subst bs; by apply request_decodes.
  all: cbn [Wf.received Wf.command] in Hwf; cbn [received_body command_body] in Hb.
  7,8: destruct Hb as (ts & Hts & Hin & ->); by apply relay_decodes.
  all: subst bs; unfold decode, UpdateDevice.Decode_t, RemoveDevice.Decode_t, SwitchKey.Decode_t, Tunnel.Decode_t,
    VerifyKey.Decode_t, ConfirmKey.Decode_t, Wf.update, Wf.tunnel, Wf.verify, Wf.confirm, kt_ok in *; cbv zeta;
    cbn [UpdateDevice.device UpdateDevice.short UpdateDevice.status UpdateDevice.joiner_tlvs
    RemoveDevice.target SwitchKey.sequence Tunnel.destination Tunnel.tunneled VerifyKey.key_type
    VerifyKey.source VerifyKey.hash ConfirmKey.status ConfirmKey.key_type ConfirmKey.destination] in *;
    destruct_and?.
  - do 4 read_field_end. match goal with H : _ = status |- _ => rewrite H end.
    apply decodes_all_check; [done|apply decodes_all_ret].
  - read_last.
  - read_last.
  - do 2 read_field_end. rewrite (proj2 (Nat.ltb_ge _ _)) by lia. apply decodes_all_ret.
  - do 2 read_field_end. eapply field_last; [apply _|done|done|congruence].
  - do 2 read_field_end. eapply field_last; [apply _|done|done|congruence].
Qed.

(** What is sent can be received. *)
Lemma command_received c : Wf.command c → Wf.received c ∧ received_body c (command_body c).
Proof.
  intros Hwf. destruct c as [[[key ? ? ?| |key ? i ?| |]]|u|r|[k p]|s|u|v|f|m|m]; try done.
  - split; [done|]. exists (Z_of_bool i). by destruct i.
  - destruct Hwf as (? & ? & Hp & ?). split; [|done]. cbn in *. split_and!; [done..| |done]. intros ->. by destruct p.
  - split; [done|]. by apply relay_body.
  - split; [done|]. by apply relay_body.
Qed.

#[export] Instance aps_command_FullCodec : FullCodec ApsCommand.t := {
  full_ok := Wf.command;
  full_wire := command_wire;
  full_writes := command_writes;
  full_decodes c Hc := command_decodes c _ (proj1 (command_received c Hc)) (proj2 (command_received c Hc));
  full_len := command_len
}.
End decoding.

(** ** What the decoder accepts *)

Section parsing.
Implicit Types r : Reader.t.

(** The command as the encoder sends it: without the partner address that a
    request of another type came with. *)
Definition normalise (c : ApsCommand.t) : ApsCommand.t :=
  match c with
  | ApsCommand.RequestKey q =>
      ApsCommand.RequestKey (RequestKey.mk (RequestKey.key_type q)
        (if RequestKey.is_application (RequestKey.key_type q) then RequestKey.partner q else None))
  | _ => c
  end.

Lemma normalise_sent c : Wf.received c → Wf.command (normalise c).
Proof.
  destruct c as [| | |[k p]| | | | | |]; try done. cbn. unfold Wf.request. cbn.
  intros (? & ? & Hp & ?). split_and!; [done..| |]; destruct k; cbn in *; try done. destruct p; [done|]. by destruct (Hp eq_refl).
Qed.

Lemma check_tlvs_ok tlvs r u r' :
  bytes_ok tlvs → check_tlvs tlvs r = (Ok u, r') → tlvs_ok tlvs ∧ r' = r.
Proof.
  intros Hok Hc. unfold check_tlvs in Hc. destruct (length tlvs =? 0)%nat eqn:E.
  - destruct tlvs; [|done]. injection Hc as <- <-. split; [|done]. split; [done|]. exists []. split; [done|].
    split_and!; [constructor|constructor|constructor].
  - cbn [negb] in Hc. apply se_bind_inv in Hc as (s & r1 & Hv & Hr). unfold lift in Hv.
    assert (TlvSet.validate tlvs (λ _, false) = Ok (TlvSet.mk tlvs)) as Hvb.
    { unfold TlvSet.validate in *. by destruct (TlvSet.validate_loop _ _ _). }
    rewrite Hvb in Hv. injection Hv as <- <-. injection Hr as <- <-.
    apply validate_accepts in Hvb as (ts & ? & ? & _); [|done]. split; [|done]. split; [done|]. by exists ts.
Qed.

Lemma key_type_raw_from_raw v : KeyType.raw (KeyType.from_raw v) = v.
Proof. unfold KeyType.from_raw. by repeat case_match. Qed.
Lemma kt_ok_from_raw v : uint 8 v → kt_ok (KeyType.from_raw v).
Proof. intros Hv. unfold kt_ok. by rewrite key_type_raw_from_raw. Qed.
Lemma request_type_raw_from_raw v : RequestKeyType.raw (RequestKeyType.from_raw v) = v.
Proof. unfold RequestKeyType.from_raw. by repeat case_match. Qed.
Lemma update_status_raw_from_raw v : UpdateDeviceStatus.raw (UpdateDeviceStatus.from_raw v) = v.
Proof. unfold UpdateDeviceStatus.from_raw. by repeat case_match. Qed.

(** Where a reader stands. *)
Definition inside r : Prop := bytes_ok (Reader.buf r) ∧ (Reader.pos r ≤ length (Reader.buf r))%nat.

Lemma parsed_inside r bs r' : parsed r bs r' → inside r → inside r' ∧ bytes_ok bs.
Proof.
  intros Hp [Hb Hl]. pose proof (parsed_bytes_ok _ _ _ Hp Hb) as [? ?]. by split; [split; [|eapply parsed_pos]|].
Qed.

Lemma rest_parsed r p r' : inside r → Reader.take_rest r = (Ok p, r') → parsed r p r' ∧ bytes_ok p.
Proof. intros Hr Hp%take_rest_parsed; [|apply Hr]. split; [done|]. by eapply parsed_inside. Qed.

(** A field, octets that end the buffer, and the TLV check. *)
Ltac field Hd x :=
  let r1 := fresh "r" in let Hf := fresh "Hf" in let P := fresh "P" in let W := fresh "W" in let O := fresh "O" in
  apply se_bind_inv in Hd as (x & r1 & Hf & Hd);
  apply field_parsed in Hf as [P W]; [|match goal with H : inside _ |- _ => apply H end];
  pose proof (proj1 (parsed_inside _ _ _ P ltac:(assumption))) as O.
Ltac rest Hd x :=
  let r1 := fresh "r" in let Hf := fresh "Hf" in let P := fresh "P" in let W := fresh "W" in
  apply se_bind_inv in Hd as (x & r1 & Hf & Hd); apply rest_parsed in Hf as [P W]; [|assumption].
Ltac tlv_check Hd :=
  let u := fresh "u" in let r1 := fresh "r" in let Hf := fresh "Hf" in
  apply se_bind_inv in Hd as (u & r1 & Hf & Hd); apply check_tlvs_ok in Hf as [Hf ->]; [|assumption].
(** The command is read, and its octets are the ones of its fields. *)
Ltac command_read Hd := injection Hd as <- <-; split; [first [exact I | by split_and!]|]; eexists; split; [parse_done|cbn; rewrite ?app_nil_r; try done].

Lemma transport_key_parsed r tk r' :
  inside r → decode r = (Ok tk, r') →
  Wf.descriptor (TransportKey.descriptor tk) ∧ ∃ bs, parsed r bs r' ∧ received_body (ApsCommand.TransportKey tk) bs.
Proof.
  intros Hok Hd. unfold decode, TransportKey.Decode_t in Hd. field Hd v. cbv zeta in Hd.
  assert (KeyType.raw (KeyType.from_raw v) = v) as Hv by apply key_type_raw_from_raw.
  destruct (KeyType.from_raw v) eqn:Ek; cbn in Hv; subst v; cbn in Hd.
  4,5: command_read Hd.
  all: field Hd key; try done.
  - field Hd sq. field Hd dst. field Hd src. command_read Hd.
  - field Hd p. field Hd i. rest Hd tlvs. tlv_check Hd. command_read Hd. exists i. by rewrite initiator_bit.
  - field Hd dst. field Hd src. rest Hd tlvs. tlv_check Hd. command_read Hd.
  - field Hd sq. field Hd dst. field Hd src. command_read Hd.
Qed.

Lemma request_key_parsed r q r' :
  inside r → decode r = (Ok q, r') →
  Wf.received (ApsCommand.RequestKey q) ∧ ∃ bs, parsed r bs r' ∧ received_body (ApsCommand.RequestKey q) bs.
Proof.
  intros Hok Hd. unfold decode, RequestKey.Decode_t in Hd. field Hd v. cbv zeta in Hd.
  apply se_bind_inv in Hd as (p & r1 & Hp & Hd). injection Hd as <- <-. cbn. rewrite request_type_raw_from_raw.
  assert (parsed r0 (from_option (to_le 8) [] p) r1 ∧ from_option (uint 64) True p ∧
    (RequestKeyType.from_raw v = RequestKeyType.ApplicationLinkKey → p ≠ None)) as (Pp & Hu & Ha).
  { destruct (RequestKeyType.from_raw v); [field Hp q; injection Hp as <- <-; done|..].
    all: unfold gets, mbind at 1, se_bind at 1 in Hp; destruct (8 <=? _)%nat; [field Hp q|]; injection Hp as <- <-; try done.
    all: by split; [apply parsed_nil|]. }
  split; [done|]. eexists. split; [parse_done|done].
Qed.

Lemma relay_parsed r m r' :
  inside r → decode r = (Ok m, r') →
  Wf.relay m ∧ ∃ bs, parsed r bs r' ∧ received_body (ApsCommand.RelayUpstream m) bs.
Proof.
  intros Hok Hd. unfold decode, RelayMessage.Decode_t in Hd. rest Hd bs.
  apply se_bind_inv in Hd as (set & r1 & Hv & Hd). apply se_bind_inv in Hd as (t & r2 & Hq & Hd).
  unfold lift in Hv, Hq.
  assert (TlvSet.validate bs (λ _, false) = Ok (TlvSet.mk bs)) as Hvb.
  { unfold TlvSet.validate in *. by destruct (TlvSet.validate_loop _ _ _). }
  rewrite Hvb in Hv. injection Hv as <- <-. apply validate_accepts in Hvb as (ts & -> & Hspec & Hi); [|done].
  unfold TlvSet.require in Hq. destruct (TlvSet.find _ _) as [t'|] eqn:Hf; [|done]. injection Hq as <- <-.
  unfold TlvSet.find in Hf. rewrite Hi in Hf. apply find_some in Hf as [Hin Htag%Z.eqb_eq]. apply list_elem_of_In in Hin.
  assert (tlv_ok t') as (_ & Hl & Hb) by (destruct Hspec as (Hts & _); rewrite Forall_forall in Hts; by apply Hts).
  destruct (Reader.u64_le (Reader.new (value t'))) as [[j|] rr] eqn:Hj; [|done].
  apply u64_parsed in Hj as [Hp Hu]; [|done].
  assert (inside (Reader.new (value t'))) as Hin0 by (split; [done|cbn; lia]).
  destruct (parsed_inside _ _ _ Hp Hin0) as [[_ Hle] _]. destruct (parsed_new _ _ _ Hp) as (msg & Hval & Hpos).
  assert (Reader.peek_rest rr = msg) as Hmsg.
  { destruct Hp as (Hpb & _ & _). unfold Reader.peek_rest, get_from. rewrite (proj2 (Nat.leb_le _ _) Hle). cbn [default].
    rewrite Hpb. cbn [Reader.buf Reader.new]. unfold Reader.position in Hpos. rewrite Hpos, Hval. apply drop_app_length. }
  rewrite Hmsg in Hd. destruct (Nat.ltb_spec (length msg) 2); [done|]. injection Hd as <- <-.
  rewrite Hval in Hb, Hl. apply bytes_ok_app in Hb as [_ Hb]. rewrite length_app, length_to_le in Hl.
  split; [split_and!; cbn; [done|done|lia|lia]|]. eexists. split; [exact P|]. exists ts. split_and!; [done| |done].
  unfold relay_tlv. cbn. rewrite <- Hval, <- Htag. by destruct t'.
Qed.

Lemma command_parsed bs c :
  bytes_ok bs → decode_exact bs = Ok c →
  Wf.received c ∧ ∃ l, bs = command_code c :: l ∧ received_body c l.
Proof.
  intros Hok. unfold decode_exact. destruct (decode (Reader.new bs)) as [[c'|] r] eqn:Hd; [|done].
  destruct (Reader.is_empty r) eqn:He; [|done]. intros [= ->].
  assert (inside (Reader.new bs)) as Hok' by (split; [done|cbn; lia]).
  unfold decode, ApsCommand.Decode_t in Hd. field Hd v.
  assert (v = ApsCommandId.raw (ApsCommandId.from_raw v)) as Hv by (unfold ApsCommandId.from_raw; by repeat case_match).
  cut (Wf.received c ∧ v = command_code c ∧ ∃ l, parsed r0 l r ∧ received_body c l).
  { intros (? & -> & l & Pl & Hl). split; [done|]. exists l. split; [|done].
    eapply parsed_all; [exact (parsed_trans _ _ _ _ _ P Pl)|done]. }
  destruct (ApsCommandId.from_raw v); [..|done]; apply se_bind_inv in Hd as (x & r1 & Hx & Hd);
    injection Hd as <- <-; subst v; cbn [Wf.received Wf.command command_code ApsCommandId.raw].
  - apply transport_key_parsed in Hx as [??]; done.
  - field Hx d. field Hx sh. field Hx st. cbv zeta in Hx. rest Hx tlvs. tlv_check Hx.
    injection Hx as <- <-. unfold Wf.update. cbn. rewrite update_status_raw_from_raw. split; [done|]. split; [done|].
    eexists. split; [parse_done|done].
  - field Hx d. injection Hx as <- <-. split; [done|]. split; [done|]. eexists. split; [parse_done|done].
  - apply request_key_parsed in Hx as [??]; done.
  - field Hx d. injection Hx as <- <-. split; [done|]. split; [done|]. eexists. split; [parse_done|done].
  - field Hx d. rest Hx t. destruct (Nat.ltb_spec (length t) (2 + 5)); [done|].
    injection Hx as <- <-. split; [done|]. split; [done|]. eexists. split; [parse_done|done].
  - field Hx k. field Hx s. field Hx h. injection Hx as <- <-.
    split; [split_and!; [by apply kt_ok_from_raw|done..]|]. split; [done|].
    eexists. split; [parse_done|]. cbn. by rewrite key_type_raw_from_raw.
  - field Hx s. field Hx k. field Hx d. injection Hx as <- <-. unfold Wf.confirm. cbn.
    rewrite aps_status_raw_from_raw. split; [split_and!; [done..|by apply kt_ok_from_raw|done]|]. split; [done|].
    eexists. split; [parse_done|]. by rewrite key_type_raw_from_raw.
  - apply relay_parsed in Hx as [??]; done.
  - apply relay_parsed in Hx as [??]; done.
Qed.
End parsing.

(** ** Theorems *)

(** Every well-formed APS command survives the wire: the encoder writes
    exactly [encoded_len] octets and touches nothing behind them, and decoding
    exactly those octets gives the command back.  This covers every key
    descriptor, the TLV tails, tunnelled and relayed frames, and the relay
    message's length octet. *)
Theorem aps_command_round_trip (c : ApsCommand.t) (out : list Z) :
  Wf.command c → (encoded_len c ≤ length out)%nat →
  ∃ out', encode_to_slice c out = (Ok (encoded_len c), out') ∧
    decode_exact (take (encoded_len c) out') = Ok c ∧
    drop (encoded_len c) out' = drop (encoded_len c) out.
Proof. apply (full_round_trip (HC:=aps_command_FullCodec)). Qed.

Lemma aps_command_round_trip_witness :
  let c := ApsCommand.RelayUpstream (RelayMessage.mk 0x1122334455667788 [1; 2; 3]) in
  ∃ out', encode_to_slice c (replicate 20 0) = (Ok (encoded_len c), out') ∧
    decode_exact (take (encoded_len c) out') = Ok c ∧
    drop (encoded_len c) out' = drop (encoded_len c) (replicate 20 0).
Proof.
  apply aps_command_round_trip; [|simpl; lia].
  split_and!; [split; vm_compute; congruence| |simpl; lia..].
  repeat constructor; vm_compute; congruence.
Defined.


