(* ===== verification/ApsSecurity.v ===== *)
(** * APS frame security (panweave-aps/src/security.rs,
    panweave-security/src/challenge.rs)

    The link keys shared with each partner, a two-slot cache of keyed ciphers,
    the handlers that secure outgoing and unsecure incoming APS frames, the Trust
    Center swap-out, and the challenge by which a rebooted device learns a
    partner's frame counter. *)

From S2P Require Import Prelude Codec Heapless FrameCounter AuxHeader Ccm SecFrame Mmo Keys.

#[global] Instance LinkKeyKind_eq_dec : EqDecision LinkKeyKind.
Proof. solve_decision. Defined.
#[global] Instance KeyAttributes_eq_dec : EqDecision KeyAttributes.t.
Proof. solve_decision. Defined.

(** ** The frame counter challenge *)

Module Challenge.
Definition MIC_LEN : nat := 8.
Definition AUTHENTICATED_LEN : nat := 22.

(** [k[i] ^= b] *)
Definition xor_at (i : nat) (b : Z) (k : list Z) : list Z := alter (λ x, Z.lxor x b) i k.

Definition challenge_key (link_key : list Z) (outgoing : Z) : list Z :=
  let k := splice 0 link_key (replicate 16 0) in
  let fc := to_le 4 outgoing in
  let at_ i := default 0 (fc !! i) in
  xor_at 12 (at_ 3%nat) (xor_at 8 (at_ 2%nat) (xor_at 4 (at_ 1%nat) (xor_at 0 (at_ 0%nat) k))).

Definition challenge_nonce (responder challenge_fc : Z) : list Z :=
  let n := replicate NONCE_LEN 0 in
  let n := splice 0 (to_le 8 responder) n in
  let n := splice 8 (to_le 4 challenge_fc) n in
  <[12%nat := SecurityControl.raw (SecurityControl.mk SecurityLevel.Mic64 KeyIdentifier.Data false)]> n.

Definition response_authenticated_octets (responder challenge aps_frame_counter : Z) : list Z :=
  let a := replicate AUTHENTICATED_LEN 0 in
  let a := <[0%nat := 0]> a in
  let a := <[1%nat := 23]> a in
  let a := splice 2 (to_le 8 responder) a in
  let a := splice 10 (to_le 8 challenge) a in
  splice 18 (to_le 4 aps_frame_counter) a.

Definition challenge_mic (C : Type) `{!BlockCipher C} (link_key : list Z)
    (outgoing responder challenge_fc : Z) (authenticated : list Z) : list Z :=
  let key := challenge_key link_key outgoing in
  let cipher : C := cipher_new key in
  let nonce := challenge_nonce responder challenge_fc in
  let mic := replicate MIC_LEN 0 in
  snd (snd (encrypt_in_place cipher nonce authenticated [] mic)).
End Challenge.

(** ** Updates of a key-pair entry *)

Module KeyPair.
Section updates.
Import LinkKeyEntry.

(** The fields the handlers assign. *)
Definition assign (e : t) (p : Z) (k : list Z) (kd : LinkKeyKind) (a : KeyAttributes.t)
    (o : OutgoingCounter.t) (i : Z) (v : bool) (c : Z) : t :=
  mk p k kd a o i (initial_join_authentication e) (negotiation_state e) (negotiation_method e)
     (post_join_key_update e) (passphrase e) (passphrase_update_allowed e) (frame_counter_sync e)
     v c (timeout_secs e).

Definition set_partner (p : Z) (e : t) : t :=
  assign e p (key e) (kind e) (attributes e) (outgoing e) (incoming e) (verified_frame_counter e)
    (challenge_frame_counter e).
Definition set_attributes (a : KeyAttributes.t) (e : t) : t :=
  assign e (partner e) (key e) (kind e) a (outgoing e) (incoming e) (verified_frame_counter e)
    (challenge_frame_counter e).
Definition set_outgoing (o : OutgoingCounter.t) (e : t) : t :=
  assign e (partner e) (key e) (kind e) (attributes e) o (incoming e) (verified_frame_counter e)
    (challenge_frame_counter e).
Definition set_incoming (i : Z) (e : t) : t :=
  assign e (partner e) (key e) (kind e) (attributes e) (outgoing e) i (verified_frame_counter e)
    (challenge_frame_counter e).
Definition set_verified (v : bool) (e : t) : t :=
  assign e (partner e) (key e) (kind e) (attributes e) (outgoing e) (incoming e) v
    (challenge_frame_counter e).
Definition set_challenge (c : Z) (e : t) : t :=
  assign e (partner e) (key e) (kind e) (attributes e) (outgoing e) (incoming e)
    (verified_frame_counter e) c.
Definition set_key (k : list Z) (e : t) : t :=
  assign e (partner e) k (kind e) (attributes e) (outgoing e) (incoming e) (verified_frame_counter e)
    (challenge_frame_counter e).
Definition set_kind (kd : LinkKeyKind) (e : t) : t :=
  assign e (partner e) (key e) kd (attributes e) (outgoing e) (incoming e) (verified_frame_counter e)
    (challenge_frame_counter e).
End updates.
End KeyPair.

Module ApsUnsecured.
Record t : Type := mk {
  partner : Z;
  key_id : KeyIdentifier.t;
  extended_nonce : bool;
  frame_counter : Z;
  kind : LinkKeyKind;
  attributes : KeyAttributes.t;
  payload_start : nat;
  payload_end : nat
}.
End ApsUnsecured.

Module SecureError.
Inductive t : Type :=
  | NoKey
  | CounterPending
  | CounterExhausted
  | Security (e : SecurityError).
End SecureError.

Module ApsSecurity.

Record t (C : Type) (K : nat) : Type := mk {
  keys : LinkKeyTable.t K;
  ciphers : list (option (Z * KeyIdentifier.t * C));
  next_slot : Z
}.
Arguments mk {C K} _ _ _.
Arguments keys {C K} _.
Arguments ciphers {C K} _.
Arguments next_slot {C K} _.

Section security.
Context {C : Type} {K : nat} `{!BlockCipher C} {CT : ConstantTimeEq} {H : Heapless}.
Abbreviation st := (t C K).

Definition new : st := mk (LinkKeyTable.new K) [None; None] 0.

Definition with_keys (s : st) (ks : LinkKeyTable.t K) : st := mk ks (ciphers s) (next_slot s).

(** [self.ciphers = [None, None]] *)
Definition drop_ciphers (s : st) : st := mk (keys s) [None; None] (next_slot s).

(** [keys_mut()] and what its caller then does to the table. *)
Definition keys_mut (s : st) (f : LinkKeyTable.t K → LinkKeyTable.t K) : st :=
  let s := drop_ciphers s in with_keys s (f (keys s)).

Definition entry (s : st) (partner : Z) : option LinkKeyEntry.t := LinkKeyTable.get (keys s) partner.

Definition install (s : st) (e : LinkKeyEntry.t) : result unit LinkKeyEntry.t * st :=
  let s := drop_ciphers s in
  let '(_, ks) := LinkKeyTable.remove (keys s) (LinkKeyEntry.partner e) in
  let '(r, ks) := LinkKeyTable.insert e ks in
  (r, with_keys s ks).

(** [match self.keys.get_mut(partner)] with an update on [Some]. *)
Definition on_entry (s : st) (partner : Z) (f : LinkKeyEntry.t → LinkKeyEntry.t) : bool * st :=
  match LinkKeyTable.get (keys s) partner with
  | Some _ => (true, with_keys s (LinkKeyTable.get_mut (keys s) partner f))
  | None => (false, s)
  end.

Definition replace_key (s : st) (partner : Z) (key : list Z) (a : KeyAttributes.t) (kind : LinkKeyKind)
    : bool * st :=
  on_entry (drop_ciphers s) partner (λ e,
    KeyPair.set_outgoing OutgoingCounter.new (KeyPair.set_incoming 0
      (KeyPair.set_kind kind (KeyPair.set_attributes a (KeyPair.set_key key e))))).

Definition rename (s : st) (from to : Z) : bool * st :=
  if from =? to then (true, s)
  else if negb (is_some (LinkKeyTable.get (keys s) from)) then (false, s)
  else
    let s := drop_ciphers s in
    let s := with_keys s (snd (LinkKeyTable.remove (keys s) to)) in
    on_entry s from (KeyPair.set_partner to).

Definition remove (s : st) (partner : Z) : bool * st :=
  let s := drop_ciphers s in
  let '(r, ks) := LinkKeyTable.remove (keys s) partner in (r, with_keys s ks).

Definition set_attributes (s : st) (partner : Z) (a : KeyAttributes.t) : bool * st :=
  on_entry s partner (KeyPair.set_attributes a).

Definition reset_incoming (s : st) (partner : Z) : st :=
  snd (on_entry s partner (KeyPair.set_incoming 0)).

Definition answer_challenge (s : st) (local partner challenge : Z) : option (Z * Z * list Z) * st :=
  match LinkKeyTable.get (keys s) partner with
  | None => (None, s)
  | Some e =>
      let outgoing := OutgoingCounter.peek (LinkKeyEntry.outgoing e) in
      let challenge_fc := LinkKeyEntry.challenge_frame_counter e in
      let s := with_keys s (LinkKeyTable.get_mut (keys s) partner
                 (λ e, KeyPair.set_challenge (wrap 32 (LinkKeyEntry.challenge_frame_counter e + 1)) e)) in
      let aad := Challenge.response_authenticated_octets local challenge outgoing in
      let mic := Challenge.challenge_mic C (LinkKeyEntry.key e) outgoing local challenge_fc aad in
      (Some (outgoing, challenge_fc, mic), s)
  end.

Definition validate_challenge (s : st) (partner challenge aps_frame_counter challenge_fc : Z)
    (mic : list Z) : bool * st :=
  match LinkKeyTable.get (keys s) partner with
  | None => (false, s)
  | Some e =>
      let aad := Challenge.response_authenticated_octets partner challenge aps_frame_counter in
      let expected := Challenge.challenge_mic C (LinkKeyEntry.key e) aps_frame_counter partner challenge_fc aad in
      if negb (ct_eq expected mic) then (false, s)
      else (true, with_keys s (LinkKeyTable.get_mut (keys s) partner
              (λ e, KeyPair.set_verified true (KeyPair.set_incoming aps_frame_counter e))))
  end.

Definition invalidate_frame_counters (s : st) : st :=
  with_keys s (LinkKeyTable.mk
    ((λ e, KeyPair.set_challenge 0 (KeyPair.set_verified false e)) <$> LinkKeyTable.entries (keys s))).

(** The first entry that starts a reservation, and the entries afterwards. *)
Fixpoint start_first (es : list LinkKeyEntry.t) : option (Z * Z) * list LinkKeyEntry.t :=
  match es with
  | [] => (None, [])
  | e :: es =>
      match OutgoingCounter.start_reservation (LinkKeyEntry.outgoing e) with
      | (Some r, o) => (Some (LinkKeyEntry.partner e, r), KeyPair.set_outgoing o e :: es)
      | (None, o) => let '(r, es) := start_first es in (r, KeyPair.set_outgoing o e :: es)
      end
  end.

Definition start_counter_reservation (s : st) : option (Z * Z) * st :=
  let '(r, es) := start_first (LinkKeyTable.entries (keys s)) in (r, with_keys s (LinkKeyTable.mk es)).

Definition commit_counter_reservation (s : st) (partner r : Z) : st :=
  snd (on_entry s partner (λ e,
    KeyPair.set_outgoing (OutgoingCounter.commit_reservation (LinkKeyEntry.outgoing e) r) e)).

Definition abort_counter_reservation (s : st) (partner : Z) : st :=
  snd (on_entry s partner (λ e,
    KeyPair.set_outgoing (OutgoingCounter.abort_reservation (LinkKeyEntry.outgoing e)) e)).

(** [match key_id]: the key a key identifier derives from a link key. *)
Definition derived_key (key_id : KeyIdentifier.t) (key : list Z) : option (list Z) :=
  match key_id with
  | KeyIdentifier.Data => Some key
  | KeyIdentifier.KeyTransport => Some (key_transport_key C key)
  | KeyIdentifier.KeyLoad => Some (key_load_key C key)
  | KeyIdentifier.Network => None
  end.

Definition cached (partner : Z) (key_id : KeyIdentifier.t) (c : option (Z * KeyIdentifier.t * C)) : bool :=
  match c with Some (p, k, _) => (p =? partner) && bool_decide (k = key_id) | None => false end.

Definition cipher_for (s : st) (partner : Z) (key_id : KeyIdentifier.t) : option C * st :=
  match position (cached partner key_id) (ciphers s) with
  | Some i => (snd <$> mjoin (ciphers s !! i), s)
  | None =>
      match LinkKeyTable.get (keys s) partner with
      | None => (None, s)
      | Some entry =>
          match derived_key key_id (LinkKeyEntry.key entry) with
          | None => (None, s)
          | Some key =>
              let slot := Z.to_nat (next_slot s mod 2) in
              let s := mk (keys s) (ciphers s) (wrap 64 (next_slot s + 1)) in
              match ciphers s !! slot with
              | None => (None, s)
              | Some _ =>
                  let c := cipher_new key in
                  (Some c, mk (keys s) (<[slot := Some (partner, key_id, c)]> (ciphers s)) (next_slot s))
              end
          end
      end
  end.

Definition swap_out_key (s : st) (partner : Z) : option (list Z) :=
  (λ e, hash C (LinkKeyEntry.key e)) <$> LinkKeyTable.get (keys s) partner.

Definition unsecure_swap_out (s : st) (buf : list Z) (header_len : nat) (level : SecurityLevel.t)
    (trust_center : Z) : result (Z * KeyIdentifier.t * nat * nat) SecurityError * list Z * st :=
  match peek_aux buf header_len with
  | Err e => (Err e, buf, s)
  | Ok aux =>
      match AuxHeader.source aux with
      | None => (Err NoKey, buf, s)
      | Some source =>
          let key_id := SecurityControl.key_id (AuxHeader.control aux) in
          if bool_decide (key_id = KeyIdentifier.Network) || (source =? trust_center)
          then (Err PolicyRejected, buf, s)
          else
            match swap_out_key s trust_center with
            | None => (Err NoKey, buf, s)
            | Some hashed =>
                match derived_key key_id hashed with
                | None => (Err PolicyRejected, buf, s)
                | Some derived =>
                    let cipher : C := cipher_new derived in
                    let '(r, buf) := unprotect_in_place cipher level source buf header_len in
                    match r with
                    | Err e => (Err e, buf, s)
                    | Ok u =>
                        let s := drop_ciphers s in
                        let s := with_keys s (snd (LinkKeyTable.remove (keys s) source)) in
                        let s := snd (on_entry s trust_center (λ e,
                          KeyPair.set_verified true
                            (KeyPair.set_incoming (sat_add 32 (AuxHeader.frame_counter aux) 1)
                              (KeyPair.set_attributes KeyAttributes.ProvisionalKey
                                (KeyPair.set_key hashed (KeyPair.set_partner source e)))))) in
                        (Ok (source, key_id, Unprotected.payload_start u, Unprotected.payload_end u), buf, s)
                    end
                end
            end
      end
  end.

Definition aux_header_len (extended_nonce : bool) : nat :=
  (1 + 4 + if extended_nonce then 8 else 0)%nat.

Definition secure_outgoing (s : st) (buf : list Z) (header_len payload_len : nat)
    (level : SecurityLevel.t) (partner : Z) (key_id : KeyIdentifier.t) (local_ieee : Z)
    (extended_nonce : bool) : result nat SecureError.t * list Z * st :=
  if bool_decide (key_id = KeyIdentifier.Network) then (Err SecureError.NoKey, buf, s)
  else
    match LinkKeyTable.get (keys s) partner with
    | None => (Err SecureError.NoKey, buf, s)
    | Some e =>
        if bool_decide (LinkKeyEntry.attributes e = KeyAttributes.UnverifiedKey)
        then (Err SecureError.NoKey, buf, s)
        else
          let '(r, o) := OutgoingCounter.allocate (LinkKeyEntry.outgoing e) in
          match r with
          | Err err =>
              (Err match err with
                   | Exhausted => SecureError.CounterExhausted
                   | ReservationRequired => SecureError.CounterPending
                   end, buf,
               with_keys s (LinkKeyTable.get_mut (keys s) partner (KeyPair.set_outgoing o)))
          | Ok counter =>
              let s := with_keys s (LinkKeyTable.get_mut (keys s) partner
                         (λ e, KeyPair.set_challenge 0 (KeyPair.set_outgoing o e))) in
              let aux := AuxHeader.link level key_id counter
                           (if extended_nonce then Some local_ieee else None) in
              let '(c, s) := cipher_for s partner key_id in
              match c with
              | None => (Err SecureError.NoKey, buf, s)
              | Some cipher =>
                  let '(r, buf) := protect_in_place cipher aux local_ieee buf header_len payload_len in
                  (map_err SecureError.Security r, buf, s)
              end
          end
    end.

(** [aux.source.or(sender)] *)
Definition nonce_source (aux : AuxHeader.t) (sender : option Z) : option Z :=
  match AuxHeader.source aux with Some a => Some a | None => sender end.

(** The entry that serves a sender: its own, or the fallback's when it exists. *)
Definition partner_for (s : st) (source : Z) (fallback : option Z) : option Z :=
  if is_some (LinkKeyTable.get (keys s) source) then Some source
  else match fallback with
       | Some f => if is_some (LinkKeyTable.get (keys s) f) then Some f else None
       | None => None
       end.

Definition unsecure_incoming (s : st) (buf : list Z) (header_len : nat) (level : SecurityLevel.t)
    (sender fallback : option Z) : result ApsUnsecured.t SecurityError * list Z * st :=
  match peek_aux buf header_len with
  | Err e => (Err e, buf, s)
  | Ok aux =>
      let fc := AuxHeader.frame_counter aux in
      let key_id := SecurityControl.key_id (AuxHeader.control aux) in
      if bool_decide (key_id = KeyIdentifier.Network) then (Err PolicyRejected, buf, s)
      else if fc =? u32_max then (Err BadFrameCounter, buf, s)
      else
        match nonce_source aux sender with
        | None => (Err NoKey, buf, s)
        | Some source =>
            match partner_for s source fallback with
            | None => (Err NoKey, buf, s)
            | Some partner =>
                match LinkKeyTable.get (keys s) partner with
                | None => (Err NoKey, buf, s)
                | Some e =>
                    if bool_decide (LinkKeyEntry.kind e = Unique) && (fc <? LinkKeyEntry.incoming e)
                    then (Err BadFrameCounter, buf, s)
                    else
                      let '(c, s) := cipher_for s partner key_id in
                      match c with
                      | None => (Err NoKey, buf, s)
                      | Some cipher =>
                          let '(r, buf) := unprotect_in_place cipher level source buf header_len in
                          match r with
                          | Err err => (Err err, buf, s)
                          | Ok u =>
                              let accepted :=
                                Ok (ApsUnsecured.mk partner key_id
                                      (SecurityControl.extended_nonce (AuxHeader.control aux)) fc
                                      (LinkKeyEntry.kind e) (LinkKeyEntry.attributes e)
                                      (Unprotected.payload_start u) (Unprotected.payload_end u)) in
                              match LinkKeyTable.get (keys s) partner with
                              | None => (accepted, buf, s)
                              | Some e =>
                                  if bool_decide (LinkKeyEntry.kind e = Unique) &&
                                     LinkKeyEntry.frame_counter_sync e &&
                                     negb (LinkKeyEntry.verified_frame_counter e)
                                  then (Err UnverifiedFrameCounter, buf, s)
                                  else
                                    (accepted, buf,
                                     with_keys s (LinkKeyTable.get_mut (keys s) partner
                                       (KeyPair.set_incoming (sat_add 32 fc 1))))
                              end
                          end
                      end
                end
            end
        end
  end.
End security.
End ApsSecurity.

(** Every way the layer changes the security state. *)
Module ApsSecurityOp.
Inductive t : Type :=
  | Install (e : LinkKeyEntry.t)
  | ReplaceKey (partner : Z) (key : list Z) (a : KeyAttributes.t) (kind : LinkKeyKind)
  | Rename (from to : Z)
  | Remove (partner : Z)
  | SetAttributes (partner : Z) (a : KeyAttributes.t)
  | ResetIncoming (partner : Z)
  | Answer (local partner challenge : Z)
  | Validate (partner challenge fc challenge_fc : Z) (mic : list Z)
  | Invalidate
  | Start
  | Commit (partner r : Z)
  | Stop (partner : Z)
  | SwapOut (buf : list Z) (hl : nat) (level : SecurityLevel.t) (trust_center : Z)
  | Secure (buf : list Z) (hl pl : nat) (level : SecurityLevel.t) (partner : Z)
      (key_id : KeyIdentifier.t) (ieee : Z) (extended_nonce : bool)
  | Unsecure (buf : list Z) (hl : nat) (level : SecurityLevel.t) (sender fallback : option Z).

Definition entry_ok (e : LinkKeyEntry.t) : Prop :=
  OutgoingCounter.wf (LinkKeyEntry.outgoing e) ∧ uint 32 (LinkKeyEntry.incoming e).

(** The arguments are machine values. *)
Definition ok (o : t) : Prop :=
  match o with
  | Install e => entry_ok e
  | Validate _ _ fc _ _ => uint 32 fc
  | Commit _ r => uint 32 r
  | SwapOut buf _ _ _ | Unsecure buf _ _ _ _ => bytes_ok buf
  | _ => True
  end.

Section exec.
Context {C : Type} {K : nat} `{!BlockCipher C} {CT : ConstantTimeEq} {H : Heapless}.

Definition exec (s : ApsSecurity.t C K) (o : t) : ApsSecurity.t C K :=
  match o with
  | Install e => (ApsSecurity.install s e).2
  | ReplaceKey p k a kd => (ApsSecurity.replace_key s p k a kd).2
  | Rename from to => (ApsSecurity.rename s from to).2
  | Remove p => (ApsSecurity.remove s p).2
  | SetAttributes p a => (ApsSecurity.set_attributes s p a).2
  | ResetIncoming p => ApsSecurity.reset_incoming s p
  | Answer l p c => (ApsSecurity.answer_challenge s l p c).2
  | Validate p c fc cfc mic => (ApsSecurity.validate_challenge s p c fc cfc mic).2
  | Invalidate => ApsSecurity.invalidate_frame_counters s
  | Start => (ApsSecurity.start_counter_reservation s).2
  | Commit p r => ApsSecurity.commit_counter_reservation s p r
  | Stop p => ApsSecurity.abort_counter_reservation s p
  | SwapOut buf hl level tc => (ApsSecurity.unsecure_swap_out s buf hl level tc).2
  | Secure buf hl pl level p k ieee ext => (ApsSecurity.secure_outgoing s buf hl pl level p k ieee ext).2
  | Unsecure buf hl level sender fallback => (ApsSecurity.unsecure_incoming s buf hl level sender fallback).2
  end.
End exec.
End ApsSecurityOp.

(** ** The table of link keys under the updates of the layer *)

Section table.
Context {H : Heapless} {K : nat}.
Implicit Types (ks : LinkKeyTable.t K) (e : LinkKeyEntry.t).

(** The partners and their keys: all that the cipher cache depends on. *)
Definition pk e : Z * list Z := (LinkKeyEntry.partner e, LinkKeyEntry.key e).
Definition same_keys ks ks' : Prop := pk <$> LinkKeyTable.entries ks' = pk <$> LinkKeyTable.entries ks.

Definition key_of ks (p : Z) : option (list Z) := LinkKeyEntry.key <$> LinkKeyTable.get ks p.

Lemma key_of_pk ks p :
  key_of ks p = snd <$> List.find (λ x : Z * list Z, x.1 =? p) (pk <$> LinkKeyTable.entries ks).
Proof.
  unfold key_of, LinkKeyTable.get. induction (LinkKeyTable.entries ks) as [|e es IH]; simpl; [done|].
  unfold LinkKeyTable.of_partner at 1. by destruct (_ =? p).
Qed.

Lemma same_keys_key_of ks ks' p : same_keys ks ks' → key_of ks' p = key_of ks p.
Proof. unfold same_keys. intros E. by rewrite !key_of_pk, E. Qed.

Definition table_ok ks : Prop :=
  LinkKeyTable.wf ks ∧ Forall ApsSecurityOp.entry_ok (LinkKeyTable.entries ks).

Lemma partners_pk es : LinkKeyEntry.partner <$> es = (pk <$> es).*1.
Proof. by rewrite <- list_fmap_compose. Qed.

Lemma same_keys_wf ks ks' : same_keys ks ks' → LinkKeyTable.wf ks → LinkKeyTable.wf ks'.
Proof.
  unfold same_keys, LinkKeyTable.wf. intros E [Hnd Hl]. rewrite partners_pk, E, <- partners_pk. split; [done|].
  by rewrite <- (length_fmap pk), E, length_fmap.
Qed.

(** An update of one entry that keeps partner and key. *)
Lemma get_mut_same_keys ks p f :
  (∀ e, pk (f e) = pk e) → same_keys ks (LinkKeyTable.get_mut ks p f).
Proof.
  intros Hf. unfold same_keys, LinkKeyTable.get_mut. simpl.
  induction (LinkKeyTable.entries ks) as [|e es IH]; simpl; [done|].
  destruct (LinkKeyTable.of_partner p e); simpl; [by rewrite Hf|by f_equal].
Qed.

Lemma get_mut_ok ks p f :
  (∀ e, pk (f e) = pk e) → (∀ e, ApsSecurityOp.entry_ok e → ApsSecurityOp.entry_ok (f e)) →
  table_ok ks → table_ok (LinkKeyTable.get_mut ks p f).
Proof.
  intros Hpk Hf [Hwf Hok]. split; [by eapply same_keys_wf; [apply get_mut_same_keys|]|].
  by apply Forall_update_first.
Qed.

Lemma get_get_mut ks p f :
  (∀ e, LinkKeyEntry.partner (f e) = LinkKeyEntry.partner e) →
  LinkKeyTable.get (LinkKeyTable.get_mut ks p f) p = f <$> LinkKeyTable.get ks p.
Proof. intros Hf. apply (find_key_update LinkKeyEntry.partner). intros e <-. apply Hf. Qed.

Lemma get_get_mut_ne ks p q f :
  p ≠ q → (∀ e, LinkKeyEntry.partner (f e) = LinkKeyEntry.partner e) →
  LinkKeyTable.get (LinkKeyTable.get_mut ks p f) q = LinkKeyTable.get ks q.
Proof. intros Hne Hf. apply (find_key_update_ne LinkKeyEntry.partner); [done|]. intros e <-. apply Hf. Qed.

Lemma table_remove_ok ks p : table_ok ks → table_ok (LinkKeyTable.remove ks p).2.
Proof.
  intros [[Hnd Hl] Hok]. unfold LinkKeyTable.remove. simpl. unfold table_ok, LinkKeyTable.wf. simpl.
  rewrite vec_retain_spec. split_and!.
  - by apply NoDup_keys_filter.
  - etrans; [apply List.filter_length_le|done].
  - apply Forall_forall. intros e [He%list_elem_of_In _]%list_elem_of_In%filter_In.
    rewrite Forall_forall in Hok. by apply Hok.
Qed.

Lemma get_remove ks p : LinkKeyTable.get (LinkKeyTable.remove ks p).2 p = None.
Proof. unfold LinkKeyTable.get, LinkKeyTable.remove. simpl. rewrite vec_retain_spec.
  apply find_key_filter_drop. Qed.

Lemma table_insert_ok ks e :
  table_ok ks → ApsSecurityOp.entry_ok e → table_ok (LinkKeyTable.insert e ks).2.
Proof.
  intros [[Hnd Hl] Hok] He. unfold LinkKeyTable.insert. destruct (LinkKeyTable.get _ _) eqn:E; simpl.
  - unfold table_ok, LinkKeyTable.wf, LinkKeyTable.get_mut. simpl.
    rewrite length_update_first, (keys_update_first LinkKeyEntry.partner) by done.
    split_and!; [done..|]. by apply Forall_update_first.
  - destruct (vec_push_cases K (LinkKeyTable.entries ks) e) as [[Hlt ->]|[_ ->]]; [|done].
    unfold table_ok, LinkKeyTable.wf. simpl. split_and!; [|len|by apply Forall_app_2; [|apply Forall_singleton]].
    apply (NoDup_keys_snoc LinkKeyEntry.partner); [done|]. by apply (find_key_None LinkKeyEntry.partner).
Qed.

(** Giving an entry a partner that has none. *)
Lemma NoDup_rename (es : list LinkKeyEntry.t) from to f :
  (∀ e, LinkKeyEntry.partner (f e) = to) → to ∉ LinkKeyEntry.partner <$> es →
  NoDup (LinkKeyEntry.partner <$> es) →
  NoDup (LinkKeyEntry.partner <$> update_first (LinkKeyTable.of_partner from) f es).
Proof.
  intros Hf. assert (∀ q l, q ∈ LinkKeyEntry.partner <$> update_first (LinkKeyTable.of_partner from) f l →
    q = to ∨ q ∈ LinkKeyEntry.partner <$> l) as Hin.
  { intros q l. induction l as [|e l IH]; simpl; [by right|].
    destruct (LinkKeyTable.of_partner from e); simpl; rewrite !elem_of_cons, ?Hf; [tauto|].
    intros [->|Hq]; [tauto|]. apply IH in Hq. tauto. }
  induction es as [|e es IH]; simpl; [done|]. intros Hto [He Hes]%NoDup_cons.
  apply not_elem_of_cons in Hto as [Hne Hto]. destruct (LinkKeyTable.of_partner from e); simpl.
  - rewrite Hf. by apply NoDup_cons.
  - apply NoDup_cons. split; [|by apply IH]. intros [?|?]%Hin; [congruence|done].
Qed.

Lemma rename_ok ks from to f :
  (∀ e, LinkKeyEntry.partner (f e) = to) →
  (∀ e, ApsSecurityOp.entry_ok e → ApsSecurityOp.entry_ok (f e)) →
  LinkKeyTable.get ks to = None → table_ok ks → table_ok (LinkKeyTable.get_mut ks from f).
Proof.
  intros Hf Hfok Hto [[Hnd Hl] Hok]. unfold table_ok, LinkKeyTable.wf, LinkKeyTable.get_mut. simpl.
  rewrite length_update_first. split_and!; [|done|by apply Forall_update_first].
  apply (NoDup_rename _ _ to); [done| |done]. by apply (find_key_None LinkKeyEntry.partner).
Qed.

Lemma map_ok ks f :
  (∀ e, pk (f e) = pk e) → (∀ e, ApsSecurityOp.entry_ok e → ApsSecurityOp.entry_ok (f e)) →
  table_ok ks → same_keys ks (LinkKeyTable.mk (f <$> LinkKeyTable.entries ks)) ∧
    table_ok (LinkKeyTable.mk (K:=K) (f <$> LinkKeyTable.entries ks)).
Proof.
  intros Hpk Hf [Hwf Hok]. assert (same_keys ks (LinkKeyTable.mk (f <$> LinkKeyTable.entries ks))) as Hs.
  { unfold same_keys. simpl. rewrite <- list_fmap_compose. by apply list_fmap_ext; intros; apply Hpk. }
  split; [done|]. split; [by eapply same_keys_wf|]. simpl. apply Forall_fmap. by eapply Forall_impl.
Qed.

Lemma start_first_ok ks :
  table_ok ks →
  let es := (ApsSecurity.start_first (LinkKeyTable.entries ks)).2 in
  same_keys ks (LinkKeyTable.mk es) ∧ table_ok (LinkKeyTable.mk (K:=K) es).
Proof.
  intros [Hwf Hok]. assert (∀ es, Forall ApsSecurityOp.entry_ok es →
    pk <$> (ApsSecurity.start_first es).2 = pk <$> es ∧
    Forall ApsSecurityOp.entry_ok (ApsSecurity.start_first es).2) as Hs.
  { intros es. induction 1 as [|e es [Ho Hi] Hes [IH1 IH2]]; simpl; [done|].
    destruct (OutgoingCounter.start_reservation _) as [r o] eqn:E.
    apply start_reservation_wf in E; [|done].
    destruct r as [r|]; [|destruct (ApsSecurity.start_first es) as [q es']]; simpl in *.
    - split; [done|]. by constructor.
    - split; [by f_equal|]. by constructor. }
  destruct (Hs _ Hok) as [H1 H2]. assert (same_keys ks (LinkKeyTable.mk (ApsSecurity.start_first (LinkKeyTable.entries ks)).2)) as Hsk by done.
  split; [done|]. split; [by eapply same_keys_wf|done].
Qed.
End table.

Section security_spec.
Context {C : Type} {K : nat} `{!BlockCipher C} {CT : ConstantTimeEq} {H : Heapless}.
Implicit Types s : ApsSecurity.t C K.

(** The cipher a partner and a key identifier stand for. *)
Definition link_cipher (ks : LinkKeyTable.t K) (p : Z) (k : KeyIdentifier.t) : option C :=
  key ← key_of ks p; cipher_new <$> ApsSecurity.derived_key (C:=C) k key.

(** The cache holds ciphers of installed keys only. *)
Definition aps_coherent s : Prop :=
  length (ApsSecurity.ciphers s) = 2%nat ∧
  ∀ i p k c, ApsSecurity.ciphers s !! i = Some (Some (p, k, c)) →
    link_cipher (ApsSecurity.keys s) p k = Some c.

Definition aps_wf s : Prop := table_ok (ApsSecurity.keys s) ∧ aps_coherent s.

Lemma aps_cipher_for_spec s p k c s' :
  aps_coherent s → ApsSecurity.cipher_for s p k = (c, s') →
  c = link_cipher (ApsSecurity.keys s) p k ∧ aps_coherent s' ∧
  ApsSecurity.keys s' = ApsSecurity.keys s.
Proof.
  intros [Hl Hc]. unfold ApsSecurity.cipher_for.
  destruct (position _ _) as [i|] eqn:E.
  - apply position_Some in E as ([[[p' k'] c']|] & Hi & Hcached & _); [|done].
    apply andb_true_iff in Hcached as [->%Z.eqb_eq ->%bool_decide_eq_true]. rewrite Hi.
    intros [= <- <-]. by rewrite (Hc i p k c' Hi).
  - unfold link_cipher, key_of. destruct (LinkKeyTable.get _ p) as [e|] eqn:G; [|by intros [= <- <-]]. simpl.
    destruct (ApsSecurity.derived_key k _) as [key|] eqn:D; [|by intros [= <- <-]]. simpl.
    set (slot := Z.to_nat _). assert (slot < 2)%nat as Hs.
    { subst slot. pose proof (Z.mod_pos_bound (ApsSecurity.next_slot s) 2). lia. }
    destruct (lookup_lt_is_Some_2 (ApsSecurity.ciphers s) slot) as [x Hx]; [lia|]. rewrite Hx.
    intros [= <- <-]. split_and!; try done. split; simpl; [by rewrite length_insert|].
    intros i q k' c' Hi. destruct (decide (i = slot)) as [->|Hne].
    + rewrite list_lookup_insert_eq in Hi by lia. injection Hi as <- <- <-.
      unfold link_cipher, key_of. rewrite G. simpl. by rewrite D.
    + rewrite list_lookup_insert_ne in Hi by done. by apply (Hc i).
Qed.

Lemma coherent_dropped s : ApsSecurity.ciphers s = [None; None] → aps_coherent s.
Proof. intros E. split; [by rewrite E|]. rewrite E. intros [|[|]] p k c Hi; simplify_eq. Qed.

Lemma coherent_same_keys s ks :
  same_keys (ApsSecurity.keys s) ks → aps_coherent s → aps_coherent (ApsSecurity.with_keys s ks).
Proof.
  intros Hk [Hl Hc]. split; [done|]. intros i p k c Hi. unfold link_cipher. simpl.
  rewrite (same_keys_key_of _ _ _ Hk). by apply (Hc i).
Qed.

(** An update that keeps partner and key keeps the invariant. *)
Lemma get_mut_wf s p f :
  (∀ e, pk (f e) = pk e) → (∀ e, ApsSecurityOp.entry_ok e → ApsSecurityOp.entry_ok (f e)) →
  aps_wf s → aps_wf (ApsSecurity.with_keys s (LinkKeyTable.get_mut (ApsSecurity.keys s) p f)).
Proof.
  intros Hpk Hok [Ht Hc]. split; [by apply get_mut_ok|].
  apply coherent_same_keys; [by apply get_mut_same_keys|done].
Qed.

Lemma on_entry_wf s p f :
  (∀ e, pk (f e) = pk e) → (∀ e, ApsSecurityOp.entry_ok e → ApsSecurityOp.entry_ok (f e)) →
  aps_wf s → aps_wf (ApsSecurity.on_entry s p f).2.
Proof.
  intros Hpk Hok Hwf. unfold ApsSecurity.on_entry. destruct (LinkKeyTable.get _ _); [|done]. by apply get_mut_wf.
Qed.

(** An update after the ciphers are dropped. *)
Lemma on_entry_dropped s p f :
  ApsSecurity.ciphers s = [None; None] → table_ok (ApsSecurity.keys s) →
  table_ok (LinkKeyTable.get_mut (ApsSecurity.keys s) p f) → aps_wf (ApsSecurity.on_entry s p f).2.
Proof.
  intros Hn Hok Hf. unfold ApsSecurity.on_entry.
  destruct (LinkKeyTable.get _ _); (split; [done|by apply coherent_dropped]).
Qed.

Lemma rename_wf s from to :
  aps_wf s → aps_wf (ApsSecurity.rename s from to).2.
Proof.
  intros Hwf. pose proof Hwf as [Ht _]. unfold ApsSecurity.rename.
  destruct (from =? to); [done|]. destruct (negb _); [done|]. cbv zeta.
  apply on_entry_dropped; [done|by apply table_remove_ok|].
  apply (rename_ok _ from to); [done|by intros ? [??]|apply get_remove|by apply table_remove_ok].
Qed.

Lemma swap_out_wf s buf hl level tc :
  bytes_ok buf → aps_wf s → aps_wf (ApsSecurity.unsecure_swap_out s buf hl level tc).2.
Proof.
  intros Hbuf Hwf. pose proof Hwf as [Ht _]. unfold ApsSecurity.unsecure_swap_out.
  destruct (peek_aux buf hl) as [aux|] eqn:Hpk; [|done]. destruct (AuxHeader.source aux) as [src|]; [|done].
  destruct (_ || _); [done|]. destruct (ApsSecurity.swap_out_key s tc) as [hk|]; [|done].
  destruct (ApsSecurity.derived_key _ hk) as [dk|]; [|done].
  destruct (unprotect_in_place _ _ _ _ _) as [[u|] buf']; [|done]. cbv zeta. cbn [snd].
  apply on_entry_dropped; [done|by apply table_remove_ok|].
  apply (rename_ok _ tc src); [done| |apply get_remove|by apply table_remove_ok].
  intros e [Ho Hi]. split; [done|]. simpl. apply uint_sat_add; [lia| |lia].
  apply peek_aux_inv in Hpk as [(_ & _ & Hfc & _) _]; [|done]. apply Hfc.
Qed.

Lemma aps_cipher_for_wf s p k c s' :
  aps_wf s → ApsSecurity.cipher_for s p k = (c, s') →
  c = link_cipher (ApsSecurity.keys s) p k ∧ aps_wf s' ∧ ApsSecurity.keys s' = ApsSecurity.keys s.
Proof.
  intros [Ht Hc] E. apply aps_cipher_for_spec in E as (Ec & Hc' & Ek); [|done]. split_and!; [done| |done].
  split; [by rewrite Ek|done].
Qed.

Lemma secure_wf s buf hl pl level p k ieee ext :
  aps_wf s → aps_wf (ApsSecurity.secure_outgoing s buf hl pl level p k ieee ext).2.
Proof.
  intros Hwf. unfold ApsSecurity.secure_outgoing. case_bool_decide; [done|].
  destruct (LinkKeyTable.get _ p) as [e|] eqn:G; [|done]. case_bool_decide; [done|].
  destruct (OutgoingCounter.allocate _) as [r o] eqn:Ea.
  assert (OutgoingCounter.wf o) as Ho.
  { destruct Hwf as [[_ Hok] _]. apply (find_key_Some LinkKeyEntry.partner) in G as [G _].
    rewrite Forall_forall in Hok. eapply allocate_wf; [by apply Hok|done]. }
  destruct r as [fc|err]; [|by apply get_mut_wf; [|intros ? [??]|]].
  cbv zeta. set (s1 := ApsSecurity.with_keys s _).
  assert (aps_wf s1) as Hwf1 by (by apply get_mut_wf; [|intros ? [??]|]).
  destruct (ApsSecurity.cipher_for s1 p k) as [[c|] s'] eqn:Ec;
    apply aps_cipher_for_wf in Ec as (_ & Hw & _); try done.
  by destruct (protect_in_place _ _ _ _ _ _).
Qed.

(** The whole receive path: a refused frame leaves the keys and their counters as
    they were; an accepted one was authentic, and only the incoming counter of
    its partner moves. *)
Lemma aps_unsecure_spec s buf hl level sender fb :
  aps_wf s → bytes_ok buf →
  let '(r, buf', s') := ApsSecurity.unsecure_incoming s buf hl level sender fb in
  aps_wf s' ∧
  match r with
  | Err _ => ApsSecurity.keys s' = ApsSecurity.keys s
  | Ok u =>
      ∃ aux e source cipher v,
        peek_aux buf hl = Ok aux ∧ ApsSecurity.nonce_source aux sender = Some source ∧
        ApsSecurity.partner_for s source fb = Some (ApsUnsecured.partner u) ∧
        LinkKeyTable.get (ApsSecurity.keys s) (ApsUnsecured.partner u) = Some e ∧
        ApsUnsecured.kind u = LinkKeyEntry.kind e ∧ ApsUnsecured.attributes u = LinkKeyEntry.attributes e ∧
        AuxHeader.frame_counter aux = ApsUnsecured.frame_counter u ∧
        uint 32 (ApsUnsecured.frame_counter u) ∧ ApsUnsecured.frame_counter u ≠ u32_max ∧
        (LinkKeyEntry.kind e = Unique → LinkKeyEntry.incoming e ≤ ApsUnsecured.frame_counter u ∧
           (LinkKeyEntry.frame_counter_sync e = true → LinkKeyEntry.verified_frame_counter e = true)) ∧
        link_cipher (ApsSecurity.keys s) (ApsUnsecured.partner u) (ApsUnsecured.key_id u) = Some cipher ∧
        unprotect_in_place cipher level source buf hl = (Ok v, buf') ∧
        Unprotected.payload_start v = ApsUnsecured.payload_start u ∧
        Unprotected.payload_end v = ApsUnsecured.payload_end u ∧
        ApsSecurity.keys s' = LinkKeyTable.get_mut (ApsSecurity.keys s) (ApsUnsecured.partner u)
          (KeyPair.set_incoming (ApsUnsecured.frame_counter u + 1))
  end.
Proof.
  intros Hwf Hbuf. unfold ApsSecurity.unsecure_incoming.
  destruct (peek_aux buf hl) as [aux|] eqn:Hpk; [|done].
  assert (uint 32 (AuxHeader.frame_counter aux)) as Hfc.
  { apply peek_aux_inv in Hpk as [(_ & _ & Hfc & _) _]; [|done]. apply Hfc. }
  case_bool_decide; [done|]. destruct (Z.eqb_spec (AuxHeader.frame_counter aux) u32_max) as [|Hmax]; [done|].
  destruct (ApsSecurity.nonce_source aux sender) as [src|] eqn:Hsrc; [|done].
  destruct (ApsSecurity.partner_for s src fb) as [p|] eqn:Hp; [|done].
  destruct (LinkKeyTable.get (ApsSecurity.keys s) p) as [e|] eqn:He; [|done].
  destruct (bool_decide (LinkKeyEntry.kind e = Unique) && (_ <? _)) eqn:Hr; [done|].
  destruct (ApsSecurity.cipher_for s p _) as [c s1] eqn:Ec.
  apply aps_cipher_for_wf in Ec as (-> & Hwf1 & Ek); [|done].
  destruct (link_cipher (ApsSecurity.keys s) p _) as [cipher|] eqn:Hc; [|done].
  destruct (unprotect_in_place cipher level src buf hl) as [[v|err] buf'] eqn:Eu; [|done].
  cbv zeta. rewrite Ek, He. destruct (_ && _ && _) eqn:Hv; [done|].
  assert (sat_add 32 (AuxHeader.frame_counter aux) 1 = AuxHeader.frame_counter aux + 1) as ->.
  { unfold sat_add, uint, u32_max in *. lia. }
  split.
  - rewrite <- Ek. apply get_mut_wf; [done| |done]. intros x [Ho _]. split; [done|]. simpl.
    unfold uint, u32_max in *. lia.
  - exists aux, e, src, cipher, v. cbn. split_and!; try done. intros HU. rewrite bool_decide_true in Hr, Hv by done.
    simpl in Hr, Hv. split; [lia|]. intros Hsync. rewrite Hsync in Hv. simpl in Hv. by apply negb_false_iff in Hv.
Qed.

Lemma aps_exec_wf s o : aps_wf s → ApsSecurityOp.ok o → aps_wf (ApsSecurityOp.exec s o).
Proof.
  intros Hwf Hok. pose proof Hwf as [Ht Hc]. destruct o; cbn [ApsSecurityOp.exec ApsSecurityOp.ok] in *.
  - unfold ApsSecurity.install. destruct (LinkKeyTable.remove _ _) as [b ks] eqn:Er.
    destruct (LinkKeyTable.insert e ks) as [r ks'] eqn:Ei. split; [|by apply coherent_dropped]. simpl.
    change ks' with (r, ks').2. rewrite <- Ei. apply table_insert_ok; [|done].
    change ks with (b, ks).2. rewrite <- Er. by apply table_remove_ok.
  - apply on_entry_dropped; [done..|]. destruct Ht as [Hw Hf]. unfold LinkKeyTable.get_mut. split.
    + unfold LinkKeyTable.wf in *. simpl.
      by rewrite length_update_first, (keys_update_first LinkKeyEntry.partner).
    + simpl. apply Forall_update_first; [|done]. intros x [_ _]. split; [by apply restore_wf|by apply uint_0].
  - by apply rename_wf.
  - unfold ApsSecurity.remove. destruct (LinkKeyTable.remove _ _) as [b ks] eqn:Er.
    split; [|by apply coherent_dropped]. simpl. change ks with (b, ks).2. rewrite <- Er. by apply table_remove_ok.
  - apply on_entry_wf; [done|by intros ? [??]|done].
  - apply on_entry_wf; [done| |done]. intros e [? _]. split; [done|by apply uint_0].
  - unfold ApsSecurity.answer_challenge. destruct (LinkKeyTable.get _ _); [|done].
    apply get_mut_wf; [done|by intros ? [??]|done].
  - unfold ApsSecurity.validate_challenge. destruct (LinkKeyTable.get _ _); [|done].
    destruct (negb _); [done|]. by apply get_mut_wf; [|intros ? [??]|].
  - destruct (map_ok (ApsSecurity.keys s) (λ e, KeyPair.set_challenge 0 (KeyPair.set_verified false e)))
      as [Hs Ht']; [done|by intros ? [??]|done|].
    split; [done|]. by apply coherent_same_keys.
  - unfold ApsSecurity.start_counter_reservation. destruct (start_first_ok (ApsSecurity.keys s) Ht) as [Hs Ht'].
    destruct (ApsSecurity.start_first _) as [r es]. split; [done|]. by apply coherent_same_keys.
  - apply on_entry_wf; [done| |done]. intros e [? ?]. split; [by apply commit_reservation_wf|done].
  - apply on_entry_wf; [done| |done]. intros e [? ?]. split; [by apply abort_reservation_wf|done].
  - by apply swap_out_wf.
  - by apply secure_wf.
  - pose proof (aps_unsecure_spec s buf hl level sender fallback Hwf Hok) as Hs.
    destruct (ApsSecurity.unsecure_incoming _ _ _ _ _ _) as [[r b] s']. by destruct Hs.
Qed.

Lemma aps_new_wf : aps_wf (ApsSecurity.new : ApsSecurity.t C K).
Proof. split; [|by apply coherent_dropped]. split; [split; simpl; [constructor|lia]|constructor]. Qed.

Lemma aps_run_wf (ops : list ApsSecurityOp.t) s :
  aps_wf s → Forall ApsSecurityOp.ok ops → aps_wf (foldl ApsSecurityOp.exec s ops).
Proof.
  intros Hs Hops. revert s Hs. induction Hops as [|o ops Ho Hops IH]; intros s Hs; simpl; [done|].
  by apply IH, aps_exec_wf.
Qed.
End security_spec.

(** A device that shares the key [9] with partner [p], its counter reserved. *)
Definition armed (p : Z) : ApsSecurity.t Z 4 := foldl ApsSecurityOp.exec ApsSecurity.new
  [ApsSecurityOp.Install (LinkKeyEntry.provisional p [9] Unique); ApsSecurityOp.Start; ApsSecurityOp.Commit p 1024].

Lemma armed_wf p : aps_wf (armed p).
Proof. apply aps_run_wf; [apply aps_new_wf|]. repeat constructor; vm_compute; congruence. Qed.

(** Frames such a device with address 10 sends. *)
Definition armed_frame (fc : Z) : list Z :=
  [33; 7; 32; fc; 0; 0; 0; 10; 0; 0; 0; 0; 0; 0; 0; 11; 17; 10; 100; 38; 75; 32].

(** The APS cipher cache never serves a stale key: after any sequence of key
    installations, replacements, renamings, removals, swap-outs, challenges,
    counter operations and secured or received frames, the cipher used for a
    partner and a key identifier is the one derived from the link key currently
    held for that partner, and there is none for a partner without a key. *)
Theorem aps_cipher_cache_coherent {C} {K : nat} `{!BlockCipher C} {CT : ConstantTimeEq} {H : Heapless}
    (ops : list ApsSecurityOp.t) (p : Z) (k : KeyIdentifier.t) :
  Forall ApsSecurityOp.ok ops →
  let s : ApsSecurity.t C K := foldl ApsSecurityOp.exec ApsSecurity.new ops in
  aps_wf s ∧ (ApsSecurity.cipher_for s p k).1 =
    match LinkKeyTable.get (ApsSecurity.keys s) p with
    | Some e => cipher_new <$> ApsSecurity.derived_key (C:=C) k (LinkKeyEntry.key e)
    | None => None
    end.
Proof.
  intros Hops s. assert (aps_wf s) as Hwf by (apply aps_run_wf; [apply aps_new_wf|done]). split; [done|].
  destruct (ApsSecurity.cipher_for s p k) as [c s'] eqn:E.
  apply aps_cipher_for_wf in E as (-> & _ & _); [|done]. unfold link_cipher, key_of. simpl.
  by destruct (LinkKeyTable.get _ p).
Qed.

Lemma aps_cipher_cache_coherent_witness :
  let s : ApsSecurity.t Z 4 := foldl ApsSecurityOp.exec ApsSecurity.new
    [ApsSecurityOp.Install (LinkKeyEntry.provisional 0xB [9] Unique); ApsSecurityOp.Start;
     ApsSecurityOp.Commit 0xB 1024;
     ApsSecurityOp.Secure (replicate 40 0) 2 3 SecurityLevel.EncMic32 0xB KeyIdentifier.Data 0xA true;
     ApsSecurityOp.ReplaceKey 0xB [5] KeyAttributes.VerifiedKey Unique] in
  (ApsSecurity.cipher_for s 0xB KeyIdentifier.Data).1 = Some 5 ∧
  (ApsSecurity.cipher_for s 0xB KeyIdentifier.Data).1 =
    match LinkKeyTable.get (ApsSecurity.keys s) 0xB with
    | Some e => cipher_new <$> ApsSecurity.derived_key (C:=Z) KeyIdentifier.Data (LinkKeyEntry.key e)
    | None => None
    end.
Proof.
  split; [vm_compute; reflexivity|].
  apply (aps_cipher_cache_coherent (C:=Z) (K:=4)
    [ApsSecurityOp.Install (LinkKeyEntry.provisional 0xB [9] Unique); ApsSecurityOp.Start;
     ApsSecurityOp.Commit 0xB 1024;
     ApsSecurityOp.Secure (replicate 40 0) 2 3 SecurityLevel.EncMic32 0xB KeyIdentifier.Data 0xA true;
     ApsSecurityOp.ReplaceKey 0xB [5] KeyAttributes.VerifiedKey Unique]).
  repeat constructor; vm_compute; congruence.
Defined.

(** The key is of the kind the frame names. *)
Lemma unsecure_key_id {C} {K : nat} `{!BlockCipher C} {CT : ConstantTimeEq} {H : Heapless}
    (s s' : ApsSecurity.t C K) buf hl level sender fb u buf' aux :
  ApsSecurity.unsecure_incoming s buf hl level sender fb = (Ok u, buf', s') → peek_aux buf hl = Ok aux →
  ApsUnsecured.key_id u = SecurityControl.key_id (AuxHeader.control aux).
Proof.
  unfold ApsSecurity.unsecure_incoming. intros Hu Hpk. rewrite Hpk in Hu. cbv zeta in Hu.
  repeat case_match; by simplify_eq.
Qed.

(** C36. Nothing unauthenticated moves the APS receiver.  A received frame that is
    refused, for whatever reason, leaves every link key and counter as it was.  For
    an accepted one, the payload handed out is the one that, protected behind the
    received header with the received auxiliary header, at the level the caller
    asks for and under the key of the kind that header names, derived from the
    link key of the partner it is attributed to, gives the received octets (up to
    the control bits the receiver ignores); the counter reported is the one in that
    header; with a unique key it was not seen before, the next one acceptable lies
    above it, and the partner's counter was verified where the partner can be
    challenged; no other entry changes. *)
Theorem aps_unsecure_sound {C} {K : nat} `{!BlockCipher C} {CT : ConstantTimeEq} {H : Heapless}
    (s : ApsSecurity.t C K) (buf : list Z) (hl : nat) (level : SecurityLevel.t) (sender fb : option Z) :
  aps_wf s → bytes_ok buf →
  let '(r, buf', s') := ApsSecurity.unsecure_incoming s buf hl level sender fb in
  match r with
  | Err _ => ApsSecurity.keys s' = ApsSecurity.keys s
  | Ok u =>
      let p := ApsUnsecured.partner u in
      let fc := ApsUnsecured.frame_counter u in
      ∃ aux source e key payload,
        peek_aux buf hl = Ok aux ∧ AuxHeader.frame_counter aux = fc ∧
        ApsUnsecured.key_id u = SecurityControl.key_id (AuxHeader.control aux) ∧
        match AuxHeader.source aux with Some a => Some a | None => sender end = Some source ∧
        (p = source ∨ (ApsSecurity.entry s source = None ∧ fb = Some p)) ∧
        ApsSecurity.entry s p = Some e ∧
        ApsSecurity.entry s' p = Some (KeyPair.set_incoming (fc + 1) e) ∧
        (∀ q, q ≠ p → ApsSecurity.entry s' q = ApsSecurity.entry s q) ∧
        (LinkKeyEntry.kind e = Unique → LinkKeyEntry.incoming e ≤ fc ∧
           (LinkKeyEntry.frame_counter_sync e = true → LinkKeyEntry.verified_frame_counter e = true)) ∧
        ApsSecurity.derived_key (C:=C) (ApsUnsecured.key_id u) (LinkKeyEntry.key e) = Some key ∧
        get_range buf' (ApsUnsecured.payload_start u) (ApsUnsecured.payload_end u) = Some payload ∧
        protects_to (cipher_new key : C) (received_aux level aux) source hl payload buf
  end.
Proof.
  intros Hwf Hok. pose proof (aps_unsecure_spec s buf hl level sender fb Hwf Hok) as Hs.
  destruct (ApsSecurity.unsecure_incoming s buf hl level sender fb) as [[[u|e] buf'] s'] eqn:Eu; [|by destruct Hs].
  destruct Hs as (_ & aux & e & src & cipher & v & Hpk & Hsrc & Hp & He & _ & _ & Hfc & _ & _ & HU & Hc & Hu & Hps & Hpe & Hk).
  cbv zeta. unfold link_cipher, key_of in Hc. rewrite He in Hc. simpl in Hc.
  destruct (ApsSecurity.derived_key _ _) as [key|] eqn:Hd; simpl in Hc; [|done]. injection Hc as <-.
  destruct (unprotect_protects _ _ _ _ _ _ _ _ Hok Hu Hpk) as (payload & Hr & Hpr). rewrite Hps, Hpe in Hr.
  exists aux, src, e, key, payload. unfold ApsSecurity.entry. rewrite Hk.
  split_and!; [done|done|by eapply unsecure_key_id|done| |done| | |done|done|done|done].
  - unfold ApsSecurity.partner_for in Hp. destruct (LinkKeyTable.get _ src) eqn:Es; [left; by injection Hp|].
    right. cbn [is_some] in Hp. destruct fb as [f|]; [|done]. split; [done|]. by destruct (is_some _).
  - by rewrite get_get_mut, He.
  - intros q Hq. by rewrite get_get_mut_ne.
Qed.

Lemma aps_unsecure_sound_witness :
  let '(r, _, s') := ApsSecurity.unsecure_incoming (armed 10) (armed_frame 0) 2 SecurityLevel.EncMic32 None None in
  r = Ok (ApsUnsecured.mk 10 KeyIdentifier.Data true 0 Unique KeyAttributes.ProvisionalKey 15 18) ∧
  ∃ e, ApsSecurity.entry s' 10 = Some (KeyPair.set_incoming 1 e).
Proof.
  pose proof (aps_unsecure_sound (armed 10) (armed_frame 0) 2 SecurityLevel.EncMic32 None None (armed_wf 10)
    ltac:(repeat constructor; vm_compute; congruence)) as T.
  destruct (ApsSecurity.unsecure_incoming (armed 10) _ _ _ _ _) as [[r b] s'] eqn:E.
  assert (r = Ok (ApsUnsecured.mk 10 KeyIdentifier.Data true 0 Unique KeyAttributes.ProvisionalKey 15 18)) as ->
    by (vm_compute in E; congruence).
  split; [reflexivity|]. destruct T as (aux & source & e & key & payload & _ & _ & _ & _ & _ & _ & T & _). exists e. exact T.
Defined.

(** ** Replays *)

(** The operations that give partner [p] a new key or a new counter. *)
Definition resets (p : Z) (o : ApsSecurityOp.t) : bool :=
  match o with
  | ApsSecurityOp.Install e => LinkKeyEntry.partner e =? p
  | ApsSecurityOp.ReplaceKey q _ _ _ | ApsSecurityOp.Remove q | ApsSecurityOp.ResetIncoming q
  | ApsSecurityOp.Validate q _ _ _ _ => q =? p
  | ApsSecurityOp.Rename from to => (from =? p) || (to =? p)
  | ApsSecurityOp.SwapOut _ _ _ _ => true
  | _ => false
  end.

Section replay.
Context {C : Type} {K : nat} `{!BlockCipher C} {CT : ConstantTimeEq} {H : Heapless}.
Implicit Types (s : ApsSecurity.t C K) (ks : LinkKeyTable.t K) (e : LinkKeyEntry.t).

(** The kind of key and the next acceptable counter of a partner. *)
Definition guard e : Z * (LinkKeyKind * Z) :=
  (LinkKeyEntry.partner e, (LinkKeyEntry.kind e, LinkKeyEntry.incoming e)).
Definition guard_of ks (p : Z) : option (LinkKeyKind * Z) :=
  (snd ∘ guard) <$> LinkKeyTable.get ks p.

Lemma guard_of_list ks p :
  guard_of ks p = snd <$> List.find (λ x : Z * (LinkKeyKind * Z), x.1 =? p) (guard <$> LinkKeyTable.entries ks).
Proof.
  unfold guard_of, LinkKeyTable.get. induction (LinkKeyTable.entries ks) as [|e es IH]; simpl; [done|].
  unfold LinkKeyTable.of_partner at 1. by destruct (_ =? p).
Qed.

Lemma guard_get_mut ks q f p :
  (∀ e, guard (f e) = guard e) → guard_of (LinkKeyTable.get_mut ks q f) p = guard_of ks p.
Proof.
  intros Hf. rewrite !guard_of_list. unfold LinkKeyTable.get_mut. simpl. do 2 f_equal.
  induction (LinkKeyTable.entries ks) as [|e es IH]; simpl; [done|].
  destruct (LinkKeyTable.of_partner q e); simpl; [by rewrite Hf|by f_equal].
Qed.

Lemma guard_on_entry s q f p :
  (∀ e, guard (f e) = guard e) →
  guard_of (ApsSecurity.keys (ApsSecurity.on_entry s q f).2) p = guard_of (ApsSecurity.keys s) p.
Proof.
  intros Hf. unfold ApsSecurity.on_entry. destruct (LinkKeyTable.get _ _); [|done]. by apply guard_get_mut.
Qed.

(** Changes to another partner's entry. *)
Lemma get_on_entry_ne s q f p :
  q ≠ p → (∀ e, LinkKeyEntry.partner e = q → LinkKeyEntry.partner (f e) ≠ p) →
  LinkKeyTable.get (ApsSecurity.keys (ApsSecurity.on_entry s q f).2) p = LinkKeyTable.get (ApsSecurity.keys s) p.
Proof.
  intros Hne Hf. unfold ApsSecurity.on_entry. destruct (LinkKeyTable.get _ q); [|done].
  apply find_update_first_ne. intros e He%(key_test (key:=LinkKeyEntry.partner)).
  split; apply (key_test_ne LinkKeyEntry.partner); [congruence|by apply Hf].
Qed.

Lemma get_remove_ne ks p q : q ≠ p → LinkKeyTable.get (LinkKeyTable.remove ks q).2 p = LinkKeyTable.get ks p.
Proof.
  intros Hne. unfold LinkKeyTable.get, LinkKeyTable.remove. simpl. rewrite vec_retain_spec.
  by apply (find_key_filter_keep LinkKeyEntry.partner).
Qed.

Lemma get_insert_ne ks e p :
  LinkKeyEntry.partner e ≠ p → LinkKeyTable.get (LinkKeyTable.insert e ks).2 p = LinkKeyTable.get ks p.
Proof.
  intros Hne. unfold LinkKeyTable.insert. destruct (LinkKeyTable.get ks _); simpl.
  - unfold LinkKeyTable.get_mut, LinkKeyTable.get. simpl. by apply (find_key_update_ne LinkKeyEntry.partner).
  - destruct (vec_push_cases K (LinkKeyTable.entries ks) e) as [[_ ->]|[_ ->]]; [|done].
    unfold LinkKeyTable.get. simpl. by apply (find_key_snoc_ne LinkKeyEntry.partner).
Qed.

Lemma start_first_guard es : guard <$> (ApsSecurity.start_first es).2 = guard <$> es.
Proof.
  induction es as [|e es IH]; simpl; [done|].
  destruct (OutgoingCounter.start_reservation _) as [[r|] o]; [done|].
  destruct (ApsSecurity.start_first es) as [q es']. simpl in *. by f_equal.
Qed.

(** Every operation that does not reset a partner keeps its kind of key and never
    lowers the counter of a unique key. *)
Definition advances (g g' : option (LinkKeyKind * Z)) : Prop :=
  ∀ i, g = Some (Unique, i) → ∃ i', g' = Some (Unique, i') ∧ i ≤ i'.

Lemma advances_same g : advances g g.
Proof. intros i ->. eexists. split; [done|lia]. Qed.

Lemma secure_keys s buf hl pl level q k ieee ext p :
  guard_of (ApsSecurity.keys (ApsSecurity.secure_outgoing s buf hl pl level q k ieee ext).2) p =
  guard_of (ApsSecurity.keys s) p.
Proof.
  unfold ApsSecurity.secure_outgoing. case_bool_decide; [done|]. destruct (LinkKeyTable.get _ q) as [e|]; [|done].
  case_bool_decide; [done|]. destruct (OutgoingCounter.allocate _) as [[fc|err] o]; [|by apply guard_get_mut].
  cbv zeta. set (s1 := ApsSecurity.with_keys s _).
  assert (∀ c s', ApsSecurity.cipher_for s1 q k = (c, s') → ApsSecurity.keys s' = ApsSecurity.keys s1) as Hk.
  { intros c s'. unfold ApsSecurity.cipher_for. repeat case_match; by intros [= _ <-]. }
  destruct (ApsSecurity.cipher_for s1 q k) as [c s']. specialize (Hk c s' eq_refl). destruct c as [c|].
  - destruct (protect_in_place _ _ _ _ _ _). simpl. rewrite Hk. by apply guard_get_mut.
  - simpl. rewrite Hk. by apply guard_get_mut.
Qed.

Lemma exec_advances s o p :
  aps_wf s → ApsSecurityOp.ok o → resets p o = false →
  advances (guard_of (ApsSecurity.keys s) p) (guard_of (ApsSecurity.keys (ApsSecurityOp.exec s o)) p).
Proof.
  intros Hwf Hok Hr. destruct o; cbn [ApsSecurityOp.exec ApsSecurityOp.ok resets] in *.
  - apply Z.eqb_neq in Hr. unfold ApsSecurity.install. destruct (LinkKeyTable.remove _ _) as [b ks] eqn:Er.
    destruct (LinkKeyTable.insert e ks) as [r ks'] eqn:Ei. unfold guard_of. simpl.
    change ks' with (r, ks').2. rewrite <- Ei, get_insert_ne by done.
    change ks with (b, ks).2. rewrite <- Er, get_remove_ne by done. apply advances_same.
  - apply Z.eqb_neq in Hr. unfold ApsSecurity.replace_key, guard_of.
    rewrite get_on_entry_ne; [apply advances_same|done|by intros ? <-].
  - apply orb_false_iff in Hr as [Hf%Z.eqb_neq Ht%Z.eqb_neq]. unfold ApsSecurity.rename.
    destruct (from =? to); [apply advances_same|]. destruct (negb _); [apply advances_same|]. cbv zeta. unfold guard_of.
    rewrite get_on_entry_ne by done. cbn [ApsSecurity.keys ApsSecurity.with_keys]. rewrite get_remove_ne by done. apply advances_same.
  - apply Z.eqb_neq in Hr. unfold ApsSecurity.remove. destruct (LinkKeyTable.remove _ _) as [b ks] eqn:Er.
    unfold guard_of. simpl. change ks with (b, ks).2. rewrite <- Er.
    rewrite get_remove_ne by done. apply advances_same.
  - unfold ApsSecurity.set_attributes. rewrite guard_on_entry by done. apply advances_same.
  - apply Z.eqb_neq in Hr. unfold ApsSecurity.reset_incoming, guard_of.
    rewrite get_on_entry_ne; [apply advances_same|done|by intros ? <-].
  - unfold ApsSecurity.answer_challenge. destruct (LinkKeyTable.get _ _); [|apply advances_same].
    simpl. rewrite guard_get_mut by done. apply advances_same.
  - apply Z.eqb_neq in Hr. unfold ApsSecurity.validate_challenge. destruct (LinkKeyTable.get _ _); [|apply advances_same].
    destruct (negb _); [apply advances_same|]. unfold guard_of. simpl. rewrite get_get_mut_ne by done. apply advances_same.
  - rewrite !guard_of_list. simpl. rewrite <- list_fmap_compose. apply advances_same.
  - unfold ApsSecurity.start_counter_reservation. pose proof (start_first_guard (LinkKeyTable.entries (ApsSecurity.keys s))) as Hg.
    destruct (ApsSecurity.start_first _) as [r es]. rewrite !guard_of_list. simpl in *. rewrite Hg. apply advances_same.
  - unfold ApsSecurity.commit_counter_reservation. rewrite guard_on_entry by done. apply advances_same.
  - unfold ApsSecurity.abort_counter_reservation. rewrite guard_on_entry by done. apply advances_same.
  - done.
  - rewrite secure_keys. apply advances_same.
  - pose proof (aps_unsecure_spec s buf hl level sender fallback Hwf Hok) as Hs.
    destruct (ApsSecurity.unsecure_incoming _ _ _ _ _ _) as [[[u|e] b] s']; cbn [snd];
      [|destruct Hs as [_ ->]; apply advances_same].
    destruct Hs as (_ & aux & e & src & cipher & v & _ & _ & _ & He & _ & _ & _ & _ & _ & HU & _ & _ & _ & _ & ->).
    unfold guard_of. destruct (decide (ApsUnsecured.partner u = p)) as [<-|Hne].
    + rewrite get_get_mut, He by done. simpl. intros i [= Hk <-]. eexists. split; [by rewrite Hk|].
      destruct (HU Hk). lia.
    + rewrite get_get_mut_ne by done. apply advances_same.
Qed.

Lemma run_advances ops s p :
  aps_wf s → Forall ApsSecurityOp.ok ops → Forall (λ o, resets p o = false) ops →
  advances (guard_of (ApsSecurity.keys s) p) (guard_of (ApsSecurity.keys (foldl ApsSecurityOp.exec s ops)) p).
Proof.
  intros Hwf Hok Hr. revert s Hwf. induction ops as [|o ops IH]; intros s Hwf; simpl; [apply advances_same|].
  apply Forall_cons in Hok as [Ho Hok]. apply Forall_cons in Hr as [Hro Hr].
  intros i Hi. destruct (exec_advances s o p Hwf Ho Hro i Hi) as (i1 & H1 & Hle1).
  destruct (IH Hok Hr _ (aps_exec_wf s o Hwf Ho) i1 H1) as (i2 & H2 & Hle2). exists i2. split; [done|lia].
Qed.
End replay.

(** No APS frame is accepted twice: once a frame from a partner with a unique
    key was accepted, every later frame accepted from that partner carries a
    greater counter, whatever keys and entries of other partners change, whatever
    frames are sent, received or refused, and whatever counters are reserved or
    challenged in between, until the partner's own key or counter is set anew. *)
Theorem aps_replay_protection {C} {K : nat} `{!BlockCipher C} {CT : ConstantTimeEq} {H : Heapless}
    (s : ApsSecurity.t C K) (buf1 buf2 : list Z) (hl1 hl2 : nat) (l1 l2 : SecurityLevel.t)
    (sd1 fb1 sd2 fb2 : option Z) (ops : list ApsSecurityOp.t) (u1 u2 : ApsUnsecured.t) :
  aps_wf s → bytes_ok buf1 → bytes_ok buf2 → Forall ApsSecurityOp.ok ops →
  (ApsSecurity.unsecure_incoming s buf1 hl1 l1 sd1 fb1).1.1 = Ok u1 →
  let s1 := (ApsSecurity.unsecure_incoming s buf1 hl1 l1 sd1 fb1).2 in
  Forall (λ o, resets (ApsUnsecured.partner u1) o = false) ops →
  (ApsSecurity.unsecure_incoming (foldl ApsSecurityOp.exec s1 ops) buf2 hl2 l2 sd2 fb2).1.1 = Ok u2 →
  ApsUnsecured.partner u2 = ApsUnsecured.partner u1 → ApsUnsecured.kind u1 = Unique →
  ApsUnsecured.frame_counter u1 < ApsUnsecured.frame_counter u2.
Proof.
  intros Hwf Hb1 Hb2 Hok E1 s1 Hr E2 Hp Hk. subst s1.
  pose proof (aps_unsecure_spec s buf1 hl1 l1 sd1 fb1 Hwf Hb1) as H1.
  destruct (ApsSecurity.unsecure_incoming s buf1 hl1 l1 sd1 fb1) as [[r1 b1] s1]. simpl in *. subst r1.
  destruct H1 as (Hwf1 & aux & e & src & c & v & _ & _ & _ & He & Hke & _ & _ & _ & _ & _ & _ & _ & _ & _ & Hks).
  pose proof (aps_unsecure_spec _ buf2 hl2 l2 sd2 fb2 (aps_run_wf ops s1 Hwf1 Hok) Hb2) as H2.
  destruct (ApsSecurity.unsecure_incoming (foldl _ _ _) buf2 hl2 l2 sd2 fb2) as [[r2 b2] s2]. simpl in *. subst r2.
  destruct H2 as (_ & aux2 & e2 & src2 & c2 & v2 & _ & _ & _ & He2 & _ & _ & _ & _ & _ & HU2 & _).
  rewrite Hp in He2.
  destruct (run_advances ops s1 (ApsUnsecured.partner u1) Hwf1 Hok Hr (ApsUnsecured.frame_counter u1 + 1))
    as (i & Hi & Hle).
  - unfold guard_of. rewrite Hks, get_get_mut, He by done. simpl. by rewrite <- Hke, Hk.
  - unfold guard_of in Hi. rewrite He2 in Hi. simpl in Hi. injection Hi as Hu <-. destruct (HU2 Hu). lia.
Qed.

Lemma aps_replay_protection_witness : 0 < 1.
Proof.
  refine (aps_replay_protection (armed 10) (armed_frame 0) (armed_frame 1) 2 2 SecurityLevel.EncMic32
    SecurityLevel.EncMic32 None None None None
    [ApsSecurityOp.Remove 11; ApsSecurityOp.Unsecure (armed_frame 0) 2 SecurityLevel.EncMic32 None None]
    (ApsUnsecured.mk 10 KeyIdentifier.Data true 0 Unique KeyAttributes.ProvisionalKey 15 18)
    (ApsUnsecured.mk 10 KeyIdentifier.Data true 1 Unique KeyAttributes.ProvisionalKey 15 18)
    (armed_wf 10) _ _ _ _ _ _ eq_refl eq_refl);
    [repeat constructor; vm_compute; congruence .. | vm_compute; reflexivity |
     repeat constructor | vm_compute; reflexivity].
Defined.

(** ** Two partners *)

Section end_to_end.
Context {C : Type} {K : nat} `{!BlockCipher C} {CT : ConstantTimeEq} {H : Heapless}.
Implicit Types s : ApsSecurity.t C K.

Lemma link_wf level k fc (src : option Z) :
  k ≠ KeyIdentifier.Network → uint 32 fc → from_option (uint 64) True src →
  AuxHeader.wf (AuxHeader.link level k fc src).
Proof. intros Hk Hfc Hs. split_and!; simpl; try done. by rewrite bool_decide_false. Qed.

Lemma link_cipher_entry s p k e :
  ApsSecurity.entry s p = Some e →
  link_cipher (C:=C) (ApsSecurity.keys s) p k = cipher_new <$> ApsSecurity.derived_key (C:=C) k (LinkKeyEntry.key e).
Proof. unfold ApsSecurity.entry, link_cipher, key_of. by intros ->. Qed.

Lemma allocate_value o fc o' :
  OutgoingCounter.wf o → OutgoingCounter.allocate o = (Ok fc, o') → uint 32 fc ∧ fc ≠ u32_max.
Proof.
  intros (Hn & _) Ha. unfold OutgoingCounter.allocate in Ha.
  destruct (Z.eqb_spec (OutgoingCounter.next o) u32_max); [done|]. case_match; simplify_eq. done.
Qed.
End end_to_end.

(** The receive path on a frame whose checks all pass. *)
Lemma unsecure_accepts {C} {K : nat} `{!BlockCipher C} {CT : ConstantTimeEq} {H : Heapless}
    (s : ApsSecurity.t C K) buf hl level sd aux k p e cipher v out :
  aps_wf s → peek_aux buf hl = Ok aux → SecurityControl.key_id (AuxHeader.control aux) = k →
  k ≠ KeyIdentifier.Network → AuxHeader.frame_counter aux ≠ u32_max →
  ApsSecurity.nonce_source aux sd = Some p → ApsSecurity.entry s p = Some e →
  (LinkKeyEntry.kind e = Unique → LinkKeyEntry.incoming e ≤ AuxHeader.frame_counter aux ∧
     (LinkKeyEntry.frame_counter_sync e = true → LinkKeyEntry.verified_frame_counter e = true)) →
  link_cipher (ApsSecurity.keys s) p k = Some cipher →
  unprotect_in_place cipher level p buf hl = (Ok v, out) →
  ∃ s1, ApsSecurity.keys s1 = ApsSecurity.keys s ∧
    ApsSecurity.unsecure_incoming s buf hl level sd None =
      (Ok (ApsUnsecured.mk p k (SecurityControl.extended_nonce (AuxHeader.control aux))
             (AuxHeader.frame_counter aux) (LinkKeyEntry.kind e) (LinkKeyEntry.attributes e)
             (Unprotected.payload_start v) (Unprotected.payload_end v)), out,
       ApsSecurity.with_keys s1 (LinkKeyTable.get_mut (ApsSecurity.keys s) p
         (KeyPair.set_incoming (sat_add 32 (AuxHeader.frame_counter aux) 1)))).
Proof.
  intros Hwf Hpk Hkid Hk Hmax Hns He HU Hc Hu. unfold ApsSecurity.unsecure_incoming. rewrite Hpk. cbv zeta.
  rewrite Hns, Hkid, bool_decide_false, (proj2 (Z.eqb_neq _ _) Hmax) by done.
  unfold ApsSecurity.partner_for. unfold ApsSecurity.entry in He. rewrite He. cbn [is_some]. rewrite He.
  assert (bool_decide (LinkKeyEntry.kind e = Unique) && (AuxHeader.frame_counter aux <? LinkKeyEntry.incoming e)
    = false) as ->.
  { case_bool_decide as Hun; [|done]. destruct (HU Hun). simpl. lia. }
  destruct (ApsSecurity.cipher_for s p k) as [c s1] eqn:Ec.
  destruct (aps_cipher_for_wf _ _ _ _ _ Hwf Ec) as (-> & _ & Hk1). exists s1. split; [done|].
  rewrite Hc, Hu, Hk1, He.
  assert (bool_decide (LinkKeyEntry.kind e = Unique) && LinkKeyEntry.frame_counter_sync e &&
    negb (LinkKeyEntry.verified_frame_counter e) = false) as ->; [|done].
  case_bool_decide as Hun; [|done]. destruct (HU Hun) as [_ Hv]. simpl.
  destruct (LinkKeyEntry.frame_counter_sync e); [|done]. by rewrite Hv.
Qed.

(** A frame with an old counter under a unique key is refused before any cryptography. *)
Lemma unsecure_refuses_old {C} {K : nat} `{!BlockCipher C} {CT : ConstantTimeEq} {H : Heapless}
    (s : ApsSecurity.t C K) buf hl level sd fb aux p e :
  peek_aux buf hl = Ok aux → SecurityControl.key_id (AuxHeader.control aux) ≠ KeyIdentifier.Network →
  AuxHeader.frame_counter aux ≠ u32_max →
  ApsSecurity.nonce_source aux sd = Some p → ApsSecurity.entry s p = Some e →
  LinkKeyEntry.kind e = Unique → AuxHeader.frame_counter aux < LinkKeyEntry.incoming e →
  ApsSecurity.unsecure_incoming s buf hl level sd fb = (Err BadFrameCounter, buf, s).
Proof.
  intros Hpk Hk Hmax Hns He HU Hlt. unfold ApsSecurity.unsecure_incoming. rewrite Hpk. cbv zeta.
  rewrite Hns, bool_decide_false, (proj2 (Z.eqb_neq _ _) Hmax) by done.
  unfold ApsSecurity.partner_for. unfold ApsSecurity.entry in He. rewrite He. cbn [is_some]. rewrite He.
  by rewrite bool_decide_true, (proj2 (Z.ltb_lt _ _) Hlt) by done.
Qed.

(** Two partners that share a link key understand each other, once: what the
    sender secures for its partner, with the link key or a key derived from it,
    with or without its address in the frame, the receiver accepts, attributes to
    the sender's entry and recovers exactly; with a unique key the same frame
    offered a second time is refused.  The header and the octets behind the frame
    are untouched. *)
Theorem aps_secure_unsecure {C} {K K' : nat} `{!BlockCipher C} {CT : ConstantTimeEq} {H : Heapless}
    (tx : ApsSecurity.t C K) (rx : ApsSecurity.t C K') (peer ieee fc : Z) (et er : LinkKeyEntry.t)
    (o : OutgoingCounter.t) (k : KeyIdentifier.t) (level : SecurityLevel.t) (ext : bool)
    (hdr slot P mic rest : list Z) :
  aps_wf tx → aps_wf rx → uint 64 ieee → k ≠ KeyIdentifier.Network →
  ApsSecurity.entry tx peer = Some et → ApsSecurity.entry rx ieee = Some er →
  LinkKeyEntry.key et = LinkKeyEntry.key er →
  LinkKeyEntry.attributes et ≠ KeyAttributes.UnverifiedKey →
  OutgoingCounter.allocate (LinkKeyEntry.outgoing et) = (Ok fc, o) →
  (LinkKeyEntry.kind er = Unique → LinkKeyEntry.incoming er ≤ fc ∧
     (LinkKeyEntry.frame_counter_sync er = true → LinkKeyEntry.verified_frame_counter er = true)) →
  length slot = ApsSecurity.aux_header_len ext → length mic = SecurityLevel.mic_len level →
  ccm_fits (AuxHeader.link level k fc (if ext then Some ieee else None)) hdr P →
  let ps := (length hdr + ApsSecurity.aux_header_len ext)%nat in
  ∃ frame tx' rx' out,
    ApsSecurity.secure_outgoing tx (hdr ++ slot ++ P ++ mic ++ rest) (length hdr) (length P) level peer k ieee ext
      = (Ok (length frame), frame ++ rest, tx') ∧
    take (length hdr) frame = hdr ∧
    ApsSecurity.unsecure_incoming rx frame (length hdr) level (Some ieee) None
      = (Ok (ApsUnsecured.mk ieee k ext fc (LinkKeyEntry.kind er) (LinkKeyEntry.attributes er) ps (ps + length P)),
         out, rx') ∧
    take (length P) (drop ps out) = P ∧
    (LinkKeyEntry.kind er = Unique →
     ApsSecurity.unsecure_incoming rx' frame (length hdr) level (Some ieee) None = (Err BadFrameCounter, frame, rx')).
Proof.
  intros Htx Hrx Hie Hk Het Her Hkey Hatt Hall Hfr Hslot Hmic Hfit ps.
  assert (uint 32 fc ∧ fc ≠ u32_max) as [Hfc Hmax].
  { destruct Htx as [[_ Hok] _]. apply (find_key_Some LinkKeyEntry.partner) in Het as [Hin _].
    rewrite Forall_forall in Hok. destruct (Hok et Hin) as [Ho _]. by eapply allocate_value. }
  set (aux := AuxHeader.link level k fc (if ext then Some ieee else None)) in *.
  destruct (ApsSecurity.derived_key (C:=C) k (LinkKeyEntry.key er)) as [key|] eqn:Hd; [|by destruct k].
  set (cipher := cipher_new key : C).
  assert (AuxHeader.wf aux) as Hwa by (apply link_wf; [done..|by destruct ext]).
  assert (AuxHeader.encoded_len aux = ApsSecurity.aux_header_len ext) as Hal by (by destruct ext).
  destruct (protect_unprotect cipher aux ieee hdr slot P mic rest Hwa (eq_trans Hslot (eq_sym Hal)) Hmic Hfit)
    as (total & frame & M' & Hp & -> & Hhdr & Hpk & Hu).
  rewrite Hal in Hu. fold ps in Hu.
  set (tx1 := ApsSecurity.with_keys tx (LinkKeyTable.get_mut (ApsSecurity.keys tx) peer
    (λ e, KeyPair.set_challenge 0 (KeyPair.set_outgoing o e)))).
  assert (aps_wf tx1) as Htx1.
  { apply get_mut_wf; [done| |done]. intros e [_ Hi]. split; [|done]. destruct Htx as [[_ Hok] _].
    apply (find_key_Some LinkKeyEntry.partner) in Het as [Hin _]. rewrite Forall_forall in Hok.
    eapply allocate_wf; [by apply (Hok et)|done]. }
  destruct (ApsSecurity.cipher_for tx1 peer k) as [ct tx'] eqn:Ect.
  destruct (aps_cipher_for_wf _ _ _ _ _ Htx1 Ect) as (Hct & _ & _).
  assert (ApsSecurity.entry tx1 peer = Some (KeyPair.set_challenge 0 (KeyPair.set_outgoing o et))) as Het1.
  { unfold ApsSecurity.entry, tx1. simpl. unfold ApsSecurity.entry in Het. by rewrite get_get_mut, Het. }
  rewrite (link_cipher_entry _ _ _ _ Het1) in Hct. simpl in Hct. rewrite Hkey, Hd in Hct. simpl in Hct. fold cipher in Hct.
  destruct (unsecure_accepts rx frame (length hdr) level (Some ieee) (zero_level aux) k ieee er cipher
    (Unprotected.mk aux ps (ps + length P)) (hdr ++ AuxHeader.wire aux ++ P ++ M')) as (rx1 & Hk1 & Hrx1);
    [done|done|done|done|done|by destruct ext|done|done| |done|].
  { by rewrite (link_cipher_entry _ _ _ _ Her), Hd. }
  assert (SecurityControl.extended_nonce (AuxHeader.control (zero_level aux)) = ext) as Hxn by (by destruct ext).
  rewrite Hxn in Hrx1. eexists frame, tx', _, _. split_and!; [|done|exact Hrx1| |].
  - unfold ApsSecurity.secure_outgoing. unfold ApsSecurity.entry in Het.
    rewrite bool_decide_false, Het, bool_decide_false, Hall by done.
    cbv zeta. fold aux tx1. by rewrite Ect, Hct, Hp.
  - rewrite (app_assoc hdr), drop_app_length', take_app_length; [done|].
    by rewrite length_app, <- aux_len, Hal.
  - intros HU. apply (unsecure_refuses_old _ _ _ _ _ _ (zero_level aux) ieee
      (KeyPair.set_incoming (sat_add 32 fc 1) er)); [done|done|done|by destruct ext| |done|].
    + unfold ApsSecurity.entry. cbn [ApsSecurity.with_keys ApsSecurity.keys].
      unfold ApsSecurity.entry in Her. by rewrite get_get_mut, Her.
    + simpl. unfold sat_add, uint, u32_max in *. lia.
Qed.

Lemma aps_secure_unsecure_witness :
  ∃ frame tx' rx' out,
    ApsSecurity.secure_outgoing (armed 11) ([33; 7] ++ replicate 13 0 ++ [1; 2; 3] ++ replicate 4 0 ++ []) 2 3
      SecurityLevel.EncMic32 11 KeyIdentifier.Data 10 true = (Ok (length frame), frame ++ [], tx') ∧
    take 2 frame = [33; 7] ∧
    ApsSecurity.unsecure_incoming (armed 10) frame 2 SecurityLevel.EncMic32 (Some 10) None =
      (Ok (ApsUnsecured.mk 10 KeyIdentifier.Data true 0 Unique KeyAttributes.ProvisionalKey 15 18), out, rx') ∧
    take 3 (drop 15 out) = [1; 2; 3] ∧
    (Unique = Unique →
     ApsSecurity.unsecure_incoming rx' frame 2 SecurityLevel.EncMic32 (Some 10) None = (Err BadFrameCounter, frame, rx')).
Proof.
  eapply (aps_secure_unsecure (armed 11) (armed 10) 11 10 0
    (KeyPair.set_outgoing (OutgoingCounter.mk 0 1024 1024 64 None) (LinkKeyEntry.provisional 11 [9] Unique))
    (KeyPair.set_outgoing (OutgoingCounter.mk 0 1024 1024 64 None) (LinkKeyEntry.provisional 10 [9] Unique))
    _ KeyIdentifier.Data SecurityLevel.EncMic32 true
    [33; 7] (replicate 13 0) [1; 2; 3] (replicate 4 0) [] (armed_wf 11) (armed_wf 10));
    try (vm_compute; (reflexivity || congruence || (split; congruence))).
Defined.

(** ** The frame counter challenge *)

(** The challenge tells a device where its partner's counter stands, and
    nobody else can: the response of a partner that holds the same link key is
    accepted, and makes the partner's next counter value, verified, the next
    acceptable one; with any other authentication code it is refused and nothing
    changes; each response moves the responder's challenge counter, so no nonce
    serves two challenges. *)
Theorem challenge_synchronises {C} {K K' : nat} `{!BlockCipher C} {CT : ConstantTimeEq} {H : Heapless}
    (asker : ApsSecurity.t C K) (responder : ApsSecurity.t C K') (a b challenge : Z)
    (ea eb : LinkKeyEntry.t) :
  ApsSecurity.entry asker b = Some ea → ApsSecurity.entry responder a = Some eb →
  LinkKeyEntry.key ea = LinkKeyEntry.key eb →
  ∃ cfc mic responder' asker',
    ApsSecurity.answer_challenge responder b a challenge =
      (Some (OutgoingCounter.next (LinkKeyEntry.outgoing eb), cfc, mic), responder') ∧
    ApsSecurity.entry responder' a = Some (KeyPair.set_challenge (wrap 32 (cfc + 1)) eb) ∧
    ApsSecurity.validate_challenge asker b challenge (OutgoingCounter.next (LinkKeyEntry.outgoing eb)) cfc mic =
      (true, asker') ∧
    ApsSecurity.entry asker' b =
      Some (KeyPair.set_verified true (KeyPair.set_incoming (OutgoingCounter.next (LinkKeyEntry.outgoing eb)) ea)) ∧
    ∀ mic', mic' ≠ mic →
      ApsSecurity.validate_challenge asker b challenge (OutgoingCounter.next (LinkKeyEntry.outgoing eb)) cfc mic' =
        (false, asker).
Proof.
  unfold ApsSecurity.entry. intros Ha Hb Hk. unfold ApsSecurity.answer_challenge, ApsSecurity.validate_challenge.
  rewrite Ha, Hb, Hk. eexists _, _, _, _. split; [done|]. split; [by cbn [ApsSecurity.keys ApsSecurity.with_keys]; rewrite get_get_mut, Hb|].
  unfold OutgoingCounter.peek. set (mic := Challenge.challenge_mic _ _ _ _ _ _).
  split; [by rewrite (proj2 (ct_eq_spec mic mic) eq_refl)|]. split; [by cbn [ApsSecurity.keys ApsSecurity.with_keys]; rewrite get_get_mut, Ha|].
  intros mic' Hne. destruct (ct_eq mic mic') eqn:E; [|done]. by apply ct_eq_spec in E.
Qed.

Lemma challenge_synchronises_witness :
  ∃ cfc mic responder' asker',
    ApsSecurity.answer_challenge (armed 10) 11 10 77 = (Some (0, cfc, mic), responder') ∧
    ApsSecurity.validate_challenge (armed 11) 11 77 0 cfc mic = (true, asker').
Proof.
  destruct (challenge_synchronises (armed 11) (armed 10) 10 11 77 _ _ eq_refl eq_refl eq_refl)
    as (cfc & mic & responder' & asker' & T1 & _ & T2 & _).
  exists cfc, mic, responder', asker'. exact (conj T1 T2).
Defined.

(** ** Reservations of the counters of all partners
    (panweave-aps/src/layer/tx.rs, request_counter_reservations) *)

Section reservations.
Context {C : Type} {K : nat} `{!BlockCipher C} {CT : ConstantTimeEq} {H : Heapless}.
Implicit Types (s : ApsSecurity.t C K) (es : list LinkKeyEntry.t).

(** [while let Some((partner, r)) = start_counter_reservation()]: the actions
    pushed, the state, and whether the loop ended within the fuel. *)
Fixpoint request_counter_reservations (fuel : nat) s : option (list (Z * Z)) * ApsSecurity.t C K :=
  match fuel with
  | O => (None, s)
  | S fuel =>
      match ApsSecurity.start_counter_reservation s with
      | (None, s) => (Some [], s)
      | (Some pr, s) =>
          let '(acts, s) := request_counter_reservations fuel s in ((λ l, pr :: l) <$> acts, s)
      end
  end.

(** The reservation an entry needs, and the entry once it is started. *)
Definition wanted (e : LinkKeyEntry.t) : option (Z * Z) :=
  pair (LinkKeyEntry.partner e) <$> (OutgoingCounter.start_reservation (LinkKeyEntry.outgoing e)).1.
Definition started (e : LinkKeyEntry.t) : LinkKeyEntry.t :=
  KeyPair.set_outgoing (OutgoingCounter.start_reservation (LinkKeyEntry.outgoing e)).2 e.

Lemma start_idle e : wanted e = None → started e = e.
Proof.
  unfold wanted, started, OutgoingCounter.start_reservation. destruct (OutgoingCounter.needs_reservation _); [done|].
  by destruct e.
Qed.

Lemma started_idle e : wanted (started e) = None.
Proof.
  unfold wanted, started, OutgoingCounter.start_reservation, OutgoingCounter.needs_reservation.
  destruct (_ && _ && _) eqn:E; simpl; [done|].
  by rewrite E.
Qed.

(** One round: the first entry that wants a reservation. *)
Lemma start_first_spec es :
  match omap wanted es with
  | [] => ApsSecurity.start_first es = (None, es)
  | pr :: prs => ∃ es', ApsSecurity.start_first es = (Some pr, es') ∧ omap wanted es' = prs ∧
      started <$> es' = started <$> es
  end.
Proof.
  induction es as [|e es IH]; [done|]. cbn [omap list_omap ApsSecurity.start_first].
  pose proof (start_idle e) as Hidle. pose proof (started_idle e) as Hs. unfold wanted in Hidle |- * at 1. unfold started in Hidle.
  destruct (OutgoingCounter.start_reservation (LinkKeyEntry.outgoing e)) as [[r|] o] eqn:E; simpl in *.
  - eexists. split; [done|]. assert (KeyPair.set_outgoing o e = started e) as -> by (unfold started; by rewrite E).
    split; [cbn; by rewrite Hs|]. simpl. f_equal. by apply start_idle.
  - rewrite Hidle by done. fold wanted in *. destruct (omap wanted es) as [|pr prs].
    + by rewrite IH.
    + destruct IH as (es' & -> & Ho & Hst). exists (e :: es'). split; [done|]. split; [|simpl; by f_equal].
      cbn. unfold wanted at 1. by rewrite E.
Qed.

Lemma omap_nil_started es : omap wanted es = [] → started <$> es = es.
Proof.
  induction es as [|e es IH]; [done|]. cbn. destruct (wanted e) eqn:E; [done|]. intros Ho.
  f_equal; [by apply start_idle|by apply IH].
Qed.

Lemma length_wanted es : (length (omap wanted es) ≤ length es)%nat.
Proof. induction es as [|e es IH]; cbn; [lia|]. destruct (wanted e); cbn; lia. Qed.

Lemma request_spec fuel s :
  (length (omap wanted (LinkKeyTable.entries (ApsSecurity.keys s))) < fuel)%nat →
  request_counter_reservations fuel s =
    (Some (omap wanted (LinkKeyTable.entries (ApsSecurity.keys s))),
     ApsSecurity.with_keys s (LinkKeyTable.mk (started <$> LinkKeyTable.entries (ApsSecurity.keys s)))).
Proof.
  revert s. induction fuel as [|fuel IH]; intros s Hf; [lia|]. cbn [request_counter_reservations].
  unfold ApsSecurity.start_counter_reservation.
  pose proof (start_first_spec (LinkKeyTable.entries (ApsSecurity.keys s))) as Hs.
  destruct (omap wanted (LinkKeyTable.entries (ApsSecurity.keys s))) as [|pr prs] eqn:Ew.
  - rewrite Hs. do 2 f_equal. by rewrite omap_nil_started.
  - destruct Hs as (es' & -> & Ho & Hst). rewrite IH; cbn [ApsSecurity.keys ApsSecurity.with_keys LinkKeyTable.entries].
    + by rewrite Ho, Hst.
    + rewrite Ho. simpl in Hf. lia.
Qed.
End reservations.

(** The loop that requests counter reservations ends: after at most one round
    per link key it has asked for exactly the reservations the keys need, each
    once, and a further request would ask for none. *)
Theorem request_reservations_terminates {C} {K : nat} `{!BlockCipher C} {CT : ConstantTimeEq} {H : Heapless}
    (s : ApsSecurity.t C K) (fuel : nat) :
  (LinkKeyTable.len (ApsSecurity.keys s) < fuel)%nat →
  ∃ s', request_counter_reservations fuel s =
      (Some (omap wanted (LinkKeyTable.entries (ApsSecurity.keys s))), s') ∧
    request_counter_reservations fuel s' = (Some [], s').
Proof.
  intros Hf. pose proof (length_wanted (LinkKeyTable.entries (ApsSecurity.keys s))) as Hl.
  unfold LinkKeyTable.len in Hf. eexists. split; [apply request_spec; lia|].
  set (es := started <$> LinkKeyTable.entries (ApsSecurity.keys s)).
  assert (omap wanted es = []) as Hn.
  { subst es. clear. induction (LinkKeyTable.entries _) as [|e es IH]; [done|]. cbn. by rewrite started_idle. }
  rewrite request_spec; cbn [ApsSecurity.keys ApsSecurity.with_keys LinkKeyTable.entries]; rewrite Hn; [|simpl; lia].
  by rewrite omap_nil_started.
Qed.

Lemma request_reservations_terminates_witness :
  let s : ApsSecurity.t Z 4 := foldl ApsSecurityOp.exec ApsSecurity.new
    [ApsSecurityOp.Install (LinkKeyEntry.provisional 1 [9] Unique);
     ApsSecurityOp.Install (LinkKeyEntry.provisional 2 [8] Unique)] in
  ∃ s', request_counter_reservations 3 s = (Some [(1, 1024); (2, 1024)], s') ∧
    request_counter_reservations 3 s' = (Some [], s').
Proof.
  refine (request_reservations_terminates (foldl ApsSecurityOp.exec ApsSecurity.new
    [ApsSecurityOp.Install (LinkKeyEntry.provisional 1 [9] Unique);
     ApsSecurityOp.Install (LinkKeyEntry.provisional 2 [8] Unique)] : ApsSecurity.t Z 4) 3 _).
  vm_compute. lia.
Defined.
