(* ===== verification/ApsTypes.v ===== *)
(** * Data of the APS layer (panweave-aps/src/aib.rs and the types of
    layer/mod.rs, layer/tx.rs and layer/rx.rs)

    Requests, actions, events, pending transmissions and reassemblies, with the
    source's constructors.  Identifiers and addresses are their values. *)

From S2P Require Import Prelude Types Status Codec Heapless AuxHeader SecFrame Keys ApsTables ApsFrame ApsCommand ApsSecurity.

(** ** Constants and the information base (aib.rs) *)

Module constants.
Definition MAX_DESCRIPTOR_SIZE : nat := 64.
Definition MAX_FRAME_RETRIES : Z := 3.
Definition ACK_WAIT_DURATION : Z := Duration.from_millis 1600.
Definition LOCAL_RETRY_DELAY : Z := Duration.from_millis 1000.
Definition MAX_LOCAL_DEFERRALS : Z := 8.
Definition MIN_DUPLICATE_REJECTION_TABLE_SIZE : nat := 1.
Definition MIN_HEADER_OVERHEAD : nat := 12.
Definition PARENT_ANNOUNCE_BASE_TIMER : Z := Duration.from_secs 10.
Definition PARENT_ANNOUNCE_JITTER_MAX : Z := Duration.from_secs 10.
Definition JOINER_TLVS_UNFRAGMENTED_MAX_SIZE : nat := 79.
Definition MAX_WINDOW_SIZE : Z := 1.
Definition INTERFRAME_DELAY : Z := Duration.from_millis 0.
Definition FRAGMENT_RECEIVE_TIMEOUT : Z := Duration.from_millis (1600 * (1 + MAX_FRAME_RETRIES)).
Definition FRAGMENT_PERSISTENCE : Z := ACK_WAIT_DURATION.
Definition DUPLICATE_REJECTION_TIMEOUT : Z := FRAGMENT_RECEIVE_TIMEOUT.
Definition MIN_MAX_ASDU : nat := 128.
End constants.

Definition MAX_ASDU : nat := 256.
Definition MAX_APS_FRAME : nat := 108.
Definition DEFAULT_NWK_MAX_PAYLOAD : nat := 90.
Definition MAX_JOINER_TLVS : nat := constants.JOINER_TLVS_UNFRAGMENTED_MAX_SIZE.
Definition PENDING_TX : nat := 6.
Definition COUNTER_RETRY_DELAY : Z := Duration.from_millis 1000.
Definition QUEUE_CAPACITY : nat := 16.

Module Aib.
Record t : Type := mk {
  designated_coordinator : bool;
  channel_mask : Z;
  channel_mask_pages : list Z;
  use_extended_pan_id : Z;
  use_insecure_join : bool;
  interframe_delay_ms : Z;
  last_channel_energy : option Z;
  last_channel_failure_rate : option Z;
  channel_timer_hours : option Z;
  parent_announce_timer : Z;
  zdo_restricted_mode : bool;
  max_size_asdu : Z;
  zdo_response_timeout_secs : Z;
  application_fragmentation_support : bool;
  trust_center_address : Z;
  security_timeout_period : Z;
  supported_key_negotiation_methods : Z;
  challenge_period_timeout_secs : Z;
  device_interview_timeout_secs : Z
}.

Definition NO_TRUST_CENTER : Z := u64_max.

Definition new : t := {|
  designated_coordinator := false;
  channel_mask := ChannelMask.ALL_2_4GHZ;
  channel_mask_pages := [];
  use_extended_pan_id := ExtendedAddress.ZERO;
  use_insecure_join := false;
  interframe_delay_ms := 0;
  last_channel_energy := None;
  last_channel_failure_rate := None;
  channel_timer_hours := None;
  parent_announce_timer := Duration.from_millis 0;
  zdo_restricted_mode := false;
  max_size_asdu := Z.of_nat MAX_ASDU;
  zdo_response_timeout_secs := 3;
  application_fragmentation_support := false;
  trust_center_address := NO_TRUST_CENTER;
  security_timeout_period := Duration.from_secs 10;
  supported_key_negotiation_methods := 0x01;
  challenge_period_timeout_secs := 5;
  device_interview_timeout_secs := 12
|}.

Definition with_masks (m : Z) (pages : list Z) (a : t) : t :=
  mk (designated_coordinator a) m pages (use_extended_pan_id a) (use_insecure_join a) (interframe_delay_ms a)
     (last_channel_energy a) (last_channel_failure_rate a) (channel_timer_hours a) (parent_announce_timer a)
     (zdo_restricted_mode a) (max_size_asdu a) (zdo_response_timeout_secs a)
     (application_fragmentation_support a) (trust_center_address a) (security_timeout_period a)
     (supported_key_negotiation_methods a) (challenge_period_timeout_secs a) (device_interview_timeout_secs a).

Definition with_trust_center (tc : Z) (a : t) : t :=
  mk (designated_coordinator a) (channel_mask a) (channel_mask_pages a) (use_extended_pan_id a)
     (use_insecure_join a) (interframe_delay_ms a) (last_channel_energy a) (last_channel_failure_rate a)
     (channel_timer_hours a) (parent_announce_timer a) (zdo_restricted_mode a) (max_size_asdu a)
     (zdo_response_timeout_secs a) (application_fragmentation_support a) tc (security_timeout_period a)
     (supported_key_negotiation_methods a) (challenge_period_timeout_secs a) (device_interview_timeout_secs a).

Definition set_channel_mask_list {H : Heapless} (a : t) (list : list Z) : t :=
  foldl (λ a m,
    if ChannelMask.page m =? 0 then with_masks m (channel_mask_pages a) a
    else with_masks (channel_mask a)
           (match vec_push 3 (channel_mask_pages a) m with Ok ps => ps | Err _ => channel_mask_pages a end) a)
    (with_masks 0 (vec_clear (channel_mask_pages a)) a) list.

Definition is_distributed (a : t) : bool := trust_center_address a =? u64_max.
End Aib.

(** ** Requests (layer/mod.rs) *)

Module ApsError.
Inductive t : Type :=
  | NotJoined | InvalidParameter | AsduTooLong | NoBoundDevice | NoShortAddress | NoKey
  | IllegalRequest | Busy.

Definition status (e : t) : ApsStatus.t :=
  match e with
  | NotJoined | IllegalRequest => ApsStatus.IllegalRequest
  | InvalidParameter => ApsStatus.InvalidParameter
  | AsduTooLong => ApsStatus.AsduTooLong
  | NoBoundDevice => ApsStatus.NoBoundDevice
  | NoShortAddress => ApsStatus.NoShortAddress
  | NoKey => ApsStatus.SecurityFail
  | Busy => ApsStatus.TableFull
  end.
End ApsError.

Module TxOptions.
Record t : Type := mk {
  security : bool; ack : bool; fragmentation_permitted : bool; extended_nonce : bool
}.
Definition ACKED : t := mk false true true false.
Definition NONE : t := mk false false false false.
End TxOptions.

Module Destination.
Inductive t : Type :=
  | Bound
  | Group (g : Z)
  | Short (address endpoint : Z)
  | Extended (address endpoint : Z)
  | Relayed (parent : Z) (joiner : option Z) (endpoint : Z).
End Destination.

Module DataRequest.
Record t : Type := mk {
  destination : Destination.t;
  profile : Z;
  cluster : Z;
  src_endpoint : Z;
  asdu : list Z;
  options : TxOptions.t;
  radius : option Z;
  alias : option (Z * Z)
}.
End DataRequest.

(** The trait [NwkView]. *)
Module NwkView.
Record t : Type := mk {
  ieee_of : Z → option Z;
  short_of : Z → option Z;
  unauthenticated_child : Z → option Z
}.
End NwkView.

Module DeviceState.
Inductive t : Type := NotJoined | JoinedUnauthorized | JoinedAuthorized.
#[global] Instance eq_dec : EqDecision t.
Proof. solve_decision. Defined.
End DeviceState.

Module ApsConfig.
Record t : Type := mk {
  nwk_max_payload : nat;
  is_trust_center : bool;
  require_link_key_encryption_for_transport_key : bool;
  security_level : SecurityLevel.t;
  accept_unsecured_data : bool
}.
Definition default : t := mk DEFAULT_NWK_MAX_PAYLOAD false true SecurityLevel.EncMic32 false.
End ApsConfig.

Inductive PersistItem : Type := LinkKeys | Bindings | Groups | AibAttributes.

Module ApsAction.
Inductive t : Type :=
  | NwkData (handle dst : Z) (radius : option Z) (discover_route secure : bool)
      (alias : option (Z * Z)) (frame : list Z)
  | CounterReservation (partner reservation : Z)
  | Persist (item : PersistItem).
End ApsAction.

Module TransportedKey.
Inductive t : Type :=
  | Network (key : list Z) (sequence source : Z) (broadcast : bool)
  | TrustCenterLink (source : Z)
  | ApplicationLink (partner : Z) (initiator : bool)
  | EphemeralAuthorization (global : bool)
  | BasicAuthorization (key : list Z) (sequence source : Z).
End TransportedKey.

(** ** Reception (layer/rx.rs) *)

Module Delivery.
Inductive t : Type := Endpoint (ep : Z) | AllEndpoints | Group (g : Z).
End Delivery.

Module SecurityStatus.
Inductive t : Type := Unsecured | NwkKey | LinkKey.
#[global] Instance eq_dec : EqDecision t.
Proof. solve_decision. Defined.
End SecurityStatus.

Module RelayInfo.
Record t : Type := mk { parent : Z; joiner : Z }.
End RelayInfo.

Module DataIndication.
Record t : Type := mk {
  src : Z;
  src_ieee : option Z;
  src_endpoint : Z;
  delivery : Delivery.t;
  profile : Z;
  cluster : Z;
  asdu : list Z;
  security : SecurityStatus.t;
  lqi : Z;
  relayed : option RelayInfo.t;
  counter : Z;
  nwk_broadcast : bool
}.
End DataIndication.

Module RxContext.
Record t : Type := mk {
  src : Z;
  dst : Z;
  src_ieee : option Z;
  nwk_secured : bool;
  lqi : Z;
  relayed : option RelayInfo.t
}.
End RxContext.

Module Reassembly.
Record t : Type := mk {
  src : Z;
  src_ieee : option Z;
  header : ApsHeader.t;
  block_count : Z;
  next_block : Z;
  buf : list Z;
  deadline : Z;
  complete : bool;
  security : SecurityStatus.t;
  lqi : Z
}.

(** The fields a block changes. *)
Definition advance (next : Z) (b : list Z) (deadline : Z) (complete : bool) (r : t) : t :=
  mk (src r) (src_ieee r) (header r) (block_count r) next b deadline complete (security r) (lqi r).
End Reassembly.

Module FrameSecurity.
Record t : Type := mk {
  status : SecurityStatus.t;
  partner : option Z;
  key_id : KeyIdentifier.t;
  extended_nonce : bool
}.
End FrameSecurity.

(** ** Events (layer/mod.rs) *)

Module ApsEvent.
Inductive t : Type :=
  | TrustCenterSwapped (old new : Z)
  | DataConfirm (id : Z) (status : ApsStatus.t)
  | CommandConfirm (id : Z) (command : ApsCommandId.t) (status : ApsStatus.t)
  | TransportKey (src : Z) (key : TransportedKey.t) (authorizes : bool)
  | UpdateDevice (src : Z) (src_ieee : option Z) (device short : Z) (status : UpdateDeviceStatus.t)
      (joiner_tlvs : list Z) (aps_secured : bool)
  | RemoveDevice (src target : Z)
  | RequestKey (src src_short : Z) (key_type : RequestKeyType.t) (partner : option Z)
  | SwitchKey (src sequence : Z)
  | KeyVerified (partner : Z) (key_type : KeyType.t) (relayed : option RelayInfo.t)
  | ConfirmKey (src : Z) (key_type : KeyType.t) (status : ApsStatus.t)
  | FrameCounterUnverified (partner : Z)
  | StaleKeyUsed (partner : Z).
End ApsEvent.

(** The diagnostic counters: one 32-bit saturating counter per field. *)
Module ApsStats.
Inductive field : Type :=
  | malformed | security_dropped | policy_dropped | duplicates | acks_sent | ack_failures | retries
  | deferrals | reassembled | events_dropped | actions_dropped | rx_bcast | stale_key_dropped
  | rx_ucast | tx_bcast | tx_ucast_success | fc_failures.
#[global] Instance field_eq_dec : EqDecision field.
Proof. solve_decision. Defined.

Definition t : Type := field → Z.
Definition default : t := λ _, 0.
Definition bump (f : field) (s : t) : t := λ g, if decide (f = g) then sat_add 32 (s f) 1 else s g.
End ApsStats.

Module Loopback.
Record t : Type := mk {
  delivery : Delivery.t; profile : Z; cluster : Z; src_endpoint : Z; asdu : list Z
}.
End Loopback.

(** ** Transmission (layer/tx.rs) *)

Module TxState.
Inductive t : Type :=
  | Ready | CounterPending | AwaitingNwkConfirm | Deferred (until : Z) | AwaitingAck (deadline : Z).
#[global] Instance eq_dec : EqDecision t.
Proof. solve_decision. Defined.
End TxState.

Module TxKind.
Inductive t : Type := Data | Command (id : ApsCommandId.t).
#[global] Instance eq_dec : EqDecision t.
Proof. solve_decision. Defined.
End TxKind.

Inductive PostAction : Type := ReplaceKey (partner : Z) (key : list Z).

Module Wrap.
Inductive t : Type :=
  | Relay (joiner : Z) (downstream : bool) (inner_header : ApsHeader.t) (inner_partner : option Z)
  | Tunnel (joiner : Z) (inner_header : ApsHeader.t) (inner_partner : Z).
End Wrap.

Module PendingTx.
Record t : Type := mk {
  request : Z;
  kind : TxKind.t;
  handle : option Z;
  dst : Z;
  partner : option Z;
  key_id : KeyIdentifier.t;
  extended_nonce : bool;
  header : ApsHeader.t;
  asdu : list Z;
  nwk_secure : bool;
  radius : option Z;
  alias : option (Z * Z);
  ack : bool;
  block_count : Z;
  block : Z;
  block_size : nat;
  retries : Z;
  deferrals : Z;
  state : TxState.t;
  post : option PostAction;
  wrap : option Wrap.t
}.

(** The fields the transmission procedure assigns. *)
Definition assign (h : option Z) (b r d : Z) (st : TxState.t) (p : t) : t :=
  mk (request p) (kind p) h (dst p) (partner p) (key_id p) (extended_nonce p) (header p) (asdu p)
     (nwk_secure p) (radius p) (alias p) (ack p) (block_count p) b (block_size p) r d st (post p) (wrap p).

Definition set_handle (h : option Z) (p : t) : t := assign h (block p) (retries p) (deferrals p) (state p) p.
Definition set_state (st : TxState.t) (p : t) : t := assign (handle p) (block p) (retries p) (deferrals p) st p.
Definition set_retries (r : Z) (p : t) : t := assign (handle p) (block p) r (deferrals p) (state p) p.
Definition set_deferrals (d : Z) (p : t) : t := assign (handle p) (block p) (retries p) d (state p) p.
Definition set_block (b : Z) (p : t) : t := assign (handle p) b (retries p) (deferrals p) (state p) p.
End PendingTx.

Module RequestState.
Record t : Type := mk { id : Z; remaining : Z; status : ApsStatus.t; command : option ApsCommandId.t }.
End RequestState.

Module TxParams.
Record t : Type := mk {
  request : Z;
  kind : TxKind.t;
  dst : Z;
  partner : option Z;
  key_id : KeyIdentifier.t;
  extended_nonce : bool;
  header : ApsHeader.t;
  nwk_secure : bool;
  radius : option Z;
  alias : option (Z * Z);
  ack : bool;
  post : option PostAction;
  wrap : option Wrap.t
}.
End TxParams.

(** ** Dimensions *)

Module ApsDims.
Record t : Type := mk {
  Keys : nat; Bindings : nat; Groups : nat; Duplicates : nat; Queue : nat; PendingTx : nat; StaleKeys : nat
}.
Definition Dims (keys bindings groups dups : nat) : t := mk keys bindings groups dups QUEUE_CAPACITY PENDING_TX 8.
Definition EndDevice : t := mk 2 2 2 4 4 2 1.
End ApsDims.

(** How a network key travels (layer/cmd.rs). *)
Module KeyRoute.
Inductive t : Type := Direct (short : Z) (nwk_secure : bool) | Tunnel (parent : Z) | Broadcast.
Definition is_broadcast (r : t) : bool := match r with Broadcast => true | _ => false end.
End KeyRoute.
