(* ===== verification/ApsLayer.v ===== *)
(** * The APS layer: state and transmission (panweave-aps/src/layer/mod.rs,
    layer/tx.rs)

    [Aps.t] is the layer's state.  A method that can fail is a computation of
    the monad [SE]: it keeps what it changed before an error, as the code does.
    The received frames are in ApsReceive, the security services in
    ApsServices. *)

From S2P Require Import Prelude Types Status Codec Heapless AuxHeader Ccm SecFrame Keys ApsTables ApsFrame ApsCommand ApsSecurity ApsTypes.

Module Aps.
Record t (C : Type) (D : ApsDims.t) : Type := mk {
  aib : Aib.t;
  config : ApsConfig.t;
  security : ApsSecurity.t C (ApsDims.Keys D);
  bindings : BindingTable.t (ApsDims.Bindings D);
  groups : GroupTable.t (ApsDims.Groups D);
  stats : ApsStats.t;
  dedup : DuplicateRejectionTable.t (ApsDims.Duplicates D);
  local_ieee : Z;
  local_short : Z;
  state : DeviceState.t;
  counter : Z;
  now : Z;
  actions : list ApsAction.t;
  events : list ApsEvent.t;
  pending : list PendingTx.t;
  requests : list RequestState.t;
  reassembly : option Reassembly.t;
  loopback : option Loopback.t;
  stale_keys : list Z;
  next_request : Z;
  next_handle : Z
}.
Arguments mk {C D}.
Arguments aib {C D}.
Arguments config {C D}.
Arguments security {C D}.
Arguments bindings {C D}.
Arguments groups {C D}.
Arguments stats {C D}.
Arguments dedup {C D}.
Arguments local_ieee {C D}.
Arguments local_short {C D}.
Arguments state {C D}.
Arguments counter {C D}.
Arguments now {C D}.
Arguments actions {C D}.
Arguments events {C D}.
Arguments pending {C D}.
Arguments requests {C D}.
Arguments reassembly {C D}.
Arguments loopback {C D}.
Arguments stale_keys {C D}.
Arguments next_request {C D}.
Arguments next_handle {C D}.

(** [self.field = v] *)
Section setters.
Context {C : Type} {D : ApsDims.t}.
Implicit Types s : t C D.
Definition set_aib (v : Aib.t) s : t C D :=
  mk v (config s) (security s) (bindings s) (groups s) (stats s) (dedup s) (local_ieee s) (local_short s)
     (state s) (counter s) (now s) (actions s) (events s) (pending s) (requests s) (reassembly s) (loopback
     s) (stale_keys s) (next_request s) (next_handle s).
Definition set_security (v : ApsSecurity.t C (ApsDims.Keys D)) s : t C D :=
  mk (aib s) (config s) v (bindings s) (groups s) (stats s) (dedup s) (local_ieee s) (local_short s) (state
     s) (counter s) (now s) (actions s) (events s) (pending s) (requests s) (reassembly s) (loopback s)
     (stale_keys s) (next_request s) (next_handle s).
Definition set_groups (v : GroupTable.t (ApsDims.Groups D)) s : t C D :=
  mk (aib s) (config s) (security s) (bindings s) v (stats s) (dedup s) (local_ieee s) (local_short s)
     (state s) (counter s) (now s) (actions s) (events s) (pending s) (requests s) (reassembly s) (loopback
     s) (stale_keys s) (next_request s) (next_handle s).
Definition set_stats (v : ApsStats.t) s : t C D :=
  mk (aib s) (config s) (security s) (bindings s) (groups s) v (dedup s) (local_ieee s) (local_short s)
     (state s) (counter s) (now s) (actions s) (events s) (pending s) (requests s) (reassembly s) (loopback
     s) (stale_keys s) (next_request s) (next_handle s).
Definition set_dedup (v : DuplicateRejectionTable.t (ApsDims.Duplicates D)) s : t C D :=
  mk (aib s) (config s) (security s) (bindings s) (groups s) (stats s) v (local_ieee s) (local_short s)
     (state s) (counter s) (now s) (actions s) (events s) (pending s) (requests s) (reassembly s) (loopback
     s) (stale_keys s) (next_request s) (next_handle s).
Definition set_local_short (v : Z) s : t C D :=
  mk (aib s) (config s) (security s) (bindings s) (groups s) (stats s) (dedup s) (local_ieee s) v (state s)
     (counter s) (now s) (actions s) (events s) (pending s) (requests s) (reassembly s) (loopback s)
     (stale_keys s) (next_request s) (next_handle s).
Definition set_state (v : DeviceState.t) s : t C D :=
  mk (aib s) (config s) (security s) (bindings s) (groups s) (stats s) (dedup s) (local_ieee s) (local_short
     s) v (counter s) (now s) (actions s) (events s) (pending s) (requests s) (reassembly s) (loopback s)
     (stale_keys s) (next_request s) (next_handle s).
Definition set_counter (v : Z) s : t C D :=
  mk (aib s) (config s) (security s) (bindings s) (groups s) (stats s) (dedup s) (local_ieee s) (local_short
     s) (state s) v (now s) (actions s) (events s) (pending s) (requests s) (reassembly s) (loopback s)
     (stale_keys s) (next_request s) (next_handle s).
Definition set_now (v : Z) s : t C D :=
  mk (aib s) (config s) (security s) (bindings s) (groups s) (stats s) (dedup s) (local_ieee s) (local_short
     s) (state s) (counter s) v (actions s) (events s) (pending s) (requests s) (reassembly s) (loopback s)
     (stale_keys s) (next_request s) (next_handle s).
Definition set_actions (v : list ApsAction.t) s : t C D :=
  mk (aib s) (config s) (security s) (bindings s) (groups s) (stats s) (dedup s) (local_ieee s) (local_short
     s) (state s) (counter s) (now s) v (events s) (pending s) (requests s) (reassembly s) (loopback s)
     (stale_keys s) (next_request s) (next_handle s).
Definition set_events (v : list ApsEvent.t) s : t C D :=
  mk (aib s) (config s) (security s) (bindings s) (groups s) (stats s) (dedup s) (local_ieee s) (local_short
     s) (state s) (counter s) (now s) (actions s) v (pending s) (requests s) (reassembly s) (loopback s)
     (stale_keys s) (next_request s) (next_handle s).
Definition set_pending (v : list PendingTx.t) s : t C D :=
  mk (aib s) (config s) (security s) (bindings s) (groups s) (stats s) (dedup s) (local_ieee s) (local_short
     s) (state s) (counter s) (now s) (actions s) (events s) v (requests s) (reassembly s) (loopback s)
     (stale_keys s) (next_request s) (next_handle s).
Definition set_requests (v : list RequestState.t) s : t C D :=
  mk (aib s) (config s) (security s) (bindings s) (groups s) (stats s) (dedup s) (local_ieee s) (local_short
     s) (state s) (counter s) (now s) (actions s) (events s) (pending s) v (reassembly s) (loopback s)
     (stale_keys s) (next_request s) (next_handle s).
Definition set_reassembly (v : option Reassembly.t) s : t C D :=
  mk (aib s) (config s) (security s) (bindings s) (groups s) (stats s) (dedup s) (local_ieee s) (local_short
     s) (state s) (counter s) (now s) (actions s) (events s) (pending s) (requests s) v (loopback s)
     (stale_keys s) (next_request s) (next_handle s).
Definition set_loopback (v : option Loopback.t) s : t C D :=
  mk (aib s) (config s) (security s) (bindings s) (groups s) (stats s) (dedup s) (local_ieee s) (local_short
     s) (state s) (counter s) (now s) (actions s) (events s) (pending s) (requests s) (reassembly s) v
     (stale_keys s) (next_request s) (next_handle s).
Definition set_stale_keys (v : list Z) s : t C D :=
  mk (aib s) (config s) (security s) (bindings s) (groups s) (stats s) (dedup s) (local_ieee s) (local_short
     s) (state s) (counter s) (now s) (actions s) (events s) (pending s) (requests s) (reassembly s)
     (loopback s) v (next_request s) (next_handle s).
Definition set_next_request (v : Z) s : t C D :=
  mk (aib s) (config s) (security s) (bindings s) (groups s) (stats s) (dedup s) (local_ieee s) (local_short
     s) (state s) (counter s) (now s) (actions s) (events s) (pending s) (requests s) (reassembly s)
     (loopback s) (stale_keys s) v (next_handle s).
Definition set_next_handle (v : Z) s : t C D :=
  mk (aib s) (config s) (security s) (bindings s) (groups s) (stats s) (dedup s) (local_ieee s) (local_short
     s) (state s) (counter s) (now s) (actions s) (events s) (pending s) (requests s) (reassembly s)
     (loopback s) (stale_keys s) (next_request s) v.
End setters.

Section layer.
Context {C : Type} {D : ApsDims.t} `{!BlockCipher C} {CT : ConstantTimeEq} {H : Heapless}.
Abbreviation st := (t C D).
Implicit Types s : st.

(** [if cond { return Err(e); }] and [o.ok_or(e)?] *)
Definition refuse_if {E} (cond : bool) (e : E) : SE st E unit := if cond then fail e else mret tt.
Definition need {E A} (o : option A) (e : E) : SE st E A := lift (ok_or o e).

(** ** layer/mod.rs *)

Definition new (local_ieee : Z) (config : ApsConfig.t) : st :=
  mk Aib.new config ApsSecurity.new (BindingTable.new _) (GroupTable.new _) ApsStats.default
     (DuplicateRejectionTable.new _) local_ieee ShortAddress.NO_SHORT_ADDRESS DeviceState.NotJoined
     0 0 [] [] [] [] None None [] 1 1.

Definition bump (f : ApsStats.field) s : st := set_stats (ApsStats.bump f (stats s)) s.

Definition mark_key_stale s (partner : Z) : bool * st :=
  if existsb (Z.eqb partner) (stale_keys s) then (true, s)
  else
    match vec_push (ApsDims.StaleKeys D) (stale_keys s) partner with
    | Ok ps => (true, set_stale_keys ps s)
    | Err _ => (false, s)
    end.

Definition clear_key_stale s (partner : Z) : st :=
  set_stale_keys (vec_retain (stale_keys s) (λ p, negb (p =? partner))) s.

Definition is_key_stale s (partner : Z) : bool := existsb (Z.eqb partner) (stale_keys s).

Definition next_action s : option ApsAction.t * st :=
  match deque_pop_front (actions s) with
  | Some (a, rest) => (Some a, set_actions rest s)
  | None => (None, s)
  end.

Definition next_event s : option ApsEvent.t * st :=
  match deque_pop_front (events s) with
  | Some (e, rest) => (Some e, set_events rest s)
  | None => (None, s)
  end.

Definition has_output s : bool :=
  negb (length (actions s) =? 0)%nat || negb (length (events s) =? 0)%nat.

Definition take_loopback s : option Loopback.t * st := (loopback s, set_loopback None s).

Definition set_authorized s : st := set_state DeviceState.JoinedAuthorized s.

Definition push_action (a : ApsAction.t) s : st :=
  match deque_push_back (ApsDims.Queue D) (actions s) a with
  | Ok q => set_actions q s
  | Err _ => bump ApsStats.actions_dropped s
  end.

Definition push_event (e : ApsEvent.t) s : st :=
  match deque_push_back (ApsDims.Queue D) (events s) e with
  | Ok q => set_events q s
  | Err _ => bump ApsStats.events_dropped s
  end.

Definition seed_counter s (initial : Z) : st := set_counter initial s.

Definition next_counter s : Z * st := (counter s, set_counter (wrap 8 (counter s + 1)) s).

Definition alloc_request s : Z * st :=
  (next_request s, set_next_request (Z.max (wrap 16 (next_request s + 1)) 1) s).

Definition alloc_handle s : Z * st :=
  (next_handle s, set_next_handle (Z.max (wrap 16 (next_handle s + 1)) 1) s).

(** The same as computations. *)
Definition total {E A} (f : st → A * st) : SE st E A := λ s, let '(a, s) := f s in (Ok a, s).

Definition trust_center_partner s : Z := Aib.trust_center_address (aib s).

Definition link_key_for s (dst_ieee : Z) : option Z :=
  if is_some (ApsSecurity.entry (security s) dst_ieee) then Some dst_ieee else None.

Definition frame_payload_max s (header : ApsHeader.t) (aps_security : option bool) : nat :=
  let overhead :=
    (ApsHeader.encoded_len header +
     match aps_security with
     | Some ext => ApsSecurity.aux_header_len ext + SecurityLevel.mic_len (ApsConfig.security_level (config s))
     | None => 0
     end)%nat in
  (ApsConfig.nwk_max_payload (config s) - overhead)%nat.

Definition single_frame_capacity s (secured : bool) : nat :=
  let header :=
    ApsHeader.secured
      (ApsHeader.with_ack_request (ApsHeader.data (Addressing.Endpoint 1) 0 0 1 0) true) secured in
  frame_payload_max s header (if secured then Some true else None).

Definition key_id_for_command (cmd : ApsCommandId.t) (key_type : KeyType.t) : KeyIdentifier.t :=
  match cmd, key_type with
  | ApsCommandId.TransportKey, KeyType.StandardNetworkKey => KeyIdentifier.KeyTransport
  | ApsCommandId.TransportKey, _ => KeyIdentifier.KeyLoad
  | _, _ => KeyIdentifier.Data
  end.

(** ** layer/tx.rs: queueing *)

Definition set_loopback_from (delivery : Delivery.t) (req : DataRequest.t) s : st :=
  match vec_from_slice MAX_ASDU (DataRequest.asdu req) with
  | Some asdu =>
      set_loopback (Some (Loopback.mk delivery (DataRequest.profile req) (DataRequest.cluster req)
        (DataRequest.src_endpoint req) asdu)) s
  | None => s
  end.

Definition is_tx_command (k : TxKind.t) : bool :=
  match k with TxKind.Command _ => true | TxKind.Data => false end.

(** The number of blocks (0: not fragmented) and the block size. *)
Definition plan_blocks s (p : TxParams.t) (asdu : list Z) (fragmentation_permitted : bool)
    : result (Z * nat) ApsError.t :=
  let aps_sec := (λ _, TxParams.extended_nonce p) <$> TxParams.partner p in
  let fits :=
    match TxParams.wrap p with
    | Some _ => true
    | None => (length asdu <=? frame_payload_max s (TxParams.header p) aps_sec)%nat
    end in
  if fits then Ok (0, length asdu)
  else if negb fragmentation_permitted || is_tx_command (TxParams.kind p) then Err ApsError.AsduTooLong
  else
    let frag_header :=
      ApsHeader.with_extended (TxParams.header p) (ExtendedHeader.mk Fragmentation.First 0 None) in
    let block_size := frame_payload_max s frag_header aps_sec in
    if (block_size =? 0)%nat then Err ApsError.AsduTooLong
    else
      let count := ((length asdu + block_size - 1) / block_size)%nat in
      if (255 <? count)%nat then Err ApsError.AsduTooLong
      else Ok (Z.of_nat count, block_size).

Definition pending_entry (p : TxParams.t) (asdu : list Z) (block_count : Z) (block_size : nat) : PendingTx.t := {|
  PendingTx.request := TxParams.request p;
  PendingTx.kind := TxParams.kind p;
  PendingTx.handle := None;
  PendingTx.dst := TxParams.dst p;
  PendingTx.partner := TxParams.partner p;
  PendingTx.key_id := TxParams.key_id p;
  PendingTx.extended_nonce := TxParams.extended_nonce p;
  PendingTx.header := TxParams.header p;
  PendingTx.asdu := asdu;
  PendingTx.nwk_secure := TxParams.nwk_secure p;
  PendingTx.radius := TxParams.radius p;
  PendingTx.alias := TxParams.alias p;
  PendingTx.ack := TxParams.ack p;
  PendingTx.block_count := block_count;
  PendingTx.block := 0;
  PendingTx.block_size := block_size;
  PendingTx.retries := 0;
  PendingTx.deferrals := 0;
  PendingTx.state := TxState.Ready;
  PendingTx.post := TxParams.post p;
  PendingTx.wrap := TxParams.wrap p
|}.

Definition push_pending (e : PendingTx.t) : SE st ApsError.t unit := λ s,
  match vec_push (ApsDims.PendingTx D) (pending s) e with
  | Ok ps => (Ok tt, set_pending ps s)
  | Err _ => (Err ApsError.Busy, s)
  end.

Definition queue_tx (p : TxParams.t) (asdu : list Z) (fragmentation_permitted : bool)
    : SE st ApsError.t unit :=
  plan ← gets (λ s, plan_blocks s p asdu fragmentation_permitted);
  '(block_count, block_size) ← lift plan;
  asdu ← need (vec_from_slice MAX_ASDU asdu) ApsError.AsduTooLong;
  push_pending (pending_entry p asdu block_count block_size).

Definition track_request (id count : Z) (command : option ApsCommandId.t) : SE st ApsError.t unit := λ s,
  match vec_push (ApsDims.PendingTx D) (requests s) (RequestState.mk id count ApsStatus.Success command) with
  | Ok rs => (Ok tt, set_requests rs s)
  | Err _ =>
      (Err ApsError.Busy,
       set_pending (vec_retain (pending s) (λ p, negb (PendingTx.request p =? id))) s)
  end.

(** ** layer/tx.rs: frames *)

(** [self.security.op(..)]: the operation's result with the layer's state. *)
Definition with_security {A} (f : ApsSecurity.t C (ApsDims.Keys D) → A * ApsSecurity.t C (ApsDims.Keys D)) s : A * st :=
  let '(a, sec) := f (security s) in (a, set_security sec s).

Definition secure_frame (header : ApsHeader.t) (payload : list Z) (partner : option Z)
    (key_id : KeyIdentifier.t) (extended_nonce : bool) : SE st SecureError.t (list Z) := λ s,
  let partner := if ApsFrameControl.security (ApsHeader.control header) then partner else None in
  let header_len := ApsHeader.encoded_len header in
  let aux_len := match partner with Some _ => ApsSecurity.aux_header_len extended_nonce | None => 0%nat end in
  let mic_len :=
    match partner with Some _ => SecurityLevel.mic_len (ApsConfig.security_level (config s)) | None => 0%nat end in
  let total := (header_len + aux_len + length payload + mic_len)%nat in
  match vec_resize MAX_APS_FRAME [] total 0 with
  | None => (Err (SecureError.Security SecBufferTooSmall), s)
  | Some buf =>
      match encode header (Writer.new buf) with
      | (Err _, _) => (Err (SecureError.Security SecMalformed), s)
      | (Ok _, w) =>
          let buf := Writer.buf w in
          let body_start := (header_len + aux_len)%nat in
          let buf := if (body_start + length payload <=? length buf)%nat then splice body_start payload buf else buf in
          match partner with
          | None => (Ok buf, s)
          | Some partner =>
              let '(r, buf, sec) :=
                ApsSecurity.secure_outgoing (security s) buf header_len (length payload)
                  (ApsConfig.security_level (config s)) partner key_id (local_ieee s) extended_nonce in
              let s := set_security sec s in
              match r with
              | Ok n => (Ok (vec_truncate buf n), s)
              | Err e => (Err e, s)
              end
          end
      end
  end.

(** The header of the current block and the range of the ASDU it carries. *)
Definition block_frame (p : PendingTx.t) : ApsHeader.t * nat * nat :=
  if PendingTx.block_count p =? 0 then (PendingTx.header p, 0%nat, length (PendingTx.asdu p))
  else
    let e :=
      if PendingTx.block p =? 0
      then ExtendedHeader.mk Fragmentation.First (PendingTx.block_count p) None
      else ExtendedHeader.mk Fragmentation.Part (PendingTx.block p) None in
    let start := (Z.to_nat (PendingTx.block p) * PendingTx.block_size p)%nat in
    (ApsHeader.with_extended (PendingTx.header p) e, start,
     Nat.min (start + PendingTx.block_size p) (length (PendingTx.asdu p))).

(** The command a wrapper makes of the inner frame. *)
Definition wrapper_command (wrap : Wrap.t) (inner : list Z) : ApsCommand.t :=
  match wrap with
  | Wrap.Relay joiner downstream _ _ =>
      let r := RelayMessage.mk joiner inner in
      if downstream then ApsCommand.RelayDownstream r else ApsCommand.RelayUpstream r
  | Wrap.Tunnel joiner _ _ => ApsCommand.Tunnel (Tunnel.mk joiner inner)
  end.

Definition build_frame (idx : nat) : SE st SecureError.t (list Z) :=
  ps ← gets pending;
  p ← need (ps !! idx) SecureError.NoKey;
  let '(header, start, end_) := block_frame p in
  payload ← need (vec_from_slice MAX_ASDU (default [] (get_range (PendingTx.asdu p) start end_))) SecureError.NoKey;
  match PendingTx.wrap p with
  | Some w =>
      inner ← match w with
              | Wrap.Relay _ _ inner_header inner_partner =>
                  secure_frame inner_header payload inner_partner KeyIdentifier.Data true
              | Wrap.Tunnel _ inner_header inner_partner =>
                  secure_frame inner_header payload (Some inner_partner) KeyIdentifier.KeyTransport true
              end;
      wrapped ← need (vec_resize MAX_ASDU [] MAX_ASDU 0) SecureError.NoKey;
      wrapped ← match encode_to_slice (wrapper_command w inner) wrapped with
                | (Ok n, wrapped) => mret (vec_truncate wrapped n)
                | (Err _, _) => fail SecureError.NoKey
                end;
      secure_frame header wrapped (PendingTx.partner p) (PendingTx.key_id p) (PendingTx.extended_nonce p)
  | None =>
      secure_frame header payload (PendingTx.partner p) (PendingTx.key_id p) (PendingTx.extended_nonce p)
  end.

(** ** layer/tx.rs: the transmission procedure *)

(** [while let Some((partner, r)) = start_counter_reservation() { push_action(..) }];
    one round per key-pair entry is enough ([request_spec] of ApsSecurity). *)
Definition request_counter_reservations s : st :=
  let fuel := S (length (LinkKeyTable.entries (ApsSecurity.keys (security s)))) in
  let '(acts, sec) := ApsSecurity.request_counter_reservations fuel (security s) in
  foldl (λ s '(partner, r), push_action (ApsAction.CounterReservation partner r) s)
    (set_security sec s) (default [] acts).

Definition update_pending (idx : nat) (f : PendingTx.t → PendingTx.t) s : st :=
  set_pending (alter f idx (pending s)) s.

(** The request's bookkeeping when one of its transmissions has ended. *)
Definition finish_transmission (request : Z) (status : ApsStatus.t) s : st :=
  match position (λ r, RequestState.id r =? request) (requests s) with
  | None => s
  | Some ri =>
      match requests s !! ri with
      | None => s
      | Some r =>
          let st := if negb (ApsStatus.is_success status) && ApsStatus.is_success (RequestState.status r)
                    then status else RequestState.status r in
          let r := RequestState.mk (RequestState.id r) (sat_sub (RequestState.remaining r) 1) st (RequestState.command r) in
          let s := set_requests (<[ri := r]> (requests s)) s in
          if RequestState.remaining r =? 0 then
            match vec_swap_remove (requests s) ri with
            | None => s
            | Some (r, rs) =>
                let s := set_requests rs s in
                match RequestState.command r with
                | Some command => push_event (ApsEvent.CommandConfirm (RequestState.id r) command (RequestState.status r)) s
                | None => push_event (ApsEvent.DataConfirm (RequestState.id r) (RequestState.status r)) s
                end
            end
          else s
      end
  end.

Definition complete (idx : nat) (status : ApsStatus.t) s : st :=
  if (length (pending s) <=? idx)%nat then s
  else
    match vec_swap_remove (pending s) idx with
    | None => s
    | Some (p, ps) =>
        let s := set_pending ps s in
        let s :=
          if ApsStatus.is_success status && negb (is_tx_command (PendingTx.kind p)) then
            if ShortAddress.is_broadcast (PendingTx.dst p) then bump ApsStats.tx_bcast s
            else bump ApsStats.tx_ucast_success s
          else s in
        let s :=
          match ApsStatus.is_success status, PendingTx.post p with
          | true, Some (ReplaceKey partner key) =>
              let s := snd (with_security (λ sec,
                ApsSecurity.replace_key sec partner key KeyAttributes.UnverifiedKey Unique) s) in
              push_action (ApsAction.Persist LinkKeys) s
          | _, _ => s
          end in
        finish_transmission (PendingTx.request p) status s
    end.

(** The loop of [service_pending] from index [idx]; every round advances or
    removes an entry, so as many rounds as entries are enough ([service_loop_fuel] of ApsTimers). *)
Fixpoint service_loop (fuel : nat) (idx : nat) s : st :=
  match fuel with
  | O => s
  | S fuel =>
      match pending s !! idx with
      | None => s
      | Some p =>
          if negb (bool_decide (PendingTx.state p = TxState.Ready)) then service_loop fuel (S idx) s
          else
            match build_frame idx s with
            | (Ok frame, s) =>
                let '(handle, s) := alloc_handle s in
                let s := update_pending idx (λ p,
                  PendingTx.set_state TxState.AwaitingNwkConfirm (PendingTx.set_handle (Some handle) p)) s in
                let s := push_action (ApsAction.NwkData handle (PendingTx.dst p) (PendingTx.radius p)
                  (ShortAddress.is_unicast (PendingTx.dst p)) (PendingTx.nwk_secure p) (PendingTx.alias p) frame) s in
                service_loop fuel (S idx) s
            | (Err SecureError.CounterPending, s) =>
                let s := update_pending idx (PendingTx.set_state TxState.CounterPending) s in
                service_loop fuel (S idx) (request_counter_reservations s)
            | (Err _, s) => service_loop fuel idx (complete idx ApsStatus.SecurityFail s)
            end
      end
  end.

Definition service_pending s : st := service_loop (length (pending s)) 0 s.

Definition release_counter_pending s : st :=
  set_pending ((λ p, if bool_decide (PendingTx.state p = TxState.CounterPending)
                     then PendingTx.set_state TxState.Ready p else p) <$> pending s) s.

Definition on_nwk_data_confirm (handle : Z) (status : NwkStatus.t) s : st :=
  match position (λ p, bool_decide (PendingTx.handle p = Some handle)) (pending s) with
  | None => s
  | Some idx =>
      match pending s !! idx with
      | None => s
      | Some p =>
          if negb (bool_decide (PendingTx.state p = TxState.AwaitingNwkConfirm)) then s
          else
            let s := update_pending idx (PendingTx.set_handle None) s in
            if NwkStatus.is_success status then
              if PendingTx.ack p then
                update_pending idx (PendingTx.set_state (TxState.AwaitingAck
                  (Instant.saturating_add (now s) constants.ACK_WAIT_DURATION))) s
              else complete idx ApsStatus.Success s
            else if bool_decide (status = NwkStatus.FrameNotBuffered) &&
                    (PendingTx.deferrals p <? constants.MAX_LOCAL_DEFERRALS) then
              let until := Instant.saturating_add (now s) constants.LOCAL_RETRY_DELAY in
              bump ApsStats.deferrals (update_pending idx (λ p,
                PendingTx.set_state (TxState.Deferred until)
                  (PendingTx.set_deferrals (PendingTx.deferrals p + 1) p)) s)
            else if PendingTx.ack p && (PendingTx.retries p <? constants.MAX_FRAME_RETRIES) then
              service_pending (bump ApsStats.retries (update_pending idx (λ p,
                PendingTx.set_state TxState.Ready (PendingTx.set_retries (PendingTx.retries p + 1) p)) s))
            else complete idx (ApsStatus.from_raw (NwkStatus.raw status)) s
      end
  end.

Definition awaiting_ack (st : TxState.t) : bool :=
  match st with TxState.AwaitingAck _ => true | _ => false end.

(** The transmission an acknowledgement from [src] belongs to. *)
Definition acknowledges (src : Z) (ack : ApsHeader.t) (p : PendingTx.t) : bool :=
  if negb (PendingTx.dst p =? src) || negb (ApsHeader.counter (PendingTx.header p) =? ApsHeader.counter ack)
  then false
  else if negb (awaiting_ack (PendingTx.state p)) then false
  else
    match PendingTx.kind p with
    | TxKind.Command _ => ApsFrameControl.ack_format (ApsHeader.control ack)
    | TxKind.Data =>
        negb (ApsFrameControl.ack_format (ApsHeader.control ack)) &&
        bool_decide (ApsHeader.cluster ack = ApsHeader.cluster (PendingTx.header p)) &&
        bool_decide (ApsHeader.src_endpoint ack = ApsHeader.dst_endpoint (PendingTx.header p)) &&
        bool_decide (ApsHeader.dst_endpoint ack = ApsHeader.src_endpoint (PendingTx.header p))
    end.

Definition block_acked (block : Z) (e : option ExtendedHeader.t) : bool :=
  match e with
  | Some e => (ExtendedHeader.block_number e =? block) &&
              negb (Z.land (default 1 (ExtendedHeader.ack_bitfield e)) 1 =? 0)
  | None => false
  end.

Definition on_ack (src : Z) (ack : ApsHeader.t) s : st :=
  match position (acknowledges src ack) (pending s) with
  | None => s
  | Some idx =>
      match pending s !! idx with
      | None => s
      | Some p =>
          if negb (PendingTx.block_count p =? 0) then
            if negb (block_acked (PendingTx.block p) (ApsHeader.extended ack)) then s
            else
              let next := sat_add 8 (PendingTx.block p) 1 in
              if next <? PendingTx.block_count p then
                service_pending (update_pending idx (λ p,
                  PendingTx.set_state TxState.Ready (PendingTx.set_retries 0 (PendingTx.set_block next p))) s)
              else complete idx ApsStatus.Success s
          else complete idx ApsStatus.Success s
      end
  end.

(** The loop of [expire_acks] from [idx]; fuel as for [service_loop]. *)
Fixpoint expire_loop (fuel : nat) (idx : nat) s : st :=
  match fuel with
  | O => s
  | S fuel =>
      match pending s !! idx with
      | None => s
      | Some p =>
          match PendingTx.state p with
          | TxState.Deferred until =>
              if Instant.has_reached (now s) until
              then expire_loop fuel (S idx) (update_pending idx (PendingTx.set_state TxState.Ready) s)
              else expire_loop fuel (S idx) s
          | TxState.AwaitingAck deadline =>
              if Instant.has_reached (now s) deadline then
                if PendingTx.retries p <? constants.MAX_FRAME_RETRIES then
                  expire_loop fuel (S idx) (bump ApsStats.retries (update_pending idx (λ p,
                    PendingTx.set_state TxState.Ready (PendingTx.set_retries (PendingTx.retries p + 1) p)) s))
                else
                  expire_loop fuel idx (complete idx ApsStatus.NoAck (bump ApsStats.ack_failures s))
              else expire_loop fuel (S idx) s
          | _ => expire_loop fuel (S idx) s
          end
      end
  end.

Definition expire_acks s : st := expire_loop (length (pending s)) 0 s.

(** [while !self.pending.is_empty() { self.complete(0, status) }] *)
Definition fail_all_pending (status : ApsStatus.t) s : st :=
  let s := Nat.iter (length (pending s)) (complete 0 status) s in
  set_requests (vec_clear (requests s)) s.

Definition pending_len s : nat := length (pending s).

(** ** layer/tx.rs: APSDE-DATA.request *)

Definition is_endpoint (a : Addressing.t) : bool :=
  match a with Addressing.Endpoint _ => true | Addressing.Group _ => false end.

Definition data_header (addressing : Addressing.t) (req : DataRequest.t) (counter : Z) : ApsHeader.t :=
  ApsHeader.data addressing (DataRequest.cluster req) (DataRequest.profile req)
    (DataRequest.src_endpoint req) counter.

(** The key-pair partner when the request asks for APS security. *)
Definition partner_for_request (req : DataRequest.t) (dst_ieee : option Z) : SE st ApsError.t (option Z) :=
  if TxOptions.security (DataRequest.options req) then
    ieee ← need dst_ieee ApsError.NoKey;
    s ← gets (λ s, s);
    p ← need (link_key_for s ieee) ApsError.NoKey;
    mret (Some p)
  else mret None.

Definition queue_data (id dst : Z) (dst_ieee : option Z) (addressing : Addressing.t)
    (req : DataRequest.t) (counter : Z) : SE st ApsError.t unit :=
  let unicast := ShortAddress.is_unicast dst && is_endpoint addressing in
  let header := data_header addressing req counter in
  let header := if negb unicast && is_endpoint addressing then ApsHeader.broadcast header else header in
  let ack := TxOptions.ack (DataRequest.options req) && unicast in
  let header := ApsHeader.with_ack_request header ack in
  partner ← partner_for_request req dst_ieee;
  let header := ApsHeader.secured header (is_some partner) in
  tc ← gets trust_center_partner;
  let extended_nonce :=
    TxOptions.extended_nonce (DataRequest.options req) ||
    match partner with Some p => negb (p =? tc) | None => false end in
  queue_tx {|
      TxParams.request := id;
      TxParams.kind := TxKind.Data;
      TxParams.dst := dst;
      TxParams.partner := partner;
      TxParams.key_id := KeyIdentifier.Data;
      TxParams.extended_nonce := extended_nonce;
      TxParams.header := header;
      TxParams.nwk_secure := true;
      TxParams.radius := DataRequest.radius req;
      TxParams.alias := DataRequest.alias req;
      TxParams.ack := ack;
      TxParams.post := None;
      TxParams.wrap := None
    |} (DataRequest.asdu req)
    (TxOptions.fragmentation_permitted (DataRequest.options req) && ack).

Definition queue_direct_to_joiner (id short joiner endpoint : Z) (req : DataRequest.t) (counter : Z)
    : SE st ApsError.t unit :=
  let header := ApsHeader.with_ack_request (data_header (Addressing.Endpoint endpoint) req counter) false in
  partner ← partner_for_request req (Some joiner);
  let header := ApsHeader.secured header (is_some partner) in
  queue_tx {|
      TxParams.request := id;
      TxParams.kind := TxKind.Data;
      TxParams.dst := short;
      TxParams.partner := partner;
      TxParams.key_id := KeyIdentifier.Data;
      TxParams.extended_nonce := true;
      TxParams.header := header;
      TxParams.nwk_secure := false;
      TxParams.radius := Some 1;
      TxParams.alias := None;
      TxParams.ack := false;
      TxParams.post := None;
      TxParams.wrap := None
    |} (DataRequest.asdu req) false.

Definition queue_relayed (id parent : Z) (joiner : option Z) (endpoint : Z) (req : DataRequest.t) (counter : Z)
    : SE st ApsError.t unit :=
  s ← gets (λ s, s);
  let partner_ieee := default (trust_center_partner s) joiner in
  let inner_header := ApsHeader.with_ack_request (data_header (Addressing.Endpoint endpoint) req counter) false in
  inner_partner ← partner_for_request req (Some partner_ieee);
  let inner_header := ApsHeader.secured inner_header (is_some inner_partner) in
  cmd_counter ← total next_counter;
  let downstream := is_some joiner in
  let cmd_id :=
    if downstream then ApsCommandId.RelayMessageDownstream else ApsCommandId.RelayMessageUpstream in
  queue_tx {|
      TxParams.request := id;
      TxParams.kind := TxKind.Command cmd_id;
      TxParams.dst := parent;
      TxParams.partner := None;
      TxParams.key_id := KeyIdentifier.Data;
      TxParams.extended_nonce := false;
      TxParams.header := ApsHeader.with_ack_request (ApsHeader.command cmd_counter false) true;
      TxParams.nwk_secure := downstream;
      TxParams.radius := None;
      TxParams.alias := None;
      TxParams.ack := true;
      TxParams.post := None;
      TxParams.wrap := Some (Wrap.Relay (default (local_ieee s) joiner) downstream inner_header inner_partner)
    |} (DataRequest.asdu req) false.

(** [for d in .. { if dests.push(d).is_err() { break; } }] *)
Fixpoint collect_dests (acc ds : list BindingDestination.t) : list BindingDestination.t :=
  match ds with
  | [] => acc
  | d :: ds => match vec_push 8 acc d with Ok acc => collect_dests acc ds | Err _ => acc end
  end.

(** The loop over the destinations of a bound request: how many were queued,
    the local delivery, and the first error. *)
Fixpoint queue_bound (id : Z) (req : DataRequest.t) (counter : Z) (view : NwkView.t)
    (ds : list BindingDestination.t) (count : Z) (loop : option Delivery.t) (err : option ApsError.t) s
    : Z * option Delivery.t * option ApsError.t * st :=
  match ds with
  | [] => (count, loop, err, s)
  | d :: ds =>
      let tally '(r, s) loop :=
        match r with
        | Ok _ => queue_bound id req counter view ds (sat_add 8 count 1) loop err s
        | Err e => queue_bound id req counter view ds count loop (Some (default e err)) s
        end in
      match d with
      | BindingDestination.Unicast address endpoint =>
          if address =? local_ieee s
          then queue_bound id req counter view ds count (Some (Delivery.Endpoint endpoint)) err s
          else
            tally (match NwkView.short_of view address with
                   | Some short =>
                       queue_data id short (Some address) (Addressing.Endpoint endpoint) req counter s
                   | None => (Err ApsError.NoShortAddress, s)
                   end) loop
      | BindingDestination.Group g =>
          let loop := if GroupTable.is_member (groups s) g then Some (Delivery.Group g) else loop in
          tally (queue_data id ShortAddress.BROADCAST_RX_ON None (Addressing.Group g) req counter s) loop
      end
  end.

(** [match req.destination]; [None] when the request is confirmed at once,
    without the final [service_pending]. *)
Definition dispatch (req : DataRequest.t) (view : NwkView.t) (id counter : Z)
    : SE st ApsError.t (option unit) :=
  s ← gets (λ s, s);
  let single (m : SE st ApsError.t unit) : SE st ApsError.t (option unit) :=
    m;; track_request id 1 None;; mret (Some tt) in
  match DataRequest.destination req with
  | Destination.Bound =>
      let dests :=
        collect_dests [] (BindingTable.destinations (bindings s) (DataRequest.src_endpoint req) (DataRequest.cluster req)) in
      refuse_if (length dests =? 0)%nat ApsError.NoBoundDevice;;
      '(count, loop, first_err) ← total (queue_bound id req counter view dests 0 None None);
      match loop with Some d => modify (set_loopback_from d req) | None => mret tt end;;
      if count =? 0 then
        if is_some loop then
          modify (push_event (ApsEvent.DataConfirm id ApsStatus.Success));; mret None
        else fail (default ApsError.NoBoundDevice first_err)
      else track_request id count None;; mret (Some tt)
  | Destination.Group g =>
      (if GroupTable.is_member (groups s) g then modify (set_loopback_from (Delivery.Group g) req) else mret tt);;
      single (queue_data id ShortAddress.BROADCAST_RX_ON None (Addressing.Group g) req counter)
  | Destination.Short address endpoint =>
      refuse_if (address =? ShortAddress.NO_SHORT_ADDRESS) ApsError.InvalidParameter;;
      let partner :=
        if TxOptions.security (DataRequest.options req) then NwkView.ieee_of view address else None in
      single (queue_data id address partner (Addressing.Endpoint endpoint) req counter)
  | Destination.Extended address endpoint =>
      short ← need (NwkView.short_of view address) ApsError.NoShortAddress;
      single (queue_data id short (Some address) (Addressing.Endpoint endpoint) req counter)
  | Destination.Relayed parent joiner endpoint =>
      let direct :=
        match joiner with
        | Some j =>
            if (parent =? local_short s) || bool_decide (NwkView.unauthenticated_child view j = Some parent)
            then Some j else None
        | None => None
        end in
      match direct with
      | Some j =>
          short ← need (NwkView.unauthenticated_child view j) ApsError.NoKey;
          single (queue_direct_to_joiner id short j endpoint req counter)
      | None => single (queue_relayed id parent joiner endpoint req counter)
      end
  end.

Definition data_request (req : DataRequest.t) (view : NwkView.t) : SE st ApsError.t Z :=
  s ← gets (λ s, s);
  refuse_if (bool_decide (state s = DeviceState.NotJoined)) ApsError.NotJoined;;
  refuse_if (MAX_ASDU <? length (DataRequest.asdu req))%nat ApsError.AsduTooLong;;
  refuse_if (DataRequest.src_endpoint req =? Endpoint.BROADCAST) ApsError.InvalidParameter;;
  refuse_if (is_some (DataRequest.alias req) && TxOptions.ack (DataRequest.options req)) ApsError.InvalidParameter;;
  counter ← match DataRequest.alias req with Some (_, seq) => mret seq | None => total next_counter end;
  id ← total alloc_request;
  serve ← dispatch req view id counter;
  match serve with
  | Some _ => modify service_pending;; mret id
  | None => mret id
  end.

Definition default_options : TxOptions.t := TxOptions.ACKED.

(** ** layer/mod.rs: state changes and time *)

Definition set_network_state (short : Z) (state : DeviceState.t) s : st :=
  let s := set_state state (set_local_short short s) in
  if bool_decide (state = DeviceState.NotJoined) then
    let s := fail_all_pending ApsStatus.IllegalRequest s in
    let s := set_reassembly None s in
    set_dedup (DuplicateRejectionTable.clear (dedup s)) s
  else s.

Definition commit_counter_reservation (partner r : Z) s : st :=
  let s := set_security (ApsSecurity.commit_counter_reservation (security s) partner r) s in
  service_pending (release_counter_pending s).

Definition abort_counter_reservation (partner : Z) s : st :=
  let s := set_security (ApsSecurity.abort_counter_reservation (security s) partner) s in
  let until := Instant.saturating_add (now s) COUNTER_RETRY_DELAY in
  set_pending ((λ p,
    if bool_decide (PendingTx.state p = TxState.CounterPending) &&
       match PendingTx.partner p with Some q => q =? partner | None => true end
    then PendingTx.set_state (TxState.Deferred until) p else p) <$> pending s) s.

(** layer/rx.rs, expire_reassembly *)
Definition expire_reassembly s : st :=
  match reassembly s with
  | Some r => if Instant.has_reached (now s) (Reassembly.deadline r) then set_reassembly None s else s
  | None => s
  end.

Definition poll_timers (t : Z) s : st :=
  let s := if now s <? t then set_now t s else s in
  let s := expire_acks s in
  let s := expire_reassembly s in
  let s := request_counter_reservations s in
  service_pending s.

Definition consider (t : Z) (best : option Z) : option Z :=
  match best with
  | Some b => if b <=? t then Some b else Some t
  | None => Some t
  end.

Definition next_deadline s : option Z :=
  let best := foldl (λ best p,
    match PendingTx.state p with
    | TxState.AwaitingAck deadline => consider deadline best
    | TxState.Deferred until => consider until best
    | TxState.Ready => consider (now s) best
    | _ => best
    end) None (pending s) in
  match reassembly s with
  | Some r => consider (Reassembly.deadline r) best
  | None => best
  end.
End layer.
End Aps.
