(* ===== verification/ApsServices.v ===== *)
(** * APS security services (panweave-aps/src/layer/cmd.rs)

    The APSME requests that send a command, the acceptance policy of received
    commands ([command_allowed]) and the handler of each command.  The dispatch
    of received commands ([handle_command]) is in ApsReceive, since a relayed
    frame goes back into the receive path. *)

From S2P Require Import Prelude Types Status Codec Tlv Heapless AuxHeader Ccm SecFrame Mmo Keys ApsTables ApsFrame ApsCommand ApsSecurity ApsTypes ApsLayer.

Module Services.
Import Aps.

Section services.
Context {C : Type} {D : ApsDims.t} `{!BlockCipher C} {CT : ConstantTimeEq} {H : Heapless}.
Abbreviation st := (Aps.t C D).
Implicit Types s : st.

(** ** Sending commands *)

Definition encode_command (cmd : ApsCommand.t) : result (list Z) ApsError.t :=
  match vec_resize MAX_ASDU [] MAX_ASDU 0 with
  | None => Err ApsError.AsduTooLong
  | Some payload =>
      match encode_to_slice cmd payload with
      | (Ok n, payload) => Ok (vec_truncate payload n)
      | (Err _, _) => Err ApsError.AsduTooLong
      end
  end.

Definition wrapped_id (w : option Wrap.t) (cmd : ApsCommand.t) : ApsCommandId.t :=
  match w with
  | Some (Wrap.Tunnel _ _ _) => ApsCommandId.Tunnel
  | Some (Wrap.Relay _ downstream _ _) =>
      if downstream then ApsCommandId.RelayMessageDownstream else ApsCommandId.RelayMessageUpstream
  | None => ApsCommand.id cmd
  end.

Definition send_command_wrapped (id dst : Z) (cmd : ApsCommand.t) (partner : option Z)
    (key_type : KeyType.t) (ack nwk_secure : bool) (post : option PostAction) (w : option Wrap.t)
    : SE st ApsError.t unit :=
  payload ← lift (encode_command cmd);
  let broadcast := ShortAddress.is_broadcast dst in
  let ack := ack && negb broadcast in
  counter ← total next_counter;
  let header :=
    ApsHeader.secured (ApsHeader.with_ack_request (ApsHeader.command counter broadcast) ack) (is_some partner) in
  queue_tx {|
      TxParams.request := id;
      TxParams.kind := TxKind.Command (wrapped_id w cmd);
      TxParams.dst := dst;
      TxParams.partner := partner;
      TxParams.key_id := key_id_for_command (ApsCommand.id cmd) key_type;
      TxParams.extended_nonce := true;
      TxParams.header := header;
      TxParams.nwk_secure := nwk_secure;
      TxParams.radius := None;
      TxParams.alias := None;
      TxParams.ack := ack;
      TxParams.post := post;
      TxParams.wrap := w
    |} payload false.

Definition send_command (id dst : Z) (cmd : ApsCommand.t) (partner : option Z) (key_type : KeyType.t)
    (ack nwk_secure : bool) (post : option PostAction) : SE st ApsError.t unit :=
  send_command_wrapped id dst cmd partner key_type ack nwk_secure post None.

Definition request_link_key_persistence s : st := push_action (ApsAction.Persist LinkKeys) s.

Definition set_negotiated_key (partner : Z) (key : list Z) (kind : LinkKeyKind)
    (attributes : KeyAttributes.t) s : bool * st :=
  let '(done, s) := with_security (λ sec, ApsSecurity.replace_key sec partner key attributes kind) s in
  if negb done then (false, s)
  else (true, request_counter_reservations (push_action (ApsAction.Persist LinkKeys) s)).

Definition install_link_key (e : LinkKeyEntry.t) : SE st LinkKeyEntry.t unit := λ s,
  let '(r, s) := with_security (λ sec, ApsSecurity.install sec e) s in
  match r with
  | Err e => (Err e, s)
  | Ok _ => (Ok tt, request_counter_reservations (push_action (ApsAction.Persist LinkKeys) s))
  end.

Definition finish_command (id : Z) (cmd : ApsCommandId.t) : SE st ApsError.t Z :=
  track_request id 1 (Some cmd);; modify service_pending;; mret id.

(** The recipient's key-pair entry. *)
Definition partner_of (device : Z) : SE st ApsError.t Z :=
  s ← gets (λ s, s); need (link_key_for s device) ApsError.NoKey.

(** ** Transport Key *)

Definition key_source s : Z :=
  if Aib.is_distributed (aib s) then ExtendedAddress.BROADCAST else local_ieee s.

(** The tunnelled key commands: the inner header is secured when it is built. *)
Definition send_tunnelled (id device parent partner : Z) (cmd : ApsCommand.t) (key_type : KeyType.t)
    : SE st ApsError.t Z :=
  inner_counter ← total next_counter;
  let inner_header :=
    ApsHeader.secured (ApsHeader.with_ack_request (ApsHeader.command inner_counter false) false) true in
  send_command_wrapped id parent cmd None key_type true true None
    (Some (Wrap.Tunnel device inner_header partner));;
  finish_command id ApsCommandId.Tunnel.

Definition transport_network_key (device : Z) (key : list Z) (sequence : Z) (route : KeyRoute.t)
    : SE st ApsError.t Z :=
  s ← gets (λ s, s);
  refuse_if (bool_decide (state s = DeviceState.NotJoined)) ApsError.NotJoined;;
  let source := key_source s in
  id ← total alloc_request;
  let cmd := ApsCommand.TransportKey (TransportKey.mk (KeyDescriptor.NetworkKey key sequence
    (if KeyRoute.is_broadcast route then ExtendedAddress.ZERO else device) source)) in
  match route with
  | KeyRoute.Broadcast =>
      send_command id ShortAddress.BROADCAST_RX_ON cmd None KeyType.StandardNetworkKey false true None;;
      finish_command id ApsCommandId.TransportKey
  | KeyRoute.Direct short nwk_secure =>
      partner ← partner_of device;
      send_command id short cmd (Some partner) KeyType.StandardNetworkKey nwk_secure nwk_secure None;;
      finish_command id ApsCommandId.TransportKey
  | KeyRoute.Tunnel parent =>
      partner ← partner_of device;
      send_tunnelled id device parent partner cmd KeyType.StandardNetworkKey
  end.

Definition is_authorization_key (d : KeyDescriptor.t) : bool :=
  match d with
  | KeyDescriptor.EphemeralAuthorization _ | KeyDescriptor.BasicAuthorizationKey _ _ _ _ => true
  | _ => false
  end.

Definition transport_authorization_key_as_trust_center (device short : Z) (descriptor : KeyDescriptor.t)
    (alias_sequence : Z) : SE st ApsError.t Z :=
  s ← gets (λ s, s);
  refuse_if (bool_decide (state s = DeviceState.NotJoined)) ApsError.NotJoined;;
  refuse_if (negb (is_authorization_key descriptor)) ApsError.InvalidParameter;;
  partner ← partner_of device;
  let cmd := ApsCommand.TransportKey (TransportKey.mk descriptor) in
  payload ← lift (encode_command cmd);
  id ← total alloc_request;
  counter ← total next_counter;
  let header :=
    ApsHeader.secured (ApsHeader.with_ack_request (ApsHeader.command counter false) false) true in
  queue_tx {|
      TxParams.request := id;
      TxParams.kind := TxKind.Command ApsCommandId.TransportKey;
      TxParams.dst := short;
      TxParams.partner := Some partner;
      TxParams.key_id := KeyIdentifier.KeyLoad;
      TxParams.extended_nonce := true;
      TxParams.header := header;
      TxParams.nwk_secure := false;
      TxParams.radius := Some 1;
      TxParams.alias := Some (ShortAddress.COORDINATOR, alias_sequence);
      TxParams.ack := false;
      TxParams.post := None;
      TxParams.wrap := None
    |} payload false;;
  finish_command id ApsCommandId.TransportKey.

Definition transport_basic_authorization_key (device : Z) (key : list Z) (sequence : Z) (route : KeyRoute.t)
    : SE st ApsError.t Z :=
  s ← gets (λ s, s);
  refuse_if (bool_decide (state s = DeviceState.NotJoined)) ApsError.NotJoined;;
  let source := key_source s in
  id ← total alloc_request;
  let cmd := ApsCommand.TransportKey (TransportKey.mk
    (KeyDescriptor.BasicAuthorizationKey key sequence device source)) in
  partner ← partner_of device;
  match route with
  | KeyRoute.Broadcast => fail ApsError.IllegalRequest
  | KeyRoute.Direct short nwk_secure =>
      send_command id short cmd (Some partner) KeyType.BasicAuthorization nwk_secure nwk_secure None;;
      finish_command id ApsCommandId.TransportKey
  | KeyRoute.Tunnel parent => send_tunnelled id device parent partner cmd KeyType.BasicAuthorization
  end.

Definition transport_trust_center_link_key (device short : Z) (key features_tlv : list Z)
    : SE st ApsError.t Z :=
  s ← gets (λ s, s);
  refuse_if (negb (ApsConfig.is_trust_center (config s))) ApsError.IllegalRequest;;
  partner ← partner_of device;
  id ← total alloc_request;
  let cmd := ApsCommand.TransportKey (TransportKey.mk
    (KeyDescriptor.TrustCenterLinkKey key device (local_ieee s) features_tlv)) in
  send_command id short cmd (Some partner) KeyType.TrustCenterLinkKey true true
    (Some (ReplaceKey partner key));;
  finish_command id ApsCommandId.TransportKey.

Definition transport_application_link_key (device short partner_of_key : Z) (key : list Z) (initiator : bool)
    : SE st ApsError.t Z :=
  partner ← partner_of device;
  id ← total alloc_request;
  let cmd := ApsCommand.TransportKey (TransportKey.mk
    (KeyDescriptor.ApplicationLinkKey key partner_of_key initiator [])) in
  send_command id short cmd (Some partner) KeyType.ApplicationLinkKey true true None;;
  finish_command id ApsCommandId.TransportKey.

(** ** Update, remove, request, switch *)

Definition update_device (tc_short device short : Z) (status : UpdateDeviceStatus.t) (joiner_tlvs : list Z)
    : SE st ApsError.t Z :=
  s ← gets (λ s, s);
  refuse_if (negb (bool_decide (state s = DeviceState.JoinedAuthorized)) || Aib.is_distributed (aib s))
    ApsError.IllegalRequest;;
  refuse_if (MAX_JOINER_TLVS <? length joiner_tlvs)%nat ApsError.InvalidParameter;;
  let tc := trust_center_partner s in
  e ← need (ApsSecurity.entry (security s) tc) ApsError.NoKey;
  id ← total alloc_request;
  let cmd := ApsCommand.UpdateDevice (UpdateDevice.mk device short status joiner_tlvs) in
  send_command id tc_short cmd (Some tc) KeyType.TrustCenterLinkKey true true None;;
  copies ← (if bool_decide (LinkKeyEntry.kind e = Global) then
              send_command id tc_short cmd None KeyType.TrustCenterLinkKey true true None;; mret 2
            else mret 1);
  track_request id copies (Some ApsCommandId.UpdateDevice);;
  modify service_pending;;
  mret id.

Definition remove_device (parent parent_short target : Z) : SE st ApsError.t Z :=
  s ← gets (λ s, s);
  refuse_if (negb (ApsConfig.is_trust_center (config s))) ApsError.IllegalRequest;;
  partner ← partner_of parent;
  id ← total alloc_request;
  let cmd := ApsCommand.RemoveDevice (RemoveDevice.mk target) in
  send_command id parent_short cmd (Some partner) KeyType.TrustCenterLinkKey true true None;;
  finish_command id ApsCommandId.RemoveDevice.

Definition request_key (tc_short : Z) (key_type : RequestKeyType.t) (partner_device : option Z)
    : SE st ApsError.t Z :=
  s ← gets (λ s, s);
  refuse_if (negb (bool_decide (state s = DeviceState.JoinedAuthorized)) || Aib.is_distributed (aib s))
    ApsError.IllegalRequest;;
  refuse_if (RequestKey.is_application key_type && negb (is_some partner_device)) ApsError.InvalidParameter;;
  partner ← partner_of (trust_center_partner s);
  id ← total alloc_request;
  let cmd := ApsCommand.RequestKey (RequestKey.mk key_type partner_device) in
  send_command id tc_short cmd (Some partner) KeyType.TrustCenterLinkKey true true None;;
  finish_command id ApsCommandId.RequestKey.

Definition relay_network_key_to_child (child child_short : Z) (key : list Z) (sequence trust_center : Z)
    : SE st ApsError.t Z :=
  s ← gets (λ s, s);
  refuse_if (negb (bool_decide (state s = DeviceState.JoinedAuthorized))) ApsError.NotJoined;;
  id ← total alloc_request;
  let cmd := ApsCommand.TransportKey (TransportKey.mk
    (KeyDescriptor.NetworkKey key sequence child trust_center)) in
  send_command id child_short cmd None KeyType.StandardNetworkKey true true None;;
  finish_command id ApsCommandId.TransportKey.

Definition switch_key (sequence : Z) : SE st ApsError.t Z :=
  s ← gets (λ s, s);
  refuse_if (negb (ApsConfig.is_trust_center (config s))) ApsError.IllegalRequest;;
  id ← total alloc_request;
  let cmd := ApsCommand.SwitchKey (SwitchKey.mk sequence) in
  send_command id ShortAddress.BROADCAST_RX_ON cmd None KeyType.StandardNetworkKey false true None;;
  finish_command id ApsCommandId.SwitchKey.

(** ** Verify and confirm *)

Definition is_link_key_type (k : KeyType.t) : bool :=
  match k with KeyType.TrustCenterLinkKey | KeyType.ApplicationLinkKey => true | _ => false end.

Definition verify_key (device short : Z) (key_type : KeyType.t) : SE st ApsError.t Z :=
  s ← gets (λ s, s);
  refuse_if (ApsConfig.is_trust_center (config s)) ApsError.IllegalRequest;;
  refuse_if (negb (bool_decide (key_type = KeyType.TrustCenterLinkKey)) && Aib.is_distributed (aib s))
    ApsError.IllegalRequest;;
  refuse_if (bool_decide (key_type = KeyType.ApplicationLinkKey) && (device =? trust_center_partner s))
    ApsError.IllegalRequest;;
  refuse_if (negb (is_link_key_type key_type)) ApsError.InvalidParameter;;
  e ← need (ApsSecurity.entry (security s) device) ApsError.NoKey;
  let hash := verify_key_hash C (LinkKeyEntry.key e) in
  id ← total alloc_request;
  let cmd := ApsCommand.VerifyKey (VerifyKey.mk key_type (local_ieee s) hash) in
  send_command id short cmd None key_type true true None;;
  finish_command id ApsCommandId.VerifyKey.

Definition verify_key_via (device parent : Z) (key_type : KeyType.t) : SE st ApsError.t Z :=
  s ← gets (λ s, s);
  refuse_if (ApsConfig.is_trust_center (config s) || negb (bool_decide (key_type = KeyType.TrustCenterLinkKey)))
    ApsError.IllegalRequest;;
  e ← need (ApsSecurity.entry (security s) device) ApsError.NoKey;
  let hash := verify_key_hash C (LinkKeyEntry.key e) in
  id ← total alloc_request;
  let cmd := ApsCommand.VerifyKey (VerifyKey.mk key_type (local_ieee s) hash) in
  inner_counter ← total next_counter;
  let inner_header := ApsHeader.with_ack_request (ApsHeader.command inner_counter false) false in
  send_command_wrapped id parent cmd None key_type true false None
    (Some (Wrap.Relay (local_ieee s) false inner_header None));;
  finish_command id ApsCommandId.RelayMessageUpstream.

(** [match self.link_key_for(device)]: the partner that secures a successful
    confirmation, and the status sent. *)
Definition confirm_partner s (device : Z) (status : ApsStatus.t) : option Z * ApsStatus.t :=
  match link_key_for s device with
  | Some p => (if ApsStatus.is_success status then Some p else None, status)
  | None => (None, ApsStatus.SecurityFail)
  end.

Definition reset_incoming_if (partner : option Z) (device : Z) s : st :=
  if is_some partner then set_security (ApsSecurity.reset_incoming (security s) device) s else s.

Definition confirm_key_via (device parent : Z) (key_type : KeyType.t) (status : ApsStatus.t)
    : SE st ApsError.t Z :=
  s ← gets (λ s, s);
  refuse_if (negb (ApsConfig.is_trust_center (config s)) || Aib.is_distributed (aib s)) ApsError.IllegalRequest;;
  let '(partner, status) := confirm_partner s device status in
  id ← total alloc_request;
  let cmd := ApsCommand.ConfirmKey (ConfirmKey.mk status key_type device) in
  inner_counter ← total next_counter;
  let inner_header :=
    ApsHeader.secured (ApsHeader.with_ack_request (ApsHeader.command inner_counter false) false)
      (is_some partner) in
  send_command_wrapped id parent cmd None key_type true true None
    (Some (Wrap.Relay device true inner_header partner));;
  modify (reset_incoming_if partner device);;
  finish_command id ApsCommandId.RelayMessageDownstream.

Definition confirm_key_with (device short : Z) (key_type : KeyType.t) (status : ApsStatus.t)
    (nwk_secure : bool) : SE st ApsError.t Z :=
  s ← gets (λ s, s);
  refuse_if (bool_decide (key_type = KeyType.TrustCenterLinkKey) &&
             (negb (ApsConfig.is_trust_center (config s)) || Aib.is_distributed (aib s)))
    ApsError.IllegalRequest;;
  refuse_if (negb (is_link_key_type key_type)) ApsError.InvalidParameter;;
  let '(partner, status) := confirm_partner s device status in
  id ← total alloc_request;
  let cmd := ApsCommand.ConfirmKey (ConfirmKey.mk status key_type device) in
  send_command id short cmd partner key_type nwk_secure nwk_secure None;;
  modify (reset_incoming_if partner device);;
  finish_command id ApsCommandId.ConfirmKey.

Definition confirm_key (device short : Z) (key_type : KeyType.t) (status : ApsStatus.t) : SE st ApsError.t Z :=
  confirm_key_with device short key_type status true.

(** ** Relaying *)

Definition send_relay_command (parent joiner : Z) (frame : list Z) (downstream nwk_secure : bool) s : st :=
  let relay := RelayMessage.mk joiner frame in
  let cmd := if downstream then ApsCommand.RelayDownstream relay else ApsCommand.RelayUpstream relay in
  let '(id, s) := alloc_request s in
  match send_command id parent cmd None KeyType.StandardNetworkKey true nwk_secure None s with
  | (Ok _, s) => service_pending (snd (track_request id 1 (Some (ApsCommand.id cmd)) s))
  | (Err _, s) => s
  end.

Definition forward_to_child (child : Z) (frame : list Z) s : st :=
  match vec_from_slice MAX_APS_FRAME frame with
  | None => s
  | Some frame =>
      let '(handle, s) := alloc_handle s in
      push_action (ApsAction.NwkData handle child (Some 1) false false None frame) s
  end.

(** ** The acceptance policy *)

Definition from_unauthenticated_child (ctx : RxContext.t) (sec : FrameSecurity.t) (view : NwkView.t) : bool :=
  negb (RxContext.nwk_secured ctx) && negb (is_some (FrameSecurity.partner sec)) &&
  match RxContext.src_ieee ctx with
  | Some i => bool_decide (NwkView.unauthenticated_child view i = Some (RxContext.src ctx))
  | None => false
  end.

Definition is_unique (e : option LinkKeyEntry.t) : bool :=
  match e with Some e => bool_decide (LinkKeyEntry.kind e = Unique) | None => false end.

(** The frame comes from the Trust Center: by its key, or by its address. *)
Definition from_trust_center s (ctx : RxContext.t) (sec : FrameSecurity.t) : bool :=
  let tc := trust_center_partner s in
  match FrameSecurity.partner sec with
  | Some p => p =? tc
  | None =>
      match RxContext.src_ieee ctx with
      | Some i => i =? tc
      | None => RxContext.src ctx =? ShortAddress.COORDINATOR
      end
  end.

Definition command_allowed s (id : ApsCommandId.t) (ctx : RxContext.t) (sec : FrameSecurity.t)
    (view : NwkView.t) : bool :=
  let aps_secured := is_some (FrameSecurity.partner sec) in
  let nwk_secured := RxContext.nwk_secured ctx in
  let from_child := from_unauthenticated_child ctx sec view in
  if ApsConfig.is_trust_center (config s) then
    match id with
    | ApsCommandId.UpdateDevice =>
        let unique := is_unique (RxContext.src_ieee ctx ≫= ApsSecurity.entry (security s)) in
        nwk_secured && (aps_secured || negb unique)
    | ApsCommandId.RequestKey => aps_secured && nwk_secured
    | ApsCommandId.VerifyKey => nwk_secured || is_some (RxContext.relayed ctx)
    | ApsCommandId.RelayMessageUpstream => nwk_secured || from_child
    | _ => false
    end
  else if Aib.is_distributed (aib s) then
    match id with
    | ApsCommandId.TransportKey => true
    | ApsCommandId.RelayMessageUpstream => from_child
    | ApsCommandId.Tunnel | ApsCommandId.RelayMessageDownstream => nwk_secured
    | _ => false
    end
  else if bool_decide (id = ApsCommandId.RelayMessageUpstream) then from_child
  else if bool_decide (state s = DeviceState.JoinedUnauthorized) then
    match id with
    | ApsCommandId.TransportKey | ApsCommandId.RelayMessageDownstream => true
    | ApsCommandId.ConfirmKey => aps_secured
    | _ => false
    end
  else if negb (from_trust_center s ctx sec) then false
  else
    let unique := is_unique (ApsSecurity.entry (security s) (trust_center_partner s)) in
    match id with
    | ApsCommandId.TransportKey => true
    | ApsCommandId.UpdateDevice => aps_secured || negb unique
    | ApsCommandId.RemoveDevice | ApsCommandId.RequestKey | ApsCommandId.ConfirmKey => aps_secured && nwk_secured
    | ApsCommandId.SwitchKey | ApsCommandId.Tunnel | ApsCommandId.VerifyKey
    | ApsCommandId.RelayMessageDownstream => nwk_secured
    | ApsCommandId.RelayMessageUpstream | ApsCommandId.Unknown _ => false
    end.

(** ** Handlers *)

Definition policy_drop s : st := bump ApsStats.policy_dropped s.

Definition is_key_load (sec : FrameSecurity.t) : bool :=
  bool_decide (FrameSecurity.key_id sec = KeyIdentifier.KeyLoad).

Definition on_network_key (key : list Z) (sequence destination source : Z) (ctx : RxContext.t)
    (sec : FrameSecurity.t) s : st :=
  let aps_secured := is_some (FrameSecurity.partner sec) in
  let distributed_src := source =? ExtendedAddress.BROADCAST in
  let transported := TransportedKey.Network key sequence source (destination =? ExtendedAddress.ZERO) in
  if negb (destination =? ExtendedAddress.ZERO) && negb (destination =? local_ieee s) then policy_drop s
  else
    match state s with
    | DeviceState.JoinedUnauthorized =>
        if negb aps_secured && ApsConfig.require_link_key_encryption_for_transport_key (config s) then policy_drop s
        else if aps_secured && negb (bool_decide (FrameSecurity.key_id sec = KeyIdentifier.KeyTransport))
        then policy_drop s
        else if distributed_src && negb (Aib.is_distributed (aib s)) then policy_drop s
        else
          let placeholder := trust_center_partner s in
          let s :=
            if negb distributed_src then
              let s := if negb (placeholder =? source)
                       then snd (with_security (λ sec, ApsSecurity.rename sec placeholder source) s) else s in
              set_aib (Aib.with_trust_center source (aib s)) s
            else s in
          let s := set_state DeviceState.JoinedAuthorized s in
          let s := push_action (ApsAction.Persist AibAttributes) s in
          let s := push_action (ApsAction.Persist LinkKeys) s in
          push_event (ApsEvent.TransportKey source transported true) s
    | DeviceState.JoinedAuthorized =>
        if Aib.is_distributed (aib s) || negb (RxContext.nwk_secured ctx) then policy_drop s
        else
          let from_tc :=
            if aps_secured then bool_decide (FrameSecurity.partner sec = Some (trust_center_partner s))
            else source =? trust_center_partner s in
          if negb from_tc then policy_drop s
          else push_event (ApsEvent.TransportKey source transported false) s
    | DeviceState.NotJoined => s
    end.

(** The frame counter synchronisation bit of the Link-Key Features TLV. *)
Definition features_sync (tlvs : list Z) : bool :=
  match TlvSet.validate tlvs (λ _, false) with
  | Err _ => false
  | Ok set =>
      match TlvSet.tlv_value set TLV_LINK_KEY_FEATURES with
      | Some (f :: _) => negb (Z.land f LINK_KEY_FEATURE_FRAME_COUNTER_SYNC =? 0)
      | _ => false
      end
  end.

Definition set_sync (sync : bool) (e : LinkKeyEntry.t) : LinkKeyEntry.t :=
  LinkKeyEntry.mk (LinkKeyEntry.partner e) (LinkKeyEntry.key e) (LinkKeyEntry.kind e)
    (LinkKeyEntry.attributes e) (LinkKeyEntry.outgoing e) (LinkKeyEntry.incoming e)
    (LinkKeyEntry.initial_join_authentication e) (LinkKeyEntry.negotiation_state e)
    (LinkKeyEntry.negotiation_method e) (LinkKeyEntry.post_join_key_update e) (LinkKeyEntry.passphrase e)
    (LinkKeyEntry.passphrase_update_allowed e) sync (LinkKeyEntry.verified_frame_counter e)
    (LinkKeyEntry.challenge_frame_counter e) (LinkKeyEntry.timeout_secs e).

Definition on_trust_center_link_key (key : list Z) (destination source : Z) (tlvs : list Z)
    (sec : FrameSecurity.t) s : st :=
  let tc := trust_center_partner s in
  if negb (is_some (FrameSecurity.partner sec)) || negb (is_key_load sec) ||
     negb (destination =? local_ieee s) || negb (bool_decide (state s = DeviceState.JoinedAuthorized)) ||
     negb (bool_decide (FrameSecurity.partner sec = Some tc)) || negb (source =? tc)
  then policy_drop s
  else
    let sync := features_sync tlvs in
    let s := snd (with_security (λ sec,
      ApsSecurity.replace_key sec source key KeyAttributes.UnverifiedKey Unique) s) in
    let s := set_security (ApsSecurity.keys_mut (security s)
      (λ ks, LinkKeyTable.get_mut ks source (set_sync sync))) s in
    let s := push_action (ApsAction.Persist LinkKeys) s in
    push_event (ApsEvent.TransportKey source (TransportedKey.TrustCenterLink source) false) s.

Definition on_application_link_key (key : list Z) (partner : Z) (initiator : bool) (ctx : RxContext.t)
    (sec : FrameSecurity.t) s : st :=
  let tc := trust_center_partner s in
  if negb (is_some (FrameSecurity.partner sec)) || negb (is_key_load sec) ||
     negb (bool_decide (state s = DeviceState.JoinedAuthorized)) ||
     negb (bool_decide (FrameSecurity.partner sec = Some tc))
  then policy_drop s
  else
    let e := KeyPair.set_attributes KeyAttributes.VerifiedKey (LinkKeyEntry.provisional partner key Unique) in
    let '(r, s) := with_security (λ sec, ApsSecurity.install sec e) s in
    match r with
    | Err _ => policy_drop s
    | Ok _ =>
        let s := push_action (ApsAction.Persist LinkKeys) s in
        push_event (ApsEvent.TransportKey (default tc (RxContext.src_ieee ctx))
          (TransportedKey.ApplicationLink partner initiator) false) s
    end.

Definition on_transport_key (tk : TransportKey.t) (ctx : RxContext.t) (sec : FrameSecurity.t) s : st :=
  let aps_secured := is_some (FrameSecurity.partner sec) in
  match TransportKey.descriptor tk with
  | KeyDescriptor.NetworkKey key sequence destination source =>
      on_network_key key sequence destination source ctx sec s
  | KeyDescriptor.TrustCenterLinkKey key destination source tlvs =>
      on_trust_center_link_key key destination source tlvs sec s
  | KeyDescriptor.ApplicationLinkKey key partner initiator _ =>
      on_application_link_key key partner initiator ctx sec s
  | KeyDescriptor.EphemeralAuthorization global =>
      if negb aps_secured || negb (is_key_load sec) then policy_drop s
      else push_event (ApsEvent.TransportKey (default (trust_center_partner s) (RxContext.src_ieee ctx))
             (TransportedKey.EphemeralAuthorization global) false) s
  | KeyDescriptor.BasicAuthorizationKey key sequence destination source =>
      if negb (destination =? local_ieee s) || negb aps_secured || negb (is_key_load sec) then policy_drop s
      else push_event (ApsEvent.TransportKey source
             (TransportedKey.BasicAuthorization key sequence source) false) s
  end.

Definition on_update_device (ud : UpdateDevice.t) (ctx : RxContext.t) (sec : FrameSecurity.t) s : st :=
  if negb (ApsConfig.is_trust_center (config s)) then s
  else
    match vec_from_slice MAX_JOINER_TLVS (UpdateDevice.joiner_tlvs ud) with
    | None => bump ApsStats.malformed s
    | Some joiner_tlvs =>
        push_event (ApsEvent.UpdateDevice (RxContext.src ctx) (RxContext.src_ieee ctx) (UpdateDevice.device ud)
          (UpdateDevice.short ud) (UpdateDevice.status ud) joiner_tlvs (is_some (FrameSecurity.partner sec))) s
    end.

Definition on_request_key (rk : RequestKey.t) (ctx : RxContext.t) (sec : FrameSecurity.t) s : st :=
  if negb (ApsConfig.is_trust_center (config s)) || Aib.is_distributed (aib s) then s
  else
    match FrameSecurity.partner sec with
    | None => s
    | Some src =>
        match RequestKey.key_type rk with
        | RequestKeyType.Unknown _ => s
        | RequestKeyType.TrustCenterLinkKey | RequestKeyType.ApplicationLinkKey =>
            let negotiated :=
              match ApsSecurity.entry (security s) src with
              | Some e => negb (LinkKeyEntry.negotiation_method e =? 0)
              | None => false
              end in
            if negotiated then s
            else push_event (ApsEvent.RequestKey src (RxContext.src ctx) (RequestKey.key_type rk)
                   (RequestKey.partner rk)) s
        end
    end.

Definition on_switch_key (sk : SwitchKey.t) (ctx : RxContext.t) s : st :=
  if negb (bool_decide (state s = DeviceState.JoinedAuthorized)) || negb (RxContext.nwk_secured ctx) then s
  else
    let tc := trust_center_partner s in
    let from_tc :=
      match RxContext.src_ieee ctx with
      | Some i => i =? tc
      | None => RxContext.src ctx =? ShortAddress.COORDINATOR
      end in
    if negb from_tc then policy_drop s
    else push_event (ApsEvent.SwitchKey tc (SwitchKey.sequence sk)) s.

Definition can_be_verified (a : KeyAttributes.t) : bool :=
  match a with KeyAttributes.UnverifiedKey | KeyAttributes.VerifiedKey => true | _ => false end.

(** The status of a Verify Key command. *)
Definition verify_status (vk : VerifyKey.t) s : ApsStatus.t :=
  let is_tc := ApsConfig.is_trust_center (config s) in
  let compare :=
    match ApsSecurity.entry (security s) (VerifyKey.source vk) with
    | Some e =>
        if can_be_verified (LinkKeyEntry.attributes e) then
          if ct_eq (verify_key_hash C (LinkKeyEntry.key e)) (VerifyKey.hash vk)
          then ApsStatus.Success else ApsStatus.SecurityFail
        else ApsStatus.SecurityFail
    | None => ApsStatus.SecurityFail
    end in
  match VerifyKey.key_type vk with
  | KeyType.TrustCenterLinkKey =>
      if negb is_tc then ApsStatus.IllegalRequest
      else if Aib.is_distributed (aib s) then ApsStatus.NotSupported
      else compare
  | KeyType.ApplicationLinkKey => if is_tc then ApsStatus.IllegalRequest else compare
  | _ => ApsStatus.NotSupported
  end.

Definition on_verify_key (vk : VerifyKey.t) (ctx : RxContext.t) (view : NwkView.t) s : st :=
  if ShortAddress.is_broadcast (RxContext.dst ctx) then s
  else
    let src := VerifyKey.source vk in
    let short := default (RxContext.src ctx) (NwkView.short_of view src) in
    let status := verify_status vk s in
    let s :=
      if ApsStatus.is_success status then
        let s := snd (with_security (λ sec, ApsSecurity.set_attributes sec src KeyAttributes.VerifiedKey) s) in
        let s := push_action (ApsAction.Persist LinkKeys) s in
        push_event (ApsEvent.KeyVerified src (VerifyKey.key_type vk) (RxContext.relayed ctx)) s
      else s in
    snd (match RxContext.relayed ctx with
         | Some r =>
             if bool_decide (NwkView.unauthenticated_child view src = Some (RelayInfo.parent r))
             then confirm_key_with src (RelayInfo.parent r) (VerifyKey.key_type vk) status false s
             else confirm_key_via src (RelayInfo.parent r) (VerifyKey.key_type vk) status s
         | None => confirm_key src short (VerifyKey.key_type vk) status s
         end).

Definition on_confirm_key (ck : ConfirmKey.t) (ctx : RxContext.t) (sec : FrameSecurity.t) s : st :=
  if ShortAddress.is_broadcast (RxContext.dst ctx) || ApsConfig.is_trust_center (config s) then s
  else
    let tc := trust_center_partner s in
    let src := default tc (match FrameSecurity.partner sec with Some p => Some p | None => RxContext.src_ieee ctx end) in
    let event := ApsEvent.ConfirmKey src (ConfirmKey.key_type ck) (ConfirmKey.status ck) in
    if negb (ApsStatus.is_success (ConfirmKey.status ck)) then push_event event s
    else
      let ignored :=
        match ConfirmKey.key_type ck with
        | KeyType.TrustCenterLinkKey => Aib.is_distributed (aib s) || negb (src =? tc)
        | KeyType.ApplicationLinkKey => Aib.is_distributed (aib s) || (src =? tc)
        | _ => true
        end in
      if ignored then s
      else if negb (bool_decide (FrameSecurity.partner sec = Some src)) then policy_drop s
      else
        let '(changed, s) :=
          with_security (λ sec, ApsSecurity.set_attributes sec src KeyAttributes.VerifiedKey) s in
        let s := if changed then push_action (ApsAction.Persist LinkKeys) s else s in
        push_event event s.
End services.
End Services.
