(* ===== verification/ApsReceive.v ===== *)
(** * The APS layer: reception (panweave-aps/src/layer/rx.rs and the dispatch of
    commands in layer/cmd.rs)

    A received frame is decoded, unsecured, filtered by policy, deduplicated,
    acknowledged, reassembled and delivered.  The octets of the buffer after the
    call are not part of the model: the indication carries the octets it
    borrows. *)

From S2P Require Import Prelude Types Status Codec Tlv Heapless AuxHeader Ccm SecFrame Mmo Keys ApsTables ApsFrame ApsCommand ApsSecurity ApsTypes ApsLayer ApsServices.

Module ProfileId.
Definition ZDP : Z := 0x0000.
End ProfileId.

Module Receive.
Import Aps Services.

Section receive.
Context {C : Type} {D : ApsDims.t} `{!BlockCipher C} {CT : ConstantTimeEq} {H : Heapless}.
Abbreviation st := (Aps.t C D).
Implicit Types s : st.

Abbreviation indicated := (option DataIndication.t * st)%type.

(** ** Acknowledgements *)

Definition ack_ext (fragmentation : Fragmentation.t) (block : Z) : ExtendedHeader.t :=
  ExtendedHeader.mk fragmentation block (Some 0xFF).

Definition send_ack (acked : ApsHeader.t) (ext : option ExtendedHeader.t) (ctx : RxContext.t)
    (sec : FrameSecurity.t) s : st :=
  let ack := ApsHeader.ack_for acked ext in
  let partner :=
    if bool_decide (FrameSecurity.key_id sec = KeyIdentifier.Data) then FrameSecurity.partner sec else None in
  let ack := ApsHeader.secured ack (is_some partner) in
  match secure_frame ack [] partner KeyIdentifier.Data false s with
  | (Err SecureError.CounterPending, s) => request_counter_reservations s
  | (Err _, s) => s
  | (Ok frame, s) =>
      let s := bump ApsStats.acks_sent s in
      match RxContext.relayed ctx with
      | Some relay =>
          let tc := ApsConfig.is_trust_center (config s) in
          send_relay_command (RelayInfo.parent relay) (RelayInfo.joiner relay) frame tc tc s
      | None =>
          let '(handle, s) := alloc_handle s in
          push_action (ApsAction.NwkData handle (RxContext.src ctx) None true (RxContext.nwk_secured ctx) None frame) s
      end
  end.

(** ** Reassembly *)

Definition reassembled_indication (delivery : Delivery.t) s : option DataIndication.t :=
  r ← reassembly s;
  src_endpoint ← ApsHeader.src_endpoint (Reassembly.header r);
  profile ← ApsHeader.profile (Reassembly.header r);
  cluster ← ApsHeader.cluster (Reassembly.header r);
  Some {|
    DataIndication.src := Reassembly.src r;
    DataIndication.src_ieee := Reassembly.src_ieee r;
    DataIndication.src_endpoint := src_endpoint;
    DataIndication.delivery := delivery;
    DataIndication.profile := profile;
    DataIndication.cluster := cluster;
    DataIndication.asdu := Reassembly.buf r;
    DataIndication.security := Reassembly.security r;
    DataIndication.lqi := Reassembly.lqi r;
    DataIndication.relayed := None;
    DataIndication.counter := ApsHeader.counter (Reassembly.header r);
    DataIndication.nwk_broadcast := false
  |}.

(** The transaction a fragment belongs to. *)
Definition same_transaction (ctx : RxContext.t) (header : ApsHeader.t) (r : option Reassembly.t) : bool :=
  match r with
  | Some r => (Reassembly.src r =? RxContext.src ctx) &&
              (ApsHeader.counter (Reassembly.header r) =? ApsHeader.counter header)
  | None => false
  end.

Definition in_progress (r : option Reassembly.t) : bool :=
  match r with Some r => negb (Reassembly.complete r) | None => false end.

(** The first block of a transaction. *)
Definition first_block (payload : list Z) (ext : ExtendedHeader.t) (header : ApsHeader.t)
    (ctx : RxContext.t) (sec : FrameSecurity.t) (delivery : Delivery.t) s : indicated :=
  let ack := send_ack header (Some (ack_ext (ExtendedHeader.fragmentation ext) 0)) ctx sec in
  if same_transaction ctx header (reassembly s) then (None, ack s)
  else if in_progress (reassembly s) then (None, bump ApsStats.policy_dropped s)
  else if (ExtendedHeader.block_number ext =? 0) || (length payload =? 0)%nat
  then (None, bump ApsStats.malformed s)
  else
    match vec_extend_from_slice MAX_ASDU [] payload with
    | None => (None, bump ApsStats.policy_dropped s)
    | Some buf =>
        let r := {|
          Reassembly.src := RxContext.src ctx;
          Reassembly.src_ieee := RxContext.src_ieee ctx;
          Reassembly.header := header;
          Reassembly.block_count := ExtendedHeader.block_number ext;
          Reassembly.next_block := 1;
          Reassembly.buf := buf;
          Reassembly.deadline := Instant.saturating_add (now s) constants.FRAGMENT_RECEIVE_TIMEOUT;
          Reassembly.complete := false;
          Reassembly.security := FrameSecurity.status sec;
          Reassembly.lqi := RxContext.lqi ctx
        |} in
        let t := now s in
        let s := ack s in
        if Reassembly.block_count r =? 1 then
          let r := Reassembly.advance (Reassembly.next_block r) (Reassembly.buf r)
                     (Instant.saturating_add t constants.FRAGMENT_PERSISTENCE) true r in
          let s := bump ApsStats.reassembled (set_reassembly (Some r) s) in
          (reassembled_indication delivery s, s)
        else (None, set_reassembly (Some r) s)
    end.

(** A later block. *)
Definition next_block (block : Z) (payload : list Z) (ext : ExtendedHeader.t) (header : ApsHeader.t)
    (ctx : RxContext.t) (sec : FrameSecurity.t) (delivery : Delivery.t) s : indicated :=
  let ack := send_ack header (Some (ack_ext (ExtendedHeader.fragmentation ext) block)) ctx sec in
  if negb (same_transaction ctx header (reassembly s)) then (None, s)
  else
    match reassembly s with
    | None => (None, s)
    | Some r =>
        if Reassembly.complete r || (block <? Reassembly.next_block r) then (None, ack s)
        else if negb (block =? Reassembly.next_block r) || (Reassembly.block_count r <=? block) then (None, s)
        else
          match vec_extend_from_slice MAX_ASDU (Reassembly.buf r) payload with
          | None => (None, bump ApsStats.policy_dropped (set_reassembly None s))
          | Some buf =>
              let next := sat_add 8 block 1 in
              let last := next =? Reassembly.block_count r in
              let deadline := Instant.saturating_add (now s)
                (if last then constants.FRAGMENT_PERSISTENCE else constants.FRAGMENT_RECEIVE_TIMEOUT) in
              let s := set_reassembly (Some (Reassembly.advance next buf deadline last r)) s in
              let s := ack s in
              if last then
                let s := bump ApsStats.reassembled s in (reassembled_indication delivery s, s)
              else (None, s)
          end
    end.

Definition handle_fragment (buf : list Z) (start end_ : nat) (header : ApsHeader.t) (ctx : RxContext.t)
    (sec : FrameSecurity.t) (delivery : Delivery.t) s : indicated :=
  match ApsHeader.extended header with
  | None => (None, s)
  | Some ext =>
      match (match ExtendedHeader.fragmentation ext with
             | Fragmentation.First => Some 0
             | Fragmentation.Part => Some (ExtendedHeader.block_number ext)
             | Fragmentation.None => None
             end), get_range buf start end_ with
      | Some block, Some payload =>
          let s := expire_reassembly s in
          if block =? 0 then first_block payload ext header ctx sec delivery s
          else next_block block payload ext header ctx sec delivery s
      | _, _ => (None, s)
      end
  end.

(** ** Data frames *)

(** The key negotiation services accepted before authorization. *)
Definition is_negotiation s (header : ApsHeader.t) (ctx : RxContext.t) (sec : FrameSecurity.t) : bool :=
  bool_decide (FrameSecurity.status sec = SecurityStatus.Unsecured) &&
  negb (RxContext.nwk_secured ctx) &&
  bool_decide (ApsHeader.profile header = Some ProfileId.ZDP) &&
  match state s, RxContext.relayed ctx, ApsHeader.cluster header with
  | DeviceState.JoinedUnauthorized, _, Some c => (c =? 0x0045) || (c =? 0x8040) || (c =? 0x8041)
  | DeviceState.JoinedAuthorized, Some _, Some c =>
      ((c =? 0x0040) || (c =? 0x8045)) && ApsConfig.is_trust_center (config s)
  | _, _, _ => false
  end.

(** How the frame addresses local endpoints: [None] malformed, [Some None] not
    for this device. *)
Definition delivery_of s (header : ApsHeader.t) (ctx : RxContext.t) : option (option Delivery.t) :=
  match ApsFrameControl.delivery_mode (ApsHeader.control header), ApsHeader.destination header with
  | DeliveryMode.Group, Some (Addressing.Group g) =>
      Some (if GroupTable.is_member (groups s) g then Some (Delivery.Group g) else None)
  | DeliveryMode.Broadcast, Some (Addressing.Endpoint ep) =>
      Some (Some (if ep =? Endpoint.BROADCAST then Delivery.AllEndpoints else Delivery.Endpoint ep))
  | DeliveryMode.Unicast, Some (Addressing.Endpoint ep) =>
      Some (Some (if (ep =? Endpoint.BROADCAST) && ShortAddress.is_broadcast (RxContext.dst ctx)
                  then Delivery.AllEndpoints else Delivery.Endpoint ep))
  | _, _ => None
  end.

(** The policy of an unauthorized device: the context to go on with, unless the
    frame is dropped. *)
Definition admit_unauthorized s (negotiation : bool) (ctx : RxContext.t) (sec : FrameSecurity.t)
    : option RxContext.t :=
  if negb (bool_decide (state s = DeviceState.JoinedAuthorized)) && negb (is_some (RxContext.relayed ctx)) then
    let from_tc :=
      bool_decide (FrameSecurity.status sec = SecurityStatus.LinkKey) && FrameSecurity.extended_nonce sec &&
      bool_decide (FrameSecurity.partner sec = Some (trust_center_partner s)) in
    if negb (bool_decide (state s = DeviceState.JoinedUnauthorized)) || negb (from_tc || negotiation) then None
    else Some (RxContext.mk (RxContext.src ctx) (RxContext.dst ctx) (Some (trust_center_partner s))
                 (RxContext.nwk_secured ctx) (RxContext.lqi ctx)
                 (Some (RelayInfo.mk (RxContext.src ctx) (local_ieee s))))
  else Some ctx.

(** The partner whose stale key secured the frame. *)
Definition stale_partner s (sec : FrameSecurity.t) : option Z :=
  match FrameSecurity.status sec, FrameSecurity.partner sec with
  | SecurityStatus.LinkKey, Some partner => if is_key_stale s partner then Some partner else None
  | _, _ => None
  end.

(** From duplicate rejection on: an unfragmented frame. *)
Definition deliver_frame (buf : list Z) (start end_ : nat) (header : ApsHeader.t) (ctx : RxContext.t)
    (sec : FrameSecurity.t) (delivery : Delivery.t) (src_endpoint cluster profile : Z) s : indicated :=
  let unicast :=
    ShortAddress.is_unicast (RxContext.dst ctx) &&
    bool_decide (ApsFrameControl.delivery_mode (ApsHeader.control header) = DeliveryMode.Unicast) &&
    negb (is_some (RxContext.relayed ctx)) in
  let ack_requested := ApsFrameControl.ack_request (ApsHeader.control header) && unicast in
  let skip_dedup :=
    FrameSecurity.extended_nonce sec && negb (bool_decide (state s = DeviceState.JoinedAuthorized)) in
  let '(duplicate, s) :=
    if skip_dedup then (false, s)
    else
      let '(d, table) := DuplicateRejectionTable.check_and_record (dedup s) (RxContext.src ctx)
                           (ApsHeader.counter header) (now s) constants.DUPLICATE_REJECTION_TIMEOUT in
      (d, set_dedup table s) in
  let ack s := if ack_requested then send_ack header None ctx sec s else s in
  if duplicate then (None, ack (bump ApsStats.duplicates s))
  else
    let s := ack s in
    match get_range buf start end_ with
    | None => (None, s)
    | Some asdu =>
        let relayed_from :=
          match RxContext.relayed ctx with
          | Some r => if RelayInfo.joiner r =? local_ieee s then None else Some (RelayInfo.joiner r)
          | None => None
          end in
        (Some {|
          DataIndication.src := RxContext.src ctx;
          DataIndication.src_ieee := match relayed_from with Some j => Some j | None => RxContext.src_ieee ctx end;
          DataIndication.src_endpoint := src_endpoint;
          DataIndication.delivery := delivery;
          DataIndication.profile := profile;
          DataIndication.cluster := cluster;
          DataIndication.asdu := asdu;
          DataIndication.security := FrameSecurity.status sec;
          DataIndication.lqi := RxContext.lqi ctx;
          DataIndication.relayed := RxContext.relayed ctx;
          DataIndication.counter := ApsHeader.counter header;
          DataIndication.nwk_broadcast := ShortAddress.is_broadcast (RxContext.dst ctx)
        |}, s)
    end.

Definition handle_data (buf : list Z) (start end_ : nat) (header : ApsHeader.t) (ctx : RxContext.t)
    (sec : FrameSecurity.t) s : indicated :=
  let negotiation := is_negotiation s header ctx sec in
  match admit_unauthorized s negotiation ctx sec with
  | None => (None, bump ApsStats.policy_dropped s)
  | Some ctx =>
      if bool_decide (FrameSecurity.status sec = SecurityStatus.Unsecured) &&
         negb (ApsConfig.accept_unsecured_data (config s)) && negb negotiation
      then (None, bump ApsStats.policy_dropped s)
      else
        match stale_partner s sec with
        | Some partner => (None, push_event (ApsEvent.StaleKeyUsed partner) (bump ApsStats.stale_key_dropped s))
        | None =>
            match ApsHeader.src_endpoint header, ApsHeader.cluster header, ApsHeader.profile header with
            | Some src_endpoint, Some cluster, Some profile =>
                match delivery_of s header ctx with
                | None => (None, bump ApsStats.malformed s)
                | Some None => (None, s)
                | Some (Some delivery) =>
                    if negb (bool_decide (ApsHeader.fragmentation header = Fragmentation.None)) then
                      if negb (bool_decide (ApsFrameControl.delivery_mode (ApsHeader.control header) = DeliveryMode.Unicast)) ||
                         negb (ApsFrameControl.ack_request (ApsHeader.control header)) || is_some (RxContext.relayed ctx)
                      then (None, bump ApsStats.malformed s)
                      else handle_fragment buf start end_ header ctx sec delivery s
                    else deliver_frame buf start end_ header ctx sec delivery src_endpoint cluster profile s
                end
            | _, _, _ => (None, bump ApsStats.malformed s)
            end
        end
  end.

(** ** Commands and the dispatch of frames *)

(** A Zigbee Direct authorization key under key-load security. *)
Definition is_authorization_command (buf : list Z) (start : nat) (id : ApsCommandId.t) (sec : FrameSecurity.t) : bool :=
  bool_decide (id = ApsCommandId.TransportKey) && is_key_load sec && is_some (FrameSecurity.partner sec) &&
  match KeyType.from_raw <$> buf !! (start + 1)%nat with
  | Some (KeyType.EphemeralGlobal | KeyType.EphemeralUnique | KeyType.BasicAuthorization) => true
  | _ => false
  end.

(** The frame inside a relay message, with the context it is processed in. *)
Definition relayed_context s (ctx : RxContext.t) (src_ieee joiner : Z) : RxContext.t :=
  RxContext.mk (RxContext.src ctx) (local_short s) (Some src_ieee) false (RxContext.lqi ctx)
    (Some (RelayInfo.mk (RxContext.src ctx) joiner)).

(** What [handle_command] does with a decoded command; [process_inner] is the
    receive path one level deeper.  A relayed message is a slice of the command,
    so the range [relayed_range] computes is the message itself. *)
Definition run_command (process_inner : list Z → RxContext.t → st → indicated) (depth : nat)
    (cmd : ApsCommand.t) (ctx : RxContext.t) (sec : FrameSecurity.t) (view : NwkView.t) s : indicated :=
  match cmd with
  | ApsCommand.TransportKey tk => (None, on_transport_key tk ctx sec s)
  | ApsCommand.UpdateDevice ud => (None, on_update_device ud ctx sec s)
  | ApsCommand.RemoveDevice rd =>
      (None, match FrameSecurity.partner sec with
             | Some src => push_event (ApsEvent.RemoveDevice src (RemoveDevice.target rd)) s
             | None => s
             end)
  | ApsCommand.RequestKey rk => (None, on_request_key rk ctx sec s)
  | ApsCommand.SwitchKey sk => (None, on_switch_key sk ctx s)
  | ApsCommand.Tunnel u =>
      (None, match NwkView.unauthenticated_child view (Tunnel.destination u) with
             | Some child => forward_to_child child (Tunnel.tunneled u) s
             | None => s
             end)
  | ApsCommand.VerifyKey vk => (None, on_verify_key vk ctx view s)
  | ApsCommand.ConfirmKey ck => (None, on_confirm_key ck ctx sec s)
  | ApsCommand.RelayDownstream rm =>
      if bool_decide (state s = DeviceState.JoinedUnauthorized) && (RelayMessage.joiner rm =? local_ieee s) then
        if (0 <? depth)%nat then (None, s)
        else process_inner (RelayMessage.message rm)
               (relayed_context s ctx (trust_center_partner s) (local_ieee s)) s
      else
        (None, match NwkView.unauthenticated_child view (RelayMessage.joiner rm) with
               | Some child => forward_to_child child (RelayMessage.message rm) s
               | None => s
               end)
  | ApsCommand.RelayUpstream rm =>
      if ApsConfig.is_trust_center (config s) then
        if (0 <? depth)%nat then (None, s)
        else process_inner (RelayMessage.message rm)
               (relayed_context s ctx (RelayMessage.joiner rm) (RelayMessage.joiner rm)) s
      else
        let child_ok :=
          match RxContext.src_ieee ctx with
          | Some i => (i =? RelayMessage.joiner rm) &&
                      bool_decide (NwkView.unauthenticated_child view i = Some (RxContext.src ctx))
          | None => false
          end in
        (None, if child_ok then
                 let tc_short := default ShortAddress.COORDINATOR (NwkView.short_of view (trust_center_partner s)) in
                 send_relay_command tc_short (RelayMessage.joiner rm) (RelayMessage.message rm) false true s
               else s)
  end.

Definition handle_command (process_inner : list Z → RxContext.t → st → indicated) (depth : nat)
    (buf : list Z) (start end_ : nat) (header : ApsHeader.t) (ctx : RxContext.t) (sec : FrameSecurity.t)
    (view : NwkView.t) s : indicated :=
  match ApsCommandId.from_raw <$> buf !! start with
  | None => (None, s)
  | Some id =>
      if negb (is_authorization_command buf start id sec) && negb (command_allowed s id ctx sec view)
      then (None, bump ApsStats.policy_dropped s)
      else
        let s :=
          if ApsFrameControl.ack_request (ApsHeader.control header) &&
             ShortAddress.is_unicast (RxContext.dst ctx) && negb (is_some (RxContext.relayed ctx))
          then send_ack header None ctx sec s else s in
        match get_range buf start end_ with
        | None => (None, s)
        | Some payload =>
            match decode_exact payload with
            | Err _ => (None, bump ApsStats.malformed s)
            | Ok cmd => run_command process_inner depth cmd ctx sec view s
            end
        end
  end.

(** Security processing: the payload range and the security of the frame, with
    the buffer as it was decrypted; [None] when the frame is dropped. *)
Definition unsecure_frame (header : ApsHeader.t) (header_len : nat) (buf : list Z) (ctx : RxContext.t) s
    : option (list Z * nat * nat * FrameSecurity.t) * st :=
  if negb (ApsFrameControl.security (ApsHeader.control header)) then
    (Some (buf, header_len, length buf,
       FrameSecurity.mk (if RxContext.nwk_secured ctx then SecurityStatus.NwkKey else SecurityStatus.Unsecured)
         None KeyIdentifier.Data false), s)
  else
    let level := ApsConfig.security_level (config s) in
    let sender := match RxContext.relayed ctx with
                  | Some r => Some (RelayInfo.joiner r)
                  | None => RxContext.src_ieee ctx
                  end in
    let fallback :=
      if bool_decide (state s = DeviceState.JoinedUnauthorized) then Some (trust_center_partner s) else None in
    let '(r, buf, secs) := ApsSecurity.unsecure_incoming (security s) buf header_len level sender fallback in
    let s := set_security secs s in
    match r with
    | Ok u =>
        (Some (buf, ApsUnsecured.payload_start u, ApsUnsecured.payload_end u,
           FrameSecurity.mk SecurityStatus.LinkKey (Some (ApsUnsecured.partner u)) (ApsUnsecured.key_id u)
             (ApsUnsecured.extended_nonce u)), s)
    | Err UnverifiedFrameCounter =>
        let s := match sender with
                 | Some partner => push_event (ApsEvent.FrameCounterUnverified partner) s
                 | None => s
                 end in
        (None, bump ApsStats.security_dropped s)
    | Err err =>
        let s := if bool_decide (err = BadFrameCounter) then bump ApsStats.fc_failures s else s in
        let old_tc := trust_center_partner s in
        let retry :=
          bool_decide (ApsFrameControl.frame_type (ApsHeader.control header) = ApsFrameType.Command) &&
          bool_decide (state s = DeviceState.JoinedUnauthorized) && negb (Aib.is_distributed (aib s)) in
        if negb retry then (None, bump ApsStats.security_dropped s)
        else
          let '(r, buf, secs) := ApsSecurity.unsecure_swap_out (security s) buf header_len level old_tc in
          let s := set_security secs s in
          match r with
          | Ok (new_tc, key_id, start, end_) =>
              let s := set_aib (Aib.with_trust_center new_tc (aib s)) s in
              let s := push_action (ApsAction.Persist AibAttributes) s in
              let s := push_action (ApsAction.Persist LinkKeys) s in
              let s := push_event (ApsEvent.TrustCenterSwapped old_tc new_tc) s in
              (Some (buf, start, end_,
                 FrameSecurity.mk SecurityStatus.LinkKey (Some new_tc) key_id true), s)
          | Err _ => (None, bump ApsStats.security_dropped s)
          end
    end.

(** One frame; [process_inner] handles the frame of a relay message. *)
Definition process_frame_with (process_inner : list Z → RxContext.t → st → indicated) (depth : nat)
    (view : NwkView.t) (buf : list Z) (ctx : RxContext.t) s : indicated :=
  match ApsHeader.decode_prefix buf with
  | Err _ => (None, bump ApsStats.malformed s)
  | Ok (header, header_len) =>
      match unsecure_frame header header_len buf ctx s with
      | (None, s) => (None, s)
      | (Some (buf, start, end_, sec), s) =>
          match ApsFrameControl.frame_type (ApsHeader.control header) with
          | ApsFrameType.Ack => (None, on_ack (RxContext.src ctx) header s)
          | ApsFrameType.Command => handle_command process_inner depth buf start end_ header ctx sec view s
          | ApsFrameType.Data =>
              let s := if ShortAddress.is_broadcast (RxContext.dst ctx)
                       then bump ApsStats.rx_bcast s else bump ApsStats.rx_ucast s in
              handle_data buf start end_ header ctx sec s
          | ApsFrameType.InterPan => (None, bump ApsStats.policy_dropped s)
          end
      end
  end.

(** The receive path: a relay message is unpacked once ([depth]), so the frame
    inside it never needs a further level. *)
Definition process_frame (view : NwkView.t) (depth : nat) (buf : list Z) (ctx : RxContext.t) s : indicated :=
  process_frame_with (process_frame_with (λ _ _ s, (None, s)) (depth + 1) view) depth view buf ctx s.

Definition on_nwk_data (buf : list Z) (src dst : Z) (src_ieee : option Z) (nwk_secured : bool) (lqi : Z)
    (view : NwkView.t) s : indicated :=
  let src_ieee := match src_ieee with Some i => Some i | None => NwkView.ieee_of view src end in
  process_frame view 0 buf (RxContext.mk src dst src_ieee nwk_secured lqi None) s.
End receive.
End Receive.
