(* ===== verification/ApsFootprint.v ===== *)
(** * What the APS operations leave alone

    Most theorems about the layer need to know that sending, acknowledging and
    confirming do not disturb the part of the state they speak of.  An observer
    [f] of the state is a [Footprint] when it does not see the queues, the
    pending transmissions, the identifiers and the counters of the keys; every
    operation that only works on those then keeps [f].  [PostFootprint] adds
    the key replacement that follows a confirmed command. *)

From S2P Require Import Prelude Types Status Codec Heapless AuxHeader Ccm SecFrame Keys ApsTables ApsFrame ApsCommand ApsSecurity ApsTypes ApsLayer ApsServices ApsReceive.
Import Aps Services Receive.

Section footprint.
Context {C : Type} {D : ApsDims.t} `{!BlockCipher C} {CT : ConstantTimeEq} {H : Heapless}.
Abbreviation st := (Aps.t C D).
Implicit Types s : st.

Class Footprint {X} (f : st → X) : Prop := {
  fp_actions v s : f (set_actions v s) = f s;
  fp_events v s : f (set_events v s) = f s;
  fp_stats v s : f (set_stats v s) = f s;
  fp_counter v s : f (set_counter v s) = f s;
  fp_next_request v s : f (set_next_request v s) = f s;
  fp_next_handle v s : f (set_next_handle v s) = f s;
  fp_pending v s : f (set_pending v s) = f s;
  fp_requests v s : f (set_requests v s) = f s;
  fp_loopback v s : f (set_loopback v s) = f s;
  fp_secure s buf hl pl level p k ieee ext :
    f (set_security (ApsSecurity.secure_outgoing (security s) buf hl pl level p k ieee ext).2 s) = f s;
  fp_reserve fuel s :
    f (set_security (ApsSecurity.request_counter_reservations fuel (security s)).2 s) = f s;
  fp_reset p s : f (set_security (ApsSecurity.reset_incoming (security s) p) s) = f s
}.

Class PostFootprint {X} (f : st → X) : Prop :=
  fp_post p key s :
    f (set_security (ApsSecurity.replace_key (security s) p key KeyAttributes.UnverifiedKey Unique).2 s) = f s.

(** A computation keeps an observer, whether it succeeds or fails. *)
Definition keeps {X E A} (f : st → X) (m : SE st E A) : Prop := ∀ s, f (m s).2 = f s.

Section observer.
Context {X : Type} (f : st → X) {F : Footprint f}.

Lemma keeps_ret {E A} (a : A) : keeps (E:=E) f (mret a).
Proof. done. Qed.
Lemma keeps_fail {E A} (e : E) : keeps (A:=A) f (fail e).
Proof. done. Qed.
Lemma keeps_lift {E A} (r : result A E) : keeps f (lift r).
Proof. done. Qed.
Lemma keeps_gets {E A} (g : st → A) : keeps (E:=E) f (gets g).
Proof. done. Qed.
Lemma keeps_refuse {E} b (e : E) : keeps f (refuse_if b e).
Proof. by destruct b. Qed.
Lemma keeps_need {E A} (o : option A) (e : E) : keeps f (need o e).
Proof. by destruct o. Qed.
Lemma keeps_modify {E} (g : st → st) : (∀ s, f (g s) = f s) → keeps (E:=E) f (modify g).
Proof. intros Hg s. apply Hg. Qed.
Lemma keeps_total {E A} (g : st → A * st) : (∀ s, f (g s).2 = f s) → keeps (E:=E) f (total g).
Proof. intros Hg s. unfold total. specialize (Hg s). by destruct (g s). Qed.
Lemma keeps_bind {E A B} (m : SE st E A) (k : A → SE st E B) :
  keeps f m → (∀ a, keeps f (k a)) → keeps f (m ≫= k).
Proof.
  intros Hm Hk s. unfold mbind, se_bind. specialize (Hm s). destruct (m s) as [[a|e] s1]; simpl in *; [|done].
  by rewrite Hk.
Qed.

Lemma bump_foot c s : f (bump c s) = f s.
Proof. apply fp_stats. Qed.
Lemma push_action_foot a s : f (push_action a s) = f s.
Proof. unfold push_action. case_match; [apply fp_actions|apply bump_foot]. Qed.
Lemma push_event_foot e s : f (push_event e s) = f s.
Proof. unfold push_event. case_match; [apply fp_events|apply bump_foot]. Qed.
Lemma next_counter_foot s : f (next_counter s).2 = f s.
Proof. apply fp_counter. Qed.
Lemma alloc_request_foot s : f (alloc_request s).2 = f s.
Proof. apply fp_next_request. Qed.
Lemma alloc_handle_foot s : f (alloc_handle s).2 = f s.
Proof. apply fp_next_handle. Qed.
Lemma update_pending_foot i g s : f (update_pending i g s) = f s.
Proof. apply fp_pending. Qed.
Lemma set_loopback_from_foot d r s : f (set_loopback_from d r s) = f s.
Proof. unfold set_loopback_from. case_match; [apply fp_loopback|done]. Qed.

Lemma reservations_foot s : f (request_counter_reservations s) = f s.
Proof.
  unfold request_counter_reservations. destruct (ApsSecurity.request_counter_reservations _ _) as [acts sec] eqn:E.
  assert (f (set_security sec s) = f s) as <-.
  { pose proof (fp_reserve (f:=f) (S (length (LinkKeyTable.entries (ApsSecurity.keys (security s))))) s) as Hr.
    by rewrite E in Hr. }
  generalize (set_security sec s). induction (default [] acts) as [|[p r] l IH]; intros s'; simpl; [done|].
  by rewrite IH, push_action_foot.
Qed.

Lemma finish_foot r status s : f (finish_transmission r status s) = f s.
Proof.
  unfold finish_transmission. repeat case_match; try done;
    rewrite ?push_event_foot, ?fp_requests; done.
Qed.

(** A transmission that does not succeed has no follow-up. *)
Lemma complete_fail_foot i status s : ApsStatus.is_success status = false → f (complete i status s) = f s.
Proof.
  intros Hf. unfold complete. case_match; [done|]. destruct (vec_swap_remove _ _) as [[p ps]|]; [|done].
  rewrite Hf. cbn [andb]. by rewrite finish_foot, fp_pending.
Qed.

Lemma complete_foot {P : PostFootprint f} i status s : f (complete i status s) = f s.
Proof.
  unfold complete. case_match; [done|]. destruct (vec_swap_remove _ _) as [[p ps]|]; [|done].
  rewrite finish_foot. destruct (ApsStatus.is_success status); [|apply fp_pending].
  assert (∀ s', f (match PendingTx.post p with
    | Some (ReplaceKey partner key) => push_action (ApsAction.Persist LinkKeys)
        (with_security (λ sec, ApsSecurity.replace_key sec partner key KeyAttributes.UnverifiedKey Unique) s').2
    | None => s' end) = f s') as Hp.
  { intros s'. destruct (PendingTx.post p) as [[q k]|]; [|done]. rewrite push_action_foot. unfold with_security.
    pose proof (fp_post (f:=f) q k s') as Hq. by destruct (ApsSecurity.replace_key _ _ _ _ _). }
  rewrite Hp. repeat case_match; rewrite ?bump_foot; apply fp_pending.
Qed.

Lemma secure_frame_foot h pl p k ext : keeps f (secure_frame h pl p k ext).
Proof.
  intros s. unfold secure_frame. destruct (vec_resize _ _ _ _) as [buf|]; [|done].
  destruct (encode h (Writer.new buf)) as [[[]|e] w]; [|done].
  destruct (if ApsFrameControl.security _ then p else None) as [q|]; [|done].
  match goal with |- context [ApsSecurity.secure_outgoing ?a ?b ?c ?d ?e ?g ?h ?i ?j] =>
    pose proof (fp_secure (f:=f) s b c d e g h i j) as Hs; destruct (ApsSecurity.secure_outgoing a b c d e g h i j) as [[[]?]?] end;
  exact Hs.
Qed.

Lemma build_frame_foot i : keeps f (build_frame i).
Proof.
  unfold build_frame. apply keeps_bind; [apply keeps_gets|]. intros ps. apply keeps_bind; [apply keeps_need|].
  intros p. destruct (block_frame p) as [[h a] b]. apply keeps_bind; [apply keeps_need|]. intros pl.
  destruct (PendingTx.wrap p) as [w|]; [|apply secure_frame_foot].
  apply keeps_bind; [destruct w; apply secure_frame_foot|]. intros inner. apply keeps_bind; [apply keeps_need|].
  intros wr. apply keeps_bind; [|intros; apply secure_frame_foot].
  destruct (encode_to_slice _ _) as [[]?]; [apply keeps_ret|apply keeps_fail].
Qed.

Lemma service_loop_foot n i s : f (service_loop n i s) = f s.
Proof.
  revert i s. induction n as [|n IH]; intros i s; simpl; [done|].
  destruct (pending s !! i) as [p|]; [|done]. case_match; [apply IH|].
  pose proof (build_frame_foot i s) as Hb. destruct (build_frame i s) as [[fr|[]] s1]; simpl in Hb;
    rewrite IH, ?complete_fail_foot by done; try done.
  - rewrite push_action_foot, update_pending_foot. by rewrite fp_next_handle.
  - by rewrite reservations_foot, update_pending_foot.
Qed.

Lemma service_foot s : f (service_pending s) = f s.
Proof. apply service_loop_foot. Qed.

Lemma confirm_foot {P : PostFootprint f} h status s : f (on_nwk_data_confirm h status s) = f s.
Proof.
  unfold on_nwk_data_confirm. repeat case_match; try done;
    rewrite ?service_foot, ?complete_foot, ?bump_foot, ?update_pending_foot; done.
Qed.

Lemma ack_foot {P : PostFootprint f} src h s : f (on_ack src h s) = f s.
Proof.
  unfold on_ack. repeat case_match; try done; rewrite ?service_foot, ?complete_foot, ?update_pending_foot; done.
Qed.

Lemma expire_foot n i s : f (expire_loop n i s) = f s.
Proof.
  revert i s. induction n as [|n IH]; intros i s; simpl; [done|].
  repeat case_match; try done; rewrite IH, ?complete_fail_foot, ?bump_foot, ?update_pending_foot; done.
Qed.

Lemma expire_acks_foot s : f (expire_acks s) = f s.
Proof. apply expire_foot. Qed.

Lemma release_foot s : f (release_counter_pending s) = f s.
Proof. apply fp_pending. Qed.

Lemma queue_tx_foot p asdu b : keeps f (queue_tx p asdu b).
Proof.
  unfold queue_tx. apply keeps_bind; [apply keeps_gets|]. intros pl. apply keeps_bind; [apply keeps_lift|].
  intros [n bs]. apply keeps_bind; [apply keeps_need|]. intros a s. unfold push_pending.
  case_match; [apply fp_pending|done].
Qed.

Lemma track_foot id n c : keeps f (track_request id n c).
Proof. intros s. unfold track_request. case_match; [apply fp_requests|apply fp_pending]. Qed.
End observer.
End footprint.

Create HintDb foot.
#[export] Hint Resolve keeps_ret keeps_fail keeps_lift keeps_gets keeps_refuse keeps_need keeps_modify
  keeps_total secure_frame_foot build_frame_foot queue_tx_foot track_foot bump_foot push_action_foot
  push_event_foot next_counter_foot alloc_request_foot alloc_handle_foot set_loopback_from_foot
  reservations_foot service_foot : foot.

(** Walks through a computation. *)
Ltac keep_step :=
  first [solve [eauto with foot]
        | apply keeps_bind; [|let x := fresh in intros x]
        | match goal with
          | |- keeps _ (match ?x with _ => _ end) => destruct x
          | |- keeps _ (if ?x then _ else _) => destruct x
          | |- keeps _ (let '(_, _) := ?x in _) => destruct x
          end].
Ltac keep := repeat keep_step.

Section services.
Context {C : Type} {D : ApsDims.t} `{!BlockCipher C} {CT : ConstantTimeEq} {H : Heapless}.
Abbreviation st := (Aps.t C D).
Implicit Types s : st.
Context {X : Type} (f : st → X) {F : Footprint f}.

Lemma send_command_foot id dst cmd p kt a n post w : keeps f (send_command_wrapped id dst cmd p kt a n post w).
Proof. unfold send_command_wrapped. keep. Qed.
#[local] Hint Resolve send_command_foot : foot.

Lemma finish_command_foot id c : keeps f (finish_command id c).
Proof. unfold finish_command. keep. Qed.
#[local] Hint Resolve finish_command_foot : foot.

Lemma reset_if_foot p d s : f (reset_incoming_if p d s) = f s.
Proof. unfold reset_incoming_if. case_match; [apply fp_reset|done]. Qed.
#[local] Hint Resolve reset_if_foot : foot.

Lemma confirm_with_foot d sh kt status n : keeps f (confirm_key_with d sh kt status n).
Proof. unfold confirm_key_with, send_command. keep. Qed.

Lemma confirm_via_foot d p kt status : keeps f (confirm_key_via d p kt status).
Proof. unfold confirm_key_via. keep. Qed.

Lemma send_relay_foot p j fr d n s : f (send_relay_command p j fr d n s) = f s.
Proof.
  unfold send_relay_command, send_command. pose proof (alloc_request_foot f s) as Ha.
  destruct (alloc_request s) as [id s1]. cbn [snd] in Ha.
  match goal with |- context [send_command_wrapped ?a ?b ?c ?e ?g ?h ?i ?j ?k s1] =>
    pose proof (send_command_foot a b c e g h i j k s1) as Hs; destruct (send_command_wrapped a b c e g h i j k s1) as [[] s2] end;
  cbn [snd] in Hs; [|congruence]. rewrite (service_foot f), (track_foot f). congruence.
Qed.

Lemma forward_foot c fr s : f (forward_to_child c fr s) = f s.
Proof. unfold forward_to_child. case_match; [|done]. cbn. by rewrite (push_action_foot f), (fp_next_handle (f:=f)). Qed.

Lemma send_ack_foot h e ctx sec s : f (send_ack h e ctx sec s) = f s.
Proof.
  unfold send_ack. match goal with |- context [secure_frame ?a ?b ?c ?d ?e s] =>
    pose proof (secure_frame_foot f a b c d e s) as Hs; destruct (secure_frame a b c d e s) as [[fr|[]] s1] end;
  cbn [snd] in Hs; rewrite ?(reservations_foot f); try done.
  case_match; [rewrite send_relay_foot|cbn; rewrite (push_action_foot f), (fp_next_handle (f:=f))];
    by rewrite (bump_foot f).
Qed.

Lemma queue_data_foot id dst ieee a req n : keeps f (queue_data id dst ieee a req n).
Proof. unfold queue_data, partner_for_request. keep. Qed.
#[local] Hint Resolve queue_data_foot : foot.

Lemma queue_bound_foot id req n view ds count loop err s :
  f (queue_bound id req n view ds count loop err s).2 = f s.
Proof.
  revert count loop err s. induction ds as [|d ds IH]; intros count loop err s; cbn [queue_bound]; [done|].
  destruct d as [a ep|g].
  - case_match; [apply IH|]. destruct (NwkView.short_of view a); [|apply IH].
    match goal with |- context [queue_data ?a ?b ?c ?d ?e ?g s] =>
      pose proof (queue_data_foot a b c d e g s) as Hq; destruct (queue_data a b c d e g s) as [[] s1] end;
    rewrite IH; exact Hq.
  - match goal with |- context [queue_data ?a ?b ?c ?d ?e ?g s] =>
      pose proof (queue_data_foot a b c d e g s) as Hq; destruct (queue_data a b c d e g s) as [[] s1] end;
    rewrite IH; exact Hq.
Qed.
#[local] Hint Resolve queue_bound_foot : foot.

Lemma dispatch_foot req view id n : keeps f (dispatch req view id n).
Proof. unfold dispatch, queue_direct_to_joiner, queue_relayed, partner_for_request. keep. Qed.
#[local] Hint Resolve dispatch_foot : foot.

Lemma data_request_foot req view : keeps f (data_request req view).
Proof. unfold data_request. keep. Qed.
End services.

#[export] Hint Resolve send_command_foot finish_command_foot reset_if_foot confirm_with_foot confirm_via_foot : foot.

(** ** Reception *)

Section reception.
Context {C : Type} {D : ApsDims.t} `{!BlockCipher C} {CT : ConstantTimeEq} {H : Heapless}.
Abbreviation st := (Aps.t C D).
Implicit Types s : st.

(** An observer that reception changes through reassembly alone. *)
Class RxFootprint {X} (f : st → X) : Prop := {
  rx_footprint :: Footprint f;
  rx_security v s : f (set_security v s) = f s;
  rx_aib v s : f (set_aib v s) = f s;
  rx_state v s : f (set_state v s) = f s;
  rx_dedup v s : f (set_dedup v s) = f s
}.

#[global] Instance rx_post {X} (f : st → X) `{!RxFootprint f} : PostFootprint f.
Proof. intros p k s. apply rx_security. Qed.

#[global] Instance state_foot : Footprint (state : st → _).
Proof. by repeat split. Qed.
#[global] Instance reassembly_rx : RxFootprint (reassembly : st → _).
Proof. by repeat split. Qed.
#[global] Instance now_rx : RxFootprint (now : st → _).
Proof. by repeat split. Qed.

Context {X : Type} (f : st → X) {R : RxFootprint f}.

Lemma with_security_foot {A} (g : _ → A * _) s : f (with_security g s).2 = f s.
Proof. unfold with_security. destruct (g (security s)). apply rx_security. Qed.

Ltac rx_foot :=
  repeat case_match;
  repeat first [rewrite (push_event_foot f) | rewrite (push_action_foot f) | rewrite (bump_foot f)
    | rewrite (rx_security (f:=f)) | rewrite (rx_aib (f:=f)) | rewrite (rx_state (f:=f)) | rewrite with_security_foot];
  try done.

Lemma on_network_key_foot key seq dst src ctx sec s : f (on_network_key key seq dst src ctx sec s) = f s.
Proof. unfold on_network_key, policy_drop. rx_foot; cbn; rx_foot. Qed.

Lemma on_trust_center_link_key_foot key dst src tlvs sec s : f (on_trust_center_link_key key dst src tlvs sec s) = f s.
Proof. unfold on_trust_center_link_key, policy_drop. cbv zeta. rx_foot. Qed.

Lemma on_application_link_key_foot key p i ctx sec s : f (on_application_link_key key p i ctx sec s) = f s.
Proof.
  unfold on_application_link_key, policy_drop. case_match; [rx_foot|].
  match goal with |- context [with_security ?g s] => pose proof (with_security_foot g s) as Hs; destruct (with_security g s) as [[] s1] end;
  cbn [snd] in Hs; rx_foot.
Qed.

Lemma on_transport_key_foot tk ctx sec s : f (on_transport_key tk ctx sec s) = f s.
Proof.
  unfold on_transport_key, policy_drop. destruct (TransportKey.descriptor tk);
    rewrite ?on_network_key_foot, ?on_trust_center_link_key_foot, ?on_application_link_key_foot; rx_foot.
Qed.

Lemma on_verify_key_foot vk ctx view s : f (on_verify_key vk ctx view s) = f s.
Proof.
  unfold on_verify_key, confirm_key. case_match; [done|]. cbv zeta.
  assert (∀ s1, f s1 = f s → ∀ m, keeps (E:=ApsError.t) (A:=Z) f m → f (m s1).2 = f s) as Hm.
  { intros s1 H1 m Hk. by rewrite Hk. }
  destruct (RxContext.relayed ctx); [case_match|]; eapply Hm;
    try apply (confirm_with_foot f); try apply (confirm_via_foot f); rx_foot.
Qed.

Lemma on_confirm_key_foot ck ctx sec s : f (on_confirm_key ck ctx sec s) = f s.
Proof.
  unfold on_confirm_key, policy_drop. repeat (case_match; [rx_foot; fail|]).
  match goal with |- context [with_security ?g s] => pose proof (with_security_foot g s) as Hs; destruct (with_security g s) as [[] s1] end;
  cbn [snd] in Hs; rx_foot.
Qed.

(** A command leaves the observer alone, if the frame it may carry does. *)
Lemma run_command_foot inner depth cmd ctx sec view s :
  (∀ b c s', is_some (RxContext.relayed c) = true → f (inner b c s').2 = f s') →
  f (run_command inner depth cmd ctx sec view s).2 = f s.
Proof.
  intros Hi. unfold run_command. destruct cmd; cbn [snd];
    rewrite ?on_transport_key_foot, ?on_verify_key_foot, ?on_confirm_key_foot; try done.
  - unfold on_update_device. rx_foot.
  - rx_foot.
  - unfold on_request_key. rx_foot.
  - unfold on_switch_key, policy_drop. rx_foot.
  - case_match; [apply (forward_foot f)|done].
  - repeat case_match; cbn [snd]; rewrite ?(forward_foot f); try done; by apply Hi.
  - repeat case_match; cbn [snd]; rewrite ?(send_relay_foot f); try done; by apply Hi.
Qed.

Lemma handle_command_foot inner depth buf a b h ctx sec view s :
  (∀ b c s', is_some (RxContext.relayed c) = true → f (inner b c s').2 = f s') →
  f (handle_command inner depth buf a b h ctx sec view s).2 = f s.
Proof.
  intros Hi. unfold handle_command. case_match; [|done]. case_match; [apply (bump_foot f)|].
  assert (∀ s1, f s1 = f s → f (match get_range buf a b with
    | None => (None, s1)
    | Some payload => match decode_exact payload with
       | Err _ => (None, bump ApsStats.malformed s1)
       | Ok cmd => run_command inner depth cmd ctx sec view s1 end end).2 = f s) as Hs.
  { intros s1 <-. destruct (get_range buf a b) as [pl|]; [|done]. destruct (decode_exact pl) as [cmd|].
    - by apply run_command_foot.
    - apply (bump_foot f). }
  apply Hs. match goal with |- f (if ?c then _ else _) = _ => destruct c end; [apply (send_ack_foot f)|done].
Qed.

Lemma unsecure_frame_foot h hl buf ctx s : f (unsecure_frame h hl buf ctx s).2 = f s.
Proof.
  unfold unsecure_frame. case_match; [done|]. cbv zeta.
  destruct (ApsSecurity.unsecure_incoming _ _ _ _ _ _) as [[[u|e] buf1] sec1]; cbn [snd]; [apply rx_security|].
  assert (∀ s1, f s1 = f s → f (if negb (bool_decide (ApsFrameControl.frame_type (ApsHeader.control h) = ApsFrameType.Command) &&
      bool_decide (state s1 = DeviceState.JoinedUnauthorized) && negb (Aib.is_distributed (aib s1)))
    then (None, bump ApsStats.security_dropped s1)
    else
      let '(r, buf2, secs) := ApsSecurity.unsecure_swap_out (security s1) buf1 hl
        (ApsConfig.security_level (config s)) (trust_center_partner s1) in
      match r with
      | Ok (tc, k, a, b) => (Some (buf2, a, b, FrameSecurity.mk SecurityStatus.LinkKey (Some tc) k true),
          push_event (ApsEvent.TrustCenterSwapped (trust_center_partner s1) tc)
            (push_action (ApsAction.Persist LinkKeys) (push_action (ApsAction.Persist AibAttributes)
              (set_aib (Aib.with_trust_center tc (aib (set_security secs s1))) (set_security secs s1)))))
      | Err _ => (None, bump ApsStats.security_dropped (set_security secs s1))
      end).2 = f s) as Hr.
  { intros s1 <-. case_match; [apply (bump_foot f)|].
    destruct (ApsSecurity.unsecure_swap_out _ _ _ _ _) as [[[[[[tc k] a] b]|] buf2] secs]; cbn [snd]; rx_foot. }
  destruct e; try (apply Hr; case_match; rewrite ?(bump_foot f); apply rx_security).
  cbn [snd]. rewrite (bump_foot f). case_match; rewrite ?(push_event_foot f); apply rx_security.
Qed.
End reception.
