(* ===== verification/ApsTransfer.v ===== *)
(** * Fragmented transmissions, from the sender's ASDU to the receiver's

    The blocks a sender cuts ([queue_tx], [build_frame]) and the reassembly of
    the receiver ([handle_fragment]) are the two ends of one protocol.  The
    theorems quantify over what the network does in between: frames may be
    lost, duplicated and reordered, and other operations of the layer and other
    transactions may come in between. *)

From S2P Require Import Prelude Types Status Codec Wire Heapless AuxHeader Ccm SecFrame Keys ApsTables ApsFrame ApsCommand ApsSecurity ApsTypes ApsLayer ApsServices ApsReceive ApsFootprint.
Import Aps Services Receive.

(** ** The blocks of a transmission *)

(** A fragmented transmission as [queue_tx] makes it. *)
Definition fragmented (p : PendingTx.t) : Prop :=
  (0 < PendingTx.block_size p)%nat ∧
  PendingTx.block_count p =
    Z.of_nat ((length (PendingTx.asdu p) + PendingTx.block_size p - 1) / PendingTx.block_size p) ∧
  1 ≤ PendingTx.block_count p ≤ 255 ∧ (length (PendingTx.asdu p) ≤ MAX_ASDU)%nat.

(** The header and payload of block [i]. *)
Definition block_header (p : PendingTx.t) (i : Z) : ApsHeader.t :=
  ApsHeader.with_extended (PendingTx.header p)
    (if i =? 0 then ExtendedHeader.mk Fragmentation.First (PendingTx.block_count p) None
     else ExtendedHeader.mk Fragmentation.Part i None).
Definition block_payload (p : PendingTx.t) (i : Z) : list Z :=
  take (PendingTx.block_size p) (drop (Z.to_nat i * PendingTx.block_size p) (PendingTx.asdu p)).

Section blocks.
Implicit Types p : PendingTx.t.

Lemma blocks_cover p :
  fragmented p →
  ((Z.to_nat (PendingTx.block_count p) - 1) * PendingTx.block_size p < length (PendingTx.asdu p) ≤
   Z.to_nat (PendingTx.block_count p) * PendingTx.block_size p)%nat.
Proof.
  intros (Hb & Hc & H1 & _). rewrite Hc in *. rewrite Nat2Z.id.
  set (n := length (PendingTx.asdu p)) in *. set (b := PendingTx.block_size p) in *.
  pose proof (Nat.div_mod (n + b - 1) b ltac:(lia)). pose proof (Nat.mod_upper_bound (n + b - 1) b ltac:(lia)).
  nia.
Qed.

(** The current block, as [build_frame] cuts it. *)
Lemma block_frame_spec p :
  fragmented p → 0 ≤ PendingTx.block p < PendingTx.block_count p →
  let '(h, a, b) := block_frame p in
  h = block_header p (PendingTx.block p) ∧
  get_range (PendingTx.asdu p) a b = Some (block_payload p (PendingTx.block p)).
Proof.
  intros Hf Hi. pose proof (blocks_cover p Hf) as Hc. destruct Hf as (Hb & Hn & H1 & _). unfold block_frame.
  destruct (Z.eqb_spec (PendingTx.block_count p) 0); [lia|]. split; [done|].
  assert (Z.to_nat (PendingTx.block p) * PendingTx.block_size p < length (PendingTx.asdu p))%nat.
  { eapply Nat.le_lt_trans; [|apply Hc]. apply Nat.mul_le_mono_r. lia. }
  rewrite get_range_Some by lia. unfold block_payload.
  f_equal. destruct (Nat.le_ge_cases (Z.to_nat (PendingTx.block p) * PendingTx.block_size p + PendingTx.block_size p)
    (length (PendingTx.asdu p))).
  - f_equal; lia.
  - rewrite !take_ge; [done|rewrite length_drop; lia..].
Qed.

(** The blocks before [i] are the beginning of the ASDU. *)
Lemma block_payload_snoc p i :
  0 ≤ i →
  take (Z.to_nat i * PendingTx.block_size p) (PendingTx.asdu p) ++ block_payload p i =
  take (Z.to_nat (i + 1) * PendingTx.block_size p) (PendingTx.asdu p).
Proof.
  intros Hi. unfold block_payload. rewrite take_take_drop. f_equal. nia.
Qed.

Lemma all_blocks p :
  fragmented p →
  take (Z.to_nat (PendingTx.block_count p) * PendingTx.block_size p) (PendingTx.asdu p) = PendingTx.asdu p.
Proof. intros Hf. apply take_ge, blocks_cover, Hf. Qed.

Lemma block_payload_nonempty p i :
  fragmented p → 0 ≤ i < PendingTx.block_count p → (1 ≤ length (block_payload p i))%nat.
Proof.
  intros Hf Hi. pose proof (blocks_cover p Hf) as Hc. destruct Hf as (Hb & _). unfold block_payload.
  rewrite length_take, length_drop.
  assert (Z.to_nat i * PendingTx.block_size p < length (PendingTx.asdu p))%nat; [|lia].
  eapply Nat.le_lt_trans; [|apply Hc]. apply Nat.mul_le_mono_r. lia.
Qed.
End blocks.

(** ** What a received frame can do *)

Section reception.
Context {C : Type} {D : ApsDims.t} `{!BlockCipher C} {CT : ConstantTimeEq} {H : Heapless}.
Abbreviation st := (Aps.t C D).
Implicit Types s : st.
Implicit Types inner : list Z → RxContext.t → st → option DataIndication.t * st.

(** The frame decodes to [h] and security processing releases [payload]. *)
Definition opened (buf : list Z) (ctx : RxContext.t) s (h : ApsHeader.t) (payload : list Z) : Prop :=
  ∃ hl buf' a b sec, ApsHeader.decode_prefix buf = Ok (h, hl) ∧
    (unsecure_frame h hl buf ctx s).1 = Some (buf', a, b, sec) ∧ get_range buf' a b = Some payload.

(** An indication that is the payload of the frame itself. *)
Definition whole_frame (buf : list Z) (ctx : RxContext.t) s (d : DataIndication.t) : Prop :=
  ∃ h payload, opened buf ctx s h payload ∧ ApsHeader.fragmentation h = Fragmentation.None ∧
    DataIndication.src d = RxContext.src ctx ∧ DataIndication.counter d = ApsHeader.counter h ∧
    DataIndication.asdu d = payload.

Definition relayed_indication (d : DataIndication.t) : Prop := is_some (DataIndication.relayed d) = true.

Lemma run_command_indication inner depth cmd ctx sec view s d :
  (∀ b c s' d, is_some (RxContext.relayed c) = true → (inner b c s').1 = Some d → relayed_indication d) →
  (run_command inner depth cmd ctx sec view s).1 = Some d → relayed_indication d.
Proof.
  intros Hi. unfold run_command. destruct cmd; cbn [fst]; try done; repeat case_match; try done;
    apply Hi; done.
Qed.

Lemma handle_command_indication inner depth buf a b h ctx sec view s d :
  (∀ b c s' d, is_some (RxContext.relayed c) = true → (inner b c s').1 = Some d → relayed_indication d) →
  (handle_command inner depth buf a b h ctx sec view s).1 = Some d → relayed_indication d.
Proof.
  intros Hi. unfold handle_command. case_match; [|done]. case_match; [done|].
  destruct (get_range buf a b) as [pl|]; [|done]. destruct (decode_exact pl); [|done].
  by apply run_command_indication.
Qed.

Lemma deliver_frame_cases {X} (f : st → X) `{!RxFootprint f} buf a b h ctx sec dl e cl pr s :
  f (deliver_frame buf a b h ctx sec dl e cl pr s).2 = f s ∧
  ∀ d, (deliver_frame buf a b h ctx sec dl e cl pr s).1 = Some d →
    get_range buf a b = Some (DataIndication.asdu d) ∧ DataIndication.src d = RxContext.src ctx ∧
    DataIndication.counter d = ApsHeader.counter h ∧ DataIndication.relayed d = RxContext.relayed ctx.
Proof.
  unfold deliver_frame. cbv zeta.
  match goal with |- context [let '(_, _) := ?m in _] => assert (f m.2 = f s) as Hm; [|destruct m as [dup s1]] end.
  { case_match; [done|]. destruct (DuplicateRejectionTable.check_and_record _ _ _ _ _). cbn. apply rx_dedup. }
  cbn [snd] in Hm.
  destruct dup.
  - split; [|done]. cbn [snd]. case_match; rewrite ?(send_ack_foot f), ?(bump_foot f); done.
  - match goal with |- context [if ?c then send_ack h None ctx sec s1 else s1] => set (s2 := if c then _ else s1) end.
    assert (f s2 = f s) as H2 by (unfold s2; case_match; rewrite ?(send_ack_foot f); done).
    destruct (get_range buf a b) as [pl|] eqn:Hr; [|done]. split; [done|]. intros d [= <-]. done.
Qed.

Lemma handle_data_cases {X} (f : st → X) `{!RxFootprint f} buf a b h ctx sec s :
  (f (handle_data buf a b h ctx sec s).2 = f s ∧
   ∀ d, (handle_data buf a b h ctx sec s).1 = Some d → relayed_indication d ∨
     (get_range buf a b = Some (DataIndication.asdu d) ∧ ApsHeader.fragmentation h = Fragmentation.None ∧
      DataIndication.src d = RxContext.src ctx ∧ DataIndication.counter d = ApsHeader.counter h ∧
      DataIndication.relayed d = RxContext.relayed ctx)) ∨
  (RxContext.relayed ctx = None ∧ ApsHeader.fragmentation h ≠ Fragmentation.None ∧
   ∃ dl, handle_data buf a b h ctx sec s = handle_fragment buf a b h ctx sec dl s).
Proof.
  unfold handle_data. cbv zeta.
  destruct (admit_unauthorized s _ ctx sec) as [ctx1|] eqn:Ha; [|left; cbn; by rewrite (bump_foot f)].
  assert (ctx1 = ctx ∨ is_some (RxContext.relayed ctx1) = true ∧ RxContext.src ctx1 = RxContext.src ctx) as Hctx.
  { unfold admit_unauthorized in Ha. repeat case_match; simplify_eq; auto. }
  case_match; [left; cbn; by rewrite (bump_foot f)|].
  destruct (stale_partner s sec); [left; cbn; by rewrite (push_event_foot f), (bump_foot f)|].
  destruct (ApsHeader.src_endpoint h) as [e|]; [|left; cbn; by rewrite (bump_foot f)].
  destruct (ApsHeader.cluster h) as [cl|]; [|left; cbn; by rewrite (bump_foot f)].
  destruct (ApsHeader.profile h) as [pr|]; [|left; cbn; by rewrite (bump_foot f)].
  destruct (delivery_of s h ctx1) as [[dl|]|]; [|left; done|left; cbn; by rewrite (bump_foot f)].
  destruct (bool_decide_reflect (ApsHeader.fragmentation h = Fragmentation.None)) as [Hf|Hf]; cbn [negb].
  - left. destruct (deliver_frame_cases f buf a b h ctx1 sec dl e cl pr s) as [Hs Hd]. split; [done|].
    intros d Hsome. destruct (Hd d Hsome) as (Hp & Hsrc & Hc & Hr). destruct Hctx as [->|[Hrel Hsc]].
    + right. by rewrite Hp.
    + left. unfold relayed_indication. by rewrite Hr.
  - destruct (is_some (RxContext.relayed ctx1)) eqn:Hrel; cbn [orb].
    + left. rewrite orb_true_r. cbn. by rewrite (bump_foot f).
    + destruct Hctx as [->|[? _]]; [|done]. case_match; [left; cbn; by rewrite (bump_foot f)|].
      right. split_and!; [by destruct (RxContext.relayed ctx)|done|eauto].
Qed.

(** A received frame leaves an observer alone, unless it is a fragment; what it
    delivers comes from a relayed frame, is its own payload, or is reassembled. *)
Lemma process_frame_cases {X} (f : st → X) `{!RxFootprint f} inner depth view buf ctx s :
  (∀ b c s', is_some (RxContext.relayed c) = true →
     f (inner b c s').2 = f s' ∧ ∀ d, (inner b c s').1 = Some d → relayed_indication d) →
  (f (process_frame_with inner depth view buf ctx s).2 = f s ∧
   ∀ d, (process_frame_with inner depth view buf ctx s).1 = Some d →
     relayed_indication d ∨ (whole_frame buf ctx s d ∧ DataIndication.relayed d = RxContext.relayed ctx)) ∨
  (RxContext.relayed ctx = None ∧ ∃ h buf' a b sec dl payload s1,
   ApsHeader.fragmentation h ≠ Fragmentation.None ∧ opened buf ctx s h payload ∧
   get_range buf' a b = Some payload ∧ f s1 = f s ∧
   process_frame_with inner depth view buf ctx s = handle_fragment buf' a b h ctx sec dl s1).
Proof.
  intros Hi. unfold process_frame_with.
  destruct (ApsHeader.decode_prefix buf) as [[h hl]|] eqn:Hd; [|left; cbn; by rewrite (bump_foot f)].
  destruct (unsecure_frame h hl buf ctx s) as [[[[[buf' a] b] sec]|] s1] eqn:Hu.
  2:{ left. split; [|done]. pose proof (unsecure_frame_foot f h hl buf ctx s) as Hf. by rewrite Hu in Hf. }
  assert (f s1 = f s) as Hs1.
  { pose proof (unsecure_frame_foot f h hl buf ctx s) as Hf. by rewrite Hu in Hf. }
  assert (∀ pl, get_range buf' a b = Some pl → opened buf ctx s h pl) as Ho.
  { intros pl Hpl. exists hl, buf', a, b, sec. by rewrite Hu. }
  destruct (ApsFrameControl.frame_type (ApsHeader.control h)).
  - match goal with |- context [handle_data buf' a b h ctx sec ?x] => set (s2 := x) end.
    assert (f s2 = f s) as Hs2 by (unfold s2; case_match; by rewrite (bump_foot f)).
    destruct (handle_data_cases f buf' a b h ctx sec s2) as [[Hs Hind]|(Hr & Hf & dl & He)].
    + left. split; [congruence|]. intros d Hsome. destruct (Hind d Hsome) as [?|(Hp & Hf & Hsrc & Hc & Hr)]; [by left|].
      right. split; [|done]. exists h, (DataIndication.asdu d). auto.
    + destruct (get_range buf' a b) as [pl|] eqn:Hp.
      * right. split; [done|]. exists h, buf', a, b, sec, dl, pl, s2. auto.
      * left. rewrite He. unfold handle_fragment. rewrite Hp. repeat case_match; done.
  - left. split; [rewrite (handle_command_foot f); [done|intros ??? Hc; by apply (Hi _ _ _ Hc)]|].
    intros d Hsome. left. eapply handle_command_indication; [|done]. intros ???? Hc. by apply (Hi _ _ _ Hc).
  - left. cbn. split; [by rewrite (ack_foot f)|done].
  - left. cbn. split; [by rewrite (bump_foot f)|done].
Qed.

Lemma on_nwk_data_cases {X} (f : st → X) `{!RxFootprint f} buf src dst ieee sec lqi view s :
  let ctx := RxContext.mk src dst (match ieee with Some i => Some i | None => NwkView.ieee_of view src end) sec lqi None in
  (f (on_nwk_data buf src dst ieee sec lqi view s).2 = f s ∧
   ∀ d, (on_nwk_data buf src dst ieee sec lqi view s).1 = Some d →
     relayed_indication d ∨ whole_frame buf ctx s d) ∨
  (∃ h buf' a b fs dl payload s1,
   ApsHeader.fragmentation h ≠ Fragmentation.None ∧ opened buf ctx s h payload ∧
   get_range buf' a b = Some payload ∧ f s1 = f s ∧
   on_nwk_data buf src dst ieee sec lqi view s = handle_fragment buf' a b h ctx fs dl s1).
Proof.
  intros ctx. unfold on_nwk_data, process_frame. fold ctx.
  destruct (process_frame_cases f (process_frame_with (λ _ _ s, (None, s)) (0 + 1) view) 0 view buf ctx s)
    as [[Hs Hd]|(_ & Hr)]; [|left|right; naive_solver].
  - intros b c s' Hc. destruct (process_frame_cases f (λ _ _ s, (None, s)) (0 + 1) view b c s') as [[Hs Hd]|(Hn & _)];
      [done| |by rewrite Hn in Hc].
    split; [done|]. intros d Hsome. destruct (Hd d Hsome) as [?|[_ Hr]]; [done|]. unfold relayed_indication. by rewrite Hr.
  - split; [done|]. intros d Hsome. destruct (Hd d Hsome) as [?|[? _]]; auto.
Qed.
End reception.

(** ** Frames without APS security *)

Section plain.
Context {C : Type} {D : ApsDims.t} `{!BlockCipher C} {CT : ConstantTimeEq} {H : Heapless}.
Abbreviation st := (Aps.t C D).
Implicit Types s : st.

Definition plain_image (h : ApsHeader.t) (payload : list Z) : list Z := aps_header_wire h ++ payload.

Lemma secure_frame_plain h payload partner k e s :
  aps_header_wf h → (partner = None ∨ ApsFrameControl.security (ApsHeader.control h) = false) →
  (length (plain_image h payload) ≤ MAX_APS_FRAME)%nat →
  secure_frame h payload partner k e s = (Ok (plain_image h payload), s).
Proof.
  intros Hwf Hp Hl. unfold secure_frame, plain_image in *. rewrite length_app in Hl.
  assert ((if ApsFrameControl.security (ApsHeader.control h) then partner else None) = None) as ->
    by (destruct Hp as [->| ->]; [by destruct (ApsFrameControl.security _)|done]).
  rewrite (aps_header_len h Hwf), vec_resize_spec, (proj2 (Nat.leb_le _ _)) by lia.
  rewrite resize_nil. set (n := length (aps_header_wire h)).
  destruct (aps_header_writes h Hwf (Writer.new (replicate (n + 0 + length payload + 0) 0))) as [Hok _].
  { unfold Writer.wf, Writer.new. simpl. lia. }
  cbn [encode ApsHeader.Encode_t] in *.
  rewrite Hok by (unfold Writer.remaining; simpl; rewrite length_replicate; lia).
  unfold advance, Writer.new. cbn [Writer.buf Writer.pos].
  rewrite (proj2 (Nat.leb_le _ _)) by (rewrite length_splice; rewrite length_replicate; fold n; lia).
  f_equal. f_equal. replace (n + 0)%nat with (0 + length (aps_header_wire h))%nat by (unfold n; lia).
  rewrite splice_splice by (rewrite length_replicate; fold n; lia). unfold splice. cbn [take app Nat.add].
  rewrite drop_ge, app_nil_r; [done|]. rewrite length_replicate, length_app. fold n. lia.
Qed.

Lemma decode_plain h payload :
  aps_header_wf h →
  ApsHeader.decode_prefix (plain_image h payload) = Ok (h, length (aps_header_wire h)).
Proof.
  intros Hwf. unfold ApsHeader.decode_prefix, Reader.new, plain_image.
  pose proof (aps_header_decodes h Hwf [] payload) as Hd. rewrite app_nil_l in Hd. cbn [length] in Hd. by rewrite Hd.
Qed.

Lemma get_range_plain h payload :
  get_range (plain_image h payload) (length (aps_header_wire h)) (length (plain_image h payload)) = Some payload.
Proof.
  unfold plain_image. rewrite get_range_Some by (rewrite length_app; lia).
  rewrite drop_app_length, length_app. f_equal. apply take_ge. lia.
Qed.

(** Security processing of a frame without APS security. *)
Lemma unsecure_plain h hl buf ctx s :
  ApsFrameControl.security (ApsHeader.control h) = false →
  unsecure_frame h hl buf ctx s = (Some (buf, hl, length buf,
    FrameSecurity.mk (if RxContext.nwk_secured ctx then SecurityStatus.NwkKey else SecurityStatus.Unsecured)
      None KeyIdentifier.Data false), s).
Proof. intros Hs. unfold unsecure_frame. by rewrite Hs. Qed.

(** Such a frame opens to what was put in. *)
Lemma opened_plain h payload ctx s h' payload' :
  aps_header_wf h → ApsFrameControl.security (ApsHeader.control h) = false →
  opened (plain_image h payload) ctx s h' payload' → h' = h ∧ payload' = payload.
Proof.
  intros Hwf Hs (hl & buf & a & b & sec & Hd & Hu & Hg). rewrite decode_plain in Hd by done. injection Hd as <- <-.
  rewrite unsecure_plain in Hu by done. injection Hu as <- <- <- <-. rewrite get_range_plain in Hg. by injection Hg.
Qed.
End plain.

(** ** Reassembly *)

Section reassembly.
Context {C : Type} {D : ApsDims.t} `{!BlockCipher C} {CT : ConstantTimeEq} {H : Heapless}.
Abbreviation st := (Aps.t C D).
Implicit Types s : st.

(** The transmission [p] from [sender]. *)
Context (p : PendingTx.t) (sender : Z).
Context (Hp : fragmented p).

Definition tx_counter : Z := ApsHeader.counter (PendingTx.header p).

(** A frame from the sender with the transmission's counter is one of its
    blocks: the sender uses the counter for nothing else while the receiver
    remembers it. *)
Definition genuine (buf : list Z) (ctx : RxContext.t) s : Prop :=
  ∀ h payload, opened buf ctx s h payload → RxContext.src ctx = sender → ApsHeader.counter h = tx_counter →
    ∃ i, 0 ≤ i < PendingTx.block_count p ∧ h = block_header p i ∧ payload = block_payload p i.

(** What a reassembly of the transmission holds. *)
Definition partial (r : Reassembly.t) : Prop :=
  Reassembly.block_count r = PendingTx.block_count p ∧
  1 ≤ Reassembly.next_block r ≤ PendingTx.block_count p ∧
  Reassembly.buf r = take (Z.to_nat (Reassembly.next_block r) * PendingTx.block_size p) (PendingTx.asdu p) ∧
  (Reassembly.complete r = true ↔ Reassembly.next_block r = PendingTx.block_count p).

Definition receiving (o : option Reassembly.t) : Prop :=
  ∀ r, o = Some r → Reassembly.src r = sender → ApsHeader.counter (Reassembly.header r) = tx_counter → partial r.

Lemma receiving_expire s : receiving (reassembly s) → receiving (reassembly (expire_reassembly s)).
Proof. unfold expire_reassembly. intros Hr. destruct (reassembly s) eqn:E; [|by rewrite E]. case_match; [done|by rewrite E]. Qed.

Lemma reassembled_asdu dl s d :
  reassembled_indication dl s = Some d →
  ∃ r, reassembly s = Some r ∧ DataIndication.src d = Reassembly.src r ∧
    DataIndication.counter d = ApsHeader.counter (Reassembly.header r) ∧
    DataIndication.asdu d = Reassembly.buf r.
Proof.
  unfold reassembled_indication. destruct (reassembly s) as [r|]; [|done]. cbn.
  destruct (ApsHeader.src_endpoint _), (ApsHeader.profile _), (ApsHeader.cluster _); try done.
  intros [= <-]. by exists r.
Qed.

Lemma extend_eq n (b x y : list Z) : vec_extend_from_slice n b x = Some y → y = b ++ x.
Proof. rewrite vec_extend_spec. case_match; naive_solver. Qed.

(** A complete reassembly of the transmission is its ASDU. *)
Lemma partial_complete r : partial r → Reassembly.complete r = true → Reassembly.buf r = PendingTx.asdu p.
Proof. intros (_ & _ & -> & Hc) Hr. apply Hc in Hr as ->. by apply all_blocks. Qed.

(** What a step leaves: the reassembly and the indication. *)
Definition faithful (o : option DataIndication.t) : Prop :=
  ∀ d, o = Some d → DataIndication.src d = sender → DataIndication.counter d = tx_counter →
    DataIndication.asdu d = PendingTx.asdu p.

Definition block_of (h : ApsHeader.t) (ctx : RxContext.t) (payload : list Z) : Prop :=
  RxContext.src ctx = sender → ApsHeader.counter h = tx_counter →
    ∃ i, 0 ≤ i < PendingTx.block_count p ∧ h = block_header p i ∧ payload = block_payload p i.

Lemma first_block_faithful payload ext h ctx sec dl s :
  ApsHeader.extended h = Some ext →
  (ExtendedHeader.fragmentation ext = Fragmentation.First ∨ ExtendedHeader.block_number ext = 0) →
  block_of h ctx payload → receiving (reassembly s) →
  receiving (reassembly (first_block payload ext h ctx sec dl s).2) ∧
  faithful (first_block payload ext h ctx sec dl s).1.
Proof.
  intros He Hz Hb Hr. unfold first_block. cbv zeta.
  case_match; [split; [cbn; by rewrite (send_ack_foot reassembly)|done]|].
  case_match; [split; [done|done]|]. case_match eqn:Hbad; [split; done|].
  destruct (vec_extend_from_slice MAX_ASDU [] payload) as [b|] eqn:Hx; [|split; done]. apply extend_eq in Hx. simpl in Hx.
  subst b. apply orb_false_iff in Hbad as [Hn%Z.eqb_neq _].
  assert (∀ next dl' c, next = 1 → (c = true ↔ ExtendedHeader.block_number ext = 1) →
    receiving (Some (Reassembly.mk (RxContext.src ctx) (RxContext.src_ieee ctx) h (ExtendedHeader.block_number ext)
      next payload dl' c (FrameSecurity.status sec) (RxContext.lqi ctx)))) as Hrec.
  { intros next dl' c -> Hc r [= <-] Hs Hcnt. cbn in Hs, Hcnt. destruct (Hb Hs Hcnt) as (i & Hi & -> & ->).
    cbn in He. injection He as <-. assert (i = 0) as Hi0.
    { destruct (Z.eqb_spec i 0); [done|]. cbn in Hz. destruct Hz; [done|lia]. }
    rewrite Hi0 in *. cbn in *.
    split_and!; cbn; [done|lia|lia| |].
    - apply (block_payload_snoc p 0); lia.
    - rewrite Hc. lia. }
  cbn [Reassembly.block_count]. destruct (Z.eqb_spec (ExtendedHeader.block_number ext) 1) as [Hone|Hone]; cbn [snd fst].
  - assert (∀ s' r, reassembly s' = Some r → receiving (Some r) → Reassembly.complete r = true →
      faithful (reassembled_indication dl s')) as Hfin.
    { intros s' r Hs' Hrec' Hc d Hd Hs Hcnt. apply reassembled_asdu in Hd as (r' & Hr' & E1 & E2 & ->).
      rewrite Hs' in Hr'. injection Hr' as <-. apply partial_complete; [|done]. apply Hrec'; congruence. }
    split; [apply Hrec; [done|by rewrite Hone]|]. eapply Hfin; [done|apply Hrec; [done|by rewrite Hone]|done].
  - split; [|done]. apply Hrec; [done|]. naive_solver.
Qed.

Lemma next_block_faithful block payload ext h ctx sec dl s :
  ApsHeader.extended h = Some ext → block ≠ 0 → ExtendedHeader.fragmentation ext = Fragmentation.Part →
  ExtendedHeader.block_number ext = block →
  block_of h ctx payload → receiving (reassembly s) →
  receiving (reassembly (next_block block payload ext h ctx sec dl s).2) ∧
  faithful (next_block block payload ext h ctx sec dl s).1.
Proof.
  intros He Hnz Hpart Hn Hb Hr. unfold next_block. cbv zeta.
  destruct (same_transaction ctx h (reassembly s)) eqn:Hsame; cbn [negb]; [|by split].
  destruct (reassembly s) as [r|] eqn:Hrs; [|split; [cbn; by rewrite Hrs|done]].
  case_match; [split; [cbn; by rewrite (send_ack_foot reassembly), Hrs|done]|].
  case_match eqn:Hw; [split; [cbn; by rewrite Hrs|done]|].
  apply orb_false_iff in Hw as [Hnext%negb_false_iff%Z.eqb_eq Hlt%Z.leb_gt].
  destruct (vec_extend_from_slice MAX_ASDU (Reassembly.buf r) payload) as [b|] eqn:Hx; [|split; done].
  apply extend_eq in Hx as ->. cbn in Hsame. apply andb_true_iff in Hsame as [Hsrc%Z.eqb_eq Hcnt%Z.eqb_eq].
  set (last := sat_add 8 block 1 =? Reassembly.block_count r).
  set (r' := Reassembly.advance _ _ _ last r).
  assert (receiving (Some r')) as Hrec.
  { intros r0 [= <-] Hs Hc. cbn in Hs, Hc. destruct (Hr r eq_refl Hs Hc) as (Hbc & Hnb & Hbuf & Hcomp).
    destruct (Hb ltac:(congruence) ltac:(congruence)) as (i & Hi & -> & ->). cbn in He. injection He as <-.
    assert (i = block) as <-. { destruct (Z.eqb_spec i 0); [done|]. done. }
    rewrite Hbc in Hlt. pose proof Hp as (_ & _ & Hle & _).
    assert (sat_add 8 i 1 = i + 1) as Hsat by (unfold sat_add; cbn; lia).
    unfold last in r'. split_and!; cbn; rewrite ?Hsat, ?Hbc; [done|lia|lia| |].
    - rewrite Hbuf, <- Hnext. apply block_payload_snoc. lia.
    - by rewrite Z.eqb_eq. }
  destruct last eqn:Hlast; cbn [fst snd].
  - split; [change (receiving (reassembly (send_ack h (Some (ack_ext (ExtendedHeader.fragmentation ext) block)) ctx sec (set_reassembly (Some r') s))));
      by rewrite (send_ack_foot reassembly)|].
    intros d Hd Hs Hc. apply reassembled_asdu in Hd as (r0 & Hr0 & E1 & E2 & ->).
    change (reassembly (send_ack h (Some (ack_ext (ExtendedHeader.fragmentation ext) block)) ctx sec (set_reassembly (Some r') s)) = Some r0) in Hr0.
    rewrite (send_ack_foot reassembly) in Hr0. injection Hr0 as <-.
    apply partial_complete; [apply Hrec; congruence|done].
  - split; [by rewrite (send_ack_foot reassembly)|done].
Qed.

Lemma handle_fragment_faithful buf a b h ctx sec dl payload s :
  get_range buf a b = Some payload → block_of h ctx payload → receiving (reassembly s) →
  receiving (reassembly (handle_fragment buf a b h ctx sec dl s).2) ∧
  faithful (handle_fragment buf a b h ctx sec dl s).1.
Proof.
  intros Hg Hb Hr. unfold handle_fragment. destruct (ApsHeader.extended h) as [ext|] eqn:He; [|by split].
  rewrite Hg. pose proof (receiving_expire s Hr) as Hr1. destruct (ExtendedHeader.fragmentation ext) eqn:Hf; [by split|..]; cbn.
  - apply first_block_faithful; auto.
  - destruct (Z.eqb_spec (ExtendedHeader.block_number ext) 0).
    + apply first_block_faithful; auto.
    + apply next_block_faithful; auto.
Qed.

Definition context_of (src dst : Z) (ieee : option Z) (secured : bool) (lqi : Z) (view : NwkView.t) : RxContext.t :=
  RxContext.mk src dst (match ieee with Some i => Some i | None => NwkView.ieee_of view src end) secured lqi None.

(** One operation of the receiver and what it hands to the application.  The
    network may lose, repeat and reorder the blocks and mix in other frames. *)
Inductive step : st → option DataIndication.t → st → Prop :=
  | receive_step s buf src dst ieee secured lqi view :
      genuine buf (context_of src dst ieee secured lqi view) s →
      step s (on_nwk_data buf src dst ieee secured lqi view s).1 (on_nwk_data buf src dst ieee secured lqi view s).2
  | poll_step s t : step s None (poll_timers t s)
  | state_step s short v : step s None (set_network_state short v s)
  | confirm_step s handle status : step s None (on_nwk_data_confirm handle status s)
  | commit_step s partner r : step s None (commit_counter_reservation partner r s)
  | abort_step s partner : step s None (abort_counter_reservation partner s)
  | request_step s req view : step s None (data_request req view s).2
  | service_step s E A (m : SE st E A) : keeps reassembly m → step s None (m s).2.

Inductive history (s : st) : list (option DataIndication.t) → st → Prop :=
  | history_start : history s [] s
  | history_step os s1 o s2 : history s os s1 → step s1 o s2 → history s (os ++ [o]) s2.

Lemma fail_all_foot {X} (f : st → X) `{!RxFootprint f} status s : f (fail_all_pending status s) = f s.
Proof.
  unfold fail_all_pending. rewrite fp_requests. generalize (length (pending s)) as n.
  intros n. induction n as [|n IH]; [done|]. cbn. by rewrite (complete_foot f).
Qed.

Lemma step_receiving s o s' :
  step s o s' → receiving (reassembly s) →
  receiving (reassembly s') ∧ (∀ d, o = Some d → relayed_indication d ∨ faithful o).
Proof.
  intros Hs Hr. destruct Hs.
  - destruct (on_nwk_data_cases reassembly buf src dst ieee secured lqi view s)
      as [[E Hd]|(h & buf' & a & b & fs & dl & pl & s1 & Hf & Ho & Hg & E & ->)].
    + rewrite E. split; [done|]. intros d Hsome. destruct (Hd d Hsome) as [?|(h & pl & Ho & Hf & Es & Ec & Ea)]; [by left|].
      right. intros d' Hd' Hsrc Hcnt. rewrite Hsome in Hd'. injection Hd' as <-.
      match goal with Hgen : genuine _ _ _ |- _ => destruct (Hgen h pl Ho ltac:(cbn in *; congruence) ltac:(congruence)) as (i & _ & -> & _) end.
      cbn in Hf. by destruct (i =? 0).
    + match goal with Hgen : genuine _ _ _ |- _ => specialize (Hgen h pl Ho) end.
      destruct (handle_fragment_faithful buf' a b h (context_of src dst ieee secured lqi view) fs dl pl s1)
        as [Hrec Hfa]; [done|done|by rewrite E|]. split; [exact Hrec|]. intros d _. by right.
  - unfold poll_timers. split; [|done]. rewrite (service_foot reassembly), (reservations_foot reassembly).
    apply receiving_expire. rewrite (expire_acks_foot reassembly). by case_match.
  - unfold set_network_state. split; [|done]. case_match; [done|]. done.
  - by rewrite (confirm_foot reassembly).
  - unfold commit_counter_reservation. by rewrite (service_foot reassembly), (release_foot reassembly).
  - done.
  - by rewrite (data_request_foot reassembly).
  - split; [|done]. match goal with Hk : keeps _ _ |- _ => by rewrite Hk end.
Qed.

(** C6. Fragmentation is sound: whatever the network does to the blocks of a
    transmission (loss, repetition, reordering, interleaving with other
    transactions and operations of the receiver, timeouts, leaving the
    network), every ASDU the receiver delivers for it is the sender's, octet
    for octet: never a part of it, never with blocks twice, missing or out of
    order. *)
Theorem fragments_reassemble s os s' d :
  reassembly s = None → history s os s' → Some d ∈ os →
  DataIndication.src d = sender → DataIndication.counter d = tx_counter → DataIndication.relayed d = None →
  DataIndication.asdu d = PendingTx.asdu p.
Proof.
  intros Hn Hh.
  assert (receiving (reassembly s') ∧ (Some d ∈ os → relayed_indication d ∨ faithful (Some d))) as [_ Hd].
  { induction Hh as [|os s1 o s2 Hh IH Hs]; [rewrite Hn; split; [by intros ? [=]|by intros ?%not_elem_of_nil]|]. destruct IH as [Hr Hd].
    destruct (step_receiving s1 o s2 Hs Hr) as [Hr2 Hd2]. split; [done|].
    intros [Hin|Hin%list_elem_of_singleton]%elem_of_app; [auto|]. rewrite Hin. by apply Hd2. }
  intros Hin Hsrc Hcnt Hrel. destruct (Hd Hin) as [Hx|Hx]; [|by apply Hx].
  unfold relayed_indication in Hx. by rewrite Hrel in Hx.
Qed.
End reassembly.

(** ** A run *)

Definition view_none : NwkView.t := NwkView.mk (λ _, None) (λ _, None) (λ _, None).

Section sample.
Definition sample_dims : ApsDims.t := ApsDims.Dims 2 2 2 2.
Definition sample_asdu : list Z := Z.of_nat <$> seq 0 100.
Definition sample_tx : PendingTx.t :=
  pending_entry {|
      TxParams.request := 1; TxParams.kind := TxKind.Data; TxParams.dst := 0x22; TxParams.partner := None;
      TxParams.key_id := KeyIdentifier.Data; TxParams.extended_nonce := false;
      TxParams.header := ApsHeader.with_ack_request (ApsHeader.data (Addressing.Endpoint 1) 6 0x0104 1 7) true;
      TxParams.nwk_secure := true; TxParams.radius := None; TxParams.alias := None; TxParams.ack := true;
      TxParams.post := None; TxParams.wrap := None |} sample_asdu 2 80.
Definition sample_receiver : Aps.t Z sample_dims :=
  set_network_state 0x22 DeviceState.JoinedAuthorized (new 2 ApsConfig.default).

Definition sample_frame (i : Z) : list Z := plain_image (block_header sample_tx i) (block_payload sample_tx i).
Definition sample_receive (i : Z) (r : Aps.t Z sample_dims) : option DataIndication.t * Aps.t Z sample_dims :=
  on_nwk_data (sample_frame i) 0x11 0x22 None true 200 view_none r.

Lemma sample_fragmented : fragmented sample_tx.
Proof. unfold fragmented. vm_compute. repeat split; lia || congruence. Qed.

Lemma sample_genuine i (r : Aps.t Z sample_dims) :
  i = 0 ∨ i = 1 → genuine sample_tx 0x11 (sample_frame i) (context_of 0x11 0x22 None true 200 view_none) r.
Proof.
  intros Hi h pl Ho _ _. apply opened_plain in Ho as [-> ->].
  - exists i. split; [|done]. change (PendingTx.block_count sample_tx) with 2. lia.
  - destruct Hi as [-> | ->]; unfold aps_header_wf, addressing_wf, uint; cbn; repeat split; done || lia.
  - done.
Qed.

Lemma sample_step os i r :
  i = 0 ∨ i = 1 → history sample_tx 0x11 sample_receiver os r →
  history sample_tx 0x11 sample_receiver (os ++ [(sample_receive i r).1]) (sample_receive i r).2.
Proof. intros Hi Hh. eapply history_step; [done|]. apply receive_step, sample_genuine, Hi. Qed.

(** The second block arrives too early and both arrive twice. *)
Lemma fragments_reassemble_witness :
  let r1 := (sample_receive 1 sample_receiver).2 in
  let r2 := (sample_receive 0 r1).2 in
  let r3 := (sample_receive 0 r2).2 in
  let '(o, r4) := sample_receive 1 r3 in
  (sample_receive 1 r4).1 = None ∧ ∃ d, o = Some d ∧ DataIndication.asdu d = PendingTx.asdu sample_tx.
Proof.
  intros r1 r2 r3. destruct (sample_receive 1 r3) as [o r4] eqn:E.
  assert (∃ d, o = Some d) as [d ->].
  { change o with (o, r4).1. rewrite <- E. eexists. vm_compute. reflexivity. }
  split.
  - change r4 with (Some d, r4).2. rewrite <- E. vm_compute. reflexivity.
  - exists d. split; [done|].
    pose proof (sample_step _ 1 r3 ltac:(auto) (sample_step _ 0 r2 ltac:(auto) (sample_step _ 0 r1 ltac:(auto)
      (sample_step _ 1 sample_receiver ltac:(auto) (history_start _ _ _))))) as Hh.
    rewrite E in Hh.
    assert (d = default d (sample_receive 1 r3).1) as Hd by (by rewrite E).
    refine (fragments_reassemble sample_tx 0x11 sample_fragmented sample_receiver _ _ d eq_refl Hh _ _ _ _).
    + apply elem_of_app. right. by apply list_elem_of_singleton.
    + rewrite Hd. vm_compute. reflexivity.
    + rewrite Hd. vm_compute. reflexivity.
    + rewrite Hd. vm_compute. reflexivity.
Defined.
End sample.
