(* ===== verification/ApsExchange.v ===== *)
(** * A fragmented transfer over a working link

    The sender's [data_request], the receiver's reassembly and the
    acknowledgements between them, composed: over a link that delivers every
    frame, the blocks are exchanged one at a time until the receiver has
    delivered the ASDU, once, and the sender has confirmed the request. *)

From S2P Require Import Prelude Types Status Codec Wire Heapless AuxHeader Ccm SecFrame Keys ApsTables ApsFrame ApsCommand ApsSecurity ApsTypes ApsLayer ApsServices ApsReceive ApsFootprint ApsTransfer.
Import Aps Services Receive.

(** ** The blocks of an unsecured transmission *)

(** A fragmented unicast without APS security, as [data_request] queues it. *)
Record transmission (p : PendingTx.t) (dst ep : Z) : Prop := {
  tr_fragmented : fragmented p;
  tr_header : aps_header_wf (PendingTx.header p);
  tr_plain : ApsHeader.extended (PendingTx.header p) = None;
  tr_type : ApsFrameControl.frame_type (ApsHeader.control (PendingTx.header p)) = ApsFrameType.Data;
  tr_mode : ApsFrameControl.delivery_mode (ApsHeader.control (PendingTx.header p)) = DeliveryMode.Unicast;
  tr_security : ApsFrameControl.security (ApsHeader.control (PendingTx.header p)) = false;
  tr_ack_request : ApsFrameControl.ack_request (ApsHeader.control (PendingTx.header p)) = true;
  tr_endpoint : ApsHeader.destination (PendingTx.header p) = Some (Addressing.Endpoint ep);
  tr_fits : (length (aps_header_wire (PendingTx.header p)) + 2 + PendingTx.block_size p ≤ MAX_APS_FRAME)%nat;
  tr_kind : PendingTx.kind p = TxKind.Data;
  tr_partner : PendingTx.partner p = None;
  tr_wrap : PendingTx.wrap p = None;
  tr_post : PendingTx.post p = None;
  tr_ack : PendingTx.ack p = true;
  tr_dst : PendingTx.dst p = dst;
  tr_unicast : ShortAddress.is_unicast dst = true;
  tr_secure : PendingTx.nwk_secure p = true
}.

Definition block_image (p : PendingTx.t) (i : Z) : list Z := plain_image (block_header p i) (block_payload p i).

Section blocks.
Context (p : PendingTx.t) (dst ep : Z) (Hp : transmission p dst ep).

Lemma block_header_wf i : 0 ≤ i < PendingTx.block_count p → aps_header_wf (block_header p i).
Proof.
  intros Hi. destruct (tr_fragmented _ _ _ Hp) as (_ & _ & Hc & _).
  destruct (tr_header _ _ _ Hp) as (Hm & Hx & Ha & Hn & He).
  unfold block_header, aps_header_wf, addressing_wf, is_ack, ApsHeader.has_addressing in *. cbn in *.
  rewrite (tr_type _ _ _ Hp) in *. split; [done|]. split; [done|]. split; [exact Ha|]. split; [exact Hn|].
  destruct (Z.eqb_spec i 0); cbn; unfold uint; repeat split; lia.
Qed.

Lemma length_block_image i :
  0 ≤ i < PendingTx.block_count p → (length (block_image p i) ≤ MAX_APS_FRAME)%nat.
Proof.
  intros Hi. unfold block_image, plain_image. rewrite length_app.
  pose proof (tr_fits _ _ _ Hp) as Hf. rewrite <- (aps_header_len _ (tr_header _ _ _ Hp)) in Hf.
  rewrite <- (aps_header_len _ (block_header_wf i Hi)).
  assert (length (block_payload p i) ≤ PendingTx.block_size p)%nat by (unfold block_payload; rewrite length_take; lia).
  unfold ApsHeader.encoded_len in *. rewrite (tr_plain _ _ _ Hp) in Hf. cbn in *.
  unfold ApsHeader.has_addressing in *. cbn. destruct (i =? 0); cbn; unfold MAX_APS_FRAME in *; lia.
Qed.
End blocks.

(** ** The receiver *)

Section receiver.
Context {C : Type} {D : ApsDims.t} `{!BlockCipher C} {CT : ConstantTimeEq} {H : Heapless}.
Abbreviation st := (Aps.t C D).
Implicit Types r : st.
Context (p : PendingTx.t) (src dst ep lqi : Z) (view : NwkView.t).
Context (Hp : transmission p dst ep) (Hq : (0 < ApsDims.Queue D)%nat).

Definition rx_ctx : RxContext.t := context_of src dst None true lqi view.
Definition rx_security : FrameSecurity.t := FrameSecurity.mk SecurityStatus.NwkKey None KeyIdentifier.Data false.

Definition block_frag (i : Z) : Fragmentation.t := if i =? 0 then Fragmentation.First else Fragmentation.Part.
Definition ack_header (i : Z) : ApsHeader.t := ApsHeader.ack_for (block_header p i) (Some (ack_ext (block_frag i) i)).
Definition ack_action (i : Z) (h : Z) : ApsAction.t :=
  ApsAction.NwkData h src None true true None (plain_image (ack_header i) []).

(** A block reaches reassembly. *)
Lemma receive_block i r :
  0 ≤ i < PendingTx.block_count p → state r = DeviceState.JoinedAuthorized →
  on_nwk_data (block_image p i) src dst None true lqi view r =
  handle_fragment (block_image p i) (length (aps_header_wire (block_header p i))) (length (block_image p i))
    (block_header p i) rx_ctx rx_security (Delivery.Endpoint ep) (bump ApsStats.rx_ucast r).
Proof.
  intros Hi Hs. unfold on_nwk_data, process_frame, process_frame_with, block_image.
  rewrite (decode_plain _ _ (block_header_wf p dst ep Hp i Hi)).
  rewrite unsecure_plain by apply (tr_security _ _ _ Hp). cbn [RxContext.nwk_secured RxContext.dst].
  change (ApsFrameControl.frame_type (ApsHeader.control (block_header p i))) with
    (ApsFrameControl.frame_type (ApsHeader.control (PendingTx.header p))).
  rewrite (tr_type _ _ _ Hp).
  assert (ShortAddress.is_broadcast dst = false) as Hb.
  { pose proof (tr_unicast _ _ _ Hp) as Hu. unfold ShortAddress.is_unicast, ShortAddress.is_broadcast in *.
    by destruct (ShortAddress.kind dst). }
  rewrite Hb. unfold handle_data, admit_unauthorized, stale_partner, delivery_of. cbn [FrameSecurity.status FrameSecurity.partner].
  change (state (bump ApsStats.rx_ucast r)) with (state r). rewrite Hs.
  change (bool_decide (SecurityStatus.NwkKey = SecurityStatus.Unsecured)) with false.
  change (bool_decide (DeviceState.JoinedAuthorized = DeviceState.JoinedAuthorized)) with true. cbn [negb andb].
  destruct (tr_header _ _ _ Hp) as (_ & _ & Ha & _). unfold addressing_wf, ApsHeader.has_addressing in Ha.
  rewrite (tr_type _ _ _ Hp) in Ha. destruct Ha as (_ & Hc & Hpr & Hse).
  cbn [block_header ApsHeader.with_extended ApsHeader.src_endpoint ApsHeader.cluster ApsHeader.profile ApsHeader.destination
       ApsHeader.control ApsFrameControl.set_extended_header ApsFrameControl.delivery_mode ApsFrameControl.ack_request].
  destruct (ApsHeader.src_endpoint (PendingTx.header p)); [|done].
  destruct (ApsHeader.cluster (PendingTx.header p)); [|done].
  destruct (ApsHeader.profile (PendingTx.header p)); [|done].
  rewrite (tr_mode _ _ _ Hp), (tr_endpoint _ _ _ Hp), (tr_ack_request _ _ _ Hp). cbn [RxContext.dst].
  rewrite Hb, andb_false_r.
  rewrite bool_decide_false; [|cbn; by destruct (i =? 0)].
  rewrite bool_decide_true by done. done.
Qed.

Lemma ack_header_wf i : 0 ≤ i < PendingTx.block_count p → aps_header_wf (ack_header i).
Proof.
  clear Hq. intros Hi. apply ack_for_wf; [by apply (block_header_wf p dst ep)| |left; apply (tr_type _ _ _ Hp)].
  destruct (tr_fragmented _ _ _ Hp) as (_ & _ & Hc & _). cbn. unfold ext_wf, block_frag. cbn.
  destruct (i =? 0); cbn; unfold uint; repeat split; lia.
Qed.

Lemma ack_fits i : 0 ≤ i < PendingTx.block_count p → (length (plain_image (ack_header i) []) ≤ MAX_APS_FRAME)%nat.
Proof.
  intros Hi. unfold plain_image. rewrite app_nil_r, <- (aps_header_len _ (ack_header_wf i Hi)).
  unfold ApsHeader.encoded_len, ack_header, ApsHeader.ack_for. cbn.
  change (ApsFrameControl.frame_type (ApsHeader.control (block_header p i))) with
    (ApsFrameControl.frame_type (ApsHeader.control (PendingTx.header p))). rewrite (tr_type _ _ _ Hp). cbn.
  unfold ApsHeader.has_addressing, ExtendedHeader.encoded_len, block_frag, MAX_APS_FRAME. cbn.
  change (bool_decide (ApsFrameType.Data = ApsFrameType.Command)) with false.
  destruct (ApsHeader.src_endpoint _), (i =? 0); cbn; lia.
Qed.

(** The acknowledgement of a block, with nothing else queued. *)
Lemma ack_sent i r :
  0 ≤ i < PendingTx.block_count p → actions r = [] →
  ∃ h, actions (send_ack (block_header p i) (Some (ack_ext (block_frag i) i)) rx_ctx rx_security r) = [ack_action i h].
Proof.
  intros Hi Ha. exists (next_handle r). unfold send_ack. cbn [rx_security FrameSecurity.key_id FrameSecurity.partner].
  change (if bool_decide (KeyIdentifier.Data = KeyIdentifier.Data) then @None Z else None) with (@None Z).
  change (ApsHeader.secured (ApsHeader.ack_for (block_header p i) (Some (ack_ext (block_frag i) i))) (is_some None)) with (ack_header i).
  rewrite secure_frame_plain by (auto using ack_header_wf, ack_fits).
  cbn [rx_ctx context_of RxContext.relayed RxContext.src RxContext.nwk_secured alloc_handle]. unfold push_action.
  rewrite deque_push_back_spec. cbn [actions set_next_handle bump set_stats]. rewrite Ha.
  destruct (Nat.ltb_spec (length (@nil ApsAction.t)) (ApsDims.Queue D)); [done|]. cbn in *. lia.
Qed.

(** [i] blocks are in. *)
Definition holding (i : Z) r : Prop :=
  ∃ q0, reassembly r = Some q0 ∧ partial p q0 ∧ Reassembly.next_block q0 = i ∧ Reassembly.src q0 = src ∧
    Reassembly.header q0 = block_header p 0 ∧ now r < Reassembly.deadline q0.
Definition ready (i : Z) r : Prop :=
  actions r = [] ∧ state r = DeviceState.JoinedAuthorized ∧ 0 ≤ now r < u64_max ∧
  if i =? 0 then reassembly r = None else holding i r.

(** What the application gets from the last block. *)
Definition delivered (d : DataIndication.t) : Prop :=
  DataIndication.asdu d = PendingTx.asdu p ∧ DataIndication.src d = src ∧
  DataIndication.counter d = ApsHeader.counter (PendingTx.header p) ∧
  DataIndication.delivery d = Delivery.Endpoint ep.

Definition after_block (i : Z) (o : option DataIndication.t) r : Prop :=
  (∃ h, actions r = [ack_action i h]) ∧
  if i + 1 <? PendingTx.block_count p then o = None ∧ ready (i + 1) (set_actions [] r)
  else ∃ d, o = Some d ∧ delivered d.

Lemma reassembled_delivered r q0 :
  reassembly r = Some q0 → partial p q0 → Reassembly.complete q0 = true → Reassembly.src q0 = src →
  Reassembly.header q0 = block_header p 0 →
  ∃ d, reassembled_indication (Delivery.Endpoint ep) r = Some d ∧ delivered d.
Proof.
  intros Hr Hpa Hc Hs Hh. unfold reassembled_indication. rewrite Hr. cbn [mbind option_bind]. rewrite Hh. cbn.
  destruct (tr_header _ _ _ Hp) as (_ & _ & Ha & _). unfold addressing_wf, ApsHeader.has_addressing in Ha.
  rewrite (tr_type _ _ _ Hp) in Ha. destruct Ha as (_ & Hcl & Hpr & Hse).
  destruct (ApsHeader.src_endpoint (PendingTx.header p)); [|done].
  destruct (ApsHeader.profile (PendingTx.header p)); [|done].
  destruct (ApsHeader.cluster (PendingTx.header p)); [|done]. cbn. eexists. split; [done|].
  split_and!; cbn; try done. apply (partial_complete p (tr_fragmented _ _ _ Hp)); done.
Qed.

(** Storing the reassembly and acknowledging the block, in either order. *)
Lemma settle i r q0 r1 o :
  0 ≤ i < PendingTx.block_count p → reassembly r1 = Some q0 →
  actions r = [] → state r = DeviceState.JoinedAuthorized → 0 ≤ now r < u64_max →
  partial p q0 → Reassembly.next_block q0 = i + 1 → Reassembly.src q0 = src →
  Reassembly.header q0 = block_header p 0 → now r < Reassembly.deadline q0 →
  now r1 = now r → state r1 = state r → (∃ h, actions r1 = [ack_action i h]) →
  o = (if i + 1 <? PendingTx.block_count p then None else reassembled_indication (Delivery.Endpoint ep) r1) →
  after_block i o r1.
Proof.
  intros Hi E1 Ha Hs Hn Hpa Hnb Hsrc Hh Hd E2 E3 Hact ->. split; [done|].
  destruct (Z.ltb_spec (i + 1) (PendingTx.block_count p)).
  - split; [done|]. unfold ready. cbn [actions set_actions state now reassembly].
    rewrite E2, E3. split_and!; try done; [lia..|]. destruct (Z.eqb_spec (i + 1) 0); [lia|].
    exists q0. cbn. rewrite E1, E2. done.
  - eapply reassembled_delivered; [done|done| |done|done].
    destruct Hpa as (_ & _ & _ & Hc). apply Hc. lia.
Qed.

Lemma first_received r :
  ready 0 r → after_block 0 (on_nwk_data (block_image p 0) src dst None true lqi view r).1
    (on_nwk_data (block_image p 0) src dst None true lqi view r).2.
Proof.
  intros (Ha & Hs & Hn & Hr). cbn in Hr. destruct (tr_fragmented _ _ _ Hp) as (_ & _ & Hc & Hmax).
  rewrite receive_block by (done || lia). unfold handle_fragment, block_image. rewrite get_range_plain.
  cbn [block_header ApsHeader.with_extended ApsHeader.extended Z.eqb ExtendedHeader.fragmentation].
  unfold expire_reassembly. change (reassembly (bump ApsStats.rx_ucast r)) with (reassembly r). rewrite Hr.
  unfold first_block. change (reassembly (bump ApsStats.rx_ucast r)) with (reassembly r). rewrite Hr.
  cbn [same_transaction in_progress ExtendedHeader.block_number].
  pose proof (block_payload_nonempty p 0 (tr_fragmented _ _ _ Hp) ltac:(lia)) as Hne.
  rewrite (proj2 (Z.eqb_neq _ _)), (proj2 (Nat.eqb_neq _ _)) by lia. cbn [orb].
  rewrite vec_extend_spec, (proj2 (Nat.leb_le _ _))
    by (cbn; unfold block_payload; rewrite length_take, length_drop; lia).
  set (r1 := bump ApsStats.rx_ucast r). set (ext := ExtendedHeader.mk _ _ _).
  change (ExtendedHeader.fragmentation ext) with (block_frag 0). fold rx_ctx.
  destruct (ack_sent 0 r1 ltac:(lia) Ha) as [h Hack].
  set (r2 := send_ack _ _ _ _ r1) in *.
  assert (now r2 = now r) as En by exact (send_ack_foot now _ _ _ _ r1).
  assert (state r2 = state r) as Es by exact (send_ack_foot state _ _ _ _ r1).
  assert (∀ dl c, c = (PendingTx.block_count p =? 1) → partial p (Reassembly.mk (RxContext.src rx_ctx) (RxContext.src_ieee rx_ctx)
    (block_header p 0) (PendingTx.block_count p) 1 ([] ++ block_payload p 0) dl c
    (FrameSecurity.status rx_security) (RxContext.lqi rx_ctx))) as Hpa.
  { intros dl c ->. split_and!; cbn; [done|lia|lia|apply (block_payload_snoc p 0); lia|]. rewrite Z.eqb_eq. lia. }
  assert (∀ x, 0 < x → now r < Instant.saturating_add (now r) x) as Hdl
    by (intros x Hx; unfold Instant.saturating_add, sat_add, u64_max in *; lia).
  cbn [Reassembly.block_count]. destruct (Z.eqb_spec (PendingTx.block_count p) 1) as [E|E]; cbn [fst snd].
  - eapply (settle 0 r1); [lia|done|done..|by apply Hpa|done|done|done|by apply Hdl|exact En|exact Es|by exists h|].
    by rewrite E.
  - eapply (settle 0 r1); [lia|done|done..|by apply Hpa|done|done|done|by apply Hdl|exact En|exact Es|by exists h|].
    by rewrite (proj2 (Z.ltb_lt _ _)) by lia.
Qed.

Lemma next_received i r :
  0 < i < PendingTx.block_count p → ready i r →
  after_block i (on_nwk_data (block_image p i) src dst None true lqi view r).1
    (on_nwk_data (block_image p i) src dst None true lqi view r).2.
Proof.
  intros Hi (Ha & Hs & Hn & Hr). rewrite (proj2 (Z.eqb_neq _ _)) in Hr by lia.
  destruct Hr as (q0 & Hr & Hpa & Hnb & Hsrc & Hh & Hd). destruct (tr_fragmented _ _ _ Hp) as (_ & _ & Hc & Hmax).
  rewrite receive_block by (done || lia). unfold handle_fragment, block_image. rewrite get_range_plain.
  cbn [block_header ApsHeader.with_extended ApsHeader.extended]. rewrite (proj2 (Z.eqb_neq i 0)) by lia.
  cbn [ExtendedHeader.fragmentation ExtendedHeader.block_number]. rewrite (proj2 (Z.eqb_neq i 0)) by lia.
  unfold expire_reassembly. set (r1 := bump ApsStats.rx_ucast r).
  change (reassembly r1) with (reassembly r). rewrite Hr. unfold Instant.has_reached.
  change (now r1) with (now r). rewrite (proj2 (Z.leb_gt _ _)) by done.
  unfold next_block. change (reassembly r1) with (reassembly r). rewrite Hr.
  cbn [same_transaction]. rewrite Hsrc, Hh. cbn [rx_ctx context_of RxContext.src block_header ApsHeader.with_extended ApsHeader.counter].
  rewrite !Z.eqb_refl. cbn [andb negb]. destruct Hpa as (Hbc & Hnx & Hbuf & Hcomp).
  assert (Reassembly.complete q0 = false) as ->.
  { apply not_true_iff_false. rewrite Hcomp. lia. }
  rewrite Hnb, Z.ltb_irrefl, Z.eqb_refl, Hbc, (proj2 (Z.leb_gt _ _)) by lia. cbn [negb orb].
  rewrite Hbuf, Hnb.
  assert (sat_add 8 i 1 = i + 1) as -> by (unfold sat_add; cbn; lia).
  rewrite vec_extend_spec, block_payload_snoc by lia.
  rewrite (proj2 (Nat.leb_le _ _)).
  2:{ rewrite <- length_app, block_payload_snoc, length_take by lia. lia. }
  match goal with |- context [Reassembly.advance ?a ?b ?c ?d q0] => set (q1 := Reassembly.advance a b c d q0) end.
  change (now r1) with (now r) in q1. set (r2 := set_reassembly (Some q1) r1). fold rx_ctx rx_security.
  destruct (ack_sent i r2 ltac:(lia) Ha) as [h Hack]. unfold block_frag in Hack.
  rewrite (proj2 (Z.eqb_neq i 0)) in Hack by lia.
  match type of Hack with actions ?x = _ => set (r3 := x) in *; change (after_block i
    (if i + 1 =? PendingTx.block_count p then (reassembled_indication (Delivery.Endpoint ep) (bump ApsStats.reassembled r3), bump ApsStats.reassembled r3) else (None, r3)).1
    (if i + 1 =? PendingTx.block_count p then (reassembled_indication (Delivery.Endpoint ep) (bump ApsStats.reassembled r3), bump ApsStats.reassembled r3) else (None, r3)).2) end.
  assert (reassembly r3 = Some q1) as Er by exact (send_ack_foot reassembly _ _ _ _ r2).
  assert (now r3 = now r) as En by exact (send_ack_foot now _ _ _ _ r2).
  assert (state r3 = state r) as Es by exact (send_ack_foot state _ _ _ _ r2).
  assert (partial p q1) as Hpa.
  { split_and!; cbn; [done|lia|lia|done|by rewrite Z.eqb_eq]. }
  assert (now r < Reassembly.deadline q1) as Hdl.
  { cbn. case_match; unfold Instant.saturating_add, sat_add, u64_max, constants.FRAGMENT_PERSISTENCE,
      constants.FRAGMENT_RECEIVE_TIMEOUT, constants.ACK_WAIT_DURATION, Duration.from_millis, constants.MAX_FRAME_RETRIES in *; lia. }
  destruct (Z.eqb_spec (i + 1) (PendingTx.block_count p)); cbn [fst snd].
  - eapply (settle i r); [lia|exact Er|done..|exact En|exact Es|by exists h|].
    by rewrite (proj2 (Z.ltb_ge _ _)) by lia.
  - eapply (settle i r); [lia|exact Er|done..|exact En|exact Es|by exists h|].
    by rewrite (proj2 (Z.ltb_lt _ _)) by lia.
Qed.

Lemma block_received i r :
  0 ≤ i < PendingTx.block_count p → ready i r →
  after_block i (on_nwk_data (block_image p i) src dst None true lqi view r).1
    (on_nwk_data (block_image p i) src dst None true lqi view r).2.
Proof.
  intros Hi Hr. destruct (decide (i = 0)) as [->|]; [by apply first_received|]. apply next_received; [lia|done].
Qed.
End receiver.

(** ** The sender *)

Section sender.
Context {C : Type} {D : ApsDims.t} `{!BlockCipher C} {CT : ConstantTimeEq} {H : Heapless}.
Abbreviation st := (Aps.t C D).
Implicit Types s : st.
Context (p : PendingTx.t) (src dst ep lqi : Z) (view : NwkView.t).
Context (Hp : transmission p dst ep) (Hq : (0 < ApsDims.Queue D)%nat).

(** The entry of block [i] in state [x], and the frame it sends. *)
Definition at_block (h : option Z) (i : Z) (x : TxState.t) : PendingTx.t :=
  PendingTx.assign h i 0 (PendingTx.deferrals p) x p.
Definition block_action (i h : Z) : ApsAction.t :=
  ApsAction.NwkData h dst (PendingTx.radius p) true true (PendingTx.alias p) (block_image p i).

Definition sending (i : Z) s : Prop :=
  ∃ h, pending s = [at_block (Some h) i TxState.AwaitingNwkConfirm] ∧ actions s = [block_action i h] ∧
    requests s = [RequestState.mk (PendingTx.request p) 1 ApsStatus.Success None] ∧ events s = [].

Lemma build_block i s h x :
  0 ≤ i < PendingTx.block_count p → pending s = [at_block h i x] →
  build_frame 0 s = (Ok (block_image p i), s).
Proof.
  intros Hi Hps. pose proof (tr_fragmented _ _ _ Hp) as Hf. unfold build_frame.
  rewrite (se_bind_ok _ _ s (pending s) s) by done.
  rewrite (se_bind_ok _ _ s (at_block h i x) s) by (unfold need, lift; by rewrite Hps).
  pose proof (block_frame_spec (at_block h i x) Hf Hi) as Hb.
  destruct (block_frame (at_block h i x)) as [[hd a] b]. destruct Hb as [-> Hg].
  rewrite (se_bind_ok _ _ s (block_payload p i) s).
  2:{ unfold need, lift. rewrite Hg. cbn [default from_option id]. rewrite vec_from_slice_spec, (proj2 (Nat.leb_le _ _)); [done|].
      destruct Hf as (_ & _ & _ & Hmax). unfold block_payload. rewrite length_take, length_drop. cbn. lia. }
  cbn [at_block PendingTx.assign PendingTx.wrap]. rewrite (tr_wrap _ _ _ Hp). apply secure_frame_plain.
  - by apply (block_header_wf p dst ep).
  - left. apply (tr_partner _ _ _ Hp).
  - by apply (length_block_image p dst ep).
Qed.

Lemma serve_block i s :
  0 ≤ i < PendingTx.block_count p → pending s = [at_block None i TxState.Ready] → actions s = [] →
  requests s = [RequestState.mk (PendingTx.request p) 1 ApsStatus.Success None] → events s = [] →
  sending i (service_pending s).
Proof.
  intros Hi Hps Ha Hr He. exists (next_handle s). unfold service_pending. rewrite Hps. cbn [length service_loop].
  rewrite Hps. cbn [lookup list_lookup].
  rewrite bool_decide_true by done. cbn [negb]. rewrite (build_block i s None TxState.Ready Hi Hps).
  cbn [alloc_handle]. unfold push_action, update_pending. rewrite deque_push_back_spec.
  cbn [actions set_pending set_next_handle pending]. rewrite Ha, Hps.
  destruct (Nat.ltb_spec (length (@nil ApsAction.t)) (ApsDims.Queue D)); [|cbn in *; lia].
  cbn. split_and!; try done. unfold block_action. rewrite (tr_dst _ _ _ Hp), (tr_unicast _ _ _ Hp), (tr_secure _ _ _ Hp). done.
Qed.

(** The NWK layer has sent the frame. *)
Lemma confirm_block i s h :
  pending s = [at_block (Some h) i TxState.AwaitingNwkConfirm] →
  on_nwk_data_confirm h NwkStatus.Success s =
  set_pending [at_block None i (TxState.AwaitingAck (Instant.saturating_add (now s) constants.ACK_WAIT_DURATION))] s.
Proof.
  intros Hps. unfold on_nwk_data_confirm. rewrite Hps. cbn [position at_block PendingTx.assign PendingTx.handle].
  rewrite bool_decide_true by done. cbn [lookup list_lookup PendingTx.state].
  rewrite bool_decide_true by done. cbn [negb]. change (NwkStatus.is_success NwkStatus.Success) with true. cbn [PendingTx.ack at_block PendingTx.assign].
  rewrite (tr_ack _ _ _ Hp). unfold update_pending. cbn [pending set_pending]. by rewrite Hps.
Qed.

(** The only transmission of the only request has ended well. *)
Lemma finish_only id s :
  requests s = [RequestState.mk id 1 ApsStatus.Success None] → events s = [] →
  let s' := finish_transmission id ApsStatus.Success s in
  pending s' = pending s ∧ requests s' = [] ∧ actions s' = actions s ∧
  events s' = [ApsEvent.DataConfirm id ApsStatus.Success].
Proof.
  intros Hr He. unfold finish_transmission. rewrite Hr. cbn [position RequestState.id]. rewrite Z.eqb_refl.
  cbn [lookup list_lookup RequestState.remaining RequestState.status RequestState.command RequestState.id].
  change (ApsStatus.is_success ApsStatus.Success) with true. cbn [negb andb].
  change (sat_sub 1 1 =? 0) with true. cbn [requests set_requests].
  rewrite (vec_swap_remove_spec _ _ 0 (RequestState.mk id 0 ApsStatus.Success None)
    (RequestState.mk id 0 ApsStatus.Success None)) by done.
  cbn [RequestState.command]. unfold push_event. rewrite deque_push_back_spec. cbn [events set_requests]. rewrite He.
  destruct (Nat.ltb_spec (length (@nil ApsEvent.t)) (ApsDims.Queue D)); [done|cbn in *; lia].
Qed.

(** The acknowledgement of block [i] from the receiver. *)
Lemma receive_ack i from s :
  0 ≤ i < PendingTx.block_count p →
  on_nwk_data (plain_image (ack_header p i) []) dst from None true lqi view s =
  (None, on_ack dst (ack_header p i) s).
Proof.
  intros Hi. unfold on_nwk_data, process_frame, process_frame_with.
  rewrite (decode_plain _ _ (ack_header_wf p dst ep Hp i Hi)).
  by rewrite unsecure_plain by done.
Qed.

Lemma ack_matches i dl :
  0 ≤ i < PendingTx.block_count p →
  acknowledges dst (ack_header p i) (at_block None i (TxState.AwaitingAck dl)) = true ∧
  block_acked i (ApsHeader.extended (ack_header p i)) = true.
Proof.
  intros Hi. split; [|cbn; by rewrite Z.eqb_refl].
  unfold acknowledges, ack_header, ApsHeader.ack_for, at_block. cbn.
  rewrite (tr_dst _ _ _ Hp), !Z.eqb_refl, (tr_kind _ _ _ Hp). cbn.
  change (ApsFrameControl.frame_type (ApsHeader.control (block_header p i))) with
    (ApsFrameControl.frame_type (ApsHeader.control (PendingTx.header p))). rewrite (tr_type _ _ _ Hp).
  change (bool_decide (ApsFrameType.Data = ApsFrameType.Command)) with false. cbn.
  unfold ApsHeader.dst_endpoint. cbn. rewrite (tr_endpoint _ _ _ Hp).
  rewrite !bool_decide_true; [done|by destruct (ApsHeader.src_endpoint _)|done|done].
Qed.

Lemma is_broadcast_unicast : ShortAddress.is_broadcast dst = false.
Proof.
  pose proof (tr_unicast _ _ _ Hp) as Hu. unfold ShortAddress.is_unicast, ShortAddress.is_broadcast in *.
  by destruct (ShortAddress.kind dst).
Qed.

Definition confirmed s : Prop :=
  pending s = [] ∧ requests s = [] ∧ actions s = [] ∧
  events s = [ApsEvent.DataConfirm (PendingTx.request p) ApsStatus.Success].

Lemma ack_last i s dl :
  i + 1 = PendingTx.block_count p → 0 ≤ i → pending s = [at_block None i (TxState.AwaitingAck dl)] → actions s = [] →
  requests s = [RequestState.mk (PendingTx.request p) 1 ApsStatus.Success None] → events s = [] →
  confirmed (on_ack dst (ack_header p i) s).
Proof.
  intros Hi H0 Hps Ha Hr He. destruct (ack_matches i dl ltac:(lia)) as [Hm Hb].
  destruct (tr_fragmented _ _ _ Hp) as (_ & _ & Hc & _).
  unfold on_ack. rewrite Hps. cbn [position]. rewrite Hm. cbn [lookup list_lookup].
  change (PendingTx.block_count (at_block None i (TxState.AwaitingAck dl))) with (PendingTx.block_count p).
  change (PendingTx.block (at_block None i (TxState.AwaitingAck dl))) with i.
  rewrite (proj2 (Z.eqb_neq (PendingTx.block_count p) 0)), Hb by lia. cbn [negb].
  assert (sat_add 8 i 1 = i + 1) as -> by (unfold sat_add; cbn; lia).
  rewrite (proj2 (Z.ltb_ge _ _)) by lia.
  unfold complete. rewrite Hps. cbn [length Nat.leb].
  rewrite (vec_swap_remove_spec _ _ 0 (at_block None i (TxState.AwaitingAck dl)) (at_block None i (TxState.AwaitingAck dl))) by done.
  cbn [length Nat.sub take]. change (ApsStatus.is_success ApsStatus.Success) with true.
  change (is_tx_command (PendingTx.kind (at_block None i (TxState.AwaitingAck dl)))) with (is_tx_command (PendingTx.kind p)).
  change (PendingTx.post (at_block None i (TxState.AwaitingAck dl))) with (PendingTx.post p).
  change (PendingTx.dst (at_block None i (TxState.AwaitingAck dl))) with (PendingTx.dst p).
  rewrite (tr_kind _ _ _ Hp), (tr_post _ _ _ Hp), (tr_dst _ _ _ Hp), is_broadcast_unicast. cbn [is_tx_command negb andb].
  match goal with |- confirmed (finish_transmission ?id ApsStatus.Success ?s1) =>
    destruct (finish_only id s1 Hr He) as (E1 & E2 & E3 & E4) end.
  split_and!; [by rewrite E1|by rewrite E2|by rewrite E3|by rewrite E4].
Qed.

Lemma ack_more i s dl :
  0 ≤ i → i + 1 < PendingTx.block_count p → pending s = [at_block None i (TxState.AwaitingAck dl)] → actions s = [] →
  requests s = [RequestState.mk (PendingTx.request p) 1 ApsStatus.Success None] → events s = [] →
  sending (i + 1) (on_ack dst (ack_header p i) s).
Proof.
  intros H0 Hi Hps Ha Hr He. destruct (ack_matches i dl ltac:(lia)) as [Hm Hb].
  destruct (tr_fragmented _ _ _ Hp) as (_ & _ & Hc & _).
  unfold on_ack. rewrite Hps. cbn [position]. rewrite Hm. cbn [lookup list_lookup].
  change (PendingTx.block_count (at_block None i (TxState.AwaitingAck dl))) with (PendingTx.block_count p).
  change (PendingTx.block (at_block None i (TxState.AwaitingAck dl))) with i.
  rewrite (proj2 (Z.eqb_neq (PendingTx.block_count p) 0)), Hb by lia. cbn [negb].
  assert (sat_add 8 i 1 = i + 1) as -> by (unfold sat_add; cbn; lia).
  rewrite (proj2 (Z.ltb_lt _ _)) by lia.
  apply serve_block; [lia| |done..]. unfold update_pending. cbn [pending set_pending]. by rewrite Hps.
Qed.
End sender.

(** ** The exchange *)

Section exchange.
Context {C : Type} {D D' : ApsDims.t} `{!BlockCipher C} {CT : ConstantTimeEq} {H : Heapless}.
Implicit Types (s : Aps.t C D) (r : Aps.t C D').

(** One frame from [s] at [src] reaches [r] at [dst], which answers with one
    frame: the NWK layers confirm and deliver both. *)
Definition exchange (src : Z) (view view' : NwkView.t) (lqi : Z) s r
    : option DataIndication.t * Aps.t C D * Aps.t C D' :=
  match next_action s with
  | (Some (ApsAction.NwkData h dst _ _ secure _ frame), s) =>
      let s := on_nwk_data_confirm h NwkStatus.Success s in
      let '(ind, r) := on_nwk_data frame src dst None secure lqi view' r in
      match next_action r with
      | (Some (ApsAction.NwkData h' src' _ _ secure' _ answer), r) =>
          let '(_, s) := on_nwk_data answer dst src' None secure' lqi view s in
          (ind, s, r)
      | (_, r) => (ind, s, r)
      end
  | (_, s) => (None, s, r)
  end.

(** [n] exchanges: what the receiver's application is given. *)
Fixpoint exchanges (n : nat) (src : Z) (view view' : NwkView.t) (lqi : Z) s r
    : list DataIndication.t * Aps.t C D * Aps.t C D' :=
  match n with
  | O => ([], s, r)
  | S n =>
      let '(ind, s, r) := exchange src view view' lqi s r in
      let '(inds, s, r) := exchanges n src view view' lqi s r in
      (option_list ind ++ inds, s, r)
  end.

Context (p : PendingTx.t) (src dst ep lqi : Z) (view view' : NwkView.t).
Context (Hp : transmission p dst ep) (Hq : (0 < ApsDims.Queue D)%nat) (Hq' : (0 < ApsDims.Queue D')%nat).

Lemma exchange_block i s r :
  0 ≤ i < PendingTx.block_count p → sending p dst i s → ready p src i r →
  let '(ind, s', r') := exchange src view view' lqi s r in
  if i + 1 <? PendingTx.block_count p then ind = None ∧ sending p dst (i + 1) s' ∧ ready p src (i + 1) r'
  else confirmed p s' ∧ ∃ d, ind = Some d ∧ delivered p src ep d.
Proof.
  intros Hi (h & Hps & Ha & Hr & He) Hrdy. unfold exchange, next_action at 1. rewrite Ha, deque_pop_front_spec.
  cbn [block_action]. rewrite (confirm_block p dst ep Hp i (set_actions [] s) h Hps).
  destruct (block_received p src dst ep lqi view' Hp Hq' i r Hi Hrdy) as [[h' Hack] Hafter].
  destruct (on_nwk_data (block_image p i) src dst None true lqi view' r) as [ind r1]. cbn [fst snd] in *.
  unfold next_action. rewrite Hack, deque_pop_front_spec. cbn [ack_action].
  rewrite (receive_ack p dst ep lqi view Hp i) by done.
  destruct (Z.ltb_spec (i + 1) (PendingTx.block_count p)).
  - destruct Hafter as [-> Hrdy']. split_and!; [done| |done]. eapply ack_more; done || lia.
  - split; [|done]. eapply ack_last; done || lia.
Qed.

(** All the blocks. *)
Lemma exchange_blocks n i s r :
  i + Z.of_nat n = PendingTx.block_count p → 0 ≤ i → (0 < n)%nat → sending p dst i s → ready p src i r →
  ∃ d s' r', exchanges n src view view' lqi s r = ([d], s', r') ∧ confirmed p s' ∧ delivered p src ep d.
Proof.
  revert i s r. induction n as [|n IH]; [lia|]. intros i s r Hn Hi _ Hs Hr. cbn [exchanges].
  pose proof (exchange_block i s r ltac:(lia) Hs Hr) as Hb.
  destruct (exchange src view view' lqi s r) as [[ind s1] r1].
  destruct (Z.ltb_spec (i + 1) (PendingTx.block_count p)).
  - destruct Hb as (-> & Hs1 & Hr1). destruct (IH (i + 1) s1 r1) as (d & s' & r' & -> & Hc & Hd); [lia..|done|done|].
    by exists d, s', r'.
  - destruct Hb as (Hc & d & -> & Hd). assert (n = 0%nat) as -> by lia. by exists d, s1, r1.
Qed.
End exchange.

(** ** From the request to the first block *)

Section request.
Context {C : Type} {D : ApsDims.t} `{!BlockCipher C} {CT : ConstantTimeEq} {H : Heapless}.
Abbreviation st := (Aps.t C D).
Implicit Types s : st.

(** Nothing in flight and nothing left to hand out. *)
Definition idle s : Prop := pending s = [] ∧ requests s = [] ∧ actions s = [] ∧ events s = [].

(** An acknowledged unicast that may be fragmented and carries no APS security. *)
Record plain_unicast (dst ep : Z) (req : DataRequest.t) : Prop := {
  pu_destination : DataRequest.destination req = Destination.Short dst ep;
  pu_unicast : ShortAddress.is_unicast dst = true;
  pu_security : TxOptions.security (DataRequest.options req) = false;
  pu_ack : TxOptions.ack (DataRequest.options req) = true;
  pu_fragment : TxOptions.fragmentation_permitted (DataRequest.options req) = true;
  pu_alias : DataRequest.alias req = None;
  pu_endpoint : uint 8 ep;
  pu_src_endpoint : uint 8 (DataRequest.src_endpoint req);
  pu_cluster : uint 16 (DataRequest.cluster req);
  pu_profile : uint 16 (DataRequest.profile req)
}.

Definition request_header (ep : Z) (req : DataRequest.t) (n : Z) : ApsHeader.t :=
  ApsHeader.secured (ApsHeader.with_ack_request (data_header (Addressing.Endpoint ep) req n) true) false.

(** The request needs fragmentation. *)
Definition too_long (ep : Z) (req : DataRequest.t) s : Prop :=
  (frame_payload_max s (request_header ep req (counter s)) None < length (DataRequest.asdu req))%nat.

Definition request_params (id dst ep : Z) (req : DataRequest.t) (n : Z) : TxParams.t := {|
  TxParams.request := id; TxParams.kind := TxKind.Data; TxParams.dst := dst; TxParams.partner := None;
  TxParams.key_id := KeyIdentifier.Data;
  TxParams.extended_nonce := TxOptions.extended_nonce (DataRequest.options req) || false;
  TxParams.header := request_header ep req n; TxParams.nwk_secure := true; TxParams.radius := DataRequest.radius req;
  TxParams.alias := None; TxParams.ack := true; TxParams.post := None; TxParams.wrap := None |}.

Lemma plan_fragmented dst ep req id n s count size :
  plain_unicast dst ep req → uint 8 n → (ApsConfig.nwk_max_payload (config s) ≤ MAX_APS_FRAME)%nat →
  (length (DataRequest.asdu req) ≤ MAX_ASDU)%nat →
  (frame_payload_max s (request_header ep req n) None < length (DataRequest.asdu req))%nat →
  plan_blocks s (request_params id dst ep req n) (DataRequest.asdu req) true = Ok (count, size) →
  transmission (pending_entry (request_params id dst ep req n) (DataRequest.asdu req) count size) dst ep.
Proof.
  intros Hu Hn Hm Hl Hlong. unfold plan_blocks. cbn [TxParams.wrap request_params TxParams.partner TxParams.header fmap option_fmap option_map TxParams.kind is_tx_command].
  rewrite (proj2 (Nat.leb_gt _ _)) by done. cbn [negb orb].
  set (fh := ApsHeader.with_extended _ _). set (bs := frame_payload_max s fh None).
  destruct (Nat.eqb_spec bs 0); [done|].
  set (cnt := ((length (DataRequest.asdu req) + bs - 1) / bs)%nat).
  destruct (Nat.ltb_spec 255 cnt) as [?|Hcnt]; [done|]. intros [= <- <-].
  assert (aps_header_wf (request_header ep req n)) as Hwf.
  { destruct Hu. unfold aps_header_wf, addressing_wf, request_header, data_header. cbn. split_and!; done. }
  assert (1 ≤ cnt)%nat as H1.
  { apply Nat.div_le_lower_bound; [done|]. unfold frame_payload_max in *. lia. }
  assert (length (aps_header_wire (request_header ep req n)) + 2 + bs ≤ MAX_APS_FRAME)%nat as Hfit.
  { rewrite <- (aps_header_len _ Hwf). subst bs fh. unfold frame_payload_max, ApsHeader.encoded_len in *. cbn in *. lia. }
  constructor; try exact Hfit; cbn; try done; try apply Hu.
  split_and!; cbn; [lia|done|lia|lia|done].
Qed.

Lemma queue_data_plain id dst ep ieee req n s :
  plain_unicast dst ep req →
  queue_data id dst ieee (Addressing.Endpoint ep) req n s =
  queue_tx (request_params id dst ep req n) (DataRequest.asdu req) true s.
Proof.
  intros Hu. unfold queue_data, partner_for_request.
  rewrite (pu_unicast _ _ _ Hu), (pu_security _ _ _ Hu), (pu_ack _ _ _ Hu), (pu_fragment _ _ _ Hu), (pu_alias _ _ _ Hu).
  cbn [is_endpoint andb negb]. rewrite (se_bind_ok _ _ s None s) by done. cbv zeta.
  rewrite (se_bind_ok _ _ s (trust_center_partner s) s) by done. done.
Qed.

Lemma queue_tx_ok p asdu b s u s1 :
  queue_tx p asdu b s = (Ok u, s1) →
  (length asdu ≤ MAX_ASDU)%nat ∧ ∃ count size, plan_blocks s p asdu b = Ok (count, size) ∧
    s1 = set_pending (pending s ++ [pending_entry p asdu count size]) s.
Proof.
  unfold queue_tx. rewrite (se_bind_ok _ _ s (plan_blocks s p asdu b) s) by done.
  intros ([count size] & s2 & [= Hplan <-] & Hq)%se_bind_inv. cbn in Hq.
  apply se_bind_inv in Hq as (a & s2 & Ha & Hpush). unfold need, lift in Ha. rewrite vec_from_slice_spec in Ha.
  destruct (Nat.leb_spec (length asdu) MAX_ASDU); [|done]. injection Ha as <- <-. split; [done|].
  exists count, size. split; [done|]. unfold push_pending in Hpush.
  destruct (vec_push_cases (ApsDims.PendingTx D) (pending s) (pending_entry p asdu count size)) as [[_ E]|[_ E]]; rewrite E in Hpush; [|done].
  by injection Hpush as <- <-.
Qed.

(** A request that is accepted and needs fragmentation puts its first block in
    the hands of the NWK layer. *)
Lemma request_sends dst ep req view s id s1 :
  plain_unicast dst ep req → idle s → uint 8 (counter s) → (0 < ApsDims.Queue D)%nat →
  (ApsConfig.nwk_max_payload (config s) ≤ MAX_APS_FRAME)%nat → too_long ep req s →
  data_request req view s = (Ok id, s1) →
  ∃ p, transmission p dst ep ∧ PendingTx.request p = id ∧ PendingTx.asdu p = DataRequest.asdu req ∧
    PendingTx.header p = request_header ep req (counter s) ∧ sending p dst 0 s1.
Proof.
  intros Hu (Hps & Hrs & Has & Hes) Hc Hq Hm Hlong. unfold data_request.
  rewrite (se_bind_ok _ _ s s s) by done. unfold refuse_if.
  repeat (match goal with |- ((if ?c then _ else _) ≫= _) s = _ → _ => destruct c eqn:? end;
    [by rewrite (se_bind_err _ _ s _ s) by done|rewrite (se_bind_ok _ _ s tt s) by done]).
  rewrite (pu_alias _ _ _ Hu). rewrite (se_bind_ok _ _ s (counter s) (next_counter s).2) by done.
  set (s2 := (next_counter s).2). rewrite (se_bind_ok _ _ s2 (next_request s) (alloc_request s2).2) by done.
  set (s3 := (alloc_request s2).2).
  intros (serve & s4 & Hd & Hfin)%se_bind_inv. revert Hd. unfold dispatch.
  rewrite (se_bind_ok _ _ s3 s3 s3) by done. rewrite (pu_destination _ _ _ Hu).
  destruct (dst =? ShortAddress.NO_SHORT_ADDRESS); [by rewrite (se_bind_err _ _ s3 ApsError.InvalidParameter s3) by done|].
  rewrite (se_bind_ok _ _ s3 tt s3) by done. rewrite (pu_security _ _ _ Hu).
  intros ([] & s5 & Hqd & Htr)%se_bind_inv. rewrite queue_data_plain in Hqd by done.
  apply queue_tx_ok in Hqd as (Hl & count & size & Hplan & ->).
  apply se_bind_inv in Htr as ([] & s6 & Htr & Hret). injection Hret as <- <-.
  assert (s6 = set_requests [RequestState.mk (next_request s) 1 ApsStatus.Success None]
    (set_pending (pending s3 ++ [pending_entry (request_params (next_request s) dst ep req (counter s)) (DataRequest.asdu req) count size]) s3)) as ->.
  { unfold track_request in Htr. cbn [requests set_pending] in Htr. change (requests s3) with (requests s) in Htr. rewrite Hrs in Htr.
    destruct (vec_push_cases (ApsDims.PendingTx D) [] (RequestState.mk (next_request s) 1 ApsStatus.Success None)) as [[_ E]|[_ E]];
      rewrite E in Htr; [|done]. by injection Htr as <-. }
  injection Hfin as <- <-. set (p := pending_entry _ _ _ _).
  assert (transmission p dst ep) as Hp.
  { eapply (plan_fragmented dst ep req _ _ s3); done || exact Hm || exact Hlong. }
  exists p. split_and!; [done..|]. apply (serve_block p dst ep Hp Hq).
  - destruct (tr_fragmented _ _ _ Hp) as (_ & _ & ? & _). lia.
  - cbn [pending set_requests set_pending]. change (pending s3) with (pending s). by rewrite Hps.
  - done.
  - done.
  - done.
Qed.
End request.

(** ** Theorems *)

Section transfer.
Context {C : Type} {D D' : ApsDims.t} `{!BlockCipher C} {CT : ConstantTimeEq} {H : Heapless}.
Implicit Types (s : Aps.t C D) (r : Aps.t C D').

(** C7. A fragmented transfer over a working link completes: whatever the ASDU
    (up to the sizes [data_request] accepts) and the block size, a finite number
    of frame and acknowledgement exchanges hands the ASDU to the receiver's
    application exactly once and unchanged, and confirms the request to the
    sender with success, leaving nothing pending. *)
Theorem fragmented_transfer_completes dst ep req view view' src lqi s r id s1 :
  plain_unicast dst ep req → idle s → uint 8 (counter s) →
  (0 < ApsDims.Queue D)%nat → (0 < ApsDims.Queue D')%nat →
  (ApsConfig.nwk_max_payload (config s) ≤ MAX_APS_FRAME)%nat → too_long ep req s →
  data_request req view s = (Ok id, s1) →
  actions r = [] → state r = DeviceState.JoinedAuthorized → 0 ≤ now r < u64_max → reassembly r = None →
  ∃ n d s' r', exchanges n src view view' lqi s1 r = ([d], s', r') ∧
    DataIndication.asdu d = DataRequest.asdu req ∧ DataIndication.src d = src ∧
    DataIndication.delivery d = Delivery.Endpoint ep ∧
    events s' = [ApsEvent.DataConfirm id ApsStatus.Success] ∧ pending s' = [] ∧ requests s' = [].
Proof.
  intros Hu Hi Hc Hq Hq' Hm Hlong Hreq Ha Hs Hn Hr.
  destruct (request_sends dst ep req view s id s1 Hu Hi Hc Hq Hm Hlong Hreq) as (p & Hp & <- & <- & Hh & Hsend).
  destruct (tr_fragmented _ _ _ Hp) as (_ & _ & Hcnt & _).
  destruct (exchange_blocks p src dst ep lqi view view' Hp Hq Hq' (Z.to_nat (PendingTx.block_count p)) 0 s1 r)
    as (d & s' & r' & He & (E1 & E2 & _ & E4) & (E5 & E6 & _ & E8)); [lia..|done|done|].
  exists (Z.to_nat (PendingTx.block_count p)), d, s', r'. done.
Qed.

(** The frames handed to the NWK layer. *)
Definition sent_frames {D0} (x : Aps.t C D0) : list (list Z) :=
  omap (λ a, match a with ApsAction.NwkData _ _ _ _ _ _ f => Some f | _ => None end) (actions x).

Lemma sent_reservations {D0} (x : Aps.t C D0) : sent_frames (request_counter_reservations x) = sent_frames x.
Proof.
  unfold request_counter_reservations. destruct (ApsSecurity.request_counter_reservations _ _) as [acts sec].
  change (sent_frames x) with (sent_frames (set_security sec x)). generalize (set_security sec x).
  induction (default [] acts) as [|[q v] l IH]; intros y; cbn [foldl]; [done|]. rewrite IH.
  unfold push_action. rewrite deque_push_back_spec. destruct (_ <? _)%nat; [|done].
  unfold sent_frames. cbn [actions set_actions]. rewrite omap_app. cbn. apply app_nil_r.
Qed.

Lemma pending_reservations {D0} (x : Aps.t C D0) : pending (request_counter_reservations x) = pending x.
Proof.
  unfold request_counter_reservations. destruct (ApsSecurity.request_counter_reservations _ _) as [acts sec].
  change (pending x) with (pending (set_security sec x)). generalize (set_security sec x).
  induction (default [] acts) as [|[q v] l IH]; intros y; cbn [foldl]; [done|]. rewrite IH.
  unfold push_action. by case_match.
Qed.

(** A transmission waiting for its acknowledgement sends nothing before the
    deadline. *)
Lemma waiting_silent p i dl t s :
  pending s = [at_block p None i (TxState.AwaitingAck dl)] → Z.max (now s) t < dl →
  sent_frames (poll_timers t s) = sent_frames s.
Proof.
  intros Hps Hdl. unfold poll_timers. set (s1 := if now s <? t then set_now t s else s).
  assert (now s1 < dl) as Hn.
  { unfold s1. destruct (Z.ltb_spec (now s) t); cbn; lia. }
  assert (pending s1 = pending s ∧ actions s1 = actions s) as [Ep Ea] by (unfold s1; by case_match).
  assert (expire_acks s1 = s1) as ->.
  { unfold expire_acks. rewrite Ep, Hps. cbn [length expire_loop]. rewrite Ep, Hps.
    cbn [lookup list_lookup at_block PendingTx.assign PendingTx.state]. unfold Instant.has_reached.
    by rewrite (proj2 (Z.leb_gt _ _)) by done. }
  set (s2 := expire_reassembly s1).
  assert (pending s2 = pending s1 ∧ actions s2 = actions s1) as [Ep2 Ea2].
  { unfold s2, expire_reassembly. repeat case_match; done. }
  set (s3 := request_counter_reservations s2).
  assert (pending s3 = pending s) as Ep3 by (unfold s3; rewrite pending_reservations; congruence).
  assert (service_pending s3 = s3) as ->.
  { unfold service_pending. rewrite Ep3, Hps. cbn [length service_loop]. rewrite Ep3, Hps.
    cbn [lookup list_lookup at_block PendingTx.assign PendingTx.state]. by rewrite bool_decide_false by done. }
  unfold s3. rewrite sent_reservations. unfold sent_frames. congruence.
Qed.

(** After the timers, an expired reassembly is gone. *)
Lemma poll_expires t r q0 :
  reassembly r = Some q0 → Reassembly.deadline q0 ≤ t →
  reassembly (poll_timers t r) = None.
Proof.
  intros Hr Ht. unfold poll_timers. rewrite (service_foot reassembly), (reservations_foot reassembly).
  unfold expire_reassembly. rewrite (expire_acks_foot reassembly), (expire_acks_foot now).
  destruct (Z.ltb_spec (now r) t); cbn [reassembly now set_now]; rewrite Hr; unfold Instant.has_reached.
  - by rewrite (proj2 (Z.leb_le _ _)) by done.
  - by rewrite (proj2 (Z.leb_le _ _)) by lia.
Qed.

Lemma poll_state t r : state (poll_timers t r) = state r.
Proof.
  unfold poll_timers. rewrite (service_foot state), (reservations_foot state). unfold expire_reassembly.
  assert (∀ x : Aps.t C D', state (match reassembly x with
    | Some q => if Instant.has_reached (now x) (Reassembly.deadline q) then set_reassembly None x else x | None => x end) = state x) as ->
    by (intros x; repeat case_match; done).
  rewrite (expire_acks_foot state). by case_match.
Qed.

(** C26. The completed reassembly does not outlive the sender's wait: when the
    acknowledgement of the last block is lost, the sender retransmits the block
    only after [ACK_WAIT_DURATION] (counted from the NWK confirm, which is not
    before the reception), and by then the receiver, which keeps the completed
    transaction for [FRAGMENT_PERSISTENCE], the same duration, has dropped it:
    the retransmitted block is not acknowledged. *)
Theorem late_retransmission_unacknowledged p src dst ep lqi view s r q0 t0 t1 t2 t :
  transmission p dst ep → 1 < PendingTx.block_count p →
  (* the receiver completed the transaction at [t0] *)
  reassembly r = Some q0 → Reassembly.complete q0 = true →
  Reassembly.deadline q0 = Instant.saturating_add t0 constants.FRAGMENT_PERSISTENCE →
  state r = DeviceState.JoinedAuthorized →
  (* the sender's last block was confirmed at [t1] and its timers run at [t2] *)
  pending s = [at_block p None (PendingTx.block_count p - 1)
    (TxState.AwaitingAck (Instant.saturating_add t1 constants.ACK_WAIT_DURATION))] →
  t0 ≤ t1 → now s ≤ t2 → sent_frames (poll_timers t2 s) ≠ sent_frames s →
  (* the retransmission arrives at [t] *)
  t2 ≤ t →
  let r1 := poll_timers t r in
  on_nwk_data (block_image p (PendingTx.block_count p - 1)) src dst None true lqi view r1 =
    (None, bump ApsStats.rx_ucast r1).
Proof.
  intros Hp Hc Hr _ Hd Hs Hps Ht Hn Hsent Ht2 r1.
  assert (state r1 = DeviceState.JoinedAuthorized) as Hs1 by (unfold r1; by rewrite poll_state).
  assert (Instant.saturating_add t1 constants.ACK_WAIT_DURATION ≤ t2) as Hdl.
  { apply Z.nlt_ge. intros Hlt. apply Hsent. eapply waiting_silent; [done|]. lia. }
  assert (reassembly r1 = None) as Hnone.
  { eapply poll_expires; [done|]. rewrite Hd. unfold Instant.saturating_add, sat_add, constants.FRAGMENT_PERSISTENCE in *. lia. }
  rewrite (receive_block p src dst ep lqi view Hp) by (done || lia).
  unfold handle_fragment, block_image. rewrite get_range_plain.
  cbn [block_header ApsHeader.with_extended ApsHeader.extended]. rewrite (proj2 (Z.eqb_neq _ 0)) by lia.
  cbn [ExtendedHeader.fragmentation ExtendedHeader.block_number]. rewrite (proj2 (Z.eqb_neq _ 0)) by lia.
  unfold expire_reassembly, next_block. set (r2 := bump ApsStats.rx_ucast r1).
  assert (reassembly r2 = None) as E by exact Hnone. by rewrite E, E.
Qed.
End transfer.

(** ** Runs *)

Definition sample_sender : Aps.t Z sample_dims :=
  set_network_state 0x11 DeviceState.JoinedAuthorized (new 1 ApsConfig.default).
Definition sample_request : DataRequest.t :=
  DataRequest.mk (Destination.Short 0x22 1) 0x0104 6 1 sample_asdu TxOptions.ACKED None None.

Lemma fragmented_transfer_completes_witness :
  let s1 := (data_request sample_request view_none sample_sender).2 in
  ∃ n d s' r', exchanges n 0x11 view_none view_none 200 s1 sample_receiver = ([d], s', r') ∧
    DataIndication.asdu d = sample_asdu ∧ events s' = [ApsEvent.DataConfirm 1 ApsStatus.Success].
Proof.
  intros s1.
  assert (plain_unicast 0x22 1 sample_request) as Hu.
  { constructor; try reflexivity; unfold uint; vm_compute; split; congruence. }
  destruct (fragmented_transfer_completes 0x22 1 sample_request view_none view_none 0x11 200 sample_sender sample_receiver 1 s1)
    as (n & d & s' & r' & He & Ha & _ & _ & Hev & _);
    [exact Hu|by repeat split|vm_compute; split; congruence|vm_compute; lia|vm_compute; lia|vm_compute; lia|vm_compute; lia|vm_compute; reflexivity
    |reflexivity|reflexivity|vm_compute; split; congruence|reflexivity|].
  exists n, d, s', r'. auto.
Defined.

(** The acknowledgement of the last block is lost: the receiver completes at 0,
    the sender retransmits at 1600, and nothing comes back. *)
Definition sample_after (i : Z) (r : Aps.t Z sample_dims) : Aps.t Z sample_dims :=
  set_actions [] (sample_receive i r).2.
Definition sample_done : Aps.t Z sample_dims := sample_after 1 (sample_after 0 sample_receiver).
Definition sample_waiting : Aps.t Z sample_dims :=
  set_pending [at_block sample_tx None 1 (TxState.AwaitingAck (Instant.saturating_add 0 constants.ACK_WAIT_DURATION))] sample_sender.

Lemma sample_transmission : transmission sample_tx 0x22 1.
Proof.
  constructor; try reflexivity; [apply sample_fragmented| |vm_compute; lia].
  unfold aps_header_wf, addressing_wf, uint; cbn; repeat split; done || lia.
Qed.

Lemma late_retransmission_unacknowledged_witness :
  let r1 := poll_timers 1600 sample_done in
  sent_frames (poll_timers 1600 sample_waiting) = [block_image sample_tx 1] ∧
  on_nwk_data (block_image sample_tx 1) 0x11 0x22 None true 200 view_none r1 = (None, bump ApsStats.rx_ucast r1) ∧
  actions (bump ApsStats.rx_ucast r1) = [].
Proof.
  split; [vm_compute; reflexivity|]. split; [|vm_compute; reflexivity].
  refine (late_retransmission_unacknowledged sample_tx 0x11 0x22 1 200 view_none sample_waiting sample_done
    _ 0 0 1600 1600 sample_transmission _ _ _ _ _ _ _ _ _ _).
  - vm_compute. reflexivity.
  - vm_compute. reflexivity.
  - reflexivity.
  - vm_compute. reflexivity.
  - reflexivity.
  - reflexivity.
  - lia.
  - vm_compute. congruence.
  - vm_compute. discriminate.
  - lia.
Defined.
