(* ===== verification/ApsPolicy.v ===== *)
(** * What frames may change (panweave-aps/src/layer/rx.rs, cmd.rs)

    The acceptance policy of the layer: a frame that carries no APS security
    cannot touch the link keys, the Trust Center the device believes in or its
    authorization, whatever it contains.  The Trust Center swap-out, on the
    other hand, does not do what it is there for. *)

From S2P Require Import Prelude Types Status Codec Wire Heapless FrameCounter AuxHeader Ccm SecFrame Mmo Keys ApsTables ApsFrame ApsCommand ApsSecurity ApsTypes ApsLayer ApsServices ApsReceive ApsFootprint ApsTransfer.
Import Aps Services Receive.

(** ** The link keys under the operations of the security state *)

Section keys.
Context {C : Type} {K : nat} `{!BlockCipher C} {CT : ConstantTimeEq} {H : Heapless}.
Implicit Types x : ApsSecurity.t C K.

(** Which key is held for which partner. *)
Definition key_pairs x : list (Z * list Z) := pk <$> LinkKeyTable.entries (ApsSecurity.keys x).

Lemma key_pairs_get_mut x p f :
  (∀ e, pk (f e) = pk e) → key_pairs (ApsSecurity.with_keys x (LinkKeyTable.get_mut (ApsSecurity.keys x) p f)) = key_pairs x.
Proof. intros Hf. by apply get_mut_same_keys. Qed.

Lemma key_pairs_on_entry x p f : (∀ e, pk (f e) = pk e) → key_pairs (ApsSecurity.on_entry x p f).2 = key_pairs x.
Proof. intros Hf. unfold ApsSecurity.on_entry. case_match; [by apply key_pairs_get_mut|done]. Qed.

Lemma cipher_for_keys x p k : ApsSecurity.keys (ApsSecurity.cipher_for x p k).2 = ApsSecurity.keys x.
Proof. unfold ApsSecurity.cipher_for. repeat case_match; done. Qed.

Lemma key_pairs_secure x buf hl pl level p k ieee ext :
  key_pairs (ApsSecurity.secure_outgoing x buf hl pl level p k ieee ext).2 = key_pairs x.
Proof.
  unfold ApsSecurity.secure_outgoing. case_match; [done|]. case_match; [|done]. case_match; [done|].
  destruct (OutgoingCounter.allocate _) as [[fc|] o]; [|by apply key_pairs_get_mut]. cbv zeta.
  set (x1 := ApsSecurity.with_keys x _). pose proof (cipher_for_keys x1 p k) as Hk.
  destruct (ApsSecurity.cipher_for x1 p k) as [[c|] x2]; cbn [snd] in Hk |- *.
  - destruct (protect_in_place _ _ _ _ _ _) as [r b]. cbn [snd]. unfold key_pairs. rewrite Hk. by apply (key_pairs_get_mut x).
  - unfold key_pairs. rewrite Hk. by apply (key_pairs_get_mut x).
Qed.

Lemma start_first_pairs es : pk <$> (ApsSecurity.start_first es).2 = pk <$> es.
Proof.
  induction es as [|e es IH]; cbn [ApsSecurity.start_first]; [done|].
  destruct (OutgoingCounter.start_reservation _) as [[r|] o]; [done|].
  destruct (ApsSecurity.start_first es) as [r es']. cbn in *. by f_equal.
Qed.

Lemma key_pairs_reserve fuel x : key_pairs (ApsSecurity.request_counter_reservations fuel x).2 = key_pairs x.
Proof.
  revert x. induction fuel as [|n IH]; intros x; cbn [ApsSecurity.request_counter_reservations]; [done|].
  pose proof (start_first_pairs (LinkKeyTable.entries (ApsSecurity.keys x))) as Hs.
  unfold ApsSecurity.start_counter_reservation.
  destruct (ApsSecurity.start_first _) as [[pr|] es]; cbn [snd] in Hs; [|done].
  set (x1 := ApsSecurity.with_keys x _). specialize (IH x1).
  destruct (ApsSecurity.request_counter_reservations n x1) as [acts x2]. cbn in IH |- *. by rewrite IH.
Qed.
End keys.

(** ** What an unauthenticated frame cannot change *)

Section policy.
Context {C : Type} {D : ApsDims.t} `{!BlockCipher C} {CT : ConstantTimeEq} {H : Heapless}.
Abbreviation st := (Aps.t C D).
Implicit Types s : st.

(** The keys, the Trust Center and the authorization of the device. *)
Definition trust s : list (Z * list Z) * Z * DeviceState.t :=
  (key_pairs (security s), Aib.trust_center_address (aib s), state s).

#[global] Instance trust_foot : Footprint trust.
Proof.
  constructor; try done; intros; unfold trust; cbn [security aib state set_security].
  - by rewrite key_pairs_secure.
  - by rewrite key_pairs_reserve.
  - unfold ApsSecurity.reset_incoming. by rewrite key_pairs_on_entry.
Qed.

Lemma on_verify_key_trust vk ctx view s : trust (on_verify_key vk ctx view s) = trust s.
Proof.
  unfold on_verify_key, confirm_key. case_match; [done|]. cbv zeta.
  match goal with |- context [if ApsStatus.is_success ?x then ?a else s] => set (s1 := if ApsStatus.is_success x then a else s) end.
  assert (trust s1 = trust s) as <-.
  { unfold s1. case_match; [|done]. rewrite (push_event_foot trust), (push_action_foot trust). unfold with_security, trust.
    destruct (ApsSecurity.set_attributes _ _ _) as [b x] eqn:E. cbn.
    rewrite <- (key_pairs_on_entry (security s) (VerifyKey.source vk) (KeyPair.set_attributes KeyAttributes.VerifiedKey)) by done.
    unfold ApsSecurity.set_attributes in E. by rewrite E. }
  destruct (RxContext.relayed ctx); [case_match|];
    first [apply (confirm_with_foot trust)|apply (confirm_via_foot trust)].
Qed.

(** A command without APS security, on a device that wants its network key
    encrypted. *)
Lemma run_command_trust inner depth cmd ctx sec view s :
  FrameSecurity.partner sec = None → ApsConfig.require_link_key_encryption_for_transport_key (config s) = true →
  (∀ m, (cmd = ApsCommand.RelayDownstream m ∨ cmd = ApsCommand.RelayUpstream m) →
     ∀ c s', is_some (RxContext.relayed c) = true → config s' = config s → trust (inner (RelayMessage.message m) c s').2 = trust s') →
  trust (run_command inner depth cmd ctx sec view s).2 = trust s.
Proof.
  intros Hsec Hreq Hi. unfold run_command. destruct cmd as [tk|ud|rd|rk|sk|u|vk|ck|m|m]; cbn [snd].
  - unfold on_transport_key, on_network_key, on_trust_center_link_key, on_application_link_key, policy_drop.
    rewrite Hsec. cbn [is_some negb orb andb]. rewrite Hreq. cbn [negb orb andb].
    repeat case_match; rewrite ?(push_event_foot trust), ?(bump_foot trust); done.
  - unfold on_update_device. repeat case_match; rewrite ?(push_event_foot trust), ?(bump_foot trust); done.
  - by rewrite Hsec.
  - unfold on_request_key. by rewrite Hsec; case_match.
  - unfold on_switch_key, policy_drop. repeat case_match; rewrite ?(push_event_foot trust), ?(bump_foot trust); done.
  - case_match; [apply (forward_foot trust)|done].
  - apply on_verify_key_trust.
  - unfold on_confirm_key, policy_drop. rewrite Hsec.
    repeat (case_match; [rewrite ?(push_event_foot trust), ?(bump_foot trust); done|]).
    by rewrite bool_decide_false in * by done.
  - repeat case_match; cbn [snd]; rewrite ?(forward_foot trust); try done. eapply Hi; eauto.
  - repeat case_match; cbn [snd]; rewrite ?(send_relay_foot trust); try done. eapply Hi; eauto.
Qed.

(** Data frames: duplicate rejection, reassembly and acknowledgements. *)
Section data.
Context {X : Type} (f : st → X) {F : Footprint f}.
Context (Hdedup : ∀ v s, f (set_dedup v s) = f s) (Hreassembly : ∀ v s, f (set_reassembly v s) = f s).

Lemma expire_reassembly_data s : f (expire_reassembly s) = f s.
Proof. unfold expire_reassembly. repeat case_match; rewrite ?Hreassembly; done. Qed.

Lemma handle_fragment_data buf a b h ctx sec dl s : f (handle_fragment buf a b h ctx sec dl s).2 = f s.
Proof.
  unfold handle_fragment. destruct (ApsHeader.extended h) as [ext|]; [|done].
  match goal with |- context [match ?o with Some _ => match get_range buf a b with _ => _ end | None => _ end] => destruct o as [blk|]; [|done] end.
  destruct (get_range buf a b) as [payload|]; [|done].
  rewrite <- (expire_reassembly_data s). generalize (expire_reassembly s). intros s1.
  case_match; [unfold first_block|unfold next_block]; cbv zeta;
    repeat case_match; cbn [snd];
    repeat first [rewrite (bump_foot f) | rewrite Hreassembly | rewrite (send_ack_foot f)]; done.
Qed.

Lemma deliver_frame_data buf a b h ctx sec dl e cl pr s : f (deliver_frame buf a b h ctx sec dl e cl pr s).2 = f s.
Proof.
  unfold deliver_frame. cbv zeta.
  match goal with |- context [let '(_, _) := ?m in _] => assert (f m.2 = f s) as Hm; [|destruct m as [dup s1]] end.
  { case_match; [done|]. destruct (DuplicateRejectionTable.check_and_record _ _ _ _ _). cbn. apply Hdedup. }
  cbn [snd] in Hm. destruct dup; cbn [snd].
  - case_match; rewrite ?(send_ack_foot f), ?(bump_foot f); done.
  - match goal with |- context [if ?c then send_ack h None ctx sec s1 else s1] => destruct c end;
    destruct (get_range buf a b); cbn [snd]; rewrite ?(send_ack_foot f); done.
Qed.

Lemma handle_data_data buf a b h ctx sec s : f (handle_data buf a b h ctx sec s).2 = f s.
Proof.
  unfold handle_data. cbv zeta. case_match; [|apply (bump_foot f)]. case_match; [apply (bump_foot f)|].
  case_match; [cbn; by rewrite (push_event_foot f), (bump_foot f)|].
  destruct (ApsHeader.src_endpoint h), (ApsHeader.cluster h), (ApsHeader.profile h); try apply (bump_foot f).
  destruct (delivery_of _ _ _) as [[dl|]|]; [|done|apply (bump_foot f)].
  case_match; [case_match; [apply (bump_foot f)|apply handle_fragment_data]|apply deliver_frame_data].
Qed.
End data.

(** A frame without APS security that is no acknowledgement; [inner] says the
    same of the frame a relay command carries. *)
Definition bare (inner : list Z → Prop) (buf : list Z) : Prop :=
  ∀ h hl, ApsHeader.decode_prefix buf = Ok (h, hl) →
    ApsFrameControl.security (ApsHeader.control h) = false ∧
    ApsFrameControl.frame_type (ApsHeader.control h) ≠ ApsFrameType.Ack ∧
    ∀ payload m, get_range buf hl (length buf) = Some payload →
      (decode_exact payload = Ok (ApsCommand.RelayDownstream m) ∨ decode_exact payload = Ok (ApsCommand.RelayUpstream m)) →
      inner (RelayMessage.message m).

#[global] Instance config_foot : Footprint (config : st → _).
Proof. by repeat split. Qed.

Lemma handle_command_trust inner depth buf a b h ctx sec view s :
  FrameSecurity.partner sec = None → ApsConfig.require_link_key_encryption_for_transport_key (config s) = true →
  (∀ pl m, get_range buf a b = Some pl →
     (decode_exact pl = Ok (ApsCommand.RelayDownstream m) ∨ decode_exact pl = Ok (ApsCommand.RelayUpstream m)) →
     ∀ c s', is_some (RxContext.relayed c) = true → config s' = config s →
       trust (inner (RelayMessage.message m) c s').2 = trust s') →
  trust (handle_command inner depth buf a b h ctx sec view s).2 = trust s.
Proof.
  intros Hsec Hreq Hi. unfold handle_command. destruct (ApsCommandId.from_raw <$> buf !! a) as [id|]; [|done].
  destruct (negb _ && negb _); [apply (bump_foot trust)|].
  match goal with |- context [if ?c then send_ack h None ctx sec s else s] =>
    set (s1 := if c then send_ack h None ctx sec s else s) end.
  assert (trust s1 = trust s ∧ config s1 = config s) as [<- Ec].
  { unfold s1. case_match; [split; [apply (send_ack_foot trust)|apply (send_ack_foot config)]|done]. }
  destruct (get_range buf a b) as [pl|] eqn:Hg; [|done].
  destruct (decode_exact pl) as [cmd|] eqn:Hc; [|apply (bump_foot trust)].
  apply run_command_trust; [done|by rewrite Ec|]. intros m Hm c s' Hr Ec'. apply (Hi pl); [done| |done|congruence].
  rewrite Hc. destruct Hm as [-> | ->]; auto.
Qed.

Lemma process_frame_trust inner P depth view buf ctx s :
  ApsConfig.require_link_key_encryption_for_transport_key (config s) = true → bare P buf →
  (∀ b c s', P b → config s' = config s → is_some (RxContext.relayed c) = true → trust (inner b c s').2 = trust s') →
  trust (process_frame_with inner depth view buf ctx s).2 = trust s.
Proof.
  intros Hreq Hb Hi. unfold process_frame_with.
  destruct (ApsHeader.decode_prefix buf) as [[h hl]|] eqn:Hd; [|apply (bump_foot trust)].
  destruct (Hb h hl Hd) as (Hs & Ht & Hrel). unfold unsecure_frame. rewrite Hs. cbn [negb].
  destruct (ApsFrameControl.frame_type (ApsHeader.control h)) eqn:Eft; [| |done|apply (bump_foot trust)].
  - rewrite (handle_data_data trust) by done. case_match; apply (bump_foot trust).
  - apply handle_command_trust; [done|done|]. intros pl m Hg Hm c s' Hr Hc. apply Hi; [|done|done]. by eapply Hrel.
Qed.

(** C8. A frame without APS security cannot change what the device trusts:
    whatever it contains, data or any command, addressed or relayed, it leaves
    the link keys, the Trust Center address and the authorization state alone,
    on every device that requires link-key encryption of transported keys (the
    default).  (Acknowledgements are apart: they complete the device's own key
    transport.) *)
Theorem unsecured_frames_change_no_trust buf src dst ieee secured lqi view s :
  ApsConfig.require_link_key_encryption_for_transport_key (config s) = true →
  bare (bare (λ _, True)) buf →
  trust (on_nwk_data buf src dst ieee secured lqi view s).2 = trust s.
Proof.
  intros Hreq Hb. unfold on_nwk_data, process_frame. eapply process_frame_trust; [done|exact Hb|].
  intros b c s' Hbare Hcfg _. eapply process_frame_trust; [by rewrite Hcfg|exact Hbare|]. done.
Qed.
End policy.

(** ** Trust Center swap-out *)

Section swap_out.
Context {C : Type} `{!BlockCipher C} {CT : ConstantTimeEq} {H : Heapless}.

(** A frame in its parts: header, auxiliary header, payload and MIC. *)
Definition in_parts (hd : list Z) (c : Z) (tl payload mic : list Z) : list Z := hd ++ (c :: tl) ++ payload ++ mic.

(** The first security processing of two frames that differ in their ciphertext
    only, and that both fail it, leaves the same octets behind. *)
Lemma failed_unsecure_same {K : nat} (x : ApsSecurity.t C K) level sender fallback hd c y tl aux P1 P2 M :
  length P1 = length P2 → SecurityLevel.encrypts level = true → length M = SecurityLevel.mic_len level →
  peek_aux (in_parts hd c tl P1 M) (length hd) = Ok aux → peek_aux (in_parts hd c tl P2 M) (length hd) = Ok aux →
  AuxHeader.wire aux = y :: tl →
  (ApsSecurity.unsecure_incoming x (in_parts hd c tl P1 M) (length hd) level sender fallback).1.1 = Err (SecCcm AuthenticationFailed) →
  (ApsSecurity.unsecure_incoming x (in_parts hd c tl P2 M) (length hd) level sender fallback).1.1 = Err (SecCcm AuthenticationFailed) →
  ApsSecurity.unsecure_incoming x (in_parts hd c tl P1 M) (length hd) level sender fallback =
  ApsSecurity.unsecure_incoming x (in_parts hd c tl P2 M) (length hd) level sender fallback.
Proof.
  intros Hl Henc HM Hp1 Hp2 Hw. unfold ApsSecurity.unsecure_incoming. rewrite Hp1, Hp2. cbv zeta.
  case_match; [done|]. case_match; [done|]. case_match; [|done]. case_match; [|done]. case_match; [|done].
  case_match; [done|]. destruct (ApsSecurity.cipher_for x _ _) as [[cipher|] x1]; [|done].
  pose proof (unprotect_spec cipher level z hd c y tl aux P1 M Hp1 Hw HM) as U1.
  pose proof (unprotect_spec cipher level z hd c y tl aux P2 M Hp2 Hw HM) as U2.
  fold (in_parts hd c tl P1 M) in U1. fold (in_parts hd c tl P2 M) in U2. rewrite U1, U2. cbv zeta. rewrite Henc.
  destruct (decrypt_in_place _ _ _ P1 M) as [[|e1] Q1] eqn:D1, (decrypt_in_place _ _ _ P2 M) as [[|e2] Q2] eqn:D2;
    cbn [fst snd]; try (repeat case_match; done).
  intros [= ->] [= ->]. apply decrypt_Err in D1 as ->. apply decrypt_Err in D2 as ->. by rewrite Hl.
Qed.

(** C25. The swap-out retry never sees the frame it is for: when the first
    security processing of a command fails authentication, it has already zeroed
    the payload in the buffer the retry then reads.  Two frames that differ only
    in their ciphertext get the same treatment, down to the octets released and
    the new state: acceptance by the hashed link key does not depend on what the
    replacement Trust Center sent. *)
Theorem swap_out_ignores_ciphertext {D : ApsDims.t} (s : Aps.t C D) h ctx hd c y tl aux P1 P2 M :
  let level := ApsConfig.security_level (config s) in
  let sender := match RxContext.relayed ctx with Some r => Some (RelayInfo.joiner r) | None => RxContext.src_ieee ctx end in
  let fallback := if bool_decide (state s = DeviceState.JoinedUnauthorized) then Some (trust_center_partner s) else None in
  let first P := (ApsSecurity.unsecure_incoming (security s) (in_parts hd c tl P M) (length hd) level sender fallback).1.1 in
  ApsFrameControl.security (ApsHeader.control h) = true →
  length P1 = length P2 → SecurityLevel.encrypts level = true → length M = SecurityLevel.mic_len level →
  peek_aux (in_parts hd c tl P1 M) (length hd) = Ok aux → peek_aux (in_parts hd c tl P2 M) (length hd) = Ok aux →
  AuxHeader.wire aux = y :: tl →
  first P1 = Err (SecCcm AuthenticationFailed) → first P2 = Err (SecCcm AuthenticationFailed) →
  unsecure_frame h (length hd) (in_parts hd c tl P1 M) ctx s = unsecure_frame h (length hd) (in_parts hd c tl P2 M) ctx s.
Proof.
  intros level sender fallback first Hs Hl Henc HM Hp1 Hp2 Hw H1 H2. unfold unsecure_frame. rewrite Hs. cbn [negb]. cbv zeta.
  fold level sender fallback.
  by rewrite (failed_unsecure_same (security s) level sender fallback hd c y tl aux P1 P2 M).
Qed.
End swap_out.

(** ** Runs *)

(** A device that shares the key [9] with its Trust Center 20 and rejoins. *)
Definition rejoining : Aps.t Z sample_dims :=
  let s : Aps.t Z sample_dims := new 10 ApsConfig.default in
  let s := set_network_state 0x22 DeviceState.JoinedUnauthorized s in
  let s := set_aib (Aib.with_trust_center 20 (aib s)) s in
  set_security (foldl ApsSecurityOp.exec ApsSecurity.new
    [ApsSecurityOp.Install (LinkKeyEntry.provisional 20 [9] Unique); ApsSecurityOp.Start; ApsSecurityOp.Commit 20 1024])
    s.

(** The replacement Trust Center 30 has the hash of the key for device 10. *)
Definition replacement : ApsSecurity.t Z 2 := foldl ApsSecurityOp.exec ApsSecurity.new
  [ApsSecurityOp.Install (LinkKeyEntry.provisional 10 (hash Z [9]) Unique); ApsSecurityOp.Start; ApsSecurityOp.Commit 10 1024].

Definition swap_frame : list Z :=
  (ApsSecurity.secure_outgoing replacement ([33; 7] ++ replicate 13 0 ++ [9; 1] ++ replicate 4 0) 2 2
     SecurityLevel.EncMic32 10 KeyIdentifier.Data 30 true).1.2.
Definition swap_header : ApsHeader.t := ApsHeader.secured (ApsHeader.command 7 false) true.
Definition swap_ctx : RxContext.t := RxContext.mk 0 0x22 None false 200 None.

(** The frame is genuine, and the swap-out processing accepts it as it was
    received; the layer drops it, as it drops the frame with another payload. *)
Lemma swap_out_ignores_ciphertext_witness :
  (ApsSecurity.unsecure_swap_out (security rejoining) swap_frame 2 SecurityLevel.EncMic32 20).1.1 =
    Ok (30, KeyIdentifier.Data, 15%nat, 17%nat) ∧
  ApsHeader.decode_prefix swap_frame = Ok (swap_header, 2%nat) ∧
  (unsecure_frame swap_header 2 swap_frame swap_ctx rejoining).1 = None ∧
  unsecure_frame swap_header 2 swap_frame swap_ctx rejoining =
    unsecure_frame swap_header 2 (splice 15 [1; 2] swap_frame) swap_ctx rejoining.
Proof.
  split; [vm_compute; reflexivity|]. split; [vm_compute; reflexivity|]. split; [vm_compute; reflexivity|].
  replace swap_frame with (in_parts [33; 7] 32 [0; 0; 0; 0; 30; 0; 0; 0; 0; 0; 0; 0] [8; 31] [65; 14; 33; 7])
    by (vm_compute; reflexivity).
  refine (swap_out_ignores_ciphertext rejoining swap_header swap_ctx [33; 7] 32 32
    [0; 0; 0; 0; 30; 0; 0; 0; 0; 0; 0; 0]
    (AuxHeader.link SecurityLevel.NoSecurity KeyIdentifier.Data 0 (Some 30)) [8; 31] [1; 2] [65; 14; 33; 7] _ _ _ _ _ _ _ _ _);
    vm_compute; reflexivity.
Defined.

(** A network key sent in clear to a device that is joining. *)
Definition clear_key_frame : list Z :=
  [1; 7; 5; 1] ++ replicate 16 0xAA ++ [0] ++ [10; 0; 0; 0; 0; 0; 0; 0] ++ [20; 0; 0; 0; 0; 0; 0; 0].

Lemma unsecured_frames_change_no_trust_witness :
  trust (on_nwk_data clear_key_frame 0 0x22 None false 200 view_none rejoining).2 =
    ([(20, [9])], 20, DeviceState.JoinedUnauthorized).
Proof.
  change ([(20, [9])], 20, DeviceState.JoinedUnauthorized) with (trust rejoining).
  refine (unsecured_frames_change_no_trust clear_key_frame 0 0x22 None false 200 view_none rejoining eq_refl _).
  intros h hl Hd. vm_compute in Hd. injection Hd as <- <-. split; [reflexivity|]. split; [discriminate|].
  intros payload m Hg. vm_compute in Hg. injection Hg as <-. intros [Hd|Hd]; vm_compute in Hd; discriminate.
Defined.
