(* ===== verification/ApsTimers.v ===== *)
(** * The timers and loops of the APS layer (panweave-aps/src/layer/tx.rs, mod.rs)

    [service_pending] and [expire_acks] walk the pending transmissions while
    removing entries from them; [poll_timers] runs both.  What they leave behind
    is what the host relies on: nothing that could be done now, and a next
    deadline in the future. *)

From S2P Require Import Prelude Types Status Codec Heapless FrameCounter AuxHeader Ccm SecFrame Keys ApsTables ApsFrame ApsCommand ApsSecurity ApsTypes ApsLayer ApsServices ApsReceive ApsFootprint.
Import Aps.

Section loops.
Context {C : Type} {D : ApsDims.t} `{!BlockCipher C} {CT : ConstantTimeEq} {H : Heapless}.
Abbreviation st := (Aps.t C D).
Implicit Types s : st.

(** ** What the steps do to the pending transmissions *)

Lemma push_action_pending a s : pending (push_action a s) = pending s.
Proof. unfold push_action. by case_match. Qed.

Lemma push_event_pending e s : pending (push_event e s) = pending s.
Proof. unfold push_event. by case_match. Qed.

(** Building a frame changes the security state and nothing else. *)
Section build.
Context {X : Type} (g : st → X) (Hg : ∀ v s, g (set_security v s) = g s).

Lemma secure_frame_only h pl p k e s : g (secure_frame h pl p k e s).2 = g s.
Proof using Hg.
  unfold secure_frame. destruct (vec_resize _ _ _ _); [|done]. destruct (encode h _) as [[|] w]; [|done].
  destruct (if ApsFrameControl.security _ then p else None); [|done].
  destruct (ApsSecurity.secure_outgoing _ _ _ _ _ _ _ _ _) as [[[]?]?]; apply Hg.
Qed.

Lemma se_bind_only {E A B} (m : SE st E A) (f : A → SE st E B) s :
  (∀ s, g (m s).2 = g s) → (∀ a s, g (f a s).2 = g s) → g ((m ≫= f) s).2 = g s.
Proof.
  intros Hm Hf. unfold mbind, se_bind. specialize (Hm s). destruct (m s) as [[a|e] s1]; cbn in *; [|done].
  by rewrite Hf.
Qed.

Lemma build_frame_only i s : g (build_frame i s).2 = g s.
Proof using Hg.
  unfold build_frame. apply se_bind_only; [done|]. intros ps s1. apply se_bind_only; [done|].
  intros p s2. destruct (block_frame p) as [[h a] b]. apply se_bind_only; [done|]. intros pl s3.
  destruct (PendingTx.wrap p) as [w|]; [|apply secure_frame_only].
  apply se_bind_only; [intros s4; destruct w; apply secure_frame_only|]. intros inner s4.
  apply se_bind_only; [done|]. intros wr s5. apply se_bind_only; [|intros; apply secure_frame_only].
  intros s6. by destruct (encode_to_slice _ _) as [[]?].
Qed.
End build.

Lemma build_frame_pending i s : pending (build_frame i s).2 = pending s.
Proof. by apply build_frame_only. Qed.

Lemma build_frame_actions i s : actions (build_frame i s).2 = actions s.
Proof. by apply build_frame_only. Qed.

Lemma reservations_pending s : pending (request_counter_reservations s) = pending s.
Proof.
  unfold request_counter_reservations. destruct (ApsSecurity.request_counter_reservations _ _) as [acts sec].
  change (pending s) with (pending (set_security sec s)). generalize (set_security sec s).
  induction (default [] acts) as [|[q v] l IH]; intros y; cbn [foldl]; [done|]. by rewrite IH, push_action_pending.
Qed.

Lemma finish_pending r status s : pending (finish_transmission r status s) = pending s.
Proof. unfold finish_transmission. repeat case_match; rewrite ?push_event_pending; done. Qed.

(** [complete] takes the entry out and moves the last one into its place. *)
Lemma complete_pending i status s p :
  pending s !! i = Some p →
  ∃ y, last (pending s) = Some y ∧
    pending (complete i status s) = <[i := y]> (take (length (pending s) - 1) (pending s)).
Proof.
  intros Hi. assert (i < length (pending s))%nat as Hl by by eapply lookup_lt_Some.
  destruct (last (pending s)) as [y|] eqn:Hy; [|apply last_None in Hy; rewrite Hy in Hl; cbn in Hl; lia].
  exists y. split; [done|]. unfold complete. rewrite (proj2 (Nat.leb_gt _ _)) by done.
  rewrite (vec_swap_remove_spec _ _ i p y Hi Hy). rewrite finish_pending.
  repeat case_match; rewrite ?push_action_pending; cbn; try done;
    unfold with_security in *; repeat case_match; simplify_eq; done.
Qed.

Lemma complete_length i status s p :
  pending s !! i = Some p → length (pending (complete i status s)) = (length (pending s) - 1)%nat.
Proof.
  intros Hi. destruct (complete_pending i status s p Hi) as (y & _ & ->). rewrite length_insert, length_take. lia.
Qed.

(** What is left when an entry at [i] is removed: the entries before stay, and
    every other one was there before. *)
Lemma complete_lookup i status s p j q :
  pending s !! i = Some p → pending (complete i status s) !! j = Some q →
  (j < i)%nat ∧ pending s !! j = Some q ∨ (i ≤ j)%nat ∧ ∃ k, (i ≤ k)%nat ∧ pending s !! k = Some q.
Proof.
  intros Hi Hj. destruct (complete_pending i status s p Hi) as (y & Hy & E). rewrite E in Hj.
  rewrite last_lookup in Hy.
  apply list_lookup_insert_Some in Hj as [(-> & <- & _)|[Hne Hj]].
  - right. split; [done|]. exists (pred (length (pending s))). split; [|done].
    apply lookup_lt_Some in Hi. lia.
  - apply lookup_take_Some in Hj as [Hj _].
    destruct (Nat.lt_ge_cases j i); [by left|]. right. split; [lia|]. exists j. auto.
Qed.

Lemma update_pending_lookup i f s j q :
  pending (update_pending i f s) !! j = Some q →
  (j ≠ i ∧ pending s !! j = Some q) ∨ (j = i ∧ ∃ p, pending s !! i = Some p ∧ q = f p).
Proof.
  cbn. intros Hj. destruct (decide (j = i)) as [->|Hne].
  - right. split; [done|]. rewrite list_lookup_alter_eq in Hj. destruct (pending s !! i) as [p|]; [|done].
    cbn in Hj. injection Hj as <-. eauto.
  - left. by rewrite list_lookup_alter_ne in Hj by done.
Qed.

(** ** service_pending *)

Definition is_ready (p : PendingTx.t) : Prop := PendingTx.state p = TxState.Ready.

(** A property of entries that handing them to the NWK layer keeps. *)
Definition kept_by_service (Q : PendingTx.t → Prop) : Prop :=
  ∀ p h, Q p → Q (PendingTx.set_state TxState.AwaitingNwkConfirm (PendingTx.set_handle h p)) ∧
               Q (PendingTx.set_state TxState.CounterPending p).

Definition settled_before (P : PendingTx.t → Prop) (i : nat) (l : list PendingTx.t) : Prop :=
  ∀ j p, (j < i)%nat → l !! j = Some p → P p.

Lemma service_loop_post Q fuel i s :
  kept_by_service Q → (length (pending s) - i ≤ fuel)%nat →
  Forall Q (pending s) → settled_before (λ p, ¬ is_ready p) i (pending s) →
  Forall (λ p, ¬ is_ready p ∧ Q p) (pending (service_loop fuel i s)).
Proof.
  intros HQ. revert i s. induction fuel as [|fuel IH]; intros i s Hf Hall Hb; cbn [service_loop].
  { apply Forall_lookup. intros j p Hj. split; [|by eapply Forall_lookup_1].
    eapply Hb; [|done]. apply lookup_lt_Some in Hj. lia. }
  destruct (pending s !! i) as [p|] eqn:Hi.
  2:{ apply Forall_lookup. intros j p Hj. split; [|by eapply Forall_lookup_1].
      eapply Hb; [|done]. apply lookup_lt_Some in Hj. apply lookup_ge_None in Hi. lia. }
  assert (∀ f s1, pending s1 = alter f i (pending s) → (∀ q, Q q → Q (f q)) → (¬ is_ready (f p)) →
    Forall (λ p, ¬ is_ready p ∧ Q p) (pending (service_loop fuel (S i) s1))) as Hnext.
  { intros f s1 E Hf' Hnr. apply IH; rewrite E.
    - rewrite length_alter. lia.
    - apply Forall_alter; [done|]. intros q _. apply Hf'.
    - intros j q Hj Hq. destruct (decide (j = i)) as [->|Hne].
      + rewrite list_lookup_alter_eq, Hi in Hq. by injection Hq as <-.
      + rewrite list_lookup_alter_ne in Hq by done. eapply Hb; [|done]. lia. }
  case_bool_decide as Hr; cbn [negb].
  2:{ apply (Hnext id); [by rewrite list_alter_id|done|done]. }
  pose proof (build_frame_pending i s) as Hbp. destruct (build_frame i s) as [[frame|e] s1]; cbn [snd] in Hbp.
  - cbn [alloc_handle]. eapply Hnext; [rewrite push_action_pending; cbn; by rewrite Hbp| |done].
    intros q Hq. by apply HQ.
  - assert (∀ e', Forall (λ p, ¬ is_ready p ∧ Q p) (pending (service_loop fuel i (complete i e' s1)))) as Hfail.
    { intros e'. rewrite <- Hbp in Hi. apply IH.
      - rewrite (complete_length i e' s1 p Hi), Hbp. lia.
      - apply Forall_lookup. intros j q Hj. rewrite <- Hbp in Hall.
        destruct (complete_lookup i e' s1 p j q Hi Hj) as [[_ ?]|(_ & k & _ & ?)]; by eapply Forall_lookup_1.
      - intros j q Hj Hq. rewrite <- Hbp in Hb.
        destruct (complete_lookup i e' s1 p j q Hi Hq) as [[_ ?]|[? _]]; [by eapply Hb|lia]. }
    destruct e; try apply Hfail.
    eapply Hnext; [rewrite reservations_pending; cbn; by rewrite Hbp| |done]. intros q Hq. by apply (HQ q None).
Qed.

(** More fuel changes nothing. *)
Lemma service_loop_fuel n m i s :
  (length (pending s) - i ≤ n)%nat → (length (pending s) - i ≤ m)%nat →
  service_loop n i s = service_loop m i s.
Proof.
  revert m i s. induction n as [|n IH]; intros m i s Hn Hm.
  - destruct m as [|m]; cbn [service_loop]; [done|]. by rewrite (proj2 (lookup_ge_None _ _)) by lia.
  - destruct m as [|m]; cbn [service_loop]; [by rewrite (proj2 (lookup_ge_None _ _)) by lia|].
    destruct (pending s !! i) as [p|] eqn:Hi; [|done]. assert (i < length (pending s))%nat by by eapply lookup_lt_Some.
    case_match; [apply IH; lia|].
    pose proof (build_frame_pending i s) as Hbp. destruct (build_frame i s) as [[frame|e] s1]; cbn [snd] in Hbp.
    + cbn [alloc_handle]. apply IH; rewrite push_action_pending; cbn; rewrite length_alter, Hbp; lia.
    + assert (∀ e', service_loop n i (complete i e' s1) = service_loop m i (complete i e' s1)) as Hfail.
      { intros e'. rewrite <- Hbp in Hi. apply IH; rewrite (complete_length i e' s1 p Hi), Hbp; lia. }
      destruct e; try apply Hfail. apply IH; rewrite reservations_pending; cbn; rewrite length_alter, Hbp; lia.
Qed.

(** ** expire_acks *)

(** The timer of an entry, and whether it has run out. *)
Definition timer_of (p : PendingTx.t) : option Z :=
  match PendingTx.state p with
  | TxState.AwaitingAck d | TxState.Deferred d => Some d
  | _ => None
  end.
Definition due (n : Z) (p : PendingTx.t) : Prop := ∃ d, timer_of p = Some d ∧ d ≤ n.

Lemma expire_loop_post fuel i s :
  (length (pending s) - i ≤ fuel)%nat → settled_before (λ p, ¬ due (now s) p) i (pending s) →
  Forall (λ p, ¬ due (now s) p) (pending (expire_loop fuel i s)).
Proof.
  revert i s. induction fuel as [|fuel IH]; intros i s Hf Hb; cbn [expire_loop].
  { apply Forall_lookup. intros j p Hj. eapply Hb; [|done]. apply lookup_lt_Some in Hj. lia. }
  destruct (pending s !! i) as [p|] eqn:Hi.
  2:{ apply Forall_lookup. intros j p Hj. eapply Hb; [|done]. apply lookup_lt_Some in Hj. apply lookup_ge_None in Hi. lia. }
  assert (∀ f s1, pending s1 = alter f i (pending s) → now s1 = now s → ¬ due (now s) (f p) →
    Forall (λ p, ¬ due (now s) p) (pending (expire_loop fuel (S i) s1))) as Hnext.
  { intros f s1 E En Hd. rewrite <- En. apply IH; rewrite E.
    - rewrite length_alter. lia.
    - rewrite En. intros j q Hj Hq. destruct (decide (j = i)) as [->|Hne].
      + rewrite list_lookup_alter_eq, Hi in Hq. by injection Hq as <-.
      + rewrite list_lookup_alter_ne in Hq by done. eapply Hb; [|done]. lia. }
  assert (¬ due (now s) p → Forall (λ p, ¬ due (now s) p) (pending (expire_loop fuel (S i) s))) as Hskip.
  { intros Hd. apply (Hnext id); [by rewrite list_alter_id|done|done]. }
  assert (∀ f, ¬ due (now s) (PendingTx.set_state TxState.Ready (f p))) as Hready by (intros f (d & Hd & _); done).
  unfold due, timer_of in *.
  destruct (PendingTx.state p) eqn:Hst.
  1-3: apply Hskip; rewrite ?Hst; naive_solver.
  - unfold Instant.has_reached. destruct (Z.leb_spec until (now s)).
    + eapply Hnext; [done|done|]. apply (Hready id).
    + apply Hskip. rewrite ?Hst. intros (d & [= <-] & ?). lia.
  - unfold Instant.has_reached. destruct (Z.leb_spec deadline (now s)).
    + case_match.
      * eapply Hnext; [done|done|]. apply (Hready (λ p, PendingTx.set_retries (PendingTx.retries p + 1) p)).
      * set (s1 := bump ApsStats.ack_failures s). assert (pending s1 !! i = Some p) as Hi1 by done.
        assert (now (complete i ApsStatus.NoAck s1) = now s) as En by (rewrite (complete_foot now); done).
        rewrite <- En. apply IH; rewrite ?En.
        -- rewrite (complete_length i _ s1 p Hi1). change (pending s1) with (pending s). lia.
        -- intros j q Hj Hq. destruct (complete_lookup i _ s1 p j q Hi1 Hq) as [[_ ?]|[? _]]; [by eapply Hb|lia].
    + apply Hskip. rewrite ?Hst. intros (d & [= <-] & ?). lia.
Qed.

(** ** poll_timers and next_deadline *)

(** Everything that asks to be woken up. *)
Definition alarms s : list Z :=
  omap (λ p, if bool_decide (is_ready p) then Some (now s) else timer_of p) (pending s) ++
  match reassembly s with Some r => [Reassembly.deadline r] | None => [] end.

Lemma foldl_consider l (best : option Z) :
  foldl (λ b x, consider x b) best l =
  match l, best with [], _ => best | x :: l, None => Some (foldl Z.min x l) | l, Some b => Some (foldl Z.min b l) end.
Proof.
  revert best. induction l as [|x l IH]; intros best; [done|]. cbn [foldl]. rewrite IH. destruct best as [b|]; cbn.
  - destruct (Z.leb_spec b x); destruct l; cbn; do 2 f_equal; lia.
  - by destruct l.
Qed.

Lemma foldl_min_spec (l : list Z) b :
  let m := foldl Z.min b l in (m = b ∨ m ∈ l) ∧ m ≤ b ∧ ∀ x, x ∈ l → m ≤ x.
Proof.
  revert b. induction l as [|y l IH]; intros b; cbn [foldl]; [split_and!; [by left|lia|by intros x ?%not_elem_of_nil]|].
  destruct (IH (Z.min b y)) as (H1 & H2 & H3). split_and!.
  - destruct H1 as [-> |?]; [|right; by apply elem_of_cons; right].
    destruct (Z.min_spec b y) as [[_ ->]|[_ ->]]; [by left|right; by apply elem_of_cons; left].
  - lia.
  - intros x [-> |Hx]%elem_of_cons; [lia|by apply H3].
Qed.

(** [next_deadline] is the earliest alarm. *)
Lemma next_deadline_alarms s : next_deadline s = foldl (λ b x, consider x b) None (alarms s).
Proof.
  unfold next_deadline, alarms. rewrite foldl_app.
  set (g := λ p, if bool_decide (is_ready p) then Some (now s) else timer_of p).
  assert (∀ l best, foldl (λ best p,
    match PendingTx.state p with
    | TxState.AwaitingAck deadline => consider deadline best
    | TxState.Deferred until => consider until best
    | TxState.Ready => consider (now s) best
    | _ => best
    end) best l = foldl (λ b x, consider x b) best (omap g l)) as ->.
  { induction l as [|p l IH]; intros best; [done|]. cbn [foldl]. rewrite IH. cbn [omap list_omap]. unfold g at 2, is_ready, timer_of.
    destruct (PendingTx.state p) eqn:E; case_bool_decide; try done; congruence. }
  by destruct (reassembly s).
Qed.

Lemma next_deadline_earliest s :
  match next_deadline s with
  | None => alarms s = []
  | Some d => d ∈ alarms s ∧ ∀ x, x ∈ alarms s → d ≤ x
  end.
Proof.
  rewrite next_deadline_alarms, foldl_consider. destruct (alarms s) as [|x l]; [done|].
  destruct (foldl_min_spec l x) as (H1 & H2 & H3). split.
  - apply elem_of_cons. destruct H1; auto.
  - intros y [-> |Hy]%elem_of_cons; auto.
Qed.

Lemma poll_now t s : now (poll_timers t s) = Z.max (now s) t.
Proof.
  unfold poll_timers. rewrite (service_foot now), (reservations_foot now).
  assert (∀ x : st, now (expire_reassembly x) = now x) as -> by (intros x; unfold expire_reassembly; repeat case_match; done).
  rewrite (expire_acks_foot now). destruct (Z.ltb_spec (now s) t); cbn; lia.
Qed.

Lemma poll_entries t s :
  Forall (λ p, ¬ is_ready p ∧ ¬ due (now (poll_timers t s)) p) (pending (poll_timers t s)).
Proof.
  rewrite poll_now. unfold poll_timers. set (s1 := if now s <? t then set_now t s else s).
  assert (now s1 = Z.max (now s) t) as <- by (unfold s1; destruct (Z.ltb_spec (now s) t); cbn; lia).
  unfold service_pending. apply service_loop_post.
  - intros p h _. split; intros (d & Hd & _); done.
  - lia.
  - rewrite reservations_pending.
    assert (∀ x : st, pending (expire_reassembly x) = pending x) as -> by (intros x; unfold expire_reassembly; repeat case_match; done).
    apply expire_loop_post; [lia|]. intros j p Hj. lia.
  - intros j p Hj. lia.
Qed.

Lemma poll_reassembly t s r :
  reassembly (poll_timers t s) = Some r → now (poll_timers t s) < Reassembly.deadline r.
Proof.
  rewrite poll_now. unfold poll_timers. rewrite (service_foot reassembly), (reservations_foot reassembly).
  unfold expire_reassembly, Instant.has_reached. rewrite (expire_acks_foot now), (expire_acks_foot reassembly).
  destruct (reassembly (if now s <? t then set_now t s else s)) as [r1|] eqn:E.
  - destruct (Z.leb_spec (Reassembly.deadline r1) (now (if now s <? t then set_now t s else s))) as [?|Hlt]; cbn; [done|].
    rewrite (expire_acks_foot reassembly), E. intros [= <-].
    destruct (Z.ltb_spec (now s) t); cbn in Hlt; lia.
  - by rewrite (expire_acks_foot reassembly), E.
Qed.
(** ** What is handed to the NWK layer *)

(** The request that carries [frame] for the transmission [p]. *)
Definition nwk_request (h : Z) (frame : list Z) (p : PendingTx.t) : ApsAction.t :=
  ApsAction.NwkData h (PendingTx.dst p) (PendingTx.radius p) (ShortAddress.is_unicast (PendingTx.dst p))
    (PendingTx.nwk_secure p) (PendingTx.alias p) frame.

(** [p] waits for the confirm of the request in [acts] that carries the frame built
    from it. *)
Definition handed (acts : list ApsAction.t) (p : PendingTx.t) : Prop :=
  ∃ h frame i s1 s2 p0, pending s1 !! i = Some p0 ∧ build_frame i s1 = (Ok frame, s2) ∧
    p = PendingTx.set_state TxState.AwaitingNwkConfirm (PendingTx.set_handle (Some h) p0) ∧
    nwk_request h frame p ∈ acts.

Lemma handed_mono a b p : a `prefix_of` b → handed a p → handed b p.
Proof. intros [k ->] (h & frame & i & s1 & s2 & p0 & ? & ? & ? & ?). exists h, frame, i, s1, s2, p0. rewrite elem_of_app. auto. Qed.

Lemma push_action_prefix a s : actions s `prefix_of` actions (push_action a s).
Proof. unfold push_action. rewrite deque_push_back_spec. destruct (_ <? _)%nat; cbn; [by eexists|done]. Qed.

Lemma push_action_in a s : (length (actions (push_action a s)) < ApsDims.Queue D)%nat → a ∈ actions (push_action a s).
Proof.
  unfold push_action. rewrite deque_push_back_spec. destruct (Nat.ltb_spec (length (actions s)) (ApsDims.Queue D)); cbn; [|lia].
  intros _. apply elem_of_app. right. by apply list_elem_of_singleton.
Qed.

Lemma push_event_actions e s : actions (push_event e s) = actions s.
Proof. unfold push_event. by case_match. Qed.

Lemma finish_actions r status s : actions (finish_transmission r status s) = actions s.
Proof. unfold finish_transmission. repeat case_match; rewrite ?push_event_actions; done. Qed.

Lemma complete_prefix i status s : actions s `prefix_of` actions (complete i status s).
Proof.
  unfold complete. case_match; [done|]. destruct (vec_swap_remove _ _) as [[p ps]|]; [|done]. rewrite finish_actions.
  repeat case_match; try done.
  all: etrans; [|apply push_action_prefix]; unfold with_security; by destruct (ApsSecurity.replace_key _ _ _ _ _).
Qed.

Lemma reservations_prefix s : actions s `prefix_of` actions (request_counter_reservations s).
Proof.
  unfold request_counter_reservations. destruct (ApsSecurity.request_counter_reservations _ _) as [acts sec].
  change (actions s) with (actions (set_security sec s)). generalize (set_security sec s).
  induction (default [] acts) as [|[q v] l IH]; intros y; cbn [foldl]; [done|].
  etrans; [|apply IH]. apply push_action_prefix.
Qed.

Lemma service_loop_prefix fuel i s : actions s `prefix_of` actions (service_loop fuel i s).
Proof.
  revert i s. induction fuel as [|fuel IH]; intros i s; cbn [service_loop]; [done|].
  destruct (pending s !! i) as [p|]; [|done]. case_match; [apply IH|].
  pose proof (build_frame_actions i s) as Ha. destruct (build_frame i s) as [[frame|e] s1]; cbn [snd] in Ha.
  - cbn [alloc_handle]. rewrite <- Ha. etrans; [|apply IH]. etrans; [|apply push_action_prefix]. done.
  - rewrite <- Ha. destruct e; (etrans; [|apply IH]); try apply complete_prefix.
    etrans; [|apply reservations_prefix]. done.
Qed.

Lemma elem_of_altered {A} (f : A → A) i (l : list A) p x : l !! i = Some p → x ∈ alter f i l → x ∈ l ∨ x = f p.
Proof.
  intros Hi (j & Hj)%list_elem_of_lookup. destruct (decide (j = i)) as [->|Hne].
  - rewrite list_lookup_alter_eq, Hi in Hj. injection Hj as <-. by right.
  - rewrite list_lookup_alter_ne in Hj by done. left. by eapply list_elem_of_lookup_2.
Qed.

Lemma service_loop_handed fuel i s p :
  (length (actions (service_loop fuel i s)) < ApsDims.Queue D)%nat →
  p ∈ pending (service_loop fuel i s) →
  p ∈ pending s ∨ PendingTx.state p = TxState.CounterPending ∨ handed (actions (service_loop fuel i s)) p.
Proof.
  revert i s. induction fuel as [|fuel IH]; intros i s; cbn [service_loop]; [by auto|].
  destruct (pending s !! i) as [p0|] eqn:Hi; [|by auto]. case_match; [apply IH|].
  pose proof (build_frame_actions i s) as Ha. pose proof (build_frame_pending i s) as Hp.
  destruct (build_frame i s) as [[frame|e] s1] eqn:Eb; cbn [snd] in Ha, Hp.
  - cbn [alloc_handle]. set (s2 := push_action _ _). intros Hr Hin.
    pose proof (service_loop_prefix fuel (S i) s2) as Hpre. pose proof (prefix_length _ _ Hpre) as Hle.
    destruct (IH _ _ Hr Hin) as [H1|H1]; [|by auto].
    unfold s2 in H1. rewrite push_action_pending in H1. cbn in H1. rewrite Hp in H1.
    apply (elem_of_altered _ _ _ p0) in H1 as [H1| ->]; [by auto| |done]. right; right. eapply handed_mono; [exact Hpre|].
    do 2 eexists. exists i, s, s1, p0. split_and!; [done|done|reflexivity|].
    apply push_action_in. fold s2. lia.
  - assert (∀ st0, (length (actions (service_loop fuel i (complete i st0 s1))) < ApsDims.Queue D)%nat →
      p ∈ pending (service_loop fuel i (complete i st0 s1)) →
      p ∈ pending s ∨ PendingTx.state p = TxState.CounterPending ∨ handed (actions (service_loop fuel i (complete i st0 s1))) p) as Hfail.
    { intros st0 Hr Hin. destruct (IH _ _ Hr Hin) as [H1|H1]; [|by auto]. left. rewrite <- Hp in Hi |- *.
      apply list_elem_of_lookup in H1 as (j & Hj).
      destruct (complete_lookup i st0 s1 p0 j p Hi Hj) as [[_ ?]|(_ & k & _ & ?)]; by eapply list_elem_of_lookup_2. }
    destruct e; try apply Hfail. intros Hr Hin. destruct (IH _ _ Hr Hin) as [H1|H1]; [|by auto].
    rewrite reservations_pending in H1. cbn in H1. rewrite Hp in H1.
    apply (elem_of_altered _ _ _ p0) in H1 as [H1| ->]; by auto.
Qed.

(** What the timers leave was there before, or is made ready. *)
Lemma expire_loop_ready fuel i s p : p ∈ pending (expire_loop fuel i s) → p ∈ pending s ∨ is_ready p.
Proof.
  revert i s. induction fuel as [|fuel IH]; intros i s; cbn [expire_loop]; [by auto|].
  destruct (pending s !! i) as [p0|] eqn:Hi; [|by auto].
  assert (∀ f s1, pending s1 = alter f i (pending s) → is_ready (f p0) →
    p ∈ pending (expire_loop fuel (S i) s1) → p ∈ pending s ∨ is_ready p) as Hnext.
  { intros f s1 E Hf Hin. destruct (IH _ _ Hin) as [H1|H1]; [|by auto]. rewrite E in H1.
    apply (elem_of_altered _ _ _ p0) in H1 as [H1| ->]; by auto. }
  destruct (PendingTx.state p0); try apply IH; (case_match; [|apply IH]); try (by eapply Hnext).
  case_match; [by eapply Hnext|]. set (s1 := bump ApsStats.ack_failures s). intros [Hx|Hx]%IH; [|by auto]. left.
  apply list_elem_of_lookup in Hx as (j & Hj). assert (pending s1 !! i = Some p0) as Hi1 by done.
  destruct (complete_lookup i _ s1 p0 j p Hi1 Hj) as [[_ ?]|(_ & k & _ & ?)]; by eapply (list_elem_of_lookup_2 (pending s1)).
Qed.

Lemma poll_handed t s p :
  (length (actions (poll_timers t s)) < ApsDims.Queue D)%nat → p ∈ pending (poll_timers t s) →
  PendingTx.state p = TxState.AwaitingNwkConfirm → p ∈ pending s ∨ handed (actions (poll_timers t s)) p.
Proof.
  unfold poll_timers, service_pending. intros Hr Hin Hst.
  destruct (service_loop_handed _ _ _ _ Hr Hin) as [H1|[H1|H1]]; [|congruence|by right]. left.
  rewrite reservations_pending in H1.
  assert (∀ x : st, pending (expire_reassembly x) = pending x) as Hx by (intros x; unfold expire_reassembly; repeat case_match; done).
  rewrite Hx in H1. apply expire_loop_ready in H1 as [H1|H1]; [|unfold is_ready in H1; congruence].
  by destruct (now s <? t).
Qed.
End loops.

(** ** Theorems *)

(** C9. [poll_timers] leaves nothing undone: no pending transmission is ready and
    none has a timer that is due; one that waits for the NWK layer waited before
    or, as long as the action queue is not full, the request that carries the frame
    built from it is in that queue; no expired reassembly is kept; and
    [next_deadline] is [None] when no timer is armed, and otherwise the earliest
    armed timer, strictly after the time polled, so that a host that sleeps until
    then never spins and serves every timer on time. *)
Theorem poll_timers_settles {C} {D : ApsDims.t} `{!BlockCipher C} {CT : ConstantTimeEq} {H : Heapless}
    (t : Z) (s : Aps.t C D) :
  let s' := poll_timers t s in
  now s' = Z.max (now s) t ∧
  Forall (λ p, PendingTx.state p ≠ TxState.Ready ∧ ∀ d, timer_of p = Some d → now s' < d) (pending s') ∧
  ((length (actions s') < ApsDims.Queue D)%nat → ∀ p, p ∈ pending s' →
     PendingTx.state p = TxState.AwaitingNwkConfirm → p ∈ pending s ∨ handed (C:=C) (D:=D) (actions s') p) ∧
  match next_deadline s' with
  | None => (∀ p, p ∈ pending s' → timer_of p = None) ∧ reassembly s' = None
  | Some d => now s' < d ∧ (∀ p x, p ∈ pending s' → timer_of p = Some x → d ≤ x) ∧
              (∀ r, reassembly s' = Some r → d ≤ Reassembly.deadline r) ∧
              ((∃ p, p ∈ pending s' ∧ timer_of p = Some d) ∨ ∃ r, reassembly s' = Some r ∧ Reassembly.deadline r = d)
  end.
Proof.
  intros s'. pose proof (poll_entries t s) as Hp. pose proof (poll_reassembly t s) as Hr.
  fold s' in Hp, Hr. split; [apply poll_now|]. split.
  { eapply Forall_impl; [exact Hp|]. intros p [Hn Hd]. split; [done|]. intros d Ht. apply Z.nle_gt. intros ?. apply Hd. by exists d. }
  split; [intros Hroom p; by apply poll_handed|].
  assert (∀ x, x ∈ alarms s' ↔ (∃ p, p ∈ pending s' ∧ timer_of p = Some x) ∨ ∃ r, reassembly s' = Some r ∧ Reassembly.deadline r = x) as Ha.
  { intros x. unfold alarms. rewrite elem_of_app, list_elem_of_omap. rewrite Forall_forall in Hp.
    split; intros [(p & Hin & Hx)|Hx]; [left|right|left|right].
    - rewrite bool_decide_false in Hx by by apply Hp. eauto.
    - destruct (reassembly s') as [r|]; [|by apply not_elem_of_nil in Hx]. apply list_elem_of_singleton in Hx as ->. eauto.
    - exists p. rewrite bool_decide_false by by apply Hp. done.
    - destruct Hx as (r & -> & <-). by apply list_elem_of_singleton. }
  pose proof (next_deadline_earliest s') as He. destruct (next_deadline s') as [d|].
  - destruct He as [Hd Hmin]. rewrite Forall_forall in Hp. split_and!.
    + apply Ha in Hd as [(p & Hin & Ht)|(r & E & <-)]; [|by apply Hr]. destruct (Hp p Hin) as [_ Hnd].
      apply Z.nle_gt. intros ?. apply Hnd. by exists d.
    + intros p x Hin Ht. apply Hmin, Ha. eauto.
    + intros r E. apply Hmin, Ha. eauto.
    + by apply Ha.
  - split.
    + intros p Hin. destruct (timer_of p) as [x|] eqn:Ht; [|done].
      assert (x ∈ alarms s') as Hx by (apply Ha; eauto). rewrite He in Hx. by apply not_elem_of_nil in Hx.
    + destruct (reassembly s') as [r|] eqn:E; [|done].
      assert (Reassembly.deadline r ∈ alarms s') as Hx by (apply Ha; eauto). rewrite He in Hx. by apply not_elem_of_nil in Hx.
Qed.
