(* ===== verification/ApsQueues.v ===== *)
(** * Counter reservations and the action queue of the APS layer (panweave-aps/src/layer/tx.rs)

    What happens to the counter reservations of many link keys when the action
    queue has no room for all of them. *)

From S2P Require Import Prelude Types Status Codec Heapless FrameCounter AuxHeader Ccm SecFrame Keys ApsTables ApsFrame ApsCommand ApsSecurity ApsTypes ApsLayer ApsServices ApsReceive ApsFootprint ApsTimers.
Import Aps Services Receive.

(** ** Counter reservations and a full action queue *)

Section overflow.
Context {C : Type} {D : ApsDims.t} `{!BlockCipher C} {CT : ConstantTimeEq} {H : Heapless}.
Abbreviation st := (Aps.t C D).
Implicit Types s : st.

Definition link_keys s : list LinkKeyEntry.t := LinkKeyTable.entries (ApsSecurity.keys (security s)).
Definition reservation (pr : Z * Z) : ApsAction.t := ApsAction.CounterReservation pr.1 pr.2.

(** Pushing a batch keeps what fits. *)
Lemma foldl_push_actions (l : list (Z * Z)) s :
  actions (foldl (λ s '(p, r), push_action (ApsAction.CounterReservation p r) s) s l) =
    actions s ++ take (ApsDims.Queue D - length (actions s)) (reservation <$> l) ∧
  security (foldl (λ s '(p, r), push_action (ApsAction.CounterReservation p r) s) s l) = security s.
Proof.
  revert s. induction l as [|[p r] l IH]; intros s; cbn [foldl fmap list_fmap]; [by rewrite take_nil, app_nil_r|].
  destruct (IH (push_action (ApsAction.CounterReservation p r) s)) as [-> ->].
  unfold push_action. rewrite deque_push_back_spec.
  destruct (Nat.ltb_spec (length (actions s)) (ApsDims.Queue D)); cbn.
  - split; [|done]. rewrite length_app, <- app_assoc. cbn.
    replace (ApsDims.Queue D - length (actions s))%nat with (S (ApsDims.Queue D - (length (actions s) + 1))) by lia. done.
  - split; [|done]. by replace (ApsDims.Queue D - length (actions s))%nat with 0%nat by lia.
Qed.

Lemma reservations_actions s :
  actions (request_counter_reservations s) =
    actions s ++ take (ApsDims.Queue D - length (actions s)) (reservation <$> omap wanted (link_keys s)) ∧
  link_keys (request_counter_reservations s) = started <$> link_keys s.
Proof.
  unfold request_counter_reservations.
  rewrite request_spec by (pose proof (length_wanted (LinkKeyTable.entries (ApsSecurity.keys (security s)))); lia).
  cbn [default from_option id]. unfold link_keys at 2. destruct (foldl_push_actions (omap wanted (link_keys s))
    (set_security (ApsSecurity.with_keys (security s) (LinkKeyTable.mk (started <$> LinkKeyTable.entries (ApsSecurity.keys (security s))))) s)) as [E1 E2].
  unfold link_keys in *. by rewrite E1, E2.
Qed.

Lemma wanted_started es : omap wanted (started <$> es) = [].
Proof. induction es as [|e es IH]; [done|]. cbn. by rewrite started_idle. Qed.

Lemma wanted_partners es : (omap wanted es).*1 `sublist_of` (LinkKeyEntry.partner <$> es).
Proof.
  induction es as [|e es IH]; [done|]. cbn. unfold wanted at 1.
  destruct (OutgoingCounter.start_reservation _) as [[r|] o]; cbn; by constructor.
Qed.

Lemma get_started {K} (ks : LinkKeyTable.t K) p :
  LinkKeyTable.get (LinkKeyTable.mk (K:=K) (started <$> LinkKeyTable.entries ks)) p = started <$> LinkKeyTable.get ks p.
Proof.
  unfold LinkKeyTable.get. cbn [LinkKeyTable.entries]. induction (LinkKeyTable.entries ks) as [|e es IH]; [done|].
  cbn. change (LinkKeyTable.of_partner p (started e)) with (LinkKeyTable.of_partner p e). by destruct (LinkKeyTable.of_partner p e).
Qed.

(** C23. Reservations that do not fit the action queue are lost for good: the
    loop starts the reservation of every key that needs one, but an action
    beyond the room left in the queue is dropped.  The host never learns of that
    reservation, the layer never asks for it again (the counter stays in
    flight), and every frame to be secured for that partner is refused for want
    of a counter. *)
Theorem reservation_queue_overflow s n p r e :
  NoDup (LinkKeyEntry.partner <$> link_keys s) →
  (ApsDims.Queue D - length (actions s) ≤ n)%nat → omap wanted (link_keys s) !! n = Some (p, r) →
  LinkKeyTable.get (ApsSecurity.keys (security s)) p = Some e →
  LinkKeyEntry.attributes e ≠ KeyAttributes.UnverifiedKey →
  OutgoingCounter.allocate (LinkKeyEntry.outgoing e) = (Err ReservationRequired, LinkKeyEntry.outgoing e) →
  let s1 := request_counter_reservations s in
  (∀ r', ApsAction.CounterReservation p r' ∈ actions s1 → ApsAction.CounterReservation p r' ∈ actions s) ∧
  (∀ s2, link_keys s2 = link_keys s1 → actions (request_counter_reservations s2) = actions s2) ∧
  (∀ buf hl pl level k ieee ext, k ≠ KeyIdentifier.Network →
     (ApsSecurity.secure_outgoing (security s1) buf hl pl level p k ieee ext).1.1 = Err SecureError.CounterPending).
Proof.
  intros Hnd Hn Hw Hg Ha Hal s1. destruct (reservations_actions s) as [E1 E2]. fold s1 in E1, E2. split_and!.
  - intros r' Hin. rewrite E1 in Hin. apply elem_of_app in Hin as [?|Hin]; [done|]. exfalso.
    apply list_elem_of_lookup in Hin as [i Hi]. apply lookup_take_Some in Hi as [Hi Hlt].
    rewrite list_lookup_fmap in Hi. destruct (omap wanted (link_keys s) !! i) as [[p' r'']|] eqn:Ew; [|done].
    cbn in Hi. injection Hi as -> ->.
    assert (NoDup (omap wanted (link_keys s)).*1) as Hnd' by (eapply sublist_NoDup; [done|apply wanted_partners]).
    assert (i = n) as ->; [|lia]. eapply NoDup_lookup; [exact Hnd'|..]; rewrite list_lookup_fmap; [by rewrite Ew|by rewrite Hw].
  - intros s2 E. destruct (reservations_actions s2) as [-> _]. rewrite E, E2, wanted_started. cbn [fmap list_fmap]. by rewrite take_nil, app_nil_r.
  - intros buf hl pl level k ieee ext Hk. unfold ApsSecurity.secure_outgoing. rewrite bool_decide_false by done.
    assert (LinkKeyTable.get (ApsSecurity.keys (security s1)) p = Some (started e)) as ->.
    { assert (ApsSecurity.keys (security s1) = LinkKeyTable.mk (started <$> link_keys s)) as ->.
      { destruct (ApsSecurity.keys (security s1)) as [es] eqn:E. f_equal. rewrite <- E2. unfold link_keys. by rewrite E. }
      unfold link_keys. by rewrite get_started, Hg. }
    rewrite bool_decide_false by done.
    assert ((OutgoingCounter.allocate (LinkKeyEntry.outgoing (started e))).1 = Err ReservationRequired) as Hf.
    { revert Hal. unfold started, OutgoingCounter.start_reservation, OutgoingCounter.allocate.
      destruct (OutgoingCounter.needs_reservation _); cbn; case_match; try done; case_match; done. }
    destruct (OutgoingCounter.allocate (LinkKeyEntry.outgoing (started e))) as [x o]. cbn in Hf |- *. by rewrite Hf.
Qed.
End overflow.

(** ** Runs *)

(** A Trust Center restarted with one link key more than its queue has room
    for. *)
Definition restarted : Aps.t Z (ApsDims.Dims 32 2 2 2) :=
  set_security (foldl ApsSecurityOp.exec ApsSecurity.new
    ((λ n, ApsSecurityOp.Install (KeyPair.set_attributes KeyAttributes.VerifiedKey
       (LinkKeyEntry.provisional (Z.of_nat n) [9] Unique))) <$> seq 1 17)) (new 100 ApsConfig.default).

Lemma reservation_queue_overflow_witness :
  let s1 := request_counter_reservations restarted in
  length (actions s1) = 16%nat ∧
  (∀ r', ApsAction.CounterReservation 17 r' ∈ actions s1 → ApsAction.CounterReservation 17 r' ∈ actions restarted) ∧
  (ApsSecurity.secure_outgoing (security s1) (replicate 40 0) 2 3 SecurityLevel.EncMic32 17 KeyIdentifier.Data 100 true).1.1 =
    Err SecureError.CounterPending.
Proof.
  intros s1. split; [vm_compute; reflexivity|].
  edestruct (reservation_queue_overflow restarted 16 17 1024) as (H1 & _ & H3).
  - apply (bool_decide_unpack _). vm_compute. exact I.
  - vm_compute. lia.
  - vm_compute. reflexivity.
  - vm_compute. reflexivity.
  - vm_compute. discriminate.
  - vm_compute. reflexivity.
  - split; [exact H1|]. apply H3. discriminate.
Defined.
